(* ===== verification/_CoqProject ===== *)
-Q . S2P
Prelude.v
Machine.v
State.v
CString.v
Spinlock.v
Smp.v
Kalloc.v
Vm.v
VmTheory.v
VmMap.v
VmUser.v
VmAlloc.v
VmLoops.v
VmCopy.v
VmAccess.v
Sched.v
VmFree.v
SchedTheory.v
SmpSleep.v
ProcMem.v
Sleeplock.v
Pipe.v
PipeTheory.v
Bio.v
BioList.v
BioCache.v
Log.v
LogTheory.v
LogRun.v
LogOps.v
Fs.v
LogTx.v
FsTheory.v
FsOps.v
FsTx.v
FsFile.v
FsRw.v
FsDir.v
Mkfs.v
MkfsTheory.v
MkfsRun.v
Console.v
File.v
Process.v
ProcFork.v
Exec.v
Sysfile.v
Syscall.v
SysTheory.v
Virtio.v
VirtioTheory.v
Trap.v
User.v
Ulib.v
Umalloc.v
UmallocTheory.v
Grep.v
Progs.v
Sh.v
ShTheory.v
ShRun.v
Riscv.v
RiscvTheory.v
Sv39.v
VmKernel.v
Asm.v
AsmTheory.v
TrapTheory.v
KvecTheory.v
BootTheory.v
Demo.v
DemoFs.v
MemoryProps.v
SchedProps.v
PipeProps.v
LogProps.v
FsProps.v
FileProps.v
TrapProps.v
UserProps.v
