(* ===== verification/Prelude.v ===== *)
(** * xv6 (RISC-V): a verification development

    xv6 is a small Unix: a kernel (src/kernel/), the programs that run on it
    (src/user/) and the tool that builds its disk image (src/mkfs/). This library
    models the kernel and most of the programs as executable definitions and
    proves what they promise each other.

    ** The parts of the program and the files of the library

    Foundations.
    - Prelude: machine integers ([u8] ... [u64], [s16], [s32] wrap around as the C
      types do), counted loops, lemmas on lists, the tactics and the hint
      database.
    - Machine: the constants and address macros of kernel/param.h, memlayout.h,
      riscv.h and fs.h.
    - State: every struct of the kernel as a record, the whole kernel state
      [kstate], and the monad [M] in which kernel code is written. A run ends in
      [Ok], in [Panic] with its message, in [Switch] when it gives up the hart (the
      saved context is the continuation), or in [Hang] when a loop has used up its
      bound. The class [Env] holds what the linker decides ([end], [etext], the
      addresses in the trampoline) and the bound [fuel] of the loops that wait for
      an event.

    The kernel.
    - CString: kernel/string.c over byte memory.
    - Spinlock, Smp: kernel/spinlock.c twice, as operations of the running hart
      and as a step relation on any number of harts whose memory accesses
      interleave.
    - Kalloc: kernel/kalloc.c, the free list threaded through free pages.
    - Vm: kernel/vm.c on page tables in physical memory. VmTheory, VmMap, VmUser,
      VmAlloc, VmLoops, VmCopy, VmAccess: the abstraction of a page table to the
      map of pages a user owns, and what each routine does to that map. VmFree: the
      address space of a process from proc_pagetable() to proc_freepagetable().
      VmKernel: the kernel's own page table, and what a hart may do with it.
    - Sched, Process: kernel/proc.c (scheduling, sleep and wakeup; fork, exit,
      wait). SchedTheory: their effect on the process table.
      SmpSleep: sleep(), wakeup(), kill(), yield() and scheduler() statement by
      statement, interleaved on any number of harts. ProcMem: the memory of
      a process under allocproc(), growproc() and freeproc(). ProcFork: what fork()
      shares with the child and what it copies.
    - Sleeplock, Pipe, PipeTheory: kernel/sleeplock.c, kernel/pipe.c; a struct pipe
      is a bounded queue.
    - Bio, BioList, BioCache: kernel/bio.c; the ring of buffers as a list in order
      of use, and the cache as a view of the disk.
    - Log, LogTheory, LogRun, LogOps, LogTx: kernel/log.c; what the log on the disk
      stands for, the block writes of commit() and recovery in order, and
      block updates inside a transaction.
    - Fs, FsTheory, FsOps: kernel/fs.c; layout of inodes and bitmap, and inode and
      block operations on the view of the disk.
    - FsTx, FsFile, FsRw, FsDir: transactions that hold buffers; the blocks of a file
      and bmap(); readi() and writei() with user memory or kernel variables at the
      other end; directories and the inode table.
    - Console, File, Exec, Sysfile, Syscall, Virtio, Trap: the remaining files of
      the kernel, kernel/main.c included, as executable definitions. VirtioTheory:
      a disk request from its submission to its completion. SysTheory: what printf()
      prints and what syscall() and sysinfo() do.

    The programs.
    - User: what a program sees of the system. A descriptor delivers its bytes in
      arbitrary pieces; the monad [U] threads this world and ends in [Done],
      [Exited] or [Starved].
    - Ulib, Grep, Progs: user/ulib.c, printf.c, grep.c, cat.c, wc.c, echo.c,
      kill.c, ln.c, mkdir.c, rm.c, trace.c, ls.c, init.c.
    - Sh, ShTheory, ShRun: user/sh.c; the parser, its inverse, and the tree of
      processes that a command becomes, with their descriptors.
    - Umalloc, UmallocTheory: user/umalloc.c; the circular free list as a sorted
      list of blocks that do not touch.

    The tool.
    - Mkfs, MkfsTheory, MkfsRun: mkfs/mkfs.c; the image as a map of blocks, and the
      files a reader of the image finds.

    The hart.
    - Riscv: registers, control registers, privilege modes, Sv39 translation,
      traps and the instructions of the assembly files.
    - Asm: entry.S, swtch.S, trampoline.S and kernelvec.S as lists of instructions,
      the accessors of riscv.h, and start.c.
    - RiscvTheory, Sv39: straight-line code; what the hardware makes of a page table
      that vm.c built. AsmTheory, KvecTheory, BootTheory: what each routine does.
    - TrapTheory: trap.c and trampoline.S together.

    Demo and DemoFs hold concrete machines and checkers that decide the invariants
    by computation; the files named Props hold the properties, each with an
    example that applies it to such a machine.

    ** How the parts meet

    Components meet in the state and in what they promise about it. [kmem_ok]
    (Kalloc) is what Vm relies on: pages come off the free list and go back to it.
    [uspace] (VmUser) is what copyin() and copyout() rely on, and they are what
    pipes and system calls rely on. [proc_space] (VmFree) adds the trampoline and the
    trapframe: it is what allocproc(), growproc(), fork() and freeproc() promise each other.
    [at_rest] (BioCache) is what the log needs of
    the buffer cache, [in_tx] (FsOps) is what the file system needs of the log. The
    kernel runs one kernel thread at a time between two [Switch]es: this is the
    view of a hart that holds the locks it needs, and Smp shows that acquire() and
    release() provide it: every interleaving of the memory accesses of the harts is
    one of atomic acquires and releases. What depends on the order in which a thread
    takes and drops several locks cannot be seen in this view; SmpSleep interleaves
    the statements of sleep(), wakeup(), kill(), yield() and scheduler(), which are
    the operations of Sched.v, between clients that do anything else.

    ** What the theorems show

    - Memory (MemoryProps): kinit() puts every page frame on the free list; growing
      and copying an address space map exactly the pages they should, undo their
      work when memory runs out, and lose no page; the kernel's access to user
      memory moves exactly the bytes asked for and faults where the user would.
    - Memory of processes (MemoryProps): the address space of a process has the shape
      its size says ([proc_space]); allocproc() builds it or takes nothing,
      growproc() keeps it, and freeproc() puts every page back on the free list.
      fork() gives the child a copy of it and of the registers, and shares the
      files; or it fails and has taken nothing.
    - Kernel page table (MemoryProps): kvmmake() cannot fail with enough memory; on its
      result the text is not writable, the rest not executable, and the guard pages
      of the kernel stacks fault.
    - Locks (Smp): mutual exclusion and interrupts off in the critical section,
      refinement of an atomic lock, panics exactly on misuse.
    - Scheduling (SchedProps): in every interleaving of the harts, a wakeup() that
      is called with the condition lock held misses no process that has released
      that lock in sleep(), and no process is on two harts; wakeup() and kill()
      touch exactly their processes; sched() refuses to switch in a wrong state.
    - Pipes (PipeProps): reading returns what was written, in order.
    - Log and cache (LogProps): a transaction is atomic whatever block write a crash
      interrupts, and recovery may itself be interrupted; begin_op() admits only
      what the log can hold; the cache returns the current content of a block
      and recycles the least recently used buffer.
    - File system (FsProps): inodes written are inodes read; blocks allocated are
      free, zeroed and given back.
    - Programs (UserProps): grep's matcher decides the language of its
      pattern and grep writes the matching lines however the input is cut;
      wc, cat, atoi and printf; the shell reads back every command tree that
      is printed, ends on every line, and wires pipelines and redirections.
    - Allocator (UserProps): malloc() returns a block nobody else has, free() gives it
      back and merges it with its neighbours.
    - Disk (LogProps): with any device that keeps to the virtio specification, which
      is a hypothesis ([VirtioBlk]), driver and interrupt handler perform the block
      transfer that the buffer cache takes as one step.
    - Image (MkfsRun): mkfs builds a file system in which every file reads back.
    - Traps (TrapProps): user registers survive the way into the kernel and back, an
      interrupt of the kernel is invisible to it, swtch() resumes what it suspended, and
      the timer set up by start() keeps running without a trace in what it interrupts.
    - System calls (TrapProps): dispatch, the trace line, and what sysinfo() reports.
    - Files (FileProps): what writei() writes readi() reads, within the blocks of the
      log that begin_op() reserves; a linked name is found.
    ** Bounds

    Loops of the C code that count are structural recursion on the count. Loops
    over user memory take a bound computed from their arguments, and the theorems
    show the result, so the bound is enough. A loop that waits for an event
    (sleep() in a loop) goes on after a [Switch], and [fuel] bounds the number of
    times; the theorems need only 0 < [fuel], because they speak about runs
    up to the next [Switch]. The programs' loops take the length of the input as
    bound ([uloop]); the theorems show [Done] or [Exited], never [Starved]. The two
    loops of init have no end of their own, and its bound is the number of shells
    and of reaped children. kvmmake() needs at most 72 tables and 64 stacks, which
    is the bound on free memory in its theorem. The
    parser of the shell takes the length of the line, and [sh_parse_total] shows
    that it is enough on every line.

    ** Not modelled

    The translation buffer, the accessed and dirty bits of page tables and the
    encoding of instructions: the hart always reads the current tables, and where
    the linker put which instruction is a parameter. The kernel monad [M] runs C
    code; that the compiled code of a C function behaves as its definition is not
    part of the library. Weak memory: the fences of spinlock.c ask for sequential
    consistency, which Smp takes for granted. Other functions of the kernel are
    not interleaved: SmpSleep has no steps of fork(), exit() and wait(). The virtio
    device is a parameter. kernel/ramdisk.c is not part of the
    build, and uses fields that struct buf no longer has. user/usertests.c, grind.c, forktest.c, stressfs.c,
    sysinfotest.c and zombie.c are tests of the system and no part of it. *)

From Stdlib Require Import ZArith Lia.
From stdpp Require Import base numbers gmap strings countable tactics list.

#[global] Open Scope Z_scope.
#[global] Set Default Goal Selector "!".

(** ** Machine integers

    A C integer of width [w] is a [Z] in its range; every operation that can
    leave the range is followed by one of these reductions. *)
Definition u8 (z : Z) : Z := z mod 2 ^ 8.
Definition u16 (z : Z) : Z := z mod 2 ^ 16.
Definition u32 (z : Z) : Z := z mod 2 ^ 32.
Definition u64 (z : Z) : Z := z mod 2 ^ 64.
Definition s16 (z : Z) : Z := (z + 2 ^ 15) mod 2 ^ 16 - 2 ^ 15.
Definition s32 (z : Z) : Z := (z + 2 ^ 31) mod 2 ^ 32 - 2 ^ 31.

(** ** Automation shared by the components *)
Create HintDb xv6 discriminated.
Create Rewrite HintDb xv6.

(** [pow2] makes the powers of two of the goal numerals, so that [lia] sees
    constants. *)
Ltac pow2 :=
  repeat match goal with
  | |- context [2 ^ ?n] =>
      let e := eval vm_compute in (2 ^ n) in
      lazymatch e with Z0 => idtac | Zpos _ => idtac | Zneg _ => idtac end;
      change (2 ^ n) with e
  | H : context [2 ^ ?n] |- _ =>
      let e := eval vm_compute in (2 ^ n) in
      lazymatch e with Z0 => idtac | Zpos _ => idtac | Zneg _ => idtac end;
      change (2 ^ n) with e in H
  end.

Ltac wrap := unfold u8, u16, u32, u64, s16, s32 in *; pow2; Z.div_mod_to_equations; lia.

Lemma u64_small z : 0 ≤ z < 2 ^ 64 → u64 z = z.
Proof. apply Z.mod_small. Qed.

Lemma u32_small z : 0 ≤ z < 2 ^ 32 → u32 z = z.
Proof. apply Z.mod_small. Qed.

Lemma u8_small z : 0 ≤ z < 2 ^ 8 → u8 z = z.
Proof. apply Z.mod_small. Qed.

Lemma u8_range z : 0 ≤ u8 z < 2 ^ 8.
Proof. apply Z.mod_pos_bound. lia. Qed.

Lemma u32_range z : 0 ≤ u32 z < 2 ^ 32.
Proof. apply Z.mod_pos_bound. lia. Qed.

Lemma u64_range z : 0 ≤ u64 z < 2 ^ 64.
Proof. apply Z.mod_pos_bound. lia. Qed.

Lemma s32_small z : - 2 ^ 31 ≤ z < 2 ^ 31 → s32 z = z.
Proof. intros. unfold s32. rewrite Z.mod_small; lia. Qed.

#[export] Hint Resolve u8_range u32_range u64_range : xv6.

(** ** Arrays

    A C array of a static size is a list; an access is by a [Z] or [nat]
    index. The reads below return the given default out of range, which no
    theorem relies on. *)
Definition nthZ (l : list Z) (i : Z) : Z := nth (Z.to_nat i) l 0.
Definition updZ (l : list Z) (i : Z) (v : Z) : list Z := <[Z.to_nat i := v]> l.

Lemma length_updZ l i v : length (updZ l i v) = length l.
Proof. apply length_insert. Qed.

Lemma nthZ_updZ_eq l i v :
  0 ≤ i < Z.of_nat (length l) → nthZ (updZ l i v) i = v.
Proof.
  intros Hi. unfold nthZ, updZ. rewrite nth_lookup.
  rewrite list_lookup_insert_eq by lia. done.
Qed.

Lemma nthZ_updZ_ne l i j v :
  0 ≤ i → 0 ≤ j → i ≠ j → nthZ (updZ l i v) j = nthZ l j.
Proof.
  intros ???. unfold nthZ, updZ. rewrite !nth_lookup.
  rewrite list_lookup_insert_ne by lia. done.
Qed.

Lemma nthZ_app l1 l2 i :
  0 ≤ i → nthZ (l1 ++ l2) i =
  if decide (i < Z.of_nat (length l1)) then nthZ l1 i else nthZ l2 (i - Z.of_nat (length l1)).
Proof.
  intros Hi. unfold nthZ. case_decide.
  - apply app_nth1. lia.
  - rewrite app_nth2 by lia. f_equal. lia.
Qed.

(** Lists are equal when they have the same bytes. *)
Lemma list_eq_nthZ l1 l2 :
  length l1 = length l2 → (∀ i, 0 ≤ i < Z.of_nat (length l1) → nthZ l1 i = nthZ l2 i) → l1 = l2.
Proof.
  intros Hl Hn. apply (nth_ext l1 l2 0 0 Hl). intros i Hi.
  specialize (Hn (Z.of_nat i) ltac:(lia)). unfold nthZ in Hn. by rewrite Nat2Z.id in Hn.
Qed.

Lemma nthZ_fmap_seqZ (f : Z → Z) n i : 0 ≤ i < n → nthZ (f <$> seqZ 0 n) i = f i.
Proof.
  intros Hi. unfold nthZ. rewrite nth_lookup, list_lookup_fmap.
  rewrite lookup_seqZ_lt by lia. simpl. f_equal. lia.
Qed.

Lemma seqZ_fmap_add k n : seqZ k n = Z.add k <$> seqZ 0 n.
Proof. rewrite (fmap_add_seqZ k 0 n). f_equal. lia. Qed.

Lemma list_alter_none {A} (f : A → A) i (l : list A) : l !! i = None → alter f i l = l.
Proof.
  intros Hl. apply list_eq. intros j. destruct (decide (j = i)) as [->|].
  - by rewrite list_lookup_alter_eq, Hl.
  - by rewrite list_lookup_alter_ne.
Qed.

Lemma list_insert_inv {A} (l : list A) i j x y :
  <[i := x]> l !! j = Some y → j = i ∧ y = x ∨ j ≠ i ∧ l !! j = Some y.
Proof. rewrite list_lookup_insert_Some. naive_solver. Qed.

Lemma list_alter_insert {A} (f : A → A) i (l : list A) x : l !! i = Some x → alter f i l = <[i := f x]> l.
Proof.
  intros Hx. apply list_eq. intros j. destruct (decide (j = i)) as [->|].
  - rewrite list_lookup_alter_eq, Hx, list_lookup_insert_eq; [done|]. by eapply lookup_lt_Some.
  - by rewrite list_lookup_alter_ne, list_lookup_insert_ne.
Qed.

(** Counting the elements that satisfy a test. *)
Definition count {A} (f : A → bool) (l : list A) : Z := Z.of_nat (length (filter (λ x, f x = true) l)).

Lemma count_cons {A} (f : A → bool) x l : count f (x :: l) = (if f x then 1 else 0) + count f l.
Proof.
  unfold count. rewrite filter_cons. destruct (f x); [rewrite decide_True by done|rewrite decide_False by done]; simpl; lia.
Qed.

Lemma count_insert {A} (f : A → bool) l i x y :
  l !! i = Some x → count f (<[i := y]> l) = count f l - (if f x then 1 else 0) + (if f y then 1 else 0).
Proof.
  revert i. induction l as [|z l IH]; intros [|i] Hx; simplify_eq/=.
  - rewrite !count_cons. lia.
  - rewrite !count_cons, (IH i Hx). lia.
Qed.

Lemma count_le {A} (f : A → bool) l : 0 ≤ count f l ≤ Z.of_nat (length l).
Proof. unfold count. pose proof (length_filter (λ x, f x = true) l). lia. Qed.

Lemma count_app {A} (f : A → bool) a b : count f (a ++ b) = count f a + count f b.
Proof. unfold count. rewrite filter_app, length_app. lia. Qed.

Lemma count_ext {A} (f g : A → bool) l : (∀ x, x ∈ l → f x = g x) → count f l = count g l.
Proof.
  induction l as [|x l IH]; intros Hl; [done|]. rewrite !count_cons, (Hl x) by apply list_elem_of_here.
  rewrite IH; [done|]. intros y Hy. by apply Hl, list_elem_of_further.
Qed.

Lemma count_none {A} (f : A → bool) l : (∀ x, x ∈ l → f x = false) → count f l = 0.
Proof.
  induction l as [|x l IH]; intros Hl; [done|]. rewrite count_cons, (Hl x) by apply list_elem_of_here.
  rewrite IH; [done|]. intros y Hy. by apply Hl, list_elem_of_further.
Qed.

(** Not everything is counted: there is an element that fails the test. *)
Lemma count_lt {A} (f : A → bool) l :
  count f l < Z.of_nat (length l) → ∃ i x, l !! i = Some x ∧ f x = false.
Proof.
  induction l as [|x l IH]; [simpl; unfold count; simpl; lia|]. rewrite count_cons. simpl.
  destruct (f x) eqn:Hx; intros Hlt.
  - destruct IH as (i & y & Hy & Hf); [lia|]. by exists (S i), y.
  - by exists 0%nat, x.
Qed.

(** ** Bytes of a buffer *)

(** [n] elements of [l] from [off] on, and [l] with [x] put there. *)
Definition slice {A} (l : list A) (off n : Z) : list A := take (Z.to_nat n) (drop (Z.to_nat off) l).
Definition splice {A} (l : list A) (off : Z) (x : list A) : list A :=
  take (Z.to_nat off) l ++ x ++ drop (Z.to_nat off + length x) l.

Section splice.
Context {A : Type}.
Implicit Types (l x : list A) (off n : Z).

Lemma length_splice l off x :
  0 ≤ off → off + Z.of_nat (length x) ≤ Z.of_nat (length l) → length (splice l off x) = length l.
Proof. intros. unfold splice. rewrite !length_app, length_take, length_drop. lia. Qed.

Lemma length_slice l off n :
  0 ≤ off → 0 ≤ n → off + n ≤ Z.of_nat (length l) → length (slice l off n) = Z.to_nat n.
Proof. intros. unfold slice. rewrite length_take, length_drop. lia. Qed.

Lemma slice_splice_eq l off x n :
  0 ≤ off → off + n ≤ Z.of_nat (length l) → n = Z.of_nat (length x) → slice (splice l off x) off n = x.
Proof.
  intros Ho Hl ->. unfold slice, splice. rewrite drop_app_length' by (rewrite length_take; lia).
  by rewrite Nat2Z.id, take_app_length.
Qed.

Lemma slice_splice_ne l off x off' n :
  0 ≤ off → 0 ≤ off' → 0 ≤ n → off + Z.of_nat (length x) ≤ Z.of_nat (length l) →
  off' + n ≤ off ∨ off + Z.of_nat (length x) ≤ off' →
  slice (splice l off x) off' n = slice l off' n.
Proof.
  intros Ho Ho' Hn Hl Hd. unfold slice, splice. apply list_eq. intros k.
  destruct (decide (k < Z.to_nat n)%nat); [|by rewrite !lookup_take_ge by lia].
  rewrite !lookup_take_lt, !lookup_drop by lia. destruct Hd.
  - rewrite lookup_app_l by (rewrite length_take; lia). by rewrite lookup_take_lt by lia.
  - rewrite !lookup_app_r by (rewrite ?length_take; lia). rewrite lookup_drop, length_take. f_equal. lia.
Qed.
End splice.
