(* ===== verification/Machine.v ===== *)
(** * Machine constants and address arithmetic

    The constants of kernel/param.h, kernel/memlayout.h, kernel/riscv.h and
    kernel/fs.h, and the address macros of kernel/riscv.h ([PGROUNDUP], the
    PTE packing macros, [PX]) as functions on 64-bit integers, with the
    arithmetic facts the virtual-memory code relies on. *)

From Stdlib Require Import ZArith Lia.
From stdpp Require Import base numbers gmap strings countable tactics list.
From S2P Require Import Prelude.

(** ** kernel/param.h *)
Definition NPROC : nat := 64.
Definition NCPU : Z := 8.
Definition NOFILE : nat := 16.
Definition NFILE : nat := 100.
Definition NINODE : nat := 50.
Definition NDEV : Z := 10.
Definition ROOTDEV : Z := 1.
Definition MAXARG : nat := 32.
Definition MAXOPBLOCKS : Z := 10.
Definition LOGSIZE : Z := MAXOPBLOCKS * 3.
Definition NBUF : nat := 30.
Definition FSSIZE : Z := 1000.
Definition MAXPATH : Z := 128.

#[global] Arguments NPROC : simpl never.
#[global] Arguments NOFILE : simpl never.
#[global] Arguments NFILE : simpl never.
#[global] Arguments NINODE : simpl never.
#[global] Arguments NBUF : simpl never.

(** ** kernel/riscv.h: pages *)
Definition PGSIZE : Z := 4096.
Definition PGSHIFT : Z := 12.

(** [(((sz)+PGSIZE-1) & ~(PGSIZE-1))] on a [uint64]. *)
Definition PGROUNDUP (sz : Z) : Z := Z.land (u64 (sz + PGSIZE - 1)) (u64 (Z.lnot (PGSIZE - 1))).
Definition PGROUNDDOWN (a : Z) : Z := Z.land a (u64 (Z.lnot (PGSIZE - 1))).

Definition PTE_V : Z := Z.shiftl 1 0.
Definition PTE_R : Z := Z.shiftl 1 1.
Definition PTE_W : Z := Z.shiftl 1 2.
Definition PTE_X : Z := Z.shiftl 1 3.
Definition PTE_U : Z := Z.shiftl 1 4.

Definition PA2PTE (pa : Z) : Z := u64 (Z.shiftl (Z.shiftr pa 12) 10).
Definition PTE2PA (pte : Z) : Z := u64 (Z.shiftl (Z.shiftr pte 10) 12).
Definition PTE_FLAGS (pte : Z) : Z := Z.land pte 0x3FF.

Definition PXMASK : Z := 0x1FF.
Definition PXSHIFT (level : Z) : Z := PGSHIFT + 9 * level.
Definition PX (level va : Z) : Z := Z.land (Z.shiftr va (PXSHIFT level)) PXMASK.

Definition MAXVA : Z := Z.shiftl 1 (9 + 9 + 9 + 12 - 1).

Definition SATP_SV39 : Z := Z.shiftl 8 60.
Definition MAKE_SATP (pagetable : Z) : Z := Z.lor SATP_SV39 (Z.shiftr pagetable 12).

Definition SSTATUS_SPP : Z := Z.shiftl 1 8.
Definition SSTATUS_SPIE : Z := Z.shiftl 1 5.
Definition SSTATUS_SIE : Z := Z.shiftl 1 1.

Definition MSTATUS_MPP_MASK : Z := Z.shiftl 3 11.
Definition MSTATUS_MPP_S : Z := Z.shiftl 1 11.
Definition MSTATUS_MIE : Z := Z.shiftl 1 3.
Definition SIE_SEIE : Z := Z.shiftl 1 9.
Definition SIE_STIE : Z := Z.shiftl 1 5.
Definition SIE_SSIE : Z := Z.shiftl 1 1.
Definition MIE_MTIE : Z := Z.shiftl 1 7.

(** ** kernel/memlayout.h *)
Definition CLINT : Z := 0x2000000.
Definition CLINT_MTIMECMP (hartid : Z) : Z := CLINT + 0x4000 + 8 * hartid.
Definition CLINT_MTIME : Z := CLINT + 0xBFF8.
Definition UART0 : Z := 0x10000000.
Definition UART0_IRQ : Z := 10.
Definition VIRTIO0 : Z := 0x10001000.
Definition VIRTIO0_IRQ : Z := 1.
Definition PLIC : Z := 0x0c000000.
Definition PLIC_SENABLE (hart : Z) : Z := PLIC + 0x2080 + hart * 0x100.
Definition PLIC_SPRIORITY (hart : Z) : Z := PLIC + 0x201000 + hart * 0x2000.
Definition PLIC_SCLAIM (hart : Z) : Z := PLIC + 0x201004 + hart * 0x2000.
Definition KERNBASE : Z := 0x80000000.
Definition PHYSTOP : Z := KERNBASE + 128 * 1024 * 1024.
Definition TRAMPOLINE : Z := MAXVA - PGSIZE.
Definition KSTACK (p : Z) : Z := TRAMPOLINE - (p + 1) * 2 * PGSIZE.
Definition TRAPFRAME : Z := TRAMPOLINE - PGSIZE.

(** ** kernel/fs.h, kernel/stat.h, kernel/fcntl.h *)
Definition ROOTINO : Z := 1.
Definition BSIZE : Z := 1024.
Definition FSMAGIC : Z := 0x10203040.
Definition NDIRECT : Z := 12.
Definition NINDIRECT : Z := BSIZE / 4.
Definition MAXFILE : Z := NDIRECT + NINDIRECT.
Definition DINODE_SIZE : Z := 64.
Definition IPB : Z := BSIZE / DINODE_SIZE.
Definition BPB : Z := BSIZE * 8.
Definition DIRSIZ : Z := 14.
Definition DIRENT_SIZE : Z := 16.
Definition T_DIR : Z := 1.
Definition T_FILE : Z := 2.
Definition T_DEVICE : Z := 3.
Definition O_RDONLY : Z := 0x000.
Definition O_WRONLY : Z := 0x001.
Definition O_RDWR : Z := 0x002.
Definition O_CREATE : Z := 0x200.
Definition O_TRUNC : Z := 0x400.

(** ** What the macros compute *)
Lemma land_low z n : 0 ≤ n → Z.land z (2 ^ n - 1) = z mod 2 ^ n.
Proof. intros. rewrite <- Z.land_ones by lia. f_equal. rewrite Z.ones_equiv. lia. Qed.

Lemma land_high_clear z :
  0 ≤ z < 2 ^ 64 → Z.land z (u64 (Z.lnot (PGSIZE - 1))) = z - z mod PGSIZE.
Proof.
  intros Hz.
  replace (u64 (Z.lnot (PGSIZE - 1))) with (Z.ldiff (2 ^ 64 - 1) (PGSIZE - 1)) by reflexivity.
  rewrite Z.ldiff_land, Z.land_assoc.
  rewrite (land_low z 64) by lia. rewrite (Z.mod_small z) by lia.
  rewrite <- Z.ldiff_land. change (PGSIZE - 1) with (Z.ones 12).
  rewrite Z.ldiff_ones_r by lia. change PGSIZE with (2 ^ 12).
  rewrite Z.shiftl_mul_pow2, Z.shiftr_div_pow2 by lia.
  pose proof (Z.div_mod z (2 ^ 12)). lia.
Qed.

Lemma PGROUNDDOWN_eq a : 0 ≤ a < 2 ^ 64 → PGROUNDDOWN a = a - a mod PGSIZE.
Proof. apply land_high_clear. Qed.

Lemma PGROUNDUP_eq a :
  0 ≤ a < 2 ^ 64 - PGSIZE → PGROUNDUP a = (a + PGSIZE - 1) - (a + PGSIZE - 1) mod PGSIZE.
Proof.
  intros Ha. unfold PGROUNDUP. unfold PGSIZE in *.
  rewrite u64_small by lia. apply land_high_clear. unfold PGSIZE. lia.
Qed.

Lemma PX_range level va : 0 ≤ PX level va < 512.
Proof.
  unfold PX, PXMASK. change 0x1FF with (2 ^ 9 - 1). rewrite land_low by lia.
  change 512 with (2 ^ 9). apply Z.mod_pos_bound. lia.
Qed.

Lemma PX_eq level va : 0 ≤ level → PX level va = (va / 2 ^ (12 + 9 * level)) mod 512.
Proof.
  intros. unfold PX, PXMASK, PXSHIFT, PGSHIFT. change 0x1FF with (2 ^ 9 - 1).
  rewrite land_low, Z.shiftr_div_pow2 by lia. done.
Qed.

(** The three indices determine the virtual page of an address below
    [MAXVA], so distinct pages have distinct index triples. *)
Lemma PX_vpn va :
  0 ≤ va < MAXVA → va / PGSIZE = (PX 2 va * 512 + PX 1 va) * 512 + PX 0 va.
Proof.
  intros Hva. rewrite !PX_eq by lia. unfold MAXVA, PGSIZE in *.
  change (Z.shiftl 1 (9 + 9 + 9 + 12 - 1)) with (2 ^ 38) in Hva.
  change (12 + 9 * 2) with (12 + 9 + 9). change (12 + 9 * 1) with (12 + 9).
  change (12 + 9 * 0) with 12.
  rewrite !Z.pow_add_r, <- !Z.div_div by lia. pow2.
  Z.div_mod_to_equations. lia.
Qed.

Lemma PX_inj va va' :
  0 ≤ va < MAXVA → 0 ≤ va' < MAXVA →
  PX 2 va = PX 2 va' → PX 1 va = PX 1 va' → PX 0 va = PX 0 va' →
  va / PGSIZE = va' / PGSIZE.
Proof. intros. rewrite !PX_vpn by done. congruence. Qed.

Lemma PA2PTE_eq pa : 0 ≤ pa < 2 ^ 56 → PA2PTE pa = pa / PGSIZE * 1024.
Proof.
  intros. unfold PA2PTE. rewrite Z.shiftl_mul_pow2, Z.shiftr_div_pow2 by lia.
  change PGSIZE with (2 ^ 12). change 1024 with (2 ^ 10). wrap.
Qed.

Lemma PTE2PA_eq pte : 0 ≤ pte < 2 ^ 54 → PTE2PA pte = pte / 1024 * PGSIZE.
Proof.
  intros. unfold PTE2PA. rewrite Z.shiftl_mul_pow2, Z.shiftr_div_pow2 by lia.
  change PGSIZE with (2 ^ 12). change 1024 with (2 ^ 10). wrap.
Qed.

(** ORing flags below bit 10 into a packed address keeps both parts. *)
Lemma pte_pack_eq pa flags :
  0 ≤ pa < 2 ^ 56 → 0 ≤ flags < 1024 →
  Z.lor (PA2PTE pa) flags = pa / PGSIZE * 1024 + flags.
Proof.
  intros Hpa Hf. rewrite PA2PTE_eq by done.
  change 1024 with (2 ^ 10) in *. rewrite <- Z.shiftl_mul_pow2 by lia.
  assert (Hd : Z.land (Z.shiftl (pa / PGSIZE) 10) flags = 0).
  { apply Z.bits_inj'. intros n Hn. rewrite Z.land_spec, Z.bits_0.
    destruct (Z.ltb_spec n 10).
    - rewrite Z.shiftl_spec_low by lia. done.
    - rewrite <- (Z.mod_small flags (2 ^ 10)) by lia.
      rewrite Z.mod_pow2_bits_high by lia. apply andb_false_r. }
  symmetry. rewrite Z.add_nocarry_lxor, Z.lxor_lor; done.
Qed.

Lemma PTE2PA_pack pa flags :
  0 ≤ pa < 2 ^ 56 → pa mod PGSIZE = 0 → 0 ≤ flags < 1024 →
  PTE2PA (Z.lor (PA2PTE pa) flags) = pa.
Proof.
  intros Hpa Hal Hf. rewrite pte_pack_eq by done. unfold PGSIZE in *.
  rewrite PTE2PA_eq; unfold PGSIZE; pow2; Z.div_mod_to_equations; lia.
Qed.

Lemma PTE_FLAGS_pack pa flags :
  0 ≤ pa < 2 ^ 56 → 0 ≤ flags < 1024 →
  PTE_FLAGS (Z.lor (PA2PTE pa) flags) = flags.
Proof.
  intros Hpa Hf. unfold PTE_FLAGS. rewrite pte_pack_eq by done.
  change 0x3FF with (2 ^ 10 - 1). rewrite land_low by lia. pow2.
  Z.div_mod_to_equations. lia.
Qed.
