(* ===== verification/State.v ===== *)
(** * The kernel state and the kernel monad

    The C structures of the kernel (kernel/proc.h, kernel/file.h, kernel/buf.h,
    kernel/fs.h, kernel/log.c, kernel/pipe.c, ...) as records, the state of the
    whole kernel as one record of them, and the monad in which every kernel
    function of the development is written.

    A kernel function of C type [T f(args)] is a [f args : M T]: from a kernel
    state it returns a value and a state ([Ok]), panics ([Panic]), gives up the
    CPU in sched() with the rest of its run as a continuation ([Switch]), or
    spins for ever ([Hang]).

    Pointers into the kernel's static tables (proc[], ftable.file[],
    itable.inode[], bcache.buf[]) are indices; pointers to pages of physical
    memory are their addresses; a null pointer is [None] or address [0]. *)

From Stdlib Require Import ZArith Lia.
From stdpp Require Import base numbers gmap strings countable tactics list.
From S2P Require Import Prelude Machine.

(** ** Names of spin-locks and of sleep channels

    In C both are addresses. Every spin-lock of the kernel is one of these;
    every [chan] argument of sleep() and wakeup() is one of those below. *)
Inductive lockid :=
| LkKmem | LkPid | LkWait | LkFtable | LkItable | LkBcache | LkLog
| LkCons | LkUart | LkTicks | LkVdisk | LkPr
| LkProc (i : nat)
| LkPipe (pi : Z)
| LkBufSleep (i : nat)
| LkInodeSleep (i : nat).

#[global] Instance lockid_eq_dec : EqDecision lockid.
Proof. solve_decision. Defined.

Definition lockid_code (l : lockid) : Z * Z :=
  match l with
  | LkKmem => (0, 0) | LkPid => (1, 0) | LkWait => (2, 0) | LkFtable => (3, 0)
  | LkItable => (4, 0) | LkBcache => (5, 0) | LkLog => (6, 0) | LkCons => (7, 0)
  | LkUart => (8, 0) | LkTicks => (9, 0) | LkVdisk => (10, 0) | LkPr => (11, 0)
  | LkProc i => (12, Z.of_nat i) | LkPipe a => (13, a)
  | LkBufSleep i => (14, Z.of_nat i) | LkInodeSleep i => (15, Z.of_nat i)
  end.

Definition lockid_decode (c : Z * Z) : option lockid :=
  match c with
  | (0, _) => Some LkKmem | (1, _) => Some LkPid | (2, _) => Some LkWait
  | (3, _) => Some LkFtable | (4, _) => Some LkItable | (5, _) => Some LkBcache
  | (6, _) => Some LkLog | (7, _) => Some LkCons | (8, _) => Some LkUart
  | (9, _) => Some LkTicks | (10, _) => Some LkVdisk | (11, _) => Some LkPr
  | (12, i) => Some (LkProc (Z.to_nat i)) | (13, a) => Some (LkPipe a)
  | (14, i) => Some (LkBufSleep (Z.to_nat i)) | (15, i) => Some (LkInodeSleep (Z.to_nat i))
  | _ => None
  end.

#[global] Program Instance lockid_countable : Countable lockid :=
  inj_countable lockid_code lockid_decode _.
Next Obligation. intros []; simpl; rewrite ?Nat2Z.id; done. Qed.

Inductive chan :=
| ChProc (i : nat)            (* a struct proc *: a parent in wait() *)
| ChPipeRead (pi : Z)         (* &pi->nread *)
| ChPipeWrite (pi : Z)        (* &pi->nwrite *)
| ChLog                       (* &log *)
| ChBufSleep (i : nat)        (* &bcache.buf[i].lock *)
| ChInodeSleep (i : nat)      (* &itable.inode[i].lock *)
| ChBuf (i : nat)             (* &bcache.buf[i], awaiting the disk *)
| ChTicks                     (* &ticks *)
| ChCons                      (* &cons.r *)
| ChUart                      (* &uart_tx_r *)
| ChDiskFree.                 (* &disk.free[0] *)

#[global] Instance chan_eq_dec : EqDecision chan.
Proof. solve_decision. Defined.

(** ** The C structures *)

(** kernel/proc.h: enum procstate *)
Inductive procstate := UNUSED | USED | SLEEPING | RUNNABLE | RUNNING | ZOMBIE.

#[global] Instance procstate_eq_dec : EqDecision procstate.
Proof. solve_decision. Defined.

(** kernel/file.h: the type of a struct file *)
Inductive fdtype := FD_NONE | FD_PIPE | FD_INODE | FD_DEVICE.

#[global] Instance fdtype_eq_dec : EqDecision fdtype.
Proof. solve_decision. Defined.

(** kernel/proc.h: struct cpu of the executing hart, with the SIE bit of its
    sstatus register and its hartid (register tp). *)
Record cpu_t := mkCpu {
  c_proc : option nat;
  c_noff : Z;
  c_intena : bool;
  c_sie : bool;
  c_id : Z;
}.
Definition set_c_proc (x : option nat) (c : cpu_t) : cpu_t := mkCpu x (c_noff c) (c_intena c) (c_sie c) (c_id c).
Definition set_c_noff (x : Z) (c : cpu_t) : cpu_t := mkCpu (c_proc c) x (c_intena c) (c_sie c) (c_id c).
Definition set_c_intena (x : bool) (c : cpu_t) : cpu_t := mkCpu (c_proc c) (c_noff c) x (c_sie c) (c_id c).
Definition set_c_sie (x : bool) (c : cpu_t) : cpu_t := mkCpu (c_proc c) (c_noff c) (c_intena c) x (c_id c).
Definition set_c_id (x : Z) (c : cpu_t) : cpu_t := mkCpu (c_proc c) (c_noff c) (c_intena c) (c_sie c) x.

(** kernel/proc.h: struct proc. Its lock is [LkProc i]; of its saved context
    the two registers that allocproc() writes are kept. *)
Record proc := mkProc {
  p_state : procstate;
  p_chan : option chan;
  p_killed : bool;
  p_xstate : Z;
  p_pid : Z;
  p_parent : option nat;
  p_kstack : Z;
  p_sz : Z;
  p_pagetable : Z;
  p_trapframe : Z;
  p_ctx_ra : Z;
  p_ctx_sp : Z;
  p_ofile : list (option nat);
  p_cwd : option nat;
  p_name : list Z;
  p_trace_mask : Z;
}.
Definition set_p_state (x : procstate) (p : proc) : proc := mkProc x (p_chan p) (p_killed p) (p_xstate p) (p_pid p) (p_parent p) (p_kstack p) (p_sz p) (p_pagetable p) (p_trapframe p) (p_ctx_ra p) (p_ctx_sp p) (p_ofile p) (p_cwd p) (p_name p) (p_trace_mask p).
Definition set_p_chan (x : option chan) (p : proc) : proc := mkProc (p_state p) x (p_killed p) (p_xstate p) (p_pid p) (p_parent p) (p_kstack p) (p_sz p) (p_pagetable p) (p_trapframe p) (p_ctx_ra p) (p_ctx_sp p) (p_ofile p) (p_cwd p) (p_name p) (p_trace_mask p).
Definition set_p_killed (x : bool) (p : proc) : proc := mkProc (p_state p) (p_chan p) x (p_xstate p) (p_pid p) (p_parent p) (p_kstack p) (p_sz p) (p_pagetable p) (p_trapframe p) (p_ctx_ra p) (p_ctx_sp p) (p_ofile p) (p_cwd p) (p_name p) (p_trace_mask p).
Definition set_p_xstate (x : Z) (p : proc) : proc := mkProc (p_state p) (p_chan p) (p_killed p) x (p_pid p) (p_parent p) (p_kstack p) (p_sz p) (p_pagetable p) (p_trapframe p) (p_ctx_ra p) (p_ctx_sp p) (p_ofile p) (p_cwd p) (p_name p) (p_trace_mask p).
Definition set_p_pid (x : Z) (p : proc) : proc := mkProc (p_state p) (p_chan p) (p_killed p) (p_xstate p) x (p_parent p) (p_kstack p) (p_sz p) (p_pagetable p) (p_trapframe p) (p_ctx_ra p) (p_ctx_sp p) (p_ofile p) (p_cwd p) (p_name p) (p_trace_mask p).
Definition set_p_parent (x : option nat) (p : proc) : proc := mkProc (p_state p) (p_chan p) (p_killed p) (p_xstate p) (p_pid p) x (p_kstack p) (p_sz p) (p_pagetable p) (p_trapframe p) (p_ctx_ra p) (p_ctx_sp p) (p_ofile p) (p_cwd p) (p_name p) (p_trace_mask p).
Definition set_p_kstack (x : Z) (p : proc) : proc := mkProc (p_state p) (p_chan p) (p_killed p) (p_xstate p) (p_pid p) (p_parent p) x (p_sz p) (p_pagetable p) (p_trapframe p) (p_ctx_ra p) (p_ctx_sp p) (p_ofile p) (p_cwd p) (p_name p) (p_trace_mask p).
Definition set_p_sz (x : Z) (p : proc) : proc := mkProc (p_state p) (p_chan p) (p_killed p) (p_xstate p) (p_pid p) (p_parent p) (p_kstack p) x (p_pagetable p) (p_trapframe p) (p_ctx_ra p) (p_ctx_sp p) (p_ofile p) (p_cwd p) (p_name p) (p_trace_mask p).
Definition set_p_pagetable (x : Z) (p : proc) : proc := mkProc (p_state p) (p_chan p) (p_killed p) (p_xstate p) (p_pid p) (p_parent p) (p_kstack p) (p_sz p) x (p_trapframe p) (p_ctx_ra p) (p_ctx_sp p) (p_ofile p) (p_cwd p) (p_name p) (p_trace_mask p).
Definition set_p_trapframe (x : Z) (p : proc) : proc := mkProc (p_state p) (p_chan p) (p_killed p) (p_xstate p) (p_pid p) (p_parent p) (p_kstack p) (p_sz p) (p_pagetable p) x (p_ctx_ra p) (p_ctx_sp p) (p_ofile p) (p_cwd p) (p_name p) (p_trace_mask p).
Definition set_p_ctx_ra (x : Z) (p : proc) : proc := mkProc (p_state p) (p_chan p) (p_killed p) (p_xstate p) (p_pid p) (p_parent p) (p_kstack p) (p_sz p) (p_pagetable p) (p_trapframe p) x (p_ctx_sp p) (p_ofile p) (p_cwd p) (p_name p) (p_trace_mask p).
Definition set_p_ctx_sp (x : Z) (p : proc) : proc := mkProc (p_state p) (p_chan p) (p_killed p) (p_xstate p) (p_pid p) (p_parent p) (p_kstack p) (p_sz p) (p_pagetable p) (p_trapframe p) (p_ctx_ra p) x (p_ofile p) (p_cwd p) (p_name p) (p_trace_mask p).
Definition set_p_ofile (x : list (option nat)) (p : proc) : proc := mkProc (p_state p) (p_chan p) (p_killed p) (p_xstate p) (p_pid p) (p_parent p) (p_kstack p) (p_sz p) (p_pagetable p) (p_trapframe p) (p_ctx_ra p) (p_ctx_sp p) x (p_cwd p) (p_name p) (p_trace_mask p).
Definition set_p_cwd (x : option nat) (p : proc) : proc := mkProc (p_state p) (p_chan p) (p_killed p) (p_xstate p) (p_pid p) (p_parent p) (p_kstack p) (p_sz p) (p_pagetable p) (p_trapframe p) (p_ctx_ra p) (p_ctx_sp p) (p_ofile p) x (p_name p) (p_trace_mask p).
Definition set_p_name (x : list Z) (p : proc) : proc := mkProc (p_state p) (p_chan p) (p_killed p) (p_xstate p) (p_pid p) (p_parent p) (p_kstack p) (p_sz p) (p_pagetable p) (p_trapframe p) (p_ctx_ra p) (p_ctx_sp p) (p_ofile p) (p_cwd p) x (p_trace_mask p).
Definition set_p_trace_mask (x : Z) (p : proc) : proc := mkProc (p_state p) (p_chan p) (p_killed p) (p_xstate p) (p_pid p) (p_parent p) (p_kstack p) (p_sz p) (p_pagetable p) (p_trapframe p) (p_ctx_ra p) (p_ctx_sp p) (p_ofile p) (p_cwd p) (p_name p) x.

(** kernel/pipe.c: struct pipe. Its lock is [LkPipe pi]. *)
Record pipe := mkPipe {
  pi_data : list Z;
  pi_nread : Z;
  pi_nwrite : Z;
  pi_readopen : bool;
  pi_writeopen : bool;
}.
Definition set_pi_data (x : list Z) (p : pipe) : pipe := mkPipe x (pi_nread p) (pi_nwrite p) (pi_readopen p) (pi_writeopen p).
Definition set_pi_nread (x : Z) (p : pipe) : pipe := mkPipe (pi_data p) x (pi_nwrite p) (pi_readopen p) (pi_writeopen p).
Definition set_pi_nwrite (x : Z) (p : pipe) : pipe := mkPipe (pi_data p) (pi_nread p) x (pi_readopen p) (pi_writeopen p).
Definition set_pi_readopen (x : bool) (p : pipe) : pipe := mkPipe (pi_data p) (pi_nread p) (pi_nwrite p) x (pi_writeopen p).
Definition set_pi_writeopen (x : bool) (p : pipe) : pipe := mkPipe (pi_data p) (pi_nread p) (pi_nwrite p) (pi_readopen p) x.

(** kernel/file.h: struct file *)
Record file := mkFile {
  f_type : fdtype;
  f_ref : Z;
  f_readable : bool;
  f_writable : bool;
  f_pipe : Z;
  f_ip : option nat;
  f_off : Z;
  f_major : Z;
}.
Definition set_f_type (x : fdtype) (f : file) : file := mkFile x (f_ref f) (f_readable f) (f_writable f) (f_pipe f) (f_ip f) (f_off f) (f_major f).
Definition set_f_ref (x : Z) (f : file) : file := mkFile (f_type f) x (f_readable f) (f_writable f) (f_pipe f) (f_ip f) (f_off f) (f_major f).
Definition set_f_readable (x : bool) (f : file) : file := mkFile (f_type f) (f_ref f) x (f_writable f) (f_pipe f) (f_ip f) (f_off f) (f_major f).
Definition set_f_writable (x : bool) (f : file) : file := mkFile (f_type f) (f_ref f) (f_readable f) x (f_pipe f) (f_ip f) (f_off f) (f_major f).
Definition set_f_pipe (x : Z) (f : file) : file := mkFile (f_type f) (f_ref f) (f_readable f) (f_writable f) x (f_ip f) (f_off f) (f_major f).
Definition set_f_ip (x : option nat) (f : file) : file := mkFile (f_type f) (f_ref f) (f_readable f) (f_writable f) (f_pipe f) x (f_off f) (f_major f).
Definition set_f_off (x : Z) (f : file) : file := mkFile (f_type f) (f_ref f) (f_readable f) (f_writable f) (f_pipe f) (f_ip f) x (f_major f).
Definition set_f_major (x : Z) (f : file) : file := mkFile (f_type f) (f_ref f) (f_readable f) (f_writable f) (f_pipe f) (f_ip f) (f_off f) x.

(** kernel/sleeplock.h: struct sleeplock; its inner spin-lock is [LkBufSleep i]
    or [LkInodeSleep i]. *)
Record sleeplock := mkSleeplock {
  sl_locked : bool;
  sl_pid : Z;
}.
Definition set_sl_locked (x : bool) (s : sleeplock) : sleeplock := mkSleeplock x (sl_pid s).
Definition set_sl_pid (x : Z) (s : sleeplock) : sleeplock := mkSleeplock (sl_locked s) x.

(** kernel/file.h: struct inode *)
Record inode := mkInode {
  i_dev : Z;
  i_inum : Z;
  i_ref : Z;
  i_lock : sleeplock;
  i_valid : bool;
  i_type : Z;
  i_major : Z;
  i_minor : Z;
  i_nlink : Z;
  i_size : Z;
  i_addrs : list Z;
}.
Definition set_i_dev (x : Z) (i : inode) : inode := mkInode x (i_inum i) (i_ref i) (i_lock i) (i_valid i) (i_type i) (i_major i) (i_minor i) (i_nlink i) (i_size i) (i_addrs i).
Definition set_i_inum (x : Z) (i : inode) : inode := mkInode (i_dev i) x (i_ref i) (i_lock i) (i_valid i) (i_type i) (i_major i) (i_minor i) (i_nlink i) (i_size i) (i_addrs i).
Definition set_i_ref (x : Z) (i : inode) : inode := mkInode (i_dev i) (i_inum i) x (i_lock i) (i_valid i) (i_type i) (i_major i) (i_minor i) (i_nlink i) (i_size i) (i_addrs i).
Definition set_i_lock (x : sleeplock) (i : inode) : inode := mkInode (i_dev i) (i_inum i) (i_ref i) x (i_valid i) (i_type i) (i_major i) (i_minor i) (i_nlink i) (i_size i) (i_addrs i).
Definition set_i_valid (x : bool) (i : inode) : inode := mkInode (i_dev i) (i_inum i) (i_ref i) (i_lock i) x (i_type i) (i_major i) (i_minor i) (i_nlink i) (i_size i) (i_addrs i).
Definition set_i_type (x : Z) (i : inode) : inode := mkInode (i_dev i) (i_inum i) (i_ref i) (i_lock i) (i_valid i) x (i_major i) (i_minor i) (i_nlink i) (i_size i) (i_addrs i).
Definition set_i_major (x : Z) (i : inode) : inode := mkInode (i_dev i) (i_inum i) (i_ref i) (i_lock i) (i_valid i) (i_type i) x (i_minor i) (i_nlink i) (i_size i) (i_addrs i).
Definition set_i_minor (x : Z) (i : inode) : inode := mkInode (i_dev i) (i_inum i) (i_ref i) (i_lock i) (i_valid i) (i_type i) (i_major i) x (i_nlink i) (i_size i) (i_addrs i).
Definition set_i_nlink (x : Z) (i : inode) : inode := mkInode (i_dev i) (i_inum i) (i_ref i) (i_lock i) (i_valid i) (i_type i) (i_major i) (i_minor i) x (i_size i) (i_addrs i).
Definition set_i_size (x : Z) (i : inode) : inode := mkInode (i_dev i) (i_inum i) (i_ref i) (i_lock i) (i_valid i) (i_type i) (i_major i) (i_minor i) (i_nlink i) x (i_addrs i).
Definition set_i_addrs (x : list Z) (i : inode) : inode := mkInode (i_dev i) (i_inum i) (i_ref i) (i_lock i) (i_valid i) (i_type i) (i_major i) (i_minor i) (i_nlink i) (i_size i) x.

(** kernel/buf.h: struct buf. [b_prev] and [b_next] are indices into
    bcache.buf[], where index [NBUF] is bcache.head. *)
Record buf := mkBuf {
  b_valid : bool;
  b_disk : bool;
  b_dev : Z;
  b_blockno : Z;
  b_lock : sleeplock;
  b_refcnt : Z;
  b_prev : nat;
  b_next : nat;
  b_data : list Z;
}.
Definition set_b_valid (x : bool) (b : buf) : buf := mkBuf x (b_disk b) (b_dev b) (b_blockno b) (b_lock b) (b_refcnt b) (b_prev b) (b_next b) (b_data b).
Definition set_b_disk (x : bool) (b : buf) : buf := mkBuf (b_valid b) x (b_dev b) (b_blockno b) (b_lock b) (b_refcnt b) (b_prev b) (b_next b) (b_data b).
Definition set_b_dev (x : Z) (b : buf) : buf := mkBuf (b_valid b) (b_disk b) x (b_blockno b) (b_lock b) (b_refcnt b) (b_prev b) (b_next b) (b_data b).
Definition set_b_blockno (x : Z) (b : buf) : buf := mkBuf (b_valid b) (b_disk b) (b_dev b) x (b_lock b) (b_refcnt b) (b_prev b) (b_next b) (b_data b).
Definition set_b_lock (x : sleeplock) (b : buf) : buf := mkBuf (b_valid b) (b_disk b) (b_dev b) (b_blockno b) x (b_refcnt b) (b_prev b) (b_next b) (b_data b).
Definition set_b_refcnt (x : Z) (b : buf) : buf := mkBuf (b_valid b) (b_disk b) (b_dev b) (b_blockno b) (b_lock b) x (b_prev b) (b_next b) (b_data b).
Definition set_b_prev (x : nat) (b : buf) : buf := mkBuf (b_valid b) (b_disk b) (b_dev b) (b_blockno b) (b_lock b) (b_refcnt b) x (b_next b) (b_data b).
Definition set_b_next (x : nat) (b : buf) : buf := mkBuf (b_valid b) (b_disk b) (b_dev b) (b_blockno b) (b_lock b) (b_refcnt b) (b_prev b) x (b_data b).
Definition set_b_data (x : list Z) (b : buf) : buf := mkBuf (b_valid b) (b_disk b) (b_dev b) (b_blockno b) (b_lock b) (b_refcnt b) (b_prev b) (b_next b) x.

(** kernel/log.c: struct log, with its struct logheader in place. *)
Record log_t := mkLog {
  l_start : Z;
  l_size : Z;
  l_outstanding : Z;
  l_committing : bool;
  l_dev : Z;
  l_n : Z;
  l_block : list Z;
}.
Definition set_l_start (x : Z) (l : log_t) : log_t := mkLog x (l_size l) (l_outstanding l) (l_committing l) (l_dev l) (l_n l) (l_block l).
Definition set_l_size (x : Z) (l : log_t) : log_t := mkLog (l_start l) x (l_outstanding l) (l_committing l) (l_dev l) (l_n l) (l_block l).
Definition set_l_outstanding (x : Z) (l : log_t) : log_t := mkLog (l_start l) (l_size l) x (l_committing l) (l_dev l) (l_n l) (l_block l).
Definition set_l_committing (x : bool) (l : log_t) : log_t := mkLog (l_start l) (l_size l) (l_outstanding l) x (l_dev l) (l_n l) (l_block l).
Definition set_l_dev (x : Z) (l : log_t) : log_t := mkLog (l_start l) (l_size l) (l_outstanding l) (l_committing l) x (l_n l) (l_block l).
Definition set_l_n (x : Z) (l : log_t) : log_t := mkLog (l_start l) (l_size l) (l_outstanding l) (l_committing l) (l_dev l) x (l_block l).
Definition set_l_block (x : list Z) (l : log_t) : log_t := mkLog (l_start l) (l_size l) (l_outstanding l) (l_committing l) (l_dev l) (l_n l) x.

(** kernel/fs.h: struct superblock *)
Record superblock := mkSb {
  sb_magic : Z;
  sb_size : Z;
  sb_nblocks : Z;
  sb_ninodes : Z;
  sb_nlog : Z;
  sb_logstart : Z;
  sb_inodestart : Z;
  sb_bmapstart : Z;
}.
Definition set_sb_magic (x : Z) (s : superblock) : superblock := mkSb x (sb_size s) (sb_nblocks s) (sb_ninodes s) (sb_nlog s) (sb_logstart s) (sb_inodestart s) (sb_bmapstart s).
Definition set_sb_size (x : Z) (s : superblock) : superblock := mkSb (sb_magic s) x (sb_nblocks s) (sb_ninodes s) (sb_nlog s) (sb_logstart s) (sb_inodestart s) (sb_bmapstart s).
Definition set_sb_nblocks (x : Z) (s : superblock) : superblock := mkSb (sb_magic s) (sb_size s) x (sb_ninodes s) (sb_nlog s) (sb_logstart s) (sb_inodestart s) (sb_bmapstart s).
Definition set_sb_ninodes (x : Z) (s : superblock) : superblock := mkSb (sb_magic s) (sb_size s) (sb_nblocks s) x (sb_nlog s) (sb_logstart s) (sb_inodestart s) (sb_bmapstart s).
Definition set_sb_nlog (x : Z) (s : superblock) : superblock := mkSb (sb_magic s) (sb_size s) (sb_nblocks s) (sb_ninodes s) x (sb_logstart s) (sb_inodestart s) (sb_bmapstart s).
Definition set_sb_logstart (x : Z) (s : superblock) : superblock := mkSb (sb_magic s) (sb_size s) (sb_nblocks s) (sb_ninodes s) (sb_nlog s) x (sb_inodestart s) (sb_bmapstart s).
Definition set_sb_inodestart (x : Z) (s : superblock) : superblock := mkSb (sb_magic s) (sb_size s) (sb_nblocks s) (sb_ninodes s) (sb_nlog s) (sb_logstart s) x (sb_bmapstart s).
Definition set_sb_bmapstart (x : Z) (s : superblock) : superblock := mkSb (sb_magic s) (sb_size s) (sb_nblocks s) (sb_ninodes s) (sb_nlog s) (sb_logstart s) (sb_inodestart s) x.

(** kernel/console.c: cons *)
Record console := mkCons {
  cons_buf : list Z;
  cons_r : Z;
  cons_w : Z;
  cons_e : Z;
}.
Definition set_cons_buf (x : list Z) (c : console) : console := mkCons x (cons_r c) (cons_w c) (cons_e c).
Definition set_cons_r (x : Z) (c : console) : console := mkCons (cons_buf c) x (cons_w c) (cons_e c).
Definition set_cons_w (x : Z) (c : console) : console := mkCons (cons_buf c) (cons_r c) x (cons_e c).
Definition set_cons_e (x : Z) (c : console) : console := mkCons (cons_buf c) (cons_r c) (cons_w c) x.

(** kernel/uart.c: the transmit ring, and the device as the driver sees it:
    the answers it gives to successive reads of the LSR_TX_IDLE status bit, the
    input bytes that are waiting, and the bytes written to THR so far. *)
Record uart_t := mkUart {
  uart_tx_buf : list Z;
  uart_tx_w : Z;
  uart_tx_r : Z;
  uart_idle : list bool;
  uart_rx : list Z;
  uart_out : list Z;
}.
Definition set_uart_tx_buf (x : list Z) (u : uart_t) : uart_t := mkUart x (uart_tx_w u) (uart_tx_r u) (uart_idle u) (uart_rx u) (uart_out u).
Definition set_uart_tx_w (x : Z) (u : uart_t) : uart_t := mkUart (uart_tx_buf u) x (uart_tx_r u) (uart_idle u) (uart_rx u) (uart_out u).
Definition set_uart_tx_r (x : Z) (u : uart_t) : uart_t := mkUart (uart_tx_buf u) (uart_tx_w u) x (uart_idle u) (uart_rx u) (uart_out u).
Definition set_uart_idle (x : list bool) (u : uart_t) : uart_t := mkUart (uart_tx_buf u) (uart_tx_w u) (uart_tx_r u) x (uart_rx u) (uart_out u).
Definition set_uart_rx (x : list Z) (u : uart_t) : uart_t := mkUart (uart_tx_buf u) (uart_tx_w u) (uart_tx_r u) (uart_idle u) x (uart_out u).
Definition set_uart_out (x : list Z) (u : uart_t) : uart_t := mkUart (uart_tx_buf u) (uart_tx_w u) (uart_tx_r u) (uart_idle u) (uart_rx u) x.

(** The supervisor registers the trap code reads and writes (kernel/riscv.h),
    and the interrupt number the PLIC answers to the next claim. *)
Record csr_t := mkCsr {
  r_scause : Z;
  r_sepc : Z;
  r_stval : Z;
  r_stvec : Z;
  r_satp : Z;
  r_spp : bool;
  r_spie : bool;
  r_sip : Z;
  r_irq : Z;
}.
Definition set_r_scause (x : Z) (c : csr_t) : csr_t := mkCsr x (r_sepc c) (r_stval c) (r_stvec c) (r_satp c) (r_spp c) (r_spie c) (r_sip c) (r_irq c).
Definition set_r_sepc (x : Z) (c : csr_t) : csr_t := mkCsr (r_scause c) x (r_stval c) (r_stvec c) (r_satp c) (r_spp c) (r_spie c) (r_sip c) (r_irq c).
Definition set_r_stval (x : Z) (c : csr_t) : csr_t := mkCsr (r_scause c) (r_sepc c) x (r_stvec c) (r_satp c) (r_spp c) (r_spie c) (r_sip c) (r_irq c).
Definition set_r_stvec (x : Z) (c : csr_t) : csr_t := mkCsr (r_scause c) (r_sepc c) (r_stval c) x (r_satp c) (r_spp c) (r_spie c) (r_sip c) (r_irq c).
Definition set_r_satp (x : Z) (c : csr_t) : csr_t := mkCsr (r_scause c) (r_sepc c) (r_stval c) (r_stvec c) x (r_spp c) (r_spie c) (r_sip c) (r_irq c).
Definition set_r_spp (x : bool) (c : csr_t) : csr_t := mkCsr (r_scause c) (r_sepc c) (r_stval c) (r_stvec c) (r_satp c) x (r_spie c) (r_sip c) (r_irq c).
Definition set_r_spie (x : bool) (c : csr_t) : csr_t := mkCsr (r_scause c) (r_sepc c) (r_stval c) (r_stvec c) (r_satp c) (r_spp c) x (r_sip c) (r_irq c).
Definition set_r_sip (x : Z) (c : csr_t) : csr_t := mkCsr (r_scause c) (r_sepc c) (r_stval c) (r_stvec c) (r_satp c) (r_spp c) (r_spie c) x (r_irq c).
Definition set_r_irq (x : Z) (c : csr_t) : csr_t := mkCsr (r_scause c) (r_sepc c) (r_stval c) (r_stvec c) (r_satp c) (r_spp c) (r_spie c) (r_sip c) x.

(** An address of a descriptor: a request header disk.ops[i], the data of
    buffer [b], or the status byte disk.info[i].status. *)
Inductive vaddr := VNull | VOp (i : nat) | VData (b : nat) | VStatus (i : nat).

(** kernel/virtio.h: struct virtq_desc *)
Record vdesc := mkDesc {
  d_addr : vaddr;
  d_len : Z;
  d_flags : Z;
  d_next : Z;
}.
Definition set_d_addr (x : vaddr) (v : vdesc) : vdesc := mkDesc x (d_len v) (d_flags v) (d_next v).
Definition set_d_len (x : Z) (v : vdesc) : vdesc := mkDesc (d_addr v) x (d_flags v) (d_next v).
Definition set_d_flags (x : Z) (v : vdesc) : vdesc := mkDesc (d_addr v) (d_len v) x (d_next v).
Definition set_d_next (x : Z) (v : vdesc) : vdesc := mkDesc (d_addr v) (d_len v) (d_flags v) x.

(** kernel/virtio.h: struct virtio_blk_req *)
Record vreq := mkReq {
  q_type : Z;
  q_reserved : Z;
  q_sector : Z;
}.

(** A write to a register of the device: its offset, the value, and the index of
    the available ring at that moment, which is what the device finds there. *)
Record mmio := mkMmio {
  mw_reg : Z;
  mw_value : Z;
  mw_avail : Z;
}.

(** kernel/virtio_disk.c: struct disk. [dk_dev_idx] and [dk_dev_ring] are the
    used ring, which the device writes. The last two fields are on the device's
    side: its interrupt status register, and the writes to its registers so far,
    in order. *)
Record vdisk_t := mkVdisk {
  dk_desc : list vdesc;
  dk_avail_idx : Z;
  dk_avail_ring : list Z;
  dk_dev_idx : Z;
  dk_dev_ring : list Z;
  dk_free : list bool;
  dk_used_idx : Z;
  dk_info_b : list (option nat);
  dk_info_status : list Z;
  dk_ops : list vreq;
  dk_isr : Z;
  dk_mmio : list mmio;
}.
Definition set_dk_desc (x : list vdesc) (v : vdisk_t) : vdisk_t := mkVdisk x (dk_avail_idx v) (dk_avail_ring v) (dk_dev_idx v) (dk_dev_ring v) (dk_free v) (dk_used_idx v) (dk_info_b v) (dk_info_status v) (dk_ops v) (dk_isr v) (dk_mmio v).
Definition set_dk_avail_idx (x : Z) (v : vdisk_t) : vdisk_t := mkVdisk (dk_desc v) x (dk_avail_ring v) (dk_dev_idx v) (dk_dev_ring v) (dk_free v) (dk_used_idx v) (dk_info_b v) (dk_info_status v) (dk_ops v) (dk_isr v) (dk_mmio v).
Definition set_dk_avail_ring (x : list Z) (v : vdisk_t) : vdisk_t := mkVdisk (dk_desc v) (dk_avail_idx v) x (dk_dev_idx v) (dk_dev_ring v) (dk_free v) (dk_used_idx v) (dk_info_b v) (dk_info_status v) (dk_ops v) (dk_isr v) (dk_mmio v).
Definition set_dk_dev_idx (x : Z) (v : vdisk_t) : vdisk_t := mkVdisk (dk_desc v) (dk_avail_idx v) (dk_avail_ring v) x (dk_dev_ring v) (dk_free v) (dk_used_idx v) (dk_info_b v) (dk_info_status v) (dk_ops v) (dk_isr v) (dk_mmio v).
Definition set_dk_dev_ring (x : list Z) (v : vdisk_t) : vdisk_t := mkVdisk (dk_desc v) (dk_avail_idx v) (dk_avail_ring v) (dk_dev_idx v) x (dk_free v) (dk_used_idx v) (dk_info_b v) (dk_info_status v) (dk_ops v) (dk_isr v) (dk_mmio v).
Definition set_dk_free (x : list bool) (v : vdisk_t) : vdisk_t := mkVdisk (dk_desc v) (dk_avail_idx v) (dk_avail_ring v) (dk_dev_idx v) (dk_dev_ring v) x (dk_used_idx v) (dk_info_b v) (dk_info_status v) (dk_ops v) (dk_isr v) (dk_mmio v).
Definition set_dk_used_idx (x : Z) (v : vdisk_t) : vdisk_t := mkVdisk (dk_desc v) (dk_avail_idx v) (dk_avail_ring v) (dk_dev_idx v) (dk_dev_ring v) (dk_free v) x (dk_info_b v) (dk_info_status v) (dk_ops v) (dk_isr v) (dk_mmio v).
Definition set_dk_info_b (x : list (option nat)) (v : vdisk_t) : vdisk_t := mkVdisk (dk_desc v) (dk_avail_idx v) (dk_avail_ring v) (dk_dev_idx v) (dk_dev_ring v) (dk_free v) (dk_used_idx v) x (dk_info_status v) (dk_ops v) (dk_isr v) (dk_mmio v).
Definition set_dk_info_status (x : list Z) (v : vdisk_t) : vdisk_t := mkVdisk (dk_desc v) (dk_avail_idx v) (dk_avail_ring v) (dk_dev_idx v) (dk_dev_ring v) (dk_free v) (dk_used_idx v) (dk_info_b v) x (dk_ops v) (dk_isr v) (dk_mmio v).
Definition set_dk_ops (x : list vreq) (v : vdisk_t) : vdisk_t := mkVdisk (dk_desc v) (dk_avail_idx v) (dk_avail_ring v) (dk_dev_idx v) (dk_dev_ring v) (dk_free v) (dk_used_idx v) (dk_info_b v) (dk_info_status v) x (dk_isr v) (dk_mmio v).
Definition set_dk_isr (x : Z) (v : vdisk_t) : vdisk_t := mkVdisk (dk_desc v) (dk_avail_idx v) (dk_avail_ring v) (dk_dev_idx v) (dk_dev_ring v) (dk_free v) (dk_used_idx v) (dk_info_b v) (dk_info_status v) (dk_ops v) x (dk_mmio v).
Definition set_dk_mmio (x : list mmio) (v : vdisk_t) : vdisk_t := mkVdisk (dk_desc v) (dk_avail_idx v) (dk_avail_ring v) (dk_dev_idx v) (dk_dev_ring v) (dk_free v) (dk_used_idx v) (dk_info_b v) (dk_info_status v) (dk_ops v) (dk_isr v) x.

(** ** The kernel state

    [locks] holds the spin-locks that are held, with the hart that holds
    each; [mem] is physical memory, byte by byte; [bhead] is bcache.head
    (prev, next); [disk] is the content of the disk, block by block, and
    [dlog] the block writes that made it so, in order. *)
Record kstate := mkK {
  cpu : cpu_t;
  locks : gmap lockid Z;
  mem : gmap Z Z;
  freelist : Z;
  procs : list proc;
  initproc : option nat;
  nextpid : Z;
  first : bool;
  ticks : Z;
  kernel_pagetable : Z;
  pipes : gmap Z pipe;
  ftable : list file;
  itable : list inode;
  bcache : list buf;
  bhead : nat * nat;
  log : log_t;
  sb : superblock;
  disk : gmap Z (list Z);
  dlog : list (Z * list Z);
  cons : console;
  uart : uart_t;
  csr : csr_t;
  vdisk : vdisk_t;
  pr_locking : bool;
}.
Definition set_cpu (x : cpu_t) (k : kstate) : kstate := mkK x (locks k) (mem k) (freelist k) (procs k) (initproc k) (nextpid k) (first k) (ticks k) (kernel_pagetable k) (pipes k) (ftable k) (itable k) (bcache k) (bhead k) (log k) (sb k) (disk k) (dlog k) (cons k) (uart k) (csr k) (vdisk k) (pr_locking k).
Definition set_locks (x : gmap lockid Z) (k : kstate) : kstate := mkK (cpu k) x (mem k) (freelist k) (procs k) (initproc k) (nextpid k) (first k) (ticks k) (kernel_pagetable k) (pipes k) (ftable k) (itable k) (bcache k) (bhead k) (log k) (sb k) (disk k) (dlog k) (cons k) (uart k) (csr k) (vdisk k) (pr_locking k).
Definition set_mem (x : gmap Z Z) (k : kstate) : kstate := mkK (cpu k) (locks k) x (freelist k) (procs k) (initproc k) (nextpid k) (first k) (ticks k) (kernel_pagetable k) (pipes k) (ftable k) (itable k) (bcache k) (bhead k) (log k) (sb k) (disk k) (dlog k) (cons k) (uart k) (csr k) (vdisk k) (pr_locking k).
Definition set_freelist (x : Z) (k : kstate) : kstate := mkK (cpu k) (locks k) (mem k) x (procs k) (initproc k) (nextpid k) (first k) (ticks k) (kernel_pagetable k) (pipes k) (ftable k) (itable k) (bcache k) (bhead k) (log k) (sb k) (disk k) (dlog k) (cons k) (uart k) (csr k) (vdisk k) (pr_locking k).
Definition set_procs (x : list proc) (k : kstate) : kstate := mkK (cpu k) (locks k) (mem k) (freelist k) x (initproc k) (nextpid k) (first k) (ticks k) (kernel_pagetable k) (pipes k) (ftable k) (itable k) (bcache k) (bhead k) (log k) (sb k) (disk k) (dlog k) (cons k) (uart k) (csr k) (vdisk k) (pr_locking k).
Definition set_initproc (x : option nat) (k : kstate) : kstate := mkK (cpu k) (locks k) (mem k) (freelist k) (procs k) x (nextpid k) (first k) (ticks k) (kernel_pagetable k) (pipes k) (ftable k) (itable k) (bcache k) (bhead k) (log k) (sb k) (disk k) (dlog k) (cons k) (uart k) (csr k) (vdisk k) (pr_locking k).
Definition set_nextpid (x : Z) (k : kstate) : kstate := mkK (cpu k) (locks k) (mem k) (freelist k) (procs k) (initproc k) x (first k) (ticks k) (kernel_pagetable k) (pipes k) (ftable k) (itable k) (bcache k) (bhead k) (log k) (sb k) (disk k) (dlog k) (cons k) (uart k) (csr k) (vdisk k) (pr_locking k).
Definition set_first (x : bool) (k : kstate) : kstate := mkK (cpu k) (locks k) (mem k) (freelist k) (procs k) (initproc k) (nextpid k) x (ticks k) (kernel_pagetable k) (pipes k) (ftable k) (itable k) (bcache k) (bhead k) (log k) (sb k) (disk k) (dlog k) (cons k) (uart k) (csr k) (vdisk k) (pr_locking k).
Definition set_ticks (x : Z) (k : kstate) : kstate := mkK (cpu k) (locks k) (mem k) (freelist k) (procs k) (initproc k) (nextpid k) (first k) x (kernel_pagetable k) (pipes k) (ftable k) (itable k) (bcache k) (bhead k) (log k) (sb k) (disk k) (dlog k) (cons k) (uart k) (csr k) (vdisk k) (pr_locking k).
Definition set_kernel_pagetable (x : Z) (k : kstate) : kstate := mkK (cpu k) (locks k) (mem k) (freelist k) (procs k) (initproc k) (nextpid k) (first k) (ticks k) x (pipes k) (ftable k) (itable k) (bcache k) (bhead k) (log k) (sb k) (disk k) (dlog k) (cons k) (uart k) (csr k) (vdisk k) (pr_locking k).
Definition set_pipes (x : gmap Z pipe) (k : kstate) : kstate := mkK (cpu k) (locks k) (mem k) (freelist k) (procs k) (initproc k) (nextpid k) (first k) (ticks k) (kernel_pagetable k) x (ftable k) (itable k) (bcache k) (bhead k) (log k) (sb k) (disk k) (dlog k) (cons k) (uart k) (csr k) (vdisk k) (pr_locking k).
Definition set_ftable (x : list file) (k : kstate) : kstate := mkK (cpu k) (locks k) (mem k) (freelist k) (procs k) (initproc k) (nextpid k) (first k) (ticks k) (kernel_pagetable k) (pipes k) x (itable k) (bcache k) (bhead k) (log k) (sb k) (disk k) (dlog k) (cons k) (uart k) (csr k) (vdisk k) (pr_locking k).
Definition set_itable (x : list inode) (k : kstate) : kstate := mkK (cpu k) (locks k) (mem k) (freelist k) (procs k) (initproc k) (nextpid k) (first k) (ticks k) (kernel_pagetable k) (pipes k) (ftable k) x (bcache k) (bhead k) (log k) (sb k) (disk k) (dlog k) (cons k) (uart k) (csr k) (vdisk k) (pr_locking k).
Definition set_bcache (x : list buf) (k : kstate) : kstate := mkK (cpu k) (locks k) (mem k) (freelist k) (procs k) (initproc k) (nextpid k) (first k) (ticks k) (kernel_pagetable k) (pipes k) (ftable k) (itable k) x (bhead k) (log k) (sb k) (disk k) (dlog k) (cons k) (uart k) (csr k) (vdisk k) (pr_locking k).
Definition set_bhead (x : nat * nat) (k : kstate) : kstate := mkK (cpu k) (locks k) (mem k) (freelist k) (procs k) (initproc k) (nextpid k) (first k) (ticks k) (kernel_pagetable k) (pipes k) (ftable k) (itable k) (bcache k) x (log k) (sb k) (disk k) (dlog k) (cons k) (uart k) (csr k) (vdisk k) (pr_locking k).
Definition set_log (x : log_t) (k : kstate) : kstate := mkK (cpu k) (locks k) (mem k) (freelist k) (procs k) (initproc k) (nextpid k) (first k) (ticks k) (kernel_pagetable k) (pipes k) (ftable k) (itable k) (bcache k) (bhead k) x (sb k) (disk k) (dlog k) (cons k) (uart k) (csr k) (vdisk k) (pr_locking k).
Definition set_sb (x : superblock) (k : kstate) : kstate := mkK (cpu k) (locks k) (mem k) (freelist k) (procs k) (initproc k) (nextpid k) (first k) (ticks k) (kernel_pagetable k) (pipes k) (ftable k) (itable k) (bcache k) (bhead k) (log k) x (disk k) (dlog k) (cons k) (uart k) (csr k) (vdisk k) (pr_locking k).
Definition set_disk (x : gmap Z (list Z)) (k : kstate) : kstate := mkK (cpu k) (locks k) (mem k) (freelist k) (procs k) (initproc k) (nextpid k) (first k) (ticks k) (kernel_pagetable k) (pipes k) (ftable k) (itable k) (bcache k) (bhead k) (log k) (sb k) x (dlog k) (cons k) (uart k) (csr k) (vdisk k) (pr_locking k).
Definition set_dlog (x : list (Z * list Z)) (k : kstate) : kstate := mkK (cpu k) (locks k) (mem k) (freelist k) (procs k) (initproc k) (nextpid k) (first k) (ticks k) (kernel_pagetable k) (pipes k) (ftable k) (itable k) (bcache k) (bhead k) (log k) (sb k) (disk k) x (cons k) (uart k) (csr k) (vdisk k) (pr_locking k).
Definition set_cons (x : console) (k : kstate) : kstate := mkK (cpu k) (locks k) (mem k) (freelist k) (procs k) (initproc k) (nextpid k) (first k) (ticks k) (kernel_pagetable k) (pipes k) (ftable k) (itable k) (bcache k) (bhead k) (log k) (sb k) (disk k) (dlog k) x (uart k) (csr k) (vdisk k) (pr_locking k).
Definition set_uart (x : uart_t) (k : kstate) : kstate := mkK (cpu k) (locks k) (mem k) (freelist k) (procs k) (initproc k) (nextpid k) (first k) (ticks k) (kernel_pagetable k) (pipes k) (ftable k) (itable k) (bcache k) (bhead k) (log k) (sb k) (disk k) (dlog k) (cons k) x (csr k) (vdisk k) (pr_locking k).
Definition set_csr (x : csr_t) (k : kstate) : kstate := mkK (cpu k) (locks k) (mem k) (freelist k) (procs k) (initproc k) (nextpid k) (first k) (ticks k) (kernel_pagetable k) (pipes k) (ftable k) (itable k) (bcache k) (bhead k) (log k) (sb k) (disk k) (dlog k) (cons k) (uart k) x (vdisk k) (pr_locking k).
Definition set_vdisk (x : vdisk_t) (k : kstate) : kstate := mkK (cpu k) (locks k) (mem k) (freelist k) (procs k) (initproc k) (nextpid k) (first k) (ticks k) (kernel_pagetable k) (pipes k) (ftable k) (itable k) (bcache k) (bhead k) (log k) (sb k) (disk k) (dlog k) (cons k) (uart k) (csr k) x (pr_locking k).
Definition set_pr_locking (x : bool) (k : kstate) : kstate := mkK (cpu k) (locks k) (mem k) (freelist k) (procs k) (initproc k) (nextpid k) (first k) (ticks k) (kernel_pagetable k) (pipes k) (ftable k) (itable k) (bcache k) (bhead k) (log k) (sb k) (disk k) (dlog k) (cons k) (uart k) (csr k) (vdisk k) x.

(** [kred] computes with the accessors of a kernel state, and only with them. *)
Ltac kred :=
  cbv [cpu locks mem freelist procs initproc nextpid first ticks kernel_pagetable pipes ftable itable bcache bhead log sb disk dlog cons uart csr vdisk pr_locking
    set_cpu set_locks set_mem set_freelist set_procs set_initproc set_nextpid set_first set_ticks set_kernel_pagetable set_pipes set_ftable set_itable set_bcache set_bhead set_log set_sb set_disk set_dlog set_cons set_uart set_csr set_vdisk set_pr_locking].

(** ** Outcomes and the monad *)
Inductive out (A : Type) :=
| Ok (a : A) (s : kstate)
| Panic (msg : string) (s : kstate)
| Switch (s : kstate) (k : kstate → out A)
| Hang.
Arguments Ok {A} a s.
Arguments Panic {A} msg s.
Arguments Switch {A} s k.
Arguments Hang {A}.

Definition M (A : Type) : Type := kstate → out A.

Fixpoint bind_out {A B} (f : A → M B) (o : out A) : out B :=
  match o with
  | Ok a s => f a s
  | Panic msg s => Panic msg s
  | Switch s k => Switch s (λ s', bind_out f (k s'))
  | Hang => Hang
  end.

#[global] Instance M_ret : MRet M := λ A a s, Ok a s.
#[global] Instance M_bind : MBind M := λ A B f m s, bind_out f (m s).

Definition panic {A} (msg : string) : M A := λ s, Panic msg s.
Arguments panic {A} msg%_string.
Definition hang {A} : M A := λ _, Hang.
Definition gets {A} (f : kstate → A) : M A := λ s, Ok (f s) s.
Definition modify (f : kstate → kstate) : M unit := λ s, Ok tt (f s).
Definition when (b : bool) (m : M unit) : M unit := if b then m else mret tt.

(** [for_each l body] is a C [for] loop over the indices [l]: [body i] either
    falls through ([None]) or leaves the loop with a value ([Some]). *)
Fixpoint for_each {I A} (l : list I) (body : I → M (option A)) : M (option A) :=
  match l with
  | [] => mret None
  | i :: l => r ← body i; match r with Some a => mret (Some a) | None => for_each l body end
  end.

(** [loop fuel body x] is a C [while] loop whose variables are [x]: [body]
    either goes round with new values ([inl]) or leaves it ([inr]). *)
Fixpoint loop {X A} (fuel : nat) (body : X → M (X + A)) (x : X) : M A :=
  match fuel with
  | O => hang
  | S fuel => r ← body x; match r with inl x' => loop fuel body x' | inr a => mret a end
  end.

(** ** Access to the tables *)
Definition null_proc : proc :=
  mkProc UNUSED None false 0 0 None 0 0 0 0 0 0 (replicate NOFILE None) None (replicate 16 0) 0.
Definition null_file : file := mkFile FD_NONE 0 false false 0 None 0 0.
Definition null_inode : inode :=
  mkInode 0 0 0 (mkSleeplock false 0) false 0 0 0 0 0 (replicate 13 0).
Definition null_buf : buf := mkBuf false false 0 0 (mkSleeplock false 0) 0 0 0 (replicate 1024 0).
Definition null_pipe : pipe := mkPipe (replicate 512 0) 0 0 false false.

#[global] Instance proc_inhabited : Inhabited proc := populate null_proc.
#[global] Instance file_inhabited : Inhabited file := populate null_file.
#[global] Instance inode_inhabited : Inhabited inode := populate null_inode.
#[global] Instance buf_inhabited : Inhabited buf := populate null_buf.

Definition get_proc (i : nat) : M proc := gets (λ s, procs s !!! i).
Definition upd_proc (i : nat) (f : proc → proc) : M unit :=
  modify (λ s, set_procs (alter f i (procs s)) s).
Definition get_file (i : nat) : M file := gets (λ s, ftable s !!! i).
Definition upd_file (i : nat) (f : file → file) : M unit :=
  modify (λ s, set_ftable (alter f i (ftable s)) s).
Definition get_inode (i : nat) : M inode := gets (λ s, itable s !!! i).
Definition upd_inode (i : nat) (f : inode → inode) : M unit :=
  modify (λ s, set_itable (alter f i (itable s)) s).
Definition get_buf (i : nat) : M buf := gets (λ s, bcache s !!! i).
Definition upd_buf (i : nat) (f : buf → buf) : M unit :=
  modify (λ s, set_bcache (alter f i (bcache s)) s).
Definition get_pipe (a : Z) : M pipe := gets (λ s, default null_pipe (pipes s !! a)).
Definition upd_pipe (a : Z) (f : pipe → pipe) : M unit :=
  modify (λ s, set_pipes (alter f a (pipes s)) s).

(** ** Symbols of the linker script and of the assembly files

    kernel.ld and the .S files are not C code; the kernel uses the addresses
    of these symbols, and [fuel] bounds the number of times a loop around
    sleep() is modelled to look at its condition again. *)
Class Env := {
  end_ : Z;
  etext : Z;
  trampoline : Z;
  uservec : Z;
  userret : Z;
  kernelvec : Z;
  usertrap_addr : Z;
  forkret_addr : Z;
  fuel : nat;
}.

(** ** Reasoning about runs *)
Lemma bind_ok {A B} (m : M A) (f : A → M B) s a s' :
  m s = Ok a s' → (m ≫= f) s = f a s'.
Proof. intros H. unfold mbind, M_bind. rewrite H. done. Qed.

Lemma bind_inv {A B} (m : M A) (f : A → M B) s b s'' :
  (m ≫= f) s = Ok b s'' → ∃ a s', m s = Ok a s' ∧ f a s' = Ok b s''.
Proof. unfold mbind, M_bind. destruct (m s); simpl; try done. eauto. Qed.

(** Three steps and what follows them. *)
Lemma then3 {A} (a b c : M unit) (k : M A) s s' : (a;; b;; c) s = Ok tt s' → (a;; b;; c;; k) s = k s'.
Proof.
  intros ([] & s1 & Ha & ([] & s2 & Hb & Hc)%bind_inv)%bind_inv.
  by rewrite (bind_ok _ _ _ _ _ Ha), (bind_ok _ _ _ _ _ Hb), (bind_ok _ _ _ _ _ Hc).
Qed.

Lemma bind_panic {A B} (m : M A) (f : A → M B) s msg s' :
  m s = Panic msg s' → (m ≫= f) s = Panic msg s'.
Proof. intros H. unfold mbind, M_bind. rewrite H. done. Qed.

Lemma bind_gets {A B} (f : kstate → A) (g : A → M B) s : (gets f ≫= g) s = g (f s) s.
Proof. done. Qed.

Lemma bind_modify {B} f (g : unit → M B) s : (modify f ≫= g) s = g tt (f s).
Proof. done. Qed.

Lemma bind_ret {A B} (a : A) (g : A → M B) s : (mret a ≫= g) s = g a s.
Proof. done. Qed.

Lemma bind_panic' {A B} msg (g : A → M B) s : (panic msg ≫= g) s = Panic msg s.
Proof. done. Qed.

Lemma bind_when (b : bool) m {B} (g : unit → M B) s :
  (when b m ≫= g) s = if b then (m ≫= g) s else g tt s.
Proof. by destruct b. Qed.

(** [mstep] runs the first operation of a program applied to a state. *)
#[export] Hint Unfold get_proc upd_proc get_file upd_file get_inode upd_inode
  get_buf upd_buf get_pipe upd_pipe : xv6.

Ltac mstep :=
  first [ rewrite bind_gets | rewrite bind_modify | rewrite bind_ret
        | rewrite bind_panic' | rewrite bind_when ]; cbn beta.
Ltac mrun := repeat (progress (autounfold with xv6) || mstep).

(** Total correctness: the run returns, with [Q] of the result. *)
Definition wp {A} (m : M A) (Q : A → kstate → Prop) (s : kstate) : Prop :=
  ∃ a s', m s = Ok a s' ∧ Q a s'.

Lemma wp_bind {A B} (m : M A) (f : A → M B) Q s :
  wp m (λ a, wp (f a) Q) s → wp (m ≫= f) Q s.
Proof. intros (a & s' & Hm & Hf). unfold wp. by rewrite (bind_ok _ _ _ _ _ Hm). Qed.

Lemma wp_ret {A} (a : A) (Q : A → kstate → Prop) s : Q a s → wp (mret a) Q s.
Proof. intros. exists a, s. done. Qed.

Lemma wp_gets {A} (f : kstate → A) (Q : A → kstate → Prop) s : Q (f s) s → wp (gets f) Q s.
Proof. intros. exists (f s), s. done. Qed.

Lemma wp_modify f (Q : unit → kstate → Prop) s : Q tt (f s) → wp (modify f) Q s.
Proof. intros. exists tt, (f s). done. Qed.

Lemma wp_mono {A} (m : M A) (Q Q' : A → kstate → Prop) s :
  wp m Q s → (∀ a s', Q a s' → Q' a s') → wp m Q' s.
Proof. intros (a & s' & ? & ?) ?. exists a, s'. eauto. Qed.

Lemma wp_ok {A} (m : M A) (Q : A → kstate → Prop) s a s' : m s = Ok a s' → Q a s' → wp m Q s.
Proof. intros. exists a, s'. done. Qed.

(** Outcomes of a loop over indices. *)
Lemma for_each_inv {I A} (body : I → M (option A)) (P : kstate → Prop) l s :
  P s →
  (∀ i s, i ∈ l → P s → wp (body i) (λ r s', r = None ∧ P s') s) →
  wp (for_each l body) (λ r s', r = None ∧ P s') s.
Proof.
  revert s. induction l as [|i l IH]; intros s Hs Hb; simpl.
  - by apply wp_ret.
  - apply wp_bind. eapply wp_mono; [apply Hb; [left|done]|].
    intros r s' [-> HP]. apply IH; [done|]. intros. apply Hb; [by right|done].
Qed.

(** A loop over indices with an invariant for each. *)
Lemma for_each_seqZ (I : Z → kstate → Prop) (body : Z → M (option unit)) n s :
  0 ≤ n → I 0 s → (∀ k s, 0 ≤ k < n → I k s → ∃ s', body k s = Ok None s' ∧ I (k + 1) s') →
  ∃ s', for_each (seqZ 0 n) body s = Ok None s' ∧ I n s'.
Proof.
  intros Hn HI Hb. remember (Z.to_nat n) as m eqn:Hm.
  assert (Hgen : ∀ m k s, Z.of_nat m + k = n → 0 ≤ k → I k s →
    ∃ s', for_each (seqZ k (Z.of_nat m)) body s = Ok None s' ∧ I n s').
  { clear s HI m Hm. induction m as [|m IH]; intros k s Hmk Hk HI.
    - exists s. assert (k = n) as -> by lia. done.
    - rewrite seqZ_cons by lia. destruct (Hb k s ltac:(lia) HI) as (s1 & Hr & HI1).
      replace (Z.pred (Z.of_nat (S m))) with (Z.of_nat m) by lia.
      destruct (IH (Z.succ k) s1) as (s2 & Hr2 & HI2); [lia|lia|done|].
      exists s2. cbn [for_each]. by rewrite (bind_ok _ _ _ _ _ Hr). }
  destruct (Hgen m 0 s) as (s' & Hr & HIn); [lia|done|done|]. exists s'. split; [|done].
  by replace (Z.of_nat m) with n in Hr by lia.
Qed.
