(* ===== verification/CString.v ===== *)
(** * kernel/string.c

    Byte-level memory ([load8], little-endian words), the block operations
    [memset] and [memmove] on it, and the string functions on byte buffers.
    The loops are those of the C code; the theorems say what they leave in
    memory. *)

From Stdlib Require Import ZArith Lia.
From stdpp Require Import base numbers gmap strings countable tactics list.
From S2P Require Import Prelude.

(** ** Bytes and little-endian words in memory *)
Definition load8 (m : gmap Z Z) (a : Z) : Z := default 0 (m !! a).
Definition store8 (m : gmap Z Z) (a v : Z) : gmap Z Z := <[a := v]> m.

(** The [n]-byte unsigned integer at [a]. *)
Fixpoint load_le (n : nat) (m : gmap Z Z) (a : Z) : Z :=
  match n with
  | O => 0
  | S n => load8 m a + 256 * load_le n m (a + 1)
  end.

Fixpoint store_le (n : nat) (m : gmap Z Z) (a v : Z) : gmap Z Z :=
  match n with
  | O => m
  | S n => store_le n (store8 m a (v mod 256)) (a + 1) (v / 256)
  end.

Definition load64 := load_le 8.
Definition store64 := store_le 8.
Definition load32 := load_le 4.
Definition store32 := store_le 4.

(** The bytes of an [n]-byte integer, as the C code sees them through a
    [char *] to it, and back. *)
Fixpoint le_bytes (n : nat) (v : Z) : list Z :=
  match n with
  | O => []
  | S n => v mod 256 :: le_bytes n (v / 256)
  end.

Fixpoint le_value (l : list Z) : Z :=
  match l with
  | [] => 0
  | b :: l => b + 256 * le_value l
  end.

(** [n] bytes from [a], and a buffer written at [a]. *)
Fixpoint read_bytes (m : gmap Z Z) (a : Z) (n : nat) : list Z :=
  match n with
  | O => []
  | S n => load8 m a :: read_bytes m (a + 1) n
  end.

Fixpoint write_bytes (m : gmap Z Z) (a : Z) (l : list Z) : gmap Z Z :=
  match l with
  | [] => m
  | b :: l => write_bytes (store8 m a b) (a + 1) l
  end.

(** ** memset, memmove *)

(** [for(i = 0; i < n; i++) cdst[i] = c;] *)
Fixpoint memset (m : gmap Z Z) (dst c : Z) (n : nat) : gmap Z Z :=
  match n with
  | O => m
  | S n => memset (store8 m dst (u8 c)) (dst + 1) c n
  end.

(** [while(n-- > 0) *d++ = *s++;] *)
Fixpoint copy_up (m : gmap Z Z) (d s : Z) (n : nat) : gmap Z Z :=
  match n with
  | O => m
  | S n => copy_up (store8 m d (load8 m s)) (d + 1) (s + 1) n
  end.

(** [while(n-- > 0) *--d = *--s;] *)
Fixpoint copy_down (m : gmap Z Z) (d s : Z) (n : nat) : gmap Z Z :=
  match n with
  | O => m
  | S n => copy_down (store8 m (d - 1) (load8 m (s - 1))) (d - 1) (s - 1) n
  end.

Definition memmove (m : gmap Z Z) (dst src : Z) (n : nat) : gmap Z Z :=
  if (n =? 0)%nat then m
  else if (src <? dst) && (dst <? src + Z.of_nat n) then
    copy_down m (dst + Z.of_nat n) (src + Z.of_nat n) n
  else copy_up m dst src n.

(** ** Strings, on byte buffers *)

(** [*s1 - *s2] at the first difference, 0 if none. *)
Fixpoint memcmp (v1 v2 : list Z) (n : nat) : Z :=
  match n with
  | O => 0
  | S n =>
      if nthZ v1 0 =? nthZ v2 0 then memcmp (tail v1) (tail v2) n
      else nthZ v1 0 - nthZ v2 0
  end.

Fixpoint strncmp (p q : list Z) (n : nat) : Z :=
  match n with
  | O => 0
  | S n' =>
      if negb (nthZ p 0 =? 0) && (nthZ p 0 =? nthZ q 0) then strncmp (tail p) (tail q) n'
      else u8 (nthZ p 0) - u8 (nthZ q 0)
  end.

(** [while(n-- > 0) *s++ = 0;] from index [i]. *)
Fixpoint pad_zero (s : list Z) (i : Z) (n : nat) : list Z :=
  match n with
  | O => s
  | S n => pad_zero (updZ s i 0) (i + 1) n
  end.

Fixpoint strncpy_at (s t : list Z) (i : Z) (n : nat) : list Z :=
  match n with
  | O => s
  | S n =>
      let c := nthZ t i in
      let s := updZ s i c in
      if c =? 0 then pad_zero s (i + 1) n else strncpy_at s t (i + 1) n
  end.
Definition strncpy (s t : list Z) (n : nat) : list Z := strncpy_at s t 0 n.

(** [n] is the number of bytes still to copy before the terminator. *)
Fixpoint safestrcpy_at (s t : list Z) (i : Z) (n : nat) : list Z :=
  match n with
  | O => updZ s i 0
  | S n =>
      let c := nthZ t i in
      let s := updZ s i c in
      if c =? 0 then updZ s (i + 1) 0 else safestrcpy_at s t (i + 1) n
  end.
Definition safestrcpy (s t : list Z) (n : nat) : list Z :=
  match n with
  | O => s
  | S n => safestrcpy_at s t 0 n
  end.

(** The index of the first zero byte; a buffer is read as if a zero byte
    followed it. *)
Fixpoint strlen (s : list Z) : Z :=
  match s with
  | [] => 0
  | c :: s => if c =? 0 then 0 else 1 + strlen s
  end.

(** ** Lemmas on bytes *)
Lemma load8_store8 m a v b : load8 (store8 m a v) b = if decide (a = b) then v else load8 m b.
Proof. unfold load8, store8. rewrite lookup_insert. case_decide; done. Qed.

Lemma load8_store8_ne m a v b : a ≠ b → load8 (store8 m a v) b = load8 m b.
Proof. intros. rewrite load8_store8, decide_False; done. Qed.

Lemma load8_memset m dst c n x :
  load8 (memset m dst c n) x =
  if decide (dst ≤ x < dst + Z.of_nat n) then u8 c else load8 m x.
Proof.
  revert m dst. induction n as [|n IH]; intros m dst; simpl.
  - rewrite decide_False by lia. done.
  - rewrite IH, load8_store8. repeat case_decide; try done; lia.
Qed.

Lemma load8_copy_up m d s n x :
  ¬ (s < d < s + Z.of_nat n) →
  load8 (copy_up m d s n) x =
  if decide (d ≤ x < d + Z.of_nat n) then load8 m (s + (x - d)) else load8 m x.
Proof.
  revert m d s. induction n as [|n IH]; intros m d s Hov; simpl.
  - rewrite decide_False by lia. done.
  - rewrite IH by lia. rewrite !load8_store8.
    repeat case_decide; try lia; try (f_equal; lia); subst; try (f_equal; lia).
Qed.

Lemma load8_copy_down m d s n x :
  ¬ (d < s < d + Z.of_nat n) →
  load8 (copy_down m (d + Z.of_nat n) (s + Z.of_nat n) n) x =
  if decide (d ≤ x < d + Z.of_nat n) then load8 m (s + (x - d)) else load8 m x.
Proof.
  revert m. induction n as [|n IH]; intros m Hov; simpl copy_down.
  - rewrite decide_False by lia. done.
  - replace (d + Z.of_nat (S n) - 1) with (d + Z.of_nat n) by lia.
    replace (s + Z.of_nat (S n) - 1) with (s + Z.of_nat n) by lia.
    rewrite IH by lia. rewrite !load8_store8.
    repeat case_decide; try lia; try (f_equal; lia); subst; try (f_equal; lia).
Qed.

Lemma load8_memmove m dst src n x :
  load8 (memmove m dst src n) x =
  if decide (dst ≤ x < dst + Z.of_nat n) then load8 m (src + (x - dst)) else load8 m x.
Proof.
  unfold memmove. destruct (Nat.eqb_spec n 0) as [->|].
  - rewrite decide_False by lia. done.
  - destruct (Z.ltb_spec src dst), (Z.ltb_spec dst (src + Z.of_nat n)); simpl;
      (apply load8_copy_down || apply load8_copy_up); lia.
Qed.

Lemma load8_write_bytes m a l x :
  load8 (write_bytes m a l) x =
  if decide (a ≤ x < a + Z.of_nat (length l)) then nthZ l (x - a) else load8 m x.
Proof.
  revert m a. induction l as [|b l IH]; intros m a; simpl.
  - rewrite decide_False by lia. done.
  - rewrite IH, load8_store8. repeat case_decide; try lia; try done.
    + unfold nthZ. replace (Z.to_nat (x - a)) with (S (Z.to_nat (x - (a + 1)))) by lia. done.
    + subst. unfold nthZ. rewrite Z.sub_diag. done.
Qed.

Lemma length_read_bytes m a n : length (read_bytes m a n) = n.
Proof. revert a. induction n; intros; simpl; auto. Qed.

Lemma nthZ_read_bytes m a n i :
  0 ≤ i < Z.of_nat n → nthZ (read_bytes m a n) i = load8 m (a + i).
Proof.
  revert a i. induction n as [|n IH]; intros a i Hi; [lia|]. simpl.
  destruct (decide (i = 0)) as [->|].
  - unfold nthZ. simpl. f_equal. lia.
  - unfold nthZ. replace (Z.to_nat i) with (S (Z.to_nat (i - 1))) by lia. simpl.
    fold (nthZ (read_bytes m (a + 1) n) (i - 1)). rewrite IH by lia. f_equal. lia.
Qed.

(** Memories that agree on a range give the same words and buffers there. *)
Lemma load_le_ext n m m' a :
  (∀ x, a ≤ x < a + Z.of_nat n → load8 m x = load8 m' x) →
  load_le n m a = load_le n m' a.
Proof.
  revert a. induction n as [|n IH]; intros a Hx; simpl; [done|].
  rewrite (Hx a) by lia. rewrite (IH (a + 1)); [done|]. intros. apply Hx. lia.
Qed.

Lemma read_bytes_ext n m m' a a' :
  (∀ i, 0 ≤ i < Z.of_nat n → load8 m (a + i) = load8 m' (a' + i)) →
  read_bytes m a n = read_bytes m' a' n.
Proof.
  revert a a'. induction n as [|n IH]; intros a a' Hx; simpl; [done|]. f_equal.
  - pose proof (Hx 0 ltac:(lia)) as H. by rewrite !Z.add_0_r in H.
  - apply IH. intros i Hi. specialize (Hx (1 + i) ltac:(lia)).
    by rewrite !Z.add_assoc in Hx.
Qed.

Lemma load8_store_le_other n m a v x :
  ¬ (a ≤ x < a + Z.of_nat n) → load8 (store_le n m a v) x = load8 m x.
Proof.
  revert m a v. induction n as [|n IH]; intros m a v Hx; simpl; [done|].
  rewrite IH, load8_store8_ne by lia. done.
Qed.

Lemma load_store_le n m a v : load_le n (store_le n m a v) a = v mod 256 ^ Z.of_nat n.
Proof.
  revert m a v. induction n as [|n IH]; intros m a v; cbn [load_le store_le].
  - rewrite Z.mod_1_r. done.
  - rewrite IH. rewrite load8_store_le_other by lia.
    rewrite load8_store8, decide_True by done.
    rewrite Nat2Z.inj_succ, Z.pow_succ_r by lia.
    rewrite (Z.rem_mul_r v 256) by lia. done.
Qed.

Lemma load_store_le_other n k m a v b :
  b + Z.of_nat k ≤ a ∨ a + Z.of_nat n ≤ b →
  load_le k (store_le n m a v) b = load_le k m b.
Proof. intros. apply load_le_ext. intros. apply load8_store_le_other. lia. Qed.

(** Writes to disjoint bytes commute. *)
Lemma store_le_store8 n m a v b w :
  ¬ (a ≤ b < a + Z.of_nat n) → store_le n (store8 m b w) a v = store8 (store_le n m a v) b w.
Proof.
  revert m a v. induction n as [|n IH]; intros m a v Hb; simpl; [done|].
  rewrite <- IH by lia. f_equal. unfold store8. apply insert_insert_ne. lia.
Qed.

Lemma store_le_store_le n k m a v b w :
  a + Z.of_nat n ≤ b ∨ b + Z.of_nat k ≤ a →
  store_le n (store_le k m b w) a v = store_le k (store_le n m a v) b w.
Proof.
  revert m b w. induction k as [|k IH]; intros m b w Hd; simpl; [done|].
  rewrite IH by lia. f_equal. apply store_le_store8. lia.
Qed.

Lemma store_le_memset n m a v dst c k :
  a + Z.of_nat n ≤ dst ∨ dst + Z.of_nat k ≤ a →
  store_le n (memset m dst c k) a v = memset (store_le n m a v) dst c k.
Proof.
  revert m dst. induction k as [|k IH]; intros m dst Hd; simpl; [done|].
  rewrite IH by lia. f_equal. apply store_le_store8. lia.
Qed.

Lemma store64_store64 m a v b w :
  a + 8 ≤ b ∨ b + 8 ≤ a → store64 (store64 m b w) a v = store64 (store64 m a v) b w.
Proof. apply (store_le_store_le 8 8). Qed.

Lemma store64_memset m a v dst c k :
  a + 8 ≤ dst ∨ dst + Z.of_nat k ≤ a →
  store64 (memset m dst c k) a v = memset (store64 m a v) dst c k.
Proof. apply (store_le_memset 8). Qed.

Lemma load64_store64 m a v : 0 ≤ v < 2 ^ 64 → load64 (store64 m a v) a = v.
Proof.
  intros. unfold load64, store64. rewrite load_store_le.
  change (256 ^ Z.of_nat 8) with (2 ^ 64). apply Z.mod_small. done.
Qed.

Lemma load64_store64_ne m a v b :
  b + 8 ≤ a ∨ a + 8 ≤ b → load64 (store64 m a v) b = load64 m b.
Proof. intros. apply load_store_le_other. lia. Qed.

Lemma load64_ext m m' a :
  (∀ x, a ≤ x < a + 8 → load8 m x = load8 m' x) → load64 m a = load64 m' a.
Proof. apply (load_le_ext 8). Qed.

Lemma load8_store64_ne m a v x :
  ¬ (a ≤ x < a + 8) → load8 (store64 m a v) x = load8 m x.
Proof. apply (load8_store_le_other 8). Qed.

Lemma load_le_memset0 n m a dst k :
  dst ≤ a → a + Z.of_nat n ≤ dst + Z.of_nat k → load_le n (memset m dst 0 k) a = 0.
Proof.
  revert a. induction n as [|n IH]; intros a Ha Hk; simpl; [done|].
  rewrite IH, load8_memset, decide_True by lia. done.
Qed.

Lemma load64_memset0 m a dst k :
  dst ≤ a → a + 8 ≤ dst + Z.of_nat k → load64 (memset m dst 0 k) a = 0.
Proof. intros. apply load_le_memset0; lia. Qed.

Lemma load64_memset_ne m a dst c k :
  a + 8 ≤ dst ∨ dst + Z.of_nat k ≤ a → load64 (memset m dst c k) a = load64 m a.
Proof.
  intros. apply load_le_ext. intros x Hx. rewrite load8_memset, decide_False by lia. done.
Qed.

Lemma load64_memmove_ne m a dst src k :
  a + 8 ≤ dst ∨ dst + Z.of_nat k ≤ a → load64 (memmove m dst src k) a = load64 m a.
Proof.
  intros. apply load_le_ext. intros x Hx. rewrite load8_memmove, decide_False by lia. done.
Qed.

Lemma load64_write_bytes_ne m a dst l :
  a + 8 ≤ dst ∨ dst + Z.of_nat (length l) ≤ a → load64 (write_bytes m dst l) a = load64 m a.
Proof.
  intros. apply load_le_ext. intros x Hx. rewrite load8_write_bytes, decide_False by lia. done.
Qed.

Lemma length_le_bytes n v : length (le_bytes n v) = n.
Proof. revert v. induction n; intros; simpl; auto. Qed.

Lemma le_value_bytes n v : le_value (le_bytes n v) = v mod 256 ^ Z.of_nat n.
Proof.
  revert v. induction n as [|n IH]; intros v; cbn [le_value le_bytes].
  - rewrite Z.mod_1_r. done.
  - rewrite IH, Nat2Z.inj_succ, Z.pow_succ_r by lia.
    rewrite (Z.rem_mul_r v 256) by lia. done.
Qed.

(** A write followed by a read of the same range gives the buffer back. *)
Lemma read_write_bytes m a l : read_bytes (write_bytes m a l) a (length l) = l.
Proof.
  revert m a. induction l as [|b l IH]; intros m a; [done|]. simpl. f_equal; [|apply IH].
  rewrite load8_write_bytes, decide_False by lia. rewrite load8_store8, decide_True; done.
Qed.

#[global] Arguments memset : simpl never.
#[global] Arguments memmove : simpl never.
#[global] Arguments load64 : simpl never.
#[global] Arguments store64 : simpl never.
#[global] Arguments load32 : simpl never.
#[global] Arguments store32 : simpl never.
#[global] Arguments load_le : simpl never.
#[global] Arguments store_le : simpl never.
#[global] Arguments read_bytes : simpl never.
#[global] Arguments write_bytes : simpl never.
#[global] Opaque memset memmove load64 store64 load32 store32 load_le store_le
  read_bytes write_bytes.
