(* ===== verification/Spinlock.v ===== *)
(** * kernel/spinlock.c, and mycpu(), myproc() of kernel/proc.c

    The lock operations as the running hart executes them, with the nesting
    of push_off()/pop_off(). Smp.v is a second, instruction-level model of
    acquire() and release() on several harts that shows they are atomic. *)

From Stdlib Require Import ZArith Lia.
From stdpp Require Import base numbers gmap strings countable tactics list.
From S2P Require Import Prelude Machine State.

(** ** The operations *)
Definition intr_get : M bool := gets (λ s, c_sie (cpu s)).
Definition intr_on : M unit := modify (λ s, set_cpu (set_c_sie true (cpu s)) s).
Definition intr_off : M unit := modify (λ s, set_cpu (set_c_sie false (cpu s)) s).

Definition cpuid : M Z := gets (λ s, c_id (cpu s)).
Definition mycpu : M cpu_t := gets cpu.
Definition upd_cpu (f : cpu_t → cpu_t) : M unit := modify (λ s, set_cpu (f (cpu s)) s).

Definition push_off : M unit :=
  old ← intr_get;
  intr_off;;
  c ← mycpu;
  when (c_noff c =? 0) (upd_cpu (set_c_intena old));;
  upd_cpu (λ c, set_c_noff (c_noff c + 1) c).

Definition pop_off : M unit :=
  on ← intr_get;
  if on : bool then panic "pop_off - interruptible" else
  c ← mycpu;
  if c_noff c <? 1 then panic "pop_off" else
  upd_cpu (λ c, set_c_noff (c_noff c - 1) c);;
  c ← mycpu;
  when ((c_noff c =? 0) && c_intena c) intr_on.

Definition initlock (lk : lockid) : M unit :=
  modify (λ s, set_locks (delete lk (locks s)) s).

(** [lk->locked && lk->cpu == mycpu()] *)
Definition holding (lk : lockid) : M bool :=
  gets (λ s, bool_decide (locks s !! lk = Some (c_id (cpu s)))).

(** [while(__sync_lock_test_and_set(&lk->locked, 1) != 0) ;] never leaves the
    loop while another hart keeps the lock. *)
Definition acquire (lk : lockid) : M unit :=
  push_off;;
  h ← holding lk;
  if h : bool then panic "acquire" else
  l ← gets (λ s, locks s !! lk);
  match l with
  | Some _ => hang
  | None => modify (λ s, set_locks (<[lk := c_id (cpu s)]> (locks s)) s)
  end.

Definition release (lk : lockid) : M unit :=
  h ← holding lk;
  if negb h then panic "release" else
  modify (λ s, set_locks (delete lk (locks s)) s);;
  pop_off.

(** kernel/proc.c: myproc(), with the null pointer as [None]. *)
Definition myproc : M (option nat) :=
  push_off;;
  c ← mycpu;
  pop_off;;
  mret (c_proc c).

(** The kernel's own uses of the result dereference it; in the handlers below
    the current process exists, and [cur] is its index. *)
Definition cur : M nat :=
  p ← myproc;
  match p with Some i => mret i | None => panic "null pointer" end.

(** ** Consistent hart states

    Interrupts are off whenever push_off() is in force, and at depth 0 the
    saved interrupt state is the current one. *)
Definition cpu_ok (c : cpu_t) : Prop :=
  0 ≤ c_noff c ∧ (c_noff c = 0 → c_intena c = c_sie c) ∧ (0 < c_noff c → c_sie c = false).

Definition pushed (c : cpu_t) : cpu_t :=
  mkCpu (c_proc c) (c_noff c + 1) (if c_noff c =? 0 then c_sie c else c_intena c) false (c_id c).

(** The state inside a critical section of [lk] entered in [s]. *)
Definition hold (lk : lockid) (s : kstate) : kstate :=
  set_locks (<[lk := c_id (cpu s)]> (locks s)) (set_cpu (pushed (cpu s)) s).

(** [s'] with the hart and lock state of [s]. *)
Definition unhold (s s' : kstate) : kstate := set_locks (locks s) (set_cpu (cpu s) s').

Lemma push_off_eq s : push_off s = Ok tt (set_cpu (pushed (cpu s)) s).
Proof.
  destruct s as [c]. destruct c as [p n ia sie id].
  unfold push_off, pushed, intr_get, intr_off, mycpu, upd_cpu. mrun. simpl.
  destruct (n =? 0); done.
Qed.

Lemma cpu_ok_pushed c : cpu_ok c → cpu_ok (pushed c).
Proof. unfold cpu_ok, pushed. simpl. intros (?&?&?). repeat split; try lia; done. Qed.

Lemma pop_off_eq c s : cpu_ok c → cpu s = pushed c → pop_off s = Ok tt (set_cpu c s).
Proof.
  intros (Hn & H0 & Hpos) Hs. destruct s as [c']. simpl in Hs. subst c'.
  destruct c as [p n ia sie id]. unfold pop_off, pushed, intr_get, mycpu, upd_cpu. simpl in *.
  mrun. simpl. mrun. simpl. destruct (Z.ltb_spec (n + 1) 1); [lia|]. mrun. simpl.
  replace (n + 1 - 1) with n by lia. unfold when.
  destruct (Z.eqb_spec n 0) as [->|]; simpl.
  - destruct sie; simpl; rewrite (H0 eq_refl); done.
  - unfold mret, M_ret. rewrite (Hpos ltac:(lia)). done.
Qed.

Lemma acquire_eq lk s :
  locks s !! lk = None → acquire lk s = Ok tt (hold lk s).
Proof.
  intros Hl. unfold acquire, holding. rewrite (bind_ok _ _ _ _ _ (push_off_eq s)).
  mrun. rewrite bool_decide_false by (simpl; congruence). mrun. simpl. rewrite Hl. done.
Qed.

Lemma release_eq lk s s' :
  cpu_ok (cpu s) → locks s !! lk = None →
  cpu s' = cpu (hold lk s) → locks s' = locks (hold lk s) →
  release lk s' = Ok tt (unhold s s').
Proof.
  intros Hc Hl Hc' Hl'. unfold release, holding, hold in *. simpl in *.
  mrun. rewrite bool_decide_true.
  2: { rewrite Hl', Hc'. simpl. rewrite lookup_insert_eq. done. }
  simpl. mrun. rewrite (pop_off_eq (cpu s)); [|done|done].
  unfold unhold. simpl. do 2 f_equal. rewrite Hl'.
  destruct s'; unfold set_locks, set_cpu; simpl. f_equal. by apply delete_insert_id.
Qed.

(** A second acquire() of a held lock panics; so does a release() of a lock
    the hart does not hold. *)
Lemma acquire_held lk s :
  locks s !! lk = Some (c_id (cpu s)) →
  acquire lk s = Panic "acquire" (set_cpu (pushed (cpu s)) s).
Proof.
  intros Hl. unfold acquire, holding. rewrite (bind_ok _ _ _ _ _ (push_off_eq s)).
  mrun. rewrite bool_decide_true by done. done.
Qed.

Lemma release_unheld lk s :
  locks s !! lk ≠ Some (c_id (cpu s)) → release lk s = Panic "release" s.
Proof.
  intros Hl. unfold release, holding. mrun. rewrite bool_decide_false by done. done.
Qed.

Lemma unhold_hold lk s : unhold s (hold lk s) = s.
Proof. destruct s; done. Qed.

Lemma cpu_unhold s s' : cpu (unhold s s') = cpu s.
Proof. done. Qed.

Lemma locks_unhold s s' : locks (unhold s s') = locks s.
Proof. done. Qed.

Lemma myproc_eq s : cpu_ok (cpu s) → myproc s = Ok (c_proc (cpu s)) s.
Proof.
  intros Hc. unfold myproc. rewrite (bind_ok _ _ _ _ _ (push_off_eq s)).
  unfold mycpu. mrun.
  erewrite bind_ok; [|by apply (pop_off_eq (cpu s))]. unfold mret, M_ret. simpl.
  f_equal. destruct s; done.
Qed.

Lemma cur_eq s i : cpu_ok (cpu s) → c_proc (cpu s) = Some i → cur s = Ok i s.
Proof.
  intros Hc Hi. unfold cur. rewrite (bind_ok _ _ _ _ _ (myproc_eq s Hc)). rewrite Hi. done.
Qed.

(** Initialising a lock nobody holds. *)
Lemma initlock_eq lk s : locks s !! lk = None → initlock lk s = Ok tt s.
Proof.
  intros Hl. unfold initlock, modify. f_equal. destruct s; kred. f_equal. by apply delete_id.
Qed.

(** Critical sections: if the body keeps the hart and lock state, the whole
    section is the body. *)
Lemma critical_eq {A} lk (body : M A) s a s' :
  cpu_ok (cpu s) → locks s !! lk = None →
  body (hold lk s) = Ok a s' → cpu s' = cpu (hold lk s) → locks s' = locks (hold lk s) →
  (acquire lk;; r ← body; release lk;; mret r) s = Ok a (unhold s s').
Proof.
  intros Hc Hl Hb Hc' Hl'.
  rewrite (bind_ok _ _ _ _ _ (acquire_eq lk s Hl)), (bind_ok _ _ _ _ _ Hb).
  rewrite (bind_ok _ _ _ _ _ (release_eq lk s s' Hc Hl Hc' Hl')). done.
Qed.
