(* ===== verification/Smp.v ===== *)
(** * kernel/spinlock.c on several harts

    acquire() and release() instruction by instruction, the memory accesses of
    any number of harts interleaved arbitrarily (sequential consistency is what
    the fences of the code ask for). The lock is the pair of fields [locked] and
    [cpu]; every hart has its own noff, intena and SIE. The model justifies the
    atomic acquire and release of Spinlock.v. *)

From Stdlib Require Import ZArith Lia.
From stdpp Require Import base numbers gmap strings countable tactics list functions relations.
From S2P Require Import Prelude Machine State Spinlock.

(** Where a hart is. [n] says whether it called acquire() with the lock
    already held by itself. *)
Inductive pc :=
  | Out                       (* not in the critical section *)
  | AcqLocked (n : bool)      (* acquire: push_off() done, holding() loads lk->locked *)
  | AcqCpu (n : bool)         (* acquire: holding() loads lk->cpu *)
  | Spin (n : bool)           (* acquire: amoswap *)
  | SetCpu                    (* acquire: lk->cpu = mycpu() *)
  | In                        (* in the critical section *)
  | RelLocked                 (* release: holding() loads lk->locked *)
  | RelCpu                    (* release: holding() loads lk->cpu *)
  | ClearCpu                  (* release: lk->cpu = 0 *)
  | Unlock                    (* release: amoswap zero *)
  | PopOff                    (* release: pop_off() *)
  | Panicked (n : bool).       (* stopped; [n]: with the lock *)

Record smp := mkSmp { locked : bool; owner : option nat; pcs : nat → pc; cpus : nat → cpu_t }.

Definition goto (h : nat) (x : pc) (s : smp) : smp := mkSmp (locked s) (owner s) (<[h := x]> (pcs s)) (cpus s).
Definition set_locked (b : bool) (s : smp) : smp := mkSmp b (owner s) (pcs s) (cpus s).
Definition set_owner (o : option nat) (s : smp) : smp := mkSmp (locked s) o (pcs s) (cpus s).
Definition on_cpu (h : nat) (f : cpu_t → cpu_t) (s : smp) : smp :=
  mkSmp (locked s) (owner s) (pcs s) (<[h := f (cpus s h)]> (cpus s)).

(** pop_off() on the hart's own fields; [None] is its panic. *)
Definition popped (c : cpu_t) : option cpu_t :=
  if c_sie c then None
  else if c_noff c <? 1 then None
  else let n := c_noff c - 1 in
    Some (mkCpu (c_proc c) n (c_intena c) (if (n =? 0) && c_intena c then true else c_sie c) (c_id c)).

(** One memory access of hart [h]. A hart in the critical section may call
    release(), or acquire() by mistake. *)
Inductive step (h : nat) (s : smp) : smp → Prop :=
  | step_call (n : bool) : pcs s h = (if n then In else Out) →
      step h s (goto h (AcqLocked n) (on_cpu h pushed s))
  | step_acq_locked n : pcs s h = AcqLocked n →
      step h s (goto h (if locked s then AcqCpu n else Spin n) s)
  | step_acq_cpu n : pcs s h = AcqCpu n →
      step h s (goto h (if decide (owner s = Some h) then Panicked n else Spin n) s)
  | step_swap n : pcs s h = Spin n →
      step h s (goto h (if locked s then Spin n else SetCpu) (set_locked true s))
  | step_set_cpu : pcs s h = SetCpu →
      step h s (goto h In (set_owner (Some h) s))
  | step_leave : pcs s h = In →
      step h s (goto h RelLocked s)
  | step_rel_locked : pcs s h = RelLocked →
      step h s (goto h (if locked s then RelCpu else Panicked false) s)
  | step_rel_cpu : pcs s h = RelCpu →
      step h s (goto h (if decide (owner s = Some h) then ClearCpu else Panicked false) s)
  | step_clear_cpu : pcs s h = ClearCpu →
      step h s (goto h Unlock (set_owner None s))
  | step_unlock : pcs s h = Unlock →
      step h s (goto h PopOff (set_locked false s))
  | step_pop_off c : pcs s h = PopOff → popped (cpus s h) = Some c →
      step h s (goto h Out (on_cpu h (λ _, c) s))
  | step_pop_panic : pcs s h = PopOff → popped (cpus s h) = None →
      step h s (goto h (Panicked false) s).

(** initlock(), on harts whose interrupts are in a consistent state. *)
Definition initial (s : smp) : Prop :=
  locked s = false ∧ owner s = None ∧ ∀ h, pcs s h = Out ∧ cpu_ok (cpus s h).

Definition any_step (s s' : smp) : Prop := ∃ h, step h s s'.
Definition reachable (s : smp) : Prop := ∃ s0, initial s0 ∧ rtc any_step s0 s.

(** ** The invariant *)

(** From the winning swap to the store that unlocks. *)
Definition has_lock (x : pc) : bool :=
  match x with
  | SetCpu | In | RelLocked | RelCpu | ClearCpu | Unlock => true
  | AcqLocked n | AcqCpu n | Spin n | Panicked n => n
  | _ => false
  end.

(** Between [lk->cpu = mycpu()] and [lk->cpu = 0]. *)
Definition owns_cpu (x : pc) : bool := has_lock x && match x with SetCpu | Unlock => false | _ => true end.

(** How many push_off()s the hart is in for this lock. *)
Definition depth (x : pc) : Z :=
  match x with Out => 0 | AcqLocked n | AcqCpu n | Spin n | Panicked n => if n then 2 else 1 | _ => 1 end.

(** Neither a spin of a hart that has the lock, nor any other panic than that
    of a second acquire(). *)
Definition sane (x : pc) : bool := match x with Spin true | Panicked false => false | _ => true end.

Record inv (s : smp) : Prop := {
  iv_one : ∀ h h', has_lock (pcs s h) = true → has_lock (pcs s h') = true → h' = h;
  iv_locked : locked s = true ↔ ∃ h, has_lock (pcs s h) = true;
  iv_owner : ∀ h, owner s = Some h ↔ owns_cpu (pcs s h) = true;
  iv_sane : ∀ h, sane (pcs s h) = true;
  iv_cpu : ∀ h, cpu_ok (cpus s h) ∧ depth (pcs s h) ≤ c_noff (cpus s h);
}.

Lemma inv_initial s : initial s → inv s.
Proof.
  intros (Hl & Ho & Hp). split.
  - intros h h'. by rewrite !(proj1 (Hp _)).
  - rewrite Hl. split; [done|]. intros [h Hh]. by rewrite (proj1 (Hp _)) in Hh.
  - intros h. by rewrite Ho, (proj1 (Hp _)).
  - intros h. by rewrite (proj1 (Hp _)).
  - intros h. destruct (Hp h) as [-> Hc]. split; [done|]. apply Hc.
Qed.

(** A step that moves hart [h] to [x], touches only its own hart state, and leaves
    locked and owner consistent with it, keeps the invariant. *)
Lemma inv_move s h x cs b o :
  inv s → sane x = true → (∀ h', h' ≠ h → cs h' = cpus s h') → cpu_ok (cs h) → depth x ≤ c_noff (cs h) →
  (has_lock x = true → has_lock (pcs s h) = true ∨ locked s = false) →
  b = (if decide (has_lock x = has_lock (pcs s h)) then locked s else has_lock x) →
  o = (if owns_cpu x then Some h else if owns_cpu (pcs s h) then None else owner s) →
  inv (mkSmp b o (<[h := x]> (pcs s)) cs).
Proof.
  intros [Hone Hlk How Hsane Hcpu] Hsx Hcs Hc Hd Hx Hb Ho.
  assert (Hfree : locked s = false → ∀ h', has_lock (pcs s h') = false).
  { intros Hf h'. destruct (has_lock (pcs s h')) eqn:Hh'; [|done].
    rewrite (proj2 Hlk) in Hf; [done|by exists h']. }
  assert (Hother : has_lock x = true → ∀ h', has_lock (pcs s h') = true → h' = h).
  { intros Hhx h' Hh'. destruct (Hx Hhx) as [Hh|Hf]; [by apply (Hone h h')|]. by rewrite Hfree in Hh'. }
  assert (Hown : ∀ y, owns_cpu y = true → has_lock y = true) by (by intros y [? _]%andb_prop).
  split; simpl.
  - intros h1 h2. destruct (decide (h1 = h)) as [->|], (decide (h2 = h)) as [->|];
      rewrite ?fn_lookup_insert, ?fn_lookup_insert_ne by done; intros; naive_solver.
  - subst b. split.
    + intros Hbt. destruct (has_lock x) eqn:Hhx; [exists h; by rewrite fn_lookup_insert|].
      case_decide as He; [|done]. apply Hlk in Hbt as [h' Hh']. exists h'.
      rewrite fn_lookup_insert_ne; [done|]. intros <-. congruence.
    + intros [h' Hh']. destruct (decide (h = h')) as [<-|].
      * rewrite fn_lookup_insert in Hh'. rewrite Hh' in *. case_decide as He; [|done]. apply Hlk. by exists h.
      * rewrite fn_lookup_insert_ne in Hh' by done. destruct (has_lock x) eqn:Hhx.
        -- by destruct (Hother eq_refl h' Hh').
        -- case_decide as He; [apply Hlk; by exists h'|].
           destruct (has_lock (pcs s h)) eqn:Hh; [|done]. by destruct (Hone h h').
  - intros h'. subst o. destruct (decide (h = h')) as [<-|Hne].
    + rewrite fn_lookup_insert. specialize (How h). destruct (owns_cpu x), (owns_cpu (pcs s h)); naive_solver.
    + rewrite fn_lookup_insert_ne by done. pose proof (How h). pose proof (How h').
      destruct (owns_cpu x) eqn:Hox, (owns_cpu (pcs s h)) eqn:Hoh; try naive_solver.
  - intros h'. destruct (decide (h = h')) as [<-|]; by rewrite ?fn_lookup_insert, ?fn_lookup_insert_ne.
  - intros h'. destruct (decide (h = h')) as [<-|]; rewrite ?fn_lookup_insert, ?fn_lookup_insert_ne by done; [auto|].
    rewrite Hcs; auto.
Qed.

Lemma pushed_ok c n : cpu_ok c → n ≤ c_noff c → cpu_ok (pushed c) ∧ n + 1 ≤ c_noff (pushed c).
Proof. intros (H0 & H1 & H2) Hn. unfold pushed. split; [|simpl; lia]. split; simpl; [lia|]. split; [lia|done]. Qed.

(** Inside push_off(), pop_off() succeeds and undoes it. *)
Lemma popped_ok c : cpu_ok c → 1 ≤ c_noff c →
  ∃ c', popped c = Some c' ∧ cpu_ok c' ∧ c_noff c' = c_noff c - 1.
Proof.
  intros (H0 & H1 & H2) Hn. unfold popped. rewrite H2 by lia. rewrite (proj2 (Z.ltb_ge _ _)) by lia.
  eexists. split; [done|]. split; [|done]. split; simpl; [lia|].
  destruct (Z.eqb_spec (c_noff c - 1) 0); simpl; split; try lia; by destruct (c_intena c).
Qed.

Ltac moved := match goal with
  | Hp : pcs _ _ = _, How : owner _ = _ ↔ _, Hhl : _ → locked _ = true |- _ =>
      apply inv_move; rewrite ?Hp; unfold owns_cpu; simpl in *; auto; try lia;
      try (by rewrite How); try (by rewrite Hhl); try congruence
  end.

Lemma inv_step h s s' : inv s → step h s s' → inv s'.
Proof.
  intros Hi Hs. pose proof (iv_locked s Hi) as Hlk. pose proof (iv_owner s Hi h) as How.
  pose proof (iv_sane s Hi h) as Hsane. destruct (iv_cpu s Hi h) as [Hc Hd].
  assert (Hhl : has_lock (pcs s h) = true → locked s = true) by (intros; apply Hlk; eauto).
  unfold owns_cpu in How.
  destruct Hs as [n Hp|n Hp|n Hp|n Hp|Hp|Hp|Hp|Hp|Hp|Hp|c Hp Hpop|Hp Hpop]; rewrite Hp in *;
    unfold goto, on_cpu, set_locked, set_owner; simpl in *.
  - destruct (pushed_ok _ _ Hc Hd) as [Hc' Hd'].
    apply inv_move; rewrite ?fn_lookup_insert, ?Hp; unfold owns_cpu; destruct n; simpl in *; auto.
    1-2: intros; by rewrite fn_lookup_insert_ne.
    by rewrite How.
  - destruct n; [rewrite Hhl by done|case_eq (locked s); intros Hl]; moved.
  - destruct n; simpl in *; [rewrite decide_True by (by apply How)|rewrite decide_False by (intros He; by apply How in He)]; moved.
  - destruct n; [done|]. case_eq (locked s); intros Hl; moved.
  - moved.
  - moved.
  - rewrite Hhl by done. moved.
  - rewrite decide_True by (by apply How). moved.
  - moved.
  - moved.
  - destruct (popped_ok _ Hc ltac:(lia)) as (c' & Hc' & Hok & Hn). rewrite Hpop in Hc'. injection Hc' as ->.
    apply inv_move; rewrite ?fn_lookup_insert, ?Hp; simpl; auto; [|lia]. intros; by rewrite fn_lookup_insert_ne.
  - destruct (popped_ok _ Hc ltac:(lia)) as (c' & Hc' & _). congruence.
Qed.

Lemma inv_reachable s : reachable s → inv s.
Proof.
  intros (s0 & H0 & Hr). revert s Hr. apply rtc_ind_r; [by apply inv_initial|].
  intros s s' _ [h Hs] Hi. by eapply inv_step.
Qed.

(** ** The atomic lock *)
Definition held_by (s : smp) (o : option nat) : Prop :=
  match o with Some h => has_lock (pcs s h) = true | None => ∀ h, has_lock (pcs s h) = false end.

Inductive atomic (h : nat) : option nat → option nat → Prop :=
  | at_acquire : atomic h None (Some h)
  | at_release : atomic h (Some h) None
  | at_silent o : atomic h o o.

Lemma held_by_step h s s' o :
  inv s → step h s s' → held_by s o → ∃ o', held_by s' o' ∧ atomic h o o' ∧
    (o' = o ∨ (locked s = false ∧ o' = Some h ∧ pcs s' h = SetCpu) ∨ (o = Some h ∧ o' = None ∧ pcs s h = Unlock)).
Proof.
  intros Hi Hs Ho. pose proof (inv_step h s s' Hi Hs) as Hi'.
  assert (Hoth : ∀ h', h' ≠ h → pcs s' h' = pcs s h').
  { intros h' Hne. destruct Hs; simpl; by rewrite fn_lookup_insert_ne. }
  destruct (has_lock (pcs s h)) eqn:Hb, (has_lock (pcs s' h)) eqn:Ha.
  - exists o. split; [|split; [constructor|by left]]. destruct o as [h'|]; simpl in *; [|by rewrite Ho in Hb].
    by rewrite (iv_one s Hi h h' Hb Ho).
  - assert (o = Some h) as ->. { destruct o as [h'|]; [by rewrite (iv_one s Hi h h' Hb Ho)|]. by rewrite Ho in Hb. }
    exists None. split; [|split; [constructor|right; right; do 2 (split; [done|])]].
    + intros h'. destruct (decide (h' = h)) as [->|Hne]; [done|]. rewrite Hoth by done.
      destruct (has_lock (pcs s h')) eqn:Hh'; [|done]. by destruct (Hne (iv_one s Hi h h' Hb Hh')).
    + destruct Hs as [n Hp|n Hp|n Hp|n Hp|Hp|Hp|Hp|Hp|Hp|Hp|c Hp Hpop|Hp Hpop]; simpl in Ha;
        rewrite fn_lookup_insert in Ha; rewrite Hp in *; try done; try (by destruct n);
        try (by destruct (locked s), n); try (by case_decide; destruct n).
      * assert (Hl : locked s = true) by (apply (iv_locked s Hi); exists h; by rewrite Hp). by rewrite Hl in Ha.
      * assert (Hw : owner s = Some h) by (apply (iv_owner s Hi); by rewrite Hp). by rewrite decide_True in Ha.
  - assert (Hwin : locked s = false ∧ pcs s' h = SetCpu).
    { destruct Hs as [n Hp|n Hp|n Hp|n Hp|Hp|Hp|Hp|Hp|Hp|Hp|c Hp Hpop|Hp Hpop]; simpl in *;
        rewrite fn_lookup_insert in *; rewrite Hp in *; try done;
        [by destruct n|by destruct (locked s), n|by case_decide; destruct n|].
      destruct (locked s); [|done]. simpl in *. congruence. }
    destruct Hwin as [Hl Hpc]. assert (o = None) as ->.
    { destruct o as [h'|]; [|done]. rewrite (proj2 (iv_locked s Hi)) in Hl; [done|by exists h']. }
    exists (Some h). split; [done|]. split; [constructor|by right; left].
  - exists o. split; [|split; [constructor|by left]]. destruct o as [h'|]; simpl in *.
    + rewrite Hoth; [done|]. intros ->. congruence.
    + intros h'. destruct (decide (h' = h)) as [->|Hne]; [done|]. by rewrite Hoth.
Qed.

(** ** What the lock promises *)

(** C15: mutual exclusion. Whatever the interleaving, at most one hart is
    between the winning swap of acquire() and the store of release() that
    unlocks; that hart has interrupts off; and the two loads of holding() tell a
    hart inside its critical section, and no other, that it holds the lock. *)
Theorem smp_mutual_exclusion s h :
  reachable s → has_lock (pcs s h) = true →
  (∀ h', has_lock (pcs s h') = true → h' = h) ∧ locked s = true ∧ c_sie (cpus s h) = false ∧
  (∀ h', pcs s h' = In → h' = h ∧ owner s = Some h) ∧ (∀ h', pcs s h' = Out → owner s ≠ Some h').
Proof.
  intros Hi%inv_reachable Hh. split; [intros h'; by apply (iv_one s Hi h h')|].
  split; [apply (iv_locked s Hi); by exists h|]. split.
  { destruct (iv_cpu s Hi h) as [(_ & _ & Hoff) Hd]. apply Hoff.
    assert (0 < depth (pcs s h)); [|lia]. by destruct (pcs s h) as [|[]|[]|[]| | | | | | | |[]]. }
  split.
  - intros h' Hin. assert (h' = h) as ->; [apply (iv_one s Hi h h'); [done|by rewrite Hin]|].
    split; [done|]. apply (iv_owner s Hi). by rewrite Hin.
  - intros h' Hout Ho. apply (iv_owner s Hi) in Ho. by rewrite Hout in Ho.
Qed.

(** C2: the spinlock refines an atomic lock. Every memory access of acquire()
    and release(), in every interleaving, is either invisible or an atomic
    acquire by the hart whose swap found the lock free, or an atomic release by
    the holder, at its last store. *)
Theorem smp_refines_atomic h s s' o :
  reachable s → step h s s' → held_by s o →
  ∃ o', held_by s' o' ∧ atomic h o o' ∧
    (o' ≠ o → (o = None ∧ o' = Some h ∧ pcs s' h = SetCpu) ∨ (o = Some h ∧ o' = None ∧ pcs s h = Unlock)).
Proof.
  intros Hi%inv_reachable Hs Ho. destruct (held_by_step h s s' o Hi Hs Ho) as (o' & Ho' & Ha & Hcase).
  exists o'. split; [done|]. split; [done|]. intros Hne.
  destruct Hcase as [->|[(Hl & -> & Hpc)|?]]; [done| |by right]. left. split; [|done].
  inversion Ha; [done|by subst].
Qed.

(** C40: acquire() panics exactly when the hart already holds the lock, instead
    of spinning for ever on itself, and release() and pop_off() never panic for
    a hart that releases what it acquired. *)
Theorem smp_panics_iff_nested s h :
  reachable s →
  pcs s h ≠ Panicked false ∧ pcs s h ≠ Spin true ∧
  (∀ s', step h s s' → pcs s h = AcqLocked true → pcs s' h = AcqCpu true) ∧
  (∀ s', step h s s' → pcs s h = AcqCpu true → pcs s' h = Panicked true) ∧
  (∀ s', step h s s' → pcs s h = AcqCpu false → pcs s' h = Spin false).
Proof.
  intros Hi%inv_reachable. pose proof (iv_sane s Hi h) as Hsane. pose proof (iv_owner s Hi h) as How.
  split; [by intros Hp; rewrite Hp in Hsane|]. split; [by intros Hp; rewrite Hp in Hsane|].
  split; [|split]; intros s' Hs Hp; rewrite Hp in *; destruct Hs as [n Hq|n Hq|n Hq|n Hq|Hq|Hq|Hq|Hq|Hq|Hq|c Hq Hpop|Hq Hpop];
    rewrite Hp in Hq; try done; try (by destruct n); simplify_eq; simpl; rewrite fn_lookup_insert.
  - rewrite (proj2 (iv_locked s Hi)); [done|]. exists h. by rewrite Hp.
  - rewrite decide_True; [done|]. by apply How.
  - rewrite decide_False; [done|]. intros He. by apply How in He.
Qed.

(** ** Example: hart 0 is in, hart 1 spins and hart 0 calls acquire() again *)
Definition demo_start : smp := mkSmp false None (λ _, Out) (λ h, mkCpu None 0 true true (Z.of_nat h)).
Definition demo_in : smp :=
  goto 0 In (set_owner (Some 0%nat) (goto 0 SetCpu (set_locked true
    (goto 0 (Spin false) (goto 0 (AcqLocked false) (on_cpu 0 pushed demo_start)))))).
Definition demo_nested : smp := goto 0 (AcqCpu true) (goto 0 (AcqLocked true) (on_cpu 0 pushed demo_in)).

Lemma demo_in_reachable : reachable demo_in.
Proof.
  exists demo_start. split; [split; [done|split; [done|]]; intros h; split; [done|by split]|].
  eapply rtc_l. { exists 0%nat. by apply (step_call _ _ false). }
  eapply rtc_l. { exists 0%nat. by apply (step_acq_locked _ _ false). }
  eapply rtc_l. { exists 0%nat. by apply (step_swap _ _ false). }
  eapply rtc_l. { exists 0%nat. by apply step_set_cpu. }
  apply rtc_refl.
Qed.

Lemma demo_nested_reachable : reachable demo_nested.
Proof.
  destruct demo_in_reachable as (s0 & H0 & Hr). exists s0. split; [done|].
  eapply rtc_r. { eapply rtc_r; [exact Hr|]. exists 0%nat. by apply (step_call _ _ true). }
  exists 0%nat. by apply (step_acq_locked 0 (goto 0 (AcqLocked true) (on_cpu 0 pushed demo_in)) true).
Qed.

Lemma smp_mutual_exclusion_witness : (∀ h', has_lock (pcs demo_in h') = true → h' = 0%nat) ∧
  c_sie (cpus demo_in 0) = false.
Proof.
  destruct (smp_mutual_exclusion demo_in 0 demo_in_reachable eq_refl) as (H1 & _ & H2 & _). done.
Defined.

Lemma smp_refines_atomic_witness : ∃ o', held_by (goto 0 RelLocked demo_in) o' ∧ atomic 0 (Some 0%nat) o'.
Proof.
  destruct (smp_refines_atomic 0 demo_in (goto 0 RelLocked demo_in) (Some 0%nat) demo_in_reachable
    (step_leave 0 demo_in eq_refl) eq_refl) as (o' & H1 & H2 & _). by exists o'.
Defined.

Lemma demo_nested_step : step 0 demo_nested (goto 0 (Panicked true) demo_nested).
Proof. by apply (step_acq_cpu 0 demo_nested true). Qed.

Lemma smp_panics_iff_nested_witness : pcs (goto 0 (Panicked true) demo_nested) 0%nat = Panicked true ∧
  pcs demo_nested 0%nat ≠ Spin true.
Proof.
  destruct (smp_panics_iff_nested demo_nested 0 demo_nested_reachable) as (_ & H1 & _ & H2 & _).
  split; [exact (H2 _ demo_nested_step eq_refl)|exact H1].
Defined.
