(* ===== verification/Kalloc.v ===== *)
(** * kernel/kalloc.c: the physical page allocator

    The free list is threaded through the free pages themselves: [kmem_ok s fl]
    says that the list that starts at kmem.freelist visits exactly the pages
    [fl]. The operations are shown to keep it, and to move pages between the
    free list and their callers one at a time. *)

From Stdlib Require Import ZArith Lia.
From stdpp Require Import base numbers gmap strings countable tactics list.
From S2P Require Import Prelude Machine CString State Spinlock.

Definition PGBYTES : nat := Z.to_nat PGSIZE.
#[global] Arguments PGBYTES : simpl never.

Lemma PGBYTES_Z : Z.of_nat PGBYTES = PGSIZE.
Proof. done. Qed.
#[global] Opaque PGBYTES.

(** What the linker script kernel/kernel.ld provides: the kernel is loaded at
    [KERNBASE], [end] follows it inside RAM, the trampoline page is aligned
    and lies within the kernel text. *)
Class EnvOk `{Env} : Prop := {
  env_end : KERNBASE < end_ < PHYSTOP;
  env_tramp : trampoline mod PGSIZE = 0;
  env_tramp_range : KERNBASE ≤ trampoline < end_;
}.

Section kalloc.
Context `{Env}.

(** ** The operations *)
Definition kfree (pa : Z) : M unit :=
  if negb (pa mod PGSIZE =? 0) || (pa <? end_) || (PHYSTOP <=? pa) then panic "kfree" else
  (* Fill with junk to catch dangling refs. *)
  modify (λ s, set_mem (memset (mem s) pa 1 PGBYTES) s);;
  acquire LkKmem;;
  modify (λ s, set_mem (store64 (mem s) pa (freelist s)) s);;
  modify (set_freelist pa);;
  release LkKmem.

Definition kalloc : M Z :=
  acquire LkKmem;;
  r ← gets freelist;
  when (negb (r =? 0)) (modify (λ s, set_freelist (load64 (mem s) r) s));;
  release LkKmem;;
  when (negb (r =? 0)) (modify (λ s, set_mem (memset (mem s) r 5 PGBYTES) s));;
  mret r.

(** The loop of freerange() runs at most once for each page of the range. *)
Definition freerange (pa_start pa_end : Z) : M unit :=
  let p := PGROUNDUP pa_start in
  loop (S (Z.to_nat ((pa_end - p) / PGSIZE)))
    (λ p, if p + PGSIZE <=? pa_end then kfree p;; mret (inl (p + PGSIZE)) else mret (inr tt)) p.

Definition kinit : M unit :=
  initlock LkKmem;;
  freerange end_ PHYSTOP.

(** freemem() walks the list without a bound; [NPAGES] is the number of page
    frames of RAM, plus one. *)
Definition NPAGES : nat := Z.to_nat ((PHYSTOP - KERNBASE) / PGSIZE + 1).

Definition freemem : M Z :=
  r ← gets freelist;
  loop NPAGES
    (λ '(r, addr),
       if r =? 0 then mret (inr addr)
       else nxt ← gets (λ s, load64 (mem s) r); mret (inl (nxt, u64 (addr + PGSIZE))))
    (r, 0).

(** ** The free list in memory *)
Definition page_ok (p : Z) : Prop := p mod PGSIZE = 0 ∧ end_ ≤ p < PHYSTOP.

#[global] Instance page_ok_dec p : Decision (page_ok p).
Proof. unfold page_ok. apply _. Defined.

Fixpoint linked (m : gmap Z Z) (head : Z) (fl : list Z) : Prop :=
  match fl with
  | [] => head = 0
  | p :: fl => head = p ∧ linked m (load64 m p) fl
  end.

Definition kmem_ok (s : kstate) (fl : list Z) : Prop :=
  NoDup fl ∧ Forall page_ok fl ∧ linked (mem s) (freelist s) fl.

(** [same_outside p m m']: the two memories differ at most within page [p]. *)
Definition same_outside (p : Z) (m m' : gmap Z Z) : Prop :=
  ∀ a, ¬ (p ≤ a < p + PGSIZE) → load8 m' a = load8 m a.

Definition lock_free (lk : lockid) (s : kstate) : Prop :=
  cpu_ok (cpu s) ∧ locks s !! lk = None.

(** The memory kfree() leaves: the junk fill with the link on top of it. *)
Definition kfree_mem (pa : Z) (s : kstate) : gmap Z Z :=
  store64 (memset (mem s) pa 1 PGBYTES) pa (freelist s).
End kalloc.

#[global] Arguments NPAGES : simpl never.
#[global] Hint Unfold lock_free : xv6.

Section theory.
Context `{EnvOk}.


Lemma page_ok_bounds p : page_ok p → 0 < p ∧ p + PGSIZE ≤ PHYSTOP ∧ p < 2 ^ 56.
Proof.
  intros [Hal Hr]. pose proof env_end. unfold PHYSTOP, KERNBASE, PGSIZE in *.
  Z.div_mod_to_equations. lia.
Qed.

(** Distinct aligned pages do not overlap. *)
Lemma pages_disjoint p q :
  p mod PGSIZE = 0 → q mod PGSIZE = 0 → p ≠ q → p + PGSIZE ≤ q ∨ q + PGSIZE ≤ p.
Proof. unfold PGSIZE. intros. Z.div_mod_to_equations. lia. Qed.

Lemma same_outside_load64 p m m' a :
  same_outside p m m' → a + 8 ≤ p ∨ p + PGSIZE ≤ a → load64 m' a = load64 m a.
Proof. intros Hs Ha. apply load64_ext. intros x Hx. apply Hs. unfold PGSIZE in *. lia. Qed.

Lemma linked_same_outside p m m' head fl :
  page_ok p → Forall page_ok fl → p ∉ fl → same_outside p m m' →
  linked m head fl → linked m' head fl.
Proof.
  intros Hp Hf Hn Hs. revert head. induction fl as [|q fl IH]; intros head; simpl; [done|].
  apply Forall_cons in Hf as [Hq Hf]. apply not_elem_of_cons in Hn as [Hpq Hn].
  intros [-> Hl]. split; [done|].
  rewrite (same_outside_load64 p m m' q Hs); [by apply IH|].
  destruct (pages_disjoint p q (proj1 Hp) (proj1 Hq) Hpq); unfold PGSIZE in *; lia.
Qed.

Lemma same_outside_memset p m c : same_outside p m (memset m p c PGBYTES).
Proof. intros a Ha. rewrite load8_memset, PGBYTES_Z, decide_False; done. Qed.

Lemma same_outside_store64 p m a v :
  p ≤ a → a + 8 ≤ p + PGSIZE → same_outside p m (store64 m a v).
Proof. intros ?? x Hx. apply load8_store64_ne. lia. Qed.

Lemma same_outside_trans p m1 m2 m3 :
  same_outside p m1 m2 → same_outside p m2 m3 → same_outside p m1 m3.
Proof. intros H1 H2 a Ha. rewrite H2, H1; done. Qed.

Lemma same_outside_kfree_mem pa s : same_outside pa (mem s) (kfree_mem pa s).
Proof.
  eapply same_outside_trans; [apply same_outside_memset|].
  apply same_outside_store64; unfold PGSIZE; lia.
Qed.

(** ** kfree *)
Lemma kfree_eq pa s :
  page_ok pa → lock_free LkKmem s →
  kfree pa s = Ok tt (set_freelist pa (set_mem (kfree_mem pa s) s)).
Proof.
  intros [Hal Hr] [Hc Hl]. unfold kfree.
  rewrite Hal, (proj2 (Z.ltb_ge _ _) (proj1 Hr)), (proj2 (Z.leb_gt _ _) (proj2 Hr)). simpl.
  mrun. pose (s1 := set_mem (memset (mem s) pa 1 PGBYTES) s).
  rewrite (bind_ok _ _ _ _ _ (acquire_eq LkKmem s1 Hl)). mrun.
  rewrite (release_eq LkKmem s1); [|simpl; done..].
  subst s1. unfold kfree_mem, unhold, hold. destruct s; kred; reflexivity.
Qed.

Lemma kfree_panics pa s :
  ¬ page_ok pa → kfree pa s = Panic "kfree" s.
Proof.
  intros Hn. unfold kfree.
  destruct (Z.eqb_spec (pa mod PGSIZE) 0), (Z.ltb_spec pa end_), (Z.leb_spec PHYSTOP pa);
    try done.
  exfalso. apply Hn. done.
Qed.

Lemma kmem_ok_kfree pa s fl :
  kmem_ok s fl → page_ok pa → pa ∉ fl → (freelist s < 2 ^ 64) →
  kmem_ok (set_freelist pa (set_mem (kfree_mem pa s) s)) (pa :: fl).
Proof.
  intros (Hnd & Hok & Hl) Hp Hn Hb. split; [by apply NoDup_cons|]. split; [by constructor|].
  simpl. split; [done|]. unfold kfree_mem.
  rewrite load64_store64.
  - eapply linked_same_outside; [done..|apply same_outside_kfree_mem|done].
  - split; [|done]. destruct fl as [|q fl]; simpl in Hl; [lia|].
    destruct Hl as [-> _]. apply Forall_cons in Hok as [Hq _]. apply page_ok_bounds in Hq. lia.
Qed.

Lemma kmem_ok_head s fl : kmem_ok s fl → 0 ≤ freelist s < 2 ^ 56.
Proof.
  intros (_ & Hok & Hl). destruct fl as [|q fl]; simpl in Hl; [lia|].
  destruct Hl as [-> _]. apply Forall_cons in Hok as [Hq _]. apply page_ok_bounds in Hq. lia.
Qed.

(** ** kalloc *)
Lemma kalloc_eq s :
  lock_free LkKmem s → freelist s ≠ 0 →
  kalloc s = Ok (freelist s) (set_freelist (load64 (mem s) (freelist s))
                               (set_mem (memset (mem s) (freelist s) 5 PGBYTES) s)).
Proof.
  intros [Hc Hl] Hf. unfold kalloc.
  rewrite (bind_ok _ _ _ _ _ (acquire_eq LkKmem s Hl)). mrun. simpl freelist.
  rewrite (proj2 (Z.eqb_neq _ _) Hf). simpl negb. cbv iota. mrun.
  erewrite bind_ok; [|apply (release_eq LkKmem s); simpl; done]. mrun.
  unfold unhold, hold. destruct s; kred; reflexivity.
Qed.

Lemma kalloc_empty s :
  lock_free LkKmem s → freelist s = 0 → kalloc s = Ok 0 s.
Proof.
  intros [Hc Hl] Hf. unfold kalloc.
  rewrite (bind_ok _ _ _ _ _ (acquire_eq LkKmem s Hl)). mrun. simpl freelist.
  rewrite Hf. simpl negb. cbv iota.
  erewrite bind_ok; [|apply (release_eq LkKmem s); simpl; done]. mrun. rewrite unhold_hold. done.
Qed.

Lemma kmem_ok_kalloc s p fl :
  kmem_ok s (p :: fl) →
  kmem_ok (set_freelist (load64 (mem s) p) (set_mem (memset (mem s) p 5 PGBYTES) s)) fl.
Proof.
  intros (Hnd & Hok & _ & Hl). apply NoDup_cons in Hnd as [Hn Hnd].
  apply Forall_cons in Hok as [Hp Hok]. split; [done|]. split; [done|]. simpl.
  eapply linked_same_outside; [done..|apply same_outside_memset|done].
Qed.

(** The allocator as a relation between a free list and a result; every
    client of kalloc() uses this form. *)
Lemma kalloc_spec s fl :
  lock_free LkKmem s → kmem_ok s fl →
  match fl with
  | [] => kalloc s = Ok 0 s
  | p :: fl' =>
      let m := memset (mem s) p 5 PGBYTES in
      let s' := set_freelist (load64 (mem s) p) (set_mem m s) in
      kalloc s = Ok p s' ∧ kmem_ok s' fl' ∧ page_ok p ∧ p ∉ fl'
  end.
Proof.
  intros Hlk Hok. destruct fl as [|p fl].
  - apply kalloc_empty; [done|]. by destruct Hok as (_ & _ & ?).
  - pose proof Hok as (Hnd & Hf & Hh & _). apply Forall_cons in Hf as [Hp _].
    apply NoDup_cons in Hnd as [Hn _]. simpl in *.
    assert (freelist s = p) as Hfp by done.
    rewrite kalloc_eq; [|done|apply page_ok_bounds in Hp; lia]. rewrite Hfp.
    split; [done|]. split; [by apply kmem_ok_kalloc|done].
Qed.

(** ** freerange and kinit *)
Fixpoint pages_from (p : Z) (n : nat) : list Z :=
  match n with O => [] | S n => p :: pages_from (p + PGSIZE) n end.

Lemma elem_of_pages_from p n q :
  q ∈ pages_from p n ↔ ∃ i, 0 ≤ i < Z.of_nat n ∧ q = p + i * PGSIZE.
Proof.
  revert p. induction n as [|n IH]; intros p; simpl.
  - split; [by intros ?%elem_of_nil|]. intros (i & ? & _). lia.
  - rewrite elem_of_cons, IH. split.
    + intros [->|(i & ? & ->)]; [exists 0|exists (i + 1)]; lia.
    + intros (i & ? & ->). destruct (decide (i = 0)); [left; lia|right; exists (i - 1); lia].
Qed.

Lemma freerange_loop n p pa_end s fl :
  lock_free LkKmem s → kmem_ok s fl →
  p mod PGSIZE = 0 → end_ ≤ p → pa_end ≤ PHYSTOP →
  (∀ q, q ∈ fl → q < p) →
  n = Z.to_nat ((pa_end - p) / PGSIZE) →
  ∃ s',
    loop (S n) (λ p, if p + PGSIZE <=? pa_end then kfree p;; mret (inl (p + PGSIZE))
                     else mret (inr tt)) p s = Ok tt s' ∧
    kmem_ok s' (reverse (pages_from p n) ++ fl) ∧ lock_free LkKmem s' ∧
    s' = set_freelist (freelist s') (set_mem (mem s') s).
Proof.
  revert p s fl. induction n as [|n IH]; intros p s fl Hlk Hok Hal He Hpe Hfl Hn.
  - exists s. simpl. destruct (Z.leb_spec (p + PGSIZE) pa_end).
    { exfalso. unfold PGSIZE in *. Z.div_mod_to_equations. lia. }
    rewrite bind_ret. split; [done|]. split; [done|]. split; [done|]. destruct s; done.
  - assert (p + PGSIZE ≤ pa_end) as Hle by (unfold PGSIZE in *; Z.div_mod_to_equations; lia).
    assert (page_ok p) as Hp by (split; [done|]; unfold PGSIZE in *; lia).
    set (s1 := set_freelist p (set_mem (kfree_mem p s) s)).
    destruct (IH (p + PGSIZE) s1 (p :: fl)) as (s' & Hrun & Hok' & Hlk' & Heq).
    + done.
    + apply kmem_ok_kfree; [done..| |].
      * intros Hin. apply Hfl in Hin. lia.
      * apply kmem_ok_head in Hok. lia.
    + unfold PGSIZE in *. Z.div_mod_to_equations. lia.
    + unfold PGSIZE. lia.
    + done.
    + intros q [->|Hq]%elem_of_cons; [unfold PGSIZE; lia|]. apply Hfl in Hq. unfold PGSIZE; lia.
    + unfold PGSIZE in *. Z.div_mod_to_equations. lia.
    + exists s'. split.
      { change (loop (S (S n))) with (λ (body : Z → M (Z + unit)) x,
          r ← body x; match r with inl x' => loop (S n) body x' | inr a => mret a end).
        cbv beta. destruct (Z.leb_spec (p + PGSIZE) pa_end); [|lia].
        erewrite bind_ok; [|erewrite bind_ok; [done|by apply kfree_eq]]. exact Hrun. }
      split.
      { simpl. rewrite reverse_cons, <- (assoc_L (++)). done. }
      split; [done|]. rewrite Heq. destruct s; done.
Qed.

Lemma freerange_spec s :
  lock_free LkKmem s → kmem_ok s [] →
  let p := PGROUNDUP end_ in
  ∃ s', freerange end_ PHYSTOP s = Ok tt s' ∧
    kmem_ok s' (reverse (pages_from p (Z.to_nat ((PHYSTOP - p) / PGSIZE)))) ∧
    s' = set_freelist (freelist s') (set_mem (mem s') s).
Proof.
  intros Hlk Hok p. pose proof env_end as He.
  assert (p = (end_ + PGSIZE - 1) - (end_ + PGSIZE - 1) mod PGSIZE) as Hp.
  { apply PGROUNDUP_eq. unfold PHYSTOP, KERNBASE, PGSIZE in *. lia. }
  destruct (freerange_loop (Z.to_nat ((PHYSTOP - p) / PGSIZE)) p PHYSTOP s [])
    as (s' & Hr & Hok' & _ & Heq); try done.
  - rewrite Hp. unfold PGSIZE. Z.div_mod_to_equations. lia.
  - rewrite Hp. unfold PGSIZE. Z.div_mod_to_equations. lia.
  - intros ? ?%elem_of_nil. done.
  - exists s'. rewrite app_nil_r in Hok'. done.
Qed.

(** ** freemem *)
Lemma linked_loop s fl : ∀ n r addr,
  linked (mem s) r fl → Forall page_ok fl → (length fl < n)%nat →
  0 ≤ addr → addr + PGSIZE * Z.of_nat (length fl) < 2 ^ 64 →
  loop n
    (λ '(r, addr),
       if r =? 0 then mret (inr addr)
       else nxt ← gets (λ s, load64 (mem s) r); mret (inl (nxt, u64 (addr + PGSIZE))))
    (r, addr) s = Ok (addr + PGSIZE * Z.of_nat (length fl)) s.
Proof.
  induction fl as [|p fl IH]; intros n r addr Hl Hf Hn Ha Hb; destruct n as [|n]; simpl in Hn; try lia.
  - simpl in Hl. subst r. simpl. rewrite bind_ret. unfold mret, M_ret. f_equal. simpl. lia.
  - destruct Hl as [-> Hl]. apply Forall_cons in Hf as [Hp Hf].
    cbn [loop]. destruct (Z.eqb_spec p 0); [apply page_ok_bounds in Hp; lia|].
    erewrite bind_ok; [|rewrite bind_gets; done].
    simpl length in *. cbv beta iota. rewrite IH; try done; unfold PGSIZE in *; rewrite ?u64_small by lia;
      try lia.
    f_equal. lia.
Qed.

Lemma length_fl s fl : kmem_ok s fl → (length fl < NPAGES)%nat.
Proof.
  intros (Hnd & Hf & _).
  assert (fl ⊆+ pages_from KERNBASE (Z.to_nat ((PHYSTOP - KERNBASE) / PGSIZE))) as Hs.
  { apply NoDup_submseteq; [done|]. intros q Hq. apply elem_of_pages_from.
    rewrite Forall_forall in Hf. destruct (Hf q Hq) as [Hal Hr]. pose proof env_end.
    exists ((q - KERNBASE) / PGSIZE). unfold PHYSTOP, KERNBASE, PGSIZE in *.
    Z.div_mod_to_equations. lia. }
  apply submseteq_length in Hs.
  assert (∀ p n, length (pages_from p n) = n) as Hlen.
  { intros p n. revert p. induction n; intros; simpl; auto. }
  rewrite Hlen in Hs. unfold NPAGES.
  change ((PHYSTOP - KERNBASE) / PGSIZE) with 32768 in *. lia.
Qed.

Lemma freemem_eq s fl :
  kmem_ok s fl → freemem s = Ok (PGSIZE * Z.of_nat (length fl)) s.
Proof.
  intros Hok. pose proof (length_fl s fl Hok) as Hlen. destruct Hok as (Hnd & Hf & Hl).
  unfold freemem. mrun. rewrite (linked_loop s fl); try done.
  unfold NPAGES in Hlen. change ((PHYSTOP - KERNBASE) / PGSIZE) with 32768 in *.
  unfold PGSIZE. lia.
Qed.
End theory.
