(* ===== verification/Vm.v ===== *)
(** * kernel/vm.c: page tables and user memory

    Page tables are 512-entry tables of 64-bit words in physical memory, as
    the hardware reads them. This file holds the operations; VmTheory.v and
    VmUser.v show what they do. *)

From Stdlib Require Import ZArith Lia.
From stdpp Require Import base numbers gmap strings countable tactics list.
From S2P Require Import Prelude Machine CString State Spinlock Kalloc.

Section vm.
Context `{Env}.

Definition ld64 (a : Z) : M Z := gets (λ s, load64 (mem s) a).
Definition st64 (a v : Z) : M unit := modify (λ s, set_mem (store64 (mem s) a v) s).
Definition zero_page (p : Z) : M unit := modify (λ s, set_mem (memset (mem s) p 0 PGBYTES) s).

(** One round of the loop of walk(): from the table at [pagetable] to the
    table below it, [None] when it returns 0. *)
Definition walk_level (va : Z) (alloc : bool) (level pagetable : Z) : M (option Z) :=
  let pte := pagetable + 8 * PX level va in
  v ← ld64 pte;
  if negb (Z.land v PTE_V =? 0) then mret (Some (PTE2PA v))
  else if negb alloc then mret None
  else
    p ← kalloc;
    if p =? 0 then mret None
    else
      zero_page p;;
      st64 pte (Z.lor (PA2PTE p) PTE_V);;
      mret (Some p).

(** The loop of walk(): from the current table down the given levels. *)
Fixpoint walk_levels (va : Z) (alloc : bool) (levels : list Z) (pagetable : Z) : M (option Z) :=
  match levels with
  | [] => mret (Some pagetable)
  | level :: levels =>
      r ← walk_level va alloc level pagetable;
      match r with
      | Some p => walk_levels va alloc levels p
      | None => mret None
      end
  end.

(** walk() returns the address of a PTE, or 0. *)
Definition walk (pagetable va : Z) (alloc : bool) : M Z :=
  if MAXVA <=? va then panic "walk"
  else
    r ← walk_levels va alloc [2; 1] pagetable;
    mret (match r with Some p => p + 8 * PX 0 va | None => 0 end).

Definition walkaddr (pagetable va : Z) : M Z :=
  if MAXVA <=? va then mret 0
  else
    pte ← walk pagetable va false;
    if pte =? 0 then mret 0
    else
      v ← ld64 pte;
      if Z.land v PTE_V =? 0 then mret 0
      else if Z.land v PTE_U =? 0 then mret 0
      else mret (PTE2PA v).

(** The loop of mappages() visits every page from [a] to [last]; the number of
    its rounds, in 64-bit arithmetic, is the first argument of [loop]. *)
Definition mappages_body (pagetable perm last : Z) (x : Z * Z) : M ((Z * Z) + Z) :=
  let '(a, pa) := x in
  pte ← walk pagetable a true;
  if pte =? 0 then mret (inr (-1))
  else
    v ← ld64 pte;
    if negb (Z.land v PTE_V =? 0) then panic "mappages: remap"
    else
      st64 pte (Z.lor (Z.lor (PA2PTE pa) perm) PTE_V);;
      if a =? last then mret (inr 0)
      else mret (inl (u64 (a + PGSIZE), u64 (pa + PGSIZE))).

Definition mappages (pagetable va size pa perm : Z) : M Z :=
  if size =? 0 then panic "mappages: size"
  else
    let a := PGROUNDDOWN va in
    let last := PGROUNDDOWN (u64 (va + size - 1)) in
    loop (S (Z.to_nat (u64 (last - a) / PGSIZE))) (mappages_body pagetable perm last) (a, pa).

Definition kvmmap (kpgtbl va pa sz perm : Z) : M unit :=
  r ← mappages kpgtbl va sz pa perm;
  if negb (r =? 0) then panic "kvmmap" else mret tt.

Definition uvmunmap_body (pagetable limit : Z) (do_free : bool) (a : Z) : M (Z + unit) :=
  if limit <=? a then mret (inr tt)
  else
    pte ← walk pagetable a false;
    if pte =? 0 then panic "uvmunmap: walk"
    else
      v ← ld64 pte;
      if Z.land v PTE_V =? 0 then panic "uvmunmap: not mapped"
      else if PTE_FLAGS v =? PTE_V then panic "uvmunmap: not a leaf"
      else
        when do_free (kfree (PTE2PA v));;
        st64 pte 0;;
        mret (inl (u64 (a + PGSIZE))).

Definition uvmunmap (pagetable va npages : Z) (do_free : bool) : M unit :=
  if negb (va mod PGSIZE =? 0) then panic "uvmunmap: not aligned"
  else
    loop (S (Z.to_nat npages))
      (uvmunmap_body pagetable (u64 (va + npages * PGSIZE)) do_free) va.

Definition uvmcreate : M Z :=
  pagetable ← kalloc;
  if pagetable =? 0 then mret 0
  else zero_page pagetable;; mret pagetable.

(** [src] is the initial program; its size is its length. *)
Definition uvminit (pagetable : Z) (src : list Z) : M unit :=
  if PGSIZE <=? Z.of_nat (length src) then panic "inituvm: more than a page"
  else
    mem_ ← kalloc;
    zero_page mem_;;
    mappages pagetable 0 PGSIZE mem_ (Z.lor (Z.lor (Z.lor PTE_W PTE_R) PTE_X) PTE_U);;
    modify (λ s, set_mem (write_bytes (mem s) mem_ src) s).

Definition uvmdealloc (pagetable oldsz newsz : Z) : M Z :=
  if oldsz <=? newsz then mret oldsz
  else
    when (PGROUNDUP newsz <? PGROUNDUP oldsz)
      (let npages := s32 ((PGROUNDUP oldsz - PGROUNDUP newsz) / PGSIZE) in
       uvmunmap pagetable (PGROUNDUP newsz) (u64 npages) true);;
    mret newsz.

Definition PTE_RWXU : Z := Z.lor (Z.lor (Z.lor PTE_W PTE_X) PTE_R) PTE_U.

Definition uvmalloc_body (pagetable oldsz newsz a : Z) : M (Z + Z) :=
  if newsz <=? a then mret (inr newsz)
  else
    mem_ ← kalloc;
    if mem_ =? 0 then
      uvmdealloc pagetable a oldsz;;
      mret (inr 0)
    else
      zero_page mem_;;
      r ← mappages pagetable a PGSIZE mem_ PTE_RWXU;
      if negb (r =? 0) then
        kfree mem_;;
        uvmdealloc pagetable a oldsz;;
        mret (inr 0)
      else mret (inl (u64 (a + PGSIZE))).

Definition uvmalloc (pagetable oldsz newsz : Z) : M Z :=
  if newsz <? oldsz then mret oldsz
  else
    let oldsz := PGROUNDUP oldsz in
    loop (S (Z.to_nat ((newsz - oldsz + PGSIZE - 1) / PGSIZE)))
      (uvmalloc_body pagetable oldsz newsz) oldsz.

(** freewalk() recurses from table to table; [depth] bounds the recursion (a
    page table has three levels). *)
Fixpoint freewalk (depth : nat) (pagetable : Z) : M unit :=
  match depth with
  | O => hang
  | S depth =>
      for_each (seqZ 0 512) (λ i,
        pte ← ld64 (pagetable + 8 * i);
        if negb (Z.land pte PTE_V =? 0) &&
           (Z.land pte (Z.lor (Z.lor PTE_R PTE_W) PTE_X) =? 0)
        then
          freewalk depth (PTE2PA pte);;
          st64 (pagetable + 8 * i) 0;;
          mret (None : option unit)
        else if negb (Z.land pte PTE_V =? 0) then panic "freewalk: leaf"
        else mret None);;
      kfree pagetable
  end.

Definition uvmfree (pagetable sz : Z) : M unit :=
  when (0 <? sz) (uvmunmap pagetable 0 (PGROUNDUP sz / PGSIZE) true);;
  freewalk 3 pagetable.

Definition uvmcopy_body (old new sz i : Z) : M (Z + Z) :=
  if sz <=? i then mret (inr 0)
  else
    let err := uvmunmap new 0 (i / PGSIZE) true;; mret (inr (-1)) in
    pte ← walk old i false;
    if pte =? 0 then panic "uvmcopy: pte should exist"
    else
      v ← ld64 pte;
      if Z.land v PTE_V =? 0 then panic "uvmcopy: page not present"
      else
        let pa := PTE2PA v in
        let flags := PTE_FLAGS v in
        mem_ ← kalloc;
        if mem_ =? 0 then err
        else
          modify (λ s, set_mem (memmove (mem s) mem_ pa PGBYTES) s);;
          r ← mappages new i PGSIZE mem_ flags;
          if negb (r =? 0) then kfree mem_;; err
          else mret (inl (u64 (i + PGSIZE))).

Definition uvmcopy (old new sz : Z) : M Z :=
  loop (S (Z.to_nat ((sz + PGSIZE - 1) / PGSIZE))) (uvmcopy_body old new sz) 0.

Definition uvmclear (pagetable va : Z) : M unit :=
  pte ← walk pagetable va false;
  if pte =? 0 then panic "uvmclear"
  else
    v ← ld64 pte;
    st64 pte (Z.land v (u64 (Z.lnot PTE_U))).

(** copyout(), copyin(), copyinstr(): the kernel side of the copy is a buffer
    of the caller; the number of bytes that go to one page is [chunk]. *)
Definition chunk (va len : Z) : Z :=
  let n := PGSIZE - (va - PGROUNDDOWN va) in
  if len <? n then len else n.

Definition copyout_body (pagetable : Z) (x : Z * list Z) : M ((Z * list Z) + Z) :=
  let '(dstva, src) := x in
  let len := Z.of_nat (length src) in
  if len <=? 0 then mret (inr 0)
  else
    let va0 := PGROUNDDOWN dstva in
    pa0 ← walkaddr pagetable va0;
    if pa0 =? 0 then mret (inr (-1))
    else
      let n := Z.to_nat (chunk dstva len) in
      modify (λ s, set_mem (write_bytes (mem s) (pa0 + (dstva - va0)) (take n src)) s);;
      mret (inl (u64 (va0 + PGSIZE), drop n src)).

Definition copyout (pagetable dstva : Z) (src : list Z) : M Z :=
  loop (S (S (Z.to_nat (Z.of_nat (length src) / PGSIZE + 1))))
    (copyout_body pagetable) (dstva, src).

(** Besides the C result, the bytes that reached [dst]. *)
Definition copyin_body (pagetable : Z) (x : Z * Z * list Z) : M ((Z * Z * list Z) + (Z * list Z)) :=
  let '(srcva, len, dst) := x in
  if len <=? 0 then mret (inr (0, dst))
  else
    let va0 := PGROUNDDOWN srcva in
    pa0 ← walkaddr pagetable va0;
    if pa0 =? 0 then mret (inr (-1, dst))
    else
      let n := chunk srcva len in
      bs ← gets (λ s, read_bytes (mem s) (pa0 + (srcva - va0)) (Z.to_nat n));
      mret (inl (u64 (va0 + PGSIZE), len - n, dst ++ bs)).

Definition copyin (pagetable srcva len : Z) : M (Z * list Z) :=
  loop (S (S (Z.to_nat (len / PGSIZE + 1)))) (copyin_body pagetable) (srcva, len, []).

(** The inner loop of copyinstr(): [n] bytes from [p], up to a zero byte. The
    result tells whether a zero byte was met. *)
Fixpoint scan (m : gmap Z Z) (p : Z) (n : nat) : bool * list Z :=
  match n with
  | O => (false, [])
  | S n =>
      if load8 m p =? 0 then (true, [0])
      else let '(g, l) := scan m (p + 1) n in (g, load8 m p :: l)
  end.

Definition copyinstr_body (pagetable : Z) (x : Z * Z * list Z) :
    M ((Z * Z * list Z) + (Z * list Z)) :=
  let '(srcva, max, dst) := x in
  if max <=? 0 then mret (inr (-1, dst))
  else
    let va0 := PGROUNDDOWN srcva in
    pa0 ← walkaddr pagetable va0;
    if pa0 =? 0 then mret (inr (-1, dst))
    else
      let n := chunk srcva max in
      r ← gets (λ s, scan (mem s) (pa0 + (srcva - va0)) (Z.to_nat n));
      let '(got_null, bs) := r in
      if (got_null : bool) then mret (inr (0, dst ++ bs))
      else mret (inl (u64 (va0 + PGSIZE), max - n, dst ++ bs)).

Definition copyinstr (pagetable srcva max : Z) : M (Z * list Z) :=
  loop (S (S (Z.to_nat (max / PGSIZE + 1)))) (copyinstr_body pagetable) (srcva, max, []).

(** proc_mapstacks() of kernel/proc.c, called from kvmmake(). *)
Definition proc_mapstacks (kpgtbl : Z) : M unit :=
  for_each (seqZ 0 (Z.of_nat NPROC)) (λ i,
    pa ← kalloc;
    if pa =? 0 then panic "kalloc"
    else
      kvmmap kpgtbl (KSTACK i) pa PGSIZE (Z.lor PTE_R PTE_W);;
      mret (None : option unit));;
  mret tt.

Definition kvmmake : M Z :=
  kpgtbl ← kalloc;
  zero_page kpgtbl;;
  kvmmap kpgtbl UART0 UART0 PGSIZE (Z.lor PTE_R PTE_W);;
  kvmmap kpgtbl VIRTIO0 VIRTIO0 PGSIZE (Z.lor PTE_R PTE_W);;
  kvmmap kpgtbl PLIC PLIC 0x400000 (Z.lor PTE_R PTE_W);;
  kvmmap kpgtbl KERNBASE KERNBASE (etext - KERNBASE) (Z.lor PTE_R PTE_X);;
  kvmmap kpgtbl etext etext (PHYSTOP - etext) (Z.lor PTE_R PTE_W);;
  kvmmap kpgtbl TRAMPOLINE trampoline PGSIZE (Z.lor PTE_R PTE_X);;
  proc_mapstacks kpgtbl;;
  mret kpgtbl.

Definition kvminit : M unit :=
  p ← kvmmake;
  modify (set_kernel_pagetable p).

Definition kvminithart : M unit :=
  p ← gets kernel_pagetable;
  modify (λ s, set_csr (set_r_satp (MAKE_SATP p) (csr s)) s).
End vm.
