(* ===== verification/VmTheory.v ===== *)
(** * Page tables: what walk(), walkaddr() and mappages() do

    A page table is described by the map [T] from paths (the indices taken so
    far) to table pages: [[]] is the root, [[i2]] a second-level table,
    [[i2; i1]] a leaf table. [pt_rep m root T] says that the words of memory [m]
    below [root] are exactly that tree. The mapping itself is [leaf m T], from
    virtual addresses to page-table entries, with 0 where there is no table. *)

From Stdlib Require Import ZArith Lia.
From stdpp Require Import base numbers gmap strings countable tactics list.
From S2P Require Import Prelude Machine CString State Spinlock Kalloc Vm.

Section rep.
Context `{Env}.

Record pt_rep (m : gmap Z Z) (root : Z) (T : gmap (list Z) Z) : Prop := {
  rep_root : T !! [] = Some root;
  rep_ok : ∀ path p, T !! path = Some p → page_ok p;
  rep_len : ∀ path p, T !! path = Some p → (length path ≤ 2)%nat;
  rep_inj : ∀ path path' p, T !! path = Some p → T !! path' = Some p → path = path';
  rep_entry : ∀ path p i, T !! path = Some p → (length path < 2)%nat → 0 ≤ i < 512 →
    match T !! (path ++ [i]) with
    | Some q => load64 m (p + 8 * i) = Z.lor (PA2PTE q) PTE_V
    | None => Z.land (load64 m (p + 8 * i)) PTE_V = 0
    end;
  rep_prefix : ∀ path i q, T !! (path ++ [i]) = Some q → is_Some (T !! path) ∧ 0 ≤ i < 512;
  rep_low : ∀ i path q, T !! (i :: path) = Some q → i < 256;
}.

Definition is_table (T : gmap (list Z) Z) (p : Z) : Prop := ∃ path, T !! path = Some p.

(** The page-table entry of the page of [va], 0 if there is no leaf table. *)
Definition leaf (m : gmap Z Z) (T : gmap (list Z) Z) (va : Z) : Z :=
  match T !! [PX 2 va; PX 1 va] with
  | Some p => load64 m (p + 8 * PX 0 va)
  | None => 0
  end.

(** From [T] to [T'] only tables on the way to [va] were added. *)
Definition new_tables (va : Z) (T T' : gmap (list Z) Z) : Prop :=
  ∀ path, is_Some (T' !! path) → is_Some (T !! path) ∨ path = [PX 2 va] ∨ path = [PX 2 va; PX 1 va].

Definition vm_ok (s : kstate) (root : Z) (T : gmap (list Z) Z) (fl : list Z) : Prop :=
  kmem_ok s fl ∧ pt_rep (mem s) root T ∧ ∀ p, is_table T p → p ∉ fl.

(** [vm_ext]: from [(s, T, fl)] the kernel moved pages from the free list into
    the page table, and changed no mapping and no byte of any other page. *)
Record vm_ext (root : Z) (s : kstate) (T : gmap (list Z) Z) (fl : list Z)
    (s' : kstate) (T' : gmap (list Z) Z) (fl' : list Z) : Prop := {
  ext_ok : vm_ok s' root T' fl';
  ext_sub : T ⊆ T';
  ext_frame : s' = set_freelist (freelist s') (set_mem (mem s') s);
  ext_leaf : ∀ va, leaf (mem s') T' va = leaf (mem s) T va;
  ext_used : ∃ used, fl = used ++ fl' ∧ ∀ p, is_table T' p ↔ is_table T p ∨ p ∈ used;
  ext_size : (length fl + size T = length fl' + size T')%nat;
  ext_mem : ∀ a, (∀ p, is_table T' p → ¬ (p ≤ a < p + PGSIZE)) →
              load8 (mem s') a = load8 (mem s) a;
}.
End rep.

Section theory.
Context `{EnvOk}.

Lemma vm_ext_refl root s T fl : vm_ok s root T fl → vm_ext root s T fl s T fl.
Proof.
  intros Hok. split; try done.
  - destruct s; done.
  - exists []. split; [done|]. intros p. rewrite elem_of_nil. tauto.
Qed.

Lemma vm_ext_trans root s T fl s1 T1 fl1 s2 T2 fl2 :
  vm_ext root s T fl s1 T1 fl1 → vm_ext root s1 T1 fl1 s2 T2 fl2 →
  vm_ext root s T fl s2 T2 fl2.
Proof.
  intros [Hok1 Hs1 Hf1 Hl1 (u1 & -> & Hu1) Hz1 Hm1] [Hok2 Hs2 Hf2 Hl2 (u2 & -> & Hu2) Hz2 Hm2].
  split; [done|by etrans| | | |lia|].
  - rewrite Hf2, Hf1. destruct s; done.
  - intros va. by rewrite Hl2, Hl1.
  - exists (u1 ++ u2). split; [by rewrite (assoc_L (++))|].
    intros p. rewrite Hu2, Hu1, elem_of_app. tauto.
  - intros a Ha. rewrite Hm2 by done. apply Hm1. intros p [path Hp]. apply Ha.
    exists path. by eapply lookup_weaken.
Qed.

(** ** Words in table pages *)
Lemma pte_in_page p i : 0 ≤ i < 512 → p ≤ p + 8 * i ∧ p + 8 * i + 8 ≤ p + PGSIZE.
Proof. unfold PGSIZE. lia. Qed.

Lemma load64_other_page p q i j m v :
  page_ok p → page_ok q → p ≠ q → 0 ≤ i < 512 → 0 ≤ j < 512 →
  load64 (store64 m (p + 8 * i) v) (q + 8 * j) = load64 m (q + 8 * j).
Proof.
  intros Hp Hq Hne Hi Hj. apply load64_store64_ne.
  destruct (pages_disjoint p q (proj1 Hp) (proj1 Hq) Hne); unfold PGSIZE in *; lia.
Qed.

Lemma load64_same_page p i j m v :
  i ≠ j → load64 (store64 m (p + 8 * i) v) (p + 8 * j) = load64 m (p + 8 * j).
Proof. intros. apply load64_store64_ne. lia. Qed.

Lemma pte_range p f : page_ok p → 0 ≤ f < 1024 → 0 ≤ Z.lor (PA2PTE p) f < 2 ^ 64.
Proof.
  intros Hp Hf. apply page_ok_bounds in Hp. rewrite pte_pack_eq by (pow2; lia).
  unfold PGSIZE. pow2. Z.div_mod_to_equations. lia.
Qed.

Lemma pte_valid p f : page_ok p → 0 ≤ f < 1024 → Z.land f PTE_V ≠ 0 →
  Z.land (Z.lor (PA2PTE p) f) PTE_V ≠ 0.
Proof.
  intros Hp Hf Hv. apply page_ok_bounds in Hp.
  change PTE_V with (2 ^ 1 - 1) in *. rewrite land_low in * by lia.
  rewrite pte_pack_eq by (pow2; lia). pow2. Z.div_mod_to_equations. lia.
Qed.

Lemma table_pte_valid q : page_ok q → (Z.land (Z.lor (PA2PTE q) PTE_V) PTE_V =? 0) = false.
Proof. intros. apply Z.eqb_neq. apply pte_valid; done. Qed.

Lemma table_pte_pa q : page_ok q → PTE2PA (Z.lor (PA2PTE q) PTE_V) = q.
Proof.
  intros Hq. pose proof (page_ok_bounds q Hq). destruct Hq. apply PTE2PA_pack; try done; lia.
Qed.

Lemma kmem_ok_ext s s' fl :
  freelist s' = freelist s →
  (∀ q, q ∈ fl → page_ok q → load64 (mem s') q = load64 (mem s) q) →
  kmem_ok s fl → kmem_ok s' fl.
Proof.
  intros Hf Hm (Hnd & Hok & Hl). split; [done|]. split; [done|]. rewrite Hf.
  revert Hm Hok Hl. generalize (freelist s). clear Hnd Hf.
  induction fl as [|q fl IH]; intros h Hm Hok Hl; simpl in *; [done|].
  apply Forall_cons in Hok as [Hq Hok]. destruct Hl as [-> Hl]. split; [done|].
  rewrite Hm; [|by left|done]. apply IH; [|done|done]. intros. apply Hm; [by right|done].
Qed.

(** ** One level of the walk *)
Section level.
Variables (root va : Z) (path : list Z) (p level : Z).
Variables (T : gmap (list Z) Z) (s : kstate) (fl : list Z).
Hypothesis Hok : vm_ok s root T fl.
Hypothesis Hpath : T !! path = Some p.
Hypothesis Hlen : (length path < 2)%nat.
Let i := PX level va.

Lemma walk_level_hit alloc q :
  T !! (path ++ [i]) = Some q → walk_level va alloc level p s = Ok (Some q) s.
Proof.
  intros Hq. pose proof Hok as (_ & Hr & _).
  pose proof (rep_entry _ _ _ Hr path p i Hpath Hlen (PX_range _ _)) as He. rewrite Hq in He.
  assert (page_ok q) by by eapply rep_ok.
  unfold walk_level, ld64. mrun. fold i. rewrite He.
  rewrite table_pte_valid, table_pte_pa by done. done.
Qed.

Lemma walk_level_miss_entry :
  T !! (path ++ [i]) = None → Z.land (load64 (mem s) (p + 8 * i)) PTE_V = 0.
Proof.
  intros Hq. pose proof Hok as (_ & Hr & _).
  pose proof (rep_entry _ _ _ Hr path p i Hpath Hlen (PX_range _ _)) as He. by rewrite Hq in He.
Qed.

Lemma walk_level_stop : T !! (path ++ [i]) = None →
  walk_level va false level p s = Ok None s.
Proof.
  intros Hq. unfold walk_level, ld64. mrun. fold i. rewrite walk_level_miss_entry by done. done.
Qed.

Lemma walk_level_full : T !! (path ++ [i]) = None → fl = [] → lock_free LkKmem s →
  walk_level va true level p s = Ok None s.
Proof.
  intros Hq Hfl Hlk. unfold walk_level, ld64. mrun. fold i. rewrite walk_level_miss_entry by done.
  pose proof (kalloc_spec s fl Hlk (proj1 Hok)) as Hk. rewrite Hfl in Hk.
  simpl. rewrite (bind_ok _ _ _ _ _ Hk). done.
Qed.

(** A new table [q], from the head of the free list, hung below entry [i] of
    the table [p]. *)
Section new_table.
Variables (q : Z) (fl' : list Z).
Hypothesis Hfl : fl = q :: fl'.
Hypothesis Hmiss : T !! (path ++ [i]) = None.
Hypothesis Hlk : lock_free LkKmem s.
Hypothesis Hlow : path = [] → i < 256.
Let m1 := memset (memset (mem s) q 5 PGBYTES) q 0 PGBYTES.
Let m2 := store64 m1 (p + 8 * i) (Z.lor (PA2PTE q) PTE_V).
Let T' := <[path ++ [i] := q]> T.
Let s' := set_freelist (load64 (mem s) q) (set_mem m2 s).

Lemma new_table_page : page_ok q.
Proof.
  pose proof Hok as ((_ & Hf & _) & _ & _). rewrite Hfl in Hf.
  apply Forall_cons in Hf as [? _]. done.
Qed.

Lemma new_table_fresh x : is_table T x → x ≠ q.
Proof.
  pose proof Hok as (_ & _ & Hdis). intros Hx ->. apply (Hdis q Hx). rewrite Hfl. by left.
Qed.

Lemma new_table_parent : page_ok p ∧ p ≠ q.
Proof.
  pose proof Hok as (_ & Hr & _). split; [exact (rep_ok _ _ _ Hr _ _ Hpath)|].
  apply new_table_fresh. by exists path.
Qed.

Lemma new_table_outside : same_outside q (mem s) m1.
Proof. eapply same_outside_trans; apply same_outside_memset. Qed.

Lemma new_table_zero j : 0 ≤ j < 512 → load64 m2 (q + 8 * j) = 0.
Proof.
  intros Hj. destruct new_table_parent. unfold m2.
  rewrite load64_other_page; [|done|apply new_table_page|done|apply PX_range|done].
  apply load64_memset0; rewrite ?PGBYTES_Z; unfold PGSIZE; lia.
Qed.

Lemma new_table_others x j :
  page_ok x → x ≠ q → 0 ≤ j < 512 → (x ≠ p ∨ j ≠ i) →
  load64 m2 (x + 8 * j) = load64 (mem s) (x + 8 * j).
Proof.
  intros Hx Hxq Hj Hne.
  assert (load64 m1 (x + 8 * j) = load64 (mem s) (x + 8 * j)) as Hld.
  { apply (same_outside_load64 q); [apply new_table_outside|].
    destruct (pages_disjoint x q (proj1 Hx) (proj1 new_table_page) Hxq);
      unfold PGSIZE in *; lia. }
  unfold m2. destruct (decide (x = p)) as [->|Hxp].
  - rewrite load64_same_page by (destruct Hne; congruence). done.
  - rewrite load64_other_page; [done|apply new_table_parent|done|done|apply PX_range|done].
Qed.

Lemma new_table_run : walk_level va true level p s = Ok (Some q) s'.
Proof.
  pose proof (walk_level_miss_entry Hmiss) as Hent.
  pose proof (kalloc_spec s fl Hlk (proj1 Hok)) as Hrun. rewrite Hfl in Hrun.
  destruct Hrun as (Hrun & _).
  unfold walk_level, ld64, zero_page, st64. mrun. fold i. rewrite Hent.
  simpl. rewrite (bind_ok _ _ _ _ _ Hrun).
  destruct (Z.eqb_spec q 0); [pose proof (page_ok_bounds q new_table_page); lia|]. mrun.
  unfold mret, M_ret. subst s' m2 m1. fold i. destruct s; kred; reflexivity.
Qed.

Lemma new_table_kmem : kmem_ok s' fl'.
Proof.
  pose proof (kalloc_spec s fl Hlk (proj1 Hok)) as Hk. rewrite Hfl in Hk.
  destruct Hk as (_ & Hk & Hq & Hn). pose proof Hok as (_ & _ & Hdis).
  eapply (kmem_ok_ext (set_freelist (load64 (mem s) q) (set_mem (memset (mem s) q 5 PGBYTES) s)));
    [simpl; done| |done].
  simpl. intros x Hx Hxok. assert (x ≠ q) by (intros ->; done).
  assert (x ≠ p) by (intros ->; apply (Hdis p); [by exists path|rewrite Hfl; by right]).
  pose proof (new_table_others x 0) as Hx0. replace (x + 8 * 0) with x in Hx0 by lia.
  rewrite Hx0; [|done|done|lia|by left]. symmetry.
  apply (same_outside_load64 q); [apply same_outside_memset|].
  destruct (pages_disjoint x q (proj1 Hxok) (proj1 Hq)); unfold PGSIZE in *; lia.
Qed.

Lemma new_table_entry path' x j :
  T' !! path' = Some x → (length path' < 2)%nat → 0 ≤ j < 512 →
  match T' !! (path' ++ [j]) with
  | Some y => load64 m2 (x + 8 * j) = Z.lor (PA2PTE y) PTE_V
  | None => Z.land (load64 m2 (x + 8 * j)) PTE_V = 0
  end.
Proof.
  pose proof Hok as (_ & Hr & _). unfold T'. rewrite lookup_insert. case_decide as Hd.
  - subst path'. intros [= <-] Hl Hj. rewrite lookup_insert_ne.
    2: { intros Heq%(f_equal length). rewrite !length_app in Heq. simpl in Heq. lia. }
    destruct (T !! ((path ++ [i]) ++ [j])) eqn:Ht.
    { apply (rep_prefix _ _ _ Hr) in Ht as [[? Ht] _]. congruence. }
    rewrite new_table_zero by done. done.
  - intros Hx Hl Hj. rewrite lookup_insert. case_decide as Hd2.
    + apply app_inj_tail in Hd2 as [<- <-]. assert (x = p) as -> by congruence.
      unfold m2. apply load64_store64. apply pte_range; [apply new_table_page|done].
    + rewrite new_table_others; [by eapply (rep_entry _ _ _ Hr)|by eapply rep_ok| |done|].
      { apply new_table_fresh. by eexists. }
      destruct (decide (x = p)) as [->|]; [|by left]. right. intros ->.
      apply Hd2. f_equal. by eapply rep_inj.
Qed.

Lemma new_table_rep : pt_rep m2 root T'.
Proof.
  pose proof Hok as (_ & Hr & _). pose proof new_table_fresh as Hold. unfold T'.
  assert (Hne : path ++ [i] ≠ []) by by destruct path.
  split; [| | | |apply new_table_entry| |].
  - rewrite lookup_insert_ne by done. by eapply rep_root.
  - intros path' x. rewrite lookup_insert.
    case_decide; [intros [= <-]; apply new_table_page|by eapply rep_ok].
  - intros path' x. rewrite lookup_insert. case_decide; [|by eapply rep_len].
    subst. intros _. rewrite length_app. simpl. lia.
  - intros pa pb x. rewrite !lookup_insert. do 2 case_decide; intros; simplify_eq; try done.
    + exfalso. apply (Hold x); [by eexists|done].
    + exfalso. apply (Hold x); [by eexists|done].
    + by eapply rep_inj.
  - intros path' j x. rewrite lookup_insert. case_decide as Hd.
    + apply app_inj_tail in Hd as [<- <-]. intros [= <-]. split; [|apply PX_range].
      rewrite lookup_insert_ne; [by eexists|].
      intros Heq%(f_equal length). rewrite length_app in Heq. simpl in Heq. lia.
    + intros Hx. apply (rep_prefix _ _ _ Hr) in Hx as [[y Hy] ?]. split; [|done].
      rewrite lookup_insert. case_decide; by eexists.
  - intros j path' x. rewrite lookup_insert. case_decide as Hd; [|by eapply rep_low].
    destruct path as [|k path0]; simpl in Hd; simplify_eq/=; [by intros _; apply Hlow|].
    intros _. by eapply (rep_low _ _ _ Hr).
Qed.

Lemma new_table_leaf va' : leaf m2 T' va' = leaf (mem s) T va'.
Proof.
  pose proof Hok as (_ & Hr & _). unfold leaf, T'. rewrite lookup_insert. case_decide as Hd.
  - rewrite new_table_zero by apply PX_range. rewrite <- Hd, Hmiss. done.
  - destruct (T !! [PX 2 va'; PX 1 va']) as [x|] eqn:Hx; [|done].
    apply new_table_others; [exact (rep_ok _ _ _ Hr _ _ Hx)| |apply PX_range|].
    { apply new_table_fresh. by eexists. }
    left. intros ->. pose proof (rep_inj _ _ _ Hr _ _ _ Hx Hpath) as Hp2.
    rewrite <- Hp2 in Hlen. simpl in Hlen. lia.
Qed.

Lemma new_table_ext : vm_ext root s T fl s' T' fl'.
Proof.
  pose proof Hok as (_ & _ & Hdis). split.
  - split; [apply new_table_kmem|]. split; [apply new_table_rep|].
    intros x [path' Hx]. unfold T' in Hx. rewrite lookup_insert in Hx. case_decide.
    + assert (x = q) as -> by congruence. pose proof (proj1 Hok) as (Hnd & _). rewrite Hfl in Hnd.
      by apply NoDup_cons in Hnd as [? _].
    + intros Hin. apply (Hdis x); [by eexists|]. rewrite Hfl. by right.
  - by apply insert_subseteq.
  - subst s'. destruct s; kred; reflexivity.
  - apply new_table_leaf.
  - exists [q]. split; [done|]. intros x. rewrite list_elem_of_singleton. unfold T'. split.
    + intros [path' Hx]. rewrite lookup_insert in Hx.
      case_decide; [right; congruence|left; by eexists].
    + intros [[path' Hx]| ->].
      * exists path'. rewrite lookup_insert_ne by congruence. done.
      * exists (path ++ [i]). apply lookup_insert_eq.
  - rewrite Hfl. unfold T'. rewrite map_size_insert_None by done. simpl. lia.
  - intros a Ha. simpl. unfold m2. rewrite load8_store64_ne.
    + apply new_table_outside. apply Ha. exists (path ++ [i]). apply lookup_insert_eq.
    + intros Hin. apply (Ha p).
      * exists path. unfold T'. rewrite lookup_insert_ne by congruence. done.
      * pose proof (PX_range level va) as Hpx. fold i in Hpx. unfold PGSIZE. lia.
Qed.
End new_table.

(** All cases of one allocating level. *)
Lemma walk_level_alloc :
  lock_free LkKmem s → (path = [] → i < 256) →
  ∃ r s' T' fl', walk_level va true level p s = Ok r s' ∧ vm_ext root s T fl s' T' fl' ∧
    (∀ path', is_Some (T' !! path') → is_Some (T !! path') ∨ path' = path ++ [i]) ∧
    match r with
    | Some q => T' !! (path ++ [i]) = Some q
    | None => fl' = []
    end.
Proof.
  intros Hlk Hlow. destruct (T !! (path ++ [i])) as [q|] eqn:Hq.
  - exists (Some q), s, T, fl. split; [by apply walk_level_hit|]. split; [by apply vm_ext_refl|]. split; [by left|done].
  - assert (fl = [] ∨ ∃ q fl', fl = q :: fl') as [Hfl|(q & fl' & Hfl)] by (destruct fl; eauto).
    + exists None, s, T, fl. split; [by apply walk_level_full|].
      split; [by apply vm_ext_refl|]. split; [by left|done].
    + do 4 eexists. split; [by apply (new_table_run q fl')|].
      split; [by apply (new_table_ext q fl')|]. simpl. split; [|apply lookup_insert_eq].
      intros path'. rewrite lookup_insert. case_decide; [by right|by left].
Qed.
End level.

(** ** walk *)
Lemma PX_top va : 0 ≤ va < MAXVA → PX 2 va < 256.
Proof.
  change MAXVA with (256 * 2 ^ 30). intros Hva. rewrite PX_eq by lia. change (12 + 9 * 2) with 30.
  assert (va / 2 ^ 30 < 256) by (apply Z.div_lt_upper_bound; lia).
  assert (0 ≤ va / 2 ^ 30) by (apply Z.div_pos; lia). rewrite Z.mod_small; lia.
Qed.

Lemma walk_lookup root va s T fl :
  vm_ok s root T fl → 0 ≤ va < MAXVA →
  walk root va false s =
  Ok (match T !! [PX 2 va; PX 1 va] with Some p => p + 8 * PX 0 va | None => 0 end) s.
Proof.
  intros Hok Hva. unfold walk. rewrite (proj2 (Z.leb_gt _ _)) by lia.
  pose proof Hok as (_ & Hr & _). pose proof (rep_root _ _ _ Hr) as Hroot.
  destruct (T !! [PX 2 va]) as [p1|] eqn:Ht1.
  - pose proof (walk_level_hit root va [] root 2 T s fl Hok Hroot ltac:(simpl; lia) false p1 Ht1)
      as Hw1.
    assert (walk_level va false 1 p1 s = Ok (T !! [PX 2 va; PX 1 va]) s) as Hw0.
    { destruct (T !! [PX 2 va; PX 1 va]) eqn:Ht0.
      - by apply (walk_level_hit root va [PX 2 va] p1 1 T s fl Hok Ht1 ltac:(simpl; lia)).
      - by apply (walk_level_stop root va [PX 2 va] p1 1 T s fl Hok Ht1 ltac:(simpl; lia)). }
    assert (walk_levels va false [2; 1] root s = Ok (T !! [PX 2 va; PX 1 va]) s) as Hw.
    { cbn [walk_levels]. rewrite (bind_ok _ _ _ _ _ Hw1), (bind_ok _ _ _ _ _ Hw0).
      by destruct (T !! [PX 2 va; PX 1 va]). }
    rewrite (bind_ok _ _ _ _ _ Hw). done.
  - assert (T !! [PX 2 va; PX 1 va] = None) as ->.
    { destruct (T !! [PX 2 va; PX 1 va]) eqn:Ht; [|done].
      apply (rep_prefix _ _ _ Hr [PX 2 va]) in Ht as [[? ?] _]. congruence. }
    pose proof (walk_level_stop root va [] root 2 T s fl Hok Hroot ltac:(simpl; lia) Ht1) as Hw1.
    erewrite bind_ok; [|cbn [walk_levels]; rewrite (bind_ok _ _ _ _ _ Hw1); done]. done.
Qed.

Lemma lock_free_ext root lk s T fl s' T' fl' :
  vm_ext root s T fl s' T' fl' → lock_free lk s → lock_free lk s'.
Proof. intros Hx Hl. rewrite (ext_frame _ _ _ _ _ _ _ Hx). destruct s; done. Qed.

Lemma walk_alloc root va s T fl :
  lock_free LkKmem s → vm_ok s root T fl → 0 ≤ va < MAXVA →
  ∃ r s' T' fl', walk root va true s = Ok r s' ∧ vm_ext root s T fl s' T' fl' ∧ new_tables va T T' ∧
    ((r = 0 ∧ fl' = []) ∨
     ∃ p, T' !! [PX 2 va; PX 1 va] = Some p ∧ r = p + 8 * PX 0 va).
Proof.
  intros Hlk Hok Hva. unfold walk. rewrite (proj2 (Z.leb_gt _ _)) by lia.
  pose proof Hok as (_ & Hr & _). pose proof (rep_root _ _ _ Hr) as Hroot.
  destruct (walk_level_alloc root va [] root 2 T s fl)
    as (r1 & s1 & T1 & fl1 & Hrun1 & Hx1 & Hn1 & Hr1); try done; [simpl; lia|intros _; by apply PX_top|].
  destruct r1 as [p1|].
  2: { exists 0, s1, T1, fl1. split; [|split; [done|split; [|by left]]]; [|intros path' [?| ->]%Hn1; [by left|by right; left]].
       erewrite bind_ok; [|cbn [walk_levels]; rewrite (bind_ok _ _ _ _ _ Hrun1); done]. done. }
  destruct (walk_level_alloc root va [PX 2 va] p1 1 T1 s1 fl1)
    as (r0 & s0 & T0 & fl0 & Hrun0 & Hx0 & Hn0 & Hr0); try done.
  { by apply ext_ok in Hx1. } { simpl; lia. } { by eapply lock_free_ext. }
  pose proof (vm_ext_trans _ _ _ _ _ _ _ _ _ _ Hx1 Hx0) as Hx.
  exists (match r0 with Some p => p + 8 * PX 0 va | None => 0 end), s0, T0, fl0.
  split; [|split; [done|]; split; [|destruct r0; eauto]]; [|intros path' [[?| ->]%Hn1| ->]%Hn0; unfold new_tables; auto].
  assert (walk_levels va true [2; 1] root s = Ok r0 s0) as Hw.
  { cbn [walk_levels]. rewrite (bind_ok _ _ _ _ _ Hrun1), (bind_ok _ _ _ _ _ Hrun0).
    by destruct r0. }
  rewrite (bind_ok _ _ _ _ _ Hw). done.
Qed.
End theory.
