(* ===== verification/VmMap.v ===== *)
(** * Page tables: installing, reading and removing one mapping

    The one-page steps of mappages(), walkaddr() and uvmunmap(), and the
    multi-page loop of mappages(), in terms of the mapping [leaf]. *)

From Stdlib Require Import ZArith Lia.
From stdpp Require Import base numbers gmap strings countable tactics list.
From S2P Require Import Prelude Machine CString State Spinlock Kalloc Vm VmTheory.

Lemma PX_vpn_eq va va' level :
  0 ≤ level → va / PGSIZE = va' / PGSIZE → PX level va = PX level va'.
Proof.
  intros Hl Heq. rewrite !PX_eq by lia. rewrite Z.pow_add_r by lia.
  change (2 ^ 12) with PGSIZE. rewrite <- !Z.div_div by (unfold PGSIZE; lia).
  by rewrite Heq.
Qed.

Section map.
Context `{EnvOk}.

Lemma leaf_vpn m T va va' :
  va / PGSIZE = va' / PGSIZE → leaf m T va = leaf m T va'.
Proof.
  intros Heq. unfold leaf.
  rewrite (PX_vpn_eq va va' 2), (PX_vpn_eq va va' 1), (PX_vpn_eq va va' 0) by (done || lia). done.
Qed.

(** Writing the entry of [va] in its leaf table changes the mapping of its
    page and nothing else. *)
Lemma leaf_store root s T fl va p v :
  vm_ok s root T fl → 0 ≤ va < MAXVA → T !! [PX 2 va; PX 1 va] = Some p → 0 ≤ v < 2 ^ 64 →
  vm_ok (set_mem (store64 (mem s) (p + 8 * PX 0 va) v) s) root T fl ∧
  ∀ va', 0 ≤ va' < MAXVA →
    leaf (store64 (mem s) (p + 8 * PX 0 va) v) T va' =
    if decide (va' / PGSIZE = va / PGSIZE) then v else leaf (mem s) T va'.
Proof.
  intros (Hk & Hr & Hdis) Hva Hp Hv. assert (Hpok : page_ok p) by by eapply rep_ok.
  assert (Hpx := PX_range 0 va). split.
  - split; [|split; [|done]].
    + eapply kmem_ok_ext; [..|done]; [simpl; done|]. simpl. intros q Hq Hqok.
      assert (p ≠ q) as Hne by (intros ->; apply (Hdis q); [by eexists|done]).
      pose proof (load64_other_page p q (PX 0 va) 0 (mem s) v Hpok Hqok Hne Hpx ltac:(lia)) as Hl.
      by replace (q + 8 * 0) with q in Hl by lia.
    + destruct Hr as [Hroot Hok Hlen Hinj Hent Hpre Hlow]. split; try done.
      intros path x i Hx Hl Hi. simpl. rewrite load64_other_page; [by apply Hent|done|by eapply Hok| |done|done].
      intros ->. assert (path = [PX 2 va; PX 1 va]) as -> by by eapply Hinj. simpl in Hl. lia.
  - intros va' Hva'. unfold leaf. case_decide as Hd.
    + rewrite (PX_vpn_eq va' va 2), (PX_vpn_eq va' va 1), (PX_vpn_eq va' va 0) by (done || lia).
      rewrite Hp. by apply load64_store64.
    + destruct (T !! [PX 2 va'; PX 1 va']) as [q|] eqn:Hq; [|done].
      destruct (decide (p = q)) as [<-|Hne].
      * assert ([PX 2 va'; PX 1 va'] = [PX 2 va; PX 1 va]) as Heq by by eapply rep_inj.
        apply load64_same_page. intros Heq0. apply Hd. injection Heq as ??. by apply PX_inj.
      * apply load64_other_page; [done|by eapply rep_ok|done|done|apply PX_range].
Qed.

(** Bytes outside the tables are not affected by such a write. *)
Lemma leaf_store_mem root m T va p v a :
  pt_rep m root T → T !! [PX 2 va; PX 1 va] = Some p →
  (∀ q, is_table T q → ¬ (q ≤ a < q + PGSIZE)) →
  load8 (store64 m (p + 8 * PX 0 va) v) a = load8 m a.
Proof.
  intros Hr Hp Ha. apply load8_store64_ne. intros Hin. apply (Ha p); [by eexists|].
  pose proof (PX_range 0 va). unfold PGSIZE. lia.
Qed.

Lemma leaf_range root s T fl va : vm_ok s root T fl → leaf (mem s) T va = 0 ∨ ∃ p,
  T !! [PX 2 va; PX 1 va] = Some p ∧ leaf (mem s) T va = load64 (mem s) (p + 8 * PX 0 va).
Proof. intros _. unfold leaf. destruct (T !! _) as [p|] eqn:Hp; [right|left]; eauto. Qed.

(** ** walkaddr *)

(** What walkaddr() answers for a page whose entry is [v]. *)
Definition user_pa (v : Z) : Z :=
  if Z.land v PTE_V =? 0 then 0 else if Z.land v PTE_U =? 0 then 0 else PTE2PA v.

Lemma walkaddr_eq root s T fl va :
  vm_ok s root T fl → 0 ≤ va < MAXVA →
  walkaddr root va s = Ok (user_pa (leaf (mem s) T va)) s.
Proof.
  intros Hok Hva. unfold walkaddr. rewrite (proj2 (Z.leb_gt _ _)) by lia.
  rewrite (bind_ok _ _ _ _ _ (walk_lookup root va s T fl Hok Hva)).
  unfold leaf, ld64. pose proof Hok as (_ & Hr & _).
  destruct (T !! [PX 2 va; PX 1 va]) as [p|] eqn:Hp; [|done].
  assert (Hpok : page_ok p) by by eapply rep_ok. apply page_ok_bounds in Hpok.
  pose proof (PX_range 0 va). rewrite (proj2 (Z.eqb_neq _ _)) by lia. mrun.
  unfold user_pa. by repeat destruct (_ =? 0).
Qed.

Lemma walkaddr_high root s va : MAXVA ≤ va → walkaddr root va s = Ok 0 s.
Proof. intros. unfold walkaddr. by rewrite (proj2 (Z.leb_le _ _)). Qed.

(** ** mappages, one page *)
Lemma loop_S {X A} fuel (body : X → M (X + A)) x s :
  loop (S fuel) body x s =
  (r ← body x; match r with inl x' => loop fuel body x' | inr a => mret a end) s.
Proof. done. Qed.

Definition new_pte (pa perm : Z) : Z := Z.lor (Z.lor (PA2PTE pa) perm) PTE_V.

Lemma new_pte_pack pa perm : new_pte pa perm = Z.lor (PA2PTE pa) (Z.lor perm PTE_V).
Proof. unfold new_pte. by rewrite Z.lor_assoc. Qed.

Lemma flags_range perm : 0 ≤ perm < 1024 → 0 ≤ Z.lor perm PTE_V < 1024.
Proof.
  intros. split; [apply Z.lor_nonneg; split; [lia|done]|].
  destruct (decide (Z.lor perm PTE_V = 0)) as [->|Hn]; [lia|].
  assert (0 ≤ Z.lor perm PTE_V) by (apply Z.lor_nonneg; split; [lia|done]).
  change 1024 with (2 ^ 10). apply Z.log2_lt_pow2; [lia|].
  rewrite Z.log2_lor by (done || lia). apply Z.max_lub_lt; [|done].
  destruct (decide (perm = 0)) as [->|]; [done|]. apply Z.log2_lt_pow2; lia.
Qed.

Lemma new_pte_range pa perm :
  0 ≤ pa < 2 ^ 56 → 0 ≤ perm < 1024 → 0 ≤ new_pte pa perm < 2 ^ 64.
Proof.
  intros Hpa Hf. rewrite new_pte_pack. pose proof (flags_range perm Hf).
  rewrite pte_pack_eq by done. unfold PGSIZE. pow2. Z.div_mod_to_equations. lia.
Qed.

Lemma new_pte_pa pa perm :
  0 ≤ pa < 2 ^ 56 → pa mod PGSIZE = 0 → 0 ≤ perm < 1024 → PTE2PA (new_pte pa perm) = pa.
Proof. intros. rewrite new_pte_pack. apply PTE2PA_pack; [done..|]. by apply flags_range. Qed.

Lemma new_pte_flags pa perm :
  0 ≤ pa < 2 ^ 56 → 0 ≤ perm < 1024 → PTE_FLAGS (new_pte pa perm) = Z.lor perm PTE_V.
Proof. intros. rewrite new_pte_pack. apply PTE_FLAGS_pack; [done|]. by apply flags_range. Qed.

(** A single bit of a new entry is the bit of its flags. *)
Lemma new_pte_bit pa perm k :
  0 ≤ pa < 2 ^ 56 → 0 ≤ perm < 1024 → 0 ≤ k < 10 →
  Z.land (new_pte pa perm) (2 ^ k) = Z.land (Z.lor perm PTE_V) (2 ^ k).
Proof.
  intros Hpa Hf Hk. rewrite <- (new_pte_flags pa perm Hpa Hf). unfold PTE_FLAGS.
  rewrite <- Z.land_assoc. f_equal. symmetry. rewrite Z.land_comm.
  change 0x3FF with (Z.ones 10). rewrite Z.land_ones by lia.
  apply Z.mod_small. split; [lia|]. apply Z.pow_lt_mono_r; lia.
Qed.

Lemma new_pte_valid pa perm :
  0 ≤ pa < 2 ^ 56 → 0 ≤ perm < 1024 → Z.land (new_pte pa perm) PTE_V = PTE_V.
Proof.
  intros. change PTE_V with (2 ^ 0) at 1. rewrite new_pte_bit by (done || lia).
  change (2 ^ 0) with PTE_V. rewrite Z.land_lor_distr_l, Z.land_diag.
  change PTE_V with (2 ^ 1 - 1). rewrite land_low by lia. change (2 ^ 1 - 1) with 1.
  assert (perm mod 2 ^ 1 = 0 ∨ perm mod 2 ^ 1 = 1) as [-> | ->] by (pow2; Z.div_mod_to_equations; lia);
    done.
Qed.

Lemma aligned_rounddown va :
  0 ≤ va < MAXVA → va mod PGSIZE = 0 → PGROUNDDOWN va = va.
Proof.
  intros Hva Hal. unfold MAXVA in *. rewrite PGROUNDDOWN_eq; [lia|].
  change (Z.shiftl 1 (9 + 9 + 9 + 12 - 1)) with (2 ^ 38) in Hva. pow2. lia.
Qed.

Lemma page_last va :
  0 ≤ va < MAXVA → va mod PGSIZE = 0 → PGROUNDDOWN (u64 (va + PGSIZE - 1)) = va.
Proof.
  intros Hva Hal. unfold MAXVA, PGSIZE in *.
  change (Z.shiftl 1 (9 + 9 + 9 + 12 - 1)) with (2 ^ 38) in Hva. pow2.
  rewrite u64_small by (pow2; lia). rewrite PGROUNDDOWN_eq by (pow2; lia).
  unfold PGSIZE. Z.div_mod_to_equations. lia.
Qed.

(** One round of the loop on an unmapped page. *)
Lemma mappages_round root va last pa perm s T fl :
  lock_free LkKmem s → vm_ok s root T fl → 0 ≤ va < MAXVA →
  Z.land (leaf (mem s) T va) PTE_V = 0 →
  ∃ s1 T' fl', vm_ext root s T fl s1 T' fl' ∧ new_tables va T T' ∧
    ((fl' = [] ∧ mappages_body root perm last (va, pa) s = Ok (inr (-1)) s1) ∨
     (∃ p, T' !! [PX 2 va; PX 1 va] = Some p ∧
        mappages_body root perm last (va, pa) s =
        Ok (if va =? last then inr 0 else inl (u64 (va + PGSIZE), u64 (pa + PGSIZE)))
          (set_mem (store64 (mem s1) (p + 8 * PX 0 va) (new_pte pa perm)) s1))).
Proof.
  intros Hlk Hok Hva Hinv.
  destruct (walk_alloc root va s T fl Hlk Hok Hva) as (r & s1 & T' & fl' & Hw & Hx & Hnt & Hr).
  exists s1, T', fl'. split; [done|]. split; [done|]. unfold mappages_body.
  destruct Hr as [[-> ->]|(p & Hp & ->)].
  - left. split; [done|]. rewrite (bind_ok _ _ _ _ _ Hw). done.
  - right. exists p. split; [done|]. rewrite (bind_ok _ _ _ _ _ Hw).
    pose proof (ext_ok _ _ _ _ _ _ _ Hx) as (_ & Hrep & _).
    assert (Hpok : page_ok p) by by eapply rep_ok. apply page_ok_bounds in Hpok.
    pose proof (PX_range 0 va). rewrite (proj2 (Z.eqb_neq _ _)) by lia.
    pose proof (ext_leaf _ _ _ _ _ _ _ Hx va) as Hl. unfold leaf in Hl at 1. rewrite Hp in Hl.
    unfold ld64, st64. mrun. rewrite Hl, Hinv. simpl. mrun. by destruct (va =? last).
Qed.

Lemma mappages_remap root va last pa perm s T fl p :
  vm_ok s root T fl → 0 ≤ va < MAXVA → T !! [PX 2 va; PX 1 va] = Some p →
  Z.land (leaf (mem s) T va) PTE_V ≠ 0 →
  mappages_body root perm last (va, pa) s = Panic "mappages: remap" s.
Proof.
  intros Hok Hva Hp Hv. pose proof Hok as (_ & Hr & _).
  destruct (rep_prefix _ _ _ Hr [PX 2 va] (PX 1 va) p Hp) as [[p1 Hp1] _].
  pose proof (walk_level_hit root va [] root 2 T s fl Hok (rep_root _ _ _ Hr)
                ltac:(simpl; lia) true p1 Hp1) as Hw1.
  pose proof (walk_level_hit root va [PX 2 va] p1 1 T s fl Hok Hp1 ltac:(simpl; lia) true p Hp)
    as Hw0.
  assert (Hpok : page_ok p) by by eapply rep_ok. apply page_ok_bounds in Hpok.
  pose proof (PX_range 0 va).
  assert (Hw : walk root va true s = Ok (p + 8 * PX 0 va) s).
  { unfold walk. rewrite (proj2 (Z.leb_gt _ _)) by lia.
    erewrite bind_ok; [|cbn [walk_levels];
      rewrite (bind_ok _ _ _ _ _ Hw1), (bind_ok _ _ _ _ _ Hw0); done]. done. }
  unfold mappages_body. rewrite (bind_ok _ _ _ _ _ Hw), (proj2 (Z.eqb_neq _ _)) by lia.
  unfold ld64. mrun. unfold leaf in Hv. rewrite Hp in Hv.
  rewrite (proj2 (Z.eqb_neq _ _) Hv). done.
Qed.

Lemma mappages_one root va pa perm s T fl :
  lock_free LkKmem s → vm_ok s root T fl → 0 ≤ va < MAXVA → va mod PGSIZE = 0 →
  Z.land (leaf (mem s) T va) PTE_V = 0 →
  ∃ s1 T' fl', vm_ext root s T fl s1 T' fl' ∧
    ((fl' = [] ∧ mappages root va PGSIZE pa perm s = Ok (-1) s1) ∨
     (∃ p, T' !! [PX 2 va; PX 1 va] = Some p ∧
        mappages root va PGSIZE pa perm s =
        Ok 0 (set_mem (store64 (mem s1) (p + 8 * PX 0 va) (new_pte pa perm)) s1))).
Proof.
  intros Hlk Hok Hva Hal Hinv.
  destruct (mappages_round root va va pa perm s T fl Hlk Hok Hva Hinv)
    as (s1 & T' & fl' & Hx & _ & Hr).
  exists s1, T', fl'. split; [done|]. unfold mappages.
  change (PGSIZE =? 0) with false. cbv iota.
  rewrite page_last, aligned_rounddown by done.
  rewrite Z.sub_diag. change (S (Z.to_nat (u64 0 / PGSIZE))) with 1%nat. rewrite loop_S.
  destruct Hr as [[? Hb]|(p & Hp & Hb)]; [left|right; exists p]; (split; [done|]);
    rewrite (bind_ok _ _ _ _ _ Hb); rewrite ?Z.eqb_refl; done.
Qed.

(** ** uvmunmap, one page *)
Lemma uvmunmap_round root va limit s T fl do_free v :
  vm_ok s root T fl → 0 ≤ va < MAXVA → va < limit →
  leaf (mem s) T va = v → Z.land v PTE_V ≠ 0 → PTE_FLAGS v ≠ PTE_V →
  ∃ p, T !! [PX 2 va; PX 1 va] = Some p ∧
    uvmunmap_body root limit do_free va s =
    (when do_free (kfree (PTE2PA v));;
     st64 (p + 8 * PX 0 va) 0;;
     mret (inl (u64 (va + PGSIZE)))) s.
Proof.
  intros Hok Hva Hlim Hleaf Hv Hfl. unfold leaf in Hleaf.
  destruct (T !! [PX 2 va; PX 1 va]) as [p|] eqn:Hp; [|subst v; done].
  exists p. split; [done|]. unfold uvmunmap_body.
  rewrite (proj2 (Z.leb_gt _ _) Hlim).
  rewrite (bind_ok _ _ _ _ _ (walk_lookup root va s T fl Hok Hva)). rewrite Hp.
  pose proof Hok as (_ & Hr & _).
  assert (Hpok : page_ok p) by by eapply rep_ok. apply page_ok_bounds in Hpok.
  pose proof (PX_range 0 va). rewrite (proj2 (Z.eqb_neq _ _)) by lia.
  unfold ld64. rewrite bind_gets, Hleaf.
  rewrite (proj2 (Z.eqb_neq _ _) Hv), (proj2 (Z.eqb_neq _ _) Hfl). done.
Qed.
End map.
