(* ===== verification/VmUser.v ===== *)
(** * User address spaces: uvmalloc(), uvmdealloc(), uvmunmap(), uvmcopy()

    [uspace s root T fl D]: in state [s], with free list [fl], the page table at
    [root] has the tables [T] and owns the user pages [D] (virtual page number
    to physical page). The three families of pages are disjoint. *)

From Stdlib Require Import ZArith Lia.
From stdpp Require Import base numbers gmap strings countable tactics list.
From S2P Require Import Prelude Machine CString State Spinlock Kalloc Vm VmTheory VmMap.

Section uspace.
Context `{Env}.

(** An entry that refers to the user page [p]: valid, and a leaf. *)
Definition maps_to (v p : Z) : Prop :=
  PTE2PA v = p ∧ Z.land v PTE_V ≠ 0 ∧ PTE_FLAGS v ≠ PTE_V.

Definition VPNS : Z := MAXVA / PGSIZE.

Record uspace (s : kstate) (root : Z) (T : gmap (list Z) Z) (fl : list Z) (D : gmap Z Z) : Prop := {
  us_vm : vm_ok s root T fl;
  us_vpn : ∀ vpn p, D !! vpn = Some p → 0 ≤ vpn < VPNS;
  us_page : ∀ vpn p, D !! vpn = Some p → page_ok p ∧ p ∉ fl ∧ ¬ is_table T p;
  us_map : ∀ vpn p, D !! vpn = Some p → maps_to (leaf (mem s) T (vpn * PGSIZE)) p;
  us_inj : ∀ vpn vpn' p, D !! vpn = Some p → D !! vpn' = Some p → vpn = vpn';
}.

(** A page that belongs neither to the free list nor to the address space. *)
Definition foreign (T : gmap (list Z) Z) (fl : list Z) (D : gmap Z Z) (x : Z) : Prop :=
  page_ok x ∧ x ∉ fl ∧ ¬ is_table T x ∧ ∀ vpn, D !! vpn ≠ Some x.

Definition same_page (x : Z) (m m' : gmap Z Z) : Prop :=
  ∀ a, x ≤ a < x + PGSIZE → load8 m' a = load8 m a.

(** Only physical memory and the head of the free list differ. *)
Definition mframe (s s' : kstate) : Prop :=
  s' = set_freelist (freelist s') (set_mem (mem s') s).

(** A step on the address space that concerns the virtual pages [R] only. *)
Record urel (root : Z) (R : Z → Prop) (s : kstate) (T : gmap (list Z) Z) (fl : list Z)
    (D : gmap Z Z) (s' : kstate) (T' : gmap (list Z) Z) (fl' : list Z) (D' : gmap Z Z) : Prop := {
  ur_ok : uspace s' root T' fl' D';
  ur_frame : mframe s s';
  ur_leaf : ∀ va, 0 ≤ va < MAXVA → ¬ R (va / PGSIZE) → leaf (mem s') T' va = leaf (mem s) T va;
  ur_keep : ∀ vpn, ¬ R vpn → D' !! vpn = D !! vpn;
  ur_data : ∀ vpn p, ¬ R vpn → D !! vpn = Some p → same_page p (mem s) (mem s');
  ur_foreign : ∀ x, foreign T fl D x → foreign T' fl' D' x ∧ same_page x (mem s) (mem s');
}.

(** The number of pages the free list and the address space hold together. *)
Definition pages (T : gmap (list Z) Z) (fl : list Z) (D : gmap Z Z) : nat :=
  (length fl + size T + size D)%nat.
End uspace.

Section theory.
Context `{EnvOk}.

Lemma mframe_refl s : mframe s s.
Proof. unfold mframe. destruct s; done. Qed.

Lemma mframe_trans s1 s2 s3 : mframe s1 s2 → mframe s2 s3 → mframe s1 s3.
Proof. unfold mframe. intros H1 H2. rewrite H2, H1. destruct s1; done. Qed.

Lemma mframe_lock lk s s' : mframe s s' → lock_free lk s → lock_free lk s'.
Proof. intros Hf Hl. rewrite Hf. destruct s; done. Qed.

Lemma same_page_trans x m1 m2 m3 :
  same_page x m1 m2 → same_page x m2 m3 → same_page x m1 m3.
Proof. intros H1 H2 a Ha. by rewrite H2, H1. Qed.

Lemma urel_refl root R s T fl D : uspace s root T fl D → urel root R s T fl D s T fl D.
Proof. intros Hu. split; try done. apply mframe_refl. Qed.

Lemma urel_trans root R s T fl D s1 T1 fl1 D1 s2 T2 fl2 D2 :
  urel root R s T fl D s1 T1 fl1 D1 → urel root R s1 T1 fl1 D1 s2 T2 fl2 D2 →
  urel root R s T fl D s2 T2 fl2 D2.
Proof.
  intros [U1 F1 L1 K1 A1 G1] [U2 F2 L2 K2 A2 G2]. split; [done|by eapply mframe_trans| | | |].
  - intros va Hva HR. by rewrite L2, L1.
  - intros vpn HR. by rewrite K2, K1.
  - intros vpn p HR Hp. eapply same_page_trans; [by eapply A1|]. eapply A2; [done|]. by rewrite K1.
  - intros x Hx. destruct (G1 x Hx) as [Hx1 Hs1]. destruct (G2 x Hx1) as [Hx2 Hs2].
    split; [done|by eapply same_page_trans].
Qed.

Lemma urel_weaken root (R R' : Z → Prop) s T fl D s' T' fl' D' :
  (∀ vpn, R vpn → R' vpn) →
  urel root R s T fl D s' T' fl' D' → urel root R' s T fl D s' T' fl' D'.
Proof. intros HR [U F L K A G]. split; eauto 10. Qed.

(** ** Writes to one page *)
Lemma same_outside_page x y m m' :
  page_ok x → page_ok y → x ≠ y → same_outside x m m' → same_page y m m'.
Proof.
  intros Hx Hy Hne Hs a Ha. apply Hs.
  destruct (pages_disjoint x y (proj1 Hx) (proj1 Hy) Hne); lia.
Qed.

Lemma same_page_load64 x i m m' :
  0 ≤ i < 512 → same_page x m m' → load64 m' (x + 8 * i) = load64 m (x + 8 * i).
Proof. intros Hi Hs. apply load64_ext. intros a Ha. apply Hs. unfold PGSIZE. lia. Qed.

Lemma leaf_same_tables root m m' T va :
  pt_rep m root T → (∀ p, is_table T p → same_page p m m') → leaf m' T va = leaf m T va.
Proof.
  intros Hr Hs. unfold leaf. destruct (T !! _) as [p|] eqn:Hp; [|done].
  apply same_page_load64; [apply PX_range|]. apply Hs. by eexists.
Qed.

(** A memory that agrees on the tables and on the free pages carries the same
    page table and free list. *)
Lemma vm_ok_same s m' root T fl :
  vm_ok s root T fl → (∀ p, is_table T p → same_page p (mem s) m') →
  (∀ p, p ∈ fl → same_page p (mem s) m') → vm_ok (set_mem m' s) root T fl.
Proof.
  intros (Hk & Hr & Hdis) Ht Hf. split; [|split; [|done]].
  - eapply kmem_ok_ext; [..|done]; [simpl; done|]. simpl. intros q Hq _.
    pose proof (same_page_load64 q 0 (mem s) m' ltac:(lia) (Hf q Hq)) as Hl.
    by replace (q + 8 * 0) with q in Hl by lia.
  - destruct Hr as [Hroot Hok Hlen Hinj Hent Hpre Hlow]. split; try done.
    intros path p i Hp Hl Hi. simpl. rewrite (same_page_load64 p i (mem s) m' Hi); [by apply Hent|].
    apply Ht. by eexists.
Qed.

(** A write to a page outside the tables and the free list. *)
Lemma uspace_write s m' root T fl D x :
  uspace s root T fl D → page_ok x → x ∉ fl → ¬ is_table T x →
  same_outside x (mem s) m' → uspace (set_mem m' s) root T fl D.
Proof.
  intros [Hvm Hvpn Hpg Hmap Hinj] Hx Hfl Ht Hs. pose proof Hvm as ((_ & Hok & _) & Hr & _).
  assert (Htab : ∀ p, is_table T p → same_page p (mem s) m').
  { intros p Hp. apply (same_outside_page x); [done|destruct Hp; by eapply rep_ok| |done].
    by intros ->. }
  split; [|done|done| |done].
  - apply vm_ok_same; [done|done|]. intros p Hp. apply (same_outside_page x); [done| | |done].
    + by eapply Forall_forall in Hok.
    + by intros ->.
  - intros vpn p Hp. simpl. rewrite (leaf_same_tables root (mem s)); eauto.
Qed.

(** ** Taking a page from, and giving one to, the free list *)
Lemma uspace_kalloc s root T p fl D :
  lock_free LkKmem s → uspace s root T (p :: fl) D →
  let m := memset (mem s) p 5 PGBYTES in
  let s' := set_freelist (load64 (mem s) p) (set_mem m s) in
  kalloc s = Ok p s' ∧ uspace s' root T fl D ∧ foreign T fl D p.
Proof.
  intros Hlk [Hvm Hvpn Hpg Hmap Hinj] m s'. destruct Hvm as (Hk & Hr & Hdis).
  pose proof (kalloc_spec s (p :: fl) Hlk Hk) as (Hrun & Hk' & Hp & Hn).
  assert (Hpt : ¬ is_table T p) by (intros Ht; apply (Hdis p Ht); by left).
  assert (Htab : ∀ q, is_table T q → same_page q (mem s) m).
  { intros q Hq. apply (same_outside_page p); [done|destruct Hq; by eapply rep_ok| |].
    - by intros ->.
    - apply same_outside_memset. }
  split; [done|]. split.
  - split; [| done | | |done].
    + split; [done|]. split.
      * destruct Hr as [Hroot Hok Hlen Hinj' Hent Hpre Hlow]. split; try done.
        intros path q i Hq Hl Hi. simpl. rewrite (same_page_load64 q i (mem s)); [by apply Hent|done|].
        apply Htab. by eexists.
      * intros q Hq Hin. apply (Hdis q Hq). by right.
    + intros vpn q Hq. destruct (Hpg vpn q Hq) as (? & Hnf & ?). split; [done|]. split; [|done].
      intros Hin. apply Hnf. by right.
    + intros vpn q Hq. simpl. rewrite (leaf_same_tables root (mem s)); eauto.
  - split; [done|]. split; [done|]. split; [done|].
    intros vpn Hv. destruct (Hpg vpn p Hv) as (_ & Hnf & _). apply Hnf. by left.
Qed.

Lemma uspace_kfree s root T x fl D :
  lock_free LkKmem s → uspace s root T fl D → foreign T fl D x →
  let s' := set_freelist x (set_mem (kfree_mem x s) s) in
  kfree x s = Ok tt s' ∧ uspace s' root T (x :: fl) D.
Proof.
  intros Hlk [Hvm Hvpn Hpg Hmap Hinj] (Hx & Hfl & Ht & HD) s'. destruct Hvm as (Hk & Hr & Hdis).
  assert (Htab : ∀ q, is_table T q → same_page q (mem s) (kfree_mem x s)).
  { intros q Hq. apply (same_outside_page x); [done|destruct Hq; by eapply rep_ok| |].
    - by intros ->.
    - apply same_outside_kfree_mem. }
  split; [by apply kfree_eq|]. split; [|done| | |done].
  - split; [|split].
    + apply kmem_ok_kfree; try done. apply kmem_ok_head in Hk. lia.
    + destruct Hr as [Hroot Hok Hlen Hinj' Hent Hpre Hlow]. split; try done.
      intros path q i Hq Hl Hi. simpl. rewrite (same_page_load64 q i (mem s)); [by apply Hent|done|].
      apply Htab. by eexists.
    + intros q Hq [->|Hin]%elem_of_cons; [done|]. by apply (Hdis q Hq).
  - intros vpn q Hq. destruct (Hpg vpn q Hq) as (? & Hnf & ?). split; [done|]. split; [|done].
    intros [->|Hin]%elem_of_cons; [by apply (HD vpn)|done].
  - intros vpn q Hq. simpl. rewrite (leaf_same_tables root (mem s)); eauto.
Qed.

(** ** Growing the tables *)
Lemma ext_table_old root s T fl s' T' fl' p :
  vm_ext root s T fl s' T' fl' → is_table T' p → p ∉ fl → is_table T p.
Proof.
  intros Hx Hp Hn. destruct (ext_used _ _ _ _ _ _ _ Hx) as (used & -> & Hu).
  apply Hu in Hp as [?|?]; [done|]. exfalso. apply Hn, elem_of_app. by left.
Qed.

Lemma ext_free_sub root s T fl s' T' fl' p :
  vm_ext root s T fl s' T' fl' → p ∈ fl' → p ∈ fl.
Proof.
  intros Hx Hp. destruct (ext_used _ _ _ _ _ _ _ Hx) as (used & -> & _).
  apply elem_of_app. by right.
Qed.

(** Pages that are neither tables nor free are not written by the walk. *)
Lemma ext_same_page root s T fl s' T' fl' x :
  vm_ext root s T fl s' T' fl' → page_ok x → x ∉ fl → ¬ is_table T x →
  same_page x (mem s) (mem s').
Proof.
  intros Hx Hok Hn Ht a Ha. apply (ext_mem _ _ _ _ _ _ _ Hx). intros p Hp Hin.
  assert (x ≠ p) as Hne by (intros ->; by apply Ht, (ext_table_old _ _ _ _ _ _ _ _ Hx)).
  pose proof (ext_ok _ _ _ _ _ _ _ Hx) as (_ & Hr & _).
  assert (page_ok p) as Hp' by (destruct Hp; by eapply rep_ok).
  destruct (pages_disjoint x p (proj1 Hok) (proj1 Hp') Hne); lia.
Qed.

Lemma foreign_ext root s T fl s' T' fl' D x :
  vm_ext root s T fl s' T' fl' → foreign T fl D x → foreign T' fl' D x.
Proof.
  intros Hx (Hok & Hn & Ht & HD). split; [done|]. split; [|split; [|done]].
  - intros Hin. apply Hn. by eapply ext_free_sub.
  - intros Hin. apply Ht. by eapply ext_table_old.
Qed.

Lemma urel_ext root R s T fl s' T' fl' D :
  vm_ext root s T fl s' T' fl' → uspace s root T fl D →
  urel root R s T fl D s' T' fl' D.
Proof.
  intros Hx [Hvm Hvpn Hpg Hmap Hinj]. split.
  - split; [by eapply ext_ok|done| | |done].
    + intros vpn p Hp. destruct (Hpg vpn p Hp) as (? & ? & ?). split; [done|]. split.
      * intros Hin. by apply (ext_free_sub _ _ _ _ _ _ _ _ Hx) in Hin.
      * intros Hin. by apply (ext_table_old _ _ _ _ _ _ _ _ Hx) in Hin.
    + intros vpn p Hp. rewrite (ext_leaf _ _ _ _ _ _ _ Hx). eauto.
  - by eapply ext_frame.
  - intros. by apply (ext_leaf _ _ _ _ _ _ _ Hx).
  - done.
  - intros vpn p _ Hp. destruct (Hpg vpn p Hp) as (? & ? & ?). by eapply ext_same_page.
  - intros x Hf. split; [by eapply foreign_ext|]. destruct Hf as (? & ? & ? & _).
    by eapply ext_same_page.
Qed.
End theory.
