(* ===== verification/VmAlloc.v ===== *)
(** * Growing, shrinking and copying user memory

    uvmalloc(), uvmdealloc(), uvmunmap() and uvmcopy() on the address spaces of
    VmUser.v: which virtual pages they map or unmap, what the pages hold, what
    happens when memory runs out, and that no page is lost on any path. *)

From Stdlib Require Import ZArith Lia.
From stdpp Require Import base numbers gmap strings countable tactics list.
From S2P Require Import Prelude Machine CString State Spinlock Kalloc Vm VmTheory VmMap VmUser.

Section install.
Context `{EnvOk}.

Lemma vpn_of_aligned va : va mod PGSIZE = 0 → va / PGSIZE * PGSIZE = va.
Proof. unfold PGSIZE. intros. Z.div_mod_to_equations. lia. Qed.

Lemma vpn_range va : 0 ≤ va < MAXVA → 0 ≤ va / PGSIZE < VPNS.
Proof.
  unfold VPNS, MAXVA, PGSIZE. change (Z.shiftl 1 (9 + 9 + 9 + 12 - 1)) with 274877906944.
  intros. change (274877906944 / 4096) with 67108864. Z.div_mod_to_equations. lia.
Qed.

Lemma vpn_va vpn : 0 ≤ vpn < VPNS → 0 ≤ vpn * PGSIZE < MAXVA ∧ vpn * PGSIZE / PGSIZE = vpn.
Proof.
  unfold VPNS, MAXVA, PGSIZE. change (Z.shiftl 1 (9 + 9 + 9 + 12 - 1)) with 274877906944.
  change (274877906944 / 4096) with 67108864. intros. rewrite Z.div_mul by lia. lia.
Qed.

(** The table write of a mapping or an unmapping touches no other page. *)
Lemma leaf_store_page root m T va p v y :
  pt_rep m root T → T !! [PX 2 va; PX 1 va] = Some p →
  page_ok y → ¬ is_table T y → same_page y m (store64 m (p + 8 * PX 0 va) v).
Proof.
  intros Hr Hp Hy Ht a Ha. eapply leaf_store_mem; [done..|]. intros q Hq Hin.
  assert (y ≠ q) as Hne by by intros ->. assert (page_ok q) as Hqok by (destruct Hq; by eapply rep_ok).
  destruct (pages_disjoint y q (proj1 Hy) (proj1 Hqok) Hne); lia.
Qed.

(** Pointing the entry of [va] at the page [x]. *)
Lemma uspace_install s root T fl D va p x v :
  uspace s root T fl D → foreign T fl D x → 0 ≤ va < MAXVA →
  T !! [PX 2 va; PX 1 va] = Some p → D !! (va / PGSIZE) = None →
  0 ≤ v < 2 ^ 64 → maps_to v x →
  uspace (set_mem (store64 (mem s) (p + 8 * PX 0 va) v) s) root T fl (<[va / PGSIZE := x]> D).
Proof.
  intros [Hvm Hvpn Hpg Hmap Hinj] (Hx & Hxf & Hxt & HxD) Hva Hp HD Hv Hmt.
  destruct (leaf_store root s T fl va p v Hvm Hva Hp Hv) as [Hvm' Hleaf].
  split; [done| | | |].
  - intros vpn q. rewrite lookup_insert. case_decide; [|by apply Hvpn].
    subst. intros _. by apply vpn_range.
  - intros vpn q. rewrite lookup_insert. case_decide; [|by apply Hpg]. by intros [= <-].
  - intros vpn q Hq. simpl.
    assert (0 ≤ vpn < VPNS) as Hr.
    { rewrite lookup_insert in Hq. case_decide; [subst; by apply vpn_range|by eapply Hvpn]. }
    destruct (vpn_va vpn Hr) as [Hr1 Hr2]. rewrite Hleaf by done. rewrite Hr2.
    rewrite lookup_insert in Hq. case_decide as Hd.
    + simplify_eq. by rewrite decide_True.
    + rewrite decide_False by congruence. by apply Hmap.
  - intros v1 v2 q. rewrite !lookup_insert. do 2 case_decide; intros; simplify_eq; try done.
    + exfalso. by apply (HxD v2).
    + exfalso. by apply (HxD v1).
    + by eapply Hinj.
Qed.

(** Clearing the entry of [va]: its page becomes foreign. *)
Lemma uspace_clear s root T fl D va p x :
  uspace s root T fl D → 0 ≤ va < MAXVA → T !! [PX 2 va; PX 1 va] = Some p →
  D !! (va / PGSIZE) = Some x →
  uspace (set_mem (store64 (mem s) (p + 8 * PX 0 va) 0) s) root T fl (delete (va / PGSIZE) D) ∧
  foreign T fl (delete (va / PGSIZE) D) x.
Proof.
  intros [Hvm Hvpn Hpg Hmap Hinj] Hva Hp HD.
  destruct (leaf_store root s T fl va p 0 Hvm Hva Hp ltac:(pow2; lia)) as [Hvm' Hleaf].
  assert (Hlk : ∀ vpn q, delete (va / PGSIZE) D !! vpn = Some q →
            vpn ≠ va / PGSIZE ∧ D !! vpn = Some q).
  { intros vpn q [? ?]%lookup_delete_Some. done. }
  split.
  - split; [done| | | |].
    + intros vpn q [_ Hq]%Hlk. by eapply Hvpn.
    + intros vpn q [_ Hq]%Hlk. by eapply Hpg.
    + intros vpn q [Hne Hq]%Hlk. simpl. destruct (vpn_va vpn (Hvpn _ _ Hq)) as [Hr1 Hr2].
      rewrite Hleaf by done. rewrite Hr2, decide_False by done. by apply Hmap.
    + intros v1 v2 q [_ H1]%Hlk [_ H2]%Hlk. by eapply Hinj.
  - destruct (Hpg _ _ HD) as (? & ? & ?). split; [done|]. split; [done|]. split; [done|].
    intros vpn [Hne Hq]%Hlk. by eapply Hne, Hinj.
Qed.
End install.

Section pages.
Context `{EnvOk}.

(** ** One page of uvmalloc() and uvmcopy() *)

(** From a page [x] of the caller, filled by it, to a mapping of it; this is
    the mappages() call of both loops. *)
Lemma map_page root s T fl D va x perm :
  lock_free LkKmem s → uspace s root T fl D → foreign T fl D x →
  0 ≤ va < MAXVA → va mod PGSIZE = 0 → D !! (va / PGSIZE) = None →
  Z.land (leaf (mem s) T va) PTE_V = 0 → 0 ≤ perm < 1024 → Z.lor perm PTE_V ≠ PTE_V →
  ∃ r s' T' fl', mappages root va PGSIZE x perm s = Ok r s' ∧
    mframe s s' ∧ (length fl + size T = length fl' + size T')%nat ∧
    (∀ y, foreign T fl D y → same_page y (mem s) (mem s') ∧ foreign T' fl' D y) ∧
    (∀ vpn p, D !! vpn = Some p → same_page p (mem s) (mem s')) ∧
    (∀ va', 0 ≤ va' < MAXVA → va' / PGSIZE ≠ va / PGSIZE →
       leaf (mem s') T' va' = leaf (mem s) T va') ∧
    ((r = -1 ∧ fl' = [] ∧ uspace s' root T' fl' D ∧ leaf (mem s') T' va = leaf (mem s) T va) ∨
     (r = 0 ∧ uspace s' root T' fl' (<[va / PGSIZE := x]> D) ∧
      leaf (mem s') T' va = new_pte x perm)).
Proof.
  intros Hlk Hu Hf Hva Hal HD Hinv Hperm Hnl.
  destruct (mappages_one root va x perm s T fl Hlk (us_vm _ _ _ _ _ Hu) Hva Hal Hinv)
    as (s1 & T' & fl' & Hx & Hr).
  pose proof (urel_ext root (λ _, False) s T fl s1 T' fl' D Hx Hu) as [U1 F1 L1 K1 A1 G1].
  pose proof (us_vm _ _ _ _ _ U1) as (Hk1 & Hr1 & Hdis1).
  pose proof (ext_size _ _ _ _ _ _ _ Hx) as Hsz.
  destruct Hr as [[-> Hrun]|(p & Hp & Hrun)].
  - exists (-1), s1, T', []. split; [done|]. split; [done|]. split; [done|]. split; [|split; [|split]].
    + intros y Hy. by destruct (G1 y Hy).
    + intros vpn q Hq. by eapply A1; [intros []|].
    + intros. apply L1; [done|intros []].
    + left. split; [done|]. split; [done|]. split; [done|]. by apply (ext_leaf _ _ _ _ _ _ _ Hx).
  - pose proof (page_ok_bounds x (proj1 Hf)) as Hb.
    assert (Hv : 0 ≤ new_pte x perm < 2 ^ 64) by (apply new_pte_range; lia).
    destruct (leaf_store root s1 T' fl' va p _ (us_vm _ _ _ _ _ U1) Hva Hp Hv) as [Hvm2 Hleaf].
    assert (Hst : ∀ y, page_ok y → ¬ is_table T' y →
      same_page y (mem s1) (store64 (mem s1) (p + 8 * PX 0 va) (new_pte x perm)))
      by (intros; by eapply leaf_store_page).
    eexists 0, _, T', fl'. split; [done|]. split.
    { eapply mframe_trans; [exact F1|]. unfold mframe. destruct s1; kred; reflexivity. }
    split; [done|]. simpl. split; [|split; [|split]].
    + intros y Hy. destruct (G1 y Hy) as [Hy1 Hs1]. split; [|done].
      eapply same_page_trans; [done|]. apply Hst; apply Hy1.
    + intros vpn q Hq. eapply same_page_trans; [eapply (A1 vpn); [intros []|done]|].
      destruct (us_page _ _ _ _ _ U1 vpn q) as (? & ? & ?); [done|]. by apply Hst.
    + intros va' Hva' Hne. rewrite Hleaf, decide_False by done. apply L1; [done|intros []].
    + right. split; [done|]. split.
      * apply uspace_install; try done; [by apply G1|]. split.
        -- apply new_pte_pa; [lia|apply Hf|done].
        -- rewrite new_pte_valid, new_pte_flags by lia. done.
      * rewrite Hleaf, decide_True by done. done.
Qed.

(** One page of uvmunmap(): the page goes back to the free list. *)
Lemma clear_kfree s x a v :
  a + 8 ≤ x ∨ x + PGSIZE ≤ a →
  store64 (kfree_mem x s) a v = kfree_mem x (set_mem (store64 (mem s) a v) s).
Proof.
  intros Hd. unfold kfree_mem. pose proof PGBYTES_Z.
  rewrite store64_store64, store64_memset by (unfold PGSIZE in *; lia). done.
Qed.

Lemma unmap_page root s T fl D va x limit :
  lock_free LkKmem s → uspace s root T fl D → 0 ≤ va < MAXVA → va mod PGSIZE = 0 →
  va < limit → D !! (va / PGSIZE) = Some x →
  ∃ s', uvmunmap_body root limit true va s = Ok (inl (u64 (va + PGSIZE))) s' ∧
    urel root (λ vpn, vpn = va / PGSIZE) s T fl D s' T (x :: fl) (delete (va / PGSIZE) D) ∧
    leaf (mem s') T va = 0.
Proof.
  intros Hlk Hu Hva Hal Hlim HD.
  destruct (us_map _ _ _ _ _ Hu _ _ HD) as (Hpa & Hvv & Hfl). rewrite vpn_of_aligned in * by done.
  destruct (uvmunmap_round root va limit s T fl true _ (us_vm _ _ _ _ _ Hu) Hva Hlim eq_refl Hvv Hfl)
    as (p & Hp & ->). rewrite Hpa. simpl when.
  destruct (us_page _ _ _ _ _ Hu _ _ HD) as (Hxok & Hxf & Hxt).
  pose proof (us_vm _ _ _ _ _ Hu) as (Hk & Hr & Hdis).
  assert (Hpok : page_ok p) by by eapply rep_ok.
  assert (p ≠ x) as Hpx by (intros ->; apply Hxt; by eexists).
  destruct (uspace_clear s root T fl D va p x Hu Hva Hp HD) as [Huc Hfor].
  pose proof (PX_range 0 va). destruct (leaf_store root s T fl va p 0 (conj Hk (conj Hr Hdis)) Hva Hp ltac:(pow2; lia)) as [_ Hleaf].
  set (s1 := set_mem (store64 (mem s) (p + 8 * PX 0 va) 0) s) in *.
  assert (Hlk1 : lock_free LkKmem s1) by (subst s1; by destruct s).
  destruct (uspace_kfree s1 root T x fl _ Hlk1 Huc Hfor) as [_ Huf].
  exists (set_freelist x (set_mem (kfree_mem x s1) s1)). split.
  { rewrite (bind_ok _ _ _ _ _ (kfree_eq x s Hxok Hlk)). unfold st64. mrun. simpl. rewrite clear_kfree.
    - subst s1. destruct s; kred; reflexivity.
    - destruct (pages_disjoint x p (proj1 Hxok) (proj1 Hpok)); [done|unfold PGSIZE in *; lia..]. }
  pose proof (same_outside_kfree_mem x s1) as Hso.
  assert (Hl : ∀ va', leaf (kfree_mem x s1) T va' = leaf (mem s1) T va').
  { intros va'. eapply leaf_same_tables; [apply Huc|]. intros q Hq.
    apply (same_outside_page x); [done|destruct Hq; by eapply rep_ok|by intros ->|done]. }
  assert (Hpg : ∀ y, page_ok y → y ≠ x → ¬ is_table T y → same_page y (mem s) (kfree_mem x s1)).
  { intros y Hy Hne Ht. apply (same_page_trans _ _ (mem s1)); [by eapply leaf_store_page|].
    apply (same_outside_page x); [done|done|congruence|done]. }
  split; [|simpl; rewrite Hl; simpl; by rewrite Hleaf, decide_True].
  split; [done|subst s1; unfold mframe; destruct s; kred; reflexivity| | | |].
  - intros va' Hva' Hne. simpl. rewrite Hl. simpl. by rewrite Hleaf, decide_False.
  - intros vpn Hne. by rewrite lookup_delete_ne.
  - intros vpn q Hne Hq. destruct (us_page _ _ _ _ _ Hu _ _ Hq) as (? & ? & ?). apply Hpg; [done| |done].
    intros ->. by eapply Hne, (us_inj _ _ _ _ _ Hu).
  - intros y (Hy & Hyf & Hyt & HyD). assert (y ≠ x) by (intros ->; by eapply HyD). split; [|by apply Hpg].
    split; [done|]. split; [by rewrite not_elem_of_cons|]. split; [done|].
    intros vpn [_ Hq]%lookup_delete_Some. by eapply HyD.
Qed.

(** Giving back the page [x] that an extension of the tables left foreign. *)
Lemma kfree_same root s T D x :
  uspace s root T [] D → foreign T [] D x →
  (∀ y, page_ok y → y ≠ x → same_page y (mem s) (kfree_mem x s)) ∧
  (∀ va, leaf (kfree_mem x s) T va = leaf (mem s) T va).
Proof.
  intros Hu Hf. assert (Hp : ∀ y, page_ok y → y ≠ x → same_page y (mem s) (kfree_mem x s)).
  { intros y Hy Hne. apply (same_outside_page x); [apply Hf|done|congruence|].
    apply same_outside_kfree_mem. }
  split; [done|]. intros va. eapply leaf_same_tables; [apply Hu|].
  intros q [path Hq]. apply Hp; [eapply rep_ok; [apply Hu|done]|]. intros ->. apply Hf. by eexists.
Qed.

(** A page [x] taken from the free list and filled by the caller: [m'] is the
    memory with the page filled. *)
Section fill.
Context (root : Z) (s : kstate) (T : gmap (list Z) Z) (x : Z) (fl : list Z) (D : gmap Z Z).
Context (m' : gmap Z Z).
Hypothesis Hlk : lock_free LkKmem s.
Hypothesis Hu : uspace s root T (x :: fl) D.
Hypothesis Hso : same_outside x (mem s) m'.

Definition filled : kstate := set_mem m' (set_freelist (load64 (mem s) x) s).

Lemma fill_foreign : foreign T fl D x.
Proof. apply (uspace_kalloc s root T x fl D Hlk Hu). Qed.

Lemma fill_uspace : uspace filled root T fl D.
Proof.
  destruct (uspace_kalloc s root T x fl D Hlk Hu) as (_ & Hu1 & Hf).
  pose proof (uspace_write _ m' root T fl D x Hu1 (proj1 Hf) ltac:(apply Hf) ltac:(apply Hf)) as Hw.
  unfold filled. replace (set_mem m' (set_freelist _ s)) with
    (set_mem m' (set_freelist (load64 (mem s) x) (set_mem (memset (mem s) x 5 PGBYTES) s)))
    by (clear; destruct s; kred; reflexivity). apply Hw. simpl. intros b Hb. rewrite (Hso b Hb). symmetry.
  by apply same_outside_memset.
Qed.

Lemma fill_same y : page_ok y → y ≠ x → same_page y (mem s) m'.
Proof. intros Hy Hne. apply (same_outside_page x); [apply fill_foreign|done|congruence|done]. Qed.

Lemma fill_leaf va : leaf (mem filled) T va = leaf (mem s) T va.
Proof.
  eapply leaf_same_tables; [apply Hu|]. intros q [path Hq].
  apply fill_same; [eapply rep_ok; [apply Hu|done]|]. intros ->. apply fill_foreign. by eexists.
Qed.

Lemma fill_kept vpn p : D !! vpn = Some p → p ≠ x ∧ page_ok p ∧ same_page p (mem s) m'.
Proof.
  intros Hp. destruct fill_foreign as (_ & _ & _ & HD).
  assert (p ≠ x) by (intros ->; by eapply HD).
  assert (page_ok p) by by eapply (us_page _ _ _ _ _ Hu).
  split; [done|]. split; [done|]. by apply fill_same.
Qed.

(** Mapping the page at [va]; when the tables cannot be extended it goes back
    to the free list. *)
Lemma fill_map va perm :
  0 ≤ va < MAXVA → va mod PGSIZE = 0 →
  D !! (va / PGSIZE) = None → Z.land (leaf (mem s) T va) PTE_V = 0 →
  0 ≤ perm < 1024 → Z.lor perm PTE_V ≠ PTE_V →
  ∃ r s' T' fl', mappages root va PGSIZE x perm filled = Ok r s' ∧
    ((r = 0 ∧ urel root (λ vpn, vpn = va / PGSIZE) s T (x :: fl) D s' T' fl' (<[va / PGSIZE := x]> D) ∧
      leaf (mem s') T' va = new_pte x perm ∧ same_page x m' (mem s') ∧
      (length (x :: fl) + size T = S (length fl') + size T')%nat) ∨
     (r = -1 ∧ ∃ s'', kfree x s' = Ok tt s'' ∧
      urel root (λ _, False) s T (x :: fl) D s'' T' [x] D ∧
      (length (x :: fl) + size T = 1 + size T')%nat)).
Proof.
  intros Hva Hal HD Hinv Hperm Hnl. pose proof fill_foreign as Hf.
  destruct (map_page root filled T fl D va x perm)
    as (r & s' & T' & fl' & Hrun & Hmf & Hsz & Hfor & Hdat & Hle & Hcase); try done.
  { apply fill_uspace. } { by rewrite fill_leaf. }
  assert (Hmf' : mframe s s').
  { eapply mframe_trans; [|done]. unfold filled, mframe. clear. destruct s; kred; reflexivity. }
  assert (Hfor' : ∀ y, foreign T (x :: fl) D y →
            y ≠ x ∧ foreign T' fl' D y ∧ same_page y (mem s) (mem s')).
  { intros y (Hy & [Hyx Hyf]%not_elem_of_cons & Hyt & HyD). split; [done|].
    destruct (Hfor y) as [Hs2 Hf2]; [done|]. split; [done|].
    eapply same_page_trans; [by apply fill_same|done]. }
  exists r, s', T', fl'. split; [done|]. destruct Hcase as [(-> & -> & Hu3 & Hl3)|(-> & Hu3 & Hl3)].
  - right. split; [done|]. destruct (Hfor x Hf) as [_ Hfx].
    destruct (uspace_kfree s' root T' x [] D (mframe_lock _ _ _ Hmf' Hlk) Hu3 Hfx) as [Hk4 Hu4].
    destruct (kfree_same root s' T' D x Hu3 Hfx) as [Hp4 Hl4].
    eexists. split; [done|]. split; [|simpl in *; lia]. split; [done| | |done| |].
    + eapply mframe_trans; [done|]. unfold mframe. destruct s'; kred; reflexivity.
    + intros va' Hva' _. simpl. rewrite Hl4. destruct (decide (va' / PGSIZE = va / PGSIZE)) as [He|He].
      * rewrite (leaf_vpn _ _ va' va He), (leaf_vpn (mem s) _ va' va He). by rewrite Hl3, fill_leaf.
      * rewrite Hle by done. apply fill_leaf.
    + intros vpn q _ Hq. destruct (fill_kept vpn q Hq) as (? & ? & ?).
      eapply same_page_trans; [eapply same_page_trans; [done|by eapply Hdat]|by apply Hp4].
    + intros y Hy. destruct (Hfor' y Hy) as (Hne & (? & _ & ? & ?) & Hs'). split.
      * split; [done|]. split; [|done]. set_solver.
      * eapply same_page_trans; [done|]. by apply Hp4.
  - left. split; [done|]. split; [split; [done|done| | | |]|].
    + intros va' Hva' Hne. rewrite Hle by done. apply fill_leaf.
    + intros vpn Hne. by rewrite lookup_insert_ne.
    + intros vpn q _ Hq. eapply same_page_trans; [by eapply fill_kept|by eapply Hdat].
    + intros y Hy. destruct (Hfor' y Hy) as (Hne & (? & ? & ? & HyD) & Hs'). split; [|done].
      split; [done|]. split; [done|]. split; [done|].
      intros vpn. rewrite lookup_insert. case_decide; [congruence|apply HyD].
    + split; [done|]. split; [by apply Hfor|]. simpl in *. lia.
Qed.
End fill.
End pages.
