(* ===== verification/VmLoops.v ===== *)
(** * The loops of uvmunmap(), uvmdealloc(), uvmalloc() and uvmcopy()

    Whole runs of the user-memory routines on the address spaces of VmUser.v,
    with the one-page steps of VmAlloc.v. [range v n] is the virtual pages from
    number [v] on, [n] of them. *)

From Stdlib Require Import ZArith Lia.
From stdpp Require Import base numbers gmap strings countable tactics list.
From S2P Require Import Prelude Machine CString State Spinlock Kalloc Vm VmTheory VmMap VmUser VmAlloc.

Definition range (v : Z) (n : nat) (vpn : Z) : Prop := v ≤ vpn < v + Z.of_nat n.

(** The pages [v .. v+n) are unmapped in [D] and their entries invalid. *)
Definition unmapped (m : gmap Z Z) (T : gmap (list Z) Z) (D : gmap Z Z) (v : Z) (n : nat) : Prop :=
  ∀ vpn, range v n vpn → D !! vpn = None ∧ Z.land (leaf m T (vpn * PGSIZE)) PTE_V = 0.

Definition zeroed (m : gmap Z Z) (p : Z) : Prop := ∀ a, p ≤ a < p + PGSIZE → load8 m a = 0.

(** [vpn] is mapped to a page of zeroes, readable, writable and executable. *)
Definition fresh (m : gmap Z Z) (T : gmap (list Z) Z) (D : gmap Z Z) (vpn : Z) : Prop :=
  ∃ p, D !! vpn = Some p ∧ leaf m T (vpn * PGSIZE) = new_pte p PTE_RWXU ∧ zeroed m p.

(** The number of pages that hold [sz] bytes. *)
Definition npg (sz : Z) : Z := (sz + PGSIZE - 1) / PGSIZE.

Section loops.
Context `{EnvOk}.

Lemma page_addr v : v * PGSIZE mod PGSIZE = 0 ∧ v * PGSIZE / PGSIZE = v.
Proof. unfold PGSIZE. rewrite Z.mod_mul, Z.div_mul by lia. done. Qed.

Lemma MAXVA_pages : MAXVA = VPNS * PGSIZE.
Proof. done. Qed.

Lemma next_page v : 0 ≤ v < VPNS → u64 (v * PGSIZE + PGSIZE) = (v + 1) * PGSIZE.
Proof.
  intros. unfold VPNS in *. change (MAXVA / PGSIZE) with 67108864 in *. unfold PGSIZE.
  rewrite u64_small; [lia|]. pow2. lia.
Qed.

(** ** uvmunmap(), with the pages freed *)
Lemma unmap_loop root n : ∀ v s T fl D,
  lock_free LkKmem s → uspace s root T fl D → 0 ≤ v → v + Z.of_nat n ≤ VPNS →
  (∀ vpn, range v n vpn → is_Some (D !! vpn)) →
  ∃ s' fl' D', loop (S n) (uvmunmap_body root ((v + Z.of_nat n) * PGSIZE) true) (v * PGSIZE) s = Ok tt s' ∧
    urel root (range v n) s T fl D s' T fl' D' ∧ unmapped (mem s') T D' v n ∧
    pages T fl' D' = pages T fl D.
Proof.
  induction n as [|n IH]; intros v s T fl D Hlk Hu Hv Hn Hin.
  { exists s, fl, D. rewrite loop_S. unfold uvmunmap_body.
    rewrite (proj2 (Z.leb_le _ _)) by (unfold PGSIZE; lia).
    split; [done|]. split; [by apply urel_refl|]. split; [intros vpn ?; unfold range in *; lia|done]. }
  destruct (page_addr v) as [Hal Hdiv]. destruct (Hin v) as [x Hx]; [unfold range; lia|].
  destruct (unmap_page root s T fl D (v * PGSIZE) x ((v + Z.of_nat (S n)) * PGSIZE)) as (s1 & Hrun & Hrel & Hl);
    rewrite ?Hdiv; try done; [apply vpn_va; lia|unfold PGSIZE; lia|]. rewrite Hdiv in Hrel.
  destruct (IH (v + 1) s1 T (x :: fl) (delete v D)) as (s' & fl' & D' & Hrun' & Hrel' & Hun & Hpg).
  { by eapply mframe_lock; [apply Hrel|]. } { apply Hrel. } { lia. } { lia. }
  { intros vpn Hr. rewrite lookup_delete_ne by (unfold range in Hr; lia). apply Hin. unfold range in *; lia. }
  exists s', fl', D'. split; [|split; [|split]].
  - rewrite loop_S. rewrite (bind_ok _ _ _ _ _ Hrun). rewrite next_page by lia.
    replace (v + Z.of_nat (S n)) with (v + 1 + Z.of_nat n) by lia. done.
  - eapply urel_trans; (eapply urel_weaken; [|done]); unfold range; intros; lia.
  - intros vpn Hr. destruct (decide (vpn = v)) as [->|]; [|apply Hun; unfold range in *; lia].
    assert (¬ range (v + 1) n v) by (unfold range; lia). split.
    + rewrite (ur_keep _ _ _ _ _ _ _ _ _ _ Hrel') by done. by rewrite lookup_delete_eq.
    + rewrite (ur_leaf _ _ _ _ _ _ _ _ _ _ Hrel'); [by rewrite Hl|apply vpn_va; lia|by rewrite Hdiv].
  - rewrite Hpg. unfold pages. simpl. rewrite map_size_delete_Some by (by eexists).
    assert (size D ≠ 0%nat); [|lia]. intros He%map_size_empty_inv. by rewrite He, lookup_empty in Hx.
Qed.

Lemma uvmunmap_range root v n s T fl D :
  lock_free LkKmem s → uspace s root T fl D → 0 ≤ v → v + Z.of_nat n ≤ VPNS →
  (∀ vpn, range v n vpn → is_Some (D !! vpn)) →
  ∃ s' fl' D', uvmunmap root (v * PGSIZE) (Z.of_nat n) true s = Ok tt s' ∧
    urel root (range v n) s T fl D s' T fl' D' ∧ unmapped (mem s') T D' v n ∧
    pages T fl' D' = pages T fl D.
Proof.
  intros Hlk Hu Hv Hn Hin. destruct (unmap_loop root n v s T fl D) as (s' & fl' & D' & Hrun & ?); try done.
  exists s', fl', D'. split; [|done]. unfold uvmunmap. rewrite (proj1 (page_addr v)). simpl.
  rewrite Nat2Z.id. rewrite u64_small; [|].
  - replace (v * PGSIZE + Z.of_nat n * PGSIZE) with ((v + Z.of_nat n) * PGSIZE) by lia. done.
  - unfold VPNS in Hn. change (MAXVA / PGSIZE) with 67108864 in *. unfold PGSIZE. pow2. lia.
Qed.

(** ** Sizes and pages *)
Lemma npg_roundup sz : 0 ≤ sz ≤ MAXVA → PGROUNDUP sz = npg sz * PGSIZE ∧ 0 ≤ npg sz ≤ VPNS.
Proof.
  unfold VPNS. change MAXVA with 274877906944. intros. rewrite PGROUNDUP_eq by (unfold PGSIZE; pow2; lia).
  unfold npg, PGSIZE. change (274877906944 / 4096) with 67108864. Z.div_mod_to_equations. lia.
Qed.

Lemma npg_mono a b : a ≤ b → npg a ≤ npg b.
Proof. intros. unfold npg. apply Z.div_le_mono; [done|lia]. Qed.

Lemma npg_pages v : npg (v * PGSIZE) = v.
Proof. unfold npg, PGSIZE. Z.div_mod_to_equations. lia. Qed.

Lemma npg_lt v sz : v * PGSIZE < sz ↔ v < npg sz.
Proof. unfold npg, PGSIZE. Z.div_mod_to_equations. lia. Qed.

(** ** uvmdealloc() *)
Lemma uvmdealloc_range root oldsz newsz s T fl D :
  lock_free LkKmem s → uspace s root T fl D → 0 ≤ newsz ≤ oldsz → oldsz ≤ MAXVA →
  let v := npg newsz in let n := Z.to_nat (npg oldsz - v) in
  (∀ vpn, range v n vpn → is_Some (D !! vpn)) →
  ∃ s' fl' D', uvmdealloc root oldsz newsz s = Ok newsz s' ∧
    urel root (range v n) s T fl D s' T fl' D' ∧ unmapped (mem s') T D' v n ∧
    pages T fl' D' = pages T fl D.
Proof.
  intros Hlk Hu Hsz Hmax v n Hin.
  destruct (npg_roundup oldsz) as [Ho Hov]; [lia|]. destruct (npg_roundup newsz) as [Hn Hnv]; [lia|].
  pose proof (npg_mono newsz oldsz (proj2 Hsz)) as Hmono. subst v n.
  assert (Hz : npg oldsz = npg newsz → ∃ s' fl' D', Ok newsz s = Ok newsz s' ∧
    urel root (range (npg newsz) (Z.to_nat (npg oldsz - npg newsz))) s T fl D s' T fl' D' ∧
    unmapped (mem s') T D' (npg newsz) (Z.to_nat (npg oldsz - npg newsz)) ∧
    pages T fl' D' = pages T fl D).
  { intros He. exists s, fl, D. rewrite He, Z.sub_diag. split; [done|]. split; [by apply urel_refl|].
    split; [intros ? ?; unfold range in *; lia|done]. }
  unfold uvmdealloc. destruct (Z.leb_spec oldsz newsz) as [Hle|Hlt].
  { assert (oldsz = newsz) as -> by lia. by apply Hz. }
  rewrite Ho, Hn. destruct (Z.ltb_spec (npg newsz * PGSIZE) (npg oldsz * PGSIZE)) as [Hlt'|Hge]; simpl when.
  - destruct (uvmunmap_range root (npg newsz) (Z.to_nat (npg oldsz - npg newsz)) s T fl D)
      as (s' & fl' & D' & Hrun & ?); try done; [lia|lia|].
    exists s', fl', D'. split; [|done].
    replace ((npg oldsz * PGSIZE - npg newsz * PGSIZE) / PGSIZE) with (npg oldsz - npg newsz)
      by (unfold PGSIZE; Z.div_mod_to_equations; lia).
    unfold VPNS in *. change (MAXVA / PGSIZE) with 67108864 in *.
    rewrite s32_small, u64_small by (pow2; lia). rewrite Z2Nat.id in Hrun by lia.
    rewrite (bind_ok _ _ _ _ _ Hrun). done.
  - mrun. apply Hz. unfold PGSIZE in Hge. lia.
Qed.

(** ** uvmalloc() *)
Lemma RWXU_ok : 0 ≤ PTE_RWXU < 1024 ∧ Z.lor PTE_RWXU PTE_V ≠ PTE_V.
Proof. done. Qed.

(** One round that gets its page. *)
Lemma uvmalloc_round root old new v s T x fl D :
  lock_free LkKmem s → uspace s root T (x :: fl) D → 0 ≤ v < npg new → new ≤ MAXVA →
  unmapped (mem s) T D v 1 →
  ∃ s' T' fl',
    (uvmalloc_body root old new (v * PGSIZE) s = Ok (inl ((v + 1) * PGSIZE)) s' ∧
     urel root (range v 1) s T (x :: fl) D s' T' fl' (<[v := x]> D) ∧
     fresh (mem s') T' (<[v := x]> D) v ∧
     pages T' fl' (<[v := x]> D) = pages T (x :: fl) D) ∨
    (uvmalloc_body root old new (v * PGSIZE) s =
       (uvmdealloc root (v * PGSIZE) old;; mret (inr 0)) s' ∧
     urel root (λ _, False) s T (x :: fl) D s' T' fl' D ∧
     pages T' fl' D = pages T (x :: fl) D).
Proof.
  intros Hlk Hu Hv Hnew Hun. destruct (Hun v) as [HD Hinv]; [unfold range; lia|].
  destruct (page_addr v) as [Hal Hdiv]. destruct (npg_roundup new) as [_ Hnv].
  { pose proof (proj2 (npg_lt v new) (proj2 Hv)). unfold PGSIZE in *. lia. }
  destruct (uspace_kalloc s root T x fl D Hlk Hu) as (Hk & Hu1 & Hf).
  set (m' := memset (memset (mem s) x 5 PGBYTES) x 0 PGBYTES).
  assert (Hso : same_outside x (mem s) m') by (eapply same_outside_trans; apply same_outside_memset).
  destruct (fill_map root s T x fl D m' Hlk Hu Hso (v * PGSIZE) PTE_RWXU) as (r & s' & T' & fl' & Hrun & Hc);
    try done; [apply vpn_va; lia|by rewrite Hdiv|]. rewrite Hdiv in Hc.
  assert (Hbody : uvmalloc_body root old new (v * PGSIZE) s =
    (if negb (r =? 0) then kfree x;; uvmdealloc root (v * PGSIZE) old;; mret (inr 0)
     else mret (inl (u64 (v * PGSIZE + PGSIZE)))) s').
  { unfold uvmalloc_body. rewrite (proj2 (Z.leb_gt _ _)) by (apply npg_lt; lia).
    rewrite (bind_ok _ _ _ _ _ Hk). pose proof (page_ok_bounds x (proj1 Hf)).
    rewrite (proj2 (Z.eqb_neq x 0)) by (unfold KERNBASE in *; lia). unfold zero_page. mrun.
    erewrite bind_ok; [|etransitivity; [|exact Hrun]; f_equal; unfold filled; subst m';
      clear; destruct s; kred; reflexivity]. done. }
  destruct Hc as [(-> & Hrel & Hl & Hpg & Hsz)|(-> & s'' & Hkf & Hrel & Hsz)].
  - exists s', T', fl'. left. rewrite Hbody. simpl. rewrite next_page by lia. split; [done|].
    split; [eapply urel_weaken; [|done]; unfold range; intros; lia|]. split.
    + exists x. rewrite lookup_insert_eq. split; [done|]. split; [done|].
      intros a Ha. rewrite (Hpg a Ha). subst m'. rewrite load8_memset, PGBYTES_Z, decide_True by done. done.
    + unfold pages. rewrite map_size_insert_None by done. simpl in *. lia.
  - exists s'', T', [x]. right. rewrite Hbody. simpl. rewrite (bind_ok _ _ _ _ _ Hkf). split; [done|].
    split; [done|]. unfold pages. simpl in *. lia.
Qed.

Lemma unmapped_split m T D v n k :
  unmapped m T D v n → unmapped m T D (v + Z.of_nat n) k → unmapped m T D v (n + k).
Proof.
  intros H1 H2 vpn Hr. destruct (decide (vpn < v + Z.of_nat n)); [apply H1|apply H2]; unfold range in *; lia.
Qed.

Lemma unmapped_frame root R s T fl D s' T' fl' D' v n :
  urel root R s T fl D s' T' fl' D' → 0 ≤ v → v + Z.of_nat n ≤ VPNS →
  (∀ vpn, range v n vpn → ¬ R vpn) →
  unmapped (mem s) T D v n → unmapped (mem s') T' D' v n.
Proof.
  intros Hrel Hv Hn HR Hun vpn Hr. destruct (Hun vpn Hr) as [HD Hl].
  rewrite (ur_keep _ _ _ _ _ _ _ _ _ _ Hrel) by auto.
  rewrite (ur_leaf _ _ _ _ _ _ _ _ _ _ Hrel); [done|apply vpn_va; unfold range in Hr; lia|].
  rewrite (proj2 (page_addr vpn)). auto.
Qed.

Lemma fresh_frame root R s T fl D s' T' fl' D' vpn :
  urel root R s T fl D s' T' fl' D' → 0 ≤ vpn < VPNS → ¬ R vpn →
  fresh (mem s) T D vpn → fresh (mem s') T' D' vpn.
Proof.
  intros Hrel Hv HR (p & Hp & Hl & Hz). exists p.
  rewrite (ur_keep _ _ _ _ _ _ _ _ _ _ Hrel) by done. split; [done|]. split.
  - rewrite (ur_leaf _ _ _ _ _ _ _ _ _ _ Hrel); [done|by apply vpn_va|by rewrite (proj2 (page_addr vpn))].
  - intros a Ha. rewrite (ur_data _ _ _ _ _ _ _ _ _ _ Hrel _ _ HR Hp a Ha). by apply Hz.
Qed.

(** Out of memory: the pages mapped so far are unmapped again. *)
Lemma uvmalloc_undo root v0 v n s T fl D :
  lock_free LkKmem s → uspace s root T fl D → 0 ≤ v0 ≤ v → v + Z.of_nat n ≤ VPNS →
  (∀ vpn, v0 ≤ vpn < v → is_Some (D !! vpn)) → unmapped (mem s) T D v n →
  ∃ s' fl' D', (uvmdealloc root (v * PGSIZE) (v0 * PGSIZE);; mret (inr 0)) s = Ok (inr 0 : Z + Z) s' ∧
    pages T fl' D' = pages T fl D ∧
    urel root (range v0 (Z.to_nat (v - v0) + n)) s T fl D s' T fl' D' ∧
    unmapped (mem s') T D' v0 (Z.to_nat (v - v0) + n).
Proof.
  intros Hlk Hu Hv Hn Hin Hun.
  destruct (uvmdealloc_range root (v * PGSIZE) (v0 * PGSIZE) s T fl D) as (s' & fl' & D' & Hrun & Hrel & Hun' & Hpg);
    try done; rewrite ?MAXVA_pages, ?npg_pages; [unfold PGSIZE; lia..| |].
  { intros vpn Hr. apply Hin. unfold range in Hr. lia. }
  rewrite !npg_pages in *. exists s', fl', D'. split; [by rewrite (bind_ok _ _ _ _ _ Hrun)|].
  split; [done|]. split; [eapply urel_weaken; [|done]; unfold range; intros; lia|].
  apply unmapped_split; [done|]. rewrite Z2Nat.id by lia. replace (v0 + (v - v0)) with v by lia.
  eapply unmapped_frame; [done|lia|done| |done]. unfold range. intros; lia.
Qed.

Lemma uvmalloc_loop root v0 new n : ∀ v s T fl D,
  lock_free LkKmem s → uspace s root T fl D → 0 ≤ v0 ≤ v → 0 ≤ new ≤ MAXVA → v ≤ VPNS →
  n = Z.to_nat (npg new - v) → (∀ vpn, v0 ≤ vpn < v → is_Some (D !! vpn)) →
  unmapped (mem s) T D v n →
  ∃ r s' T' fl' D', loop (S n) (uvmalloc_body root (v0 * PGSIZE) new) (v * PGSIZE) s = Ok r s' ∧
    pages T' fl' D' = pages T fl D ∧
    ((r = new ∧ urel root (range v n) s T fl D s' T' fl' D' ∧
      ∀ vpn, range v n vpn → fresh (mem s') T' D' vpn) ∨
     (r = 0 ∧ urel root (range v0 (Z.to_nat (v - v0) + n)) s T fl D s' T' fl' D' ∧
      unmapped (mem s') T' D' v0 (Z.to_nat (v - v0) + n))).
Proof.
  induction n as [|n IH]; intros v s T fl D Hlk Hu Hv Hnew Hmax Hn Hin Hun;
    destruct (npg_roundup new Hnew) as [_ Hnv].
  { exists new, s, T, fl, D. rewrite loop_S. unfold uvmalloc_body.
    rewrite (proj2 (Z.leb_le _ _)); [|pose proof (npg_lt v new); lia].
    split; [done|]. split; [done|]. left. split; [done|]. split; [by apply urel_refl|].
    unfold range. intros; lia. }
  rewrite loop_S. destruct fl as [|x fl].
  { destruct (uvmalloc_undo root v0 v (S n) s T [] D) as (s' & fl' & D' & Hrun & ?); try done; [lia|].
    exists 0, s', T, fl', D'. split; [|tauto]. erewrite bind_ok; [|unfold uvmalloc_body;
      rewrite (proj2 (Z.leb_gt _ _)) by (apply npg_lt; lia);
      rewrite (bind_ok _ _ _ _ _ (kalloc_empty s Hlk (proj2 (proj2 (proj1 (us_vm _ _ _ _ _ Hu)))))); exact Hrun]. done. }
  assert (Hun1 : unmapped (mem s) T D v 1) by (intros vpn ?; apply Hun; unfold range in *; lia).
  destruct (uvmalloc_round root (v0 * PGSIZE) new v s T x fl D) as (s1 & T1 & fl1 & [(Hrun & Hrel & Hfr & Hpg)|(Hrun & Hrel & Hpg)]);
    try done; try lia; assert (Hlk1 : lock_free LkKmem s1) by (eapply mframe_lock; [apply Hrel|done]).
  - destruct (IH (v + 1) s1 T1 fl1 (<[v := x]> D)) as (r & s' & T' & fl' & D' & Hrun' & Hpg' & Hc);
      try done; try lia; [apply Hrel| | |].
    { intros vpn Hr. rewrite lookup_insert. case_decide; [by eexists|]. apply Hin. lia. }
    { eapply unmapped_frame; [done|lia|lia|unfold range; lia|]. intros vpn Hr. apply Hun. unfold range in *; lia. }
    exists r, s', T', fl', D'. rewrite (bind_ok _ _ _ _ _ Hrun). split; [done|]. split; [congruence|].
    destruct Hc as [(-> & Hrel' & Hfr')|(-> & Hrel' & Hun')].
    + left. split; [done|]. split; [eapply urel_trans; (eapply urel_weaken; [|done]); unfold range; intros; lia|].
      intros vpn Hr. destruct (decide (vpn = v)) as [->|]; [|apply Hfr'; unfold range in *; lia].
      eapply fresh_frame; [exact Hrel'|lia|unfold range; lia|done].
    + right. split; [done|]. replace (Z.to_nat (v - v0) + S n)%nat with (Z.to_nat (v + 1 - v0) + n)%nat by lia.
      split; [|done]. eapply urel_trans; (eapply urel_weaken; [|done]); unfold range; intros; lia.
  - destruct (uvmalloc_undo root v0 v (S n) s1 T1 fl1 D) as (s' & fl' & D' & Hrun' & Hpg' & Hrel' & Hun'); try done; try lia.
    { apply Hrel. } { eapply unmapped_frame; [exact Hrel|lia|lia|tauto|done]. }
    exists 0, s', T1, fl', D'. erewrite bind_ok; [|rewrite Hrun; exact Hrun'].
    split; [done|]. split; [congruence|]. right. split; [done|]. split; [|done].
    eapply urel_trans; [|done]. eapply urel_weaken; [|done]. tauto.
Qed.

Lemma uvmalloc_range root oldsz newsz s T fl D :
  lock_free LkKmem s → uspace s root T fl D → 0 ≤ oldsz ≤ newsz → newsz ≤ MAXVA →
  let v := npg oldsz in let n := Z.to_nat (npg newsz - v) in
  unmapped (mem s) T D v n →
  ∃ r s' T' fl' D', uvmalloc root oldsz newsz s = Ok r s' ∧
    urel root (range v n) s T fl D s' T' fl' D' ∧ pages T' fl' D' = pages T fl D ∧
    ((r = newsz ∧ ∀ vpn, range v n vpn → fresh (mem s') T' D' vpn) ∨
     (r = 0 ∧ D' = D ∧ unmapped (mem s') T' D' v n)).
Proof.
  intros Hlk Hu Hsz Hmax v n Hun. destruct (npg_roundup oldsz) as [Ho Hov]; [lia|].
  destruct (npg_roundup newsz) as [_ Hnv]; [lia|]. pose proof (npg_mono oldsz newsz (proj2 Hsz)).
  destruct (uvmalloc_loop root v newsz n v s T fl D) as (r & s' & T' & fl' & D' & Hrun & Hpg & Hc);
    subst v; try done; [lia..|]. exists r, s', T', fl', D'. split; [|split; [|split; [done|]]].
  - unfold uvmalloc. rewrite (proj2 (Z.ltb_ge _ _)), Ho by lia. rewrite <- Hrun. f_equal.
    subst n. f_equal. f_equal. unfold npg, PGSIZE in *. Z.div_mod_to_equations. lia.
  - destruct Hc as [(_ & ? & _)|(_ & ? & _)]; [done|]. by rewrite Z.sub_diag in *.
  - destruct Hc as [(-> & _ & ?)|(-> & Hrel & Hun')]; [by left|right].
    rewrite Z.sub_diag in *. simpl in *. split; [done|]. split; [|done]. apply map_eq. intros vpn.
    destruct (decide (npg oldsz ≤ vpn < npg oldsz + Z.of_nat n)) as [Hr|Hr].
    + by rewrite (proj1 (Hun' vpn Hr)), (proj1 (Hun vpn Hr)).
    + by apply (ur_keep _ _ _ _ _ _ _ _ _ _ Hrel).
Qed.
End loops.
