(* ===== verification/VmCopy.v ===== *)
(** * uvmcopy(): copying an address space for fork()

    Two address spaces share the free list: the parent's, which the copy must
    leave alone, and the child's, which it fills. *)

From Stdlib Require Import ZArith Lia.
From stdpp Require Import base numbers gmap strings countable tactics list.
From S2P Require Import Prelude Machine CString State Spinlock Kalloc Vm VmTheory VmMap VmUser VmAlloc VmLoops.

(** The pages of an address space, and address spaces with no page in common. *)
Definition owns (T : gmap (list Z) Z) (D : gmap Z Z) (y : Z) : Prop :=
  is_table T y ∨ ∃ vpn, D !! vpn = Some y.

Section copy.
Context `{EnvOk}.

Definition apart (To : gmap (list Z) Z) (Do : gmap Z Z)
    (T : gmap (list Z) Z) (fl : list Z) (D : gmap Z Z) : Prop :=
  ∀ y, owns To Do y → foreign T fl D y.

(** [vpn] holds the same bytes with the same permissions in both spaces. *)
Definition copied (m : gmap Z Z) (To : gmap (list Z) Z) (Do : gmap Z Z)
    (m' : gmap Z Z) (T : gmap (list Z) Z) (D : gmap Z Z) (vpn : Z) : Prop :=
  ∃ p q, Do !! vpn = Some p ∧ D !! vpn = Some q ∧
    (∀ i, 0 ≤ i < PGSIZE → load8 m' (q + i) = load8 m (p + i)) ∧
    PTE_FLAGS (leaf m' T (vpn * PGSIZE)) = PTE_FLAGS (leaf m To (vpn * PGSIZE)).

(** The parent is as it was. *)
Definition untouched (ro : Z) (To : gmap (list Z) Z) (Do : gmap Z Z) (s s' : kstate) (fl' : list Z) : Prop :=
  uspace s' ro To fl' Do ∧ (∀ va, leaf (mem s') To va = leaf (mem s) To va) ∧
  ∀ vpn p, Do !! vpn = Some p → same_page p (mem s) (mem s').

Lemma untouched_refl ro To Do s fl : uspace s ro To fl Do → untouched ro To Do s s fl.
Proof. by split. Qed.

Lemma untouched_trans ro To Do s1 s2 s3 fl2 fl3 :
  untouched ro To Do s1 s2 fl2 → untouched ro To Do s2 s3 fl3 → untouched ro To Do s1 s3 fl3.
Proof.
  intros (_ & L1 & P1) (U2 & L2 & P2). split; [done|]. split.
  - intros va. by rewrite L2.
  - intros vpn p Hp. eapply same_page_trans; [by eapply P1|by eapply P2].
Qed.

Lemma apart_frame rn R ro s To Do Tn fl Dn s' Tn' fl' Dn' :
  urel rn R s Tn fl Dn s' Tn' fl' Dn' → uspace s ro To fl Do → apart To Do Tn fl Dn →
  untouched ro To Do s s' fl' ∧ apart To Do Tn' fl' Dn'.
Proof.
  intros Hrel [Hvm Hvpn Hpg Hmap Hinj] Hap. pose proof Hvm as (_ & Hr & _).
  assert (Ht : ∀ q, is_table To q → same_page q (mem s) (mem s') ∧ q ∉ fl').
  { intros q Hq. destruct (ur_foreign _ _ _ _ _ _ _ _ _ _ Hrel q) as [(_ & ? & _) ?]; [|done].
    apply Hap. by left. }
  assert (Hl : ∀ va, leaf (mem s') To va = leaf (mem s) To va).
  { intros va. eapply leaf_same_tables; [done|]. intros q Hq. by apply Ht. }
  split; [split; [split; [split; [|split]| | | |]|split]|]; try done.
  - apply Hrel.
  - destruct Hr as [Hroot Hok Hlen Hinj' Hent Hpre Hlow]. split; try done.
    intros path q i Hq Hlq Hi. rewrite (same_page_load64 q i (mem s)); [by apply Hent|done|].
    apply Ht. by eexists.
  - intros q Hq. by apply Ht.
  - intros vpn p Hp. destruct (Hpg vpn p Hp) as (? & ? & ?). split; [done|]. split; [|done].
    eapply (ur_foreign _ _ _ _ _ _ _ _ _ _ Hrel p). apply Hap. right. by eexists.
  - intros vpn p Hp. rewrite Hl. by apply Hmap.
  - intros vpn p Hp. eapply (ur_foreign _ _ _ _ _ _ _ _ _ _ Hrel p). apply Hap. right. by eexists.
  - intros y Hy. by apply (ur_foreign _ _ _ _ _ _ _ _ _ _ Hrel y), Hap.
Qed.

Lemma flags_valid v : Z.land v PTE_V ≠ 0 → Z.lor (PTE_FLAGS v) PTE_V = PTE_FLAGS v.
Proof.
  intros Hv. unfold PTE_FLAGS. apply Z.bits_inj'. intros k Hk. rewrite Z.lor_spec, Z.land_spec.
  destruct (decide (k = 0)) as [->|].
  - assert (Z.testbit v 0 = true) as ->; [|done]. destruct (Z.testbit v 0) eqn:Hb; [done|].
    destruct Hv. apply Z.bits_inj'. intros j Hj. rewrite Z.land_spec, Z.bits_0.
    destruct (decide (j = 0)) as [->|]; [by rewrite Hb|].
    change PTE_V with (2 ^ 0). rewrite (Z.pow2_bits_false 0 j) by lia. apply andb_false_r.
  - change PTE_V with (2 ^ 0). rewrite (Z.pow2_bits_false 0 k) by lia. apply orb_false_r.
Qed.

Lemma PTE_FLAGS_range v : 0 ≤ PTE_FLAGS v < 1024.
Proof.
  unfold PTE_FLAGS. change 0x3FF with (Z.ones 10). rewrite Z.land_ones by lia.
  change 1024 with (2 ^ 10). apply Z.mod_pos_bound. done.
Qed.

(** walk() finds the entry of a mapped page. *)
Lemma walk_mapped root s T fl D v p :
  uspace s root T fl D → D !! v = Some p →
  ∃ pte, walk root (v * PGSIZE) false s = Ok pte s ∧ (pte =? 0) = false ∧
    load64 (mem s) pte = leaf (mem s) T (v * PGSIZE).
Proof.
  intros Hu Hp. destruct (vpn_va v (us_vpn _ _ _ _ _ Hu v p Hp)) as [Hva _].
  destruct (us_map _ _ _ _ _ Hu v p Hp) as (_ & Hvv & _). unfold leaf in *.
  rewrite (walk_lookup root _ s T fl (us_vm _ _ _ _ _ Hu) Hva).
  destruct (T !! _) as [t|] eqn:Ht; [|by destruct Hvv].
  eexists. split; [done|]. split; [|done].
  assert (page_ok t) as Htok by (eapply rep_ok; [apply Hu|done]). apply page_ok_bounds in Htok.
  pose proof (PX_range 0 (v * PGSIZE)). apply Z.eqb_neq. lia.
Qed.

(** One round that gets its page. *)
Lemma uvmcopy_round ro rn sz v s To Do T x fl D p :
  lock_free LkKmem s → uspace s ro To (x :: fl) Do → uspace s rn T (x :: fl) D →
  apart To Do T (x :: fl) D → 0 ≤ v < npg sz → sz ≤ MAXVA → Do !! v = Some p →
  unmapped (mem s) T D v 1 →
  ∃ s' T' fl',
    (uvmcopy_body ro rn sz (v * PGSIZE) s = Ok (inl ((v + 1) * PGSIZE)) s' ∧
     urel rn (range v 1) s T (x :: fl) D s' T' fl' (<[v := x]> D) ∧
     copied (mem s) To Do (mem s') T' (<[v := x]> D) v ∧
     pages T' fl' (<[v := x]> D) = pages T (x :: fl) D) ∨
    (uvmcopy_body ro rn sz (v * PGSIZE) s = (uvmunmap rn 0 v true;; mret (inr (-1))) s' ∧
     urel rn (λ _, False) s T (x :: fl) D s' T' fl' D ∧
     pages T' fl' D = pages T (x :: fl) D).
Proof.
  intros Hlk Huo Hu Hap Hv Hsz Hp Hun. destruct (Hun v) as [HD Hinv]; [unfold range; lia|].
  destruct (page_addr v) as [Hal Hdiv]. destruct (npg_roundup sz) as [_ Hnv].
  { pose proof (proj2 (npg_lt v sz) (proj2 Hv)). unfold PGSIZE in *. lia. }
  destruct (vpn_va v ltac:(lia)) as [Hva _].
  destruct (uspace_kalloc s rn T x fl D Hlk Hu) as (Hk & Hu1 & Hf).
  destruct (us_map _ _ _ _ _ Huo v p Hp) as (Hpa & Hvv & Hfl).
  destruct (us_page _ _ _ _ _ Huo v p Hp) as (Hpok & [Hpx Hpf]%not_elem_of_cons & Hpt).
  set (e := leaf (mem s) To (v * PGSIZE)) in *.
  set (m' := memmove (memset (mem s) x 5 PGBYTES) x p PGBYTES).
  assert (Hso : same_outside x (mem s) m').
  { eapply same_outside_trans; [apply same_outside_memset|]. intros a Ha. subst m'.
    rewrite load8_memmove, PGBYTES_Z, decide_False; done. }
  destruct (fill_map rn s T x fl D m' Hlk Hu Hso (v * PGSIZE) (PTE_FLAGS e)) as (r & s' & T' & fl' & Hrun & Hc);
    try done; [by rewrite Hdiv|apply PTE_FLAGS_range|by rewrite flags_valid|]. rewrite Hdiv in Hc.
  assert (Hbody : uvmcopy_body ro rn sz (v * PGSIZE) s =
    (if negb (r =? 0) then kfree x;; uvmunmap rn 0 v true;; mret (inr (-1))
     else mret (inl (u64 (v * PGSIZE + PGSIZE)))) s').
  { unfold uvmcopy_body. rewrite (proj2 (Z.leb_gt _ _)) by (apply npg_lt; lia).
    destruct (walk_mapped ro s To _ Do v p Huo Hp) as (pte & Hw & Hnz & He).
    rewrite (bind_ok _ _ _ _ _ Hw), Hnz. fold e in He.
    unfold ld64. mrun. rewrite He. rewrite (proj2 (Z.eqb_neq _ 0)) by done. rewrite Hpa.
    rewrite (bind_ok _ _ _ _ _ Hk). pose proof (page_ok_bounds x (proj1 Hf)).
    rewrite (proj2 (Z.eqb_neq x 0)) by lia. mrun. rewrite Hdiv.
    erewrite bind_ok; [|etransitivity; [|exact Hrun]; f_equal; unfold filled; subst m';
      clear; destruct s; kred; reflexivity]. done. }
  destruct Hc as [(-> & Hrel & Hl & Hpg & Hsize)|(-> & s'' & Hkf & Hrel & Hsize)].
  - exists s', T', fl'. left. rewrite Hbody. simpl. rewrite next_page by lia. split; [done|].
    split; [eapply urel_weaken; [|done]; unfold range; intros; lia|]. split.
    + exists p, x. rewrite lookup_insert_eq. split; [done|]. split; [done|].
      pose proof (page_ok_bounds x (proj1 Hf)). split.
      * intros i Hi. rewrite (Hpg (x + i)) by lia. subst m'.
        rewrite load8_memmove, PGBYTES_Z, decide_True by lia.
        replace (p + (x + i - x)) with (p + i) by lia.
        apply (same_outside_page x p); [apply Hf|done|congruence|apply same_outside_memset|lia].
      * rewrite Hl, new_pte_flags by (lia || apply PTE_FLAGS_range). by apply flags_valid.
    + unfold pages. rewrite map_size_insert_None by done. simpl in *. lia.
  - exists s'', T', [x]. right. rewrite Hbody. simpl. rewrite (bind_ok _ _ _ _ _ Hkf). split; [done|].
    split; [done|]. unfold pages. simpl in *. lia.
Qed.

(** Out of memory: what the child got so far is freed. *)
Lemma uvmcopy_undo rn v n s T fl D :
  lock_free LkKmem s → uspace s rn T fl D → 0 ≤ v → v + Z.of_nat n ≤ VPNS →
  (∀ vpn, 0 ≤ vpn < v → is_Some (D !! vpn)) → unmapped (mem s) T D v n →
  ∃ s' fl' D', (uvmunmap rn 0 v true;; mret (inr (-1))) s = Ok (inr (-1) : Z + Z) s' ∧
    pages T fl' D' = pages T fl D ∧
    urel rn (range 0 (Z.to_nat v + n)) s T fl D s' T fl' D' ∧
    unmapped (mem s') T D' 0 (Z.to_nat v + n).
Proof.
  intros Hlk Hu Hv Hn Hin Hun.
  destruct (uvmunmap_range rn 0 (Z.to_nat v) s T fl D) as (s' & fl' & D' & Hrun & Hrel & Hun' & Hpg);
    try done; [lia| |].
  { intros vpn Hr. apply Hin. unfold range in Hr. lia. }
  rewrite Z2Nat.id in Hrun by done. exists s', fl', D'. split; [by rewrite (bind_ok _ _ _ _ _ Hrun)|].
  split; [done|]. split; [eapply urel_weaken; [|done]; unfold range; intros; lia|].
  apply unmapped_split; [done|]. rewrite Z2Nat.id by lia.
  eapply unmapped_frame; [done|lia|simpl; lia| |done]. unfold range. intros; lia.
Qed.

Lemma uvmcopy_nomem ro rn sz v s To Do p r s' :
  lock_free LkKmem s → uspace s ro To [] Do → 0 ≤ v < npg sz → Do !! v = Some p →
  (uvmunmap rn 0 v true;; mret (inr (-1))) s = Ok r s' →
  uvmcopy_body ro rn sz (v * PGSIZE) s = Ok r s'.
Proof.
  intros Hlk Huo Hv Hp Hrun. unfold uvmcopy_body.
  rewrite (proj2 (Z.leb_gt _ _)) by (apply npg_lt; lia).
  destruct (walk_mapped ro s To _ Do v p Huo Hp) as (pte & Hw & Hnz & He).
  destruct (us_map _ _ _ _ _ Huo v p Hp) as (Hpa & Hvv & Hfl).
  rewrite (bind_ok _ _ _ _ _ Hw), Hnz. unfold ld64. mrun. rewrite He.
  rewrite (proj2 (Z.eqb_neq _ 0)) by done.
  rewrite (bind_ok _ _ _ _ _ (kalloc_empty s Hlk (proj2 (proj2 (proj1 (us_vm _ _ _ _ _ Huo)))))).
  rewrite (proj2 (page_addr v)). done.
Qed.

Lemma copied_src ro s0 s To Do m' T D fo vpn :
  untouched ro To Do s0 s fo → copied (mem s) To Do m' T D vpn → copied (mem s0) To Do m' T D vpn.
Proof.
  intros (_ & Lo & Po) (p & q & Hp & Hq & Hb & Hf). exists p, q. rewrite Lo in Hf.
  split; [done|]. split; [done|]. split; [|done].
  intros i Hi. rewrite Hb by done. apply (Po vpn p Hp). lia.
Qed.

Lemma copied_dst rn R m s To Do T fl D s' T' fl' D' vpn :
  urel rn R s T fl D s' T' fl' D' → 0 ≤ vpn < VPNS → ¬ R vpn →
  copied m To Do (mem s) T D vpn → copied m To Do (mem s') T' D' vpn.
Proof.
  intros Hrel Hv HR (p & q & Hp & Hq & Hb & Hf). exists p, q. split; [done|].
  rewrite (ur_keep _ _ _ _ _ _ _ _ _ _ Hrel) by done. split; [done|]. split.
  - intros i Hi. rewrite (ur_data _ _ _ _ _ _ _ _ _ _ Hrel _ _ HR Hq) by lia. by apply Hb.
  - rewrite (ur_leaf _ _ _ _ _ _ _ _ _ _ Hrel); [done|by apply vpn_va|].
    by rewrite (proj2 (page_addr vpn)).
Qed.

Lemma uvmcopy_loop ro rn sz To Do n : ∀ v s T fl D,
  lock_free LkKmem s → uspace s ro To fl Do → uspace s rn T fl D → apart To Do T fl D →
  0 ≤ v → 0 ≤ sz ≤ MAXVA → v ≤ VPNS → n = Z.to_nat (npg sz - v) →
  (∀ vpn, range v n vpn → is_Some (Do !! vpn)) → (∀ vpn, 0 ≤ vpn < v → is_Some (D !! vpn)) →
  unmapped (mem s) T D v n →
  ∃ r s' T' fl' D', loop (S n) (uvmcopy_body ro rn sz) (v * PGSIZE) s = Ok r s' ∧
    pages T' fl' D' = pages T fl D ∧
    ((r = 0 ∧ urel rn (range v n) s T fl D s' T' fl' D' ∧
      ∀ vpn, range v n vpn → copied (mem s) To Do (mem s') T' D' vpn) ∨
     (r = -1 ∧ urel rn (range 0 (Z.to_nat v + n)) s T fl D s' T' fl' D' ∧
      unmapped (mem s') T' D' 0 (Z.to_nat v + n))).
Proof.
  induction n as [|n IH]; intros v s T fl D Hlk Huo Hu Hap Hv Hsz Hmax Hn Hino Hin Hun;
    destruct (npg_roundup sz Hsz) as [_ Hnv].
  { exists 0, s, T, fl, D. rewrite loop_S. unfold uvmcopy_body.
    rewrite (proj2 (Z.leb_le _ _)); [|pose proof (npg_lt v sz); lia].
    split; [done|]. split; [done|]. left. split; [done|]. split; [by apply urel_refl|].
    unfold range. intros; lia. }
  rewrite loop_S. destruct (Hino v) as [p Hp]; [unfold range; lia|]. destruct fl as [|x fl].
  { destruct (uvmcopy_undo rn v (S n) s T [] D) as (s' & fl' & D' & Hrun & ?); try done; [lia|].
    exists (-1), s', T, fl', D'. split; [|tauto]. erewrite bind_ok; [|eapply uvmcopy_nomem; try done; lia]. done. }
  assert (Hun1 : unmapped (mem s) T D v 1) by (intros vpn ?; apply Hun; unfold range in *; lia).
  destruct (uvmcopy_round ro rn sz v s To Do T x fl D p) as (s1 & T1 & fl1 & [(Hrun & Hrel & Hfr & Hpg)|(Hrun & Hrel & Hpg)]);
    try done; try lia; assert (Hlk1 : lock_free LkKmem s1) by (eapply mframe_lock; [apply Hrel|done]);
    destruct (apart_frame _ _ _ _ _ _ _ _ _ _ _ _ _ Hrel Huo Hap) as [Hunt Hap1].
  - destruct (IH (v + 1) s1 T1 fl1 (<[v := x]> D)) as (r & s' & T' & fl' & D' & Hrun' & Hpg' & Hc);
      try done; try lia; [apply Hunt|apply Hrel| | | |].
    { intros vpn Hr. apply Hino. unfold range in *. lia. }
    { intros vpn Hr. rewrite lookup_insert. case_decide; [by eexists|]. apply Hin. lia. }
    { eapply unmapped_frame; [done|lia|lia|unfold range; lia|]. intros vpn Hr. apply Hun. unfold range in *; lia. }
    exists r, s', T', fl', D'. rewrite (bind_ok _ _ _ _ _ Hrun). split; [done|]. split; [congruence|].
    destruct Hc as [(-> & Hrel' & Hfr')|(-> & Hrel' & Hun')].
    + left. split; [done|]. split; [eapply urel_trans; (eapply urel_weaken; [|done]); unfold range; intros; lia|].
      intros vpn Hr. destruct (decide (vpn = v)) as [->|].
      * eapply copied_dst; [exact Hrel'|lia|unfold range; lia|done].
      * eapply copied_src; [exact Hunt|]. apply Hfr'. unfold range in *; lia.
    + right. split; [done|]. replace (Z.to_nat v + S n)%nat with (Z.to_nat (v + 1) + n)%nat by lia.
      split; [|done]. eapply urel_trans; (eapply urel_weaken; [|done]); unfold range; intros; lia.
  - destruct (uvmcopy_undo rn v (S n) s1 T1 fl1 D) as (s' & fl' & D' & Hrun' & Hpg' & Hrel' & Hun'); try done; try lia.
    { apply Hrel. } { eapply unmapped_frame; [exact Hrel|lia|lia|tauto|done]. }
    exists (-1), s', T1, fl', D'. erewrite bind_ok; [|rewrite Hrun; exact Hrun'].
    split; [done|]. split; [congruence|]. right. split; [done|]. split; [|done].
    eapply urel_trans; [|done]. eapply urel_weaken; [|done]. tauto.
Qed.

Lemma uvmcopy_range ro rn sz s To Do T fl D :
  lock_free LkKmem s → uspace s ro To fl Do → uspace s rn T fl D → apart To Do T fl D →
  0 ≤ sz ≤ MAXVA → let n := Z.to_nat (npg sz) in
  (∀ vpn, range 0 n vpn → is_Some (Do !! vpn)) → unmapped (mem s) T D 0 n →
  ∃ r s' T' fl' D', uvmcopy ro rn sz s = Ok r s' ∧
    urel rn (range 0 n) s T fl D s' T' fl' D' ∧ untouched ro To Do s s' fl' ∧
    apart To Do T' fl' D' ∧ pages T' fl' D' = pages T fl D ∧
    ((r = 0 ∧ ∀ vpn, range 0 n vpn → copied (mem s) To Do (mem s') T' D' vpn) ∨
     (r = -1 ∧ D' = D ∧ unmapped (mem s') T' D' 0 n)).
Proof.
  intros Hlk Huo Hu Hap Hsz n Hin Hun. destruct (npg_roundup sz Hsz) as [_ Hnv].
  destruct (uvmcopy_loop ro rn sz To Do n 0 s T fl D) as (r & s' & T' & fl' & D' & Hrun & Hpg & Hc);
    try done; [subst n; f_equal; lia|intros; lia|].
  assert (Hrel : urel rn (range 0 n) s T fl D s' T' fl' D') by (by destruct Hc as [(_ & ? & _)|(_ & ? & _)]).
  destruct (apart_frame _ _ _ _ _ _ _ _ _ _ _ _ _ Hrel Huo Hap) as [Hunt Hap'].
  exists r, s', T', fl', D'. split; [|do 4 (split; [done|])].
  - unfold uvmcopy. exact Hrun.
  - destruct Hc as [(-> & _ & ?)|(-> & _ & Hun')]; [by left|right]. split; [done|].
    simpl in Hun'. split; [|done]. apply map_eq. intros vpn. destruct (decide (0 ≤ vpn < 0 + Z.of_nat n)) as [Hr|Hr].
    + by rewrite (proj1 (Hun' vpn Hr)), (proj1 (Hun vpn Hr)).
    + by apply (ur_keep _ _ _ _ _ _ _ _ _ _ Hrel).
Qed.
End copy.
