(* ===== verification/VmAccess.v ===== *)
(** * copyout(), copyin(), copyinstr(): the kernel's access to user memory

    [upa D a] is the physical address of the user virtual address [a]; the
    three routines move exactly the bytes at those addresses, across page
    boundaries, and stop at the first page the user may not access. *)

From Stdlib Require Import ZArith Lia.
From stdpp Require Import base numbers gmap strings countable tactics list.
From S2P Require Import Prelude Machine CString State Spinlock Kalloc Vm VmTheory VmMap VmUser VmAlloc VmLoops.

Definition upa (D : gmap Z Z) (a : Z) : Z := default 0 (D !! (a / PGSIZE)) + a mod PGSIZE.

(** [a] is a user address of the space, or one the user may not access. *)
Definition acc (m : gmap Z Z) (T : gmap (list Z) Z) (D : gmap Z Z) (a : Z) : Prop :=
  0 ≤ a < MAXVA ∧ ∃ p, D !! (a / PGSIZE) = Some p ∧ user_pa (leaf m T a) = p.

Definition fault (m : gmap Z Z) (T : gmap (list Z) Z) (a : Z) : Prop :=
  MAXVA ≤ a ∨ user_pa (leaf m T a) = 0.

(** The [n] bytes at the user addresses from [a]. *)
Definition uread (D : gmap Z Z) (m : gmap Z Z) (a n : Z) : list Z :=
  (λ i, load8 m (upa D (a + i))) <$> seqZ 0 n.

(** A byte string up to and including its first zero, and whether it has one. *)
Fixpoint cut (l : list Z) : bool * list Z :=
  match l with
  | [] => (false, [])
  | b :: l => if b =? 0 then (true, [0]) else let '(g, r) := cut l in (g, b :: r)
  end.

Section access.
Context `{EnvOk}.

Lemma chunk_eq a len : 0 ≤ a < 2 ^ 64 → 0 ≤ len →
  PGROUNDDOWN a = a / PGSIZE * PGSIZE ∧ chunk a len = Z.min len (PGSIZE - a mod PGSIZE).
Proof.
  intros Ha Hl. unfold chunk. rewrite PGROUNDDOWN_eq by done. split.
  - unfold PGSIZE. Z.div_mod_to_equations. lia.
  - destruct (Z.ltb_spec len (PGSIZE - (a - (a - a mod PGSIZE)))); lia.
Qed.

Lemma MAXVA_lt : 0 < MAXVA < 2 ^ 64 - 4096.
Proof. done. Qed.

(** The page of an accessible address, as the loops look it up. *)
Lemma acc_page root s T fl D a :
  uspace s root T fl D → acc (mem s) T D a →
  ∃ p, D !! (a / PGSIZE) = Some p ∧ walkaddr root (a / PGSIZE * PGSIZE) s = Ok p s ∧
    (p =? 0) = false ∧ upa D a = p + a mod PGSIZE.
Proof.
  intros Hu (Ha & p & Hp & Hl). exists p. split; [done|]. destruct (page_addr (a / PGSIZE)) as [_ Hd].
  rewrite (walkaddr_eq root s T fl _ (us_vm _ _ _ _ _ Hu)).
  - rewrite (leaf_vpn _ _ _ a) by done. rewrite Hl. split; [done|]. split.
    + destruct (us_page _ _ _ _ _ Hu _ _ Hp) as (Hok & _). apply page_ok_bounds in Hok. lia.
    + unfold upa. by rewrite Hp.
  - apply vpn_va. by apply vpn_range.
Qed.

Lemma fault_page root s T fl D a :
  uspace s root T fl D → 0 ≤ a → fault (mem s) T a → walkaddr root (a / PGSIZE * PGSIZE) s = Ok 0 s.
Proof.
  intros Hu Ha Hf. destruct (page_addr (a / PGSIZE)) as [_ Hd]. destruct (decide (a < MAXVA)) as [Hlt|Hge].
  - rewrite (walkaddr_eq root s T fl _ (us_vm _ _ _ _ _ Hu)) by (apply vpn_va, vpn_range; lia).
    rewrite (leaf_vpn _ _ _ a) by done. destruct Hf as [?|Hf]; [lia|]. by rewrite Hf.
  - apply walkaddr_high. rewrite MAXVA_pages in *. unfold PGSIZE in *. Z.div_mod_to_equations. lia.
Qed.

(** A write inside one user page. *)
Lemma user_write root s T fl D v p off bs :
  uspace s root T fl D → D !! v = Some p → 0 ≤ off → off + Z.of_nat (length bs) ≤ PGSIZE →
  let m' := write_bytes (mem s) (p + off) bs in
  uspace (set_mem m' s) root T fl D ∧ ∀ va, leaf m' T va = leaf (mem s) T va.
Proof.
  intros Hu Hp Ho Hlen m'. destruct (us_page _ _ _ _ _ Hu _ _ Hp) as (Hok & Hf & Ht).
  assert (Hso : same_outside p (mem s) m').
  { intros a Ha. subst m'. rewrite load8_write_bytes, decide_False; [done|lia]. }
  split; [by eapply uspace_write|]. intros va. eapply leaf_same_tables; [apply Hu|].
  intros q [path Hq]. apply (same_outside_page p); [done|eapply rep_ok; [apply Hu|done]| |done].
  intros ->. apply Ht. by eexists.
Qed.

(** Two addresses on one page, and two pages that do not share bytes. *)
Lemma upa_same_page D a i :
  0 ≤ i → a mod PGSIZE + i < PGSIZE → upa D (a + i) = upa D a + i ∧ (a + i) / PGSIZE = a / PGSIZE.
Proof.
  intros Hi Hb. assert ((a + i) / PGSIZE = a / PGSIZE ∧ (a + i) mod PGSIZE = a mod PGSIZE + i) as [E1 E2].
  { unfold PGSIZE in *. Z.div_mod_to_equations. lia. }
  unfold upa. rewrite E1, E2. lia.
Qed.

Lemma upa_inj root s T fl D a b :
  uspace s root T fl D → is_Some (D !! (a / PGSIZE)) → is_Some (D !! (b / PGSIZE)) →
  upa D a = upa D b → a = b.
Proof.
  intros Hu [p Hp] [q Hq] He. unfold upa in He. rewrite Hp, Hq in He. simpl in He.
  destruct (us_page _ _ _ _ _ Hu _ _ Hp) as ([Hpa _] & _).
  destruct (us_page _ _ _ _ _ Hu _ _ Hq) as ([Hqa _] & _).
  assert (p = q ∧ a mod PGSIZE = b mod PGSIZE) as [-> ?].
  { unfold PGSIZE in *. Z.div_mod_to_equations. lia. }
  pose proof (us_inj _ _ _ _ _ Hu _ _ _ Hp Hq). unfold PGSIZE in *. Z.div_mod_to_equations. lia.
Qed.

Lemma acc_same_leaf m m' T D a : (∀ va, leaf m' T va = leaf m T va) → acc m T D a → acc m' T D a.
Proof. intros Hl (Ha & p & Hp & Hu). split; [done|]. exists p. by rewrite Hl. Qed.

(** ** copyout *)

(** The memory [m'] is [m] with the bytes [l] at the user addresses from [a]. *)
Definition uwritten (D : gmap Z Z) (a : Z) (l : list Z) (m m' : gmap Z Z) : Prop :=
  (∀ i, 0 ≤ i < Z.of_nat (length l) → load8 m' (upa D (a + i)) = nthZ l i) ∧
  (∀ b, (∀ i, 0 ≤ i < Z.of_nat (length l) → b ≠ upa D (a + i)) → load8 m' b = load8 m b).

Lemma uwritten_nil D a m : uwritten D a [] m m.
Proof. split; [simpl; intros; lia|done]. Qed.

Lemma uwritten_app root s T fl D a l1 l2 m m1 m2 :
  uspace s root T fl D →
  (∀ i, 0 ≤ i < Z.of_nat (length (l1 ++ l2)) → is_Some (D !! ((a + i) / PGSIZE))) →
  uwritten D a l1 m m1 → uwritten D (a + Z.of_nat (length l1)) l2 m1 m2 →
  uwritten D a (l1 ++ l2) m m2.
Proof.
  intros Hu HD [W1 F1] [W2 F2]. unfold uwritten. rewrite length_app in *. split.
  - intros i Hi. rewrite nthZ_app by lia. case_decide.
    + rewrite F2; [by apply W1; lia|]. intros j Hj He.
      eapply (upa_inj root s T fl D) in He; [lia|done|by apply HD; lia|].
      replace (a + Z.of_nat (length l1) + j) with (a + (Z.of_nat (length l1) + j)) by lia. apply HD; lia.
    + rewrite <- W2 by lia. do 2 f_equal. clear. lia.
  - intros b Hb. rewrite F2, F1; [done|intros i Hi; apply Hb; lia|].
    intros i Hi. replace (a + Z.of_nat (length l1) + i) with (a + (Z.of_nat (length l1) + i)) by lia.
    apply Hb. lia.
Qed.

Lemma uwritten_page D a l m :
  a mod PGSIZE + Z.of_nat (length l) ≤ PGSIZE → uwritten D a l m (write_bytes m (upa D a) l).
Proof.
  intros Hl. split.
  - intros i Hi. destruct (upa_same_page D a i) as [-> _]; [lia..|].
    rewrite load8_write_bytes, decide_True by lia. f_equal. clear. lia.
  - intros b Hb. rewrite load8_write_bytes, decide_False; [done|]. intros Hr.
    apply (Hb (b - upa D a)); [lia|]. destruct (upa_same_page D a (b - upa D a)) as [-> _]; lia.
Qed.

(** A fault does not lie on the page of an accessible address. *)
Lemma fault_next root s T fl D a k :
  uspace s root T fl D → acc (mem s) T D a → 0 ≤ k → fault (mem s) T (a + k) →
  PGSIZE ≤ a mod PGSIZE + k.
Proof.
  intros Hu (Ha & p & Hp & Hl) Hk Hf. destruct (decide (a mod PGSIZE + k < PGSIZE)) as [Hlt|]; [|lia].
  destruct (upa_same_page D a k Hk Hlt) as [_ He]. exfalso. destruct Hf as [Hf|Hf].
  - rewrite MAXVA_pages in *. unfold PGSIZE in *. Z.div_mod_to_equations. lia.
  - rewrite (leaf_vpn _ _ _ a He), Hl in Hf. destruct (us_page _ _ _ _ _ Hu _ _ Hp) as (Hok & _).
    apply page_ok_bounds in Hok. lia.
Qed.

Lemma set_mem_id s : set_mem (mem s) s = s.
Proof. by destruct s. Qed.

(** One round that finds its page. *)
Lemma copyout_round root s T fl D a l :
  uspace s root T fl D → acc (mem s) T D a → l ≠ [] →
  let c := Z.to_nat (chunk a (Z.of_nat (length l))) in
  copyout_body root (a, l) s =
    Ok (inl ((a / PGSIZE + 1) * PGSIZE, drop c l))
       (set_mem (write_bytes (mem s) (upa D a) (take c l)) s).
Proof.
  intros Hu Ha Hne c. pose proof Ha as (Hr & _). pose proof MAXVA_lt.
  destruct (acc_page root s T fl D a Hu Ha) as (p & Hp & Hw & Hz & ->).
  unfold copyout_body. destruct (chunk_eq a 0) as [E1 _]; [lia..|].
  assert (length l ≠ 0%nat) by (by destruct l). rewrite (proj2 (Z.leb_gt _ _)) by lia. rewrite E1.
  rewrite (bind_ok _ _ _ _ _ Hw), Hz. mrun.
  replace (p + (a - a / PGSIZE * PGSIZE)) with (p + a mod PGSIZE) by (unfold PGSIZE; Z.div_mod_to_equations; lia).
  rewrite next_page by (by apply vpn_range). done.
Qed.

Lemma acc_base m T D a : acc m T D a → D !! (a / PGSIZE) = Some (upa D a - a mod PGSIZE).
Proof. intros (_ & p & Hp & _). unfold upa. rewrite Hp. simpl. f_equal. lia. Qed.

Lemma uwritten_move D a b l m m' : l = [] ∨ b = a → uwritten D b l m m' → uwritten D a l m m'.
Proof.
  intros [-> | ->]; [|done]. intros [_ Hw]. split; [simpl; intros; lia|].
  intros x Hx. apply Hw. simpl. intros; lia.
Qed.

(** The step all three loops take from an accessible address [a], with [L1]
    bytes to go up to a fault (or the end), and [L2] after it. *)
Lemma access_step root s T fl D n a L1 L2 :
  uspace s root T fl D → 0 < L1 → 0 ≤ L2 → npg (a mod PGSIZE + (L1 + L2)) < Z.of_nat (S n) →
  (∀ i, 0 ≤ i < L1 → acc (mem s) T D (a + i)) → (L2 = 0 ∨ fault (mem s) T (a + L1)) →
  let c := chunk a (L1 + L2) in let next := (a / PGSIZE + 1) * PGSIZE in
  0 < c ≤ L1 ∧ a mod PGSIZE + c ≤ PGSIZE ∧ (L1 - c + L2 = 0 ∨ next = a + c) ∧ 0 ≤ next < 2 ^ 64 ∧
  (L1 - c + L2 = 0 ∧ (0 < n)%nat ∨ npg (next mod PGSIZE + (L1 - c + L2)) < Z.of_nat n) ∧
  (∀ i, 0 ≤ i < L1 - c → acc (mem s) T D (next + i)) ∧
  (L2 = 0 ∨ fault (mem s) T (next + (L1 - c))).
Proof.
  intros Hu HL1 HL2 Hn Hacc Hf c next. pose proof MAXVA_lt.
  assert (Ha0 : acc (mem s) T D a) by (rewrite <- (Z.add_0_r a); apply Hacc; lia).
  pose proof (Z.mod_pos_bound a PGSIZE ltac:(done)) as Hm. pose proof (proj1 Ha0) as Hmax.
  assert (Hc : c = Z.min (L1 + L2) (PGSIZE - a mod PGSIZE)) by (apply chunk_eq; lia).
  assert (Hf' : L2 = 0 ∨ PGSIZE ≤ a mod PGSIZE + L1).
  { destruct Hf as [?|Hf]; [by left|right]. eapply (fault_next root s T fl D) in Hf; [done..|lia]. }
  assert (Hnext : L1 - c + L2 = 0 ∨ next = a + c).
  { pose proof (Z.div_mod a PGSIZE ltac:(done)). subst next. lia. }
  assert (Hnm : next mod PGSIZE = 0) by apply page_addr.
  assert (Hnr : 0 ≤ next < 2 ^ 64).
  { pose proof (vpn_range a Hmax). subst next. rewrite MAXVA_pages in *. unfold PGSIZE in *. lia. }
  clearbody c next.
  split; [lia|]. split; [lia|]. split; [done|]. split; [done|]. split; [|split].
  - rewrite Hnm. destruct (decide (L1 - c + L2 = 0)) as [He|He]; [left|right]; (split; [done|] || idtac);
      unfold npg, PGSIZE in *; Z.div_mod_to_equations; lia.
  - intros i Hi. destruct Hnext as [?|Hnext]; [lia|]. rewrite Hnext.
    replace (a + c + i) with (a + (c + i)) by lia. apply Hacc. lia.
  - destruct Hf as [?|Hf]; [by left|]. destruct Hnext as [?|Hnext]; [left; lia|right]. rewrite Hnext.
    by replace (a + c + (L1 - c)) with (a + L1) by lia.
Qed.

Lemma fault_walk root s T fl D a :
  uspace s root T fl D → 0 ≤ a < 2 ^ 64 → fault (mem s) T a → walkaddr root (PGROUNDDOWN a) s = Ok 0 s.
Proof.
  intros Hu Ha Hf. rewrite (proj1 (chunk_eq a 0 Ha ltac:(done))). apply (fault_page root s T fl D); [done|lia|done].
Qed.

Lemma npg_fuel a L : 0 ≤ L → ¬ (L = 0 ∧ (0 < 0)%nat ∨ npg (a mod PGSIZE + L) < Z.of_nat 0).
Proof.
  pose proof (Z.mod_pos_bound a PGSIZE ltac:(done)).
  intros HL [[_ Hn]|Hn]; [lia|]. unfold npg, PGSIZE in *. Z.div_mod_to_equations. lia.
Qed.

Lemma copyout_loop root T fl D n : ∀ a l1 l2 s,
  uspace s root T fl D → 0 ≤ a < 2 ^ 64 →
  (Z.of_nat (length l1) + Z.of_nat (length l2) = 0 ∧ (0 < n)%nat ∨
   npg (a mod PGSIZE + (Z.of_nat (length l1) + Z.of_nat (length l2))) < Z.of_nat n) →
  (∀ i, 0 ≤ i < Z.of_nat (length l1) → acc (mem s) T D (a + i)) →
  (Z.of_nat (length l2) = 0 ∨ fault (mem s) T (a + Z.of_nat (length l1))) →
  ∃ m', loop n (copyout_body root) (a, l1 ++ l2) s =
        Ok (if decide (l2 = []) then 0 else -1) (set_mem m' s) ∧
    uspace (set_mem m' s) root T fl D ∧ (∀ va, leaf m' T va = leaf (mem s) T va) ∧
    uwritten D a l1 (mem s) m'.
Proof.
  induction n as [|n IH]; intros a l1 l2 s Hu Ha Hn Hacc Hf; [exfalso; revert Hn; apply npg_fuel; lia|].
  rewrite loop_S. destruct (decide (l1 = [])) as [-> |Hne].
  { exists (mem s). rewrite set_mem_id. split; [|split; [done|split; [done|apply uwritten_nil]]].
    destruct l2 as [|b2 l2]; [done|]. rewrite decide_False by done.
    destruct Hf as [Hf|Hf]; [simpl in Hf; lia|]. rewrite Z.add_0_r in Hf.
    erewrite bind_ok; [|unfold copyout_body; rewrite (proj2 (Z.leb_gt _ _)) by (simpl; lia);
      rewrite (bind_ok _ _ _ _ _ (fault_walk root s T fl D a Hu Ha Hf)); done]. done. }
  assert (Hpos : 0 < Z.of_nat (length l1)) by (destruct l1; [done|simpl; lia]).
  destruct (access_step root s T fl D n a (Z.of_nat (length l1)) (Z.of_nat (length l2)))
    as (Hc & Hpg & Hnext & Hnr & Hn' & Hacc' & Hf'); try done; [lia|destruct Hn; lia|].
  assert (Ha0 : acc (mem s) T D a) by (rewrite <- (Z.add_0_r a); apply Hacc; lia).
  rewrite (bind_ok _ _ _ _ _ (copyout_round root s T fl D a (l1 ++ l2) Hu Ha0
    ltac:(by intros [? ?]%app_nil))).
  rewrite length_app, Nat2Z.inj_add. set (c' := chunk a _) in *.
  assert (Hcd : Z.of_nat (length (drop (Z.to_nat c') l1)) = Z.of_nat (length l1) - c')
    by (rewrite length_drop; lia).
  assert (Hct : Z.of_nat (length (take (Z.to_nat c') l1)) = c') by (rewrite length_take; lia).
  rewrite take_app_le, drop_app_le by lia. rewrite <- Hcd in Hnext, Hn', Hacc', Hf'.
  set (m1 := write_bytes (mem s) (upa D a) (take (Z.to_nat c') l1)).
  destruct (user_write root s T fl D (a / PGSIZE) (upa D a - a mod PGSIZE) (a mod PGSIZE)
    (take (Z.to_nat c') l1) Hu) as [Hu1 Hl1];
    [by eapply acc_base|apply Z.mod_pos_bound; done|by rewrite Hct|].
  replace (upa D a - a mod PGSIZE + a mod PGSIZE) with (upa D a) in * by lia. fold m1 in Hu1, Hl1.
  destruct (IH ((a / PGSIZE + 1) * PGSIZE) (drop (Z.to_nat c') l1) l2 (set_mem m1 s))
    as (m' & Hrun & Hu' & Hl' & Hw'); [done..| | |].
  { intros i Hi. eapply acc_same_leaf; [exact Hl1|]. by apply Hacc'. }
  { unfold fault. simpl. by rewrite Hl1. }
  exists m'. replace (set_mem m' (set_mem m1 s)) with (set_mem m' s) in * by (clear; by destruct s).
  split; [done|]. split; [done|]. split; [intros va; rewrite Hl'; apply Hl1|].
  rewrite <- (take_drop (Z.to_nat c') l1). eapply (uwritten_app root s T fl D); [done| | |].
  - rewrite take_drop. intros i Hi. destruct (Hacc i Hi) as (_ & p & Hp & _). by eexists.
  - apply uwritten_page. by rewrite Hct.
  - rewrite Hct. eapply uwritten_move; [|exact Hw']. destruct Hnext; [left|by right].
    apply nil_length_inv. lia.
Qed.

(** ** copyin and copyinstr *)
Lemma uread_app D m a n1 n2 :
  0 ≤ n1 → 0 ≤ n2 → uread D m a (n1 + n2) = uread D m a n1 ++ uread D m (a + n1) n2.
Proof.
  intros. unfold uread. rewrite seqZ_app, fmap_app by done. f_equal.
  rewrite (seqZ_fmap_add (0 + n1) n2). rewrite <- list_fmap_compose. apply list_fmap_ext.
  intros i x _. simpl. do 2 f_equal. lia.
Qed.

Lemma uread_1 D m a : uread D m a 1 = [load8 m (upa D a)].
Proof. unfold uread. change (seqZ 0 1) with [0]. cbn. by rewrite Z.add_0_r. Qed.

Lemma uread_page D m a n :
  0 ≤ n → a mod PGSIZE + n ≤ PGSIZE → uread D m a n = read_bytes m (upa D a) (Z.to_nat n).
Proof.
  intros Hn Hp. apply list_eq_nthZ.
  - unfold uread. rewrite length_fmap, length_seqZ, length_read_bytes. done.
  - intros i Hi. unfold uread in *. rewrite length_fmap, length_seqZ in Hi.
    rewrite nthZ_read_bytes by lia. rewrite nthZ_fmap_seqZ by lia.
    destruct (upa_same_page D a i) as [-> _]; [lia..|done].
Qed.

Lemma scan_cut m p n : scan m p n = cut (read_bytes m p n).
Proof. revert p. induction n as [|n IH]; intros p; [done|]. simpl. by rewrite IH. Qed.

Lemma cut_false l r : cut l = (false, r) → r = l.
Proof.
  revert r. induction l as [|b l IH]; simpl; intros r; [congruence|].
  destruct (b =? 0); [done|]. destruct (cut l) as [g r']. intros [= -> <-]. by rewrite (IH r').
Qed.

Lemma cut_app l1 l2 :
  cut (l1 ++ l2) =
  if (cut l1).1 then cut l1 else ((cut l2).1, l1 ++ (cut l2).2).
Proof.
  induction l1 as [|b l1 IH]; simpl; [by destruct (cut l2)|]. destruct (b =? 0); [done|].
  rewrite IH. destruct (cut l1) as [[] r]; done.
Qed.

(** The part of a round all readers share: the chunk on the page of [a]. *)
Lemma read_round root s T fl D a len :
  uspace s root T fl D → acc (mem s) T D a → 0 < len →
  let n := chunk a len in let va0 := PGROUNDDOWN a in
  ∃ pa0, walkaddr root va0 s = Ok pa0 s ∧ (pa0 =? 0) = false ∧
    read_bytes (mem s) (pa0 + (a - va0)) (Z.to_nat n) = uread D (mem s) a n ∧
    scan (mem s) (pa0 + (a - va0)) (Z.to_nat n) = cut (uread D (mem s) a n) ∧
    u64 (va0 + PGSIZE) = (a / PGSIZE + 1) * PGSIZE.
Proof.
  intros Hu Ha Hlen n va0. pose proof Ha as (Hr & _). pose proof MAXVA_lt.
  pose proof (Z.mod_pos_bound a PGSIZE ltac:(done)).
  destruct (acc_page root s T fl D a Hu Ha) as (p & Hp & Hw & Hz & Hupa).
  destruct (chunk_eq a len) as [E1 E2]; [lia..|]. fold va0 in E1. fold n in E2. exists p. rewrite E1.
  replace (p + (a - a / PGSIZE * PGSIZE)) with (upa D a)
    by (rewrite Hupa; unfold PGSIZE; Z.div_mod_to_equations; lia).
  rewrite scan_cut, <- uread_page by lia. rewrite next_page by (by apply vpn_range). done.
Qed.

Lemma copyin_loop root T fl D n s : uspace s root T fl D → ∀ a L1 L2 dst,
  0 ≤ a < 2 ^ 64 → 0 ≤ L1 → 0 ≤ L2 →
  (L1 + L2 = 0 ∧ (0 < n)%nat ∨ npg (a mod PGSIZE + (L1 + L2)) < Z.of_nat n) →
  (∀ i, 0 ≤ i < L1 → acc (mem s) T D (a + i)) → (L2 = 0 ∨ fault (mem s) T (a + L1)) →
  loop n (copyin_body root) (a, L1 + L2, dst) s =
    Ok (if decide (L2 = 0) then 0 else -1, dst ++ uread D (mem s) a L1) s.
Proof.
  intros Hu. induction n as [|n IH]; intros a L1 L2 dst Ha HL1 HL2 Hn Hacc Hf;
    [exfalso; revert Hn; apply npg_fuel; lia|].
  rewrite loop_S. destruct (decide (L1 = 0)) as [-> |Hne].
  { unfold uread at 1. simpl. rewrite app_nil_r. case_decide as HL; [by subst|].
    destruct Hf as [?|Hf]; [done|]. rewrite Z.add_0_r in Hf.
    erewrite bind_ok; [|unfold copyin_body; rewrite (proj2 (Z.leb_gt _ _)) by lia;
      rewrite (bind_ok _ _ _ _ _ (fault_walk root s T fl D a Hu Ha Hf)); done]. done. }
  destruct (access_step root s T fl D n a L1 L2) as (Hc & Hpg & Hnext & Hnr & Hn' & Hacc' & Hf');
    try done; [lia|destruct Hn; lia|].
  destruct (read_round root s T fl D a (L1 + L2) Hu) as (pa0 & Hw & Hz & Hrd & _ & Hnx);
    [rewrite <- (Z.add_0_r a); apply Hacc; lia|lia|].
  erewrite bind_ok; [|unfold copyin_body; rewrite (proj2 (Z.leb_gt _ _)) by lia;
    rewrite (bind_ok _ _ _ _ _ Hw), Hz; mrun; rewrite Hrd, Hnx; done].
  set (c := chunk a (L1 + L2)) in *. replace (L1 + L2 - c) with (L1 - c + L2) by lia.
  rewrite IH by (done || lia). rewrite <- app_assoc. do 2 f_equal. f_equal.
  replace L1 with (c + (L1 - c)) at 2 by lia. rewrite uread_app by lia. f_equal.
  destruct Hnext as [?| ->]; [|done]. by replace (L1 - c) with 0 by lia.
Qed.

Lemma copyinstr_loop root T fl D n s : uspace s root T fl D → ∀ a L1 L2 dst,
  0 ≤ a < 2 ^ 64 → 0 ≤ L1 → 0 ≤ L2 →
  (L1 + L2 = 0 ∧ (0 < n)%nat ∨ npg (a mod PGSIZE + (L1 + L2)) < Z.of_nat n) →
  (∀ i, 0 ≤ i < L1 → acc (mem s) T D (a + i)) → (L2 = 0 ∨ fault (mem s) T (a + L1)) →
  let '(g, str) := cut (uread D (mem s) a L1) in
  loop n (copyinstr_body root) (a, L1 + L2, dst) s =
    Ok (if g : bool then 0 else -1, dst ++ str) s.
Proof.
  intros Hu. induction n as [|n IH]; intros a L1 L2 dst Ha HL1 HL2 Hn Hacc Hf;
    [exfalso; revert Hn; apply npg_fuel; lia|].
  rewrite loop_S. destruct (decide (L1 = 0)) as [-> |Hne].
  { simpl. rewrite app_nil_r. destruct (decide (L2 = 0)) as [-> |HL]; [done|].
    destruct Hf as [?|Hf]; [done|]. rewrite Z.add_0_r in Hf.
    erewrite bind_ok; [|unfold copyinstr_body; rewrite (proj2 (Z.leb_gt _ _)) by lia;
      rewrite (bind_ok _ _ _ _ _ (fault_walk root s T fl D a Hu Ha Hf)); done]. done. }
  destruct (access_step root s T fl D n a L1 L2) as (Hc & Hpg & Hnext & Hnr & Hn' & Hacc' & Hf');
    try done; [lia|destruct Hn; lia|].
  destruct (read_round root s T fl D a (L1 + L2) Hu) as (pa0 & Hw & Hz & _ & Hsc & Hnx);
    [rewrite <- (Z.add_0_r a); apply Hacc; lia|lia|].
  set (c := chunk a (L1 + L2)) in *.
  assert (Hsplit : uread D (mem s) a L1 =
    uread D (mem s) a c ++ uread D (mem s) ((a / PGSIZE + 1) * PGSIZE) (L1 - c)).
  { replace L1 with (c + (L1 - c)) at 1 by lia. rewrite uread_app by lia. f_equal.
    destruct Hnext as [?| ->]; [|done]. by replace (L1 - c) with 0 by lia. }
  rewrite Hsplit, cut_app. destruct (cut (uread D (mem s) a c)) as [g bs] eqn:Hcut.
  specialize (IH ((a / PGSIZE + 1) * PGSIZE) (L1 - c) L2 (dst ++ bs)).
  destruct g; simpl.
  - erewrite bind_ok; [|unfold copyinstr_body; rewrite (proj2 (Z.leb_gt _ _)) by lia;
      rewrite (bind_ok _ _ _ _ _ Hw), Hz; mrun; fold c; rewrite Hsc; done]. done.
  - pose proof (cut_false _ _ Hcut) as ->.
    destruct (cut (uread D (mem s) _ (L1 - c))) as [g r]. simpl.
    erewrite bind_ok; [|unfold copyinstr_body; rewrite (proj2 (Z.leb_gt _ _)) by lia;
      rewrite (bind_ok _ _ _ _ _ Hw), Hz; mrun; fold c; rewrite Hsc, Hnx; done].
    replace (L1 + L2 - c) with (L1 - c + L2) by lia. rewrite IH by (done || lia). by rewrite <- app_assoc.
Qed.

(** ** The routines: their number of rounds is enough *)
Lemma rounds_enough a L :
  0 ≤ L → npg (a mod PGSIZE + L) < Z.of_nat (S (S (Z.to_nat (L / PGSIZE + 1)))).
Proof.
  intros HL. pose proof (Z.mod_pos_bound a PGSIZE ltac:(done)).
  unfold npg, PGSIZE in *. Z.div_mod_to_equations. lia.
Qed.

Lemma copyout_spec root s T fl D a l1 l2 :
  uspace s root T fl D → 0 ≤ a < 2 ^ 64 →
  (∀ i, 0 ≤ i < Z.of_nat (length l1) → acc (mem s) T D (a + i)) →
  (l2 = [] ∨ fault (mem s) T (a + Z.of_nat (length l1))) →
  ∃ m', copyout root a (l1 ++ l2) s = Ok (if decide (l2 = []) then 0 else -1) (set_mem m' s) ∧
    uspace (set_mem m' s) root T fl D ∧ (∀ va, leaf m' T va = leaf (mem s) T va) ∧
    uwritten D a l1 (mem s) m'.
Proof.
  intros Hu Ha Hacc Hf. unfold copyout. rewrite length_app.
  apply (copyout_loop root T fl D); [done|done| |done|].
  - right. rewrite Nat2Z.inj_add. apply rounds_enough. lia.
  - destruct Hf as [-> |?]; [by left|by right].
Qed.

Lemma copyin_spec root s T fl D a L1 L2 :
  uspace s root T fl D → 0 ≤ a < 2 ^ 64 → 0 ≤ L1 → 0 ≤ L2 →
  (∀ i, 0 ≤ i < L1 → acc (mem s) T D (a + i)) → (L2 = 0 ∨ fault (mem s) T (a + L1)) →
  copyin root a (L1 + L2) s = Ok (if decide (L2 = 0) then 0 else -1, uread D (mem s) a L1) s.
Proof.
  intros Hu Ha HL1 HL2 Hacc Hf. unfold copyin. rewrite (copyin_loop root T fl D); try done.
  right. apply rounds_enough. lia.
Qed.

Lemma copyinstr_spec root s T fl D a L1 L2 :
  uspace s root T fl D → 0 ≤ a < 2 ^ 64 → 0 ≤ L1 → 0 ≤ L2 →
  (∀ i, 0 ≤ i < L1 → acc (mem s) T D (a + i)) → (L2 = 0 ∨ fault (mem s) T (a + L1)) →
  let '(g, str) := cut (uread D (mem s) a L1) in
  copyinstr root a (L1 + L2) s = Ok (if g : bool then 0 else -1, str) s.
Proof.
  intros Hu Ha HL1 HL2 Hacc Hf.
  apply (copyinstr_loop root T fl D _ s Hu a L1 L2 []); try done.
  right. apply rounds_enough. lia.
Qed.

(** Reading back what was written. *)
Lemma uread_written D a l m m' :
  uwritten D a l m m' → uread D m' a (Z.of_nat (length l)) = l.
Proof.
  intros [Hw _]. apply list_eq_nthZ.
  - unfold uread. rewrite length_fmap, length_seqZ. lia.
  - intros i Hi. unfold uread in *. rewrite length_fmap, length_seqZ in Hi.
    rewrite nthZ_fmap_seqZ by lia. apply Hw. lia.
Qed.
End access.
