(* ===== verification/Sched.v ===== *)
(** * kernel/proc.c: the process table, scheduling, sleep and wakeup

    Processes are indices into proc[NPROC]. swtch() suspends the running
    kernel thread: sched() is the outcome [Switch], whose continuation is the
    saved context. [dispatch] and [retire] are the two halves of the body of
    scheduler() around its swtch(). *)

From Stdlib Require Import ZArith Lia.
From stdpp Require Import base numbers gmap strings countable tactics list.
From S2P Require Import Prelude Machine CString State Spinlock Kalloc Vm.

(** Indices of proc[]. *)
Definition proc_ids : list nat := seq 0 NPROC.
#[global] Arguments proc_ids : simpl never.

Section sched.
Context `{Env}.

Definition procinit : M unit :=
  initlock LkPid;;
  initlock LkWait;;
  for_each proc_ids (λ i,
    initlock (LkProc i);;
    upd_proc i (set_p_kstack (KSTACK (Z.of_nat i)));;
    mret (None : option unit));;
  mret tt.

Definition allocpid : M Z :=
  acquire LkPid;;
  pid ← gets nextpid;
  modify (λ s, set_nextpid (s32 (nextpid s + 1)) s);;
  release LkPid;;
  mret pid.

(** proc_pagetable() reads only p->trapframe of its argument. *)
Definition proc_pagetable (i : nat) : M Z :=
  pagetable ← uvmcreate;
  if pagetable =? 0 then mret 0
  else
    r ← mappages pagetable TRAMPOLINE PGSIZE trampoline (Z.lor PTE_R PTE_X);
    if r <? 0 then
      uvmfree pagetable 0;;
      mret 0
    else
      p ← get_proc i;
      r ← mappages pagetable TRAPFRAME PGSIZE (p_trapframe p) (Z.lor PTE_R PTE_W);
      if r <? 0 then
        uvmunmap pagetable TRAMPOLINE 1 false;;
        uvmfree pagetable 0;;
        mret 0
      else mret pagetable.

Definition proc_freepagetable (pagetable sz : Z) : M unit :=
  uvmunmap pagetable TRAMPOLINE 1 false;;
  uvmunmap pagetable TRAPFRAME 1 false;;
  uvmfree pagetable sz.

Definition freeproc (i : nat) : M unit :=
  p ← get_proc i;
  when (negb (p_trapframe p =? 0)) (kfree (p_trapframe p));;
  upd_proc i (set_p_trapframe 0);;
  p ← get_proc i;
  when (negb (p_pagetable p =? 0)) (proc_freepagetable (p_pagetable p) (p_sz p));;
  upd_proc i (λ p,
    set_p_state UNUSED (set_p_xstate 0 (set_p_killed false (set_p_chan None
      (set_p_name (updZ (p_name p) 0 0) (set_p_parent None (set_p_pid 0
        (set_p_sz 0 (set_p_pagetable 0 p))))))))).

(** [Some i] with proc[i].lock held, or [None] for the null pointer. *)
Definition allocproc : M (option nat) :=
  found ← for_each proc_ids (λ i,
    acquire (LkProc i);;
    p ← get_proc i;
    if decide (p_state p = UNUSED) then mret (Some i)
    else release (LkProc i);; mret None);
  match found with
  | None => mret None
  | Some i =>
      pid ← allocpid;
      upd_proc i (λ p, set_p_state USED (set_p_pid pid p));;
      tf ← kalloc;
      upd_proc i (set_p_trapframe tf);;
      if tf =? 0 then
        freeproc i;;
        release (LkProc i);;
        mret None
      else
        pt ← proc_pagetable i;
        upd_proc i (set_p_pagetable pt);;
        if pt =? 0 then
          freeproc i;;
          release (LkProc i);;
          mret None
        else
          upd_proc i (λ p, set_p_ctx_sp (p_kstack p + PGSIZE) (set_p_ctx_ra forkret_addr p));;
          mret (Some i)
  end.

(** ** Giving up the CPU *)
Definition swtch : M unit := λ s, Switch s (λ s', Ok tt s').

Definition sched : M unit :=
  i ← cur;
  h ← holding (LkProc i);
  if negb h then panic "sched p->lock"
  else
    c ← mycpu;
    if negb (c_noff c =? 1) then panic "sched locks"
    else
      p ← get_proc i;
      if decide (p_state p = RUNNING) then panic "sched running"
      else
        on ← intr_get;
        if on : bool then panic "sched interruptible"
        else
          c ← mycpu;
          swtch;;
          upd_cpu (set_c_intena (c_intena c)).

Definition yield : M unit :=
  i ← cur;
  acquire (LkProc i);;
  upd_proc i (set_p_state RUNNABLE);;
  sched;;
  release (LkProc i).

(** The body of the loop of scheduler() for proc[i], up to swtch() (which it
    reaches if the result is [true]), and after it. *)
Definition dispatch (i : nat) : M bool :=
  acquire (LkProc i);;
  p ← get_proc i;
  if decide (p_state p = RUNNABLE) then
    upd_proc i (set_p_state RUNNING);;
    upd_cpu (set_c_proc (Some i));;
    mret true
  else
    release (LkProc i);;
    mret false.

Definition retire (i : nat) : M unit :=
  upd_cpu (set_c_proc None);;
  release (LkProc i).

Definition sleep (ch : chan) (lk : lockid) : M unit :=
  i ← cur;
  acquire (LkProc i);;
  release lk;;
  upd_proc i (set_p_chan (Some ch));;
  upd_proc i (set_p_state SLEEPING);;
  sched;;
  upd_proc i (set_p_chan None);;
  release (LkProc i);;
  acquire lk.

(** [None] is the null channel: exit() passes on p->parent, which may be null. *)
Definition wakeup_one (ch : option chan) (i : nat) : M (option unit) :=
  me ← myproc;
  if decide (me = Some i) then mret None
  else
    acquire (LkProc i);;
    p ← get_proc i;
    when (bool_decide (p_state p = SLEEPING ∧ p_chan p = ch)) (upd_proc i (set_p_state RUNNABLE));;
    release (LkProc i);;
    mret None.

Definition wakeup (ch : option chan) : M unit :=
  for_each proc_ids (wakeup_one ch);; mret tt.

Definition kill_one (pid : Z) (i : nat) : M (option Z) :=
  acquire (LkProc i);;
  p ← get_proc i;
  if p_pid p =? pid then
    upd_proc i (set_p_killed true);;
    when (bool_decide (p_state p = SLEEPING)) (upd_proc i (set_p_state RUNNABLE));;
    release (LkProc i);;
    mret (Some 0)
  else
    release (LkProc i);;
    mret None.

Definition kill (pid : Z) : M Z :=
  r ← for_each proc_ids (kill_one pid);
  mret (match r with Some r => r | None => -1 end).

Definition procnum : M Z :=
  gets (λ s, foldl (λ num i,
    if decide (p_state (procs s !!! i) ≠ UNUSED) then num + 1 else num) 0 proc_ids).

(** growproc() computes with [uint sz]. *)
Definition growproc (n : Z) : M Z :=
  i ← cur;
  p ← get_proc i;
  let sz := u32 (p_sz p) in
  if 0 <? n then
    r ← uvmalloc (p_pagetable p) sz (u32 (sz + n));
    let sz := u32 r in
    if sz =? 0 then mret (-1)
    else upd_proc i (set_p_sz sz);; mret 0
  else if n <? 0 then
    r ← uvmdealloc (p_pagetable p) sz (u32 (sz + n));
    upd_proc i (set_p_sz (u32 r));;
    mret 0
  else
    upd_proc i (set_p_sz sz);;
    mret 0.

(** ** Copies between the kernel and either kind of address

    The other side of either_copyout() and either_copyin() is a user address, a
    kernel physical address, or a local variable of the caller; the bytes that
    reach (or come from) a local variable are part of the result. *)
Inductive place := User (va : Z) | Kern (pa : Z) | Local (bs : list Z).

(** The place [n] bytes further on. *)
Definition advance (d : place) (n : Z) : place :=
  match d with
  | User va => User (u64 (va + n))
  | Kern pa => Kern (u64 (pa + n))
  | Local bs => Local (drop (Z.to_nat n) bs)
  end.

Definition either_copyout (dst : place) (src : list Z) : M (Z * list Z) :=
  i ← cur;
  match dst with
  | User va =>
      p ← get_proc i;
      r ← copyout (p_pagetable p) va src;
      mret (r, [])
  | Kern pa => modify (λ s, set_mem (write_bytes (mem s) pa src) s);; mret (0, [])
  | Local _ => mret (0, src)
  end.

Definition either_copyin (src : place) (len : Z) : M (Z * list Z) :=
  i ← cur;
  match src with
  | User va =>
      p ← get_proc i;
      copyin (p_pagetable p) va len
  | Kern pa => bs ← gets (λ s, read_bytes (mem s) pa (Z.to_nat len)); mret (0, bs)
  | Local bs => mret (0, take (Z.to_nat len) bs)
  end.
End sched.
