(* ===== verification/VmFree.v ===== *)
(** * Tearing an address space down: freewalk(), uvmfree(), proc_freepagetable()

    [owned T fl D] is every page that the free list and an address space hold
    together. [proc_space] is the shape of the address space of a process: its
    data from 0 to p->sz, the trampoline and the trapframe at the top, and
    nothing else. proc_pagetable() builds such a space, uvmalloc() and
    uvmdealloc() keep it, and proc_freepagetable() gives every page of it back. *)

From Stdlib Require Import ZArith Lia.
From stdpp Require Import base numbers gmap strings countable tactics list.
From S2P Require Import Prelude Machine CString State Spinlock Kalloc Vm VmTheory VmMap VmUser VmAlloc VmLoops Sched.

(** The table pages below [path], in the order freewalk() frees them. *)
Fixpoint tables (T : gmap (list Z) Z) (d : nat) (path : list Z) : list Z :=
  match d with
  | O => []
  | S d =>
      match T !! path with
      | None => []
      | Some p => (seqZ 0 512 ≫= λ i, tables T d (path ++ [i])) ++ [p]
      end
  end.

Section freed.
Context `{EnvOk}.

(** From [s] to [s'] the pages [L] went to the free list, the last one to its
    head; of the other pages only those of [X] may differ. *)
Record freed (X L : list Z) (s : kstate) (fl : list Z) (s' : kstate) : Prop := {
  fd_ok : kmem_ok s' (reverse L ++ fl);
  fd_frame : mframe s s';
  fd_same : ∀ x, page_ok x → x ∉ X → x ∉ L → same_page x (mem s) (mem s');
}.

Lemma freed_refl X s fl : kmem_ok s fl → freed X [] s fl s.
Proof. intros. split; [done|apply mframe_refl|done]. Qed.

Lemma freed_app X L1 L2 s fl s1 s2 :
  freed X L1 s fl s1 → freed [] L2 s1 (reverse L1 ++ fl) s2 → freed X (L1 ++ L2) s fl s2.
Proof.
  intros [K1 F1 S1] [K2 F2 S2]. split; [|by eapply mframe_trans|].
  - by rewrite reverse_app, <- (assoc_L (++)).
  - intros x Hx HX [H1 H2]%not_elem_of_app. eapply same_page_trans; [by apply S1|].
    apply S2; [done|apply not_elem_of_nil|done].
Qed.

Lemma freed_kfree L s fl s1 p :
  lock_free LkKmem s → freed [p] L s fl s1 → page_ok p → p ∉ L → p ∉ fl →
  ∃ s2, kfree p s1 = Ok tt s2 ∧ freed [] (L ++ [p]) s fl s2.
Proof.
  intros Hlk [K1 F1 S1] Hp HL Hfl. eexists. split; [apply kfree_eq; [done|by eapply mframe_lock]|].
  split.
  - rewrite reverse_app. simpl. apply kmem_ok_kfree; [done|done| |apply kmem_ok_head in K1; lia].
    rewrite elem_of_app, elem_of_reverse. tauto.
  - eapply mframe_trans; [exact F1|]. unfold mframe. destruct s1; kred; reflexivity.
  - intros x Hx _ [H1 H2]%not_elem_of_app. apply not_elem_of_cons in H2 as [H2 _].
    assert (x ∉ [p]) by (rewrite list_elem_of_singleton; done).
    eapply same_page_trans; [by apply S1|]. simpl.
    apply (same_outside_page p); [done|done|congruence|apply same_outside_kfree_mem].
Qed.

(** A write to the page that is still held back. *)
Lemma freed_store L s fl s1 p i v :
  freed [p] L s fl s1 → page_ok p → p ∉ L → p ∉ fl → 0 ≤ i < 512 → Forall page_ok (L ++ fl) →
  freed [p] L s fl (set_mem (store64 (mem s1) (p + 8 * i) v) s1).
Proof.
  intros [K1 F1 S1] Hp HL Hfl Hi Hok. pose proof (pte_in_page p i Hi).
  assert (Hso : same_outside p (mem s1) (store64 (mem s1) (p + 8 * i) v))
    by (apply same_outside_store64; lia).
  split.
  - eapply kmem_ok_ext; [..|exact K1]; [done|]. simpl. intros q Hq Hqok.
    apply (same_outside_load64 p); [done|]. rewrite elem_of_app, elem_of_reverse in Hq.
    assert (q ≠ p) by (intros ->; tauto).
    destruct (pages_disjoint q p (proj1 Hqok) (proj1 Hp)); unfold PGSIZE in *; try done; lia.
  - eapply mframe_trans; [exact F1|]. unfold mframe. destruct s1; kred; reflexivity.
  - intros x Hx HX HxL. eapply same_page_trans; [by apply S1|]. simpl.
    apply (same_outside_page p); [done|done| |done]. intros ->. apply HX. by left.
Qed.
End freed.

Section tables.
Context `{EnvOk} (m0 : gmap Z Z) (root : Z) (T : gmap (list Z) Z).
Hypothesis Hr : pt_rep m0 root T.

Lemma rep_ancestor path rest q : T !! (path ++ rest) = Some q → is_Some (T !! path).
Proof.
  revert q. induction rest as [|i rest IH] using rev_ind; intros q.
  - rewrite app_nil_r. by eexists.
  - rewrite (assoc_L (++)). intros Hq. destruct (rep_prefix _ _ _ Hr _ _ _ Hq) as [[y Hy] _]. by eapply IH.
Qed.

Lemma rep_index path i rest q : T !! (path ++ i :: rest) = Some q → 0 ≤ i < 512.
Proof.
  intros Hq. rewrite cons_middle, (assoc_L (++)) in Hq. destruct (rep_ancestor _ _ _ Hq) as [y Hy].
  by destruct (rep_prefix _ _ _ Hr _ _ _ Hy).
Qed.

Lemma elem_of_tables d : ∀ path q,
  q ∈ tables T d path ↔ ∃ rest, (length rest < d)%nat ∧ T !! (path ++ rest) = Some q.
Proof.
  induction d as [|d IH]; intros path q; cbn [tables]; [rewrite elem_of_nil; split; [done|intros (? & ? & _); lia]|].
  destruct (T !! path) as [p|] eqn:Hp.
  - rewrite elem_of_app, list_elem_of_bind, list_elem_of_singleton. split.
    + intros [(i & Hq & Hi)| ->]; [|exists []; rewrite app_nil_r; split; [simpl; lia|done]].
      apply IH in Hq as (rest & Hl & Hq). exists (i :: rest). rewrite <- (assoc_L (++)) in Hq.
      split; [simpl; lia|done].
    + intros ([|i rest] & Hl & Hq); [right; rewrite app_nil_r in Hq; congruence|]. left.
      exists i. split; [|apply elem_of_seqZ; apply rep_index in Hq; lia].
      apply IH. exists rest. rewrite <- (assoc_L (++)). simpl in *. split; [lia|done].
  - rewrite elem_of_nil. split; [done|]. intros (rest & _ & Hq). apply rep_ancestor in Hq as [? ?]. congruence.
Qed.

Lemma NoDup_tables d : ∀ path, NoDup (tables T d path).
Proof.
  induction d as [|d IH]; intros path; cbn [tables]; [constructor|]. destruct (T !! path) as [p|] eqn:Hp; [|constructor].
  apply NoDup_app. split; [|split; [|apply NoDup_singleton]].
  - apply NoDup_bind; [|done|apply NoDup_seqZ]. intros i j q _ _ Hi Hj.
    apply elem_of_tables in Hi as (ri & _ & Hi), Hj as (rj & _ & Hj).
    pose proof (rep_inj _ _ _ Hr _ _ _ Hi Hj) as He. rewrite <- !(assoc_L (++)) in He.
    apply app_inv_head in He. by injection He.
  - intros q Hq. rewrite list_elem_of_singleton. intros ->. apply list_elem_of_bind in Hq as (i & Hq & _).
    apply elem_of_tables in Hq as (rest & _ & Hq). pose proof (rep_inj _ _ _ Hr _ _ _ Hp Hq) as He.
    apply (f_equal length) in He. rewrite !length_app in He. simpl in He. lia.
Qed.

Lemma all_tables q : q ∈ tables T 3 [] ↔ is_table T q.
Proof.
  rewrite elem_of_tables. split; [intros (rest & _ & Hq); by exists rest|].
  intros [path Hq]. exists path. split; [apply (rep_len _ _ _ Hr) in Hq; lia|done].
Qed.

(** ** freewalk() *)
Lemma table_pte_inner q : page_ok q →
  Z.land (Z.lor (PA2PTE q) PTE_V) (Z.lor (Z.lor PTE_R PTE_W) PTE_X) = 0.
Proof.
  intros Hq. apply page_ok_bounds in Hq.
  pose proof (PTE_FLAGS_pack q PTE_V ltac:(lia) ltac:(done)) as Hf. unfold PTE_FLAGS in Hf.
  change (Z.lor (Z.lor PTE_R PTE_W) PTE_X) with (Z.land 0x3FF 14). by rewrite Z.land_assoc, Hf.
Qed.

(** The loop of freewalk() over the entries of the table [p]. *)
Definition freewalk_step (d : nat) (p i : Z) : M (option unit) :=
  pte ← ld64 (p + 8 * i);
  if negb (Z.land pte PTE_V =? 0) && (Z.land pte (Z.lor (Z.lor PTE_R PTE_W) PTE_X) =? 0)
  then freewalk d (PTE2PA pte);; st64 (p + 8 * i) 0;; mret None
  else if negb (Z.land pte PTE_V =? 0) then panic "freewalk: leaf"
  else mret None.

Lemma freewalk_step_null d p i s :
  Z.land (load64 (mem s) (p + 8 * i)) PTE_V = 0 → freewalk_step d p i s = Ok None s.
Proof. intros He. unfold freewalk_step, ld64. rewrite bind_gets, He. done. Qed.

Lemma freewalk_step_table d p i q s s1 :
  page_ok q → load64 (mem s) (p + 8 * i) = Z.lor (PA2PTE q) PTE_V → freewalk d q s = Ok tt s1 →
  freewalk_step d p i s = Ok None (set_mem (store64 (mem s1) (p + 8 * i) 0) s1).
Proof.
  intros Hq He Hrun. unfold freewalk_step, ld64. rewrite bind_gets, He.
  rewrite table_pte_valid, table_pte_inner, table_pte_pa by done. cbn [negb andb Z.eqb].
  rewrite (bind_ok _ _ _ _ _ Hrun). reflexivity.
Qed.

(** No entry of a leaf table is valid. *)
Hypothesis Hhollow : ∀ path p i, T !! path = Some p → length path = 2%nat → 0 ≤ i < 512 →
  Z.land (load64 m0 (p + 8 * i)) PTE_V = 0.

Definition below (d : nat) (path : list Z) (k : Z) : list Z := seqZ 0 k ≫= λ i, tables T d (path ++ [i]).

Lemma below_S d path k : 0 ≤ k → below d path (k + 1) = below d path k ++ tables T d (path ++ [k]).
Proof.
  intros Hk. unfold below. rewrite (seqZ_app 0 k 1), bind_app by lia. f_equal.
  rewrite seqZ_cons by lia. change (seqZ _ (Z.pred 1)) with (@nil Z). rewrite Z.add_0_l. apply app_nil_r.
Qed.

Lemma elem_of_below d path k q : q ∈ below d path k →
  ∃ i rest, 0 ≤ i < k ∧ (length rest < d)%nat ∧ T !! (path ++ i :: rest) = Some q.
Proof.
  intros (i & Hq & Hi)%list_elem_of_bind. apply elem_of_seqZ in Hi.
  apply elem_of_tables in Hq as (rest & Hl & Hq). exists i, rest. rewrite <- (assoc_L (++)) in Hq.
  split; [lia|done].
Qed.

Lemma tables_not_below d path k q :
  q ∈ tables T d (path ++ [k]) → q ∉ below d path k.
Proof.
  intros Hq (i & ri & Hi & _ & Hb)%elem_of_below. apply elem_of_tables in Hq as (rest & _ & Hq).
  rewrite <- (assoc_L (++)) in Hq. pose proof (rep_inj _ _ _ Hr _ _ _ Hq Hb) as He.
  apply app_inv_head in He. injection He. lia.
Qed.

Lemma parent_not_below d path k p : T !! path = Some p → p ∉ below d path k.
Proof.
  intros Hp (i & ri & Hi & _ & Hb)%elem_of_below. pose proof (rep_inj _ _ _ Hr _ _ _ Hp Hb) as He.
  apply (f_equal length) in He. rewrite length_app in He. simpl in He. lia.
Qed.

Lemma below_page d path k : Forall page_ok (below d path k).
Proof.
  apply Forall_forall. intros q (i & ri & _ & _ & Hb)%elem_of_below. by eapply rep_ok.
Qed.

Section walk.
Variables (d : nat) (path : list Z) (p : Z) (s : kstate) (fl : list Z).
Hypothesis IH : ∀ path p s fl, (length path + d = 3)%nat → T !! path = Some p → lock_free LkKmem s →
  kmem_ok s fl → (∀ q, q ∈ tables T d path → q ∉ fl ∧ same_page q m0 (mem s)) →
  ∃ s', freewalk d p s = Ok tt s' ∧ freed [] (tables T d path) s fl s'.
Hypothesis Hlen : (length path + S d = 3)%nat.
Hypothesis Hp : T !! path = Some p.
Hypothesis Hlk : lock_free LkKmem s.
Hypothesis Hk : kmem_ok s fl.
Hypothesis Hin : ∀ q, q ∈ tables T (S d) path → q ∉ fl ∧ same_page q m0 (mem s).

Lemma child_in q k : 0 ≤ k < 512 → q ∈ tables T d (path ++ [k]) → q ∈ tables T (S d) path.
Proof.
  intros Hk' Hq. cbn [tables]. rewrite Hp. apply elem_of_app. left. apply list_elem_of_bind.
  exists k. split; [done|]. apply elem_of_seqZ. lia.
Qed.

Lemma self_in : p ∈ tables T (S d) path.
Proof. cbn [tables]. rewrite Hp. apply elem_of_app. right. by left. Qed.

(** Before entry [k]: the tables below the entries before it are free, the
    entries from [k] on are as they were. *)
Definition walked (k : Z) (s1 : kstate) : Prop :=
  freed [p] (below d path k) s fl s1 ∧
  ∀ j, k ≤ j < 512 → load64 (mem s1) (p + 8 * j) = load64 m0 (p + 8 * j).

Lemma walked_child k s1 q :
  0 ≤ k < 512 → walked k s1 → T !! (path ++ [k]) = Some q → (0 < d)%nat →
  ∃ s2, freewalk d q s1 = Ok tt s2 ∧ freed [p] (below d path (k + 1)) s fl s2 ∧
    same_page p (mem s1) (mem s2).
Proof.
  intros Hk' [Hf Hl] Hq Hd. pose proof (rep_ok _ _ _ Hr _ _ Hp) as Hpok.
  assert (Hpc : p ∉ tables T d (path ++ [k])).
  { intros (rest & _ & Hb)%elem_of_tables. pose proof (rep_inj _ _ _ Hr _ _ _ Hp Hb) as He.
    apply (f_equal length) in He. rewrite !length_app in He. simpl in He. lia. }
  destruct (IH (path ++ [k]) q s1 (reverse (below d path k) ++ fl)) as (s2 & Hrun & Hf2).
  - rewrite length_app. simpl. lia.
  - done.
  - eapply mframe_lock; [apply Hf|done].
  - apply Hf.
  - intros y Hy. pose proof (tables_not_below d path k y Hy) as Hn.
    destruct (Hin y (child_in y k Hk' Hy)) as [Hyf Hys].
    split; [rewrite elem_of_app, elem_of_reverse; tauto|].
    eapply same_page_trans; [exact Hys|]. apply (fd_same _ _ _ _ _ Hf); [| |done].
    + apply elem_of_tables in Hy as (rest & _ & Hy). by eapply rep_ok.
    + rewrite list_elem_of_singleton. by intros ->.
  - exists s2. split; [done|]. rewrite below_S by lia. split; [by eapply freed_app|].
    apply (fd_same _ _ _ _ _ Hf2); [done|apply not_elem_of_nil|done].
Qed.

Lemma walked_step k s1 :
  0 ≤ k < 512 → walked k s1 → ∃ s2, freewalk_step d p k s1 = Ok None s2 ∧ walked (k + 1) s2.
Proof.
  intros Hk' Hw. pose proof Hw as [Hf Hl]. pose proof (rep_ok _ _ _ Hr _ _ Hp) as Hpok.
  pose proof (Hl k ltac:(lia)) as He.
  destruct (decide (0 < d)%nat) as [Hd|Hd]; [destruct (T !! (path ++ [k])) as [q|] eqn:Hq|].
  - pose proof (rep_entry _ _ _ Hr path p k Hp ltac:(lia) Hk') as Hent. rewrite Hq in Hent.
    destruct (walked_child k s1 q Hk' Hw Hq Hd) as (s2 & Hrun & Hf2 & Hsp).
    eexists. split; [apply (freewalk_step_table d p k q s1 s2); [by eapply rep_ok|congruence|done]|]. split.
    + apply freed_store; [done|done|by apply parent_not_below|apply Hin, self_in|done|].
      apply Forall_app. split; [apply below_page|apply Hk].
    + intros j Hj. simpl. rewrite load64_same_page by lia.
      rewrite (same_page_load64 p j (mem s1)); [apply Hl; lia|lia|done].
  - exists s1. split.
    + apply freewalk_step_null. rewrite He.
      pose proof (rep_entry _ _ _ Hr path p k Hp ltac:(lia) Hk') as Hent. by rewrite Hq in Hent.
    + split; [|intros; apply Hl; lia]. rewrite below_S by lia.
      destruct d as [|d']; [lia|]. cbn [tables]. rewrite Hq, app_nil_r. done.
  - exists s1. split.
    + apply freewalk_step_null. rewrite He. apply (Hhollow path); [done|lia|done].
    + split; [|intros; apply Hl; lia]. rewrite below_S by lia.
      assert (d = 0%nat) as -> by lia. cbn [tables]. rewrite app_nil_r. done.
Qed.

Lemma freewalk_level : ∃ s', freewalk (S d) p s = Ok tt s' ∧ freed [] (tables T (S d) path) s fl s'.
Proof.
  destruct (for_each_seqZ walked (freewalk_step d p) 512 s) as (s1 & Hrun & Hf & _); [lia| |apply walked_step|].
  - split; [by apply freed_refl|]. intros j Hj.
    apply same_page_load64; [lia|]. apply Hin, self_in.
  - destruct (freed_kfree _ _ _ _ _ Hlk Hf) as (s2 & Hrun2 & Hf2).
    + by eapply rep_ok.
    + by apply parent_not_below.
    + apply Hin, self_in.
    + exists s2. cbn [tables]. rewrite Hp. split; [|exact Hf2].
      cbn [freewalk]. change (λ i : Z, _) with (freewalk_step d p) at 1.
      by rewrite (bind_ok _ _ _ _ _ Hrun).
Qed.
End walk.

Lemma freewalk_spec d : ∀ path p s fl, (length path + d = 3)%nat → T !! path = Some p →
  lock_free LkKmem s → kmem_ok s fl → (∀ q, q ∈ tables T d path → q ∉ fl ∧ same_page q m0 (mem s)) →
  ∃ s', freewalk d p s = Ok tt s' ∧ freed [] (tables T d path) s fl s'.
Proof.
  induction d as [|d IH]; intros path p s fl Hlen Hp Hlk Hk Hin.
  - pose proof (rep_len _ _ _ Hr _ _ Hp). lia.
  - by apply freewalk_level.
Qed.
End tables.

(** ** The pages of an address space *)
Definition owned (T : gmap (list Z) Z) (fl : list Z) (D : gmap Z Z) : list Z :=
  fl ++ (map_to_list T).*2 ++ (map_to_list D).*2.

Section owned.
Context `{EnvOk}.

Lemma elem_of_values {K} `{Countable K} (m : gmap K Z) q : q ∈ (map_to_list m).*2 ↔ ∃ k, m !! k = Some q.
Proof.
  rewrite list_elem_of_fmap. split.
  - intros ([k v] & -> & Hk%elem_of_map_to_list). by exists k.
  - intros [k Hk]. exists (k, q). by rewrite elem_of_map_to_list.
Qed.

Lemma NoDup_values {K} `{Countable K} (m : gmap K Z) :
  (∀ k k' q, m !! k = Some q → m !! k' = Some q → k = k') → NoDup (map_to_list m).*2.
Proof.
  intros Hinj. apply NoDup_fmap_2_strong; [|apply NoDup_map_to_list].
  intros [k v] [k' v'] Hk%elem_of_map_to_list Hk'%elem_of_map_to_list. simpl. intros <-. f_equal. by eapply Hinj.
Qed.

Lemma elem_of_owned T fl D x : x ∈ owned T fl D ↔ x ∈ fl ∨ is_table T x ∨ ∃ vpn, D !! vpn = Some x.
Proof. unfold owned. by rewrite !elem_of_app, !elem_of_values. Qed.

Lemma length_owned T fl D : length (owned T fl D) = pages T fl D.
Proof.
  unfold owned, pages. rewrite !length_app, !length_fmap, !length_map_to_list. lia.
Qed.

Lemma NoDup_owned s root T fl D : uspace s root T fl D → NoDup (owned T fl D).
Proof.
  intros [((Hnd & _) & Hr & Hdis) _ Hpg _ Hinj]. apply NoDup_app. split; [done|]. split.
  - intros x Hx. rewrite elem_of_app, !elem_of_values. intros [Ht|[vpn Hv]]; [by eapply Hdis|].
    by destruct (Hpg vpn x Hv) as (_ & ? & _).
  - apply NoDup_app. split; [apply NoDup_values, Hr|]. split; [|by apply NoDup_values].
    intros x. rewrite !elem_of_values. intros Ht [vpn Hv]. by destruct (Hpg vpn x Hv) as (_ & _ & ?).
Qed.

Lemma owned_page s root T fl D x : uspace s root T fl D → x ∈ owned T fl D → page_ok x.
Proof.
  intros [((_ & Hok & _) & Hr & _) _ Hpg _ _] [Hx|[[path Hx]|[vpn Hx]]]%elem_of_owned.
  - by eapply Forall_forall.
  - by eapply rep_ok.
  - by eapply Hpg.
Qed.

Lemma foreign_owned T fl D x : foreign T fl D x ↔ page_ok x ∧ x ∉ owned T fl D.
Proof.
  unfold foreign. rewrite elem_of_owned. split.
  - intros (? & ? & ? & HD). split; [done|]. intros [?|[?|[vpn ?]]]; [done|done|by eapply HD].
  - intros [? Hn]. split; [done|]. split; [tauto|]. split; [tauto|]. intros vpn Hv. apply Hn. eauto.
Qed.

(** A step that keeps the number of pages keeps the pages. *)
Lemma owned_perm s root T fl D s' root' T' fl' D' :
  uspace s root T fl D → uspace s' root' T' fl' D' → pages T' fl' D' = pages T fl D →
  (∀ x, foreign T fl D x → foreign T' fl' D' x) → owned T' fl' D' ≡ₚ owned T fl D.
Proof.
  intros Hu Hu' Hp Hfor. apply submseteq_length_Permutation; [|rewrite !length_owned; lia].
  apply NoDup_submseteq; [by eapply NoDup_owned|]. intros x Hx.
  destruct (decide (x ∈ owned T fl D)) as [|Hn]; [done|]. exfalso.
  assert (foreign T' fl' D' x) as Hf%foreign_owned; [|by apply Hf].
  apply Hfor, foreign_owned. split; [by eapply owned_page|done].
Qed.

Lemma urel_owned root R s T fl D s' T' fl' D' :
  uspace s root T fl D → urel root R s T fl D s' T' fl' D' → pages T' fl' D' = pages T fl D →
  owned T' fl' D' ≡ₚ owned T fl D.
Proof.
  intros Hu Hx Hp. eapply owned_perm; [done|apply Hx|done|]. intros x Hf. by apply (ur_foreign _ _ _ _ _ _ _ _ _ _ Hx).
Qed.

(** Every page of the address space went back to the free list. *)
Record returned (s : kstate) (T : gmap (list Z) Z) (fl : list Z) (D : gmap Z Z) (s' : kstate) (fl' : list Z) : Prop := {
  rt_ok : kmem_ok s' fl';
  rt_perm : fl' ≡ₚ owned T fl D;
  rt_frame : mframe s s';
  rt_same : ∀ x, foreign T fl D x → same_page x (mem s) (mem s');
}.

Lemma index_va i2 i1 i0 : 0 ≤ i2 < 256 → 0 ≤ i1 < 512 → 0 ≤ i0 < 512 →
  ∃ va, 0 ≤ va < MAXVA ∧ PX 2 va = i2 ∧ PX 1 va = i1 ∧ PX 0 va = i0.
Proof.
  intros. exists (i2 * 1073741824 + i1 * 2097152 + i0 * 4096). change MAXVA with 274877906944.
  rewrite !PX_eq by lia. change (2 ^ (12 + 9 * 2)) with 1073741824. change (2 ^ (12 + 9 * 1)) with 2097152.
  change (2 ^ (12 + 9 * 0)) with 4096. Z.div_mod_to_equations. lia.
Qed.

Lemma hollow root m T : pt_rep m root T → (∀ va, 0 ≤ va < MAXVA → Z.land (leaf m T va) PTE_V = 0) →
  ∀ path p i, T !! path = Some p → length path = 2%nat → 0 ≤ i < 512 →
  Z.land (load64 m (p + 8 * i)) PTE_V = 0.
Proof.
  intros Hr Hl [|i2 [|i1 [|]]] p i Hp; try done. intros _ Hi.
  destruct (index_va i2 i1 i) as (va & Hva & E2 & E1 & E0); [split| |done|].
  - by apply (rep_index m root T Hr [] i2 [i1] p).
  - by eapply rep_low.
  - by apply (rep_index m root T Hr [i2] i1 [] p).
  - specialize (Hl va Hva). unfold leaf in Hl. by rewrite E2, E1, E0, Hp in Hl.
Qed.

Lemma freewalk_all root s T fl :
  lock_free LkKmem s → uspace s root T fl ∅ → (∀ va, 0 ≤ va < MAXVA → Z.land (leaf (mem s) T va) PTE_V = 0) →
  ∃ s' fl', freewalk 3 root s = Ok tt s' ∧ returned s T fl ∅ s' fl'.
Proof.
  intros Hlk Hu Hl. pose proof (us_vm _ _ _ _ _ Hu) as (Hk & Hr & Hdis).
  destruct (freewalk_spec (mem s) root T Hr (hollow _ _ _ Hr Hl) 3 [] root s fl) as (s' & Hrun & Hf); try done.
  - by eapply rep_root.
  - intros q Hq. split; [|done]. apply Hdis. by eapply all_tables.
  - eexists s', _. split; [done|]. split; [apply Hf| |apply Hf|].
    + unfold owned. rewrite map_to_list_empty, app_nil_r. rewrite reverse_Permutation, (comm (++)).
      apply Permutation_app_head. apply NoDup_Permutation; [by eapply NoDup_tables|apply NoDup_values, Hr|].
      intros x. rewrite elem_of_values. by eapply all_tables.
    + intros x (Hx & _ & Ht & _). apply (fd_same _ _ _ _ _ Hf); [done|apply not_elem_of_nil|].
      intros Hin. apply Ht. by eapply all_tables.
Qed.

(** uvmfree() of a space that maps only its data. *)
Lemma uvmfree_spec root s T fl D sz :
  lock_free LkKmem s → uspace s root T fl D → 0 ≤ sz ≤ MAXVA →
  (∀ vpn, is_Some (D !! vpn) ↔ 0 ≤ vpn < npg sz) →
  (∀ va, 0 ≤ va < MAXVA → npg sz ≤ va / PGSIZE → Z.land (leaf (mem s) T va) PTE_V = 0) →
  ∃ s' fl', uvmfree root sz s = Ok tt s' ∧ returned s T fl D s' fl'.
Proof.
  intros Hlk Hu Hsz Hdom Hl. destruct (npg_roundup sz Hsz) as [Hup Hn]. unfold uvmfree.
  destruct (uvmunmap_range root 0 (Z.to_nat (npg sz)) s T fl D) as (s1 & fl1 & D1 & Hrun & Hx & Hun & Hp);
    [done|done|lia|lia| |].
  { intros vpn Hv. apply Hdom. unfold range in Hv. lia. }
  rewrite Z2Nat.id, Z.mul_0_l in Hrun by lia.
  assert (Hrun1 : (when (0 <? sz) (uvmunmap root 0 (PGROUNDUP sz / PGSIZE) true)) s = Ok tt s1).
  { rewrite Hup, (proj2 (page_addr _)). destruct (Z.ltb_spec 0 sz); [exact Hrun|].
    assert (npg sz = 0) as Hz by (assert (sz = 0) as -> by lia; done). rewrite Hz in Hrun.
    unfold uvmunmap in Hrun. rewrite <- Hrun. done. }
  assert (D1 = ∅) as ->.
  { apply map_empty. intros vpn. destruct (decide (range 0 (Z.to_nat (npg sz)) vpn)) as [Hin|Hin]; [by apply Hun|].
    rewrite (ur_keep _ _ _ _ _ _ _ _ _ _ Hx) by done. apply eq_None_not_Some. rewrite Hdom. unfold range in Hin. lia. }
  rewrite (bind_ok _ _ _ _ _ Hrun1).
  destruct (freewalk_all root s1 T fl1) as (s2 & fl2 & Hrun2 & [K2 P2 F2 S2]).
  - eapply mframe_lock; [apply Hx|done].
  - apply Hx.
  - intros va Hva. destruct (decide (va / PGSIZE < npg sz)) as [Hlt|Hge].
    + rewrite (leaf_vpn _ _ va (va / PGSIZE * PGSIZE)); [apply Hun|by rewrite (proj2 (page_addr _))].
      pose proof (vpn_range va Hva). unfold range. lia.
    + rewrite (ur_leaf _ _ _ _ _ _ _ _ _ _ Hx); [apply Hl; lia|done|unfold range; lia].
  - exists s2, fl2. split; [done|]. split; [done| |eapply mframe_trans; [apply Hx|done]|].
    + rewrite P2. by eapply urel_owned.
    + intros x Hf. destruct (ur_foreign _ _ _ _ _ _ _ _ _ _ Hx x Hf) as [Hf1 Hs1].
      eapply same_page_trans; [done|]. by apply S2.
Qed.
End owned.

(** ** Entries that own no page: the trampoline and the trapframe *)
Section entries.
Context `{EnvOk}.

Lemma urel_entry root s T fl D va p v :
  uspace s root T fl D → 0 ≤ va < MAXVA → T !! [PX 2 va; PX 1 va] = Some p → D !! (va / PGSIZE) = None →
  0 ≤ v < 2 ^ 64 → let s' := set_mem (store64 (mem s) (p + 8 * PX 0 va) v) s in
  urel root (λ vpn, vpn = va / PGSIZE) s T fl D s' T fl D ∧ leaf (mem s') T va = v.
Proof.
  intros Hu Hva Hp HD Hv s'. pose proof Hu as [Hvm Hvpn Hpg Hmap Hinj].
  destruct (leaf_store root s T fl va p v Hvm Hva Hp Hv) as [Hvm' Hleaf].
  assert (Hst : ∀ y, page_ok y → ¬ is_table T y → same_page y (mem s) (mem s'))
    by (intros; eapply leaf_store_page; try done; apply Hvm).
  split; [|subst s'; simpl; by rewrite Hleaf, decide_True]. split.
  - split; [done|done|done| |done]. intros vpn q Hq. subst s'. simpl.
    destruct (vpn_va vpn (Hvpn _ _ Hq)) as [Hr1 Hr2]. rewrite Hleaf, Hr2 by done.
    rewrite decide_False by (intros ->; congruence). by apply Hmap.
  - subst s'. unfold mframe. destruct s; kred; reflexivity.
  - intros va' Hva' Hne. subst s'. simpl. by rewrite Hleaf, decide_False.
  - done.
  - intros vpn q _ Hq. destruct (Hpg vpn q Hq) as (? & ? & ?). by apply Hst.
  - intros x Hx. split; [done|]. apply Hst; apply Hx.
Qed.

Lemma map_entry root s T fl D va pa perm :
  lock_free LkKmem s → uspace s root T fl D → 0 ≤ va < MAXVA → va mod PGSIZE = 0 →
  D !! (va / PGSIZE) = None → Z.land (leaf (mem s) T va) PTE_V = 0 → 0 ≤ pa < 2 ^ 56 → 0 ≤ perm < 1024 →
  ∃ r s' T' fl', mappages root va PGSIZE pa perm s = Ok r s' ∧
    urel root (λ vpn, vpn = va / PGSIZE) s T fl D s' T' fl' D ∧ pages T' fl' D = pages T fl D ∧
    ((r = -1 ∧ leaf (mem s') T' va = leaf (mem s) T va) ∨ (r = 0 ∧ leaf (mem s') T' va = new_pte pa perm)).
Proof.
  intros Hlk Hu Hva Hal HD Hinv Hpa Hperm.
  destruct (mappages_one root va pa perm s T fl Hlk (us_vm _ _ _ _ _ Hu) Hva Hal Hinv)
    as (s1 & T' & fl' & Hx & Hr).
  pose proof (urel_ext root (λ vpn, vpn = va / PGSIZE) s T fl s1 T' fl' D Hx Hu) as Hx1.
  assert (pages T' fl' D = pages T fl D) by (unfold pages; pose proof (ext_size _ _ _ _ _ _ _ Hx); lia).
  destruct Hr as [[-> Hrun]|(p & Hp & Hrun)].
  - exists (-1), s1, T', []. split; [done|]. split; [done|]. split; [done|]. left. split; [done|].
    by apply (ext_leaf _ _ _ _ _ _ _ Hx).
  - destruct (urel_entry root s1 T' fl' D va p (new_pte pa perm)) as [Hx2 Hl]; try done.
    + apply Hx1.
    + by apply new_pte_range.
    + eexists 0, _, T', fl'. split; [done|]. split; [by eapply urel_trans|]. split; [done|]. by right.
Qed.

Lemma unmap_entry root s T fl D va v :
  uspace s root T fl D → 0 ≤ va < MAXVA → va mod PGSIZE = 0 → D !! (va / PGSIZE) = None →
  leaf (mem s) T va = v → Z.land v PTE_V ≠ 0 → PTE_FLAGS v ≠ PTE_V →
  ∃ s', uvmunmap root va 1 false s = Ok tt s' ∧
    urel root (λ vpn, vpn = va / PGSIZE) s T fl D s' T fl D ∧ leaf (mem s') T va = 0.
Proof.
  intros Hu Hva Hal HD Hl Hv Hf. change MAXVA with 274877906944 in Hva.
  assert (Hlim : u64 (va + 1 * PGSIZE) = va + PGSIZE) by (apply u64_small; unfold PGSIZE; pow2; lia).
  destruct (uvmunmap_round root va (va + PGSIZE) s T fl false v) as (p & Hp & Hrun); try done.
  { apply Hu. } { unfold PGSIZE; lia. }
  destruct (urel_entry root s T fl D va p 0 Hu Hva Hp HD ltac:(pow2; lia)) as [Hx Hl'].
  eexists. split; [|split; [exact Hx|done]]. unfold uvmunmap. rewrite Hal, Hlim. cbn [negb Z.eqb].
  change (S (Z.to_nat 1)) with 2%nat. rewrite loop_S.
  assert (Hb : uvmunmap_body root (va + PGSIZE) false va s =
    Ok (inl (u64 (va + PGSIZE))) (set_mem (store64 (mem s) (p + 8 * PX 0 va) 0) s)) by (rewrite Hrun; reflexivity).
  rewrite (bind_ok _ _ _ _ _ Hb), loop_S. rewrite Z.mul_1_l in Hlim. rewrite Hlim.
  unfold uvmunmap_body. by rewrite Z.leb_refl.
Qed.
End entries.

(** ** The address space of a process *)
(** [proc_layout] leaves open whose page the trapframe is: freeproc() has given
    it back when it comes to the page table. *)
Record proc_layout `{Env} (s : kstate) (root : Z) (T : gmap (list Z) Z) (fl : list Z) (D : gmap Z Z)
    (sz tf : Z) : Prop := {
  pl_us : uspace s root T fl D;
  pl_sz : 0 ≤ sz ≤ TRAPFRAME;
  pl_dom : ∀ vpn, is_Some (D !! vpn) ↔ 0 ≤ vpn < npg sz;
  pl_tramp : leaf (mem s) T TRAMPOLINE = new_pte trampoline (Z.lor PTE_R PTE_X);
  pl_frame : leaf (mem s) T TRAPFRAME = new_pte tf (Z.lor PTE_R PTE_W);
  pl_tf : page_ok tf;
  pl_only : ∀ va, 0 ≤ va < MAXVA → Z.land (leaf (mem s) T va) PTE_V ≠ 0 →
    va / PGSIZE < npg sz ∨ va / PGSIZE = TRAPFRAME / PGSIZE ∨ va / PGSIZE = TRAMPOLINE / PGSIZE;
}.

Definition proc_space `{Env} (s : kstate) (root : Z) (T : gmap (list Z) Z) (fl : list Z) (D : gmap Z Z)
    (sz tf : Z) : Prop :=
  proc_layout s root T fl D sz tf ∧ foreign T fl D tf.

(** Only memory and the free list changed, and of the pages only those of [L]. *)
Definition aside `{Env} (L : list Z) (s s' : kstate) : Prop :=
  mframe s s' ∧ ∀ x, page_ok x → x ∉ L → same_page x (mem s) (mem s').

Section space.
Context `{EnvOk}.

Lemma top_pages : TRAPFRAME / PGSIZE = VPNS - 2 ∧ TRAMPOLINE / PGSIZE = VPNS - 1 ∧
  TRAPFRAME mod PGSIZE = 0 ∧ TRAMPOLINE mod PGSIZE = 0 ∧ 0 ≤ TRAPFRAME < MAXVA ∧ 0 ≤ TRAMPOLINE < MAXVA.
Proof. done. Qed.

Lemma npg_top sz : sz ≤ TRAPFRAME → npg sz ≤ TRAPFRAME / PGSIZE.
Proof. intros Hs%npg_mono. by change (npg TRAPFRAME) with (TRAPFRAME / PGSIZE) in Hs. Qed.

Lemma aside_refl L s : aside L s s.
Proof. split; [apply mframe_refl|done]. Qed.

Lemma aside_trans L L' s1 s2 s3 : L' ≡ₚ L → aside L s1 s2 → aside L' s2 s3 → aside L s1 s3.
Proof.
  intros HL [F1 S1] [F2 S2]. split; [by eapply mframe_trans|]. intros x Hx Hn.
  eapply same_page_trans; [by apply S1|]. apply S2; [done|]. by rewrite HL.
Qed.

Lemma aside_urel root R s T fl D s' T' fl' D' :
  urel root R s T fl D s' T' fl' D' → aside (owned T fl D) s s'.
Proof.
  intros Hx. split; [apply Hx|]. intros x Hp Hn. apply (ur_foreign _ _ _ _ _ _ _ _ _ _ Hx). by apply foreign_owned.
Qed.

Lemma aside_returned s T fl D s' fl' : returned s T fl D s' fl' → aside (owned T fl D) s s'.
Proof. intros [_ _ F S]. split; [done|]. intros x Hp Hn. apply S. by apply foreign_owned. Qed.

(** A page taken and zeroed is an empty root table. *)
Lemma new_root s r fl : lock_free LkKmem s → kmem_ok s (r :: fl) →
  ∃ s1, kalloc s = Ok r s1 ∧ r ≠ 0 ∧ let s' := set_mem (memset (mem s1) r 0 PGBYTES) s1 in
    aside (r :: fl) s s' ∧ uspace s' r {[ [] := r ]} fl ∅.
Proof.
  intros Hlk Hk. destruct (kalloc_spec s (r :: fl) Hlk Hk) as (Hrun & Hk1 & Hp & Hn).
  set (s1 := set_freelist _ _) in *. exists s1. split; [done|]. split; [pose proof (page_ok_bounds r Hp); lia|].
  assert (Hso : same_outside r (mem s) (memset (mem s1) r 0 PGBYTES)).
  { eapply same_outside_trans; [|apply same_outside_memset]. apply same_outside_memset. }
  split.
  { split; [subst s1; unfold mframe; destruct s; kred; reflexivity|]. intros x Hx Hxn.
    apply (same_outside_page r); [done|done| |done]. intros ->. apply Hxn. by left. }
  split; [|by intros; simplify_map_eq..]. split; [|split].
  - eapply kmem_ok_ext; [..|exact Hk1]; [done|]. intros q Hq Hqok. simpl.
    apply (same_outside_load64 r); [apply same_outside_memset|]. assert (q ≠ r) by (intros ->; done).
    destruct (pages_disjoint q r (proj1 Hqok) (proj1 Hp)); unfold PGSIZE in *; try done; lia.
  - split.
    + apply lookup_singleton_eq.
    + by intros path p [<- <-]%lookup_singleton_Some.
    + intros path p [<- <-]%lookup_singleton_Some. simpl. lia.
    + by intros path path' p [<- _]%lookup_singleton_Some [<- _]%lookup_singleton_Some.
    + intros path p i [<- <-]%lookup_singleton_Some _ Hi. simpl. rewrite lookup_singleton_ne by done.
      rewrite load64_memset0; [done|rewrite ?PGBYTES_Z; unfold PGSIZE; lia..].
    + intros path i q [Hq _]%lookup_singleton_Some. by destruct path.
    + by intros i path q [Hq _]%lookup_singleton_Some.
  - by intros p [path [_ <-]%lookup_singleton_Some].
Qed.

(** uvmcreate(): an empty root table, or 0. *)
Lemma uvmcreate_spec s fl : lock_free LkKmem s → kmem_ok s fl →
  ∃ r s', uvmcreate s = Ok r s' ∧ aside fl s s' ∧
    ((r = 0 ∧ s' = s ∧ fl = []) ∨
     (∃ fl', fl = r :: fl' ∧ uspace s' r {[ [] := r ]} fl' ∅)).
Proof.
  intros Hlk Hk. unfold uvmcreate. destruct fl as [|r fl].
  - exists 0, s. rewrite (bind_ok _ _ _ _ _ (kalloc_spec s [] Hlk Hk)).
    split; [done|]. split; [apply aside_refl|by left].
  - destruct (new_root s r fl Hlk Hk) as (s1 & Hrun & Hr & Ha & Hu).
    eexists r, _. rewrite (bind_ok _ _ _ _ _ Hrun), (proj2 (Z.eqb_neq _ _) Hr). split; [reflexivity|].
    split; [exact Ha|]. right. by exists fl.
Qed.

Notation valid v := (Z.land v PTE_V ≠ 0).
Notation at_page va := (λ vpn, vpn = va / PGSIZE).

(** The valid entries after a step that concerns one page. *)
Lemma urel_valid root s T fl D s' T' fl' D' va0 va :
  urel root (at_page va0) s T fl D s' T' fl' D' → 0 ≤ va < MAXVA → valid (leaf (mem s') T' va) →
  (va / PGSIZE = va0 / PGSIZE ∧ valid (leaf (mem s') T' va0)) ∨
  (va / PGSIZE ≠ va0 / PGSIZE ∧ valid (leaf (mem s) T va)).
Proof.
  intros Hx Hva Hv. destruct (decide (va / PGSIZE = va0 / PGSIZE)) as [He|Hn].
  - left. by rewrite (leaf_vpn _ _ va va0) in Hv.
  - right. by rewrite (ur_leaf _ _ _ _ _ _ _ _ _ _ Hx) in Hv.
Qed.

Lemma uvmfree_empty root s T fl :
  lock_free LkKmem s → uspace s root T fl ∅ → (∀ va, 0 ≤ va < MAXVA → ¬ valid (leaf (mem s) T va)) →
  ∃ s' fl', uvmfree root 0 s = Ok tt s' ∧ returned s T fl ∅ s' fl'.
Proof.
  intros Hlk Hu Hl. apply uvmfree_spec; [done|done|done| |].
  - intros vpn. rewrite lookup_empty. change (npg 0) with 0. split; [by intros [? ?]|lia].
  - intros va Hva _. apply dec_stable, Hl, Hva.
Qed.

Lemma top_pte pa perm : 0 ≤ pa < 2 ^ 56 → perm = Z.lor PTE_R PTE_X ∨ perm = Z.lor PTE_R PTE_W →
  0 ≤ perm < 1024 ∧ valid (new_pte pa perm) ∧ PTE_FLAGS (new_pte pa perm) ≠ PTE_V.
Proof.
  intros Hpa Hperm. assert (0 ≤ perm < 1024) as Hr by (by destruct Hperm as [-> | ->]).
  rewrite new_pte_valid, new_pte_flags by done. by destruct Hperm as [-> | ->].
Qed.

Lemma tramp_pa : 0 ≤ trampoline < 2 ^ 56.
Proof. pose proof env_tramp_range. pose proof env_end. unfold PHYSTOP, KERNBASE in *. pow2. lia. Qed.

(** proc_freepagetable() *)
Lemma unmap_top root s T fl D va v sz :
  uspace s root T fl D → 0 ≤ sz ≤ TRAPFRAME → (∀ vpn, is_Some (D !! vpn) ↔ 0 ≤ vpn < npg sz) →
  va = TRAMPOLINE ∨ va = TRAPFRAME → leaf (mem s) T va = v → valid v → PTE_FLAGS v ≠ PTE_V →
  ∃ s', uvmunmap root va 1 false s = Ok tt s' ∧ urel root (at_page va) s T fl D s' T fl D ∧ leaf (mem s') T va = 0.
Proof.
  intros Hu Hsz Hdom Hva Hl Hv Hf. pose proof top_pages as (E1 & E2 & A1 & A2 & R1 & R2).
  pose proof (npg_top sz ltac:(lia)). eapply unmap_entry; try done.
  - by destruct Hva as [-> | ->].
  - by destruct Hva as [-> | ->].
  - apply eq_None_not_Some. rewrite Hdom. destruct Hva as [-> | ->]; lia.
Qed.

Lemma proc_freepagetable_spec root s T fl D sz tf :
  lock_free LkKmem s → proc_layout s root T fl D sz tf →
  ∃ s' fl', proc_freepagetable root sz s = Ok tt s' ∧ kmem_ok s' fl' ∧ fl' ≡ₚ owned T fl D ∧
    aside (owned T fl D) s s'.
Proof.
  intros Hlk [Hu Hsz Hdom Htr Htf Hfor Hon]. pose proof top_pages as (E1 & E2 & A1 & A2 & R1 & R2).
  pose proof (page_ok_bounds tf Hfor) as Hb.
  destruct (top_pte trampoline _ tramp_pa (or_introl eq_refl)) as (_ & V1 & F1).
  destruct (top_pte tf _ ltac:(lia) (or_intror eq_refl)) as (_ & V2 & F2).
  destruct (unmap_top root s T fl D TRAMPOLINE _ sz Hu Hsz Hdom (or_introl eq_refl) Htr V1 F1) as (s1 & Hrun1 & X1 & L1).
  assert (Htf1 : leaf (mem s1) T TRAPFRAME = new_pte tf (Z.lor PTE_R PTE_W)).
  { rewrite (ur_leaf _ _ _ _ _ _ _ _ _ _ X1); [done|done|]. rewrite E1, E2. lia. }
  destruct (unmap_top root s1 T fl D TRAPFRAME _ sz (ur_ok _ _ _ _ _ _ _ _ _ _ X1) Hsz Hdom (or_intror eq_refl) Htf1 V2 F2)
    as (s2 & Hrun2 & X2 & L2).
  destruct (uvmfree_spec root s2 T fl D sz) as (s3 & fl3 & Hrun3 & R3).
  - eapply mframe_lock; [apply X2|]. eapply mframe_lock; [apply X1|done].
  - apply X2.
  - split; [lia|]. etrans; [apply Hsz|]. done.
  - done.
  - intros va Hva Hge. apply dec_stable. intros Hv.
    destruct (urel_valid _ _ _ _ _ _ _ _ _ _ _ X2 Hva Hv) as [[_ Hv']|[N2 Hv']]; [by rewrite L2 in Hv'|].
    destruct (urel_valid _ _ _ _ _ _ _ _ _ _ _ X1 Hva Hv') as [[_ Hv1]|[N1 Hv1]]; [by rewrite L1 in Hv1|].
    destruct (Hon va Hva Hv1) as [?|[?|?]]; [lia|done|done].
  - exists s3, fl3. split; [|split; [apply R3|split; [apply R3|]]].
    + unfold proc_freepagetable. by rewrite (bind_ok _ _ _ _ _ Hrun1), (bind_ok _ _ _ _ _ Hrun2).
    + eapply aside_trans; [done| |by eapply aside_returned].
      eapply aside_trans; [done|by eapply aside_urel|by eapply aside_urel].
Qed.

(** ** proc_pagetable() *)
Lemma map_top root s T fl va pa perm :
  lock_free LkKmem s → uspace s root T fl ∅ → va = TRAMPOLINE ∨ va = TRAPFRAME →
  ¬ valid (leaf (mem s) T va) → 0 ≤ pa < 2 ^ 56 → perm = Z.lor PTE_R PTE_X ∨ perm = Z.lor PTE_R PTE_W →
  ∃ r s' T' fl', mappages root va PGSIZE pa perm s = Ok r s' ∧ lock_free LkKmem s' ∧
    urel root (at_page va) s T fl ∅ s' T' fl' ∅ ∧ owned T' fl' ∅ ≡ₚ owned T fl ∅ ∧ aside (owned T fl ∅) s s' ∧
    ((r = -1 ∧ ¬ valid (leaf (mem s') T' va)) ∨ (r = 0 ∧ leaf (mem s') T' va = new_pte pa perm)).
Proof.
  intros Hlk Hu Hva Hl Hpa Hperm. pose proof top_pages as (E1 & E2 & A1 & A2 & R1 & R2).
  destruct (map_entry root s T fl ∅ va pa perm) as (r & s' & T' & fl' & Hrun & Hx & Hp & Hc); try done.
  - by destruct Hva as [-> | ->].
  - by destruct Hva as [-> | ->].
  - by apply dec_stable.
  - by destruct (top_pte pa perm Hpa Hperm).
  - exists r, s', T', fl'. split; [done|]. split; [eapply mframe_lock; [apply Hx|done]|]. split; [done|].
    split; [by eapply urel_owned|]. split; [by eapply aside_urel|].
    destruct Hc as [[? ->]|?]; [by left|by right].
Qed.

(** The two failure paths: what was built is given back. *)
Lemma undo_root root s T fl : lock_free LkKmem s → uspace s root T fl ∅ →
  (∀ va, 0 ≤ va < MAXVA → ¬ valid (leaf (mem s) T va)) →
  ∃ s' fl', (uvmfree root 0;; mret 0) s = Ok 0 s' ∧ kmem_ok s' fl' ∧ fl' ≡ₚ owned T fl ∅ ∧
    aside (owned T fl ∅) s s'.
Proof.
  intros Hlk Hu Hl. destruct (uvmfree_empty root s T fl Hlk Hu Hl) as (s' & fl' & Hrun & Hr).
  exists s', fl'. rewrite (bind_ok _ _ _ _ _ Hrun). split; [done|]. split; [apply Hr|].
  split; [apply Hr|by eapply aside_returned].
Qed.

Lemma undo_tramp root s T fl : lock_free LkKmem s → uspace s root T fl ∅ →
  leaf (mem s) T TRAMPOLINE = new_pte trampoline (Z.lor PTE_R PTE_X) →
  (∀ va, 0 ≤ va < MAXVA → valid (leaf (mem s) T va) → va / PGSIZE = TRAMPOLINE / PGSIZE) →
  ∃ s' fl', (uvmunmap root TRAMPOLINE 1 false;; uvmfree root 0;; mret 0) s = Ok 0 s' ∧
    kmem_ok s' fl' ∧ fl' ≡ₚ owned T fl ∅ ∧ aside (owned T fl ∅) s s'.
Proof.
  intros Hlk Hu Htr Hl. destruct (top_pte trampoline _ tramp_pa (or_introl eq_refl)) as (_ & V1 & F1).
  destruct (unmap_top root s T fl ∅ TRAMPOLINE (new_pte trampoline (Z.lor PTE_R PTE_X)) 0 Hu)
    as (s1 & Hrun1 & X1 & L1); try done; [|by left|].
  { intros vpn. rewrite lookup_empty. change (npg 0) with 0. split; [by intros [? ?]|lia]. }
  destruct (undo_root root s1 T fl) as (s2 & fl2 & Hrun2 & K2 & P2 & A2).
  - eapply mframe_lock; [apply X1|done].
  - apply X1.
  - intros va Hva Hv. destruct (urel_valid _ _ _ _ _ _ _ _ _ _ _ X1 Hva Hv) as [[_ Hv']|[N1 Hv']].
    + by rewrite L1 in Hv'.
    + apply N1. by apply Hl.
  - exists s2, fl2. rewrite (bind_ok _ _ _ _ _ Hrun1). split; [done|]. split; [done|]. split; [done|].
    exact (aside_trans _ _ _ _ _ (reflexivity _) (aside_urel _ _ _ _ _ _ _ _ _ _ X1) A2).
Qed.

Lemma proc_pagetable_built root s T fl s1 T1 fl1 s2 T2 fl2 tf :
  uspace s root T fl ∅ → (∀ va, 0 ≤ va < MAXVA → ¬ valid (leaf (mem s) T va)) →
  urel root (at_page TRAMPOLINE) s T fl ∅ s1 T1 fl1 ∅ →
  leaf (mem s1) T1 TRAMPOLINE = new_pte trampoline (Z.lor PTE_R PTE_X) →
  urel root (at_page TRAPFRAME) s1 T1 fl1 ∅ s2 T2 fl2 ∅ →
  leaf (mem s2) T2 TRAPFRAME = new_pte tf (Z.lor PTE_R PTE_W) → foreign T fl ∅ tf →
  proc_space s2 root T2 fl2 ∅ 0 tf.
Proof.
  intros Hu Hl X1 L1 X2 L2 Hf. pose proof top_pages as (E1 & E2 & A1 & A2 & R1 & R2).
  split; [|apply (ur_foreign _ _ _ _ _ _ _ _ _ _ X2), (ur_foreign _ _ _ _ _ _ _ _ _ _ X1), Hf]. split.
  - apply X2.
  - lia.
  - intros vpn. rewrite lookup_empty. change (npg 0) with 0. split; [by intros [? ?]|lia].
  - rewrite (ur_leaf _ _ _ _ _ _ _ _ _ _ X2); [done|done|]. rewrite E1, E2. lia.
  - done.
  - apply Hf.
  - intros va Hva Hv. right.
    destruct (urel_valid _ _ _ _ _ _ _ _ _ _ _ X2 Hva Hv) as [[He _]|[_ Hv']]; [by left|].
    destruct (urel_valid _ _ _ _ _ _ _ _ _ _ _ X1 Hva Hv') as [[He _]|[_ Hv1]]; [by right|].
    by apply Hl in Hv1.
Qed.

(** The outcome of proc_pagetable(): 0 with every page given back, or the page
    table of an empty process. *)
Definition built (L : list Z) (tf : Z) (s : kstate) (r : Z) (s' : kstate) : Prop :=
  aside L s s' ∧
  ((r = 0 ∧ ∃ fl', kmem_ok s' fl' ∧ fl' ≡ₚ L) ∨
   (r ≠ 0 ∧ ∃ T fl', proc_space s' r T fl' ∅ 0 tf ∧ owned T fl' ∅ ≡ₚ L)).

Lemma built_from L L' tf s s1 r s' : L' ≡ₚ L → aside L s s1 → built L' tf s1 r s' → built L tf s r s'.
Proof.
  intros HL Ha [Hb Hc]. split; [by eapply aside_trans|].
  destruct Hc as [(-> & fl' & Hk & Hp)|(Hr & T & fl' & Hsp & Hp)]; [left|right]; (split; [done|]).
  - exists fl'. by rewrite <- HL.
  - exists T, fl'. by rewrite <- HL.
Qed.

Lemma space_frame root s T fl s1 T1 fl1 tf :
  root ≠ 0 → lock_free LkKmem s1 →
  uspace s root T fl ∅ → (∀ va, 0 ≤ va < MAXVA → ¬ valid (leaf (mem s) T va)) → foreign T fl ∅ tf →
  urel root (at_page TRAMPOLINE) s T fl ∅ s1 T1 fl1 ∅ →
  leaf (mem s1) T1 TRAMPOLINE = new_pte trampoline (Z.lor PTE_R PTE_X) →
  ∃ r s', (r ← mappages root TRAPFRAME PGSIZE tf (Z.lor PTE_R PTE_W);
    if r <? 0 then uvmunmap root TRAMPOLINE 1 false;; uvmfree root 0;; mret 0 else mret root) s1 = Ok r s' ∧
    built (owned T1 fl1 ∅) tf s1 r s'.
Proof.
  intros Hr0 Hlk Hu Hl Hf X1 L1. pose proof top_pages as (E1 & E2 & A1 & A2 & R1 & R2).
  pose proof (page_ok_bounds tf (proj1 Hf)) as Hb.
  assert (Hon : ∀ va, 0 ≤ va < MAXVA → valid (leaf (mem s1) T1 va) → va / PGSIZE = TRAMPOLINE / PGSIZE).
  { intros va Hva Hv. destruct (urel_valid _ _ _ _ _ _ _ _ _ _ _ X1 Hva Hv) as [[? _]|[_ ?]]; [done|by apply Hl in Hva]. }
  destruct (map_top root s1 T1 fl1 TRAPFRAME tf (Z.lor PTE_R PTE_W) Hlk (ur_ok _ _ _ _ _ _ _ _ _ _ X1) (or_intror eq_refl))
    as (r2 & s2 & T2 & fl2 & Hrun2 & Hlk2 & X2 & P2 & D2 & C2); [|lia|by right|].
  { intros Hv. apply Hon in Hv; [|done]. rewrite E1, E2 in Hv. lia. }
  rewrite (bind_ok _ _ _ _ _ Hrun2). destruct C2 as [[-> C2]|[-> C2]].
  - destruct (undo_tramp root s2 T2 fl2) as (s3 & fl3 & Hrun3 & K3 & P3 & D3); [done|apply X2| | |].
    + rewrite (ur_leaf _ _ _ _ _ _ _ _ _ _ X2); [done|done|]. rewrite E1, E2. lia.
    + intros va Hva Hv. destruct (urel_valid _ _ _ _ _ _ _ _ _ _ _ X2 Hva Hv) as [[_ ?]|[_ ?]]; [done|by apply Hon].
    + exists 0, s3. split; [exact Hrun3|]. split; [by eapply aside_trans|].
      left. split; [done|]. exists fl3. split; [done|]. by rewrite P3, P2.
  - exists root, s2. split; [done|]. split; [done|]. right. split; [done|]. exists T2, fl2. split; [|done].
    by eapply (proc_pagetable_built root s).
Qed.

Lemma proc_pagetable_spec i s fl tf :
  lock_free LkKmem s → kmem_ok s fl → p_trapframe (procs s !!! i) = tf → page_ok tf → tf ∉ fl →
  ∃ r s', proc_pagetable i s = Ok r s' ∧ built fl tf s r s'.
Proof.
  intros Hlk Hk Htf Hok Hn. unfold proc_pagetable.
  destruct (uvmcreate_spec s fl Hlk Hk) as (r & s0 & Hrun & Ha & [(-> & -> & ->)|(fl0 & -> & U0)]);
    rewrite (bind_ok _ _ _ _ _ Hrun).
  { exists 0, s. split; [done|]. split; [done|]. left. split; [done|]. by exists []. }
  assert (Hrok : page_ok r) by (eapply rep_ok; [apply U0|apply lookup_singleton_eq]).
  apply page_ok_bounds in Hrok. rewrite (proj2 (Z.eqb_neq _ _)) by lia.
  assert (P0 : owned {[ [] := r ]} fl0 ∅ ≡ₚ r :: fl0).
  { unfold owned. rewrite map_to_list_singleton, map_to_list_empty. simpl. by rewrite (comm (++)). }
  assert (L0 : ∀ va, 0 ≤ va < MAXVA → ¬ valid (leaf (mem s0) {[ [] := r ]} va)).
  { intros va _. unfold leaf. rewrite lookup_singleton_ne by done. intros Hv. by apply Hv. }
  assert (Hlk0 : lock_free LkKmem s0) by (eapply mframe_lock; [apply Ha|done]).
  destruct (map_top r s0 {[ [] := r ]} fl0 TRAMPOLINE trampoline _ Hlk0 U0 (or_introl eq_refl) (L0 TRAMPOLINE ltac:(done))
    tramp_pa (or_introl eq_refl)) as (r1 & s1 & T1 & fl1 & Hrun1 & Hlk1 & X1 & P1 & D1 & C1).
  rewrite (bind_ok _ _ _ _ _ Hrun1). pose proof (aside_trans _ _ _ _ _ P0 Ha D1) as Ha1.
  assert (PP : owned T1 fl1 ∅ ≡ₚ r :: fl0) by by rewrite P1, P0.
  destruct C1 as [[-> C1]|[-> C1]]; cbn [Z.ltb Z.compare].
  - destruct (undo_root r s1 T1 fl1 Hlk1 (ur_ok _ _ _ _ _ _ _ _ _ _ X1)) as (s2 & fl2 & Hrun2 & K2 & P2 & D2).
    { intros va Hva Hv. destruct (urel_valid _ _ _ _ _ _ _ _ _ _ _ X1 Hva Hv) as [[_ ?]|[_ ?]]; [done|by eapply L0]. }
    exists 0, s2. split; [done|]. eapply built_from; [exact PP|exact Ha1|]. split; [done|]. left. eauto.
  - unfold get_proc. rewrite bind_gets.
    assert (p_trapframe (procs s1 !!! i) = tf) as -> by (rewrite (proj1 Ha1); by destruct s).
    destruct (space_frame r s0 {[ [] := r ]} fl0 s1 T1 fl1 tf) as (r2 & s2 & Hrun2 & Hb2); try done; [lia| |].
    { apply foreign_owned. by rewrite P0. }
    exists r2, s2. split; [done|]. by eapply built_from.
Qed.

(** ** Growing and shrinking *)
Lemma space_urel root R s T fl D s' T' fl' D' sz sz' tf :
  proc_space s root T fl D sz tf → urel root R s T fl D s' T' fl' D' →
  (∀ vpn, R vpn → 0 ≤ vpn < TRAPFRAME / PGSIZE) → 0 ≤ sz' ≤ TRAPFRAME →
  (∀ vpn, is_Some (D' !! vpn) ↔ 0 ≤ vpn < npg sz') →
  (∀ vpn, R vpn → vpn < npg sz' ∨ ¬ valid (leaf (mem s') T' (vpn * PGSIZE))) →
  (∀ vpn, ¬ R vpn → vpn < npg sz → vpn < npg sz') → (∀ vpn, Decision (R vpn)) →
  proc_space s' root T' fl' D' sz' tf.
Proof.
  intros [[Hu Hsz Hdom Htr Htf Htp Hon] Hfor] Hx HR Hsz' Hdom' Hnew Hkeep Hdec.
  pose proof top_pages as (E1 & E2 & A1 & A2 & R1 & R2).
  split; [|by apply (ur_foreign _ _ _ _ _ _ _ _ _ _ Hx)]. split; [apply Hx|done|done| | |done|].
  - rewrite (ur_leaf _ _ _ _ _ _ _ _ _ _ Hx); [done|done|]. intros HR'%HR. lia.
  - rewrite (ur_leaf _ _ _ _ _ _ _ _ _ _ Hx); [done|done|]. intros HR'%HR. lia.
  - intros va Hva Hv. destruct (Hdec (va / PGSIZE)) as [Hr|Hr].
    + destruct (Hnew _ Hr) as [?|Hn]; [by left|]. exfalso. apply Hn.
      by rewrite (leaf_vpn _ _ _ va) by apply page_addr.
    + rewrite (ur_leaf _ _ _ _ _ _ _ _ _ _ Hx) in Hv by done.
      destruct (Hon va Hva Hv) as [?|?]; [left; by apply Hkeep|by right].
Qed.

#[local] Instance range_dec v n vpn : Decision (range v n vpn).
Proof. unfold range. apply _. Defined.

(** What a change of size keeps: the pages below both sizes, and the pages the
    kernel holds outside the address space. *)
Definition resized (k : Z) (s : kstate) (T : gmap (list Z) Z) (fl : list Z) (D : gmap Z Z)
    (s' : kstate) (T' : gmap (list Z) Z) (fl' : list Z) (D' : gmap Z Z) : Prop :=
  owned T' fl' D' ≡ₚ owned T fl D ∧ aside (owned T fl D) s s' ∧
  ∀ vpn p, vpn < k → D !! vpn = Some p →
    D' !! vpn = Some p ∧ same_page p (mem s) (mem s') ∧
    leaf (mem s') T' (vpn * PGSIZE) = leaf (mem s) T (vpn * PGSIZE).

Lemma urel_resized root R s T fl D s' T' fl' D' k :
  uspace s root T fl D → urel root R s T fl D s' T' fl' D' → pages T' fl' D' = pages T fl D →
  (∀ vpn, vpn < k → ¬ R vpn) → resized k s T fl D s' T' fl' D'.
Proof.
  intros Hu Hx Hp HR. split; [by eapply urel_owned|]. split; [by eapply aside_urel|].
  intros vpn p Hk HD. specialize (HR vpn Hk). rewrite (ur_keep _ _ _ _ _ _ _ _ _ _ Hx) by done.
  split; [done|]. split; [by eapply (ur_data _ _ _ _ _ _ _ _ _ _ Hx)|].
  destruct (vpn_va vpn (us_vpn _ _ _ _ _ Hu _ _ HD)) as [Hr1 Hr2].
  apply (ur_leaf _ _ _ _ _ _ _ _ _ _ Hx); [done|by rewrite Hr2].
Qed.

Lemma space_grow root s T fl D sz new tf :
  lock_free LkKmem s → proc_space s root T fl D sz tf → sz ≤ new ≤ TRAPFRAME →
  ∃ r s' T' fl' D', uvmalloc root sz new s = Ok r s' ∧ resized (npg sz) s T fl D s' T' fl' D' ∧
    ((r = new ∧ proc_space s' root T' fl' D' new tf ∧
      ∀ vpn, npg sz ≤ vpn < npg new → fresh (mem s') T' D' vpn) ∨
     (r = 0 ∧ proc_space s' root T' fl' D' sz tf)).
Proof.
  intros Hlk Hps Hn. pose proof Hps as [[Hu Hsz Hdom Htr Htf Htp Hon] Hfor].
  pose proof top_pages as (E1 & E2 & A1 & A2 & R1 & R2).
  pose proof (npg_mono sz new ltac:(lia)) as Hm. pose proof (npg_mono 0 sz ltac:(lia)) as Hz.
  change (npg 0) with 0 in Hz. pose proof (npg_top new ltac:(lia)) as Ht.
  destruct (uvmalloc_range root sz new s T fl D) as (r & s' & T' & fl' & D' & Hrun & Hx & Hp & Hc); try done; [lia|lia| |].
  { intros vpn Hr. unfold range in Hr. split; [apply eq_None_not_Some; rewrite Hdom; lia|].
    apply dec_stable. intros Hv. apply Hon in Hv; [|apply vpn_va; lia].
    rewrite (proj2 (page_addr vpn)) in Hv. lia. }
  exists r, s', T', fl', D'. split; [done|]. split.
  { eapply urel_resized; [done|done|done|]. unfold range. lia. }
  assert (HR : ∀ vpn, range (npg sz) (Z.to_nat (npg new - npg sz)) vpn → 0 ≤ vpn < TRAPFRAME / PGSIZE)
    by (unfold range; lia).
  destruct Hc as [[-> Hf]|(-> & -> & Hun)]; [left|right]; (split; [done|]).
  - split; [|intros vpn Hv; apply Hf; unfold range; lia].
    eapply space_urel; try done; [lia| | | |apply _].
    + intros vpn. destruct (decide (range (npg sz) (Z.to_nat (npg new - npg sz)) vpn)) as [Hr|Hr].
      * destruct (Hf vpn Hr) as (p & -> & _). unfold range in Hr. split; [lia|by eexists].
      * rewrite (ur_keep _ _ _ _ _ _ _ _ _ _ Hx), Hdom by done. unfold range in Hr. lia.
    + unfold range. left. lia.
    + unfold range. lia.
  - eapply space_urel; try done; [|apply _]. intros vpn Hr. right. intros Hv. by apply Hv, Hun.
Qed.

Lemma space_shrink root s T fl D sz new tf :
  lock_free LkKmem s → proc_space s root T fl D sz tf → 0 ≤ new ≤ sz →
  ∃ s' T' fl' D', uvmdealloc root sz new s = Ok new s' ∧ resized (npg new) s T fl D s' T' fl' D' ∧
    proc_space s' root T' fl' D' new tf.
Proof.
  intros Hlk Hps Hn. pose proof Hps as [[Hu Hsz Hdom Htr Htf Htp Hon] Hfor].
  pose proof top_pages as (E1 & E2 & A1 & A2 & R1 & R2).
  pose proof (npg_mono new sz ltac:(lia)) as Hm. pose proof (npg_mono 0 new ltac:(lia)) as Hz.
  change (npg 0) with 0 in Hz. pose proof (npg_top sz ltac:(lia)) as Ht.
  destruct (uvmdealloc_range root sz new s T fl D) as (s' & fl' & D' & Hrun & Hx & Hun & Hp); try done; [lia| |].
  { unfold range. intros vpn Hr. apply Hdom. lia. }
  exists s', T, fl', D'. split; [done|]. split.
  { eapply urel_resized; [done|done|done|]. unfold range. lia. }
  eapply space_urel; try done; [unfold range; lia|lia| | | |apply _].
  - intros vpn. destruct (decide (range (npg new) (Z.to_nat (npg sz - npg new)) vpn)) as [Hr|Hr].
    + rewrite (proj1 (Hun vpn Hr)). unfold range in Hr. split; [by intros [? ?]|lia].
    + rewrite (ur_keep _ _ _ _ _ _ _ _ _ _ Hx), Hdom by done. unfold range in Hr. lia.
  - intros vpn Hr. right. intros Hv. by apply Hv, Hun.
  - unfold range. lia.
Qed.
End space.
