(* ===== verification/SchedTheory.v ===== *)
(** * What sleep(), wakeup(), kill(), yield() and the scheduler do *)

From Stdlib Require Import ZArith Lia.
From stdpp Require Import base numbers gmap strings countable tactics list.
From S2P Require Import Prelude Machine CString State Spinlock Kalloc Vm Sched.

(** ** Loops over the process table *)
Lemma set_procs_id s : set_procs (procs s) s = s.
Proof. by destruct s. Qed.

(** A loop whose body updates the entry it visits. *)
Lemma for_each_procs (I : kstate → Prop) (body : nat → M (option unit)) (g : nat → proc → proc) l :
  (∀ s ps, I s → I (set_procs ps s)) → NoDup l →
  (∀ i s, i ∈ l → I s → body i s = Ok None (set_procs (alter (g i) i (procs s)) s)) →
  ∀ s, I s → ∃ ps, for_each l body s = Ok None (set_procs ps s) ∧ length ps = length (procs s) ∧
    ∀ j, ps !! j = (if decide (j ∈ l) then g j else id) <$> procs s !! j.
Proof.
  intros Hst Hnd Hb. induction Hnd as [|i l Hi Hnd IH]; intros s Hs.
  { exists (procs s). rewrite set_procs_id. split; [done|]. split; [done|]. intros j.
    rewrite decide_False by (apply not_elem_of_nil). by rewrite option_fmap_id. }
  destruct (IH ltac:(intros; apply Hb; [by right|done]) (set_procs (alter (g i) i (procs s)) s) ltac:(auto))
    as (ps & Hrun & Hlen & Hps).
  exists ps. simpl. rewrite (bind_ok _ _ _ _ _ (Hb i s ltac:(by left) Hs)), Hrun.
  split; [by destruct s|]. simpl in Hlen. rewrite length_alter in Hlen. split; [done|].
  intros j. rewrite Hps. simpl. destruct (decide (j = i)) as [->|Hne].
  - rewrite list_lookup_alter_eq, decide_False, decide_True by (done || by left).
    by destruct (procs s !! i).
  - rewrite list_lookup_alter_ne by done. repeat case_decide; set_solver.
Qed.

(** A loop whose body skips the entries before [i]. *)
Lemma for_each_skip {I A} (body : I → M (option A)) l1 l2 s :
  (∀ i, i ∈ l1 → body i s = Ok None s) → for_each (l1 ++ l2) body s = for_each l2 body s.
Proof.
  induction l1 as [|i l1 IH]; intros Hb; [done|]. simpl.
  rewrite (bind_ok _ _ _ _ _ (Hb i ltac:(by left))). apply IH. intros; apply Hb. by right.
Qed.

Lemma proc_ids_split i : (i < NPROC)%nat →
  proc_ids = seq 0 i ++ i :: seq (S i) (NPROC - S i).
Proof.
  intros Hi. unfold proc_ids. change (i :: seq (S i) (NPROC - S i)) with (seq (0 + i) (S (NPROC - S i))).
  rewrite <- seq_app. f_equal. lia.
Qed.

Lemma elem_of_proc_ids i : i ∈ proc_ids ↔ (i < NPROC)%nat.
Proof. unfold proc_ids. rewrite elem_of_seq. lia. Qed.

Lemma NoDup_proc_ids : NoDup proc_ids.
Proof. apply NoDup_seq. Qed.

(** ** wakeup *)
Definition wake (ch : option chan) (p : proc) : proc :=
  if bool_decide (p_state p = SLEEPING ∧ p_chan p = ch) then set_p_state RUNNABLE p else p.

Definition proc_locks_free (s : kstate) : Prop :=
  cpu_ok (cpu s) ∧ ∀ i, (i < NPROC)%nat → c_proc (cpu s) ≠ Some i → locks s !! LkProc i = None.

Lemma wakeup_one_eq ch i s :
  cpu_ok (cpu s) → (c_proc (cpu s) ≠ Some i → locks s !! LkProc i = None) →
  wakeup_one ch i s =
    Ok None (set_procs (alter (if decide (c_proc (cpu s) = Some i) then id else wake ch) i (procs s)) s).
Proof.
  intros Hc Hl. unfold wakeup_one. rewrite (bind_ok _ _ _ _ _ (myproc_eq s Hc)).
  destruct (decide (c_proc (cpu s) = Some i)) as [He|Hne].
  - rewrite list_alter_id by done. by rewrite set_procs_id.
  - specialize (Hl Hne). rewrite (bind_ok _ _ _ _ _ (acquire_eq _ s Hl)). mrun.
    assert (Hrel : ∀ ps, release (LkProc i) (set_procs ps (hold (LkProc i) s)) = Ok tt (set_procs ps s)).
    { intros ps. rewrite (release_eq (LkProc i) s) by done. by destruct s. }
    assert (Hw : alter (wake ch) i (procs s) =
      if bool_decide (p_state (procs s !!! i) = SLEEPING ∧ p_chan (procs s !!! i) = ch)
      then alter (set_p_state RUNNABLE) i (procs s) else procs s).
    { destruct (procs s !! i) as [p|] eqn:Hp.
      - rewrite (list_lookup_total_correct _ _ _ Hp).
        unfold wake. case_bool_decide as Hb; apply list_eq; intros j.
        + destruct (decide (j = i)) as [->|]; [|by rewrite !list_lookup_alter_ne].
          rewrite !list_lookup_alter_eq, Hp. simpl. by rewrite bool_decide_true.
        + destruct (decide (j = i)) as [->|]; [|by rewrite list_lookup_alter_ne].
          rewrite list_lookup_alter_eq, Hp. simpl. by rewrite bool_decide_false.
      - rewrite !list_alter_none by done. by destruct (bool_decide _). }
    rewrite Hw. simpl procs. destruct (bool_decide _); mrun.
    + rewrite (bind_ok _ _ _ _ _ (Hrel _)). done.
    + pose proof (Hrel (procs s)) as Hr. rewrite set_procs_id in Hr.
      replace (set_procs (procs s) (hold (LkProc i) s)) with (hold (LkProc i) s) in Hr by (by destruct s).
      rewrite (bind_ok _ _ _ _ _ Hr). by rewrite set_procs_id.
Qed.

Lemma wakeup_eq ch s :
  proc_locks_free s → length (procs s) = NPROC →
  ∃ ps, wakeup ch s = Ok tt (set_procs ps s) ∧ length ps = NPROC ∧
    ∀ j, ps !! j = (if decide (c_proc (cpu s) = Some j) then id else wake ch) <$> procs s !! j.
Proof.
  intros [Hc Hl] Hlen.
  destruct (for_each_procs (λ s', cpu s' = cpu s ∧ locks s' = locks s) (wakeup_one ch)
    (λ i, if decide (c_proc (cpu s) = Some i) then id else wake ch) proc_ids) with (s := s)
    as (ps & Hrun & Hlen' & Hps); [done|apply NoDup_proc_ids| |done|].
  { intros i s' Hi [Ec El]. rewrite elem_of_proc_ids in Hi.
    rewrite wakeup_one_eq by (rewrite Ec, ?El; auto). by rewrite Ec. }
  exists ps. unfold wakeup. rewrite (bind_ok _ _ _ _ _ Hrun). split; [done|]. split; [congruence|].
  intros j. rewrite Hps. destruct (decide (j ∈ proc_ids)) as [|Hj]; [done|].
  rewrite elem_of_proc_ids in Hj. rewrite (lookup_ge_None_2 (procs s)) by lia. done.
Qed.

(** ** sleep, sched and the scheduler *)

(** The hart runs process [i], holds exactly one lock of its own, and has
    interrupts off: the condition sched() insists on. *)
Definition running (i : nat) (s : kstate) : Prop :=
  c_proc (cpu s) = Some i ∧ c_noff (cpu s) = 1 ∧ c_sie (cpu s) = false.

Lemma running_ok i s : running i s → cpu_ok (cpu s).
Proof. intros (_ & Hn & Hs). repeat split; [lia|lia|done]. Qed.

(** Adding and dropping a second lock leaves the hart as it was. *)
Lemma hold_cpu lk i s : running i s →
  cpu (hold lk s) = set_c_noff 2 (cpu s).
Proof. intros (Hp & Hn & Hs). unfold hold, pushed. destruct s as [c]. destruct c. simpl in *. subst. done. Qed.

Lemma release_nested lk i s :
  c_proc (cpu s) = Some i → c_noff (cpu s) = 2 → c_sie (cpu s) = false →
  locks s !! lk = Some (c_id (cpu s)) →
  release lk s = Ok tt (set_cpu (set_c_noff 1 (cpu s)) (set_locks (delete lk (locks s)) s)).
Proof.
  intros Hp Hn Hs Hl. unfold release, holding. mrun. rewrite bool_decide_true by done. simpl. mrun.
  unfold pop_off, intr_get, mycpu, upd_cpu. mrun. simpl. rewrite Hs. mrun. simpl. rewrite Hn. simpl.
  mrun. simpl. rewrite Hn. simpl. done.
Qed.

(** Dropping the last lock restores the interrupt state. *)
Lemma release_last lk s :
  c_noff (cpu s) = 1 → c_sie (cpu s) = false → locks s !! lk = Some (c_id (cpu s)) →
  release lk s =
    Ok tt (set_cpu (mkCpu (c_proc (cpu s)) 0 (c_intena (cpu s)) (c_intena (cpu s)) (c_id (cpu s)))
             (set_locks (delete lk (locks s)) s)).
Proof.
  intros Hn Hs Hl. unfold release, holding. mrun. rewrite bool_decide_true by done. simpl. mrun.
  unfold pop_off, intr_get, mycpu, upd_cpu. mrun. simpl. rewrite Hs. mrun. simpl. rewrite Hn. simpl.
  mrun. simpl. rewrite Hn. simpl. destruct s as [[cp no ia si ci]]. simpl in *. subst.
  destruct ia; done.
Qed.

Lemma bind_switch {A B} (m : M A) (f : A → M B) s s1 k :
  m s = Switch s1 k → (m ≫= f) s = Switch s1 (λ s', bind_out f (k s')).
Proof. intros Hm. unfold mbind, M_bind. by rewrite Hm. Qed.

Lemma sched_eq i s :
  running i s → locks s !! LkProc i = Some (c_id (cpu s)) → p_state (procs s !!! i) ≠ RUNNING →
  sched s = Switch s (λ s', Ok tt (set_cpu (set_c_intena (c_intena (cpu s)) (cpu s')) s')).
Proof.
  intros Hr Hl Hst. unfold sched. pose proof Hr as (Hp & Hn & Hs).
  rewrite (bind_ok _ _ _ _ _ (cur_eq s i (running_ok i s Hr) Hp)).
  unfold holding, mycpu, intr_get. mrun. rewrite bool_decide_true by done. simpl. mrun. rewrite Hn. simpl. mrun.
  rewrite decide_False by done. mrun. rewrite Hs. mrun. done.
Qed.

(** What sched() refuses: no lock, too many locks, still RUNNING. *)
Lemma sched_no_lock i s :
  cpu_ok (cpu s) → c_proc (cpu s) = Some i → locks s !! LkProc i ≠ Some (c_id (cpu s)) →
  sched s = Panic "sched p->lock" s.
Proof.
  intros Hc Hp Hl. unfold sched. rewrite (bind_ok _ _ _ _ _ (cur_eq s i Hc Hp)).
  unfold holding. mrun. rewrite bool_decide_false by done. done.
Qed.

Lemma alter_alter_eq {A} (f g : A → A) i (l : list A) : alter f i (alter g i l) = alter (f ∘ g) i l.
Proof.
  apply list_eq. intros j. destruct (decide (j = i)) as [->|].
  - rewrite !list_lookup_alter_eq. by destruct (l !! i).
  - by rewrite !list_lookup_alter_ne.
Qed.

Definition asleep (ch : chan) (p : proc) : proc := set_p_state SLEEPING (set_p_chan (Some ch) p).

Lemma sleep_eq ch lk i s :
  running i s → locks s !! lk = Some (c_id (cpu s)) → locks s !! LkProc i = None →
  (i < length (procs s))%nat →
  ∃ s1 k, sleep ch lk s = Switch s1 k ∧
    s1 = set_procs (alter (asleep ch) i (procs s))
           (set_locks (<[LkProc i := c_id (cpu s)]> (delete lk (locks s))) s) ∧
    ∀ s', running i s' → locks s' !! LkProc i = Some (c_id (cpu s')) → locks s' !! lk = None →
      k s' = Ok tt (set_cpu (set_c_intena (c_intena (cpu s)) (cpu s'))
               (set_locks (<[lk := c_id (cpu s')]> (delete (LkProc i) (locks s')))
                 (set_procs (alter (set_p_chan None) i (procs s')) s'))).
Proof.
  intros Hr Hl Hi Hlt. pose proof Hr as (Hp & Hn & Hs).
  assert (Hne : lk ≠ LkProc i) by congruence.
  set (s1 := set_procs (alter (asleep ch) i (procs s))
           (set_locks (<[LkProc i := c_id (cpu s)]> (delete lk (locks s))) s)).
  eexists s1, _. split; [|split; [done|]].
  - unfold sleep. rewrite (bind_ok _ _ _ _ _ (cur_eq s i (running_ok i s Hr) Hp)).
    rewrite (bind_ok _ _ _ _ _ (acquire_eq _ s Hi)).
    pose proof (hold_cpu (LkProc i) i s Hr) as Hhc.
    assert (Hrel : release lk (hold (LkProc i) s) =
      Ok tt (set_locks (<[LkProc i := c_id (cpu s)]> (delete lk (locks s))) s)).
    { rewrite (release_nested lk i) by (rewrite ?Hhc; simpl; try done; rewrite lookup_insert_ne; done).
      rewrite Hhc. unfold hold. simpl. rewrite delete_insert_ne by done.
      destruct s as [[cp no ia si ci]]. simpl in *. subst. done. }
    rewrite (bind_ok _ _ _ _ _ Hrel). mrun.
    match goal with |- _ ?x = _ => replace x with s1 by (unfold s1; simpl; by rewrite alter_alter_eq) end.
    refine (bind_switch sched _ s1 s1 _ (sched_eq i s1 _ _ _)).
    + done.
    + simpl. by rewrite lookup_insert_eq.
    + unfold s1. simpl. destruct (lookup_lt_is_Some_2 _ _ Hlt) as [p Hpi].
      rewrite (list_lookup_total_correct _ i (asleep ch p)); [done|].
      by rewrite list_lookup_alter_eq, Hpi.
  - intros s' Hr' Hl' Hlk'. simpl. destruct Hr' as (Hp' & Hn' & Hs').
    mrun. erewrite bind_ok; [|apply release_last; simpl; done].
    rewrite acquire_eq by (simpl; rewrite lookup_delete_ne; done).
    unfold hold, pushed. destruct s' as [[cp no ia si ci]]. simpl in *. subst. done.
Qed.

Lemma retire_eq i s :
  running i s → locks s !! LkProc i = Some (c_id (cpu s)) →
  retire i s = Ok tt (set_cpu (mkCpu None 0 (c_intena (cpu s)) (c_intena (cpu s)) (c_id (cpu s)))
                 (set_locks (delete (LkProc i) (locks s)) s)).
Proof.
  intros (Hp & Hn & Hs) Hl. unfold retire, upd_cpu. mrun.
  rewrite release_last by (destruct s as [[]]; done). by destruct s as [[]].
Qed.

(** scheduler() picks a RUNNABLE process and enters it with its lock held. *)
Lemma dispatch_eq i s :
  locks s !! LkProc i = None → p_state (procs s !!! i) = RUNNABLE →
  dispatch i s = Ok true (set_procs (alter (set_p_state RUNNING) i (procs s))
                   (set_cpu (set_c_proc (Some i) (pushed (cpu s)))
                     (set_locks (<[LkProc i := c_id (cpu s)]> (locks s)) s))).
Proof.
  intros Hl Hst. unfold dispatch. rewrite (bind_ok _ _ _ _ _ (acquire_eq _ s Hl)). mrun.
  simpl. rewrite decide_True by done. unfold upd_cpu. mrun. by destruct s.
Qed.

Lemma dispatch_skip i s :
  cpu_ok (cpu s) → locks s !! LkProc i = None → p_state (procs s !!! i) ≠ RUNNABLE →
  dispatch i s = Ok false s.
Proof.
  intros Hc Hl Hst. unfold dispatch. rewrite (bind_ok _ _ _ _ _ (acquire_eq _ s Hl)). mrun.
  simpl. rewrite decide_False by done.
  rewrite (bind_ok _ _ _ _ _ (release_eq (LkProc i) s _ Hc Hl eq_refl eq_refl)). by rewrite unhold_hold.
Qed.

(** ** kill *)
Definition killed_proc (p : proc) : proc :=
  let q := set_p_killed true p in
  if bool_decide (p_state p = SLEEPING) then set_p_state RUNNABLE q else q.

Lemma kill_miss pid i s :
  lock_free (LkProc i) s → p_pid (procs s !!! i) ≠ pid → kill_one pid i s = Ok None s.
Proof.
  intros [Hc Hl] Hpid. unfold kill_one. rewrite (bind_ok _ _ _ _ _ (acquire_eq _ s Hl)). mrun. simpl.
  rewrite (proj2 (Z.eqb_neq _ _)) by done.
  rewrite (bind_ok _ _ _ _ _ (release_eq (LkProc i) s _ Hc Hl eq_refl eq_refl)). by rewrite unhold_hold.
Qed.

Lemma kill_hit pid i s p :
  lock_free (LkProc i) s → procs s !! i = Some p → p_pid p = pid →
  kill_one pid i s = Ok (Some 0) (set_procs (<[i := killed_proc p]> (procs s)) s).
Proof.
  intros [Hc Hl] Hp Hpid. unfold kill_one. rewrite (bind_ok _ _ _ _ _ (acquire_eq _ s Hl)). mrun. simpl.
  rewrite (list_lookup_total_correct _ _ _ Hp), Hpid, Z.eqb_refl. unfold killed_proc.
  assert (Hrel : ∀ ps, release (LkProc i) (set_procs ps (hold (LkProc i) s)) = Ok tt (set_procs ps s)).
  { intros ps. rewrite (release_eq (LkProc i) s) by done. by destruct s. }
  assert (Hal : ∀ f, alter f i (procs s) = <[i := f p]> (procs s)).
  { intros f. apply list_eq. intros j. destruct (decide (j = i)) as [->|].
    - rewrite list_lookup_alter_eq, Hp, list_lookup_insert_eq; [done|]. by eapply lookup_lt_Some.
    - by rewrite list_lookup_alter_ne, list_lookup_insert_ne. }
  case_bool_decide; mrun; simpl.
  - rewrite alter_alter_eq. change (set_procs ?a (set_procs ?b ?c)) with (set_procs a c).
    erewrite bind_ok; [|apply Hrel]. by rewrite Hal.
  - erewrite bind_ok; [|apply Hrel]. by rewrite Hal.
Qed.

(** kill() acts on the first process with the given pid, or fails. *)
Lemma kill_found pid i s p :
  cpu_ok (cpu s) → (∀ j, (j < NPROC)%nat → locks s !! LkProc j = None) → (i < NPROC)%nat →
  procs s !! i = Some p → p_pid p = pid → (∀ j, (j < i)%nat → p_pid (procs s !!! j) ≠ pid) →
  kill pid s = Ok 0 (set_procs (<[i := killed_proc p]> (procs s)) s).
Proof.
  intros Hc Hl Hi Hp Hpid Hfirst. unfold kill. rewrite (proc_ids_split i Hi).
  rewrite (bind_ok _ _ s (Some 0) (set_procs (<[i := killed_proc p]> (procs s)) s)); [done|].
  rewrite for_each_skip.
  - simpl. by rewrite (bind_ok _ _ _ _ _ (kill_hit pid i s p (conj Hc (Hl i Hi)) Hp Hpid)).
  - intros j Hj%elem_of_seq. apply kill_miss; [split; [done|apply Hl; lia]|apply Hfirst; lia].
Qed.

Lemma kill_absent pid s :
  cpu_ok (cpu s) → (∀ j, (j < NPROC)%nat → locks s !! LkProc j = None) →
  (∀ j, (j < NPROC)%nat → p_pid (procs s !!! j) ≠ pid) → kill pid s = Ok (-1) s.
Proof.
  intros Hc Hl Hno. unfold kill. rewrite (bind_ok _ _ s None s); [done|].
  rewrite <- (app_nil_r proc_ids), for_each_skip; [done|].
  intros j Hj%elem_of_proc_ids. apply kill_miss; [split; [done|by apply Hl]|by apply Hno].
Qed.

(** ** procnum *)
Lemma procnum_eq s :
  length (procs s) = NPROC →
  procnum s = Ok (Z.of_nat (length (filter (λ p, p_state p ≠ UNUSED) (procs s)))) s.
Proof.
  intros Hlen. unfold procnum, gets. f_equal.
  assert (Hmap : procs s = (λ i, procs s !!! i) <$> proc_ids).
  { apply list_eq. intros j. rewrite list_lookup_fmap. unfold proc_ids.
    destruct (decide (j < NPROC)%nat).
    - rewrite lookup_seq_lt by done. simpl. apply list_lookup_lookup_total_lt. lia.
    - rewrite lookup_seq_ge, lookup_ge_None_2 by lia. done. }
  assert (Hc : ∀ l n, foldl (λ num i, if decide (p_state (procs s !!! i) ≠ UNUSED) then num + 1 else num) n l =
    n + Z.of_nat (length (filter (λ p, p_state p ≠ UNUSED) ((λ i, procs s !!! i) <$> l)))).
  { induction l as [|i l IH]; intros n; [simpl; lia|]. rewrite fmap_cons. cbn [foldl].
    rewrite IH, filter_cons. repeat case_decide; rewrite ?length_cons; try done; lia. }
  by rewrite Hc, <- Hmap.
Qed.
