(* ===== verification/SmpSleep.v ===== *)
(** * sleep(), wakeup() and the scheduler on several harts

    The functions of kernel/proc.c that put processes to sleep, wake them and run
    them, statement by statement, on any number of harts whose statements
    interleave arbitrarily. A statement is an operation of Sched.v, run on the
    shared state with the registers of its hart; acquire() is one statement
    because Smp.v shows that it is atomic. Between calls of these functions a
    process is a most general client: it may take and release any lock that is
    not a p->lock, call any of them at any time, and change any other part of the
    state. A hart that runs no process is in scheduler(), where interrupt handlers
    may make the same calls. *)

From Stdlib Require Import ZArith Lia.
From stdpp Require Import base numbers gmap strings countable tactics list functions relations.
From S2P Require Import Prelude Machine CString State Spinlock Kalloc Vm Sched SchedTheory.

(** ** Statements *)
Inductive stmt :=
  | Acquire (lk : lockid)                    (* acquire(lk) *)
  | Release (lk : lockid)                    (* release(lk) *)
  | SetChan (ch : option chan)               (* p->chan = ch *)
  | SetState (st : procstate)                (* p->state = st *)
  | CallSched                                (* sched() *)
  | WakeIf (ch : option chan) (j : nat)      (* if(q->state == SLEEPING && q->chan == ch) q->state = RUNNABLE *)
  | KillIf (pid : Z) (j : nat).              (* if(q->pid == pid) { q->killed = 1; if(q->state == SLEEPING) ... } *)

#[global] Instance stmt_eq_dec : EqDecision stmt.
Proof. solve_decision. Defined.

(** [p] of the running process. *)
Definition own (me : option nat) (f : proc → proc) : M unit :=
  match me with Some i => upd_proc i f | None => panic "null pointer" end.

Definition exec_stmt (me : option nat) (c : stmt) : M unit :=
  match c with
  | Acquire lk => acquire lk
  | Release lk => release lk
  | SetChan ch => own me (set_p_chan ch)
  | SetState st => own me (set_p_state st)
  | CallSched => sched
  | WakeIf ch j =>
      p ← get_proc j;
      when (bool_decide (p_state p = SLEEPING ∧ p_chan p = ch)) (upd_proc j (set_p_state RUNNABLE))
  | KillIf pid j =>
      p ← get_proc j;
      when (p_pid p =? pid)
        (upd_proc j (set_p_killed true);;
         when (bool_decide (p_state p = SLEEPING)) (upd_proc j (set_p_state RUNNABLE)))
  end.

(** The statements one after the other, without interruption. *)
Fixpoint run (me : option nat) (cs : list stmt) : M unit :=
  match cs with
  | [] => mret tt
  | [c] => exec_stmt me c
  | c :: cs => exec_stmt me c;; run me cs
  end.

(** ** The functions *)
Definition sleep_code (ch : chan) (lk : lockid) (i : nat) : list stmt :=
  [Acquire (LkProc i);
   Release lk;
   SetChan (Some ch);
   SetState SLEEPING;
   CallSched;
   SetChan None;
   Release (LkProc i);
   Acquire lk].

Definition wakeup_visit (ch : option chan) (me : option nat) (j : nat) : list stmt :=
  if decide (me = Some j) then [] else [Acquire (LkProc j); WakeIf ch j; Release (LkProc j)].

Definition wakeup_code (ch : option chan) (me : option nat) : list stmt :=
  concat (wakeup_visit ch me <$> proc_ids).

Definition yield_code (i : nat) : list stmt :=
  [Acquire (LkProc i); SetState RUNNABLE; CallSched; Release (LkProc i)].

(** The loop of kill() for one process. *)
Definition kill_code (pid : Z) (j : nat) : list stmt :=
  [Acquire (LkProc j); KillIf pid j; Release (LkProc j)].

(** A new process starts in forkret(), which drops the lock scheduler() took. *)
Definition forkret_code (i : nat) : list stmt := [Release (LkProc i)].

Inductive call :=
  | InSleep (ch : chan) (lk : lockid)
  | InWakeup (ch : option chan)
  | InYield
  | InKill (pid : Z) (j : nat)
  | InAcquire (lk : lockid)
  | InRelease (lk : lockid)
  | InForkret.

Definition is_plock (lk : lockid) : bool := match lk with LkProc _ => true | _ => false end.

(** What the process (or handler) [me] runs when it makes the call. *)
Definition body (me : option nat) (f : call) : option (list stmt) :=
  match f, me with
  | InSleep ch lk, Some i => if is_plock lk then None else Some (sleep_code ch lk i)
  | InWakeup ch, _ => Some (wakeup_code ch me)
  | InYield, Some i => Some (yield_code i)
  | InKill pid j, _ => Some (kill_code pid j)
  | InAcquire lk, _ => if is_plock lk then None else Some [Acquire lk]
  | InRelease lk, _ => if is_plock lk then None else Some [Release lk]
  | _, _ => None
  end.

(** ** Harts *)

(** Where a hart is. The last five are in the loop of scheduler() for proc[j]. *)
Inductive pc :=
  | Client                                 (* outside these functions *)
  | Run (f : call) (rest : list stmt)      (* in a call, [rest] still to do *)
  | Picked (j : nat)                       (* after acquire(&p->lock) *)
  | Chosen (j : nat)                       (* after p->state = RUNNING *)
  | Entering (j : nat)                     (* at swtch() to the process *)
  | Leaving (j : nat)                      (* swtch() has returned *)
  | Putting (j : nat).                     (* at release(&p->lock) *)

(** Its registers, the kernel thread it runs (a process, or none: the
    scheduler), and where that is. *)
Record hart := mkHart { hc : cpu_t; on : option nat; at_pc : pc }.

(** The saved context of a process that called sched(): the continuation of
    sched(), and what its caller still has to do. *)
Record context := mkCtx { resume : kstate → out unit; c_fun : call; c_rest : list stmt }.

Record mp := mkMp { sh : kstate; harts : nat → hart; saved : nat → option context }.

(** The state as hart [h] sees it. *)
Definition look (h : nat) (m : mp) : kstate := set_cpu (hc (harts m h)) (sh m).

(** Hart [h] leaves the state [s] and goes on with thread [o] at [x]. *)
Definition put (h : nat) (s : kstate) (o : option nat) (x : pc) (m : mp) : mp :=
  mkMp s (<[h := mkHart (cpu s) o x]> (harts m)) (saved m).
Definition save (i : nat) (c : option context) (m : mp) : mp :=
  mkMp (sh m) (harts m) (<[i := c]> (saved m)).

Section step.
Context (h : nat) (m : mp).
Let s := look h m.
Let me := on (harts m h).
Let x := at_pc (harts m h).

(** One statement of hart [h]. *)
Inductive step : mp → Prop :=
  | step_work s' : x = Client → procs s' = procs s → locks s' = locks s →
      c_id (cpu s') = c_id (cpu s) → c_proc (cpu s') = c_proc (cpu s) → step (put h s' me Client m)
  | step_call f cs : x = Client → body me f = Some cs → step (put h s me (Run f cs) m)
  | step_exec f c cs s' : x = Run f (c :: cs) → exec_stmt me c s = Ok tt s' → step (put h s' me (Run f cs) m)
  | step_return f : x = Run f [] → step (put h s me Client m)
  | step_switch f c cs s' k i : x = Run f (c :: cs) → exec_stmt me c s = Switch s' k → me = Some i →
      step (save i (Some (mkCtx k f cs)) (put h s' None (Leaving i) m))
  | step_pick j s' : x = Client → me = None → (j < NPROC)%nat → acquire (LkProc j) s = Ok tt s' →
      step (put h s' None (Picked j) m)
  | step_choose j : x = Picked j → p_state (procs s !!! j) = RUNNABLE →
      step (put h (set_procs (alter (set_p_state RUNNING) j (procs s)) s) None (Chosen j) m)
  | step_skip j : x = Picked j → p_state (procs s !!! j) ≠ RUNNABLE →
      step (put h s None (Putting j) m)
  | step_proc j : x = Chosen j →
      step (put h (set_cpu (set_c_proc (Some j) (cpu s)) s) None (Entering j) m)
  | step_enter j c s' : x = Entering j → saved m j = Some c → resume c s = Ok tt s' →
      step (save j None (put h s' (Some j) (Run (c_fun c) (c_rest c)) m))
  | step_leave j : x = Leaving j →
      step (put h (set_cpu (set_c_proc None (cpu s)) s) None (Putting j) m)
  | step_put j s' : x = Putting j → release (LkProc j) s = Ok tt s' →
      step (put h s' None Client m).
End step.

(** The harts enter scheduler(); some processes are ready to start. *)
Definition booted (m : mp) : Prop :=
  locks (sh m) = ∅ ∧
  (∀ h, on (harts m h) = None ∧ at_pc (harts m h) = Client ∧
    c_id (hc (harts m h)) = Z.of_nat h ∧ c_proc (hc (harts m h)) = None) ∧
  ∀ i, match saved m i with
       | Some c => c = mkCtx (λ s, Ok tt s) InForkret (forkret_code i)
       | None => ∀ p, procs (sh m) !! i = Some p → p_state p ≠ RUNNABLE
       end ∧ ∀ p, procs (sh m) !! i = Some p → p_state p ≠ SLEEPING.

Definition reachable (m : mp) : Prop := ∃ m0, booted m0 ∧ rtc (λ m m', ∃ h, step h m m') m0 m.

(** Process [i] has released [lk] in sleep(ch, lk) and nothing has made it
    runnable since. *)
Inductive dozing (m : mp) (i : nat) (ch : chan) (lk : lockid) : Prop :=
  | doze_going h cs : on (harts m h) = Some i → at_pc (harts m h) = Run (InSleep ch lk) cs →
      Release lk ∉ cs → CallSched ∈ cs → dozing m i ch lk
  | doze_gone c p : saved m i = Some c → c_fun c = InSleep ch lk →
      procs (sh m) !! i = Some p → p_state p = SLEEPING → dozing m i ch lk.

(** ** Executing the steps *)
Inductive choice := Go | Do (f : call) | Pick (j : nat).

Definition done_with (o : out unit) (f : kstate → option mp) : option mp :=
  match o with Ok _ s => f s | _ => None end.

Definition next (a : choice) (h : nat) (m : mp) : option mp :=
  let s := look h m in
  let me := on (harts m h) in
  match at_pc (harts m h), a with
  | Client, Do f => (λ cs, put h s me (Run f cs) m) <$> body me f
  | Client, Pick j =>
      if decide (me = None ∧ (j < NPROC)%nat)
      then done_with (acquire (LkProc j) s) (λ s', Some (put h s' None (Picked j) m)) else None
  | Run _ [], Go => Some (put h s me Client m)
  | Run f (c :: cs), Go =>
      match exec_stmt me c s, me with
      | Ok _ s', _ => Some (put h s' me (Run f cs) m)
      | Switch s' k, Some i => Some (save i (Some (mkCtx k f cs)) (put h s' None (Leaving i) m))
      | _, _ => None
      end
  | Picked j, Go =>
      Some (if decide (p_state (procs s !!! j) = RUNNABLE)
            then put h (set_procs (alter (set_p_state RUNNING) j (procs s)) s) None (Chosen j) m
            else put h s None (Putting j) m)
  | Chosen j, Go => Some (put h (set_cpu (set_c_proc (Some j) (cpu s)) s) None (Entering j) m)
  | Entering j, Go =>
      match saved m j with
      | Some c => done_with (resume c s) (λ s', Some (save j None (put h s' (Some j) (Run (c_fun c) (c_rest c)) m)))
      | None => None
      end
  | Leaving j, Go => Some (put h (set_cpu (set_c_proc None (cpu s)) s) None (Putting j) m)
  | Putting j, Go => done_with (release (LkProc j) s) (λ s', Some (put h s' None Client m))
  | _, _ => None
  end.

Fixpoint run_moves (l : list (nat * choice)) (m : mp) : option mp :=
  match l with
  | [] => Some m
  | (h, a) :: l => next a h m ≫= run_moves l
  end.

Lemma next_step a h m m' : next a h m = Some m' → step h m m'.
Proof.
  unfold next. destruct (at_pc (harts m h)) as [|f [|c cs]|j|j|j|j|j] eqn:Hx; destruct a as [|g|j']; try done; intros Hn.
  - destruct (body _ g) as [cs|] eqn:Hb; [|done]. injection Hn as <-. by apply step_call.
  - case_decide as Hd; [|done]. destruct Hd. destruct (acquire _ _) as [[] s'| | |] eqn:Ha; try done. injection Hn as <-.
    by apply step_pick.
  - injection Hn as <-. by eapply step_return.
  - destruct (exec_stmt _ c _) as [[] s'| |s' k|] eqn:He; try done.
    + injection Hn as <-. by eapply step_exec.
    + destruct (on (harts m h)) as [i|] eqn:Ho; [|done]. injection Hn as <-. eapply step_switch; [done| |done]. by rewrite Ho.
  - injection Hn as <-. case_decide; [by apply step_choose|by apply step_skip].
  - injection Hn as <-. by apply step_proc.
  - destruct (saved m j) as [c|] eqn:Hs; [|done]. destruct (resume c _) as [[] s'| | |] eqn:Hr; try done. injection Hn as <-.
    by apply step_enter.
  - injection Hn as <-. by apply step_leave.
  - destruct (release _ _) as [[] s'| | |] eqn:Hr; try done. injection Hn as <-. by eapply step_put.
Qed.

Lemma run_moves_reachable l m m' : reachable m → run_moves l m = Some m' → reachable m'.
Proof.
  revert m. induction l as [|[h a] l IH]; intros m Hm Hr; [by injection Hr as <-|].
  simpl in Hr. destruct (next a h m) as [m1|] eqn:Hn; [|done]. apply (IH m1); [|done].
  destruct Hm as (m0 & H0 & Hs). exists m0. split; [done|]. eapply rtc_r; [done|]. exists h. by eapply next_step.
Qed.

(** ** What a statement changes *)
Lemma alter_if {A} `{Inhabited A} (b : A → bool) (f : A → A) i (l : list A) :
  (if b (l !!! i) then alter f i l else l) = alter (λ x, if b x then f x else x) i l.
Proof.
  apply list_eq. intros j. destruct (decide (j = i)) as [->|].
  - rewrite list_lookup_alter_eq. destruct (l !! i) as [x|] eqn:E.
    + rewrite (list_lookup_total_correct _ _ _ E). destruct (b x) eqn:Hb; rewrite ?list_lookup_alter_eq, E; simpl; by rewrite Hb.
    + destruct (b _); rewrite ?list_lookup_alter_eq, E; done.
  - rewrite list_lookup_alter_ne by done. destruct (b _); by rewrite ?list_lookup_alter_ne.
Qed.

Lemma alter_at {A} (f g : A → A) i (l : list A) : (∀ x, l !! i = Some x → f x = g x) → alter f i l = alter g i l.
Proof.
  intros Hfg. apply list_eq. intros j. destruct (decide (j = i)) as [->|]; [|by rewrite !list_lookup_alter_ne].
  rewrite !list_lookup_alter_eq. destruct (l !! i) eqn:E; [|done]. simpl. by rewrite (Hfg _ eq_refl).
Qed.

Lemma acquire_inv lk s s' : acquire lk s = Ok tt s' → locks s !! lk = None ∧ s' = hold lk s.
Proof.
  destruct (locks s !! lk) as [z|] eqn:Hl.
  - unfold acquire, holding. rewrite (bind_ok _ _ _ _ _ (push_off_eq s)). mrun.
    destruct (bool_decide _); [done|]. mrun. simpl. by rewrite Hl.
  - rewrite acquire_eq by done. intros [= <-]. done.
Qed.

Lemma release_inv lk s s' : release lk s = Ok tt s' →
  locks s !! lk = Some (c_id (cpu s)) ∧ locks s' = delete lk (locks s) ∧ procs s' = procs s ∧
  c_id (cpu s') = c_id (cpu s) ∧ c_proc (cpu s') = c_proc (cpu s).
Proof.
  unfold release, holding, pop_off, intr_get, mycpu, upd_cpu, intr_on. mrun. case_bool_decide as Hb; [|done]. simpl. mrun. simpl.
  destruct (c_sie (cpu s)); [done|]. mrun. simpl. destruct (_ <? 1); [done|]. mrun. simpl.
  destruct (_ && _); simpl; intros [= <-]; split_and!; try done; by destruct (cpu s).
Qed.

(** The parts of the state that a change of interrupts leaves alone. *)
Definition same_but_intr (s s' : kstate) : Prop :=
  procs s' = procs s ∧ locks s' = locks s ∧ c_id (cpu s') = c_id (cpu s) ∧ c_proc (cpu s') = c_proc (cpu s).

Lemma pop_off_inv s : match pop_off s with Ok _ s' => same_but_intr s s' | Panic _ _ => True | _ => False end.
Proof.
  unfold pop_off, intr_get, mycpu, upd_cpu, intr_on. mrun. destruct (c_sie (cpu s)); [done|]. mrun. simpl.
  destruct (_ <? 1); [done|]. mrun. simpl. by destruct (_ && _).
Qed.

Lemma myproc_inv s : match myproc s with Ok o s' => o = c_proc (cpu s) ∧ same_but_intr s s' | Panic _ _ => True | _ => False end.
Proof.
  unfold myproc. rewrite (bind_ok _ _ _ _ _ (push_off_eq s)). unfold mycpu. mrun.
  pose proof (pop_off_inv (set_cpu (pushed (cpu s)) s)) as Hp. unfold mbind, M_bind.
  by destruct (pop_off _) as [[] s'| | |].
Qed.

Lemma cur_inv s : (∃ i s1, cur s = Ok i s1 ∧ c_proc (cpu s) = Some i ∧ same_but_intr s s1) ∨ ∃ msg s1, cur s = Panic msg s1.
Proof.
  pose proof (myproc_inv s) as Hm. unfold cur, mbind, M_bind. destruct (myproc s) as [[i|] s1|msg s1| |]; try done; simpl.
  - left. exists i, s1. by destruct Hm.
  - right. by eexists _, _.
  - right. by eexists _, _.
Qed.

(** What sched() leaves alone, and what its continuation does. *)
Lemma sched_inv s : match sched s with
  | Ok _ _ => False
  | Switch s' k => same_but_intr s s' ∧ ∀ r, ∃ c, k r = Ok tt (set_cpu c r) ∧ same_but_intr r (set_cpu c r)
  | _ => True
  end.
Proof.
  unfold sched. destruct (cur_inv s) as [(i & s1 & Hc & _ & Hm)|(msg & s1 & Hc)].
  2: { by rewrite (bind_panic _ _ _ _ _ Hc). }
  rewrite (bind_ok _ _ _ _ _ Hc). unfold holding, mycpu, intr_get.
  mrun. destruct (bool_decide _); [|done]. simpl. mrun. destruct (_ =? 1); [|done]. simpl. mrun.
  case_decide; [done|]. mrun. destruct (c_sie (cpu s1)); [done|]. mrun. split; [exact Hm|].
  intros r. eexists. split; [reflexivity|]. by repeat split.
Qed.

(** The effect of a statement that does not give up the hart. *)
Definition kill_if (pid : Z) (p : proc) : proc := if p_pid p =? pid then killed_proc p else p.

Definition effect (me : option nat) (c : stmt) (s s' : kstate) : Prop :=
  c_id (cpu s') = c_id (cpu s) ∧ c_proc (cpu s') = c_proc (cpu s) ∧
  match c with
  | Acquire lk => locks s !! lk = None ∧ locks s' = <[lk := c_id (cpu s)]> (locks s) ∧ procs s' = procs s
  | Release lk => locks s !! lk = Some (c_id (cpu s)) ∧ locks s' = delete lk (locks s) ∧ procs s' = procs s
  | SetChan ch => locks s' = locks s ∧ ∃ i, me = Some i ∧ procs s' = alter (set_p_chan ch) i (procs s)
  | SetState st => locks s' = locks s ∧ ∃ i, me = Some i ∧ procs s' = alter (set_p_state st) i (procs s)
  | CallSched => False
  | WakeIf ch j => locks s' = locks s ∧ procs s' = alter (wake ch) j (procs s)
  | KillIf pid j => locks s' = locks s ∧ procs s' = alter (kill_if pid) j (procs s)
  end.

Lemma exec_effect me c s s' : exec_stmt me c s = Ok tt s' → effect me c s s'.
Proof.
  destruct c as [lk|lk|ch|st| |ch j|pid j]; simpl.
  - intros [Hl ->]%acquire_inv. done.
  - intros (? & ? & ? & ? & ?)%release_inv. done.
  - destruct me as [i|]; [|done]. intros [= <-]. split_and!; try done. by exists i.
  - destruct me as [i|]; [|done]. intros [= <-]. split_and!; try done. by exists i.
  - intros Hs. pose proof (sched_inv s) as H. by rewrite Hs in H.
  - mrun. intros He. assert (Hp : s' = set_procs (alter (wake ch) j (procs s)) s).
    { unfold wake. rewrite <- (alter_if (λ p, bool_decide (p_state p = SLEEPING ∧ p_chan p = ch))).
      destruct (bool_decide _); injection He as <-; [done|by rewrite set_procs_id]. }
    by subst s'.
  - mrun. intros He. assert (Hp : s' = set_procs (alter (kill_if pid) j (procs s)) s).
    { unfold kill_if. rewrite <- (alter_if (λ p, p_pid p =? pid)).
      destruct (_ =? pid); [|injection He as <-; by rewrite set_procs_id]. revert He. simpl. mrun.
      rewrite (alter_at killed_proc (if bool_decide (p_state (procs s !!! j) = SLEEPING)
        then set_p_state RUNNABLE ∘ set_p_killed true else set_p_killed true)).
      - destruct (bool_decide _); intros [= <-]; [|done]. by rewrite alter_alter_eq.
      - intros p Hp. unfold killed_proc. rewrite (list_lookup_total_correct _ _ _ Hp). by destruct (bool_decide _). }
    by subst s'.
Qed.

Lemma exec_switch me c s s' k : exec_stmt me c s = Switch s' k →
  c = CallSched ∧ same_but_intr s s' ∧ ∀ r, ∃ c, k r = Ok tt (set_cpu c r) ∧ same_but_intr r (set_cpu c r).
Proof.
  destruct c as [lk|lk|ch|st| |ch j|pid j]; simpl.
  - unfold acquire, holding. rewrite (bind_ok _ _ _ _ _ (push_off_eq s)). mrun. destruct (bool_decide _); [done|]. mrun.
    by destruct (locks _ !! lk).
  - unfold release, holding. mrun. destruct (bool_decide _); [|done]. simpl. mrun. intros He.
    match type of He with pop_off ?r = _ => pose proof (pop_off_inv r) as Hp end. by rewrite He in Hp.
  - by destruct me.
  - by destruct me.
  - intros He. pose proof (sched_inv s) as H. by rewrite He in H.
  - mrun. by destruct (bool_decide _).
  - mrun. destruct (_ =? pid); [|done]. simpl. mrun. by destruct (bool_decide _).
Qed.

(** ** Reading the rest of the code *)

(** proc[j].lock is held at [cs] if what [cs] does to it first is release it. *)
Fixpoint owes (cs : list stmt) (j : nat) : bool :=
  match cs with
  | [] => false
  | Acquire lk :: cs => if decide (lk = LkProc j) then false else owes cs j
  | Release lk :: cs => if decide (lk = LkProc j) then true else owes cs j
  | _ :: cs => owes cs j
  end.

(** p->state has not been changed for a call of sched() that is still to come. *)
Fixpoint quiet (cs : list stmt) : bool :=
  match cs with
  | [] | SetState _ :: _ => true
  | CallSched :: _ => false
  | _ :: cs => quiet cs
  end.

(** What the statement [c] needs of the rest of the code. *)
Definition local (me : option nat) (c : stmt) (cs : list stmt) : Prop :=
  match c with
  | Acquire lk => ∀ j, lk = LkProc j → owes cs j = true
  | Release lk => ∀ j, lk = LkProc j → owes cs j = false
  | SetChan _ => True
  | SetState _ => quiet cs = false
  | CallSched => (∀ i j, me = Some i → owes cs j = true ↔ j = i) ∧ quiet cs = true
  | WakeIf _ j | KillIf _ j => owes cs j = true
  end.

Fixpoint wf (me : option nat) (cs : list stmt) : Prop :=
  (∀ i, me = Some i → quiet cs = false → owes cs i = true) ∧
  match cs with [] => True | c :: cs => local me c cs ∧ wf me cs end.

Definition visits (ch : option chan) (c : stmt) : Prop :=
  match c with
  | Acquire lk | Release lk => is_plock lk = true
  | WakeIf ch' _ => ch' = ch
  | _ => False
  end.

(** [cs] is what is left of a call of [f] by [me]. *)
Definition good (me : option nat) (f : call) (cs : list stmt) : Prop :=
  wf me cs ∧
  match f with
  | InSleep ch lk => is_plock lk = false ∧ ∃ i, me = Some i ∧ cs `suffix_of` sleep_code ch lk i
  | InWakeup ch => Forall (visits ch) cs
  | _ => True
  end.

Lemma good_tail me f c cs : good me f (c :: cs) → good me f cs.
Proof.
  intros [(_ & _ & Hwf) Hf]. split; [done|]. destruct f; try done.
  - destruct Hf as (Hp & i & Hi & Hs). split; [done|]. exists i. split; [done|]. by eapply suffix_cons_l.
  - by inversion Hf.
Qed.

Lemma good_local me f c cs : good me f (c :: cs) → local me c cs.
Proof. by intros [(_ & ? & _) _]. Qed.

Lemma plock_ne lk j : is_plock lk = false → lk ≠ LkProc j.
Proof. by intros Hp ->. Qed.

Ltac code := simpl; rewrite ?decide_True, ?decide_False by (done || by apply plock_ne || congruence); try done.

Lemma sleep_wf ch lk i : is_plock lk = false → wf (Some i) (sleep_code ch lk i).
Proof.
  intros Hp. assert (Hn : ∀ j, lk ≠ LkProc j) by (intros j; by apply plock_ne).
  assert (Ho : ∀ j, owes [SetChan None; Release (LkProc i); Acquire lk] j = true ↔ j = i).
  { intros j. code. rewrite (decide_False (P := lk = LkProc j)) by done. case_decide; naive_solver. }
  unfold sleep_code. cbn [wf local quiet]. split_and!; try done; try (by intros ? [= ->] _; apply Ho); intros; simplify_eq/=; code.
  by apply Ho.
Qed.

Lemma visits_owe ch me l j : owes (concat (wakeup_visit ch me <$> l)) j = false.
Proof.
  induction l as [|j' l IH]; [done|]. rewrite fmap_cons. cbn [concat]. unfold wakeup_visit at 1. case_decide; [done|]. simpl.
  by repeat case_decide.
Qed.

Lemma visits_good ch me l : wf me (concat (wakeup_visit ch me <$> l)) ∧ quiet (concat (wakeup_visit ch me <$> l)) = true ∧
  Forall (visits ch) (concat (wakeup_visit ch me <$> l)).
Proof.
  induction l as [|j l (IHw & IHq & IHv)]; [done|]. rewrite fmap_cons. cbn [concat]. unfold wakeup_visit at 1 3 5.
  case_decide; [done|]. cbn [app]. split_and!; [|done|by repeat constructor].
  cbn [wf local quiet]. rewrite IHq. split_and!; try done; intros; simplify_eq; simpl; by rewrite ?visits_owe, ?decide_True.
Qed.

Lemma wakeup_all ch me j : me ≠ Some j → (j < NPROC)%nat → WakeIf ch j ∈ wakeup_code ch me.
Proof.
  intros Hne Hj. unfold wakeup_code. apply list_elem_of_In, in_concat. exists (wakeup_visit ch me j). split.
  - apply list_elem_of_In, list_elem_of_fmap. exists j. split; [done|]. by apply elem_of_proc_ids.
  - unfold wakeup_visit. rewrite decide_False by done. simpl. auto.
Qed.

Lemma body_good me f cs : body me f = Some cs → good me f cs ∧ ∀ j, owes cs j = false.
Proof.
  destruct f as [ch lk|ch| |pid j|lk|lk|]; simpl.
  - destruct me as [i|]; [|done]. destruct (is_plock lk) eqn:Hp; [done|]. intros [= <-]. split.
    + split; [by apply sleep_wf|]. split; [done|]. by exists i.
    + intros j. simpl. rewrite !(decide_False (P := lk = LkProc j)) by (by apply plock_ne). by repeat case_decide.
  - intros [= <-]. unfold wakeup_code. destruct (visits_good ch me proc_ids) as (? & ? & ?). split; [done|]. intros j. apply visits_owe.
  - destruct me as [i|]; [|done]. intros [= <-]. unfold yield_code. split; [split; [|done]|].
    + cbn [wf local quiet]. split_and!; try done; intros; simplify_eq; simpl; by repeat case_decide; naive_solver.
    + intros j. simpl. by repeat case_decide.
  - intros [= <-]. unfold kill_code. split; [split; [|done]|].
    + cbn [wf local quiet]. split_and!; try done; intros; simplify_eq; simpl; by rewrite ?decide_True.
    + intros j'. simpl. by repeat case_decide.
  - destruct (is_plock lk) eqn:Hp; [done|]. intros [= <-]. split; [|intros j; by code]. split; [|done].
    cbn [wf local quiet]. split_and!; try done. by intros j ->.
  - destruct (is_plock lk) eqn:Hp; [done|]. intros [= <-]. split; [|intros j; by code]. split; [|done].
    cbn [wf local quiet]. split_and!; try done.
  - by destruct me.
Qed.

Lemma forkret_good i : good (Some i) InForkret (forkret_code i) ∧ ∀ j, owes (forkret_code i) j = true ↔ j = i.
Proof.
  unfold forkret_code. split; [split; [|done]|].
  - cbn [wf local quiet]. by split_and!.
  - intros j. simpl. case_decide; naive_solver.
Qed.

(** The stages of sleep(). *)
Lemma suffix_step {A} (l : list A) c k : l `suffix_of` c :: k → l = c :: k ∨ l `suffix_of` k.
Proof.
  intros [[|x pre] He]; simpl in He; [by left|]. right. injection He as _ ->. by exists pre.
Qed.

Lemma sleep_stage ch lk i cs : is_plock lk = false → cs `suffix_of` sleep_code ch lk i →
  (Release lk ∉ cs → CallSched ∈ cs → owes cs i = true) ∧
  (∀ cs', cs = CallSched :: cs' → Release lk ∉ cs ∧ cs' = [SetChan None; Release (LkProc i); Acquire lk]) ∧
  (∀ ch' cs', cs = SetChan (Some ch') :: cs' → ch' = ch) ∧
  (∀ cs', cs = SetChan None :: cs' → SetChan None ∉ cs') ∧
  (∀ c, cs = [c] → c = Acquire lk).
Proof.
  intros Hp Hs. pose proof (plock_ne lk i Hp) as Hn. unfold sleep_code in Hs.
  repeat (apply suffix_step in Hs as [->|Hs]; [split_and!; intros; simplify_eq/=; rewrite ?decide_True by done; set_solver|]).
  apply suffix_nil_inv in Hs as ->. split_and!; intros; simplify_eq; set_solver.
Qed.

(** ** The invariant *)
Definition owes_pc (x : pc) (j : nat) : bool :=
  match x with
  | Client => false
  | Run _ cs => owes cs j
  | Picked j' | Chosen j' | Entering j' | Leaving j' | Putting j' => bool_decide (j = j')
  end.

Definition quiet_pc (x : pc) : bool := match x with Run _ cs => quiet cs | _ => true end.

Definition code_ok (me : option nat) (x : pc) : Prop :=
  match x with Client => True | Run f cs => good me f cs | _ => me = None end.

(** What a saved context of process [i] does. *)
Definition ctx_ok (i : nat) (c : context) : Prop :=
  good (Some i) (c_fun c) (c_rest c) ∧ (∀ j, owes (c_rest c) j = true ↔ j = i) ∧ quiet (c_rest c) = true ∧
  (∀ r, ∃ x, resume c r = Ok tt (set_cpu x r) ∧ same_but_intr r (set_cpu x r)) ∧
  match c_fun c with
  | InSleep ch lk => c_rest c = [SetChan None; Release (LkProc i); Acquire lk]
  | InWakeup _ => False
  | _ => True
  end.

Definition myproc_ok (hh : hart) : Prop :=
  match at_pc hh with
  | Client | Run _ _ => c_proc (hc hh) = on hh
  | Entering j => c_proc (hc hh) = Some j
  | Leaving _ => True
  | Picked _ | Chosen _ | Putting _ => c_proc (hc hh) = None
  end.

(** Between [p->chan = chan] and [p->chan = 0]. *)
Definition on_chan (ch : chan) (cs : list stmt) : Prop := SetChan None ∈ cs ∧ SetChan (Some ch) ∉ cs.

Record inv (m : mp) : Prop := {
  iv_id : ∀ h, c_id (hc (harts m h)) = Z.of_nat h;
  iv_proc : ∀ h, myproc_ok (harts m h);
  iv_one : ∀ h i, on (harts m h) = Some i → saved m i = None ∧ ∀ h', on (harts m h') = Some i → h' = h;
  iv_code : ∀ h, code_ok (on (harts m h)) (at_pc (harts m h));
  iv_saved : ∀ i c, saved m i = Some c → ctx_ok i c;
  iv_lock : ∀ h j, locks (sh m) !! LkProc j = Some (Z.of_nat h) ↔ owes_pc (at_pc (harts m h)) j = true;
  iv_running : ∀ h i p, on (harts m h) = Some i → quiet_pc (at_pc (harts m h)) = true →
    procs (sh m) !! i = Some p → p_state p = RUNNING;
  iv_ready : ∀ i p, procs (sh m) !! i = Some p → p_state p = RUNNABLE ∨ p_state p = SLEEPING →
    saved m i ≠ None ∨ ∃ h, on (harts m h) = Some i;
  iv_chosen : ∀ h i, at_pc (harts m h) = Chosen i ∨ at_pc (harts m h) = Entering i →
    saved m i ≠ None ∧ ∀ p, procs (sh m) !! i = Some p → p_state p = RUNNING;
  iv_chan : ∀ h i ch lk cs p, on (harts m h) = Some i → at_pc (harts m h) = Run (InSleep ch lk) cs → on_chan ch cs →
    procs (sh m) !! i = Some p → p_chan p = Some ch;
  iv_chan' : ∀ i c ch lk p, saved m i = Some c → c_fun c = InSleep ch lk → procs (sh m) !! i = Some p → p_chan p = Some ch;
  iv_back : ∀ h ch lk, at_pc (harts m h) = Run (InSleep ch lk) [] → locks (sh m) !! lk = Some (Z.of_nat h);
  iv_wake : ∀ h ch lk cs i, at_pc (harts m h) = Run (InWakeup (Some ch)) cs → locks (sh m) !! lk = Some (Z.of_nat h) →
    is_plock lk = false → on (harts m h) ≠ Some i → (i < NPROC)%nat → WakeIf (Some ch) i ∉ cs → ¬ dozing m i ch lk;
}.

(** ** The invariant holds *)
Lemma inv_booted m : booted m → inv m.
Proof.
  intros (Hl & Hh & Hs). assert (Hon : ∀ h, on (harts m h) = None) by (intros; apply Hh).
  assert (Hat : ∀ h, at_pc (harts m h) = Client) by (intros; apply Hh).
  assert (Hns : ∀ i p, procs (sh m) !! i = Some p → p_state p ≠ SLEEPING) by (intros i; apply Hs).
  split; intros h; try (intros *; rewrite (Hon h) || rewrite (Hat h); discriminate).
  - apply Hh.
  - unfold myproc_ok. rewrite Hat, Hon. apply Hh.
  - by rewrite Hat.
  - intros c Hc. destruct (Hs h) as [Hi _]. rewrite Hc in Hi. subst c. destruct (forkret_good h) as [? ?].
    split_and!; try done. intros r. exists (cpu r). by destruct r.
  - intros j. rewrite Hl, lookup_empty, Hat. done.
  - intros p Hp [Hr|Hr]; [|by apply Hns in Hp]. destruct (Hs h) as [Hi _]. left. intros Hc. rewrite Hc in Hi. by apply Hi in Hp.
  - intros i. rewrite (Hat h). by intros [?|?].
  - intros c ch lk p Hc Hf. destruct (Hs h) as [Hi _]. rewrite Hc in Hi. by subst c.
  - intros ch lk cs i. by rewrite (Hat h).
Qed.

(** What a step of hart [h] leaves alone. *)
Record frame (h : nat) (m m' : mp) : Prop := {
  fr_hart : ∀ h', h' ≠ h → harts m' h' = harts m h';
  fr_cpu : hc (harts m' h) = cpu (sh m');
  fr_id : c_id (cpu (sh m')) = Z.of_nat h;
  fr_lock : ∀ lk h', h' ≠ h → locks (sh m') !! lk = Some (Z.of_nat h') ↔ locks (sh m) !! lk = Some (Z.of_nat h');
  fr_proc : ∀ i p', procs (sh m') !! i = Some p' → ∃ p, procs (sh m) !! i = Some p ∧
    (on (harts m h) ≠ Some i → p_chan p' = p_chan p ∧
      (p_state p' = p_state p ∨ (p_state p = SLEEPING ∧ p_state p' = RUNNABLE) ∨
       (at_pc (harts m h) = Picked i ∧ p_state p = RUNNABLE ∧ p_state p' = RUNNING)));
  fr_saved : ∀ i, on (harts m h) ≠ Some i → at_pc (harts m h) ≠ Entering i → saved m' i = saved m i;
}.

Lemma lock_frame h lk s s' : c_id (cpu s) = Z.of_nat h →
  (locks s' = locks s ∨ (locks s !! lk = None ∧ locks s' = <[lk := c_id (cpu s)]> (locks s)) ∨
   (locks s !! lk = Some (c_id (cpu s)) ∧ locks s' = delete lk (locks s))) →
  ∀ lk' h', h' ≠ h → locks s' !! lk' = Some (Z.of_nat h') ↔ locks s !! lk' = Some (Z.of_nat h').
Proof.
  intros Hid Hl lk' h' Hne. destruct Hl as [->|[[Hn ->]|[Hn ->]]]; [done|..]; rewrite Hid in *; destruct (decide (lk' = lk)) as [->|].
  - rewrite lookup_insert_eq, Hn. split; [|done]. intros [= He]. lia.
  - by rewrite lookup_insert_ne.
  - rewrite lookup_delete_eq, Hn. split; [done|]. intros [= He]. lia.
  - by rewrite lookup_delete_ne.
Qed.

(** The process table after a statement. *)
Lemma effect_procs me c s s' i p' : effect me c s s' → procs s' !! i = Some p' →
  ∃ p, procs s !! i = Some p ∧
    ((p_chan p' = p_chan p ∧ ∀ ch, c = SetChan ch → me ≠ Some i) ∨ (me = Some i ∧ ∃ ch, c = SetChan ch ∧ p_chan p' = ch)) ∧
    (p_state p' = p_state p ∨ (p_state p = SLEEPING ∧ p_state p' = RUNNABLE) ∨ (me = Some i ∧ ∃ st, c = SetState st)).
Proof.
  assert (Halt : ∀ f j, procs s' = alter f j (procs s) → procs s' !! i = Some p' →
    ∃ p, procs s !! i = Some p ∧ ((i ≠ j ∧ p' = p) ∨ (i = j ∧ p' = f p))).
  { intros f j -> Hp. destruct (decide (i = j)) as [->|]; [|rewrite list_lookup_alter_ne in Hp by done; eauto].
    rewrite list_lookup_alter_eq in Hp. apply fmap_Some in Hp as (p & ? & ->). eauto. }
  intros (_ & _ & He) Hp'. destruct c as [lk|lk|ch|st| |ch j|pid j]; try done.
  - destruct He as (_ & _ & He). rewrite He in Hp'. exists p'. naive_solver.
  - destruct He as (_ & _ & He). rewrite He in Hp'. exists p'. naive_solver.
  - destruct He as (_ & j & -> & He). destruct (Halt _ _ He Hp') as (p & Hp & [[? ->]|[-> ->]]); exists p; simpl; [|eauto 8].
    split; [done|]. split; [left; split; [done|]; congruence|by left].
  - destruct He as (_ & j & -> & He). destruct (Halt _ _ He Hp') as (p & Hp & [[? ->]|[-> ->]]); exists p; simpl; naive_solver.
  - destruct He as (_ & He). destruct (Halt _ _ He Hp') as (p & Hp & [[? ->]|[-> ->]]); exists p; [naive_solver|].
    split; [done|]. unfold wake. case_bool_decide as Hb; [|naive_solver]. destruct Hb. simpl. naive_solver.
  - destruct He as (_ & He). destruct (Halt _ _ He Hp') as (p & Hp & [[? ->]|[-> ->]]); exists p; [naive_solver|].
    split; [done|]. unfold kill_if, killed_proc. destruct (_ =? pid); [|naive_solver]. case_bool_decide; simpl; naive_solver.
Qed.

Lemma effect_locks h me c s s' : effect me c s s' → c_id (cpu s) = Z.of_nat h →
  ∀ lk h', h' ≠ h → locks s' !! lk = Some (Z.of_nat h') ↔ locks s !! lk = Some (Z.of_nat h').
Proof.
  intros (_ & _ & He) Hid. destruct c as [lk|lk|ch|st| |ch j|pid j]; try done.
  1-2: apply (lock_frame h lk s s' Hid); naive_solver.
  all: apply (lock_frame h LkPid s s' Hid); left; by destruct He.
Qed.

Lemma frame_put h m s' o x sv : inv m → c_id (cpu s') = c_id (cpu (look h m)) →
  (∀ lk h', h' ≠ h → locks s' !! lk = Some (Z.of_nat h') ↔ locks (look h m) !! lk = Some (Z.of_nat h')) →
  (∀ i p', procs s' !! i = Some p' → ∃ p, procs (look h m) !! i = Some p ∧
    (on (harts m h) ≠ Some i → p_chan p' = p_chan p ∧
      (p_state p' = p_state p ∨ (p_state p = SLEEPING ∧ p_state p' = RUNNABLE) ∨
       (at_pc (harts m h) = Picked i ∧ p_state p = RUNNABLE ∧ p_state p' = RUNNING)))) →
  (∀ i, on (harts m h) ≠ Some i → at_pc (harts m h) ≠ Entering i → sv i = saved m i) →
  frame h m (mkMp s' (<[h := mkHart (cpu s') o x]> (harts m)) sv).
Proof.
  intros Hi Hid Hl Hp Hsv. split; simpl; try done.
  - intros h' Hne. by rewrite fn_lookup_insert_ne.
  - by rewrite fn_lookup_insert.
  - rewrite Hid. apply (iv_id m Hi).
Qed.

Lemma frame_intr h m s' o x sv : inv m → same_but_intr (look h m) s' ∨
    (procs s' = procs (look h m) ∧ locks s' = locks (look h m) ∧ c_id (cpu s') = c_id (cpu (look h m))) →
  (∀ i, on (harts m h) ≠ Some i → at_pc (harts m h) ≠ Entering i → sv i = saved m i) →
  frame h m (mkMp s' (<[h := mkHart (cpu s') o x]> (harts m)) sv).
Proof.
  intros Hi Hs Hsv. assert (Hs' : procs s' = procs (look h m) ∧ locks s' = locks (look h m) ∧ c_id (cpu s') = c_id (cpu (look h m))).
  { destruct Hs as [(? & ? & ? & _)|?]; done. }
  destruct Hs' as (Hp & Hl & Hid). apply frame_put; try done.
  - by rewrite Hl.
  - rewrite Hp. intros i p Hpi. exists p. auto.
Qed.

Lemma frame_effect h m me c s' o x : inv m → effect me c (look h m) s' → me = on (harts m h) ∨ (∃ lk, c = Acquire lk ∨ c = Release lk) →
  frame h m (put h s' o x m).
Proof.
  intros Hi He Hme. pose proof (iv_id m Hi h) as Hid. apply frame_put; try done; [apply He|by eapply effect_locks|].
  intros i p' Hp'. destruct (effect_procs _ _ _ _ _ _ He Hp') as (p & Hp & Hch & Hst). exists p. split; [done|]. intros Hne.
  destruct Hme as [->|(lk & [-> | ->])]; naive_solver.
Qed.

Lemma step_frame h m m' : inv m → step h m m' → frame h m m'.
Proof.
  intros Hi Hs. pose proof (iv_saved m Hi) as Hsv.
  destruct Hs as [s' Hx Hps Hlk Hci Hcp|f cs Hx Hb|f c cs s' Hx He|f Hx|f c cs s' k i Hx He Ho|j s' Hx Ho Hj Ha|j Hx Hst|j Hx Hst|j Hx|j c s' Hx Hc Hr|j Hx|j s' Hx Hr].
  - apply frame_intr; auto.
  - apply frame_intr; auto.
  - eapply frame_effect; [done|by apply exec_effect|by left].
  - apply frame_intr; auto.
  - apply exec_switch in He as (_ & Hsm & _). apply frame_intr; [done|by left|].
    intros i' Hne _. simpl. rewrite fn_lookup_insert_ne; [done|congruence].
  - eapply (frame_effect _ _ None (Acquire (LkProc j))); [done|by apply exec_effect|eauto].
  - apply frame_put; try done. simpl. intros i p' Hp'. destruct (decide (i = j)) as [->|Hne].
    + rewrite list_lookup_alter_eq in Hp'. apply fmap_Some in Hp' as (p & Hp & ->). exists p. split; [done|]. intros _.
      rewrite (list_lookup_total_correct _ _ _ Hp) in Hst. auto 6.
    + rewrite list_lookup_alter_ne in Hp' by done. eauto 6.
  - apply frame_intr; auto.
  - apply frame_intr; auto.
  - destruct (Hsv j c Hc) as (_ & _ & _ & Hres & _). destruct (Hres (look h m)) as (x & Hx' & Hsm). rewrite Hr in Hx'. injection Hx' as ->.
    apply frame_intr; [done|by left|]. intros i' _ Hne. simpl. rewrite fn_lookup_insert_ne; [done|congruence].
  - apply frame_intr; auto.
  - eapply (frame_effect _ _ None (Release (LkProc j))); [done|by apply exec_effect|eauto].
Qed.

(** *** One step keeps each part of it *)
Section keep.
Context (h : nat) (m m' : mp) (Hi : inv m) (Hs : step h m m').

Let Hf : frame h m m' := step_frame h m m' Hi Hs.

(** A part that speaks about one hart: it is enough to look at [h]. *)
Lemma other_hart h' : h' ≠ h → harts m' h' = harts m h'.
Proof. apply Hf. Qed.

Lemma keep_id h' : c_id (hc (harts m' h')) = Z.of_nat h'.
Proof.
  destruct (decide (h' = h)) as [->|Hne]; [|rewrite other_hart by done; apply Hi].
  rewrite (fr_cpu _ _ _ Hf). apply Hf.
Qed.

Lemma keep_proc h' : myproc_ok (harts m' h').
Proof.
  destruct (decide (h' = h)) as [->|Hne]; [|rewrite other_hart by done; apply Hi].
  pose proof (iv_proc m Hi h) as Hp. unfold myproc_ok in *. clear Hf. revert Hp.
  destruct Hs as [s' Hx Hps Hlk Hci Hcp|f cs Hx Hb|f c cs s' Hx He|f Hx|f c cs s' k i Hx He Ho|j s' Hx Ho Hj Ha|j Hx Hst|j Hx Hst|j Hx|j c s' Hx Hc Hr|j Hx|j s' Hx Hr];
    rewrite Hx; simpl; rewrite fn_lookup_insert; simpl; intros Hp; try done.
  - by rewrite Hcp.
  - apply exec_effect in He as (_ & Hc & _). by rewrite Hc.
  - apply acquire_inv in Ha as [_ ->]. simpl. by rewrite Hp.
  - destruct (iv_saved m Hi j c Hc) as (_ & _ & _ & Hres & _). destruct (Hres (look h m)) as (x & Hx' & (_ & _ & _ & Hsm)).
    rewrite Hr in Hx'. injection Hx' as ->. by rewrite Hsm.
  - apply release_inv in Hr as (_ & _ & _ & _ & Hc). by rewrite Hc.
Qed.

(** Where the threads are: a step moves at most one between a hart and its saved
    context. *)
Lemma threads :
  ((∀ h', on (harts m' h') = on (harts m h')) ∧ ∀ i, saved m' i = saved m i) ∨
  (∃ i f cs s' k, at_pc (harts m h) = Run f (CallSched :: cs) ∧ on (harts m h) = Some i ∧ on (harts m' h) = None ∧
    exec_stmt (Some i) CallSched (look h m) = Switch s' k ∧ procs (sh m') = procs (sh m) ∧ saved m' = <[i := Some (mkCtx k f cs)]> (saved m)) ∨
  (∃ j c, at_pc (harts m h) = Entering j ∧ saved m j = Some c ∧ on (harts m h) = None ∧ on (harts m' h) = Some j ∧
    at_pc (harts m' h) = Run (c_fun c) (c_rest c) ∧ saved m' = <[j := None]> (saved m)).
Proof.
  pose proof (iv_code m Hi h) as Hcode. clear Hf. revert Hcode.
  assert (Hon : ∀ s o x, o = on (harts m h) → ∀ h', on ((<[h := mkHart s o x]> (harts m)) h') = on (harts m h')).
  { intros s o x -> h'. destruct (decide (h' = h)) as [->|]; [by rewrite fn_lookup_insert|by rewrite fn_lookup_insert_ne]. }
  destruct Hs as [s' Hx Hps Hlk Hci Hcp|f cs Hx Hb|f c cs s' Hx He|f Hx|f c cs s' k i' Hx He Ho|j s' Hx Ho Hj Ha|j Hx Hst|j Hx Hst|j Hx|j c s' Hx Hc Hr|j Hx|j s' Hx Hr];
    rewrite Hx; simpl; intros Hcode; try (left; split; [by apply Hon|done]).
  - right; left. destruct (exec_switch _ _ _ _ _ He) as (-> & (Hps & _) & _). rewrite fn_lookup_insert. rewrite Ho in He. eauto 14.
  - right; right. rewrite fn_lookup_insert. exists j, c. done.
Qed.

Lemma keep_one h' i : on (harts m' h') = Some i → saved m' i = None ∧ ∀ h2, on (harts m' h2) = Some i → h2 = h'.
Proof.
  pose proof (iv_one m Hi) as H1. pose proof other_hart as Ho. intros Hon.
  destruct threads as [[Hsame Hsv]|[(i0 & f & cs & s' & k & _ & Hi0 & Hn & _ & _ & Hsv)|(j & c & _ & Hj & Hn & Hnew & _ & Hsv)]].
  - rewrite Hsv. rewrite Hsame in Hon. destruct (H1 _ _ Hon) as [? Hu]. split; [done|]. intros h2. rewrite Hsame. apply Hu.
  - assert (h' ≠ h) by (intros ->; congruence). rewrite Ho in Hon by done. destruct (H1 _ _ Hon) as [? Hu].
    assert (i ≠ i0) by (intros ->; by apply Hu in Hi0). rewrite Hsv, fn_lookup_insert_ne by done. split; [done|].
    intros h2 Hh2. destruct (decide (h2 = h)) as [->|]; [congruence|]. rewrite Ho in Hh2 by done. by apply Hu.
  - assert (Hnj : ∀ h2, h2 ≠ h → on (harts m' h2) ≠ Some j) by (intros h2 Hne Hj2; rewrite Ho in Hj2 by done; apply H1 in Hj2 as [? _]; congruence).
    destruct (decide (h' = h)) as [->|Hne].
    + rewrite Hnew in Hon. injection Hon as ->. rewrite Hsv, fn_lookup_insert. split; [done|].
      intros h2 Hh2. destruct (decide (h2 = h)); [done|]. by apply Hnj in Hh2.
    + assert (i ≠ j) by (intros ->; by apply Hnj in Hon). rewrite Ho in Hon by done. destruct (H1 _ _ Hon) as [? Hu].
      rewrite Hsv, fn_lookup_insert_ne by done. split; [done|]. intros h2 Hh2. destruct (decide (h2 = h)) as [->|]; [congruence|].
      rewrite Ho in Hh2 by done. by apply Hu.
Qed.

Lemma keep_code h' : code_ok (on (harts m' h')) (at_pc (harts m' h')).
Proof.
  destruct (decide (h' = h)) as [->|Hne]; [|rewrite other_hart by done; apply Hi].
  pose proof (iv_code m Hi h) as Hcode. clear Hf. revert Hcode.
  destruct Hs as [s' Hx Hps Hlk Hci Hcp|f cs Hx Hb|f c cs s' Hx He|f Hx|f c cs s' k i' Hx He Ho|j s' Hx Ho Hj Ha|j Hx Hst|j Hx Hst|j Hx|j c s' Hx Hc Hr|j Hx|j s' Hx Hr];
    rewrite Hx; simpl; rewrite fn_lookup_insert; simpl; try done; intros Hcode.
  - by apply body_good.
  - by eapply good_tail.
  - by apply (iv_saved m Hi).
Qed.

Lemma keep_saved i c : saved m' i = Some c → ctx_ok i c.
Proof.
  destruct threads as [[_ Hsv]|[(i0 & f & cs & s' & k & Hx & Hi0 & Hn & He & _ & Hsv)|(j & c0 & _ & _ & _ & _ & _ & Hsv)]]; rewrite Hsv.
  - apply Hi.
  - destruct (decide (i = i0)) as [->|]; [|rewrite fn_lookup_insert_ne by done; apply Hi].
    rewrite fn_lookup_insert. intros [= <-]. destruct (exec_switch _ _ _ _ _ He) as (_ & _ & Hk).
    pose proof (iv_code m Hi h) as Hcode. rewrite Hx, Hi0 in Hcode. simpl in Hcode.
    pose proof (good_local _ _ _ _ Hcode) as [Hlo Hq]. unfold ctx_ok. simpl. split_and!; try done.
    + by eapply good_tail.
    + intros j. by apply Hlo.
    + destruct Hcode as [_ Hcode]. destruct f; try done.
      * destruct Hcode as (Hpl & i & [= <-] & Hsf). by destruct (sleep_stage _ _ _ _ Hpl Hsf) as (_ & Hst & _); apply Hst.
      * by inversion Hcode.
  - destruct (decide (i = j)) as [->|]; [by rewrite fn_lookup_insert|]. rewrite fn_lookup_insert_ne by done. apply Hi.
Qed.

(** Which proc[j].lock hart [h] has after a statement. *)
Lemma effect_owes me c cs s s' j : effect me c s s' → c_id (cpu s) = Z.of_nat h → local me c cs →
  (locks s !! LkProc j = Some (Z.of_nat h) ↔ owes (c :: cs) j = true) →
  locks s' !! LkProc j = Some (Z.of_nat h) ↔ owes cs j = true.
Proof.
  intros (_ & _ & He) Hid Hlo Hold. destruct c as [lk|lk|ch|st| |ch j'|pid j']; simpl in *; try done.
  - destruct He as (Hn & -> & _). rewrite Hid. case_decide as Hd.
    + subst lk. rewrite lookup_insert_eq. specialize (Hlo j eq_refl). naive_solver.
    + by rewrite lookup_insert_ne.
  - destruct He as (Hn & -> & _). case_decide as Hd.
    + subst lk. rewrite lookup_delete_eq. specialize (Hlo j eq_refl). rewrite Hlo. naive_solver.
    + by rewrite lookup_delete_ne.
  - by destruct He as (-> & _).
  - by destruct He as (-> & _).
  - by destruct He as (-> & _).
  - by destruct He as (-> & _).
Qed.

Lemma keep_lock h' j : locks (sh m') !! LkProc j = Some (Z.of_nat h') ↔ owes_pc (at_pc (harts m' h')) j = true.
Proof.
  destruct (decide (h' = h)) as [->|Hne]; [|rewrite other_hart, (fr_lock _ _ _ Hf) by done; apply Hi].
  pose proof (iv_lock m Hi h j) as Hl. pose proof (iv_code m Hi h) as Hcode. pose proof (iv_id m Hi h) as Hid. clear Hf. revert Hl Hcode.
  destruct Hs as [s' Hx Hps Hlk Hci Hcp|f cs Hx Hb|f c cs s' Hx He|f Hx|f c cs s' k i' Hx He Ho|j' s' Hx Ho Hj Ha|j' Hx Hst|j' Hx Hst|j' Hx|j' c s' Hx Hc Hr|j' Hx|j' s' Hx Hr];
    rewrite Hx; simpl; rewrite fn_lookup_insert; simpl; try done; intros Hl Hcode.
  - by rewrite Hlk.
  - destruct (body_good _ _ _ Hb) as [_ Hb']. by rewrite Hb'.
  - apply exec_effect in He. by apply (effect_owes _ _ _ _ _ j He Hid (good_local _ _ _ _ Hcode)).
  - destruct (exec_switch _ _ _ _ _ He) as (-> & (_ & Hlk & _) & _). rewrite Hlk. simpl. rewrite Hl. simpl.
    destruct (good_local _ _ _ _ Hcode) as [Hlo _]. rewrite (Hlo i' j Ho). by rewrite bool_decide_eq_true.
  - apply acquire_inv in Ha as [Hn ->]. simpl. rewrite Hid, bool_decide_eq_true. destruct (decide (j = j')) as [->|].
    + by rewrite lookup_insert_eq.
    + rewrite lookup_insert_ne by congruence. naive_solver.
  - destruct (iv_saved m Hi j' c Hc) as (_ & Ho & _ & Hres & _). destruct (Hres (look h m)) as (x & Hx' & (_ & Hlk & _)).
    rewrite Hr in Hx'. injection Hx' as ->. rewrite Hlk, Ho. simpl. rewrite Hl. by rewrite bool_decide_eq_true.
  - apply release_inv in Hr as (_ & -> & _). simpl. rewrite bool_decide_eq_true in Hl. destruct (decide (j = j')) as [->|].
    + by rewrite lookup_delete_eq.
    + rewrite lookup_delete_ne by congruence. naive_solver.
Qed.

Lemma keep_running h' i p : on (harts m' h') = Some i → quiet_pc (at_pc (harts m' h')) = true →
  procs (sh m') !! i = Some p → p_state p = RUNNING.
Proof.
  intros Hon Hq Hp. destruct (decide (h' = h)) as [->|Hne].
  - pose proof (iv_running m Hi h i) as Hr. pose proof (iv_code m Hi h) as Hcode. clear Hf. revert Hon Hq Hp Hr Hcode.
    destruct Hs as [s' Hx Hps Hlk Hci Hcp|f cs Hx Hb|f c cs s' Hx He|f Hx|f c cs s' k i' Hx He Ho|j s' Hx Ho Hj Ha|j Hx Hst|j Hx Hst|j Hx|j c s' Hx Hc Hr|j Hx|j s' Hx Hr];
      rewrite Hx; simpl; rewrite fn_lookup_insert; simpl; try done; intros Hon Hq Hp Hrun Hcode.
    + rewrite Hps in Hp. by apply Hrun.
    + by apply Hrun.
    + apply exec_effect in He. destruct (effect_procs _ _ _ _ _ _ He Hp) as (p0 & Hp0 & _ & Hst).
      pose proof (good_local _ _ _ _ Hcode) as Hlo.
      destruct c; simpl in *; try congruence; [..|by destruct He as (_ & _ & [])| |];
        specialize (Hrun p0 Hon Hq Hp0); destruct Hst as [?|[[? _]|(_ & ? & ?)]]; congruence.
    + by apply Hrun.
    + injection Hon as <-. destruct (iv_saved m Hi j c Hc) as (_ & _ & _ & Hres & _). destruct (Hres (look h m)) as (x & Hx' & (Hps & _)).
      rewrite Hr in Hx'. injection Hx' as ->. rewrite Hps in Hp. destruct (iv_chosen m Hi h j (or_intror Hx)) as [_ Hch]. by apply Hch.
  - rewrite other_hart in Hon, Hq by done. destruct (fr_proc _ _ _ Hf i p Hp) as (p0 & Hp0 & Hsame).
    pose proof (iv_running m Hi h' i p0 Hon Hq Hp0) as Hrun. destruct (iv_one m Hi h' i Hon) as [_ Hu].
    destruct Hsame as (_ & [?|[[? _]|(_ & ? & _)]]); try congruence. intros Ho. by apply Hu in Ho.
Qed.

Lemma keep_ready i p : procs (sh m') !! i = Some p → p_state p = RUNNABLE ∨ p_state p = SLEEPING →
  saved m' i ≠ None ∨ ∃ h', on (harts m' h') = Some i.
Proof.
  intros Hp Hst. destruct (fr_proc _ _ _ Hf i p Hp) as (p0 & Hp0 & Hsame).
  assert (Hold : on (harts m h) = Some i ∨ saved m i ≠ None ∨ ∃ h', on (harts m h') = Some i).
  { destruct (decide (on (harts m h) = Some i)) as [|Hne]; [by left|right]. apply (iv_ready m Hi i p0 Hp0).
    destruct (Hsame Hne) as (_ & [<-|[[? _]|(_ & ? & Hr)]]); [done|by right|]. rewrite Hr in Hst. naive_solver. }
  destruct threads as [[Hon Hsv]|[(i0 & f & cs & s' & k & _ & Hi0 & _ & _ & _ & Hsv)|(j & c & _ & _ & Hn & Hnew & _ & Hsv)]]; rewrite Hsv.
  - setoid_rewrite Hon. naive_solver.
  - destruct (decide (i = i0)) as [->|]; [left; by rewrite fn_lookup_insert|]. rewrite fn_lookup_insert_ne by done.
    destruct Hold as [?|[?|[h' Hh']]]; [congruence|by left|]. right. exists h'. rewrite other_hart; [done|]. intros ->. congruence.
  - destruct (decide (i = j)) as [->|]; [right; by exists h|]. rewrite fn_lookup_insert_ne by done.
    destruct Hold as [?|[?|[h' Hh']]]; [congruence|by left|]. right. exists h'. rewrite other_hart; [done|]. intros ->. congruence.
Qed.

(** Two harts do not have the same p->lock. *)
Lemma one_owner h1 h2 j : owes_pc (at_pc (harts m h1)) j = true → owes_pc (at_pc (harts m h2)) j = true → h1 = h2.
Proof. rewrite <- !(iv_lock m Hi). intros H1 H2. rewrite H1 in H2. injection H2. lia. Qed.

(** A RUNNABLE process whose lock the scheduler has is not on any hart. *)
Lemma picked_saved j p : at_pc (harts m h) = Picked j → procs (sh m) !! j = Some p → p_state p = RUNNABLE → saved m j ≠ None.
Proof.
  intros Hx Hp Hst. destruct (iv_ready m Hi j p Hp ltac:(by left)) as [?|[h2 Hon]]; [done|exfalso].
  pose proof (iv_code m Hi h) as Hc. rewrite Hx in Hc. simpl in Hc. pose proof (iv_code m Hi h2) as Hc2. rewrite Hon in Hc2.
  destruct (quiet_pc (at_pc (harts m h2))) eqn:Hq; [rewrite (iv_running m Hi h2 j p Hon Hq Hp) in Hst; done|].
  destruct (at_pc (harts m h2)) as [|f cs| | | | |] eqn:Hx2; try done. simpl in Hq, Hc2.
  assert (h = h2) as ->; [|congruence]. apply (one_owner _ _ j); [rewrite Hx|rewrite Hx2]; simpl; [by rewrite bool_decide_eq_true|].
  destruct Hc2 as [Hwf _]. destruct cs; by apply Hwf.
Qed.

Lemma keep_chosen h' i : at_pc (harts m' h') = Chosen i ∨ at_pc (harts m' h') = Entering i →
  saved m' i ≠ None ∧ ∀ p, procs (sh m') !! i = Some p → p_state p = RUNNING.
Proof.
  intros Hat. destruct (decide (h' = h)) as [->|Hne].
  - pose proof (iv_chosen m Hi h i) as Hch. pose proof picked_saved as Hpk. clear Hf. revert Hat Hch Hpk.
    destruct Hs as [s' Hx Hps Hlk Hci Hcp|f cs Hx Hb|f c cs s' Hx He|f Hx|f c cs s' k i' Hx He Ho|j s' Hx Ho Hj Ha|j Hx Hst|j Hx Hst|j Hx|j c s' Hx Hc Hr|j Hx|j s' Hx Hr];
      rewrite Hx; simpl; rewrite fn_lookup_insert; simpl; intros [Hat|Hat] Hch Hpk; try done; injection Hat as <-.
    + destruct (procs (sh m) !! j) as [p|] eqn:Hp.
      * split; [apply (Hpk j p eq_refl Hp); by rewrite <- (list_lookup_total_correct _ _ _ Hp)|].
        intros p'. rewrite list_lookup_alter_eq, Hp. intros [= <-]. done.
      * rewrite list_lookup_total_alt in Hst. simpl in Hst. by rewrite Hp in Hst.
    + apply Hch. by left.
  - rewrite other_hart in Hat by done. destruct (iv_chosen m Hi h' i Hat) as [Hsv Hrun].
    assert (Hon : on (harts m h) ≠ Some i) by (intros Hon; by apply (iv_one m Hi) in Hon as [? _]).
    assert (Hent : at_pc (harts m h) ≠ Entering i).
    { intros Hent. apply Hne, (one_owner _ _ i); [destruct Hat as [-> | ->]|rewrite Hent]; simpl; by rewrite bool_decide_eq_true. }
    rewrite (fr_saved _ _ _ Hf i Hon Hent). split; [done|]. intros p Hp. destruct (fr_proc _ _ _ Hf i p Hp) as (p0 & Hp0 & Hsame).
    specialize (Hrun p0 Hp0). destruct (Hsame Hon) as (_ & [?|[[? _]|(_ & ? & _)]]); congruence.
Qed.

Lemma keep_chan h' i ch lk cs p : on (harts m' h') = Some i → at_pc (harts m' h') = Run (InSleep ch lk) cs → on_chan ch cs →
  procs (sh m') !! i = Some p → p_chan p = Some ch.
Proof.
  intros Hon Hat [Hin Hout] Hp. destruct (decide (h' = h)) as [->|Hne].
  - pose proof (iv_code m Hi h) as Hcode. clear Hf. revert Hon Hat Hp Hcode.
    destruct Hs as [s' Hx Hps Hlk Hci Hcp|f cs0 Hx Hb|f c cs0 s' Hx He|f Hx|f c cs0 s' k i' Hx He Ho|j s' Hx Ho Hj Ha|j Hx Hst|j Hx Hst|j Hx|j c s' Hx Hc Hr|j Hx|j s' Hx Hr];
      rewrite Hx; simpl; rewrite fn_lookup_insert; simpl; try done; intros Hon Hat Hp Hcode; injection Hat.
    + intros -> ->. revert Hb. simpl. rewrite Hon. destruct (is_plock lk); [done|]. intros [= <-]. exfalso. apply Hout. unfold sleep_code. set_solver.
    + intros -> ->. apply exec_effect in He. destruct (effect_procs _ _ _ _ _ _ He Hp) as (p0 & Hp0 & Hch & _).
      destruct Hcode as (_ & Hpl & i0 & Hi0 & Hsf). destruct (sleep_stage _ _ _ _ Hpl Hsf) as (_ & _ & Hsome & Hnone & _).
      destruct Hch as [[-> Hno]|(_ & [ch'|] & -> & ->)].
      * apply (iv_chan m Hi h i ch lk (c :: cs) p0 Hon Hx); [|done]. split; [by right|].
        intros [<-|?]%elem_of_cons; [|done]. by apply (Hno (Some ch)).
      * by rewrite (Hsome ch' cs eq_refl).
      * by destruct (Hnone cs eq_refl).
    + intros Hcs Hfn. injection Hon as <-. destruct (iv_saved m Hi j c Hc) as (_ & _ & _ & Hres & _). destruct (Hres (look h m)) as (x & Hx' & (Hps & _)).
      rewrite Hr in Hx'. injection Hx' as ->. rewrite Hps in Hp. by apply (iv_chan' m Hi j c ch lk p Hc).
  - rewrite other_hart in Hon, Hat by done. destruct (fr_proc _ _ _ Hf i p Hp) as (p0 & Hp0 & Hsame).
    destruct (iv_one m Hi h' i Hon) as [_ Hu]. destruct Hsame as [-> _]; [intros Ho; by apply Hu in Ho|].
    by apply (iv_chan m Hi h' i ch lk cs p0).
Qed.

Lemma keep_chan' i c ch lk p : saved m' i = Some c → c_fun c = InSleep ch lk → procs (sh m') !! i = Some p → p_chan p = Some ch.
Proof.
  intros Hc Hfn Hp. destruct (fr_proc _ _ _ Hf i p Hp) as (p0 & Hp0 & Hsame).
  assert (Hold : saved m i = Some c → p_chan p = Some ch).
  { intros Hold. destruct Hsame as [-> _]; [|by apply (iv_chan' m Hi i c ch lk p0)].
    intros Hon. apply (iv_one m Hi) in Hon as [? _]. congruence. }
  destruct threads as [[_ Hsv]|[(i0 & f & cs & s' & k & Hx & Hi0 & _ & He & Hps & Hsv)|(j & c0 & _ & _ & _ & _ & _ & Hsv)]]; rewrite Hsv in Hc; [auto| |].
  - destruct (decide (i = i0)) as [->|]; [|rewrite fn_lookup_insert_ne in Hc by done; auto].
    rewrite fn_lookup_insert in Hc. injection Hc as <-. simpl in Hfn. subst f.
    pose proof (iv_code m Hi h) as Hcode. rewrite Hx in Hcode. destruct Hcode as (_ & Hpl & i1 & _ & Hsf).
    destruct (sleep_stage _ _ _ _ Hpl Hsf) as (_ & Hst & _). destruct (Hst cs eq_refl) as [_ ->].
    apply (iv_chan m Hi h i0 ch lk _ p Hi0 Hx); [split; set_solver|by rewrite <- Hps].
  - destruct (decide (i = j)) as [->|]; [by rewrite fn_lookup_insert in Hc|]. rewrite fn_lookup_insert_ne in Hc by done. auto.
Qed.

Lemma keep_back h' ch lk : at_pc (harts m' h') = Run (InSleep ch lk) [] → locks (sh m') !! lk = Some (Z.of_nat h').
Proof.
  intros Hat. destruct (decide (h' = h)) as [->|Hne]; [|rewrite other_hart in Hat by done; apply (fr_lock _ _ _ Hf); [done|by eapply iv_back]].
  pose proof (iv_code m Hi h) as Hcode. pose proof (iv_id m Hi h) as Hid. clear Hf. revert Hat Hcode.
  destruct Hs as [s' Hx Hps Hlk Hci Hcp|f cs0 Hx Hb|f c cs0 s' Hx He|f Hx|f c cs0 s' k i' Hx He Ho|j s' Hx Ho Hj Ha|j Hx Hst|j Hx Hst|j Hx|j c s' Hx Hc Hr|j Hx|j s' Hx Hr];
    rewrite Hx; simpl; rewrite fn_lookup_insert; simpl; try done; intros Hat Hcode; injection Hat.
  - intros -> ->. revert Hb. simpl. destruct (on _); [|done]. by destruct (is_plock lk).
  - intros -> ->. destruct Hcode as (_ & Hpl & i0 & _ & Hsf). destruct (sleep_stage _ _ _ _ Hpl Hsf) as (_ & _ & _ & _ & Hlast).
    rewrite (Hlast c eq_refl) in He. apply exec_effect in He as (_ & _ & _ & -> & _). rewrite lookup_insert_eq. by rewrite <- Hid.
  - intros Hcs Hfn. destruct (iv_saved m Hi j c Hc) as (_ & _ & _ & _ & Hrest). by rewrite Hfn, Hcs in Hrest.
Qed.

(** A process begins to doze only when it releases lk. *)
Lemma dozing_back i ch lk : is_plock lk = false → dozing m' i ch lk → dozing m i ch lk ∨ locks (sh m') !! lk = None.
Proof.
  intros Hpl Hd. destruct Hd as [h' cs Hon Hat Hrel Hsch|c p Hc Hfn Hp Hst].
  - destruct (decide (h' = h)) as [->|Hne]; [|rewrite other_hart in Hon, Hat by done; left; by eapply doze_going].
    clear Hf. revert Hon Hat.
    destruct Hs as [s' Hx Hps Hlk Hci Hcp|f cs0 Hx Hb|f c cs0 s' Hx He|f Hx|f c cs0 s' k i' Hx He Ho|j s' Hx Ho Hj Ha|j Hx Hst|j Hx Hst|j Hx|j c s' Hx Hc Hr|j Hx|j s' Hx Hr];
      simpl; rewrite fn_lookup_insert; simpl; try done; intros Hon Hat; injection Hat.
    + intros -> ->. exfalso. revert Hb. simpl. rewrite Hon, Hpl. intros [= <-]. apply Hrel. unfold sleep_code. set_solver.
    + intros -> ->. destruct (decide (c = Release lk)) as [->|Hc].
      * right. apply exec_effect in He as (_ & _ & _ & -> & _). apply lookup_delete_eq.
      * left. eapply doze_going; [done|done| |by right]. intros [?|?]%elem_of_cons; [congruence|done].
    + intros Hcs Hfn. exfalso. destruct (iv_saved m Hi j c Hc) as (_ & _ & _ & _ & Hrest). rewrite Hfn, Hcs in Hrest. rewrite Hrest, !elem_of_cons, elem_of_nil in Hsch. naive_solver.
  - left. destruct (fr_proc _ _ _ Hf i p Hp) as (p0 & Hp0 & Hsame).
    assert (Hold : saved m i = Some c → dozing m i ch lk).
    { intros Hold. eapply doze_gone; [done|done|done|]. destruct Hsame as [_ Hsame].
      { intros Hon. apply (iv_one m Hi) in Hon as [? _]. congruence. }
      destruct Hsame as [?|[[_ ?]|(_ & _ & ?)]]; congruence. }
    destruct threads as [[_ Hsv]|[(i0 & f & cs & s' & k & Hx & Hi0 & _ & He & Hps & Hsv)|(j & c0 & _ & _ & _ & _ & _ & Hsv)]]; rewrite Hsv in Hc; [auto| |].
    + destruct (decide (i = i0)) as [->|]; [|rewrite fn_lookup_insert_ne in Hc by done; auto].
      rewrite fn_lookup_insert in Hc. injection Hc as <-. simpl in Hfn. subst f.
      pose proof (iv_code m Hi h) as Hcode. rewrite Hx in Hcode. destruct Hcode as (_ & _ & i1 & _ & Hsf).
      destruct (sleep_stage _ _ _ _ Hpl Hsf) as (_ & Hst' & _). destruct (Hst' cs eq_refl) as [? _].
      eapply doze_going; [done|done|done|by left].
    + destruct (decide (i = j)) as [->|]; [by rewrite fn_lookup_insert in Hc|]. rewrite fn_lookup_insert_ne in Hc by done. auto.
Qed.

(** wakeup() has looked at [i] with its lock held: [i] is not dozing any more. *)
Lemma wake_wakes s' i ch lk cs : at_pc (harts m h) = Run (InWakeup (Some ch)) (WakeIf (Some ch) i :: cs) →
  exec_stmt (on (harts m h)) (WakeIf (Some ch) i) (look h m) = Ok tt s' → sh m' = s' → on (harts m h) ≠ Some i →
  is_plock lk = false → dozing m' i ch lk → dozing m i ch lk → False.
Proof.
  intros Hx He Hsh Hne Hpl Hd' Hd. pose proof (iv_code m Hi h) as Hcode. rewrite Hx in Hcode. simpl in Hcode. pose proof (good_local _ _ _ _ Hcode) as Hlo.
  assert (Howe : owes_pc (at_pc (harts m h)) i = true) by (by rewrite Hx).
  destruct Hd as [h2 cs2 Hon Hat Hrel Hsch|c p Hc Hfn Hp Hst].
  - pose proof (iv_code m Hi h2) as Hcode2. rewrite Hat, Hon in Hcode2. destruct Hcode2 as (_ & _ & i1 & [= <-] & Hsf).
    destruct (sleep_stage _ _ _ _ Hpl Hsf) as (Hst & _). specialize (Hst Hrel Hsch).
    assert (h2 = h) as -> by (apply (one_owner _ _ i); [by rewrite Hat|done]). done.
  - apply exec_effect in He as (_ & _ & _ & Hps). pose proof (iv_chan' m Hi i c ch lk p Hc Hfn Hp) as Hch.
    assert (Hp' : procs (sh m') !! i = Some (wake (Some ch) p)) by (rewrite Hsh, Hps, list_lookup_alter_eq; simpl; by rewrite Hp).
    unfold wake in Hp'. rewrite bool_decide_true in Hp' by done.
    destruct Hd' as [h2 cs2 Hon _ _ _|c' p' _ _ Hp2 Hst2].
    + destruct (decide (h2 = h)) as [->|Hn2]; [|rewrite other_hart in Hon by done; apply (iv_one m Hi) in Hon as [? _]; congruence].
      destruct threads as [[Hsame _]|[(i0 & f & cs0 & s2 & k & Hx2 & _)|(j & c0 & Hx2 & _)]]; [|congruence..]. by rewrite Hsame in Hon.
    + rewrite Hp' in Hp2. injection Hp2 as <-. done.
Qed.

Lemma keep_wake h' ch lk cs i : at_pc (harts m' h') = Run (InWakeup (Some ch)) cs → locks (sh m') !! lk = Some (Z.of_nat h') →
  is_plock lk = false → on (harts m' h') ≠ Some i → (i < NPROC)%nat → WakeIf (Some ch) i ∉ cs → ¬ dozing m' i ch lk.
Proof.
  intros Hat Hl Hpl Hne Hn Hv Hd'. destruct (dozing_back i ch lk Hpl Hd') as [Hd|]; [|congruence].
  destruct (decide (h' = h)) as [->|Hh'].
  2: { rewrite other_hart in Hat, Hne by done. apply (fr_lock _ _ _ Hf) in Hl; [|done]. by eapply (iv_wake m Hi h'). }
  pose proof (iv_code m Hi h) as Hcode. pose proof (iv_wake m Hi h ch lk) as Hw. pose proof wake_wakes as Hww. clear Hf.
  revert Hat Hl Hne Hd' Hcode Hw Hww.
  destruct Hs as [s' Hx Hps Hlk Hci Hcp|f cs0 Hx Hb|f c cs0 s' Hx He|f Hx|f c cs0 s' k i' Hx He Ho|j s' Hx Ho Hj Ha|j Hx Hst|j Hx Hst|j Hx|j c s' Hx Hc Hr|j Hx|j s' Hx Hr];
    rewrite Hx; simpl; rewrite fn_lookup_insert; simpl; try done; intros Hat Hl Hne Hd' Hcode Hw Hww; injection Hat.
  - intros -> ->. apply Hv. revert Hb. simpl. intros [= <-]. by apply wakeup_all.
  - intros -> ->. destruct (decide (c = WakeIf (Some ch) i)) as [->|Hc]; [by eapply Hww|].
    apply (Hw (c :: cs) i eq_refl); try done; [|by intros [?|?]%elem_of_cons].
    destruct Hcode as [_ Hvis]. inversion Hvis as [|? ? Hc1 _]. subst. apply exec_effect in He as (_ & _ & He).
    destruct c; simpl in Hc1, He; try done.
    + destruct He as (_ & He & _). rewrite He, lookup_insert_ne in Hl; [done|]. intros ->. congruence.
    + destruct He as (_ & He & _). rewrite He, lookup_delete_ne in Hl; [done|]. intros ->. congruence.
    + destruct He as (He & _). by rewrite He in Hl.
  - intros _ Hfn. destruct (iv_saved m Hi j c Hc) as (_ & _ & _ & _ & Hrest). by rewrite Hfn in Hrest.
Qed.

Lemma inv_statement : inv m'.
Proof.
  split; [apply keep_id|apply keep_proc|apply keep_one|apply keep_code|apply keep_saved|apply keep_lock|apply keep_running|
    apply keep_ready|apply keep_chosen|apply keep_chan|apply keep_chan'|apply keep_back|apply keep_wake].
Qed.
End keep.

Lemma inv_always m : reachable m → inv m.
Proof.
  intros (m0 & H0 & Hr). revert m Hr. apply rtc_ind_r; [by apply inv_booted|].
  intros m m' _ [h Hs] Hi. by eapply inv_statement.
Qed.

(** A dozing process is found SLEEPING by everyone who can get its lock. *)
Lemma dozing_found m : inv m → ∀ i ch lk, is_plock lk = false → dozing m i ch lk →
  (∃ h, on (harts m h) = Some i ∧ locks (sh m) !! LkProc i = Some (Z.of_nat h)) ∨
  (∃ p, procs (sh m) !! i = Some p ∧ p_state p = SLEEPING ∧ p_chan p = Some ch).
Proof.
  intros Hi i ch lk Hpl [h cs Hon Hat Hrel Hsch|c p Hc Hfn Hp Hst]; [left|right].
  - exists h. split; [done|]. apply (iv_lock m Hi). rewrite Hat. simpl. pose proof (iv_code m Hi h) as Hcode. rewrite Hat, Hon in Hcode.
    destruct Hcode as (_ & _ & i1 & [= <-] & Hsf). by apply (sleep_stage _ _ _ _ Hpl Hsf).
  - exists p. split; [done|]. split; [done|]. by apply (iv_chan' m Hi i c ch lk p).
Qed.

(** ** The functions of Sched.v are this code, run without interruption *)
Lemma sleep_runs ch lk s : sleep ch lk s = (i ← cur; run (Some i) (sleep_code ch lk i)) s.
Proof. reflexivity. Qed.

Lemma yield_runs s : yield s = (i ← cur; run (Some i) (yield_code i)) s.
Proof. reflexivity. Qed.

Lemma exec_wake me ch j s : exec_stmt me (WakeIf ch j) s = Ok tt (set_procs (alter (wake ch) j (procs s)) s).
Proof.
  simpl. mrun. unfold wake. rewrite <- (alter_if (λ p, bool_decide (p_state p = SLEEPING ∧ p_chan p = ch))).
  destruct (bool_decide _); [done|]. simpl. by rewrite set_procs_id.
Qed.

Lemma visit_runs me ch j cs s : me ≠ Some j → locks s !! LkProc j = None → cpu_ok (cpu s) →
  run me (Acquire (LkProc j) :: WakeIf ch j :: Release (LkProc j) :: cs) s =
  run me cs (set_procs (alter (wake ch) j (procs s)) s).
Proof.
  intros Hne Hl Hc. set (s1 := set_procs (alter (wake ch) j (procs s)) (hold (LkProc j) s)).
  assert (Hrel : release (LkProc j) s1 = Ok tt (set_procs (alter (wake ch) j (procs s)) s)).
  { rewrite (release_eq (LkProc j) s) by done. unfold unhold, s1. by destruct s. }
  assert (Hrun : run me (Acquire (LkProc j) :: WakeIf ch j :: Release (LkProc j) :: cs) s = run me (Release (LkProc j) :: cs) s1).
  { cbn [run]. rewrite (bind_ok _ _ s tt (hold (LkProc j) s) (acquire_eq _ s Hl)). by rewrite (bind_ok _ _ _ _ _ (exec_wake me ch j _)). }
  rewrite Hrun. destruct cs; [exact Hrel|]. cbn [run]. by rewrite (bind_ok _ _ s1 tt _ Hrel).
Qed.

Lemma acquire_stuck lk s : locks s !! lk ≠ None → acquire lk s = Hang ∨ ∃ msg s', acquire lk s = Panic msg s'.
Proof.
  intros Hl. unfold acquire, holding. rewrite (bind_ok _ _ _ _ _ (push_off_eq s)). mrun. simpl.
  destruct (bool_decide _); [right; by eexists _, _|]. mrun. simpl. destruct (locks s !! lk); [by left|done].
Qed.

Lemma wakeup_runs ch s : cpu_ok (cpu s) → wakeup ch s = run (c_proc (cpu s)) (wakeup_code ch (c_proc (cpu s))) s.
Proof.
  intros Hc. unfold wakeup, wakeup_code. generalize proc_ids. intros l. set (me := c_proc (cpu s)).
  assert (Hme : me = c_proc (cpu s)) by done. clearbody me. revert s Hc Hme. induction l as [|j l IH]; intros s Hc Hme; [done|].
  rewrite fmap_cons. cbn [concat for_each].
  assert (Hnext : ∀ s', wakeup_one ch j s = Ok None s' → cpu s' = cpu s →
    (for_each (j :: l) (wakeup_one ch) ≫= λ _ : option (), mret ()) s = run me (concat (wakeup_visit ch me <$> l)) s').
  { intros s' Hw Hs'. rewrite <- IH by (by rewrite ?Hs'). cbn [for_each]. unfold mbind, M_bind. by rewrite Hw. }
  unfold wakeup_visit at 1. case_decide as Hj; [|destruct (locks s !! LkProc j) as [z|] eqn:Hl].
  - apply (Hnext s); [|done]. rewrite wakeup_one_eq by (done || congruence).
    rewrite decide_True by congruence. rewrite list_alter_id by done. by rewrite set_procs_id.
  - assert (Hw : ∀ o, acquire (LkProc j) s = o → o = Hang ∨ (∃ msg s', o = Panic msg s') →
      wakeup_one ch j s = match o with Panic msg s' => Panic msg s' | _ => Hang end).
    { intros o Ho Hor. unfold wakeup_one. rewrite (bind_ok _ _ _ _ _ (myproc_eq s Hc)). rewrite decide_False by congruence.
      unfold mbind, M_bind. rewrite Ho. by destruct Hor as [->|(? & ? & ->)]. }
    pose proof (acquire_stuck (LkProc j) s ltac:(by rewrite Hl)) as Hst. specialize (Hw _ eq_refl Hst).
    cbn [app run exec_stmt]. unfold mbind at 1 2, M_bind at 1 2. rewrite Hw. unfold mbind, M_bind.
    by destruct Hst as [->|(? & ? & ->)].
  - cbn [app]. rewrite visit_runs by done. apply Hnext; [|done].
    rewrite wakeup_one_eq by done. by rewrite decide_False by congruence.
Qed.

Lemma kill_runs me pid j s p : lock_free (LkProc j) s → procs s !! j = Some p →
  ∃ r s', kill_one pid j s = Ok r s' ∧ run me (kill_code pid j) s = Ok tt s'.
Proof.
  intros Hf Hp. pose proof Hf as [Hc Hl]. exists (if p_pid p =? pid then Some 0 else None), (set_procs (alter (kill_if pid) j (procs s)) s). split.
  - rewrite (list_alter_insert _ _ _ _ Hp). unfold kill_if. destruct (Z.eqb_spec (p_pid p) pid); [by apply kill_hit|].
    rewrite list_insert_id, set_procs_id by done. apply kill_miss; [done|]. by rewrite (list_lookup_total_correct _ _ _ Hp).
  - cbn [run kill_code exec_stmt]. rewrite (bind_ok _ _ s tt (hold (LkProc j) s) (acquire_eq _ s Hl)).
    rewrite (bind_ok _ _ _ tt (set_procs (alter (kill_if pid) j (procs s)) (hold (LkProc j) s))).
    + rewrite (release_eq (LkProc j) s) by done. unfold unhold. by destruct s.
    + mrun. simpl. rewrite (list_lookup_total_correct _ _ _ Hp), (list_alter_insert _ _ _ _ Hp). unfold kill_if, killed_proc.
      destruct (_ =? pid); simpl; [|rewrite list_insert_id by done; by destruct s]. mrun.
      destruct (bool_decide _); simpl; mrun; unfold modify; simpl; rewrite ?alter_alter_eq, (list_alter_insert _ _ _ _ Hp); reflexivity.
Qed.
