(* ===== verification/ProcMem.v ===== *)
(** * The memory of a process: allocproc(), growproc(), freeproc()

    A process slot in use owns its trapframe page and an address space
    ([proc_space] of VmFree.v). allocproc() takes both from the free list or
    takes nothing, growproc() keeps the address space in shape, and freeproc()
    gives every page back. *)

From Stdlib Require Import ZArith Lia.
From stdpp Require Import base numbers gmap strings countable tactics list.
From S2P Require Import Prelude Machine CString State Spinlock Kalloc Vm VmTheory VmMap VmUser VmAlloc VmLoops Sched VmFree SchedTheory.

(** A slot as freeproc() leaves it. *)
Definition cleared (p : proc) : proc :=
  set_p_state UNUSED (set_p_xstate 0 (set_p_killed false (set_p_chan None
    (set_p_name (updZ (p_name p) 0 0) (set_p_parent None (set_p_pid 0
      (set_p_sz 0 (set_p_pagetable 0 (set_p_trapframe 0 p))))))))).

(** Memory, the free list and the process table apart, nothing changed. *)
Definition pframe (s s' : kstate) : Prop :=
  s' = set_freelist (freelist s') (set_mem (mem s') (set_procs (procs s') s)).

Lemma pframe_cpu s s' : pframe s s' → cpu s' = cpu s ∧ locks s' = locks s ∧ nextpid s' = nextpid s.
Proof. intros ->. by destruct s. Qed.

Lemma pframe_lock lk s s' : pframe s s' → lock_free lk s → lock_free lk s'.
Proof. intros (Hc & Hl & _)%pframe_cpu. unfold lock_free. by rewrite Hc, Hl. Qed.

Section procmem.
Context `{EnvOk}.

(** The process table is not part of an address space. *)
Lemma kmem_ok_procs s ps fl : kmem_ok s fl → kmem_ok (set_procs ps s) fl.
Proof. intros (? & ? & ?). by destruct s. Qed.

Lemma uspace_procs s ps root T fl D : uspace s root T fl D → uspace (set_procs ps s) root T fl D.
Proof.
  intros [(Hk & Hr & Hd) Hv Hp Hm Hi]. split; [|done|done| |done].
  - split; [by apply kmem_ok_procs|]. by destruct s.
  - by destruct s.
Qed.

Lemma layout_procs s ps root T fl D sz tf :
  proc_layout s root T fl D sz tf → proc_layout (set_procs ps s) root T fl D sz tf.
Proof.
  intros [Hu Hsz Hdom Htr Htf Htp Hon]. split; try done; [by apply uspace_procs|by destruct s..].
Qed.

Lemma space_procs s ps root T fl D sz tf :
  proc_space s root T fl D sz tf → proc_space (set_procs ps s) root T fl D sz tf.
Proof. intros [? ?]. split; [by apply layout_procs|done]. Qed.

(** kfree() of the trapframe keeps the layout. *)
Lemma layout_kfree s root T fl D sz tf :
  lock_free LkKmem s → proc_space s root T fl D sz tf →
  let s' := set_freelist tf (set_mem (kfree_mem tf s) s) in
  kfree tf s = Ok tt s' ∧ proc_layout s' root T (tf :: fl) D sz tf.
Proof.
  intros Hlk [[Hu Hsz Hdom Htr Htf Htp Hon] Hfor] s'.
  destruct (uspace_kfree s root T tf fl D Hlk Hu Hfor) as [Hrun Hu']. split; [done|].
  assert (Hl : ∀ va, leaf (mem s') T va = leaf (mem s) T va).
  { intros va. eapply leaf_same_tables; [apply Hu|]. intros q [path Hq]. subst s'. simpl.
    apply (same_outside_page tf); [done|by eapply rep_ok; [apply Hu|]| |apply same_outside_kfree_mem].
    intros ->. apply Hfor. by eexists. }
  split; try done; [by rewrite Hl..|]. intros va Hva. rewrite Hl. by apply Hon.
Qed.

Lemma owned_cons x T fl D : owned T (x :: fl) D = x :: owned T fl D.
Proof. done. Qed.

Lemma freeproc_spec i s p T fl D :
  procs s !! i = Some p → lock_free LkKmem s →
  proc_space s (p_pagetable p) T fl D (p_sz p) (p_trapframe p) →
  ∃ s' fl', freeproc i s = Ok tt s' ∧ kmem_ok s' fl' ∧ fl' ≡ₚ p_trapframe p :: owned T fl D ∧
    procs s' = alter cleared i (procs s) ∧ pframe s s' ∧
    ∀ x, page_ok x → x ∉ p_trapframe p :: owned T fl D → same_page x (mem s) (mem s').
Proof.
  intros Hp Hlk Hsp. destruct (layout_kfree _ _ _ _ _ _ _ Hlk Hsp) as [Hrun1 Hly].
  pose proof Hsp as [Hl Hfor]. pose proof (page_ok_bounds _ (proj1 Hfor)) as Hb.
  assert (Hrt : 0 < p_pagetable p).
  { apply page_ok_bounds. destruct (us_vm _ _ _ _ _ (pl_us _ _ _ _ _ _ _ Hl)) as (_ & Hr & _).
    eapply rep_ok; [exact Hr|by eapply rep_root]. }
  set (s1 := set_freelist _ _) in *.
  set (s2 := set_procs (alter (set_p_trapframe 0) i (procs s1)) s1).
  destruct (proc_freepagetable_spec (p_pagetable p) s2 T (p_trapframe p :: fl) D (p_sz p) (p_trapframe p))
    as (s3 & fl3 & Hrun3 & K3 & P3 & F3 & S3).
  { by destruct s. } { by apply layout_procs. }
  assert (Hp1 : procs s1 = procs s) by done.
  assert (Hp3 : procs s3 = procs s2) by (rewrite F3; done).
  eexists (set_procs _ s3), fl3. split.
  { unfold freeproc, get_proc, upd_proc. rewrite bind_gets, (list_lookup_total_correct _ _ _ Hp).
    rewrite (proj2 (Z.eqb_neq _ _)) by lia. cbn [negb when].
    rewrite (bind_ok _ _ _ _ _ Hrun1), bind_modify, bind_gets. fold s1. fold s2.
    assert (procs s2 !! i = Some (set_p_trapframe 0 p)) as Hp2.
    { subst s2. cbn [procs set_procs]. by rewrite list_lookup_alter_eq, Hp1, Hp. }
    rewrite (list_lookup_total_correct _ _ _ Hp2). cbn [p_pagetable set_p_trapframe p_sz].
    rewrite (proj2 (Z.eqb_neq _ _)) by lia. cbn [negb when].
    rewrite (bind_ok _ _ _ _ _ Hrun3). done. }
  split; [by apply kmem_ok_procs|]. split; [by rewrite P3, owned_cons|]. split; [|split].
  - cbn [procs set_procs]. rewrite Hp3. subst s2. cbn [procs set_procs]. rewrite Hp1. by rewrite alter_alter_eq.
  - unfold pframe. cbn [procs freelist mem set_procs]. rewrite F3. by destruct s.
  - intros x Hx Hn. cbn [mem set_procs]. eapply same_page_trans; [|by apply S3].
    subst s2 s1. cbn [mem set_procs set_mem set_freelist]. apply not_elem_of_cons in Hn as [Hn _].
    apply (same_outside_page (p_trapframe p)); [apply Hfor|done|congruence|apply same_outside_kfree_mem].
Qed.

(** ** growproc() *)

(** The size after a change by [n]: shrinking below 0 changes nothing. *)
Definition new_size (sz n : Z) : Z := if decide (0 ≤ sz + n) then sz + n else sz.

Lemma resized_refl k s T fl D : resized k s T fl D s T fl D.
Proof. split; [done|]. split; [apply aside_refl|done]. Qed.

Lemma resized_procs k s T fl D s' T' fl' D' : resized k s T fl D s' T' fl' D' → procs s' = procs s.
Proof. intros (_ & [-> _] & _). by destruct s. Qed.

Lemma growproc_shrink n s me p T fl D :
  lock_free LkKmem s → procs s !! me = Some p →
  proc_space s (p_pagetable p) T fl D (p_sz p) (p_trapframe p) → p_sz p < 2 ^ 32 → - 2 ^ 31 ≤ n < 0 →
  let new := new_size (p_sz p) n in
  ∃ s1 T' fl' D', uvmdealloc (p_pagetable p) (p_sz p) (u32 (p_sz p + n)) s = Ok new s1 ∧
    resized (npg new) s T fl D s1 T' fl' D' ∧ proc_space s1 (p_pagetable p) T' fl' D' new (p_trapframe p).
Proof.
  intros Hlk Hp Hsp Hsz Hn new. pose proof (pl_sz _ _ _ _ _ _ _ (proj1 Hsp)) as Hs0.
  subst new. unfold new_size. destruct (decide (0 ≤ p_sz p + n)) as [Hge|Hlt].
  - rewrite u32_small by lia. apply space_shrink; [done|done|lia].
  - exists s, T, fl, D. split; [|split; [apply resized_refl|done]].
    assert (u32 (p_sz p + n) = p_sz p + n + 2 ^ 32) as ->.
    { unfold u32. rewrite <- (Z.mod_add _ 1) by done. apply Z.mod_small. lia. }
    unfold uvmdealloc. by rewrite (proj2 (Z.leb_le _ _)) by lia.
Qed.

Lemma growproc_spec n s me p T fl D :
  lock_free LkKmem s → c_proc (cpu s) = Some me → procs s !! me = Some p →
  proc_space s (p_pagetable p) T fl D (p_sz p) (p_trapframe p) →
  - 2 ^ 31 ≤ n < 2 ^ 31 → p_sz p < 2 ^ 32 → p_sz p + n < 2 ^ 32 →
  let sz := p_sz p in let new := new_size sz n in
  ∃ r s1 T' fl' D', resized (npg (Z.min sz new)) s T fl D s1 T' fl' D' ∧
    ((r = 0 ∧ growproc n s = Ok r (set_procs (alter (set_p_sz new) me (procs s)) s1) ∧
      proc_space s1 (p_pagetable p) T' fl' D' new (p_trapframe p) ∧
      ∀ vpn, npg sz ≤ vpn < npg new → fresh (mem s1) T' D' vpn) ∨
     (r = -1 ∧ 0 < n ∧ growproc n s = Ok r s1 ∧ proc_space s1 (p_pagetable p) T' fl' D' sz (p_trapframe p))).
Proof.
  intros Hlk Hme Hp Hsp Hn Hsz Hsum sz new. pose proof (pl_sz _ _ _ _ _ _ _ (proj1 Hsp)) as Hs0.
  assert (H32 : 2 ^ 32 ≤ TRAPFRAME) by done.
  unfold growproc. rewrite (bind_ok _ _ _ _ _ (cur_eq s me (proj1 Hlk) Hme)).
  unfold get_proc, upd_proc. rewrite bind_gets, (list_lookup_total_correct _ _ _ Hp).
  rewrite (u32_small (p_sz p)) by lia. fold sz.
  destruct (Z.ltb_spec 0 n) as [Hpos|Hneg]; [|destruct (Z.ltb_spec n 0) as [Hneg'|Hz]].
  - assert (new = sz + n) as -> by (subst new; unfold new_size; rewrite decide_True by lia; done).
    rewrite (u32_small (sz + n)) by lia. rewrite Z.min_l by lia.
    destruct (space_grow _ s T fl D sz (sz + n) _ Hlk Hsp) as (r & s1 & T' & fl' & D' & Hrun & Hres & Hc); [lia|].
    pose proof (resized_procs _ _ _ _ _ _ _ _ _ Hres) as Hps.
    rewrite (bind_ok _ _ _ _ _ Hrun). destruct Hc as [(-> & Hsp' & Hf)|[-> Hsp']].
    + exists 0, s1, T', fl', D'. split; [done|]. left. split; [done|].
      rewrite u32_small, (proj2 (Z.eqb_neq _ _)) by lia. rewrite <- Hps. done.
    + exists (-1), s1, T', fl', D'. split; [done|]. right. done.
  - destruct (growproc_shrink n s me p T fl D) as (s1 & T' & fl' & D' & Hrun & Hres & Hsp'); try done; [lia|].
    fold sz in Hrun, Hsp', Hres. fold new in Hrun, Hsp', Hres.
    assert (Hle : new ≤ sz) by (subst new; unfold new_size; case_decide; lia).
    exists 0, s1, T', fl', D'. rewrite Z.min_r by done. split; [done|]. left. split; [done|].
    rewrite (bind_ok _ _ _ _ _ Hrun), u32_small.
    + split; [by rewrite <- (resized_procs _ _ _ _ _ _ _ _ _ Hres)|]. split; [done|].
      intros vpn Hv. pose proof (npg_mono new sz Hle). lia.
    + subst new. unfold new_size. case_decide; lia.
  - assert (n = 0) as -> by lia. assert (new = sz) as -> by (subst new; unfold new_size; case_decide; lia).
    exists 0, s, T, fl, D. split; [apply resized_refl|]. left. split; [done|]. split; [done|].
    split; [done|]. lia.
Qed.

(** ** allocproc() *)
Definition find_unused (i : nat) : M (option nat) :=
  acquire (LkProc i);;
  p ← get_proc i;
  if decide (p_state p = UNUSED) then mret (Some i) else release (LkProc i);; mret None.

Lemma find_unused_skip i s p :
  cpu_ok (cpu s) → locks s !! LkProc i = None → procs s !! i = Some p → p_state p ≠ UNUSED →
  find_unused i s = Ok None s.
Proof.
  intros Hc Hl Hp Hs. unfold find_unused, get_proc. rewrite (bind_ok _ _ _ _ _ (acquire_eq _ s Hl)), bind_gets.
  cbn [procs hold set_locks set_cpu]. rewrite (list_lookup_total_correct _ _ _ Hp), decide_False by done.
  by rewrite (bind_ok _ _ _ _ _ (release_eq (LkProc i) s (hold (LkProc i) s) Hc Hl eq_refl eq_refl)), unhold_hold.
Qed.

Lemma find_unused_hit i s p :
  locks s !! LkProc i = None → procs s !! i = Some p → p_state p = UNUSED →
  find_unused i s = Ok (Some i) (hold (LkProc i) s).
Proof.
  intros Hl Hp Hs. unfold find_unused, get_proc. rewrite (bind_ok _ _ _ _ _ (acquire_eq _ s Hl)), bind_gets.
  cbn [procs hold set_locks set_cpu]. by rewrite (list_lookup_total_correct _ _ _ Hp), decide_True.
Qed.

(** What allocproc() relies on: no lock it takes is held, and a free slot has
    no page table. *)
Record alloc_ready (s : kstate) (fl : list Z) : Prop := {
  ar_cpu : cpu_ok (cpu s);
  ar_procs : length (procs s) = NPROC;
  ar_lock : ∀ j, locks s !! LkProc j = None;
  ar_pid : locks s !! LkPid = None;
  ar_kmem : locks s !! LkKmem = None;
  ar_blank : ∀ j p, procs s !! j = Some p → p_state p = UNUSED → p_pagetable p = 0 ∧ p_sz p = 0;
  ar_free : kmem_ok s fl;
}.

Lemma find_none s fl : alloc_ready s fl → (∀ j p, procs s !! j = Some p → p_state p ≠ UNUSED) →
  allocproc s = Ok None s.
Proof.
  intros [Hc Hlen Hl _ _ _ _] Hno. unfold allocproc. fold find_unused.
  assert (Hrun : for_each proc_ids find_unused s = Ok None s).
  { rewrite <- (app_nil_r proc_ids), for_each_skip; [done|]. intros j Hj%elem_of_proc_ids.
    destruct (lookup_lt_is_Some_2 (procs s) j) as [p Hp]; [lia|]. by eapply find_unused_skip; eauto. }
  by rewrite (bind_ok _ _ _ _ _ Hrun).
Qed.

Lemma find_first s fl i p : alloc_ready s fl → procs s !! i = Some p → p_state p = UNUSED →
  (∀ j q, (j < i)%nat → procs s !! j = Some q → p_state q ≠ UNUSED) →
  for_each proc_ids find_unused s = Ok (Some i) (hold (LkProc i) s).
Proof.
  intros [Hc Hlen Hl _ _ _ _] Hp Hs Hno. pose proof (lookup_lt_Some _ _ _ Hp) as Hi. rewrite Hlen in Hi.
  rewrite (proc_ids_split i Hi), for_each_skip.
  - cbn [for_each]. by rewrite (bind_ok _ _ _ _ _ (find_unused_hit i s p (Hl i) Hp Hs)).
  - intros j Hj. apply elem_of_seq in Hj. destruct (lookup_lt_is_Some_2 (procs s) j) as [q Hq]; [lia|].
    eapply find_unused_skip; eauto. eapply Hno; [|done]. lia.
Qed.

Lemma allocpid_eq s : cpu_ok (cpu s) → locks s !! LkPid = None →
  allocpid s = Ok (nextpid s) (set_nextpid (s32 (nextpid s + 1)) s).
Proof.
  intros Hc Hl. unfold allocpid. rewrite (bind_ok _ _ _ _ _ (acquire_eq _ s Hl)), bind_gets, bind_modify.
  erewrite bind_ok; [|apply (release_eq LkPid s); done]. by destruct s.
Qed.

(** freeproc() of a slot that has no address space yet. *)
Lemma freeproc_bare i s p : procs s !! i = Some p → p_pagetable p = 0 → p_trapframe p = 0 →
  freeproc i s = Ok tt (set_procs (alter cleared i (procs s)) s).
Proof.
  intros Hp Hpt Htf. unfold freeproc, get_proc, upd_proc. rewrite bind_gets, (list_lookup_total_correct _ _ _ Hp), Htf.
  cbn [Z.eqb negb when]. rewrite bind_ret, bind_modify, bind_gets. cbn [procs set_procs].
  erewrite list_lookup_total_correct by (by rewrite list_lookup_alter_eq, Hp). cbn [p_pagetable set_p_trapframe].
  rewrite Hpt. cbn [Z.eqb negb when]. rewrite bind_ret. unfold modify. cbn [procs set_procs].
  rewrite alter_alter_eq. by destruct s.
Qed.

Lemma freeproc_frame i s p fl : procs s !! i = Some p → p_pagetable p = 0 → page_ok (p_trapframe p) →
  p_trapframe p ∉ fl → kmem_ok s fl → lock_free LkKmem s →
  let tf := p_trapframe p in let s1 := set_freelist tf (set_mem (kfree_mem tf s) s) in
  freeproc i s = Ok tt (set_procs (alter cleared i (procs s)) s1) ∧ kmem_ok s1 (tf :: fl).
Proof.
  intros Hp Hpt Hok Hn Hk Hlk tf s1. pose proof (page_ok_bounds _ Hok) as Hb.
  split; [|apply kmem_ok_kfree; try done; apply kmem_ok_head in Hk; lia].
  unfold freeproc, get_proc, upd_proc. rewrite bind_gets, (list_lookup_total_correct _ _ _ Hp).
  rewrite (proj2 (Z.eqb_neq _ _)) by lia. cbn [negb when].
  rewrite (bind_ok _ _ _ _ _ (kfree_eq _ s Hok Hlk)), bind_modify, bind_gets. cbn [procs set_procs set_freelist set_mem].
  erewrite list_lookup_total_correct by (by rewrite list_lookup_alter_eq, Hp). cbn [p_pagetable set_p_trapframe].
  rewrite Hpt. cbn [Z.eqb negb when]. rewrite bind_ret. unfold modify. cbn [procs set_procs].
  rewrite alter_alter_eq. subst s1 tf. reflexivity.
Qed.

(** The slot as allocproc() hands it out. *)
Definition handed (pid tf pt : Z) (p : proc) : proc :=
  set_p_ctx_sp (p_kstack p + PGSIZE) (set_p_ctx_ra forkret_addr
    (set_p_pagetable pt (set_p_trapframe tf (set_p_state USED (set_p_pid pid p))))).

(** allocproc() from its kalloc() call on. *)
Definition alloc_rest (i : nat) : M (option nat) :=
  tf ← kalloc;
  upd_proc i (set_p_trapframe tf);;
  if tf =? 0 then freeproc i;; release (LkProc i);; mret None
  else
    pt ← proc_pagetable i;
    upd_proc i (set_p_pagetable pt);;
    if pt =? 0 then freeproc i;; release (LkProc i);; mret None
    else
      upd_proc i (λ p, set_p_ctx_sp (p_kstack p + PGSIZE) (set_p_ctx_ra forkret_addr p));;
      mret (Some i).

Lemma kmem_ok_same s s' fl : mem s' = mem s → freelist s' = freelist s → kmem_ok s fl → kmem_ok s' fl.
Proof. intros Hm Hf. unfold kmem_ok. by rewrite Hm, Hf. Qed.

Section alloc.
Variables (s : kstate) (fl : list Z) (i : nat) (p : proc).
Hypothesis Har : alloc_ready s fl.
Hypothesis Hp : procs s !! i = Some p.
Hypothesis Hun : p_state p = UNUSED.
Hypothesis Hfirst : ∀ j q, (j < i)%nat → procs s !! j = Some q → p_state q ≠ UNUSED.
Let pid := nextpid s.
Let sn := set_nextpid (s32 (pid + 1)) s.
Let used := set_p_state USED (set_p_pid pid p).
Let s1 := set_procs (<[i := used]> (procs s)) (hold (LkProc i) sn).

Lemma alloc_start : allocproc s = alloc_rest i s1.
Proof.
  unfold allocproc. fold find_unused. rewrite (bind_ok _ _ _ _ _ (find_first s fl i p Har Hp Hun Hfirst)).
  assert (Hpid : allocpid (hold (LkProc i) s) = Ok pid (hold (LkProc i) sn)).
  { rewrite allocpid_eq; [|by apply cpu_ok_pushed, Har|].
    - reflexivity.
    - cbn [locks hold set_locks set_cpu]. rewrite lookup_insert_ne by done. apply Har. }
  rewrite (bind_ok _ _ _ _ _ Hpid). unfold upd_proc. rewrite bind_modify. cbn [procs set_nextpid hold set_locks set_cpu].
  unfold s1. change (procs (hold (LkProc i) sn)) with (procs s). by rewrite (list_alter_insert _ _ _ _ Hp).
Qed.

Lemma alloc_lock : lock_free LkKmem s1.
Proof.
  split; [by apply cpu_ok_pushed, Har|]. subst s1 sn. cbn [locks hold set_locks set_cpu set_procs set_nextpid].
  rewrite lookup_insert_ne by done. apply Har.
Qed.

Lemma alloc_kmem : kmem_ok s1 fl.
Proof. eapply kmem_ok_same; [..|apply Har]; done. Qed.

(** The states in the critical section, and leaving it. *)
Definition inside (q : proc) (s' : kstate) : Prop :=
  s' = set_freelist (freelist s') (set_mem (mem s') (set_procs (<[i := q]> (procs s)) (hold (LkProc i) sn))).

Definition outside (q : proc) (s' : kstate) : Prop :=
  s' = set_freelist (freelist s') (set_mem (mem s') (set_procs (<[i := q]> (procs s)) sn)).

Lemma alloc_release q s' : inside q s' → ∃ s2, (release (LkProc i);; mret (None : option nat)) s' = Ok None s2 ∧
  outside q s2 ∧ mem s2 = mem s' ∧ freelist s2 = freelist s'.
Proof.
  intros Hi. exists (unhold s s'). split; [|split; [unfold outside; rewrite Hi; reflexivity|split; reflexivity]].
  rewrite (bind_ok _ _ _ _ _ (release_eq (LkProc i) s s' (ar_cpu _ _ Har) (ar_lock _ _ Har i)
    ltac:(rewrite Hi; reflexivity) ltac:(rewrite Hi; reflexivity))). done.
Qed.

Lemma inside_procs q s' : inside q s' → procs s' = <[i := q]> (procs s) ∧ procs s' !! i = Some q ∧
  (lock_free LkKmem s1 → lock_free LkKmem s').
Proof.
  intros ->. cbn [procs set_freelist set_mem set_procs]. split; [done|]. split; [|done].
  apply list_lookup_insert_eq. by eapply lookup_lt_Some.
Qed.

Lemma inside_set q q' s' : inside q s' → inside q' (set_procs (<[i := q']> (procs s')) s').
Proof.
  intros Hi. destruct (inside_procs q s' Hi) as (-> & _). unfold inside. rewrite list_insert_insert_eq.
  rewrite Hi. reflexivity.
Qed.

Lemma inside_mframe q s' s'' : inside q s' → mframe s' s'' → inside q s''.
Proof. unfold inside, mframe. intros Hi ->. rewrite Hi. reflexivity. Qed.

Lemma upd_inside q f s' : inside q s' → upd_proc i f s' = Ok tt (set_procs (<[i := f q]> (procs s')) s').
Proof.
  intros Hi. destruct (inside_procs q s' Hi) as (_ & Hq & _). unfold upd_proc, modify.
  by rewrite (list_alter_insert _ _ _ _ Hq).
Qed.

(** The end of both failure paths. *)
Lemma alloc_fail q s2 fl2 :
  inside q s2 → cleared q = cleared p → p_pagetable q = 0 → kmem_ok s2 fl2 → lock_free LkKmem s2 →
  (p_trapframe q = 0 ∧ fl2 ≡ₚ fl) ∨ (page_ok (p_trapframe q) ∧ p_trapframe q ∉ fl2 ∧ p_trapframe q :: fl2 ≡ₚ fl) →
  (∀ x, page_ok x → x ∉ fl → same_page x (mem s1) (mem s2)) →
  ∃ s' fl', (freeproc i;; release (LkProc i);; mret (None : option nat)) s2 = Ok None s' ∧
    outside (cleared p) s' ∧ kmem_ok s' fl' ∧ fl' ≡ₚ fl ∧
    ∀ x, page_ok x → x ∉ fl → same_page x (mem s1) (mem s').
Proof.
  intros Hi Hq Hpt Hk Hlk Htf Hsame. destruct (inside_procs q s2 Hi) as (_ & Hps & _).
  assert (Hal : alter cleared i (procs s2) = <[i := cleared p]> (procs s2))
    by (by rewrite (list_alter_insert _ _ _ _ Hps), Hq).
  destruct Htf as [[Htf Hfl]|(Hok & Hn & Hfl)].
  - destruct (alloc_release (cleared p) (set_procs (alter cleared i (procs s2)) s2)) as (s3 & Hrun & Ho & Hm & Hf).
    { rewrite Hal. by eapply inside_set. }
    exists s3, fl2. rewrite (bind_ok _ _ _ _ _ (freeproc_bare i s2 q Hps Hpt Htf)). split; [exact Hrun|].
    split; [done|]. split; [by eapply kmem_ok_same|]. split; [done|]. rewrite Hm. exact Hsame.
  - destruct (freeproc_frame i s2 q fl2 Hps Hpt Hok Hn Hk Hlk) as [Hfree Hk3].
    set (s3 := set_freelist _ _) in *.
    assert (Hi3 : inside q s3) by (eapply inside_mframe; [exact Hi|]; unfold mframe, s3; destruct s2; reflexivity).
    destruct (alloc_release (cleared p) (set_procs (alter cleared i (procs s2)) s3)) as (s4 & Hrun & Ho & Hm & Hf).
    { rewrite Hal. change (procs s2) with (procs s3). by eapply inside_set. }
    exists s4, (p_trapframe q :: fl2). rewrite (bind_ok _ _ _ _ _ Hfree). split; [exact Hrun|].
    split; [done|]. split; [by eapply kmem_ok_same|]. split; [done|]. rewrite Hm. intros x Hx Hxn.
    eapply same_page_trans; [by apply Hsame|].
    apply (same_outside_page (p_trapframe q)); [done|done| |apply same_outside_kfree_mem].
    intros He. apply Hxn. rewrite <- Hfl, <- He. by left.
Qed.

(** What allocproc() does once it has found the free slot. *)
Definition alloc_done (r : option nat) (s' : kstate) : Prop :=
  (∀ x, page_ok x → x ∉ fl → same_page x (mem s) (mem s')) ∧
  match r with
  | None => outside (cleared p) s' ∧ ∃ fl', kmem_ok s' fl' ∧ fl' ≡ₚ fl
  | Some j => j = i ∧ ∃ tf pt T fl', inside (handed pid tf pt p) s' ∧
      proc_space s' pt T fl' ∅ 0 tf ∧ tf :: owned T fl' ∅ ≡ₚ fl
  end.

Lemma alloc_failed s2 : (∃ s' fl', (freeproc i;; release (LkProc i);; mret (None : option nat)) s2 = Ok None s' ∧
    outside (cleared p) s' ∧ kmem_ok s' fl' ∧ fl' ≡ₚ fl ∧
    ∀ x, page_ok x → x ∉ fl → same_page x (mem s1) (mem s')) →
  ∃ r s', (freeproc i;; release (LkProc i);; mret None) s2 = Ok r s' ∧ alloc_done r s'.
Proof. intros (s' & fl' & Hrun & Ho & Hk & Hfl & Hs). exists None, s'. split; [done|]. split; [done|]. eauto. Qed.

Lemma alloc_with_frame tf fl1 s2 : fl = tf :: fl1 → page_ok tf → tf ∉ fl1 → kmem_ok s2 fl1 → lock_free LkKmem s2 →
  inside (set_p_trapframe tf used) s2 → same_outside tf (mem s1) (mem s2) →
  ∃ r s', (pt ← proc_pagetable i;
    upd_proc i (set_p_pagetable pt);;
    if pt =? 0 then freeproc i;; release (LkProc i);; mret None
    else
      upd_proc i (λ p, set_p_ctx_sp (p_kstack p + PGSIZE) (set_p_ctx_ra forkret_addr p));;
      mret (Some i)) s2 = Ok r s' ∧ alloc_done r s'.
Proof.
  intros Efl Hok Hn Hk Hlk Hi Hso. destruct (inside_procs _ _ Hi) as (_ & Hps & _).
  destruct (proc_pagetable_spec i s2 fl1 tf) as (pt & s3 & Hrun & [Hf3 Hs3] & Hb); try done.
  { by rewrite (list_lookup_total_correct _ _ _ Hps). }
  rewrite (bind_ok _ _ _ _ _ Hrun). pose proof (inside_mframe _ _ _ Hi Hf3) as Hi3.
  rewrite (bind_ok _ _ _ _ _ (upd_inside _ _ _ Hi3)). set (s4 := set_procs _ s3).
  pose proof (inside_set _ (set_p_pagetable pt (set_p_trapframe tf used)) _ Hi3) as Hi4. fold s4 in Hi4.
  assert (Hsame : ∀ x, page_ok x → x ∉ fl → same_page x (mem s1) (mem s4)).
  { rewrite Efl. intros x Hx [Hxt Hxf]%not_elem_of_cons. eapply same_page_trans; [|by apply Hs3].
    apply (same_outside_page tf); [done|done|congruence|done]. }
  destruct Hb as [(-> & fl3 & Hk3 & Hfl3)|(Hpt & T & fl3 & Hsp & Hfl3)].
  - cbn [Z.eqb]. apply alloc_failed, (alloc_fail (set_p_pagetable 0 (set_p_trapframe tf used)) s4 fl3); try done.
    + eapply mframe_lock in Hlk; [|exact Hf3]. done.
    + right. split; [done|]. rewrite Efl. split; [cbn [p_trapframe set_p_pagetable set_p_trapframe]; by rewrite Hfl3|].
      by rewrite Hfl3.
  - rewrite (proj2 (Z.eqb_neq _ _) Hpt), (bind_ok _ _ _ _ _ (upd_inside _ _ _ Hi4)).
    eexists (Some i), _. split; [reflexivity|]. split; [exact Hsame|]. split; [done|].
    exists tf, pt, T, fl3. split; [by eapply inside_set|]. split; [by do 2 apply space_procs|]. by rewrite Efl, Hfl3.
Qed.

Lemma allocproc_spec : ∃ r s', allocproc s = Ok r s' ∧ alloc_done r s'.
Proof.
  rewrite alloc_start. unfold alloc_rest. pose proof alloc_lock as Hlk. pose proof alloc_kmem as Hk.
  destruct (ar_blank _ _ Har i p Hp Hun) as [Hpt Hsz].
  assert (Hi : inside used s1) by reflexivity.
  pose proof (kalloc_spec s1 fl Hlk Hk) as Hrun.
  assert (fl = [] ∨ ∃ tf fl1, fl = tf :: fl1) as [Efl|(tf & fl1 & Efl)] by (clear; destruct fl; eauto);
    rewrite Efl in Hrun, Hk.
  - rewrite (bind_ok _ _ _ _ _ Hrun), (bind_ok _ _ _ _ _ (upd_inside _ _ _ Hi)). cbn [Z.eqb].
    apply alloc_failed, (alloc_fail (set_p_trapframe 0 used) _ []); try done.
    + by eapply inside_set.
    + left. by rewrite Efl.
  - destruct Hrun as (Hrun & Hk2 & Hok & Hn). pose proof (page_ok_bounds tf Hok) as Hb.
    set (s2 := set_freelist _ _) in *.
    assert (Hi2 : inside used s2) by (eapply inside_mframe; [exact Hi|]; reflexivity).
    rewrite (bind_ok _ _ _ _ _ Hrun), (bind_ok _ _ _ _ _ (upd_inside _ _ _ Hi2)).
    rewrite (proj2 (Z.eqb_neq _ _)) by lia. apply (alloc_with_frame tf fl1);
      [exact Efl|exact Hok|exact Hn|apply kmem_ok_procs, Hk2|exact Hlk|exact (inside_set _ _ _ Hi2)|apply same_outside_memset].
Qed.
End alloc.
End procmem.
