(* ===== verification/Sleeplock.v ===== *)
(** * kernel/sleeplock.c: long-term locks

    The sleep-locks of the kernel are those of the buffers and of the in-memory
    inodes; [slid] names one. *)

From Stdlib Require Import ZArith Lia.
From stdpp Require Import base numbers gmap strings countable tactics list.
From S2P Require Import Prelude Machine CString State Spinlock Kalloc Vm Sched.

Inductive slid := SlBuf (i : nat) | SlInode (i : nat).

#[global] Instance slid_eq_dec : EqDecision slid.
Proof. solve_decision. Defined.

(** The inner spin-lock, and the channel (the address of the sleep-lock). *)
Definition sl_lk (l : slid) : lockid :=
  match l with SlBuf i => LkBufSleep i | SlInode i => LkInodeSleep i end.
Definition sl_chan (l : slid) : chan :=
  match l with SlBuf i => ChBufSleep i | SlInode i => ChInodeSleep i end.

Definition sl_of (l : slid) (s : kstate) : sleeplock :=
  match l with SlBuf i => b_lock (bcache s !!! i) | SlInode i => i_lock (itable s !!! i) end.

Definition set_sl (l : slid) (v : sleeplock) : M unit :=
  match l with
  | SlBuf i => upd_buf i (set_b_lock v)
  | SlInode i => upd_inode i (set_i_lock v)
  end.

Section sleeplock.
Context `{Env}.

Definition initsleeplock (l : slid) : M unit :=
  initlock (sl_lk l);;
  set_sl l (mkSleeplock false 0).

Definition acquiresleep (l : slid) : M unit :=
  acquire (sl_lk l);;
  loop fuel (λ _ : unit,
    k ← gets (sl_of l);
    if sl_locked k then
      sleep (sl_chan l) (sl_lk l);;
      mret (inl tt)
    else mret (inr tt)) tt;;
  i ← cur;
  p ← get_proc i;
  set_sl l (mkSleeplock true (p_pid p));;
  release (sl_lk l).

Definition releasesleep (l : slid) : M unit :=
  acquire (sl_lk l);;
  set_sl l (mkSleeplock false 0);;
  wakeup (Some (sl_chan l));;
  release (sl_lk l).

Definition holdingsleep (l : slid) : M bool :=
  acquire (sl_lk l);;
  k ← gets (sl_of l);
  i ← cur;
  p ← get_proc i;
  let r := sl_locked k && (sl_pid k =? p_pid p) in
  release (sl_lk l);;
  mret r.
End sleeplock.
