(* ===== verification/Pipe.v ===== *)
(** * kernel/pipe.c: pipes

    A pipe lives in a page of its own; [pipes] holds its struct pipe, keyed by
    the address of the page. pipealloc() is in File.v, with the file table. *)

From Stdlib Require Import ZArith Lia.
From stdpp Require Import base numbers gmap strings countable tactics list.
From S2P Require Import Prelude Machine CString State Spinlock Kalloc Vm Sched.

Definition PIPESIZE : Z := 512.

Section pipe.
Context `{Env}.

Definition pipeclose (pi : Z) (writable : bool) : M unit :=
  acquire (LkPipe pi);;
  (if writable then
     upd_pipe pi (set_pi_writeopen false);;
     wakeup (Some (ChPipeRead pi))
   else
     upd_pipe pi (set_pi_readopen false);;
     wakeup (Some (ChPipeWrite pi)));;
  p ← get_pipe pi;
  if negb (pi_readopen p) && negb (pi_writeopen p) then
    release (LkPipe pi);;
    modify (λ s, set_pipes (delete pi (pipes s)) s);;
    kfree pi
  else release (LkPipe pi).

(** [pi->data[pi->nwrite++ % PIPESIZE] = ch] *)
Definition pipe_put (ch : Z) (p : pipe) : pipe :=
  set_pi_nwrite (u32 (pi_nwrite p + 1))
    (set_pi_data (updZ (pi_data p) (pi_nwrite p mod PIPESIZE) ch) p).

(** One round of the loop of pipewrite(); [inr None] is its early return. *)
Definition pipewrite_body (me : nat) (pi addr n i : Z) : M (Z + option Z) :=
  if negb (i <? n) then mret (inr (Some i))
  else
    p ← get_pipe pi;
    pr ← get_proc me;
    if negb (pi_readopen p) || p_killed pr then
      release (LkPipe pi);;
      mret (inr None)
    else if pi_nwrite p =? u32 (pi_nread p + PIPESIZE) then
      wakeup (Some (ChPipeRead pi));;
      sleep (ChPipeWrite pi) (LkPipe pi);;
      mret (inl i)
    else
      r ← copyin (p_pagetable pr) (u64 (addr + i)) 1;
      let '(code, ch) := r in
      if code =? -1 then mret (inr (Some i))
      else
        upd_pipe pi (pipe_put (nthZ ch 0));;
        mret (inl (i + 1)).

Definition pipewrite (pi addr n : Z) : M Z :=
  me ← cur;
  acquire (LkPipe pi);;
  r ← loop (S (Z.to_nat n) + fuel) (pipewrite_body me pi addr n) 0;
  match r with
  | None => mret (-1)
  | Some i =>
      wakeup (Some (ChPipeRead pi));;
      release (LkPipe pi);;
      mret i
  end.

(** The loop that waits for data; [inr false] is its early return. *)
Definition piperead_wait (me : nat) (pi : Z) (_ : unit) : M (unit + bool) :=
  p ← get_pipe pi;
  if (pi_nread p =? pi_nwrite p) && pi_writeopen p then
    pr ← get_proc me;
    if p_killed pr then
      release (LkPipe pi);;
      mret (inr false)
    else
      sleep (ChPipeRead pi) (LkPipe pi);;
      mret (inl tt)
  else mret (inr true).

Definition piperead_body (me : nat) (pi addr n i : Z) : M (Z + Z) :=
  if negb (i <? n) then mret (inr i)
  else
    p ← get_pipe pi;
    if pi_nread p =? pi_nwrite p then mret (inr i)
    else
      let ch := nthZ (pi_data p) (pi_nread p mod PIPESIZE) in
      upd_pipe pi (set_pi_nread (u32 (pi_nread p + 1)));;
      pr ← get_proc me;
      r ← copyout (p_pagetable pr) (u64 (addr + i)) [ch];
      if r =? -1 then mret (inr i)
      else mret (inl (i + 1)).

Definition piperead (pi addr n : Z) : M Z :=
  me ← cur;
  acquire (LkPipe pi);;
  ready ← loop fuel (piperead_wait me pi) tt;
  if negb ready then mret (-1)
  else
    i ← loop (S (Z.to_nat n)) (piperead_body me pi addr n) 0;
    wakeup (Some (ChPipeWrite pi));;
    release (LkPipe pi);;
    mret i.
End pipe.
