(* ===== verification/PipeTheory.v ===== *)
(** * Pipes are bounded queues

    [contents p] is the queue a struct pipe stands for: the bytes between nread
    and nwrite, both of which wrap at 2^32. pipewrite() appends to it and
    piperead() takes from its front, in the user's byte order. *)

From Stdlib Require Import ZArith Lia.
From stdpp Require Import base numbers gmap strings countable tactics list.
From S2P Require Import Prelude Machine CString State Spinlock Kalloc Vm VmTheory VmMap VmUser VmAlloc VmLoops VmAccess Sched SchedTheory Pipe.

Definition fill_level (p : pipe) : Z := u32 (pi_nwrite p - pi_nread p).

Definition contents (p : pipe) : list Z :=
  (λ k, nthZ (pi_data p) (u32 (pi_nread p + k) mod PIPESIZE)) <$> seqZ 0 (fill_level p).

Record pipe_ok (p : pipe) : Prop := {
  pk_data : length (pi_data p) = 512%nat;
  pk_nread : 0 ≤ pi_nread p < 2 ^ 32;
  pk_nwrite : 0 ≤ pi_nwrite p < 2 ^ 32;
  pk_fill : fill_level p ≤ PIPESIZE;
}.

Lemma length_contents p : pipe_ok p → Z.of_nat (length (contents p)) = fill_level p.
Proof.
  intros _. unfold contents. rewrite length_fmap, length_seqZ.
  pose proof (u32_range (pi_nwrite p - pi_nread p)). unfold fill_level. lia.
Qed.

(** 2^32 is a multiple of the size of the ring. *)
Lemma u32_ring x : u32 x mod PIPESIZE = x mod PIPESIZE.
Proof.
  unfold u32, PIPESIZE. pow2. symmetry. apply Znumtheory.Zmod_div_mod; try lia.
  exists 8388608. lia.
Qed.

(** The tests of the code. *)
Lemma pipe_empty p : pipe_ok p → (pi_nread p =? pi_nwrite p) = true ↔ contents p = [].
Proof.
  intros [Hd Hr Hw Hf]. rewrite Z.eqb_eq. split.
  - intros He. unfold contents, fill_level. rewrite He, Z.sub_diag. done.
  - intros He. apply (f_equal length) in He. unfold contents in He. rewrite length_fmap, length_seqZ in He.
    unfold fill_level, u32 in *. simpl in He. pow2. Z.div_mod_to_equations. lia.
Qed.

Lemma pipe_full p : pipe_ok p →
  (pi_nwrite p =? u32 (pi_nread p + PIPESIZE)) = true ↔ fill_level p = PIPESIZE.
Proof.
  intros [Hd Hr Hw Hf]. rewrite Z.eqb_eq. unfold fill_level, u32, PIPESIZE in *. pow2.
  split; intros; Z.div_mod_to_equations; lia.
Qed.

Lemma pipe_put_ok ch p :
  pipe_ok p → fill_level p < PIPESIZE →
  pipe_ok (pipe_put ch p) ∧ contents (pipe_put ch p) = contents p ++ [ch] ∧
  fill_level (pipe_put ch p) = fill_level p + 1.
Proof.
  intros [Hd Hr Hw Hf] Hlt. set (q := pipe_put ch p).
  assert (Hq : fill_level q = fill_level p + 1).
  { unfold q, fill_level, pipe_put, u32, PIPESIZE in *. simpl. pow2. Z.div_mod_to_equations. lia. }
  assert (Hq0 : 0 ≤ fill_level p) by (apply u32_range). split; [|split; [|done]].
  - split; unfold q, pipe_put; simpl; [by rewrite length_updZ|done|apply u32_range|].
    unfold fill_level in *. simpl in *. lia.
  - unfold contents at 1. rewrite Hq, seqZ_app, fmap_app by lia. f_equal.
    + unfold contents. apply list_fmap_ext. intros k x Hk%list_elem_of_lookup_2%elem_of_seqZ.
      unfold q, pipe_put. simpl. rewrite nthZ_updZ_ne; [done|apply Z.mod_pos_bound; done..|].
      rewrite u32_ring. intros He.
      unfold fill_level, u32, PIPESIZE in *. simpl in *. pow2. Z.div_mod_to_equations. lia.
    + change (seqZ (0 + fill_level p) 1) with [0 + (0 + fill_level p)]. cbn [fmap list_fmap]. f_equal.
      rewrite !Z.add_0_l. unfold q, pipe_put. simpl.
      replace (u32 (pi_nread p + fill_level p) mod PIPESIZE) with (pi_nwrite p mod PIPESIZE).
      * apply nthZ_updZ_eq. rewrite Hd. apply Z.mod_pos_bound. done.
      * rewrite u32_ring. unfold fill_level, u32, PIPESIZE in *. pow2. Z.div_mod_to_equations. lia.
Qed.

(** [pi->nread++] takes the front of the queue. *)
Definition pipe_get (p : pipe) : pipe := set_pi_nread (u32 (pi_nread p + 1)) p.

Lemma pipe_get_ok p :
  pipe_ok p → 0 < fill_level p →
  pipe_ok (pipe_get p) ∧
  contents p = nthZ (pi_data p) (pi_nread p mod PIPESIZE) :: contents (pipe_get p).
Proof.
  intros [Hd Hr Hw Hf] Hpos. set (q := pipe_get p).
  assert (Hq : fill_level q = fill_level p - 1).
  { unfold q, fill_level, pipe_get, u32, PIPESIZE in *. simpl. pow2. Z.div_mod_to_equations. lia. }
  split.
  - split; unfold q, pipe_get; simpl; [done|apply u32_range|done|].
    unfold fill_level in *. simpl in *. lia.
  - unfold contents. replace (fill_level p) with (1 + fill_level q) by lia.
    rewrite seqZ_app, fmap_app by lia. simpl. f_equal.
    + rewrite Z.add_0_r, u32_small by lia. done.
    + rewrite (seqZ_fmap_add (0 + 1)). rewrite <- list_fmap_compose. apply list_fmap_ext.
      intros k x _. simpl. f_equal. rewrite !u32_ring. unfold q, pipe_get. simpl.
      rewrite <- (Zplus_mod_idemp_l (u32 _)), u32_ring, Zplus_mod_idemp_l. f_equal. lia.
Qed.

(** The address-space theory looks at memory and the free list only. *)
Lemma uspace_same `{Env} s s' root T fl D :
  mem s' = mem s → freelist s' = freelist s → uspace s root T fl D → uspace s' root T fl D.
Proof.
  intros Hm Hf [Hvm ? ? ? ?]. unfold vm_ok, kmem_ok in *.
  split; unfold vm_ok, kmem_ok; rewrite ?Hm, ?Hf; done.
Qed.

Lemma alter_pipe (f : pipe → pipe) pi (ps : gmap Z pipe) p :
  ps !! pi = Some p → alter f pi ps = <[pi := f p]> ps.
Proof.
  intros Hp. apply map_eq. intros j. destruct (decide (j = pi)) as [->|].
  - by rewrite lookup_alter_eq, lookup_insert_eq, Hp.
  - by rewrite lookup_alter_ne, lookup_insert_ne.
Qed.

Section transfer.
Context `{EnvOk} (me : nat) (pi : Z) (root : Z) (T : gmap (list Z) Z) (fl : list Z) (D : gmap Z Z).
Context (pr : proc) (Hroot : p_pagetable pr = root).

(** The process [me], with the page table [root], holds the pipe's lock. *)
Definition at_pipe (s : kstate) (p : pipe) : Prop :=
  pipes s !! pi = Some p ∧ pipe_ok p ∧ procs s !! me = Some pr ∧ uspace s root T fl D.

Lemma at_pipe_put s p q : at_pipe s p → pipe_ok q →
  at_pipe (set_pipes (<[pi := q]> (pipes s)) s) q.
Proof.
  intros (Hp & Hok & Hpr & Hu) Hq. split; [simpl; by rewrite lookup_insert_eq|]. split; [done|].
  split; [done|]. by apply (uspace_same s).
Qed.

Lemma write_one s p addr n i :
  at_pipe s p → fill_level p < PIPESIZE → pi_readopen p = true → p_killed pr = false → i < n →
  acc (mem s) T D (addr + i) →
  pipewrite_body me pi addr n i s =
    Ok (inl (i + 1)) (set_pipes (<[pi := pipe_put (load8 (mem s) (upa D (addr + i))) p]> (pipes s)) s).
Proof.
  intros (Hp & Hok & Hpr & Hu) Hlt Hro Hk Hin Hacc. unfold pipewrite_body.
  rewrite (proj2 (Z.ltb_lt _ _)) by done. simpl. mrun. rewrite Hp. simpl.
  rewrite (list_lookup_total_correct _ _ _ Hpr), Hro, Hk. simpl.
  destruct (pi_nwrite p =? u32 (pi_nread p + PIPESIZE)) eqn:Hfull.
  { apply pipe_full in Hfull; [lia|done]. }
  pose proof MAXVA_lt. pose proof (proj1 Hacc) as Hr. rewrite u64_small by lia. rewrite Hroot.
  pose proof (copyin_spec root s T fl D (addr + i) 1 0 Hu ltac:(lia) ltac:(lia) ltac:(lia)) as Hc.
  rewrite (bind_ok _ _ _ _ _ (Hc ltac:(intros j Hj; assert (j = 0) as -> by lia; by rewrite Z.add_0_r) ltac:(by left))).
  rewrite decide_True, uread_1 by done. simpl. mrun. by rewrite (alter_pipe _ pi (pipes s) p Hp).
Qed.

Lemma write_phase addr n f : p_killed pr = false → ∀ j i s p,
  at_pipe s p → pi_readopen p = true → 0 ≤ i → i + Z.of_nat j ≤ n → fill_level p + Z.of_nat j ≤ PIPESIZE →
  (∀ k, i ≤ k < i + Z.of_nat j → acc (mem s) T D (addr + k)) →
  ∃ q, loop (j + f) (pipewrite_body me pi addr n) i s =
       loop f (pipewrite_body me pi addr n) (i + Z.of_nat j) (set_pipes (<[pi := q]> (pipes s)) s) ∧
    pipe_ok q ∧ contents q = contents p ++ uread D (mem s) (addr + i) (Z.of_nat j) ∧
    pi_readopen q = true ∧ pi_writeopen q = pi_writeopen p ∧ fill_level q = fill_level p + Z.of_nat j.
Proof.
  intros Hk. induction j as [|j IH]; intros i s p Hat Hro Hi Hin Hfill Hacc.
  { exists p. rewrite Z.add_0_r. unfold uread. simpl. rewrite app_nil_r.
    rewrite insert_id by apply Hat. split; [by destruct s|]. split; [apply Hat|]. repeat split; [done|lia]. }
  set (b := load8 (mem s) (upa D (addr + i))).
  destruct (pipe_put_ok b p) as (Hok1 & Hc1 & Hf1); [apply Hat|lia|].
  destruct (IH (i + 1) (set_pipes (<[pi := pipe_put b p]> (pipes s)) s) (pipe_put b p))
    as (q & Hrun & Hokq & Hcq & Hroq & Hwoq & Hfq); [by eapply at_pipe_put|done|lia|lia|lia| |].
  { intros k Hk'. apply Hacc. lia. }
  exists q. simpl. rewrite (bind_ok _ _ _ _ _ (write_one s p addr n i Hat ltac:(lia) Hro Hk ltac:(lia) (Hacc i ltac:(lia)))).
  fold b. rewrite Hrun. split; [|split; [done|split; [|repeat split; [done|done|lia]]]].
  - replace (i + Z.of_nat (S j)) with (i + 1 + Z.of_nat j) by lia. simpl. rewrite insert_insert_eq. by destruct s.
  - rewrite Hcq, Hc1, <- app_assoc. f_equal. simpl mem.
    replace (Z.of_nat (S j)) with (1 + Z.of_nat j) by lia. rewrite uread_app by lia.
    rewrite uread_1. unfold b. by rewrite Z.add_assoc.
Qed.

Lemma read_one s p addr n i :
  at_pipe s p → 0 < fill_level p → i < n → acc (mem s) T D (addr + i) →
  let ch := nthZ (pi_data p) (pi_nread p mod PIPESIZE) in
  ∃ m', piperead_body me pi addr n i s =
      Ok (inl (i + 1)) (set_mem m' (set_pipes (<[pi := pipe_get p]> (pipes s)) s)) ∧
    at_pipe (set_mem m' (set_pipes (<[pi := pipe_get p]> (pipes s)) s)) (pipe_get p) ∧
    (∀ va, leaf m' T va = leaf (mem s) T va) ∧ uwritten D (addr + i) [ch] (mem s) m'.
Proof.
  intros (Hp & Hok & Hpr & Hu) Hpos Hin Hacc ch.
  set (s1 := set_pipes (<[pi := pipe_get p]> (pipes s)) s).
  assert (Hu1 : uspace s1 root T fl D) by (by apply (uspace_same s)).
  pose proof MAXVA_lt. pose proof (proj1 Hacc) as Hr.
  destruct (copyout_spec root s1 T fl D (addr + i) [ch] [] Hu1 ltac:(lia)) as (m' & Hrun & Hu' & Hl & Hw).
  { intros j Hj. simpl in Hj. assert (j = 0) as -> by lia. by rewrite Z.add_0_r. } { by left. }
  exists m'. split; [|split; [|done]].
  - unfold piperead_body. rewrite (proj2 (Z.ltb_lt _ _)) by done. simpl. mrun. rewrite Hp. simpl.
    destruct (pi_nread p =? pi_nwrite p) eqn:He.
    { exfalso. apply pipe_empty in He; [|done]. pose proof (length_contents p Hok) as Hlen.
      rewrite He in Hlen. simpl in Hlen. lia. }
    mrun. rewrite (alter_pipe _ pi (pipes s) p Hp). fold (pipe_get p). fold s1.
    change (procs s1) with (procs s). rewrite (list_lookup_total_correct _ _ _ Hpr), Hroot.
    rewrite u64_small by lia. by rewrite (bind_ok _ _ _ _ _ Hrun).
  - split; [simpl; by rewrite lookup_insert_eq|]. split; [by apply pipe_get_ok|]. by split.
Qed.

Lemma read_phase addr n f : ∀ j i s p,
  at_pipe s p → 0 ≤ i → i + Z.of_nat j ≤ n → Z.of_nat j ≤ fill_level p →
  (∀ k, i ≤ k < i + Z.of_nat j → acc (mem s) T D (addr + k)) →
  ∃ q m' l, let s' := set_mem m' (set_pipes (<[pi := q]> (pipes s)) s) in
    loop (j + f) (piperead_body me pi addr n) i s =
       loop f (piperead_body me pi addr n) (i + Z.of_nat j) s' ∧
    at_pipe s' q ∧ contents p = l ++ contents q ∧ length l = j ∧
    uwritten D (addr + i) l (mem s) m' ∧ pi_writeopen q = pi_writeopen p.
Proof.
  induction j as [|j IH]; intros i s p Hat Hi Hin Hfill Hacc.
  { exists p, (mem s), []. rewrite Z.add_0_r. cbn zeta.
    assert (Hid : set_mem (mem s) (set_pipes (<[pi := p]> (pipes s)) s) = s)
      by (rewrite insert_id by apply Hat; by destruct s).
    rewrite Hid. do 4 (split; [done|]). split; [apply uwritten_nil|done]. }
  destruct (pipe_get_ok p) as [Hok1 Hc1]; [apply Hat|lia|].
  destruct (read_one s p addr n i Hat ltac:(lia) ltac:(lia) (Hacc i ltac:(lia))) as (m1 & Hrun1 & Hat1 & Hl1 & Hw1).
  set (b := nthZ (pi_data p) (pi_nread p mod PIPESIZE)) in *.
  destruct (IH (i + 1) _ _ Hat1) as (q & m' & l & Hrun & Hatq & Hcq & Hlen & Hwq & Hwo).
  { lia. } { lia. }
  { pose proof (length_contents p ltac:(apply Hat)) as L1. pose proof (length_contents _ Hok1) as L2.
    rewrite Hc1 in L1. simpl in L1. lia. }
  { intros k Hk. eapply acc_same_leaf; [exact Hl1|]. apply Hacc. lia. }
  exists q, m', (b :: l).
  assert (Hst : set_mem m' (set_pipes (<[pi := q]> (pipes (set_mem m1 (set_pipes (<[pi := pipe_get p]> (pipes s)) s))))
    (set_mem m1 (set_pipes (<[pi := pipe_get p]> (pipes s)) s))) =
    set_mem m' (set_pipes (<[pi := q]> (pipes s)) s)).
  { destruct s; kred. f_equal. apply insert_insert_eq. }
  rewrite Hst in *. cbn zeta. split; [|split; [done|split; [|split; [|split]]]].
  - change (S j + f)%nat with (S (j + f)). rewrite loop_S, (bind_ok _ _ _ _ _ Hrun1), Hrun.
    by replace (i + Z.of_nat (S j)) with (i + 1 + Z.of_nat j) by lia.
  - by rewrite Hc1, Hcq.
  - simpl. lia.
  - change (b :: l) with ([b] ++ l). eapply (uwritten_app root s T fl D); [apply Hat| |done|].
    + intros k Hk. simpl in Hk. rewrite Hlen in Hk.
      destruct (Hacc (i + k) ltac:(lia)) as (_ & x & Hx & _). rewrite <- Z.add_assoc. by eexists.
    + simpl length. by replace (addr + i + Z.of_nat 1) with (addr + (i + 1)) by lia.
  - by rewrite Hwo.
Qed.

(** ** Whole calls *)

(** The caller: process [me] runs, with none of these locks held. *)
Definition ready (s : kstate) : Prop :=
  c_proc (cpu s) = Some me ∧ c_noff (cpu s) = 0 ∧ cpu_ok (cpu s) ∧ locks s !! LkPipe pi = None ∧
  (∀ i, (i < NPROC)%nat → locks s !! LkProc i = None) ∧ length (procs s) = NPROC.

Definition woken (ch : chan) (s : kstate) (ps : list proc) : Prop :=
  ∀ j, ps !! j = (if decide (j = me) then id else wake (Some ch)) <$> procs s !! j.

Lemma ready_hold s : ready s →
  running me (hold (LkPipe pi) s) ∧ proc_locks_free (hold (LkPipe pi) s).
Proof.
  intros (Hp & Hn & Hc & Hl & Hpl & Hlen). unfold running, proc_locks_free, hold. simpl. rewrite Hn, Hp.
  split; [done|]. split; [|intros i Hi _; rewrite lookup_insert_ne; auto]. by apply cpu_ok_pushed.
Qed.

Lemma at_pipe_hold s p : at_pipe s p → at_pipe (hold (LkPipe pi) s) p.
Proof. intros (?&?&?&?). split; [done|]. split; [done|]. split; [done|]. by apply (uspace_same s). Qed.

(** The tail of both calls: wake the other side and drop the lock. *)
Lemma wake_release ch s s1 :
  ready s → cpu s1 = cpu (hold (LkPipe pi) s) → locks s1 = locks (hold (LkPipe pi) s) →
  procs s1 = procs s →
  ∃ ps, woken ch s ps ∧ length ps = NPROC ∧ ∀ A (r : A),
    (wakeup (Some ch);; release (LkPipe pi);; mret r) s1 = Ok r (unhold s (set_procs ps s1)).
Proof.
  intros Hrd Hc Hl Hps. destruct (ready_hold s Hrd) as [_ [Hc1 Hl1]].
  destruct Hrd as (Hp & Hn & Hcok & Hlk & Hpl & Hlen).
  destruct (wakeup_eq (Some ch) s1) as (ps & Hrun & Hlen' & Hw).
  { split; rewrite ?Hc, ?Hl; done. } { by rewrite Hps. }
  exists ps. split; [|split; [done|]].
  - intros j. rewrite Hw, Hc, Hps. unfold hold, pushed. simpl. rewrite Hp.
    repeat case_decide; simplify_eq; done.
  - intros A r. rewrite (bind_ok _ _ _ _ _ Hrun).
    rewrite (bind_ok _ _ _ _ _ (release_eq (LkPipe pi) s (set_procs ps s1) Hcok Hlk Hc Hl)). done.
Qed.

Lemma pipewrite_fits s p addr n :
  ready s → at_pipe s p → pi_readopen p = true → p_killed pr = false →
  0 ≤ n → fill_level p + n ≤ PIPESIZE → (∀ k, 0 ≤ k < n → acc (mem s) T D (addr + k)) →
  ∃ q ps, pipewrite pi addr n s = Ok n (set_procs ps (set_pipes (<[pi := q]> (pipes s)) s)) ∧
    pipe_ok q ∧ contents q = contents p ++ uread D (mem s) addr n ∧
    pi_readopen q = true ∧ pi_writeopen q = pi_writeopen p ∧ woken (ChPipeRead pi) s ps.
Proof.
  intros Hrd Hat Hro Hk Hn Hfill Hacc. pose proof Hrd as (Hp & _ & Hcok & Hlk & _).
  set (s0 := hold (LkPipe pi) s).
  destruct (write_phase addr n (S fuel) Hk (Z.to_nat n) 0 s0 p)
    as (q & Hrun & Hok & Hc & Hroq & Hwoq & Hfq); [by apply at_pipe_hold|done|lia|lia|lia| |].
  { intros k Hk'. apply Hacc. lia. }
  set (s1 := set_pipes (<[pi := q]> (pipes s0)) s0) in *.
  destruct (wake_release (ChPipeRead pi) s s1 Hrd eq_refl eq_refl eq_refl) as (ps & Hwk & _ & Htail).
  exists q, ps. split; [|split; [done|]].
  - unfold pipewrite. rewrite (bind_ok _ _ _ _ _ (cur_eq s me Hcok Hp)).
    rewrite (bind_ok _ _ _ _ _ (acquire_eq _ s Hlk)). fold s0.
    replace (S (Z.to_nat n) + fuel)%nat with (Z.to_nat n + S fuel)%nat by lia.
    rewrite (bind_ok _ _ _ (Some n) s1).
    + rewrite Htail. unfold unhold. subst s1 s0. unfold hold. destruct s; kred; reflexivity.
    + rewrite Hrun, loop_S. rewrite Z2Nat.id, Z.add_0_l by done.
      rewrite (bind_ok _ _ _ (inr (Some n)) s1); [done|].
      unfold pipewrite_body. rewrite (proj2 (Z.ltb_ge _ _)) by lia. done.
  - rewrite Hc, Z.add_0_r, Z2Nat.id by done. done.
Qed.

(** More bytes than there is room for: the writer fills the pipe, wakes the
    readers and sleeps, with the lock released. *)
Lemma pipewrite_full s p addr n :
  ready s → at_pipe s p → pi_readopen p = true → p_killed pr = false →
  let room := PIPESIZE - fill_level p in
  room < n → (∀ k, 0 ≤ k < room → acc (mem s) T D (addr + k)) → (me < NPROC)%nat →
  ∃ q s1 k, pipewrite pi addr n s = Switch s1 k ∧ pipes s1 !! pi = Some q ∧ pipe_ok q ∧
    fill_level q = PIPESIZE ∧ contents q = contents p ++ uread D (mem s) addr room ∧
    procs s1 !! me = Some (asleep (ChPipeWrite pi) pr) ∧ locks s1 !! LkPipe pi = None ∧
    (∀ j x, procs s !! j = Some x → j ≠ me → procs s1 !! j = Some (wake (Some (ChPipeRead pi)) x)).
Proof.
  intros Hrd Hat Hro Hk room Hn Hacc Hme. pose proof Hrd as (Hp & _ & Hcok & Hlk & Hpl & Hlen).
  set (s0 := hold (LkPipe pi) s). assert (Hroom : 0 ≤ room) by (subst room; pose proof (pk_fill p ltac:(apply Hat)); lia).
  destruct (write_phase addr n (S (Z.to_nat n - Z.to_nat room + fuel)) Hk (Z.to_nat room) 0 s0 p)
    as (q & Hrun & Hok & Hc & Hroq & Hwoq & Hfq); [by apply at_pipe_hold|done|lia|lia|lia| |].
  { intros k Hk'. apply Hacc. lia. }
  set (s1 := set_pipes (<[pi := q]> (pipes s0)) s0) in *. rewrite Z2Nat.id, Z.add_0_l in * by done.
  destruct (ready_hold s Hrd) as [Hrun1 Hfree1].
  destruct (wakeup_eq (Some (ChPipeRead pi)) s1) as (ps & Hwk & Hlps & Hps); [done|done|].
  set (s2 := set_procs ps s1) in *.
  assert (Hme2 : ps !! me = Some pr).
  { rewrite Hps. unfold s1, s0, hold, pushed. simpl. rewrite Hp, decide_True by done.
    destruct Hat as (_ & _ & -> & _). done. }
  destruct (sleep_eq (ChPipeWrite pi) (LkPipe pi) me s2) as (s3 & k & Hsl & Hs3 & _).
  { done. } { unfold s2, s1, s0, hold. simpl. by rewrite lookup_insert_eq. }
  { unfold s2, s1, s0, hold. simpl. rewrite lookup_insert_ne by done. by apply Hpl. }
  { simpl. rewrite Hlps. done. }
  eexists q, s3, _. split; [|subst s3; simpl; split; [by rewrite lookup_insert_eq|]].
  - unfold pipewrite. rewrite (bind_ok _ _ _ _ _ (cur_eq s me Hcok Hp)).
    rewrite (bind_ok _ _ _ _ _ (acquire_eq _ s Hlk)). fold s0. apply bind_switch.
    replace (S (Z.to_nat n) + fuel)%nat with (Z.to_nat room + S (Z.to_nat n - Z.to_nat room + fuel))%nat by lia.
    rewrite Hrun, loop_S. apply bind_switch.
    unfold pipewrite_body. rewrite (proj2 (Z.ltb_lt _ _)) by done. cbn [negb]. mrun.
    assert (Hq1 : pipes s1 !! pi = Some q) by (unfold s1; simpl; by rewrite lookup_insert_eq).
    assert (Hp1 : procs s1 !! me = Some pr) by apply Hat.
    rewrite Hq1, (list_lookup_total_correct _ _ _ Hp1). cbn [default from_option id].
    rewrite Hroq, Hk. cbn [negb orb]. rewrite (proj2 (pipe_full q Hok)) by lia.
    rewrite (bind_ok _ _ _ _ _ Hwk). fold s2. apply bind_switch. exact Hsl.
  - split; [done|]. split; [lia|]. split; [by rewrite Hc, Z.add_0_r|].
    split; [by rewrite list_lookup_alter_eq, Hme2|].
    split; [rewrite lookup_insert_ne by done; by rewrite lookup_delete_eq|].
    intros j x Hj Hne. rewrite list_lookup_alter_ne by done. rewrite Hps. unfold s1, s0, hold, pushed. simpl.
    rewrite Hp, decide_False by congruence. by rewrite Hj.
Qed.

(** ** piperead *)
Lemma piperead_data s p addr n :
  ready s → at_pipe s p → (0 < fuel)%nat → 0 ≤ n →
  (0 < fill_level p ∨ pi_writeopen p = false) →
  let k := Z.min n (fill_level p) in
  (∀ j, 0 ≤ j < k → acc (mem s) T D (addr + j)) →
  ∃ q m' ps, piperead pi addr n s =
      Ok k (set_procs ps (set_mem m' (set_pipes (<[pi := q]> (pipes s)) s))) ∧
    pipe_ok q ∧ contents q = drop (Z.to_nat k) (contents p) ∧
    uwritten D addr (take (Z.to_nat k) (contents p)) (mem s) m' ∧
    pi_writeopen q = pi_writeopen p ∧ woken (ChPipeWrite pi) s ps.
Proof.
  intros Hrd Hat Hfuel Hn Hav k Hacc. pose proof Hrd as (Hp & _ & Hcok & Hlk & Hpl & Hlen).
  assert (Hf0 : 0 ≤ fill_level p) by apply u32_range.
  set (s0 := hold (LkPipe pi) s). assert (Hat0 : at_pipe s0 p) by by apply at_pipe_hold.
  destruct (read_phase addr n (S (Z.to_nat n - Z.to_nat k)) (Z.to_nat k) 0 s0 p Hat0)
    as (q & m' & l & Hrun & Hatq & Hc & Hl & Hw & Hwo); [lia|lia|lia| |].
  { intros j Hj. apply Hacc. lia. }
  set (s1 := set_mem m' (set_pipes (<[pi := q]> (pipes s0)) s0)) in *.
  destruct (wake_release (ChPipeWrite pi) s s1 Hrd eq_refl eq_refl eq_refl) as (ps & Hwk & _ & Htail).
  exists q, m', ps. rewrite Z2Nat.id, Z.add_0_l, Z.add_0_r in * by lia.
  rewrite Hc, <- Hl, take_app_length, drop_app_length.
  split; [|split; [apply Hatq|done]].
  unfold piperead. rewrite (bind_ok _ _ _ _ _ (cur_eq s me Hcok Hp)).
  rewrite (bind_ok _ _ _ _ _ (acquire_eq _ s Hlk)). fold s0.
  rewrite (bind_ok _ _ _ true s0).
  2:{ destruct fuel as [|f]; [lia|]. rewrite loop_S. rewrite (bind_ok _ _ _ (inr true) s0); [done|].
      unfold piperead_wait. mrun. destruct Hat0 as (-> & Hok & _). simpl.
      destruct (pi_nread p =? pi_nwrite p) eqn:He; [|done].
      destruct Hav as [Hav| ->]; [|done]. apply pipe_empty in He; [|done].
      pose proof (length_contents p Hok) as Hlc. rewrite He in Hlc. simpl in Hlc. lia. }
  cbn [negb]. rewrite (bind_ok _ _ _ k s1).
  - rewrite Htail. unfold unhold. subst s1 s0. unfold hold. destruct s; kred; reflexivity.
  - replace (S (Z.to_nat n)) with (Z.to_nat k + S (Z.to_nat n - Z.to_nat k))%nat by lia.
    rewrite Hrun, loop_S. rewrite (bind_ok _ _ _ (inr k) s1); [done|].
    unfold piperead_body. destruct (Z.ltb_spec k n) as [Hlt|]; [|done]. simpl. mrun.
    destruct Hatq as (-> & Hokq & _). simpl. rewrite (proj2 (pipe_empty q Hokq)); [done|].
    apply nil_length_inv. pose proof (length_contents p ltac:(apply Hat)) as Hlc. rewrite Hc, length_app in Hlc. lia.
Qed.

(** An empty pipe with an open write end: the reader sleeps. *)
Lemma piperead_empty s p addr n :
  ready s → at_pipe s p → (0 < fuel)%nat → (me < NPROC)%nat →
  contents p = [] → pi_writeopen p = true → p_killed pr = false →
  ∃ s1 k, piperead pi addr n s = Switch s1 k ∧ pipes s1 = pipes s ∧
    s1 = set_procs (alter (asleep (ChPipeRead pi)) me (procs s))
           (set_locks (<[LkProc me := c_id (cpu s)]> (locks s)) (set_cpu (pushed (cpu s)) s)).
Proof.
  intros Hrd Hat Hfuel Hme He Hwo Hk. pose proof Hrd as (Hp & _ & Hcok & Hlk & Hpl & Hlen).
  set (s0 := hold (LkPipe pi) s). destruct (ready_hold s Hrd) as [Hrun1 _].
  destruct (sleep_eq (ChPipeRead pi) (LkPipe pi) me s0) as (s3 & k & Hsl & Hs3 & _).
  { done. } { unfold s0, hold. simpl. by rewrite lookup_insert_eq. }
  { unfold s0, hold. simpl. rewrite lookup_insert_ne by done. by apply Hpl. }
  { simpl. lia. }
  destruct fuel as [|f] eqn:Hfu; [lia|].
  eexists s3, _. split; [|split; [by subst s3|]].
  - unfold piperead. rewrite (bind_ok _ _ _ _ _ (cur_eq s me Hcok Hp)).
    rewrite (bind_ok _ _ _ _ _ (acquire_eq _ s Hlk)). fold s0. apply bind_switch.
    rewrite Hfu, loop_S. apply bind_switch. unfold piperead_wait. mrun.
    destruct Hat as (Hpp & Hok & Hpr & _). simpl. rewrite Hpp. simpl.
    rewrite (proj2 (pipe_empty p Hok) He), Hwo. simpl. mrun. simpl.
    rewrite (list_lookup_total_correct _ _ _ Hpr), Hk. apply bind_switch. exact Hsl.
  - subst s3. unfold s0, hold. simpl. rewrite delete_insert_id by done. by destruct s.
Qed.
End transfer.
