(* ===== verification/Bio.v ===== *)
(** * kernel/bio.c: the buffer cache

    Buffers are indices into bcache.buf[]; index [NBUF] is bcache.head. The
    disk is reached through [disk_rw], the block transfer that
    virtio_disk_rw(b, write) performs. *)

From Stdlib Require Import ZArith Lia.
From stdpp Require Import base numbers gmap strings countable tactics list.
From S2P Require Import Prelude Machine CString State Spinlock Kalloc Vm Sched Sleeplock.

Definition buf_ids : list nat := seq 0 NBUF.
#[global] Arguments buf_ids : simpl never.

(** The links of the list, through the buffers and the head. *)
Definition bnext (s : kstate) (i : nat) : nat :=
  if decide (i = NBUF) then (bhead s).2 else b_next (bcache s !!! i).
Definition bprev (s : kstate) (i : nat) : nat :=
  if decide (i = NBUF) then (bhead s).1 else b_prev (bcache s !!! i).

Definition set_next (i v : nat) : M unit :=
  if decide (i = NBUF) then modify (λ s, set_bhead ((bhead s).1, v) s)
  else upd_buf i (set_b_next v).
Definition set_prev (i v : nat) : M unit :=
  if decide (i = NBUF) then modify (λ s, set_bhead (v, (bhead s).2) s)
  else upd_buf i (set_b_prev v).

Definition zero_block : list Z := replicate 1024 0.
#[global] Arguments zero_block : simpl never.

(** The content of a block on the disk. *)
Definition dblock (s : kstate) (b : Z) : list Z := default zero_block (disk s !! b).

(** The transfer of one block between buffer [i] and the disk. *)
Definition disk_rw (i : nat) (write : bool) : M unit :=
  b ← get_buf i;
  if write then
    modify (λ s, set_dlog (dlog s ++ [(b_blockno b, b_data b)])
                   (set_disk (<[b_blockno b := b_data b]> (disk s)) s))
  else
    d ← gets (λ s, dblock s (b_blockno b));
    upd_buf i (set_b_data d).

Section bio.
Context `{Env}.

(** The moves of binit() and brelse(): [b] becomes the first of the list. *)
Definition push_front (i : nat) : M unit :=
  h ← gets (λ s, bnext s NBUF);
  set_next i h;;
  set_prev i NBUF;;
  set_prev h i;;
  set_next NBUF i.

Definition binit : M unit :=
  initlock LkBcache;;
  set_prev NBUF NBUF;;
  set_next NBUF NBUF;;
  for_each buf_ids (λ i,
    h ← gets (λ s, bnext s NBUF);
    set_next i h;;
    set_prev i NBUF;;
    initsleeplock (SlBuf i);;
    h ← gets (λ s, bnext s NBUF);
    set_prev h i;;
    set_next NBUF i;;
    mret (None : option unit));;
  mret tt.

(** The two searches of bget(): forwards for the block, backwards for the
    least recently used free buffer. The list has [NBUF] buffers. *)
Definition find_cached (dev blockno : Z) : M (option nat) :=
  h ← gets (λ s, bnext s NBUF);
  loop (S NBUF) (λ i,
    if decide (i = NBUF) then mret (inr None)
    else
      b ← get_buf i;
      if (b_dev b =? dev) && (b_blockno b =? blockno) then mret (inr (Some i))
      else nx ← gets (λ s, bnext s i); mret (inl nx)) h.

Definition find_free : M (option nat) :=
  h ← gets (λ s, bprev s NBUF);
  loop (S NBUF) (λ i,
    if decide (i = NBUF) then mret (inr None)
    else
      b ← get_buf i;
      if b_refcnt b =? 0 then mret (inr (Some i))
      else pv ← gets (λ s, bprev s i); mret (inl pv)) h.

Definition bget (dev blockno : Z) : M nat :=
  acquire LkBcache;;
  hit ← find_cached dev blockno;
  match hit with
  | Some i =>
      upd_buf i (λ b, set_b_refcnt (u32 (b_refcnt b + 1)) b);;
      release LkBcache;;
      acquiresleep (SlBuf i);;
      mret i
  | None =>
      free ← find_free;
      match free with
      | Some i =>
          upd_buf i (λ b, set_b_refcnt 1 (set_b_valid false (set_b_blockno blockno (set_b_dev dev b))));;
          release LkBcache;;
          acquiresleep (SlBuf i);;
          mret i
      | None => panic "bget: no buffers"
      end
  end.

Definition bread (dev blockno : Z) : M nat :=
  i ← bget dev blockno;
  b ← get_buf i;
  when (negb (b_valid b)) (disk_rw i false;; upd_buf i (set_b_valid true));;
  mret i.

Definition bwrite (i : nat) : M unit :=
  h ← holdingsleep (SlBuf i);
  if negb h then panic "bwrite" else disk_rw i true.

Definition brelse (i : nat) : M unit :=
  h ← holdingsleep (SlBuf i);
  if negb h then panic "brelse"
  else
    releasesleep (SlBuf i);;
    acquire LkBcache;;
    upd_buf i (λ b, set_b_refcnt (u32 (b_refcnt b - 1)) b);;
    b ← get_buf i;
    when (b_refcnt b =? 0)
      (nx ← gets (λ s, bnext s i);
       pv ← gets (λ s, bprev s i);
       set_prev nx pv;;
       set_next pv nx;;
       push_front i);;
    release LkBcache.

Definition bpin (i : nat) : M unit :=
  acquire LkBcache;;
  upd_buf i (λ b, set_b_refcnt (u32 (b_refcnt b + 1)) b);;
  release LkBcache.

Definition bunpin (i : nat) : M unit :=
  acquire LkBcache;;
  upd_buf i (λ b, set_b_refcnt (u32 (b_refcnt b - 1)) b);;
  release LkBcache.
End bio.
