(* ===== verification/BioList.v ===== *)
(** * The list of buffers

    bcache.head and the prev and next fields of the buffers form a doubly
    linked ring: [lru s L] says that it runs through the buffers [L], the most
    recently used first. The searches of bget() walk it, and brelse() moves a
    buffer to its front. *)

From Stdlib Require Import ZArith Lia.
From stdpp Require Import base numbers functions gmap strings countable tactics list.
From S2P Require Import Prelude Machine CString State Spinlock Kalloc Vm VmMap Sched Sleeplock Bio.

(** ** Segments of a doubly linked list *)
Section segments.
Implicit Types (nx pv : nat → nat) (a b i : nat) (L : list nat).

(** The nodes [L] lie between [a] and [b]. *)
Fixpoint seg nx pv a L b : Prop :=
  match L with
  | [] => nx a = b ∧ pv b = a
  | x :: L => nx a = x ∧ pv x = a ∧ seg nx pv x L b
  end.

Lemma seg_app nx pv a L1 x L2 b :
  seg nx pv a (L1 ++ x :: L2) b ↔ seg nx pv a L1 x ∧ seg nx pv x L2 b.
Proof. revert a. induction L1 as [|y L1 IH]; intros a; simpl; [tauto|]. rewrite IH. tauto. Qed.

Lemma seg_frame nx pv nx' pv' a L b :
  (∀ y, y ∈ a :: L → nx' y = nx y) → (∀ y, y ∈ L ++ [b] → pv' y = pv y) →
  seg nx pv a L b → seg nx' pv' a L b.
Proof.
  revert a. induction L as [|x L IH]; intros a Hn Hp; simpl.
  - rewrite Hn by left. rewrite Hp by left. done.
  - intros (<- & Hx & Hs). rewrite Hn by left. rewrite Hp by left. do 2 (split; [done|]).
    apply IH; [intros; apply Hn; by right|intros; apply Hp; by right|done].
Qed.

Lemma seg_next nx pv a L b : seg nx pv a L b → nx a = hd b L.
Proof. destruct L; simpl; naive_solver. Qed.

Lemma seg_prev nx pv a L b : seg nx pv a L b → pv b = List.last L a.
Proof.
  destruct L as [|x L _] using rev_ind; [simpl; tauto|]. rewrite List.last_last, seg_app. simpl. tauto.
Qed.

(** Taking [i] out: [i->next->prev = i->prev; i->prev->next = i->next]. *)
Lemma seg_unlink nx pv a A i B b :
  seg nx pv a (A ++ i :: B) b → NoDup (a :: A ++ i :: B) → b ∉ A ++ i :: B → (b = a ∨ b ∉ a :: A ++ i :: B) →
  let p := pv i in let n := nx i in
  seg (<[p := n]> nx) (<[n := p]> pv) a (A ++ B) b.
Proof.
  rewrite seg_app. intros [HA HB] Hnd Hb Hab p n.
  assert (Hp : p = List.last A a) by (by apply seg_prev in HA).
  assert (Hn : n = hd b B) by (by apply seg_next in HB).
  apply NoDup_cons in Hnd as [Ha Hnd]. apply NoDup_app in Hnd as (HndA & Hdis & HndB).
  apply NoDup_cons in HndB as [HiB HndB].
  clearbody p n. destruct A as [|y A' _] using rev_ind.
  - simpl in Hp. subst p. destruct B as [|z B]; simpl in Hn; subst n; simpl in *.
    + by rewrite !fn_lookup_insert.
    + destruct HB as (_ & _ & HB). apply NoDup_cons in HndB as [Hz _]. rewrite !fn_lookup_insert. do 2 (split; [done|]).
      eapply seg_frame; [| |exact HB]; intros w Hw; rewrite fn_lookup_insert_ne by set_solver; done.
  - rewrite List.last_last in Hp. subst p. rewrite seg_app in HA. destruct HA as [HA _].
    apply NoDup_app in HndA as (_ & HyA & _).
    destruct B as [|z B]; simpl in Hn; subst n.
    + rewrite app_nil_r. rewrite seg_app. split.
      * eapply seg_frame; [| |exact HA]; intros w Hw; rewrite fn_lookup_insert_ne by set_solver; done.
      * simpl. by rewrite !fn_lookup_insert.
    + rewrite <- app_assoc. apply NoDup_cons in HndB as [Hz _]. simpl. rewrite seg_app. split.
      * eapply seg_frame; [| |exact HA]; intros w Hw; rewrite fn_lookup_insert_ne by set_solver; done.
      * simpl in *. rewrite !fn_lookup_insert. do 2 (split; [done|]).
        eapply seg_frame; [| |apply HB]; intros w Hw; rewrite fn_lookup_insert_ne by set_solver; done.
Qed.

(** Putting [i] first. *)
Lemma seg_push nx pv a L i :
  seg nx pv a L a → NoDup (a :: L) → i ∉ a :: L →
  let h := nx a in
  seg (<[a := i]> (<[i := h]> nx)) (<[h := i]> (<[i := a]> pv)) a (i :: L) a.
Proof.
  intros Hs [Ha Hnd]%NoDup_cons Hi h. assert (Hh : h = hd a L) by (by apply seg_next in Hs).
  clearbody h. apply not_elem_of_cons in Hi as [Hia HiL]. simpl. rewrite fn_lookup_insert. split; [done|].
  destruct L as [|x L]; simpl in Hh; subst h.
  - rewrite fn_lookup_insert_ne, fn_lookup_insert by done. split; [done|]. simpl.
    by rewrite fn_lookup_insert_ne, !fn_lookup_insert.
  - apply not_elem_of_cons in HiL as [Hix HiL]. apply NoDup_cons in Hnd as [Hx Hnd].
    rewrite fn_lookup_insert_ne, fn_lookup_insert by done. split; [done|]. simpl.
    rewrite fn_lookup_insert_ne, !fn_lookup_insert by done. do 2 (split; [done|]).
    destruct Hs as (_ & _ & Hs).
    eapply seg_frame; [| |exact Hs]; intros w Hw; rewrite !fn_lookup_insert_ne; try done; set_solver.
Qed.
End segments.

(** ** The ring of the buffer cache *)
Record lru (s : kstate) (L : list nat) : Prop := {
  lr_seg : seg (bnext s) (bprev s) NBUF L NBUF;
  lr_nodup : NoDup L;
  lr_all : ∀ i, i ∈ L ↔ (i < NBUF)%nat;
  lr_len : length (bcache s) = NBUF;
}.

(** The buffers without their links, and everything that is not the cache. *)
Definition unlinked (x : buf) : buf := set_b_prev 0 (set_b_next 0 x).
Definition bcore (s : kstate) : list buf := unlinked <$> bcache s.
Definition nonlinks (s : kstate) : kstate * list buf := (set_bcache [] (set_bhead (0, 0)%nat s), bcore s).

Definition put_next (i v : nat) (s : kstate) : kstate :=
  if decide (i = NBUF) then set_bhead ((bhead s).1, v) s
  else set_bcache (alter (set_b_next v) i (bcache s)) s.
Definition put_prev (i v : nat) (s : kstate) : kstate :=
  if decide (i = NBUF) then set_bhead (v, (bhead s).2) s
  else set_bcache (alter (set_b_prev v) i (bcache s)) s.

Lemma set_next_eq i v s : set_next i v s = Ok tt (put_next i v s).
Proof. unfold set_next, put_next. by case_decide. Qed.

Lemma set_prev_eq i v s : set_prev i v s = Ok tt (put_prev i v s).
Proof. unfold set_prev, put_prev. by case_decide. Qed.

Lemma bcore_alter f i s :
  (∀ x, unlinked (f x) = unlinked x) → unlinked <$> alter f i (bcache s) = bcore s.
Proof.
  intros Hf. unfold bcore. apply list_eq. intros j. rewrite !list_lookup_fmap.
  destruct (decide (j = i)) as [->|]; [|by rewrite list_lookup_alter_ne].
  rewrite list_lookup_alter_eq. destruct (bcache s !! i); simpl; [by rewrite Hf|done].
Qed.

Lemma nonlinks_next i v s : nonlinks (put_next i v s) = nonlinks s.
Proof.
  unfold nonlinks, put_next. case_decide; [by destruct s|]. f_equal. by apply bcore_alter.
Qed.

Lemma nonlinks_prev i v s : nonlinks (put_prev i v s) = nonlinks s.
Proof.
  unfold nonlinks, put_prev. case_decide; [by destruct s|]. f_equal. by apply bcore_alter.
Qed.

Lemma length_bcache_nonlinks s s' : nonlinks s' = nonlinks s → length (bcache s') = length (bcache s).
Proof.
  intros He. apply (f_equal (λ x, length x.2)) in He. unfold nonlinks, bcore in He. simpl in He.
  by rewrite !length_fmap in He.
Qed.

(** How the links move. *)
Lemma alter_total (f : buf → buf) i j (l : list buf) :
  (i < length l)%nat → alter f i l !!! j = if decide (j = i) then f (l !!! i) else l !!! j.
Proof.
  intros Hi. case_decide as Hj.
  - subst j. apply list_lookup_total_correct. rewrite list_lookup_alter_eq.
    by rewrite (list_lookup_lookup_total_lt l i Hi).
  - rewrite !list_lookup_total_alt. by rewrite list_lookup_alter_ne.
Qed.

Lemma bnext_next i v s j : length (bcache s) = NBUF → (i ≤ NBUF)%nat →
  bnext (put_next i v s) j = <[i := v]> (bnext s) j.
Proof.
  intros Hl Hi. unfold put_next, bnext. destruct (decide (i = j)) as [<-|Hne].
  - rewrite fn_lookup_insert. case_decide; [done|]. simpl. rewrite alter_total, decide_True by (lia || done). done.
  - rewrite fn_lookup_insert_ne by done. repeat case_decide; subst; simpl; try done.
    rewrite alter_total, decide_False by (lia || done). done.
Qed.

Lemma bprev_prev i v s j : length (bcache s) = NBUF → (i ≤ NBUF)%nat →
  bprev (put_prev i v s) j = <[i := v]> (bprev s) j.
Proof.
  intros Hl Hi. unfold put_prev, bprev. destruct (decide (i = j)) as [<-|Hne].
  - rewrite fn_lookup_insert. case_decide; [done|]. simpl. rewrite alter_total, decide_True by (lia || done). done.
  - rewrite fn_lookup_insert_ne by done. repeat case_decide; subst; simpl; try done.
    rewrite alter_total, decide_False by (lia || done). done.
Qed.

Lemma bnext_prev i v s j : length (bcache s) = NBUF → (i ≤ NBUF)%nat → bnext (put_prev i v s) j = bnext s j.
Proof.
  intros Hl Hi. unfold put_prev, bnext. repeat case_decide; try done. simpl.
  rewrite alter_total by lia. by case_decide; subst.
Qed.

Lemma bprev_next i v s j : length (bcache s) = NBUF → (i ≤ NBUF)%nat → bprev (put_next i v s) j = bprev s j.
Proof.
  intros Hl Hi. unfold put_next, bprev. repeat case_decide; try done. simpl.
  rewrite alter_total by lia. by case_decide; subst.
Qed.

(** ** Moving a buffer to the front *)
Lemma lru_ext s s' L : lru s L → nonlinks s' = nonlinks s →
  seg (bnext s') (bprev s') NBUF L NBUF → lru s' L.
Proof. intros [_ Hnd Hall Hlen] Hnl Hs. split; [done..|]. by rewrite (length_bcache_nonlinks _ _ Hnl). Qed.

Lemma seg_bounds nx pv a L b : seg nx pv a L b → nx a ∈ L ++ [b] ∧ pv b ∈ a :: L.
Proof.
  intros Hs. split.
  - rewrite (seg_next _ _ _ _ _ Hs). destruct L; simpl; left.
  - rewrite (seg_prev _ _ _ _ _ Hs). destruct L as [|x L _] using rev_ind; [left|].
    rewrite List.last_last. right. set_solver.
Qed.

Definition ring_state (s : kstate) (L : list nat) : Prop :=
  length (bcache s) = NBUF ∧ NoDup (NBUF :: L) ∧ (∀ i, i ∈ L → (i < NBUF)%nat) ∧
  seg (bnext s) (bprev s) NBUF L NBUF.

Lemma push_front_eq `{Env} i s L :
  ring_state s L → (i < NBUF)%nat → i ∉ L →
  ∃ s', push_front i s = Ok tt s' ∧ nonlinks s' = nonlinks s ∧ ring_state s' (i :: L).
Proof.
  intros (Hlen & Hnd & Hb & Hs) Hi Hni.
  assert (Hh : (bnext s NBUF ≤ NBUF)%nat).
  { destruct (seg_bounds _ _ _ _ _ Hs) as [[?%Hb| ->%list_elem_of_singleton]%elem_of_app _]; lia. }
  set (h := bnext s NBUF) in *. set (s1 := put_next i h s). set (s2 := put_prev i NBUF s1).
  set (s3 := put_prev h i s2). set (s4 := put_next NBUF i s3).
  assert (H1 : length (bcache s1) = NBUF) by (rewrite (length_bcache_nonlinks s); [done|apply nonlinks_next]).
  assert (H2 : length (bcache s2) = NBUF) by (rewrite (length_bcache_nonlinks s1); [done|apply nonlinks_prev]).
  assert (H3 : length (bcache s3) = NBUF) by (rewrite (length_bcache_nonlinks s2); [done|apply nonlinks_prev]).
  exists s4. split; [|split].
  - unfold push_front. mrun. fold h. rewrite (bind_ok _ _ _ _ _ (set_next_eq i h s)).
    rewrite (bind_ok _ _ _ _ _ (set_prev_eq i NBUF _)), (bind_ok _ _ _ _ _ (set_prev_eq h i _)). apply set_next_eq.
  - unfold s4, s3, s2, s1. by rewrite nonlinks_next, !nonlinks_prev, nonlinks_next.
  - assert (Hni' : i ∉ NBUF :: L) by (apply not_elem_of_cons; split; [lia|done]).
    split; [rewrite (length_bcache_nonlinks s3); [done|apply nonlinks_next]|].
    split; [|split].
    + apply NoDup_cons in Hnd as [? ?]. constructor; [set_solver|]. by constructor.
    + intros j [->|Hj]%elem_of_cons; auto.
    + eapply seg_frame; [| |apply (seg_push _ _ NBUF L i Hs Hnd Hni')].
      * intros j _. unfold s4. rewrite bnext_next by (done || lia). unfold insert, fn_insert. case_decide; [done|].
        unfold s3, s2, s1. rewrite !bnext_prev, bnext_next by (done || lia). done.
      * intros j _. unfold s4. rewrite bprev_next by (done || lia). unfold s3. rewrite bprev_prev by (done || lia).
        fold h. unfold insert, fn_insert. case_decide; [done|].
        unfold s2. rewrite bprev_prev by (done || lia). unfold insert, fn_insert. case_decide; [done|].
        apply bprev_next; [done|lia].
Qed.

Lemma unlink_eq i s A B :
  ring_state s (A ++ i :: B) →
  let s' := put_next (bprev s i) (bnext s i) (put_prev (bnext s i) (bprev s i) s) in
  nonlinks s' = nonlinks s ∧ ring_state s' (A ++ B).
Proof.
  intros (Hlen & Hnd & Hb & Hs) s'.
  assert (Hn : (bnext s i ≤ NBUF)%nat ∧ (bprev s i ≤ NBUF)%nat).
  { apply seg_app in Hs as [HA HB]. destruct (seg_bounds _ _ _ _ _ HA) as [_ Hp].
    destruct (seg_bounds _ _ _ _ _ HB) as [Hn _]. split.
    - apply elem_of_app in Hn as [Hn| ->%list_elem_of_singleton]; [|done]. apply Nat.lt_le_incl, Hb. set_solver.
    - apply elem_of_cons in Hp as [->|Hp]; [done|]. apply Nat.lt_le_incl, Hb. set_solver. }
  destruct Hn as [Hn Hp].
  assert (Hnl : nonlinks s' = nonlinks s) by (unfold s'; by rewrite nonlinks_next, nonlinks_prev).
  split; [done|]. split; [by rewrite (length_bcache_nonlinks _ _ Hnl)|].
  split; [|split].
  - apply NoDup_cons in Hnd as [? Hnd]. constructor; [set_solver|].
    apply NoDup_app in Hnd as (? & ? & [? ?]%NoDup_cons). apply NoDup_app. set_solver.
  - intros j Hj. apply Hb. set_solver.
  - assert (Hlen1 : length (bcache (put_prev (bnext s i) (bprev s i) s)) = NBUF)
      by (rewrite (length_bcache_nonlinks s); [done|apply nonlinks_prev]).
    eapply seg_frame; [| |apply (seg_unlink _ _ NBUF A i B NBUF Hs Hnd)].
    + intros j _. unfold s'. rewrite bnext_next by done. unfold insert, fn_insert. case_decide; [done|].
      apply bnext_prev; done.
    + intros j _. unfold s'. rewrite bprev_next by done. by apply bprev_prev.
    + apply NoDup_cons in Hnd. tauto.
    + by left.
Qed.

Lemma lru_ring s L : lru s L → ring_state s L.
Proof.
  intros [Hs Hnd Hall Hlen]. split; [done|]. split; [|split; [|done]].
  - constructor; [|done]. rewrite Hall. lia.
  - intros i. apply Hall.
Qed.

(** What brelse() does with a buffer nobody uses any more. *)
Lemma move_front `{Env} i s A B :
  lru s (A ++ i :: B) →
  ∃ s', (nx ← gets (λ s, bnext s i);
         pv ← gets (λ s, bprev s i);
         set_prev nx pv;;
         set_next pv nx;;
         push_front i) s = Ok tt s' ∧ nonlinks s' = nonlinks s ∧ lru s' (i :: A ++ B).
Proof.
  intros Hl. destruct (unlink_eq i s A B (lru_ring _ _ Hl)) as [Hnl Hr].
  destruct Hl as [_ Hnd Hall Hlen].
  assert (Hi : i ∉ A ++ B).
  { apply NoDup_app in Hnd as (_ & Hd & [Hi _]%NoDup_cons). rewrite elem_of_app. intros [Hj|Hj]; [|done].
    apply (Hd i Hj). left. }
  destruct (push_front_eq i _ (A ++ B) Hr) as (s' & Hrun & Hnl' & Hr'); [apply Hall; set_solver|done|].
  exists s'. split; [|split; [congruence|]].
  - mrun. rewrite (bind_ok _ _ _ _ _ (set_prev_eq _ _ _)), (bind_ok _ _ _ _ _ (set_next_eq _ _ _)). exact Hrun.
  - destruct Hr' as (Hlen' & Hnd' & _ & Hs'). split; [done| | |done].
    + by apply NoDup_cons in Hnd' as [_ ?].
    + intros j. rewrite <- Hall, elem_of_cons, !elem_of_app, elem_of_cons. tauto.
Qed.

(** ** The searches of bget() *)

(** The loops visit the buffers of [L] in order until [stop]. *)
Lemma search_eq (nx : kstate → nat → nat) (stop : buf → bool) s : ∀ L k i,
  (length L ≤ k)%nat → NBUF ∉ L → i = hd NBUF L →
  (∀ A x B, L = A ++ x :: B → nx s x = hd NBUF B) →
  loop (S k) (λ i,
    if decide (i = NBUF) then mret (inr None)
    else
      b ← get_buf i;
      if stop b then mret (inr (Some i))
      else nx ← gets (λ s, nx s i); mret (inl nx)) i s =
  Ok (list_find (λ i, stop (bcache s !!! i)) L ≫= λ '(k, i), Some i) s.
Proof.
  induction L as [|x L IH]; intros k i Hk Hni -> Hnx; rewrite loop_S; simpl.
  { done. }
  apply not_elem_of_cons in Hni as [Hx Hni]. rewrite decide_False by done.
  rewrite (bind_ok _ _ s (if stop (bcache s !!! x) then inr (Some x) else inl (nx s x)) s)
    by (mrun; by destruct (stop _)).
  destruct (stop (bcache s !!! x)) eqn:Hst; [done|]. destruct k as [|k]; simpl in Hk; [lia|].
  rewrite (Hnx [] x L eq_refl). rewrite (IH k (hd NBUF L)); [|lia|done|done|].
  - f_equal. by destruct (list_find _ L) as [[]|].
  - intros A y B ->. apply (Hnx (x :: A)). done.
Qed.

Lemma length_lru s L : lru s L → length L = NBUF.
Proof.
  intros [_ Hnd Hall _]. trans (length (seq 0 NBUF)); [|apply length_seq]. apply Permutation_length.
  apply NoDup_Permutation; [done|apply NoDup_seq|]. intros i. rewrite Hall, elem_of_seq. lia.
Qed.

Definition found {A} (r : option (nat * A)) : option A := r ≫= λ '(_, a), Some a.

Lemma find_cached_eq `{Env} dev blockno s L :
  lru s L → find_cached dev blockno s =
    Ok (found (list_find (λ i, let b := bcache s !!! i in (b_dev b =? dev) && (b_blockno b =? blockno)) L)) s.
Proof.
  intros Hl. pose proof (lr_seg _ _ Hl) as Hs. unfold find_cached. mrun.
  apply (search_eq bnext (λ b, (b_dev b =? dev) && (b_blockno b =? blockno))).
  - by rewrite (length_lru s).
  - rewrite (lr_all _ _ Hl). lia.
  - by apply seg_next in Hs.
  - intros A x B ->. apply seg_app in Hs as [_ Hs]. by apply seg_next in Hs.
Qed.

Lemma find_free_eq `{Env} s L :
  lru s L → find_free s = Ok (found (list_find (λ i, b_refcnt (bcache s !!! i) =? 0) (rev L))) s.
Proof.
  intros Hl. pose proof (lr_seg _ _ Hl) as Hs. unfold find_free. mrun.
  assert (Hhd : ∀ (M : list nat) a, hd a (rev M) = List.last M a).
  { intros M a. destruct M as [|y M _] using rev_ind; [done|]. by rewrite rev_unit, List.last_last. }
  apply (search_eq bprev (λ b, b_refcnt b =? 0)).
  - by rewrite length_rev, (length_lru s).
  - intros Hin%list_elem_of_In%in_rev%list_elem_of_In. apply (lr_all _ _ Hl) in Hin. lia.
  - rewrite Hhd. by apply seg_prev in Hs.
  - intros A x B Hr. assert (L = rev B ++ x :: rev A) as ->.
    { rewrite <- (rev_involutive L), Hr, rev_app_distr. simpl. by rewrite <- app_assoc. }
    apply seg_app in Hs as [Hs _]. apply seg_prev in Hs. by rewrite <- Hhd, rev_involutive in Hs.
Qed.
