(* ===== verification/BioCache.v ===== *)
(** * The buffer cache as a map of blocks

    [cache s V P H N] describes the cache of a device when one process uses it:
    [V b] is the content of block b as bread() gives it, [P b] the number of
    references to it, [H] the buffers the process holds, and [N] counts the
    buffers in use. bread(), bwrite(), brelse(), bpin() and bunpin() are then
    operations on [V], [P], [H] and the disk. *)

From Stdlib Require Import ZArith Lia.
From stdpp Require Import base numbers functions gmap strings countable tactics list.
From S2P Require Import Prelude Machine CString State Spinlock Kalloc Vm VmMap Sched SchedTheory Sleeplock Bio BioList.

(** The content of a block of a disk image. *)
Definition block_of (dk : gmap Z (list Z)) (b : Z) : list Z := default zero_block (dk !! b).

Definition in_use (x : buf) : bool := negb (b_refcnt x =? 0).
Definition uses (C : list buf) : Z := count in_use C.

Section core.
Context (d pid : Z).
Implicit Types (C : list buf) (dk : gmap Z (list Z)) (V : Z → list Z) (P : Z → Z) (H : gmap Z nat).

Record core C dk V P H : Prop := {
  ca_uniq : ∀ i j x y, C !! i = Some x → C !! j = Some y → b_dev x = d → b_dev y = d →
    b_blockno x = b_blockno y → i = j;
  ca_valid : ∀ i x, C !! i = Some x → b_dev x = d → b_valid x = true;
  ca_other : ∀ i x, C !! i = Some x → b_dev x ≠ d → b_refcnt x = 0;
  ca_clean : ∀ i x, C !! i = Some x → b_dev x = d → b_refcnt x = 0 → b_data x = block_of dk (b_blockno x);
  ca_view : ∀ i x, C !! i = Some x → b_dev x = d → V (b_blockno x) = b_data x;
  ca_pins : ∀ i x, C !! i = Some x → b_dev x = d → P (b_blockno x) = b_refcnt x;
  ca_absent : ∀ b, (∀ i x, C !! i = Some x → b_dev x = d → b_blockno x ≠ b) → V b = block_of dk b ∧ P b = 0;
  ca_held : ∀ b i, H !! b = Some i → ∃ x, C !! i = Some x ∧ b_dev x = d ∧ b_blockno x = b ∧
    b_lock x = mkSleeplock true pid ∧ 0 < b_refcnt x;
  ca_free : ∀ i x, C !! i = Some x → sl_locked (b_lock x) = true → H !! b_blockno x = Some i;
  ca_ref : ∀ i x, C !! i = Some x → 0 ≤ b_refcnt x < 2 ^ 32;
}.

Lemma core_ext C dk V V' P P' H :
  (∀ b, V' b = V b) → (∀ b, P' b = P b) → core C dk V P H → core C dk V' P' H.
Proof.
  intros HV HP [U Va O Cl Vi Pi A He F R]. split; try done.
  - intros i x ??. rewrite HV. by apply Vi with i.
  - intros i x ??. rewrite HP. by apply Pi with i.
  - intros b Hb. rewrite HV, HP. auto.
Qed.

(** The buffer of a block, if it has one. *)
Lemma core_lookup C b :
  (∃ i x, C !! i = Some x ∧ b_dev x = d ∧ b_blockno x = b) ∨
  (∀ i x, C !! i = Some x → b_dev x = d → b_blockno x ≠ b).
Proof.
  destruct (list_find (λ x, b_dev x = d ∧ b_blockno x = b) C) as [[i x]|] eqn:Hf.
  - apply list_find_Some in Hf as (Hx & [] & _). left. by exists i, x.
  - apply list_find_None in Hf. right. intros i x Hx Hd Hb.
    rewrite Forall_lookup in Hf. by apply (Hf i x Hx).
Qed.

(** A change to a buffer that keeps its block, and to that block on the disk. *)
Lemma core_update C dk V P H i x x' dk' H' :
  core C dk V P H → C !! i = Some x → b_dev x = d →
  b_dev x' = d → b_blockno x' = b_blockno x → b_valid x' = true →
  0 ≤ b_refcnt x' < 2 ^ 32 → (b_refcnt x' = 0 → b_data x' = block_of dk' (b_blockno x)) →
  (∀ b, b ≠ b_blockno x → block_of dk' b = block_of dk b) →
  (b_lock x' = mkSleeplock true pid ∧ 0 < b_refcnt x' ∧ H' = <[b_blockno x := i]> H ∨
   sl_locked (b_lock x') = false ∧ H' = delete (b_blockno x) H) →
  core (<[i := x']> C) dk' (<[b_blockno x := b_data x']> V) (<[b_blockno x := b_refcnt x']> P) H'.
Proof.
  intros [U Va O Cl Vi Pi A He F R] Hi Hd Hd' Hb' Hv' Hr' Hc' Hdk HH.
  assert (Hlt : (i < length C)%nat) by (by eapply lookup_lt_Some).
  pose proof (λ j y, list_insert_inv C i j x' y) as Hj.
  assert (Hne : ∀ j y, j ≠ i → C !! j = Some y → b_dev y = d → b_blockno x ≠ b_blockno y).
  { intros j y Hne Hy Hdy He'. apply Hne. by apply (U j i y x). }
  set (b := b_blockno x) in *. split.
  - intros j k y z [[-> ->]|[Hnj Hy]]%Hj [[-> ->]|[Hnk Hz]]%Hj Hdy Hdz Hbb; [done|exfalso..|by eapply U].
    + apply (Hne k z Hnk Hz Hdz). congruence.
    + apply (Hne j y Hnj Hy Hdy). congruence.
  - intros j y [[-> ->]|[Hnj Hy]]%Hj Hdy; [done|by eapply Va].
  - intros j y [[-> ->]|[Hnj Hy]]%Hj Hdy; [done|by eapply O].
  - intros j y [[-> ->]|[Hnj Hy]]%Hj Hdy Hr; [rewrite Hb'; auto|].
    rewrite Hdk by (intros He'; by apply (Hne j y Hnj Hy Hdy)). by eapply Cl.
  - intros j y [[-> ->]|[Hnj Hy]]%Hj Hdy; [by rewrite Hb', fn_lookup_insert|].
    rewrite fn_lookup_insert_ne by (by eapply Hne). by eapply Vi.
  - intros j y [[-> ->]|[Hnj Hy]]%Hj Hdy; [by rewrite Hb', fn_lookup_insert|].
    rewrite fn_lookup_insert_ne by (by eapply Hne). by eapply Pi.
  - intros b0 Hb0. assert (Hbb : b ≠ b0).
    { intros <-. apply (Hb0 i x'); [by rewrite list_lookup_insert_eq|done|done]. }
    rewrite !fn_lookup_insert_ne, Hdk by done. apply A. intros j y Hy Hdy.
    destruct (decide (j = i)) as [->|]; [by simplify_eq|].
    apply (Hb0 j y); [by rewrite list_lookup_insert_ne|done].
  - intros b0 j Hb0.
    assert (b0 = b ∧ j = i ∧ b_lock x' = mkSleeplock true pid ∧ 0 < b_refcnt x' ∨ b0 ≠ b ∧ H !! b0 = Some j)
      as [(-> & -> & ? & ?)|[Hbb HHj]].
    { destruct (decide (b0 = b)) as [->|]; destruct HH as [(Hl & Hp & ->)|[Hl ->]].
      - rewrite lookup_insert_eq in Hb0. left. by simplify_eq.
      - by rewrite lookup_delete_eq in Hb0.
      - rewrite lookup_insert_ne in Hb0 by done. by right.
      - rewrite lookup_delete_ne in Hb0 by done. by right. }
    + exists x'. by rewrite list_lookup_insert_eq.
    + destruct (He b0 j HHj) as (y & Hy & Hdy & Hby & ?). exists y. split; [|done].
      rewrite list_lookup_insert_ne; [done|]. intros <-. by simplify_eq.
  - intros j y [[-> ->]|[Hnj Hy]]%Hj Hl.
    + destruct HH as [(_ & _ & ->)|[Hl' _]]; [|congruence]. by rewrite Hb', lookup_insert_eq.
    + pose proof (F j y Hy Hl) as HHj. destruct (He _ _ HHj) as (y' & Hy' & Hdy & _). simplify_eq.
      specialize (Hne j y Hnj Hy Hdy).
      destruct HH as [(_ & _ & ->)|[_ ->]]; [by rewrite lookup_insert_ne|by rewrite lookup_delete_ne].
  - intros j y [[-> ->]|[Hnj Hy]]%Hj; [done|by eapply R].
Qed.

(** Recycling a buffer nobody uses for block [b], which is not cached. *)
Lemma core_recycle C dk V P H i x x' b :
  core C dk V P H → C !! i = Some x → b_refcnt x = 0 →
  (∀ j y, C !! j = Some y → b_dev y = d → b_blockno y ≠ b) →
  b_dev x' = d → b_blockno x' = b → b_valid x' = true → b_refcnt x' = 1 →
  b_data x' = block_of dk b → b_lock x' = mkSleeplock true pid →
  core (<[i := x']> C) dk V (<[b := 1]> P) (<[b := i]> H).
Proof.
  intros [U Va O Cl Vi Pi A He F R] Hi Hx0 Hno Hd' Hb' Hv' Hr' Hdat Hlk.
  assert (Hlt : (i < length C)%nat) by (by eapply lookup_lt_Some).
  pose proof (λ j y, list_insert_inv C i j x' y) as Hj.
  assert (HnoH : ∀ b0, H !! b0 ≠ Some i).
  { intros b0 Hb0. destruct (He b0 i Hb0) as (y & Hy & _ & _ & _ & Hpos). simplify_eq. lia. }
  destruct (A b Hno) as [HVb HPb]. split.
  - intros j k y z [[-> ->]|[Hnj Hy]]%Hj [[-> ->]|[Hnk Hz]]%Hj Hdy Hdz Hbb; [done|exfalso..|by eapply U].
    + apply (Hno k z Hz Hdz). congruence.
    + apply (Hno j y Hy Hdy). congruence.
  - intros j y [[-> ->]|[Hnj Hy]]%Hj Hdy; [done|by eapply Va].
  - intros j y [[-> ->]|[Hnj Hy]]%Hj Hdy; [done|by eapply O].
  - intros j y [[-> ->]|[Hnj Hy]]%Hj Hdy Hr; [lia|by eapply Cl].
  - intros j y [[-> ->]|[Hnj Hy]]%Hj Hdy; [congruence|by eapply Vi].
  - intros j y [[-> ->]|[Hnj Hy]]%Hj Hdy; [by rewrite Hb', fn_lookup_insert|].
    rewrite fn_lookup_insert_ne by (intros He'; by apply (Hno j y Hy Hdy)). by eapply Pi.
  - intros b0 Hb0. assert (Hbb : b ≠ b0).
    { intros <-. apply (Hb0 i x'); [by rewrite list_lookup_insert_eq|done|done]. }
    rewrite fn_lookup_insert_ne by done. destruct (decide (b_dev x = d ∧ b_blockno x = b0)) as [[Hdx <-]|Hnx].
    + rewrite (Vi i x Hi Hdx), (Pi i x Hi Hdx). split; [by apply (Cl i x)|done].
    + apply A. intros j y Hy Hdy He'. destruct (decide (j = i)) as [->|]; [by simplify_eq; tauto|].
      apply (Hb0 j y); [by rewrite list_lookup_insert_ne|done|done].
  - intros b0 j Hb0. destruct (decide (b0 = b)) as [->|].
    + rewrite lookup_insert_eq in Hb0. simplify_eq. exists x'. rewrite list_lookup_insert_eq by done.
      repeat split; try done. lia.
    + rewrite lookup_insert_ne in Hb0 by done. destruct (He b0 j Hb0) as (y & Hy & ?). exists y. split; [|done].
      rewrite list_lookup_insert_ne; [done|]. intros ->. by apply (HnoH b0).
  - intros j y [[-> ->]|[Hnj Hy]]%Hj Hl; [by rewrite Hb', lookup_insert_eq|].
    pose proof (F j y Hy Hl) as HHj. destruct (He _ _ HHj) as (y' & Hy' & Hdy & _). simplify_eq.
    rewrite lookup_insert_ne; [done|]. intros He'. by apply (Hno j y Hy Hdy).
  - intros j y [[-> ->]|[Hnj Hy]]%Hj; [lia|by eapply R].
Qed.
End core.

(** ** A process alone with the cache *)

(** Process [me], with process id [pid], runs and nobody holds a lock or waits
    for a buffer. *)
Record solo (me : nat) (pid : Z) (s : kstate) : Prop := {
  so_proc : c_proc (cpu s) = Some me;
  so_cpu : cpu_ok (cpu s);
  so_locks : locks s = ∅;
  so_len : length (procs s) = NPROC;
  so_pid : p_pid (procs s !!! me) = pid;
  so_wait : ∀ p i, p ∈ procs s → p_state p = SLEEPING → p_chan p ≠ Some (ChBufSleep i);
}.

Lemma solo_same me pid s s' :
  cpu s' = cpu s → locks s' = locks s → procs s' = procs s → solo me pid s → solo me pid s'.
Proof. intros Hc Hl Hp [? ? ? ? ? ?]. split; rewrite ?Hc, ?Hl, ?Hp; done. Qed.

(** Nobody waits on the channel: wakeup() changes nothing. *)
Lemma wakeup_none ch s :
  proc_locks_free s → length (procs s) = NPROC →
  (∀ p, p ∈ procs s → p_state p = SLEEPING → p_chan p ≠ ch) → wakeup ch s = Ok tt s.
Proof.
  intros Hf Hlen Hno. destruct (wakeup_eq ch s Hf Hlen) as (ps & Hrun & Hl & Hps).
  assert (ps = procs s) as ->; [|by rewrite set_procs_id in Hrun].
  apply list_eq. intros j. rewrite Hps. destruct (procs s !! j) as [p|] eqn:Hp; [|done]. simpl. f_equal.
  case_decide; [done|]. unfold wake. rewrite bool_decide_false; [done|].
  intros [? ?]. by apply (Hno p); [eapply list_elem_of_lookup_2|..].
Qed.

Section alone.
Context `{Env} (me : nat) (pid : Z).

Lemma upd_buf_eq i f s x : bcache s !! i = Some x →
  upd_buf i f s = Ok tt (set_bcache (<[i := f x]> (bcache s)) s).
Proof. intros Hx. unfold upd_buf, modify. by rewrite (list_alter_insert _ _ _ _ Hx). Qed.

(** A critical section that changes one buffer. *)
Lemma locked_upd lk i f s x :
  solo me pid s → bcache s !! i = Some x →
  (acquire lk;; upd_buf i f;; release lk) s = Ok tt (set_bcache (<[i := f x]> (bcache s)) s).
Proof.
  intros [Hp Hc Hl _ _ _] Hx. assert (Hlk : locks s !! lk = None) by (rewrite Hl; apply lookup_empty).
  rewrite (bind_ok _ _ _ _ _ (acquire_eq lk s Hlk)), (bind_ok _ _ _ _ _ (upd_buf_eq i f (hold lk s) x Hx)).
  rewrite (release_eq lk s) by done. by destruct s.
Qed.

Lemma acquiresleep_free i s x :
  solo me pid s → (0 < fuel)%nat → bcache s !! i = Some x → sl_locked (b_lock x) = false →
  acquiresleep (SlBuf i) s = Ok tt (set_bcache (<[i := set_b_lock (mkSleeplock true pid) x]> (bcache s)) s).
Proof.
  intros [Hp Hc Hl Hlen Hpid _] Hfuel Hx Hfree. set (lk := sl_lk (SlBuf i)).
  assert (Hlk : locks s !! lk = None) by (rewrite Hl; apply lookup_empty).
  unfold acquiresleep. fold lk. rewrite (bind_ok _ _ _ _ _ (acquire_eq lk s Hlk)).
  rewrite (bind_ok _ _ _ tt (hold lk s)).
  2:{ destruct fuel as [|f]; [lia|]. rewrite loop_S. rewrite (bind_ok _ _ _ (inr tt) (hold lk s)); [done|].
      mrun. simpl. rewrite (list_lookup_total_correct _ _ _ Hx), Hfree. done. }
  rewrite (bind_ok _ _ _ me (hold lk s)) by (apply cur_eq; [by apply cpu_ok_pushed|done]).
  mrun. change (p_pid (procs (hold lk s) !!! me)) with (p_pid (procs s !!! me)). rewrite Hpid. simpl set_sl.
  rewrite (bind_ok _ _ _ _ _ (upd_buf_eq i _ (hold lk s) x Hx)), (release_eq lk s) by done. by destruct s.
Qed.

Lemma holdingsleep_eq i s x :
  solo me pid s → bcache s !! i = Some x →
  holdingsleep (SlBuf i) s = Ok (sl_locked (b_lock x) && (sl_pid (b_lock x) =? pid)) s.
Proof.
  intros [Hp Hc Hl Hlen Hpid _] Hx. set (lk := sl_lk (SlBuf i)).
  assert (Hlk : locks s !! lk = None) by (rewrite Hl; apply lookup_empty).
  unfold holdingsleep. fold lk. rewrite (bind_ok _ _ _ _ _ (acquire_eq lk s Hlk)). mrun.
  rewrite (bind_ok _ _ _ me (hold lk s)) by (apply cur_eq; [by apply cpu_ok_pushed|done]).
  mrun. rewrite (bind_ok _ _ _ _ _ (release_eq lk s _ Hc Hlk eq_refl eq_refl)), unhold_hold. simpl.
  by rewrite Hpid, (list_lookup_total_correct _ _ _ Hx).
Qed.

Lemma releasesleep_eq i s x :
  solo me pid s → bcache s !! i = Some x →
  releasesleep (SlBuf i) s = Ok tt (set_bcache (<[i := set_b_lock (mkSleeplock false 0) x]> (bcache s)) s).
Proof.
  intros Hso Hx. pose proof Hso as [Hp Hc Hl Hlen Hpid Hw]. set (lk := sl_lk (SlBuf i)).
  assert (Hlk : locks s !! lk = None) by (rewrite Hl; apply lookup_empty).
  unfold releasesleep. fold lk. rewrite (bind_ok _ _ _ _ _ (acquire_eq lk s Hlk)). simpl set_sl.
  rewrite (bind_ok _ _ _ _ _ (upd_buf_eq i _ (hold lk s) x Hx)).
  set (s1 := set_bcache _ (hold lk s)). rewrite (bind_ok _ _ s1 tt s1).
  - rewrite (release_eq lk s) by done. by destruct s.
  - apply wakeup_none; [|done|]; unfold s1, hold; simpl.
    + split; [by apply cpu_ok_pushed|]. intros j Hj _. simpl. rewrite Hl, lookup_insert_ne by done. apply lookup_empty.
    + intros p. apply Hw.
Qed.
End alone.

(** ** Finding a buffer *)
Lemma lru_lookup s L j : lru s L → j ∈ L ↔ is_Some (bcache s !! j).
Proof. intros Hl. rewrite (lr_all _ _ Hl), lookup_lt_is_Some, (lr_len _ _ Hl). done. Qed.

Lemma list_find_found {A} (P : A → Prop) `{∀ x, Decision (P x)} l x :
  x ∈ l → P x → (∀ y, y ∈ l → P y → y = x) → found (list_find P l) = Some x.
Proof.
  intros Hx HP Hu. destruct (list_find P l) as [[k y]|] eqn:Hf; simpl.
  - apply list_find_Some in Hf as (Hy & HPy & _). f_equal. apply Hu; [by eapply list_elem_of_lookup_2|done].
  - apply list_find_None in Hf. rewrite Forall_forall in Hf. by destruct (Hf x Hx).
Qed.

Section find.
Context `{Env} (dev b : Z).

Lemma match_iff x : ((b_dev x =? dev) && (b_blockno x =? b) : Prop) ↔ b_dev x = dev ∧ b_blockno x = b.
Proof. rewrite andb_True, !Is_true_true, !Z.eqb_eq. done. Qed.

Lemma find_cached_hit s L i x :
  lru s L → bcache s !! i = Some x → b_dev x = dev → b_blockno x = b →
  (∀ j y, bcache s !! j = Some y → b_dev y = dev → b_blockno y = b → j = i) →
  find_cached dev b s = Ok (Some i) s.
Proof.
  intros Hl Hx Hd Hb Hu. rewrite (find_cached_eq _ _ _ _ Hl). f_equal. apply list_find_found.
  - apply (lru_lookup _ _ _ Hl). by eexists.
  - rewrite (list_lookup_total_correct _ _ _ Hx). by apply match_iff.
  - intros j Hj. apply (lru_lookup _ _ _ Hl) in Hj as [y Hy]. rewrite (list_lookup_total_correct _ _ _ Hy).
    intros [? ?]%match_iff. by eapply Hu.
Qed.

Lemma find_cached_miss s L :
  lru s L → (∀ j y, bcache s !! j = Some y → b_dev y = dev → b_blockno y ≠ b) →
  find_cached dev b s = Ok None s.
Proof.
  intros Hl Hno. rewrite (find_cached_eq _ _ _ _ Hl). f_equal.
  rewrite (proj2 (list_find_None _ _)); [done|]. apply Forall_forall. intros j Hj.
  apply (lru_lookup _ _ _ Hl) in Hj as [y Hy]. rewrite (list_lookup_total_correct _ _ _ Hy).
  intros [? ?]%match_iff. by apply (Hno j y).
Qed.

(** The free buffer bget() takes is the least recently used one. *)
Lemma find_free_last s L :
  lru s L → uses (bcore s) < Z.of_nat NBUF →
  ∃ i x A B, bcache s !! i = Some x ∧ b_refcnt x = 0 ∧ find_free s = Ok (Some i) s ∧
    L = A ++ i :: B ∧ ∀ j, j ∈ B → b_refcnt (bcache s !!! j) ≠ 0.
Proof.
  intros Hl Hu. pose proof (lr_len _ _ Hl) as Hlen.
  destruct (count_lt in_use (bcore s)) as (k & y & Hk & Hf); [unfold bcore; by rewrite length_fmap, Hlen|].
  unfold bcore in Hk. rewrite list_lookup_fmap in Hk. destruct (bcache s !! k) as [z|] eqn:Hz; [|done].
  injection Hk as <-. apply negb_false_iff, Z.eqb_eq in Hf.
  rewrite (find_free_eq s L Hl). destruct (list_find _ (rev L)) as [[n i]|] eqn:Hr.
  - apply list_find_Some in Hr as (Hn & Hi%Is_true_true%Z.eqb_eq & Hbefore).
    assert (Hin : i ∈ L) by (apply list_elem_of_In, in_rev, list_elem_of_In; by eapply list_elem_of_lookup_2).
    destruct (proj1 (lru_lookup _ _ _ Hl) Hin) as [x Hx].
    rewrite (list_lookup_total_correct _ _ _ Hx) in Hi.
    exists i, x, (rev (drop (S n) (rev L))), (rev (take n (rev L))). do 3 (split; [done|]). split.
    + rewrite <- (rev_involutive L) at 1. rewrite <- (take_drop_middle _ _ _ Hn) at 1.
      rewrite rev_app_distr. simpl. by rewrite <- app_assoc.
    + intros j Hj%list_elem_of_In%in_rev%list_elem_of_In Hj0. apply list_elem_of_lookup in Hj as [m Hm].
      apply lookup_take_Some in Hm as [Hm Hlt]. apply (Hbefore m j Hm Hlt). by rewrite Hj0.
  - exfalso. apply list_find_None in Hr. rewrite Forall_forall in Hr. apply (Hr k).
    + apply list_elem_of_In. rewrite <- in_rev. apply list_elem_of_In, (lru_lookup _ _ _ Hl). by eexists.
    + rewrite (list_lookup_total_correct _ _ _ Hz). apply Is_true_true, Z.eqb_eq. done.
Qed.
End find.

Lemma lru_same s s' L : bcache s' = bcache s → bhead s' = bhead s → lru s L → lru s' L.
Proof.
  intros Hc Hh [Hs Hnd Hall Hlen]. split; [|done|done|by rewrite Hc].
  unfold bnext, bprev in *. by rewrite Hc, Hh.
Qed.

(** Changing a buffer, but not its links, keeps the list. *)
Lemma lru_insert s L i x x' :
  lru s L → bcache s !! i = Some x → b_next x' = b_next x → b_prev x' = b_prev x →
  lru (set_bcache (<[i := x']> (bcache s)) s) L.
Proof.
  intros [Hs Hnd Hall Hlen] Hx Hn Hp. split; [|done|done|simpl; by rewrite length_insert].
  assert (Hl : ∀ j, (b_next (<[i := x']> (bcache s) !!! j), b_prev (<[i := x']> (bcache s) !!! j)) =
    (b_next (bcache s !!! j), b_prev (bcache s !!! j))).
  { intros j. destruct (decide (j = i)) as [->|].
    - rewrite list_lookup_total_insert_eq by (by eapply lookup_lt_Some).
      rewrite (list_lookup_total_correct _ _ _ Hx). congruence.
    - by rewrite list_lookup_total_insert_ne. }
  eapply seg_frame; [| |exact Hs]; intros j _; unfold bnext, bprev; simpl; case_decide; try done;
    specialize (Hl j); congruence.
Qed.

Lemma bcore_insert s i x :
  bcore (set_bcache (<[i := x]> (bcache s)) s) = <[i := unlinked x]> (bcore s).
Proof. unfold bcore. simpl. by rewrite list_fmap_insert. Qed.

Lemma bcore_lookup s i y : bcore s !! i = Some y ↔ ∃ x, bcache s !! i = Some x ∧ y = unlinked x.
Proof. unfold bcore. rewrite list_lookup_fmap, fmap_Some. done. Qed.

Section bget.
Context `{Env} (d : Z) (me : nat) (pid : Z) (Hfuel : (0 < fuel)%nat).

(** The end of bget(): buffer [i], now [x'], leaves bcache.lock and is locked. *)
Lemma bget_end i s x x' :
  solo me pid s → bcache s !! i = Some x → sl_locked (b_lock x') = false →
  (release LkBcache;; acquiresleep (SlBuf i);; mret i)
    (set_bcache (<[i := x']> (bcache s)) (hold LkBcache s)) =
  Ok i (set_bcache (<[i := set_b_lock (mkSleeplock true pid) x']> (bcache s)) s).
Proof.
  intros Hso Hx Hfree. pose proof Hso as [_ Hc Hl _ _ _].
  rewrite (bind_ok _ _ _ tt (set_bcache (<[i := x']> (bcache s)) s)).
  - erewrite bind_ok.
    2:{ apply (acquiresleep_free me pid i _ x'); [by eapply solo_same, Hso|done| |done].
        simpl. rewrite list_lookup_insert_eq by (by eapply lookup_lt_Some). done. }
    simpl. rewrite list_insert_insert_eq. by destruct s.
  - rewrite (release_eq LkBcache s) by (done || (rewrite Hl; apply lookup_empty)). by destruct s.
Qed.

Lemma bget_hit b i s L x :
  solo me pid s → lru s L → bcache s !! i = Some x → b_dev x = d → b_blockno x = b →
  (∀ j y, bcache s !! j = Some y → b_dev y = d → b_blockno y = b → j = i) →
  sl_locked (b_lock x) = false →
  bget d b s = Ok i (set_bcache (<[i := set_b_lock (mkSleeplock true pid)
    (set_b_refcnt (u32 (b_refcnt x + 1)) x)]> (bcache s)) s).
Proof.
  intros Hso Hlru Hx Hd Hb Hu Hfree. pose proof Hso as [_ Hc Hl _ _ _]. unfold bget.
  rewrite (bind_ok _ _ _ _ _ (acquire_eq LkBcache s ltac:(rewrite Hl; apply lookup_empty))).
  rewrite (bind_ok _ _ _ _ _ (find_cached_hit d b (hold LkBcache s) L i x ltac:(by apply (lru_same s)) Hx Hd Hb Hu)).
  rewrite (bind_ok _ _ _ _ _ (upd_buf_eq i _ (hold LkBcache s) x Hx)). by apply (bget_end i s x).
Qed.

Lemma bget_miss b i s L x :
  solo me pid s → lru s L → (∀ j y, bcache s !! j = Some y → b_dev y = d → b_blockno y ≠ b) →
  find_free s = Ok (Some i) s → bcache s !! i = Some x → sl_locked (b_lock x) = false →
  bget d b s = Ok i (set_bcache (<[i := set_b_lock (mkSleeplock true pid)
    (set_b_refcnt 1 (set_b_valid false (set_b_blockno b (set_b_dev d x))))]> (bcache s)) s).
Proof.
  intros Hso Hlru Hno Hff Hx Hfree. pose proof Hso as [_ Hc Hl _ _ _]. unfold bget.
  rewrite (bind_ok _ _ _ _ _ (acquire_eq LkBcache s ltac:(rewrite Hl; apply lookup_empty))).
  assert (Hlru' : lru (hold LkBcache s) L) by (by apply (lru_same s)).
  rewrite (bind_ok _ _ _ _ _ (find_cached_miss d b (hold LkBcache s) L Hlru' Hno)).
  rewrite (bind_ok _ _ _ (Some i) (hold LkBcache s)).
  - rewrite (bind_ok _ _ _ _ _ (upd_buf_eq i _ (hold LkBcache s) x Hx)). by apply (bget_end i s x).
  - rewrite (find_free_eq _ L Hlru'). rewrite (find_free_eq _ L Hlru) in Hff.
    injection Hff as Hff. f_equal. exact Hff.
Qed.
End bget.

(** ** The operations of the cache *)

(** Everything but the cache and the disk. *)
Definition outer (s : kstate) : kstate := set_bcache [] (set_bhead (0, 0)%nat (set_disk ∅ (set_dlog [] s))).

Lemma outer_nonlinks s s' : nonlinks s' = nonlinks s →
  outer s' = outer s ∧ disk s' = disk s ∧ dlog s' = dlog s ∧ bcore s' = bcore s.
Proof.
  intros Hn. pose proof (f_equal fst Hn) as Hs. pose proof (f_equal snd Hn) as Hc. simpl in Hs, Hc.
  split; [|split; [|split; [|done]]].
  - by apply (f_equal (λ s, set_disk ∅ (set_dlog [] s))) in Hs.
  - by apply (f_equal disk) in Hs.
  - by apply (f_equal dlog) in Hs.
Qed.

Lemma outer_same s s' : outer s' = outer s →
  cpu s' = cpu s ∧ locks s' = locks s ∧ procs s' = procs s ∧ log s' = log s.
Proof.
  intros Ho. split; [|split; [|split]]; [by apply (f_equal cpu) in Ho|by apply (f_equal locks) in Ho|
    by apply (f_equal procs) in Ho|by apply (f_equal log) in Ho].
Qed.

Lemma solo_outer me pid s s' : outer s' = outer s → solo me pid s → solo me pid s'.
Proof. intros (Hc & Hl & Hp & _)%outer_same. by apply solo_same. Qed.

Definition cache (d pid : Z) (s : kstate) (V : Z → list Z) (P : Z → Z) (H : gmap Z nat) : Prop :=
  (∃ L, lru s L) ∧ core d pid (bcore s) (disk s) V P H.

Lemma cache_ext d pid s V V' P P' H :
  (∀ b, V' b = V b) → (∀ b, P' b = P b) → cache d pid s V P H → cache d pid s V' P' H.
Proof. intros HV HP [Hl Hc]. split; [done|]. by eapply core_ext. Qed.

Lemma cache_nonlinks d pid s s' L V P H :
  nonlinks s' = nonlinks s → lru s' L → cache d pid s V P H → cache d pid s' V P H.
Proof.
  intros (_ & Hd & _ & Hc)%outer_nonlinks Hl [_ Hco]. split; [by exists L|]. by rewrite Hc, Hd.
Qed.

Lemma uses_insert C i x y : C !! i = Some x →
  uses (<[i := y]> C) = uses C - (if b_refcnt x =? 0 then 0 else 1) + (if b_refcnt y =? 0 then 0 else 1).
Proof.
  intros Hx. unfold uses. rewrite (count_insert _ _ _ x) by done. unfold in_use.
  destruct (b_refcnt x =? 0), (b_refcnt y =? 0); simpl; lia.
Qed.

Lemma disk_read_eq i s x : bcache s !! i = Some x →
  disk_rw i false s = Ok tt (set_bcache (<[i := set_b_data (dblock s (b_blockno x)) x]> (bcache s)) s).
Proof.
  intros Hx. unfold disk_rw. mrun. rewrite (list_lookup_total_correct _ _ _ Hx). unfold modify.
  by rewrite (list_alter_insert _ _ _ _ Hx).
Qed.

Lemma disk_write_eq i s x : bcache s !! i = Some x →
  disk_rw i true s = Ok tt (set_dlog (dlog s ++ [(b_blockno x, b_data x)])
    (set_disk (<[b_blockno x := b_data x]> (disk s)) s)).
Proof. intros Hx. unfold disk_rw. mrun. by rewrite (list_lookup_total_correct _ _ _ Hx). Qed.

(** The end of bread(), for a buffer that is not valid. *)
Lemma fill_buffer i s x : bcache s !! i = Some x →
  (disk_rw i false;; upd_buf i (set_b_valid true)) s =
    Ok tt (set_bcache (<[i := set_b_valid true (set_b_data (dblock s (b_blockno x)) x)]> (bcache s)) s).
Proof.
  intros Hx. assert (Hlt : (i < length (bcache s))%nat) by (by eapply lookup_lt_Some).
  rewrite (bind_ok _ _ _ _ _ (disk_read_eq i s x Hx)). erewrite upd_buf_eq; [|simpl; by apply list_lookup_insert_eq].
  simpl. rewrite list_insert_insert_eq. by destruct s.
Qed.

Section ops.
Context `{Env} (d : Z) (me : nat) (pid : Z) (Hfuel : (0 < fuel)%nat).
Implicit Types (V : Z → list Z) (P : Z → Z) (HH : gmap Z nat).

(** A held buffer, with its links. *)
Lemma cache_held s V P HH b i :
  cache d pid s V P HH → HH !! b = Some i →
  ∃ x, bcache s !! i = Some x ∧ b_dev x = d ∧ b_blockno x = b ∧ b_lock x = mkSleeplock true pid ∧
    b_valid x = true ∧ b_data x = V b ∧ b_refcnt x = P b ∧ 0 < P b < 2 ^ 32.
Proof.
  intros [_ Hc] Hb. destruct (ca_held _ _ _ _ _ _ _ Hc b i Hb) as (y & Hy & Hd & Hbn & Hl & Hr).
  pose proof (ca_valid _ _ _ _ _ _ _ Hc i y Hy Hd) as Hv. pose proof (ca_view _ _ _ _ _ _ _ Hc i y Hy Hd) as HV.
  pose proof (ca_pins _ _ _ _ _ _ _ Hc i y Hy Hd) as HP. pose proof (ca_ref _ _ _ _ _ _ _ Hc i y Hy) as HR.
  apply bcore_lookup in Hy as (x & Hx & ->). rewrite Hbn in *. simpl in *. exists x. split; [done|].
  repeat split; try done; lia.
Qed.

(** A change to the buffer of a block the process holds. *)
Lemma cache_update s V P HH b i x x' dk' dl' HH' :
  cache d pid s V P HH → bcache s !! i = Some x → b_dev x = d → b_blockno x = b →
  b_dev x' = d → b_blockno x' = b → b_valid x' = true → b_next x' = b_next x → b_prev x' = b_prev x →
  0 ≤ b_refcnt x' < 2 ^ 32 → (b_refcnt x' = 0 → b_data x' = block_of dk' b) →
  (∀ b', b' ≠ b → block_of dk' b' = block_of (disk s) b') →
  (b_lock x' = mkSleeplock true pid ∧ 0 < b_refcnt x' ∧ HH' = <[b := i]> HH ∨
   sl_locked (b_lock x') = false ∧ HH' = delete b HH) →
  let s' := set_dlog dl' (set_disk dk' (set_bcache (<[i := x']> (bcache s)) s)) in
  cache d pid s' (<[b := b_data x']> V) (<[b := b_refcnt x']> P) HH' ∧
  uses (bcore s') = uses (bcore s) - (if P b =? 0 then 0 else 1) + (if b_refcnt x' =? 0 then 0 else 1).
Proof.
  intros [[L Hl] Hc] Hx Hd Hb Hd' Hb' Hv' Hn Hp Hr Hcl Hdk Hlk s'.
  assert (Hcore : bcore s' = <[i := unlinked x']> (bcore s)) by apply bcore_insert.
  assert (Hy : bcore s !! i = Some (unlinked x)) by (apply bcore_lookup; by exists x).
  split; [split|].
  - exists L. apply (lru_same (set_bcache (<[i := x']> (bcache s)) s)); [done|done|]. by apply (lru_insert s L i x x').
  - rewrite Hcore. simpl disk. subst b.
    apply (core_update d pid _ (disk s) V P HH i (unlinked x) (unlinked x')); simpl; done.
  - rewrite Hcore, (uses_insert _ _ _ _ Hy). pose proof (ca_pins _ _ _ _ _ _ _ Hc i _ Hy Hd) as HP.
    simpl in HP. rewrite <- Hb, HP. simpl. done.
Qed.

Lemma set_same s C : set_dlog (dlog s) (set_disk (disk s) (set_bcache C s)) = set_bcache C s.
Proof. by destruct s. Qed.

(** What bread() promises: the block's buffer, held, with the block's content
    (see [cache_held]). *)
Definition bread_gives s V P HH b i s' : Prop :=
  bread d b s = Ok i s' ∧ outer s' = outer s ∧ disk s' = disk s ∧ dlog s' = dlog s ∧
  cache d pid s' V (<[b := P b + 1]> P) (<[b := i]> HH) ∧
  uses (bcore s') = uses (bcore s) + (if P b =? 0 then 1 else 0).

Lemma bread_hit s V P HH b i y :
  solo me pid s → cache d pid s V P HH → HH !! b = None → P b + 1 < 2 ^ 32 →
  bcore s !! i = Some y → b_dev y = d → b_blockno y = b → ∃ s', bread_gives s V P HH b i s'.
Proof.
  intros Hso Hca Hno Hb Hy Hd Hbn. pose proof Hca as [[L Hl] Hc].
  pose proof (ca_valid _ _ _ _ _ _ _ Hc i y Hy Hd) as Hv. pose proof (ca_view _ _ _ _ _ _ _ Hc i y Hy Hd) as HV.
  pose proof (ca_pins _ _ _ _ _ _ _ Hc i y Hy Hd) as HP. pose proof (ca_ref _ _ _ _ _ _ _ Hc i y Hy) as HR.
  pose proof (ca_free _ _ _ _ _ _ _ Hc i y Hy) as HF. pose proof Hy as (x & Hx & ->)%bcore_lookup.
  simpl in *. subst b.
  assert (Hfree : sl_locked (b_lock x) = false) by (destruct (sl_locked (b_lock x)); [by rewrite HF in Hno|done]).
  set (x' := set_b_lock (mkSleeplock true pid) (set_b_refcnt (b_refcnt x + 1) x)).
  assert (Hrun : bread d (b_blockno x) s = Ok i (set_bcache (<[i := x']> (bcache s)) s)).
  { unfold bread. erewrite bind_ok.
    2:{ apply (bget_hit d me pid Hfuel (b_blockno x) i s L x); try done.
        intros j z Hz Hdz Hbz. apply (ca_uniq _ _ _ _ _ _ _ Hc j i (unlinked z) (unlinked x)); try done.
        apply bcore_lookup. by exists z. }
    rewrite u32_small by lia. fold x'. mrun. simpl.
    rewrite list_lookup_total_insert_eq by (by eapply lookup_lt_Some). simpl. by rewrite Hv. }
  destruct (cache_update s V P HH (b_blockno x) i x x' (disk s) (dlog s) (<[b_blockno x := i]> HH))
    as [Hca' Hu']; simpl; try done; try lia.
  { left. split; [done|]. split; [lia|done]. }
  eexists _. split; [exact Hrun|]. do 3 (split; [done|]).
  rewrite set_same in Hca', Hu'. split.
  - eapply cache_ext; [| |exact Hca']; intros b'; unfold insert, fn_insert; simpl; case_decide; subst; try done; lia.
  - rewrite Hu'. simpl. rewrite (proj2 (Z.eqb_neq (b_refcnt x + 1) 0)) by lia. destruct (_ =? 0); lia.
Qed.

Lemma bread_miss s V P HH b :
  solo me pid s → cache d pid s V P HH → uses (bcore s) < Z.of_nat NBUF →
  (∀ i y, bcore s !! i = Some y → b_dev y = d → b_blockno y ≠ b) → ∃ i s', bread_gives s V P HH b i s'.
Proof.
  intros Hso Hca Hu Hmiss. pose proof Hca as [[L Hl] Hc].
  destruct (ca_absent _ _ _ _ _ _ _ Hc b Hmiss) as [HVb HPb].
  destruct (find_free_last s L Hl Hu) as (i & x & A & B & Hx & Hx0 & Hff & _).
  assert (Hy : bcore s !! i = Some (unlinked x)) by (apply bcore_lookup; by exists x).
  assert (Hlt : (i < length (bcache s))%nat) by (by eapply lookup_lt_Some).
  assert (Hfree : sl_locked (b_lock x) = false).
  { destruct (sl_locked (b_lock x)) eqn:Hlk; [|done]. exfalso.
    pose proof (ca_free _ _ _ _ _ _ _ Hc i _ Hy Hlk) as HF.
    destruct (ca_held _ _ _ _ _ _ _ Hc _ _ HF) as (z & Hz & _ & _ & _ & Hpos). simplify_eq. simpl in Hpos. lia. }
  set (x' := set_b_valid true (set_b_data (dblock s b) (set_b_lock (mkSleeplock true pid)
    (set_b_refcnt 1 (set_b_blockno b (set_b_dev d x)))))).
  eexists i, (set_bcache (<[i := x']> (bcache s)) s). split.
  { unfold bread. erewrite bind_ok.
    2:{ apply (bget_miss d me pid Hfuel b i s L x); try done. intros j z Hz Hdz.
        apply (Hmiss j (unlinked z)); [|done]. apply bcore_lookup. by exists z. }
    mrun. simpl. rewrite list_lookup_total_insert_eq by done. cbn [b_valid negb set_b_lock set_b_refcnt set_b_valid].
    erewrite bind_ok; [|apply fill_buffer; simpl; by apply list_lookup_insert_eq].
    simpl. rewrite list_insert_insert_eq. by destruct s. }
  do 3 (split; [done|]). split; [split|].
  - exists L. by apply (lru_insert s L i x x').
  - rewrite bcore_insert, HPb. by apply (core_recycle d pid _ (disk s) V P HH i (unlinked x)).
  - rewrite bcore_insert, (uses_insert _ _ _ _ Hy), HPb. simpl. rewrite Hx0. simpl. lia.
Qed.

Lemma bread_spec s V P HH b :
  solo me pid s → cache d pid s V P HH → HH !! b = None → P b + 1 < 2 ^ 32 → uses (bcore s) < Z.of_nat NBUF →
  ∃ i s', bread_gives s V P HH b i s'.
Proof.
  intros Hso Hca Hno Hb Hu. destruct (core_lookup d (bcore s) b) as [(i & y & Hy & Hd & Hbn)|Hmiss].
  - exists i. by apply (bread_hit s V P HH b i y).
  - by apply bread_miss.
Qed.

Lemma put_data_spec s V P HH b i (g : list Z → list Z) :
  cache d pid s V P HH → HH !! b = Some i →
  ∃ s', upd_buf i (λ x, set_b_data (g (b_data x)) x) s = Ok tt s' ∧ outer s' = outer s ∧ disk s' = disk s ∧
    dlog s' = dlog s ∧ cache d pid s' (<[b := g (V b)]> V) P HH ∧ uses (bcore s') = uses (bcore s).
Proof.
  intros Hca Hh. destruct (cache_held s V P HH b i Hca Hh) as (x & Hx & Hd & Hb & Hl & Hv & Hdat & Hr & HP).
  set (x' := set_b_data (g (b_data x)) x).
  destruct (cache_update s V P HH b i x x' (disk s) (dlog s) HH) as [Hca' Hu']; simpl; try done; try lia.
  { left. split; [done|]. split; [lia|]. by rewrite insert_id. }
  rewrite set_same in Hca', Hu'. eexists _. split; [by apply upd_buf_eq|]. do 3 (split; [done|]). split.
  - eapply cache_ext; [| |exact Hca']; intros b'; unfold insert, fn_insert, x'; simpl; case_decide; subst; congruence.
  - etransitivity; [exact Hu'|]. simpl. rewrite Hr. lia.
Qed.

Lemma bwrite_spec s V P HH b i :
  solo me pid s → cache d pid s V P HH → HH !! b = Some i →
  ∃ s', bwrite i s = Ok tt s' ∧ outer s' = outer s ∧ disk s' = <[b := V b]> (disk s) ∧
    dlog s' = dlog s ++ [(b, V b)] ∧ cache d pid s' V P HH ∧ uses (bcore s') = uses (bcore s).
Proof.
  intros Hso Hca Hh. destruct (cache_held s V P HH b i Hca Hh) as (x & Hx & Hd & Hb & Hl & Hv & Hdat & Hr & HP).
  set (dk' := <[b := V b]> (disk s)).
  destruct (cache_update s V P HH b i x x dk' (dlog s ++ [(b, V b)]) HH) as [Hca' Hu']; simpl; try done; try lia.
  { intros b' Hne. unfold block_of, dk'. by rewrite lookup_insert_ne. }
  { left. split; [done|]. split; [lia|]. by rewrite insert_id. }
  rewrite list_insert_id in Hca', Hu' by done.
  replace (set_bcache (bcache s) s) with s in Hca', Hu' by (by destruct s).
  eexists _. split; [|split; [|split; [|split; [|split]]]].
  - unfold bwrite. rewrite (bind_ok _ _ _ _ _ (holdingsleep_eq me pid i s x Hso Hx)), Hl. simpl.
    rewrite Z.eqb_refl. simpl. rewrite (disk_write_eq i s x Hx), Hb, Hdat. fold dk'. done.
  - by destruct s.
  - done.
  - done.
  - eapply cache_ext; [| |exact Hca']; intros b'; unfold insert, fn_insert; simpl; case_decide; subst; congruence.
  - etransitivity; [exact Hu'|]. simpl. rewrite Hr. lia.
Qed.

Lemma bunpin_spec s V P HH b i :
  solo me pid s → cache d pid s V P HH → HH !! b = Some i → 1 < P b →
  ∃ s', bunpin i s = Ok tt s' ∧ outer s' = outer s ∧ disk s' = disk s ∧ dlog s' = dlog s ∧
    cache d pid s' V (<[b := P b - 1]> P) HH ∧ uses (bcore s') = uses (bcore s).
Proof.
  intros Hso Hca Hh H1. destruct (cache_held s V P HH b i Hca Hh) as (x & Hx & Hd & Hb & Hl & Hv & Hdat & Hr & HP).
  set (x' := set_b_refcnt (P b - 1) x).
  destruct (cache_update s V P HH b i x x' (disk s) (dlog s) HH) as [Hca' Hu']; simpl; try done; try lia.
  { left. split; [done|]. split; [lia|]. by rewrite insert_id. }
  rewrite set_same in Hca', Hu'. exists (set_bcache (<[i := x']> (bcache s)) s). split; [|do 3 (split; [done|]); split].
  - unfold bunpin. rewrite (locked_upd me pid LkBcache i _ s x) by done. rewrite Hr, u32_small by lia. reflexivity.
  - eapply cache_ext; [| |exact Hca']; intros b'; unfold insert, fn_insert, x'; simpl; case_decide; subst; congruence.
  - etransitivity; [exact Hu'|]. simpl. rewrite !(proj2 (Z.eqb_neq _ 0)) by lia. lia.
Qed.

(** The critical section of brelse(): one reference less, and to the front of
    the list if it was the last. *)
Lemma brelse_end s L i x :
  solo me pid s → lru s L → bcache s !! i = Some x → 0 < b_refcnt x < 2 ^ 32 →
  let x' := set_b_refcnt (b_refcnt x - 1) x in
  ∃ s' L', (acquire LkBcache;;
    upd_buf i (λ b, set_b_refcnt (u32 (b_refcnt b - 1)) b);;
    b ← get_buf i;
    when (b_refcnt b =? 0)
      (nx ← gets (λ s, bnext s i);
       pv ← gets (λ s, bprev s i);
       set_prev nx pv;;
       set_next pv nx;;
       push_front i);;
    release LkBcache) s = Ok tt s' ∧
  nonlinks s' = nonlinks (set_bcache (<[i := x']> (bcache s)) s) ∧ lru s' L' ∧
  (if b_refcnt x =? 1 then ∃ A B, L = A ++ i :: B ∧ L' = i :: A ++ B else L' = L).
Proof.
  intros Hso Hl Hx Hr x'. pose proof Hso as [_ Hc Hlk _ _ _].
  assert (Hlk' : locks s !! LkBcache = None) by (rewrite Hlk; apply lookup_empty).
  set (s1 := set_bcache (<[i := x']> (bcache s)) (hold LkBcache s)).
  assert (Hl1 : lru s1 L).
  { apply (lru_same (set_bcache (<[i := x']> (bcache s)) s)); [done|done|]. by apply (lru_insert s L i x). }
  assert (Hmove : ∃ s2 L', when (b_refcnt x' =? 0)
      (nx ← gets (λ s, bnext s i); pv ← gets (λ s, bprev s i); set_prev nx pv;; set_next pv nx;; push_front i) s1 =
      Ok tt s2 ∧ nonlinks s2 = nonlinks s1 ∧ lru s2 L' ∧
      (if b_refcnt x =? 1 then ∃ A B, L = A ++ i :: B ∧ L' = i :: A ++ B else L' = L)).
  { simpl. destruct (Z.eqb_spec (b_refcnt x) 1) as [He|Hne].
    - rewrite (proj2 (Z.eqb_eq _ 0)) by lia.
      assert (Hi : i ∈ L) by (apply (lru_lookup _ _ _ Hl); by eexists).
      apply list_elem_of_split in Hi as (A & B & ->).
      destruct (move_front i s1 A B Hl1) as (s2 & Hrun & Hn & Hl2). exists s2, (i :: A ++ B).
      split; [exact Hrun|]. split; [done|]. split; [done|]. by exists A, B.
    - rewrite (proj2 (Z.eqb_neq _ 0)) by lia. by exists s1, L. }
  destruct Hmove as (s2 & L' & Hrun & Hn & Hl2 & HL).
  pose proof (outer_same _ _ (proj1 (outer_nonlinks _ _ Hn))) as (Hc2 & Hlk2 & _).
  exists (unhold s s2), L'. split; [|split; [|split; [by apply (lru_same s2)|done]]].
  - rewrite (bind_ok _ _ _ _ _ (acquire_eq LkBcache s Hlk')).
    rewrite (bind_ok _ _ _ tt s1) by (rewrite (upd_buf_eq i _ (hold LkBcache s) x Hx), u32_small by lia; done).
    rewrite (bind_ok _ _ _ x' s1).
    2:{ unfold get_buf, gets. f_equal. apply list_lookup_total_insert_eq. by eapply lookup_lt_Some. }
    rewrite (bind_ok _ _ _ _ _ Hrun). by apply release_eq.
  - unfold nonlinks in *. f_equal; [|by apply (f_equal snd) in Hn].
    apply (f_equal fst) in Hn. simpl in Hn. apply (f_equal (unhold s)) in Hn.
    etransitivity; [exact Hn|]. by destruct s.
Qed.

Lemma brelse_spec s V P HH b i :
  solo me pid s → cache d pid s V P HH → HH !! b = Some i → (P b = 1 → V b = block_of (disk s) b) →
  ∃ s', brelse i s = Ok tt s' ∧ outer s' = outer s ∧ disk s' = disk s ∧ dlog s' = dlog s ∧
    cache d pid s' V (<[b := P b - 1]> P) (delete b HH) ∧
    uses (bcore s') = uses (bcore s) - (if P b =? 1 then 1 else 0).
Proof.
  intros Hso Hca Hh H1. destruct (cache_held s V P HH b i Hca Hh) as (x & Hx & Hd & Hb & Hl & Hv & Hdat & Hr & HP).
  set (x1 := set_b_lock (mkSleeplock false 0) x). set (x' := set_b_refcnt (b_refcnt x - 1) x1).
  set (s1 := set_bcache (<[i := x1]> (bcache s)) s). pose proof Hca as [[L Hlru] _].
  assert (Hlt : (i < length (bcache s))%nat) by (by eapply lookup_lt_Some).
  destruct (brelse_end s1 L i x1) as (s' & L' & Hrun & Hn & Hl' & _).
  { by eapply solo_same, Hso. } { by apply (lru_insert s L i x). } { simpl. by rewrite list_lookup_insert_eq. }
  { simpl. lia. }
  assert (Hst : set_bcache (<[i := x']> (bcache s1)) s1 = set_bcache (<[i := x']> (bcache s)) s).
  { unfold s1. simpl. rewrite list_insert_insert_eq. by destruct s. }
  change (set_b_refcnt (b_refcnt x1 - 1) x1) with x' in Hn. rewrite Hst in Hn.
  destruct (cache_update s V P HH b i x x' (disk s) (dlog s) (delete b HH)) as [Hca' Hu']; simpl; try done; try lia.
  { intros H0. rewrite Hdat. apply H1. lia. } { by right. }
  rewrite set_same in Hca', Hu'. destruct (outer_nonlinks _ _ Hn) as (Ho & Hdk & Hdl & Hbc).
  exists s'. split; [|split; [by rewrite Ho|split; [done|split; [done|split]]]].
  - unfold brelse. rewrite (bind_ok _ _ _ _ _ (holdingsleep_eq me pid i s x Hso Hx)), Hl. simpl.
    rewrite Z.eqb_refl. simpl. rewrite (bind_ok _ _ _ _ _ (releasesleep_eq me pid i s x Hso Hx)). exact Hrun.
  - eapply cache_nonlinks; [exact Hn|exact Hl'|].
    eapply cache_ext; [| |exact Hca']; intros b'; unfold insert, fn_insert, x'; simpl; case_decide; subst; congruence.
  - rewrite Hbc, Hu'. simpl. rewrite (proj2 (Z.eqb_neq (P b) 0)) by lia.
    destruct (Z.eqb_spec (P b) 1), (Z.eqb_spec (b_refcnt x - 1) 0); lia.
Qed.
End ops.
