(* ===== verification/Log.v ===== *)
(** * kernel/log.c: the write-ahead log

    The header block holds the count and the block numbers as little-endian
    32-bit words; [log] holds the in-memory header. The int fields of struct log
    are signed and block numbers unsigned, as in the code. An entry of
    log.lh.block[] past its end (a header on the disk that claims more than
    LOGSIZE blocks) is not stored. *)

From Stdlib Require Import ZArith Lia.
From stdpp Require Import base numbers gmap strings countable tactics list.
From S2P Require Import Prelude Machine CString State Spinlock Kalloc Vm Sched Sleeplock Bio.

(** The [k]-th 32-bit word of a block, read as an int, and written. *)
Definition word (data : list Z) (k : Z) : Z :=
  s32 (le_value (slice data (4 * k) 4)).
Definition put_word (data : list Z) (k v : Z) : list Z :=
  splice data (4 * k) (le_bytes 4 (u32 v)).

Definition get_log : M log_t := gets log.
Definition upd_log (f : log_t → log_t) : M unit := modify (λ s, set_log (f (log s)) s).

Section log.
Context `{Env}.

Definition install_trans (recovering : bool) : M unit :=
  l ← get_log;
  for_each (seqZ 0 (l_n l)) (λ tail,
    l ← get_log;
    lbuf ← bread (u32 (l_dev l)) (u32 (l_start l + tail + 1));
    dbuf ← bread (u32 (l_dev l)) (u32 (nthZ (l_block l) tail));
    lb ← get_buf lbuf;
    upd_buf dbuf (set_b_data (b_data lb));;
    bwrite dbuf;;
    when (negb recovering) (bunpin dbuf);;
    brelse lbuf;;
    brelse dbuf;;
    mret (None : option unit));;
  mret tt.

Definition read_head : M unit :=
  l ← get_log;
  b ← bread (u32 (l_dev l)) (u32 (l_start l));
  d ← get_buf b;
  upd_log (set_l_n (word (b_data d) 0));;
  for_each (seqZ 0 (word (b_data d) 0)) (λ i,
    upd_log (λ l, set_l_block (updZ (l_block l) i (word (b_data d) (1 + i))) l);;
    mret (None : option unit));;
  brelse b.

Definition write_head : M unit :=
  l ← get_log;
  b ← bread (u32 (l_dev l)) (u32 (l_start l));
  upd_buf b (λ x, set_b_data (put_word (b_data x) 0 (l_n l)) x);;
  for_each (seqZ 0 (l_n l)) (λ i,
    l ← get_log;
    upd_buf b (λ x, set_b_data (put_word (b_data x) (1 + i) (nthZ (l_block l) i)) x);;
    mret (None : option unit));;
  bwrite b;;
  brelse b.

Definition recover_from_log : M unit :=
  read_head;;
  install_trans true;;
  upd_log (set_l_n 0);;
  write_head.

(** sizeof(struct logheader) = 4 * (1 + LOGSIZE) *)
Definition initlog (dev : Z) : M unit :=
  if BSIZE <=? 4 * (1 + LOGSIZE) then panic "initlog: too big logheader"
  else
    initlock LkLog;;
    sb ← gets sb;
    upd_log (λ l, set_l_dev dev (set_l_size (s32 (sb_nlog sb)) (set_l_start (s32 (sb_logstart sb)) l)));;
    recover_from_log.

Definition begin_op : M unit :=
  acquire LkLog;;
  loop fuel (λ _ : unit,
    l ← get_log;
    if l_committing l then
      sleep ChLog LkLog;;
      mret (inl tt)
    else if LOGSIZE <? l_n l + (l_outstanding l + 1) * MAXOPBLOCKS then
      sleep ChLog LkLog;;
      mret (inl tt)
    else
      upd_log (λ l, set_l_outstanding (l_outstanding l + 1) l);;
      release LkLog;;
      mret (inr tt)) tt.

Definition write_log : M unit :=
  l ← get_log;
  for_each (seqZ 0 (l_n l)) (λ tail,
    l ← get_log;
    to ← bread (u32 (l_dev l)) (u32 (l_start l + tail + 1));
    from ← bread (u32 (l_dev l)) (u32 (nthZ (l_block l) tail));
    fb ← get_buf from;
    upd_buf to (set_b_data (b_data fb));;
    bwrite to;;
    brelse from;;
    brelse to;;
    mret (None : option unit));;
  mret tt.

Definition commit : M unit :=
  l ← get_log;
  when (0 <? l_n l)
    (write_log;;
     write_head;;
     install_trans false;;
     upd_log (set_l_n 0);;
     write_head).

Definition end_op : M unit :=
  acquire LkLog;;
  upd_log (λ l, set_l_outstanding (l_outstanding l - 1) l);;
  l ← get_log;
  if l_committing l then panic "log.committing"
  else
    let do_commit := l_outstanding l =? 0 in
    (if do_commit then upd_log (set_l_committing true) else wakeup (Some ChLog));;
    release LkLog;;
    when do_commit
      (commit;;
       acquire LkLog;;
       upd_log (set_l_committing false);;
       wakeup (Some ChLog);;
       release LkLog).

(** The search of log_write(): the first entry equal to [blockno], or [n]. *)
Fixpoint log_slot (block : list Z) (blockno : Z) (i : Z) (n : nat) : Z :=
  match n with
  | O => i
  | S n => if u32 (nthZ block i) =? blockno then i else log_slot block blockno (i + 1) n
  end.

Definition log_write (b : nat) : M unit :=
  acquire LkLog;;
  l ← get_log;
  if (LOGSIZE <=? l_n l) || (l_size l - 1 <=? l_n l) then panic "too big a transaction"
  else if l_outstanding l <? 1 then panic "log_write outside of trans"
  else
    x ← get_buf b;
    let i := log_slot (l_block l) (b_blockno x) 0 (Z.to_nat (l_n l)) in
    upd_log (λ l, set_l_block (updZ (l_block l) i (s32 (b_blockno x))) l);;
    when (i =? l_n l)
      (bpin b;;
       upd_log (λ l, set_l_n (l_n l + 1) l));;
    release LkLog.
End log.
