(* ===== verification/LogTheory.v ===== *)
(** * The write-ahead log on the disk

    What the header block says ([word]), what a sequence of block writes does to
    a disk image ([apply_writes]), and what recovery makes of an image
    ([replay]). *)

From Stdlib Require Import ZArith Lia.
From stdpp Require Import base numbers functions gmap strings countable tactics list.
From S2P Require Import Prelude Machine CString State Spinlock Kalloc Vm VmMap Sched SchedTheory Sleeplock Bio BioList BioCache Log.

Notation image := (gmap Z (list Z)).
Notation write := (Z * list Z)%type.

(** ** Words of a block *)
Lemma length_put_word data k v :
  0 ≤ k → 4 * k + 4 ≤ Z.of_nat (length data) → length (put_word data k v) = length data.
Proof. intros Hk Hl. apply length_splice; [lia|]. rewrite length_le_bytes. lia. Qed.

Lemma word_put_eq data k v :
  0 ≤ k → 4 * k + 4 ≤ Z.of_nat (length data) → - 2 ^ 31 ≤ v < 2 ^ 31 → word (put_word data k v) k = v.
Proof.
  intros Hk Hl Hv. unfold word, put_word. rewrite slice_splice_eq by (rewrite ?length_le_bytes; lia).
  rewrite le_value_bytes. wrap.
Qed.

Lemma word_put_ne data k j v :
  0 ≤ k → 0 ≤ j → j ≠ k → 4 * k + 4 ≤ Z.of_nat (length data) → word (put_word data k v) j = word data j.
Proof.
  intros Hk Hj Hne Hl. unfold word, put_word. by rewrite slice_splice_ne by (rewrite ?length_le_bytes; lia).
Qed.

(** The header write_head() makes of the block [data]. *)
Definition put_header (data blk : list Z) (n : Z) : list Z :=
  foldl (λ d i, put_word d (1 + i) (nthZ blk i)) (put_word data 0 n) (seqZ 0 n).

Lemma put_header_prefix data blk n j :
  length data = 1024%nat → - 2 ^ 31 ≤ n < 2 ^ 31 → (∀ i, 0 ≤ i < Z.of_nat j → - 2 ^ 31 ≤ nthZ blk i < 2 ^ 31) →
  Z.of_nat j ≤ LOGSIZE →
  let h := foldl (λ d i, put_word d (1 + i) (nthZ blk i)) (put_word data 0 n) (seqZ 0 (Z.of_nat j)) in
  length h = 1024%nat ∧ word h 0 = n ∧ ∀ i, 0 ≤ i < Z.of_nat j → word h (1 + i) = nthZ blk i.
Proof.
  intros Hlen Hn. unfold LOGSIZE, MAXOPBLOCKS. induction j as [|j IH]; intros Hb Hj.
  { change (seqZ 0 (Z.of_nat 0)) with (@nil Z). cbn [foldl]. split; [by rewrite length_put_word by lia|]. split; [by apply word_put_eq; lia|]. intros; lia. }
  destruct IH as (Hl & H0 & Hw); [intros; apply Hb; lia|lia|].
  replace (Z.of_nat (S j)) with (Z.of_nat j + 1) by lia. rewrite seqZ_app, foldl_app by lia.
  set (h := foldl _ _ (seqZ 0 (Z.of_nat j))) in *. change (seqZ (0 + Z.of_nat j) 1) with [0 + (0 + Z.of_nat j)].
  simpl foldl. rewrite !Z.add_0_l. split; [rewrite length_put_word; lia|]. split; [rewrite word_put_ne; lia|].
  intros i Hi. destruct (decide (i = Z.of_nat j)) as [->|].
  - apply word_put_eq; [lia|lia|]. apply Hb. lia.
  - rewrite word_put_ne by lia. apply Hw. lia.
Qed.

Lemma word_put_header data blk n :
  length data = 1024%nat → 0 ≤ n ≤ LOGSIZE → (∀ i, 0 ≤ i < n → - 2 ^ 31 ≤ nthZ blk i < 2 ^ 31) →
  length (put_header data blk n) = 1024%nat ∧ word (put_header data blk n) 0 = n ∧
  ∀ i, 0 ≤ i < n → word (put_header data blk n) (1 + i) = nthZ blk i.
Proof.
  intros Hlen Hn Hb. pose proof (put_header_prefix data blk n (Z.to_nat n)) as Hp.
  rewrite Z2Nat.id in Hp by lia. apply Hp; [done| |done|lia]. unfold LOGSIZE, MAXOPBLOCKS in Hn. lia.
Qed.

(** ** Writes to a disk image *)
Definition apply_writes (ws : list write) (dk : image) : image := foldl (λ dk w, <[w.1 := w.2]> dk) dk ws.

Lemma apply_writes_app ws1 ws2 dk : apply_writes (ws1 ++ ws2) dk = apply_writes ws2 (apply_writes ws1 dk).
Proof. apply foldl_app. Qed.

Lemma block_insert dk b x b' : block_of (<[b := x]> dk) b' = if decide (b' = b) then x else block_of dk b'.
Proof.
  unfold block_of. case_decide as Hb; [subst; by rewrite lookup_insert_eq|by rewrite lookup_insert_ne].
Qed.

Lemma apply_other ws dk b : b ∉ ws.*1 → block_of (apply_writes ws dk) b = block_of dk b.
Proof.
  revert dk. induction ws as [|[a x] ws IH]; intros dk Hb; [done|]. rewrite fmap_cons in Hb.
  apply not_elem_of_cons in Hb as [Hne Hb]. simpl. rewrite IH by done. rewrite block_insert.
  by rewrite decide_False.
Qed.

Lemma apply_in ws dk b x : NoDup ws.*1 → (b, x) ∈ ws → block_of (apply_writes ws dk) b = x.
Proof.
  revert dk. induction ws as [|[a y] ws IH]; intros dk Hnd Hin; [by apply elem_of_nil in Hin|].
  rewrite fmap_cons in Hnd. apply NoDup_cons in Hnd as [Ha Hnd]. simpl in *.
  apply elem_of_cons in Hin as [He|Hin]; [|by apply IH]. simplify_eq.
  rewrite apply_other by done. by rewrite block_insert, decide_True.
Qed.

(** The same writes on images that agree elsewhere. *)
Lemma apply_agree ws dk dk' b :
  (b ∉ ws.*1 → block_of dk b = block_of dk' b) →
  block_of (apply_writes ws dk) b = block_of (apply_writes ws dk') b.
Proof.
  induction ws as [|[a x] ws IH] using rev_ind; intros Hb.
  - apply Hb. apply not_elem_of_nil.
  - rewrite !apply_writes_app. simpl. rewrite !block_insert. case_decide as He; [done|]. apply IH.
    intros Hout. apply Hb. rewrite fmap_app. set_solver.
Qed.

(** ** Recovery and commit, on disk images *)
Section disk_log.
Context (start : Z).

(** Log block [k], and the blocks the file system lives in. *)
Definition log_block (k : Z) : Z := start + k + 1.
Definition home (b : Z) : Prop := ¬ (start ≤ b ≤ start + LOGSIZE).

(** The header on a disk: the number of blocks, and their home. *)
Definition head_n (dk : image) : Z := word (block_of dk start) 0.
Definition head_block (dk : image) (k : Z) : Z := u32 (word (block_of dk start) (1 + k)).

(** What recover_from_log() makes of an image: the blocks the header names are
    copied from the log to their home, and the header is cleared. *)
Definition installs (dk : image) : list write :=
  (λ k, (head_block dk k, block_of dk (log_block k))) <$> seqZ 0 (head_n dk).
Definition replay (dk : image) : image := apply_writes (installs dk) dk.
Definition recovered (dk : image) : image :=
  <[start := put_word (block_of (replay dk) start) 0 0]> (replay dk).

(** The writes of commit() for the transaction [tr], with [h] the header it
    writes: the log, the header, the home locations, the cleared header. *)
Definition log_writes (tr : list write) : list write := imap (λ k w, (log_block (Z.of_nat k), w.2)) tr.
Definition commit_writes (tr : list write) (h : list Z) : list write :=
  log_writes tr ++ [(start, h)] ++ tr ++ [(start, put_word h 0 0)].

Record trans_ok (tr : list write) : Prop := {
  tk_home : ∀ b, b ∈ tr.*1 → home b;
  tk_nodup : NoDup tr.*1;
  tk_size : Z.of_nat (length tr) ≤ LOGSIZE;
  tk_range : ∀ b, b ∈ tr.*1 → 0 ≤ b < 2 ^ 31;
}.

(** [h] is a header for [tr]. *)
Definition header_for (tr : list write) (h : list Z) : Prop :=
  length h = 1024%nat ∧ word h 0 = Z.of_nat (length tr) ∧
  ∀ k w, tr !! k = Some w → word h (1 + Z.of_nat k) = w.1.

Lemma elem_of_log_writes tr b : b ∈ (log_writes tr).*1 → ∃ k, (k < length tr)%nat ∧ b = log_block (Z.of_nat k).
Proof.
  intros (k & Hk)%list_elem_of_lookup. unfold log_writes in Hk. rewrite list_lookup_fmap, list_lookup_imap in Hk.
  destruct (tr !! k) as [w|] eqn:Hw; [|done]. simplify_eq/=. exists k. split; [by eapply lookup_lt_Some|done].
Qed.

Lemma log_writes_not_home tr b : trans_ok tr → b ∈ (log_writes tr).*1 → ¬ home b ∧ b ≠ start.
Proof.
  intros [_ _ Hs _] (k & Hk & ->)%elem_of_log_writes. unfold home, log_block. split; [|lia]. intros Hh. apply Hh. lia.
Qed.

Lemma NoDup_log_writes tr : NoDup (log_writes tr).*1.
Proof.
  apply NoDup_alt. intros i j b. unfold log_writes. rewrite !list_lookup_fmap, !list_lookup_imap.
  destruct (tr !! i), (tr !! j); simpl; intros Hi Hj; try done. simplify_eq. unfold log_block in *. lia.
Qed.

(** No committed transaction: recovery changes no home block. *)
Lemma recovered_empty dk b : head_n dk = 0 → home b → block_of (recovered dk) b = block_of dk b.
Proof.
  intros Hn Hb. unfold recovered, replay, installs. rewrite Hn. simpl.
  rewrite block_insert, decide_False; [done|]. intros ->. apply Hb. unfold LOGSIZE, MAXOPBLOCKS. lia.
Qed.

(** A committed transaction: recovery completes it, however much of it had been
    installed. *)
Lemma recovered_full dk tr b :
  trans_ok tr → header_for tr (block_of dk start) →
  (∀ k w, tr !! k = Some w → block_of dk (log_block (Z.of_nat k)) = w.2) → home b →
  block_of (recovered dk) b = block_of (apply_writes tr dk) b.
Proof.
  intros Htr (_ & Hn & Hw) Hlog Hb. unfold recovered. rewrite block_insert, decide_False.
  2:{ intros ->. apply Hb. unfold LOGSIZE, MAXOPBLOCKS. lia. }
  unfold replay. f_equal. f_equal. unfold installs, head_n, head_block. rewrite Hn.
  apply list_eq. intros k. rewrite list_lookup_fmap. destruct (tr !! k) as [w|] eqn:Hk.
  - rewrite lookup_seqZ_lt by (apply lookup_lt_Some in Hk; lia). simpl. rewrite Z.add_0_l, (Hw k w Hk), (Hlog k w Hk).
    destruct w as [c x]. simpl. rewrite u32_small; [done|].
    assert (Hc : c ∈ tr.*1) by (apply list_elem_of_fmap; exists (c, x); split; [done|by eapply list_elem_of_lookup_2]).
    pose proof (tk_range tr Htr c Hc). lia.
  - rewrite lookup_seqZ_ge; [done|]. apply lookup_ge_None in Hk. lia.
Qed.

(** The disk after the log and the header have been written, with any home
    blocks. *)
Lemma committed_image tr h dk ws :
  trans_ok tr → header_for tr h → (∀ b, b ∈ ws.*1 → home b) → NoDup ws.*1 →
  let dk' := apply_writes (log_writes tr ++ (start, h) :: ws) dk in
  header_for tr (block_of dk' start) ∧ (∀ k w, tr !! k = Some w → block_of dk' (log_block (Z.of_nat k)) = w.2) ∧
  (∀ b, home b → block_of dk' b = block_of (apply_writes ws dk) b).
Proof.
  intros Htr Hh Hws Hnd dk'. assert (Hst : start ∉ ws.*1).
  { intros Hin%Hws. apply Hin. unfold LOGSIZE, MAXOPBLOCKS. lia. }
  assert (Hdk : ∀ b, block_of dk' b = block_of (apply_writes ws (<[start := h]> (apply_writes (log_writes tr) dk))) b).
  { intros b. unfold dk'. by rewrite apply_writes_app. }
  split; [|split].
  - rewrite Hdk, apply_other by done. by rewrite block_insert, decide_True.
  - intros k w Hk. assert (Hin : (log_block (Z.of_nat k), w.2) ∈ log_writes tr).
    { apply list_elem_of_lookup. exists k. unfold log_writes. by rewrite list_lookup_imap, Hk. }
    destruct (log_writes_not_home tr (log_block (Z.of_nat k)) Htr) as [Hnh Hne].
    { apply list_elem_of_fmap. by exists (log_block (Z.of_nat k), w.2). }
    rewrite Hdk, apply_other by auto. rewrite block_insert, decide_False by done.
    apply apply_in; [apply NoDup_log_writes|done].
  - intros b Hb. rewrite Hdk. apply apply_agree. intros _. rewrite block_insert, decide_False.
    + apply apply_other. intros Hin%log_writes_not_home; tauto.
    + intros ->. apply Hb. unfold LOGSIZE, MAXOPBLOCKS. lia.
Qed.

(** Where a crash can leave the disk: some of the log written; all of it and
    the header, and some of the home blocks; everything. *)
Lemma crash_cases tr h ws :
  ws `prefix_of` commit_writes tr h →
  (length ws ≤ length tr)%nat ∧ ws = take (length ws) (log_writes tr) ∨
  (length tr < length ws)%nat ∧ (∃ m, ws = log_writes tr ++ (start, h) :: take m tr) ∨
  (length tr < length ws)%nat ∧ ws = (log_writes tr ++ (start, h) :: tr) ++ [(start, put_word h 0 0)].
Proof.
  intros [rest Hws]. assert (Hw : ws = take (length ws) (commit_writes tr h)) by (by rewrite Hws, take_app_length).
  assert (Hll : length (log_writes tr) = length tr) by apply length_imap.
  unfold commit_writes in Hw. destruct (decide (length ws ≤ length tr)%nat) as [Hlen|Hlen].
  { left. split; [done|]. by rewrite take_app_le in Hw by lia. }
  right. rewrite take_app_ge in Hw by lia. destruct (length ws - length (log_writes tr))%nat as [|m] eqn:Hm; [lia|].
  simpl in Hw. destruct (decide (m ≤ length tr)%nat) as [Hle|Hgt].
  - left. split; [lia|]. exists m. by rewrite take_app_le in Hw by lia.
  - right. split; [lia|]. rewrite take_ge in Hw by (rewrite length_app; simpl; lia).
    by rewrite <- app_assoc.
Qed.

Lemma take_log_writes tr k c : trans_ok tr → c ∈ (take k (log_writes tr)).*1 → ¬ home c ∧ c ≠ start.
Proof.
  intros Htr Hc. apply (log_writes_not_home tr c Htr). rewrite fmap_take in Hc.
  by apply elem_of_take in Hc as (? & ?%list_elem_of_lookup_2 & _).
Qed.

(** The part of the transaction that is installed. *)
Lemma take_trans tr m : trans_ok tr →
  NoDup (take m tr).*1 ∧ ∀ c, c ∈ (take m tr).*1 → home c ∧ c ∈ tr.*1.
Proof.
  intros Htr. split.
  - pose proof (tk_nodup tr Htr) as Hnd. rewrite <- (take_drop m tr), fmap_app in Hnd.
    by apply NoDup_app in Hnd as [? _].
  - intros c. rewrite fmap_take. intros (? & Hin%list_elem_of_lookup_2 & _)%elem_of_take.
    split; [by apply (tk_home tr Htr)|done].
Qed.

(** Whatever a crash leaves, the header is empty or the transaction's. *)
Lemma crash_head dk tr h ws :
  trans_ok tr → header_for tr h → head_n dk = 0 → ws `prefix_of` commit_writes tr h →
  head_n (apply_writes ws dk) = 0 ∨ header_for tr (block_of (apply_writes ws dk) start).
Proof.
  intros Htr Hh Hn [[_ ->]|[[_ [m ->]]|[_ ->]]]%crash_cases.
  - left. unfold head_n. rewrite apply_other; [done|]. intros Hc%(take_log_writes _ _ _ Htr). tauto.
  - right. destruct (take_trans tr m Htr) as [Hnd Hin].
    apply (committed_image tr h dk (take m tr)); [done|done|intros c ?%Hin; tauto|done].
  - left. rewrite apply_writes_app. simpl. unfold head_n. rewrite block_insert, decide_True by done.
    apply word_put_eq; [lia| |lia]. destruct Hh as [-> _]. lia.
Qed.

(** Crash at any point of commit(): recovery gives the disk before the
    transaction up to the write of the header, and after it from then on. *)
Lemma crash_images dk tr h ws :
  trans_ok tr → header_for tr h → head_n dk = 0 → ws `prefix_of` commit_writes tr h →
  ∀ b, home b → block_of (recovered (apply_writes ws dk)) b =
    block_of (if decide (length ws ≤ length tr)%nat then dk else apply_writes tr dk) b.
Proof.
  intros Htr Hh Hn [[Hlen Hws]|[[Hlen [m Hws]]|[Hlen Hws]]]%crash_cases b Hb.
  - rewrite decide_True by done.
    assert (Hin : ∀ c, c ∈ ws.*1 → ¬ home c ∧ c ≠ start) by (rewrite Hws; intros c; by apply take_log_writes).
    rewrite recovered_empty; [|unfold head_n; rewrite apply_other; [done|intros Hc%Hin; tauto]|done].
    apply apply_other. intros Hc%Hin. tauto.
  - rewrite decide_False by lia. destruct (take_trans tr m Htr) as [Hnd Hin].
    destruct (committed_image tr h dk (take m tr)) as (H1 & H2 & H3); [done|done|intros c ?%Hin; tauto|done|].
    rewrite Hws, (recovered_full _ tr); [|done..]. apply apply_agree. intros Hnot.
    rewrite H3 by done. apply apply_other. intros Hc%Hin. tauto.
  - rewrite decide_False by lia.
    destruct (committed_image tr h dk tr) as (H1 & H2 & H3); [done|done|apply Htr|apply Htr|].
    rewrite Hws, apply_writes_app. simpl. set (dk' := apply_writes _ dk) in *.
    rewrite recovered_empty; [| |done].
    + rewrite block_insert, decide_False; [by apply H3|]. intros ->. apply Hb. unfold LOGSIZE, MAXOPBLOCKS. lia.
    + unfold head_n. rewrite block_insert, decide_True by done. apply word_put_eq; [lia| |lia].
      destruct Hh as [-> _]. lia.
Qed.

(** A header that is empty or a transaction's names home blocks only. *)
Lemma installs_home dk tr :
  trans_ok tr → head_n dk = 0 ∨ header_for tr (block_of dk start) →
  0 ≤ head_n dk ≤ LOGSIZE ∧ ∀ b, b ∈ (installs dk).*1 → home b.
Proof.
  intros Htr [Hn|(_ & Hn & Hw)].
  - unfold installs. rewrite Hn. split; [done|]. simpl. intros b Hb. by apply elem_of_nil in Hb.
  - fold (head_n dk) in Hn. pose proof (tk_size tr Htr). split; [lia|]. intros b Hb.
    apply list_elem_of_fmap in Hb as (w & -> & Hin). apply list_elem_of_fmap in Hin as (k & -> & Hk).
    apply elem_of_seqZ in Hk. simpl.
    destruct (lookup_lt_is_Some_2 tr (Z.to_nat k) ltac:(lia)) as [v Hv].
    assert (Hin : v.1 ∈ tr.*1) by (apply list_elem_of_fmap; exists v; split; [done|by eapply list_elem_of_lookup_2]).
    pose proof (tk_range tr Htr _ Hin). specialize (Hw _ _ Hv). rewrite Z2Nat.id in Hw by lia.
    unfold head_block. rewrite Hw, u32_small by lia. by apply (tk_home tr Htr).
Qed.

(** ** Crashes during recovery *)

(** The writes of recover_from_log(). *)
Definition recovery_writes (dk : image) : list write :=
  installs dk ++ [(start, put_word (block_of dk start) 0 0)].

(** What a prefix of these writes leaves of the log: everything, or an empty one. *)
Lemma recovery_partial dk ws :
  length (block_of dk start) = 1024%nat → 0 ≤ head_n dk ≤ LOGSIZE → (∀ b, b ∈ (installs dk).*1 → home b) →
  ws `prefix_of` recovery_writes dk →
  let dk' := apply_writes ws dk in
  ((∀ c, c ∈ ws.*1 → c ∈ (installs dk).*1) ∧ block_of dk' start = block_of dk start ∧ installs dk' = installs dk) ∨
  (ws = recovery_writes dk ∧ head_n dk' = 0).
Proof.
  intros Hlen Hn Hhome [rest Hws] dk'.
  assert (Hw : ws = take (length ws) (recovery_writes dk)) by (by rewrite Hws, take_app_length).
  unfold recovery_writes in Hw. destruct (decide (length ws ≤ length (installs dk))%nat) as [Hle|Hgt].
  - left. rewrite take_app_le in Hw by done.
    assert (Hsub : ∀ c, c ∈ ws.*1 → c ∈ (installs dk).*1).
    { rewrite Hw, fmap_take. by intros c (? & ?%list_elem_of_lookup_2 & _)%elem_of_take. }
    assert (Hlog : ∀ c, ¬ home c → block_of dk' c = block_of dk c).
    { intros c Hc. apply apply_other. intros ?%Hsub%Hhome. done. }
    assert (Hst : block_of dk' start = block_of dk start).
    { apply Hlog. unfold home, LOGSIZE, MAXOPBLOCKS. lia. }
    split; [done|]. split; [done|]. unfold installs, head_n, head_block. rewrite Hst. apply list_fmap_ext. intros j k Hj.
    apply lookup_seqZ in Hj as [-> Hj]. f_equal. apply Hlog. fold (head_n dk) in Hj. unfold home, log_block. lia.
  - right. rewrite take_ge in Hw by (rewrite length_app; simpl; lia). split; [done|].
    unfold dk'. rewrite Hw, apply_writes_app. simpl. unfold head_n. rewrite block_insert, decide_True by done.
    apply word_put_eq; lia.
Qed.

(** Recovering again, after any part of a recovery, gives the same disk. *)
Lemma recovery_again dk ws :
  length (block_of dk start) = 1024%nat → 0 ≤ head_n dk ≤ LOGSIZE → (∀ b, b ∈ (installs dk).*1 → home b) →
  ws `prefix_of` recovery_writes dk →
  ∀ b, home b → block_of (recovered (apply_writes ws dk)) b = block_of (recovered dk) b.
Proof.
  intros Hlen Hn Hhome Hpre b Hb. assert (Hbs : b ≠ start).
  { intros ->. apply Hb. unfold LOGSIZE, MAXOPBLOCKS. lia. }
  destruct (recovery_partial dk ws Hlen Hn Hhome Hpre) as [(Hsub & _ & Hins)|[Hw H0]].
  - unfold recovered. rewrite !block_insert, !decide_False by done. unfold replay. rewrite Hins.
    apply apply_agree. intros Hout. apply apply_other. by intros ?%Hsub.
  - rewrite recovered_empty by done. rewrite Hw. unfold recovery_writes, recovered.
    rewrite apply_writes_app. simpl. by rewrite !block_insert, !decide_False.
Qed.

(** So a recovery can start again after any part of one. *)
Lemma recovery_restart dk ws :
  length (block_of dk start) = 1024%nat → 0 ≤ head_n dk ≤ LOGSIZE → (∀ b, b ∈ (installs dk).*1 → home b) →
  ws `prefix_of` recovery_writes dk →
  0 ≤ head_n (apply_writes ws dk) ≤ LOGSIZE ∧ ∀ b, b ∈ (installs (apply_writes ws dk)).*1 → home b.
Proof.
  intros Hlen Hn Hhome Hpre. destruct (recovery_partial dk ws Hlen Hn Hhome Hpre) as [(_ & Hst & Hins)|[_ H0]].
  - rewrite Hins. unfold head_n in *. by rewrite Hst.
  - unfold installs. rewrite H0. split; [unfold LOGSIZE, MAXOPBLOCKS; lia|]. simpl. intros b Hb. by apply elem_of_nil in Hb.
Qed.
End disk_log.
