(* ===== verification/LogRun.v ===== *)
(** * Running the log

    write_log(), write_head(), install_trans(), read_head() and commit() of
    kernel/log.c, run by one process on a cache nobody else uses: what they do to
    the cache and the order of the block writes they do to the disk. *)

From Stdlib Require Import ZArith Lia.
From stdpp Require Import base numbers functions gmap strings countable tactics list.
From S2P Require Import Prelude Machine CString State Spinlock Kalloc Vm VmMap Sched SchedTheory Sleeplock Bio BioList BioCache Log LogTheory.

(** A block nobody uses is as on the disk. *)
Lemma cache_clean d pid s V P H b : cache d pid s V P H → P b = 0 → V b = block_of (disk s) b.
Proof.
  intros [_ Hc] HP. destruct (core_lookup d (bcore s) b) as [(i & y & Hy & Hd & <-)|Hno].
  - rewrite (ca_view _ _ _ _ _ _ _ Hc i y Hy Hd). apply (ca_clean _ _ _ _ _ _ _ Hc i y Hy Hd).
    by rewrite <- (ca_pins _ _ _ _ _ _ _ Hc i y Hy Hd).
  - by apply (ca_absent _ _ _ _ _ _ _ Hc).
Qed.

Lemma cache_pins_nonneg d pid s V P H b : cache d pid s V P H → 0 ≤ P b < 2 ^ 32.
Proof.
  intros [_ Hc]. destruct (core_lookup d (bcore s) b) as [(i & y & Hy & Hd & <-)|Hno].
  - rewrite (ca_pins _ _ _ _ _ _ _ Hc i y Hy Hd). apply (ca_ref _ _ _ _ _ _ _ Hc i y Hy).
  - destruct (ca_absent _ _ _ _ _ _ _ Hc b Hno) as [_ ->]. lia.
Qed.

Lemma get_buf_eq i s x : bcache s !! i = Some x → get_buf i s = Ok x s.
Proof. intros Hx. unfold get_buf, gets. by rewrite (list_lookup_total_correct _ _ _ Hx). Qed.

Section run.
Context `{Env} (d : Z) (me : nat) (pid : Z) (Hfuel : (0 < fuel)%nat).
Implicit Types (V : Z → list Z) (P : Z → Z).

(** A quiet cache, with room for two more buffers. *)
Definition at_rest (s : kstate) V P : Prop :=
  solo me pid s ∧ cache d pid s V P ∅ ∧ uses (bcore s) + 1 < Z.of_nat NBUF.

(** Reading two different blocks. *)
Lemma bread2 s V P a b :
  at_rest s V P → a ≠ b → P a + 1 < 2 ^ 32 → P b + 1 < 2 ^ 32 →
  ∃ i j s1 s2, bread d a s = Ok i s1 ∧ bread d b s1 = Ok j s2 ∧ outer s2 = outer s ∧ disk s2 = disk s ∧
    dlog s2 = dlog s ∧ cache d pid s2 V (<[b := P b + 1]> (<[a := P a + 1]> P)) (<[b := j]> (<[a := i]> ∅)) ∧
    uses (bcore s2) = uses (bcore s) + (if P a =? 0 then 1 else 0) + (if P b =? 0 then 1 else 0).
Proof.
  intros (Hso & Hca & Hu) Hne Ha Hb.
  destruct (bread_spec d me pid Hfuel s V P ∅ a) as (i & s1 & Hr1 & Ho1 & Hd1 & Hl1 & Hc1 & Hu1);
    [done|done|apply lookup_empty|done|lia|].
  assert (HPb : (<[a := P a + 1]> P) b = P b) by (by rewrite fn_lookup_insert_ne).
  destruct (bread_spec d me pid Hfuel s1 V (<[a := P a + 1]> P) (<[a := i]> ∅) b)
    as (j & s2 & Hr2 & Ho2 & Hd2 & Hl2 & Hc2 & Hu2).
  { by eapply solo_outer. } { done. } { rewrite lookup_insert_ne by done. apply lookup_empty. } { by rewrite HPb. } { destruct (P a =? 0); lia. }
  exists i, j, s1, s2. rewrite HPb in *. do 2 (split; [done|]). split; [congruence|]. split; [congruence|].
  split; [congruence|]. split; [done|]. lia.
Qed.

(** Releasing two different blocks that are clean or still used. *)
Lemma brelse2 s V P a b i j :
  solo me pid s → cache d pid s V P (<[b := j]> (<[a := i]> ∅)) → a ≠ b →
  (P a = 1 → V a = block_of (disk s) a) → (P b = 1 → V b = block_of (disk s) b) →
  ∃ s1 s2, brelse i s = Ok tt s1 ∧ brelse j s1 = Ok tt s2 ∧ outer s2 = outer s ∧ disk s2 = disk s ∧
    dlog s2 = dlog s ∧ cache d pid s2 V (<[b := P b - 1]> (<[a := P a - 1]> P)) ∅ ∧
    uses (bcore s2) = uses (bcore s) - (if P a =? 1 then 1 else 0) - (if P b =? 1 then 1 else 0).
Proof.
  intros Hso Hca Hne Ha Hb.
  destruct (brelse_spec d me pid Hfuel s V P _ a i Hso Hca) as (s1 & Hr1 & Ho1 & Hd1 & Hl1 & Hc1 & Hu1);
    [by rewrite lookup_insert_ne, lookup_insert_eq|done|].
  assert (HPb : (<[a := P a - 1]> P) b = P b) by (by rewrite fn_lookup_insert_ne).
  assert (Hdel : delete a (<[b := j]> (<[a := i]> (∅ : gmap Z nat))) = <[b := j]> ∅).
  { rewrite delete_insert_ne by done. by rewrite delete_insert_id by apply lookup_empty. }
  rewrite Hdel in Hc1.
  destruct (brelse_spec d me pid Hfuel s1 V (<[a := P a - 1]> P) (<[b := j]> ∅) b j)
    as (s2 & Hr2 & Ho2 & Hd2 & Hl2 & Hc2 & Hu2).
  { by eapply solo_outer. } { done. } { apply lookup_insert_eq. } { rewrite HPb, Hd1. done. }
  rewrite HPb in *. rewrite delete_insert_id in Hc2 by apply lookup_empty.
  exists s1, s2. do 2 (split; [done|]). split; [congruence|]. split; [congruence|].
  split; [congruence|]. split; [done|]. lia.
Qed.

(** What a copy of block [src] to block [dst] leaves, with [n] references to
    [dst] dropped on the way. *)
Definition copied_to s V P dst src (n : Z) s' : Prop :=
  outer s' = outer s ∧ disk s' = <[dst := V src]> (disk s) ∧ dlog s' = dlog s ++ [(dst, V src)] ∧
  at_rest s' (<[dst := V src]> V) (<[dst := P dst - n]> P).

(** One round of write_log(). *)
Lemma write_log_round s V P dst src :
  at_rest s V P → dst ≠ src → P dst + 1 < 2 ^ 32 → P src + 1 < 2 ^ 32 →
  ∃ s', (to ← bread d dst;
         from ← bread d src;
         fb ← get_buf from;
         upd_buf to (set_b_data (b_data fb));;
         bwrite to;;
         brelse from;;
         brelse to;;
         mret (None : option unit)) s = Ok None s' ∧ copied_to s V P dst src 0 s'.
Proof.
  intros Hrest Hne Hpd Hps. pose proof Hrest as (Hso & Hca & Hu).
  destruct (bread2 s V P dst src Hrest Hne Hpd Hps) as (i & j & s1 & s2 & Hr1 & Hr2 & Ho2 & Hd2 & Hl2 & Hc2 & Hu2).
  assert (Hhi : (<[src := j]> (<[dst := i]> (∅ : gmap Z nat))) !! dst = Some i)
    by (by rewrite lookup_insert_ne, lookup_insert_eq).
  assert (Hhj : (<[src := j]> (<[dst := i]> (∅ : gmap Z nat))) !! src = Some j) by apply lookup_insert_eq.
  destruct (cache_held d pid Hfuel _ _ _ _ _ _ Hc2 Hhj) as (x & Hx & _ & _ & _ & _ & Hdat & _).
  destruct (put_data_spec d pid Hfuel s2 V _ _ dst i (λ _, V src) Hc2 Hhi) as (s3 & Hr3 & Ho3 & Hd3 & Hl3 & Hc3 & Hu3).
  assert (Hso3 : solo me pid s3) by (eapply solo_outer; [|exact Hso]; congruence).
  destruct (bwrite_spec d me pid Hfuel s3 _ _ _ dst i Hso3 Hc3 Hhi) as (s4 & Hr4 & Ho4 & Hd4 & Hl4 & Hc4 & Hu4).
  rewrite insert_insert_ne in Hc4 by done. rewrite fn_lookup_insert in Hd4, Hl4.
  assert (HP : ∀ b, (<[dst := P dst - 0]> P) b = P b).
  { intros b. unfold insert, fn_insert. case_decide; [subst; lia|done]. }
  destruct (brelse2 s4 _ _ src dst j i (solo_outer _ _ _ _ Ho4 Hso3) Hc4 (not_eq_sym Hne))
    as (s5 & s6 & Hr5 & Hr6 & Ho6 & Hd6 & Hl6 & Hc6 & Hu6).
  { rewrite fn_lookup_insert, fn_lookup_insert_ne by done. intros HPs. rewrite Hd4, Hd3, Hd2, block_insert, decide_False by done.
    eapply cache_clean; [exact Hca|]. lia. }
  { intros _. by rewrite fn_lookup_insert, Hd4, block_insert, decide_True. }
  exists s6. split; [|split; [congruence|split; [congruence|split; [congruence|split; [|split]]]]].
  - rewrite (bind_ok _ _ _ _ _ Hr1), (bind_ok _ _ _ _ _ Hr2), (bind_ok _ _ _ _ _ (get_buf_eq j s2 x Hx)), Hdat.
    rewrite (bind_ok _ _ _ _ _ (Hr3 : upd_buf i (set_b_data (V src)) s2 = _)), (bind_ok _ _ _ _ _ Hr4).
    by rewrite (bind_ok _ _ _ _ _ Hr5), (bind_ok _ _ _ _ _ Hr6).
  - eapply solo_outer; [|exact Hso]. congruence.
  - eapply cache_ext; [| |exact Hc6]; [done|]. intros b. rewrite HP. unfold insert, fn_insert.
    repeat case_decide; subst; try done; lia.
  - rewrite !fn_lookup_insert, fn_lookup_insert_ne, !fn_lookup_insert in Hu6 by done.
    rewrite Hu6, Hu4, Hu3, Hu2. revert Hu. clear. 
    destruct (Z.eqb_spec (P dst) 0), (Z.eqb_spec (P src) 0), (Z.eqb_spec (P dst + 1) 1), (Z.eqb_spec (P src + 1) 1); lia.
Qed.

(** One round of install_trans(). *)
Lemma install_round (r : bool) s V P hm lg :
  at_rest s V P → lg ≠ hm → P lg + 1 < 2 ^ 32 → P hm + 1 < 2 ^ 32 → (r = false → 1 ≤ P hm) →
  ∃ s', (lbuf ← bread d lg;
         dbuf ← bread d hm;
         lb ← get_buf lbuf;
         upd_buf dbuf (set_b_data (b_data lb));;
         bwrite dbuf;;
         when (negb r) (bunpin dbuf);;
         brelse lbuf;;
         brelse dbuf;;
         mret (None : option unit)) s = Ok None s' ∧ copied_to s V P hm lg (if r then 0 else 1) s'.
Proof.
  intros Hrest Hne Hpl Hph Hpin. pose proof Hrest as (Hso & Hca & Hu). set (n := if r then 0 else 1).
  destruct (bread2 s V P lg hm Hrest Hne Hpl Hph) as (i & j & s1 & s2 & Hr1 & Hr2 & Ho2 & Hd2 & Hl2 & Hc2 & Hu2).
  assert (Hhi : (<[hm := j]> (<[lg := i]> (∅ : gmap Z nat))) !! lg = Some i)
    by (by rewrite lookup_insert_ne, lookup_insert_eq).
  assert (Hhj : (<[hm := j]> (<[lg := i]> (∅ : gmap Z nat))) !! hm = Some j) by apply lookup_insert_eq.
  destruct (cache_held d pid Hfuel _ _ _ _ _ _ Hc2 Hhi) as (x & Hx & _ & _ & _ & _ & Hdat & _).
  destruct (put_data_spec d pid Hfuel s2 V _ _ hm j (λ _, V lg) Hc2 Hhj) as (s3 & Hr3 & Ho3 & Hd3 & Hl3 & Hc3 & Hu3).
  assert (Hso3 : solo me pid s3) by (eapply solo_outer; [|exact Hso]; congruence).
  destruct (bwrite_spec d me pid Hfuel s3 _ _ _ hm j Hso3 Hc3 Hhj) as (s4 & Hr4 & Ho4 & Hd4 & Hl4 & Hc4 & Hu4).
  rewrite fn_lookup_insert in Hd4, Hl4. pose proof (solo_outer _ _ _ _ Ho4 Hso3) as Hso4.
  assert (Hun : ∃ s5, when (negb r) (bunpin j) s4 = Ok tt s5 ∧ outer s5 = outer s4 ∧ disk s5 = disk s4 ∧
    dlog s5 = dlog s4 ∧ cache d pid s5 (<[hm := V lg]> V) (<[hm := P hm + 1 - n]> (<[lg := P lg + 1]> P))
      (<[hm := j]> (<[lg := i]> ∅)) ∧ uses (bcore s5) = uses (bcore s4)).
  { destruct r; simpl; subst n.
    - exists s4. do 4 (split; [done|]). split; [|done].
      eapply cache_ext; [| |exact Hc4]; [done|]. intros b. unfold insert, fn_insert. case_decide; subst; [lia|done].
    - destruct (bunpin_spec d me pid Hfuel s4 _ _ _ hm j Hso4 Hc4 Hhj) as (s5 & Hr5 & ? & ? & ? & Hc5 & ?).
      { rewrite fn_lookup_insert. specialize (Hpin eq_refl). lia. }
      exists s5. do 4 (split; [done|]). split; [|done]. rewrite fn_lookup_insert in Hc5.
      eapply cache_ext; [| |exact Hc5]; [done|]. intros b. unfold insert, fn_insert. repeat case_decide; done. }
  destruct Hun as (s5 & Hr5 & Ho5 & Hd5 & Hl5 & Hc5 & Hu5).
  destruct (brelse2 s5 _ _ lg hm i j (solo_outer _ _ _ _ Ho5 Hso4) Hc5 Hne)
    as (s6 & s7 & Hr6 & Hr7 & Ho7 & Hd7 & Hl7 & Hc7 & Hu7).
  { rewrite !fn_lookup_insert_ne, fn_lookup_insert by done. intros HPs.
    rewrite Hd5, Hd4, Hd3, Hd2, block_insert, decide_False by done.
    rewrite fn_lookup_insert_ne by done. eapply cache_clean; [exact Hca|]. lia. }
  { intros _. by rewrite fn_lookup_insert, Hd5, Hd4, block_insert, decide_True. }
  rewrite fn_lookup_insert, fn_lookup_insert_ne, fn_lookup_insert in Hc7, Hu7 by done.
  exists s7. split; [|split; [congruence|split; [congruence|split; [congruence|split; [|split]]]]].
  - rewrite (bind_ok _ _ _ _ _ Hr1), (bind_ok _ _ _ _ _ Hr2), (bind_ok _ _ _ _ _ (get_buf_eq i s2 x Hx)), Hdat.
    rewrite (bind_ok _ _ _ _ _ (Hr3 : upd_buf j (set_b_data (V lg)) s2 = _)), (bind_ok _ _ _ _ _ Hr4).
    by rewrite (bind_ok _ _ _ _ _ Hr5), (bind_ok _ _ _ _ _ Hr6), (bind_ok _ _ _ _ _ Hr7).
  - eapply solo_outer; [|exact Hso]. congruence.
  - eapply cache_ext; [| |exact Hc7]; [done|]. intros b. unfold insert, fn_insert.
    repeat case_decide; subst; try done; lia.
  - rewrite Hu7, Hu5, Hu4, Hu3, Hu2. revert Hu Hpin. subst n. clear.
    destruct r; intros Hu Hpin; [clear Hpin|specialize (Hpin eq_refl)];
    destruct (Z.eqb_spec (P lg) 0), (Z.eqb_spec (P hm) 0), (Z.eqb_spec (P lg + 1) 1); try lia;
    match goal with |- context [if ?e =? 1 then _ else _] => destruct (Z.eqb_spec e 1) end; lia.
Qed.

(** ** The loops *)

(** Writes, seen in the cache and in its reference counts. *)
Definition view_writes (ws : list write) V : Z → list Z := foldl (λ V w, <[w.1 := w.2]> V) V ws.
Definition drop_pins (n : Z) (ws : list write) P : Z → Z := foldl (λ P w, <[w.1 := P w.1 - n]> P) P ws.

Lemma view_other ws V b : b ∉ ws.*1 → view_writes ws V b = V b.
Proof.
  revert V. induction ws as [|[a x] ws IH]; intros V Hb; [done|]. rewrite fmap_cons in Hb.
  apply not_elem_of_cons in Hb as [Hne Hb]. simpl in *. rewrite IH by done. by rewrite fn_lookup_insert_ne.
Qed.

Lemma view_in ws V b x : NoDup ws.*1 → (b, x) ∈ ws → view_writes ws V b = x.
Proof.
  revert V. induction ws as [|[a y] ws IH]; intros V Hnd Hin; [by apply elem_of_nil in Hin|].
  rewrite fmap_cons in Hnd. apply NoDup_cons in Hnd as [Ha Hnd]. simpl in *.
  apply elem_of_cons in Hin as [He|Hin]; [|by apply IH]. simplify_eq.
  rewrite view_other by done. apply fn_lookup_insert.
Qed.

Lemma drop_other n ws P b : b ∉ ws.*1 → drop_pins n ws P b = P b.
Proof.
  revert P. induction ws as [|[a x] ws IH]; intros P Hb; [done|]. rewrite fmap_cons in Hb.
  apply not_elem_of_cons in Hb as [Hne Hb]. simpl in *. rewrite IH by done. by rewrite fn_lookup_insert_ne.
Qed.

Lemma drop_zero ws P b : drop_pins 0 ws P b = P b.
Proof.
  revert P. induction ws as [|[a x] ws IH]; intros P; [done|]. simpl. rewrite IH.
  unfold insert, fn_insert. case_decide; [subst; lia|done].
Qed.

(** [s] has done the writes [ws] since [s0], and dropped [n] references for each. *)
Definition wrote (n : Z) s0 V P (ws : list write) s : Prop :=
  outer s = outer s0 ∧ disk s = apply_writes ws (disk s0) ∧ dlog s = dlog s0 ++ ws ∧
  at_rest s (view_writes ws V) (drop_pins n ws P).

Lemma wrote_nil n s V P : at_rest s V P → wrote n s V P [] s.
Proof. intros Hr. split; [done|]. split; [done|]. split; [by rewrite app_nil_r|done]. Qed.

Lemma wrote_snoc n s0 V P ws s dst src x s' :
  wrote n s0 V P ws s → copied_to s (view_writes ws V) (drop_pins n ws P) dst src n s' →
  view_writes ws V src = x → wrote n s0 V P (ws ++ [(dst, x)]) s'.
Proof.
  intros (Ho & Hd & Hl & Hr) (Ho' & Hd' & Hl' & Hr') <-. split; [congruence|].
  split; [rewrite Hd', Hd; unfold apply_writes; by rewrite foldl_app|].
  split; [by rewrite Hl', Hl, app_assoc|]. unfold view_writes, drop_pins. by rewrite !foldl_app.
Qed.

(** The log of the device, with [blk] and [n] its in-memory header. *)
Record log_ok (l : log_t) : Prop := {
  lo_dev : l_dev l = d;
  lo_d : 0 ≤ d < 2 ^ 32;
  lo_start : 0 ≤ l_start l;
  lo_end : l_start l + LOGSIZE < 2 ^ 31;
  lo_n : 0 ≤ l_n l ≤ LOGSIZE;
  lo_len : length (l_block l) = 30%nat;
}.

(** The transaction in memory: the blocks of the header, as the cache has them. *)
Definition trans (l : log_t) V : list write :=
  (λ k, (nthZ (l_block l) k, V (nthZ (l_block l) k))) <$> seqZ 0 (l_n l).

Lemma trans_lookup l V k : 0 ≤ k < l_n l →
  trans l V !! Z.to_nat k = Some (nthZ (l_block l) k, V (nthZ (l_block l) k)).
Proof.
  intros Hk. unfold trans. rewrite list_lookup_fmap, lookup_seqZ_lt by lia. simpl. by rewrite Z2Nat.id by lia.
Qed.

Lemma length_trans l V : length (trans l V) = Z.to_nat (l_n l).
Proof. unfold trans. by rewrite length_fmap, length_seqZ. Qed.

Lemma elem_of_trans l V k : 0 ≤ k < l_n l → nthZ (l_block l) k ∈ (trans l V).*1.
Proof.
  intros Hk. apply list_elem_of_fmap. exists (nthZ (l_block l) k, V (nthZ (l_block l) k)). split; [done|].
  eapply list_elem_of_lookup_2. by apply trans_lookup.
Qed.

Lemma outer_log s s' : outer s' = outer s → log s' = log s.
Proof. by intros (_ & _ & _ & ?)%outer_same. Qed.

Lemma write_log_run s V P :
  let l := log s in let tr := trans l V in
  log_ok l → at_rest s V P → trans_ok (l_start l) tr → (∀ b, P b + 1 < 2 ^ 32) →
  ∃ s', write_log s = Ok tt s' ∧ wrote 0 s V P (log_writes (l_start l) tr) s'.
Proof.
  intros l tr Hl Hrest Htr HP. set (lw := log_writes (l_start l) tr).
  assert (Hlw : length lw = Z.to_nat (l_n l)) by (unfold lw, log_writes, tr; by rewrite length_imap, length_trans).
  unfold write_log. rewrite (bind_ok get_log _ s l s eq_refl).
  destruct (for_each_seqZ (λ k s', wrote 0 s V P (take (Z.to_nat k) lw) s') (λ tail,
    l ← get_log;
    to ← bread (u32 (l_dev l)) (u32 (l_start l + tail + 1));
    from ← bread (u32 (l_dev l)) (u32 (nthZ (l_block l) tail));
    fb ← get_buf from;
    upd_buf to (set_b_data (b_data fb));;
    bwrite to;;
    brelse from;;
    brelse to;;
    mret (None : option unit)) (l_n l) s) as (s' & Hrun & Hw); [apply Hl|by apply wrote_nil| |].
  - intros k s1 Hk Hw. pose proof Hw as (Ho & _ & _ & Hr1). destruct Hl as [Hdev Hd Hst Hend Hn _].
    pose proof (elem_of_trans l V k Hk) as Hin. fold tr in Hin.
    pose proof (tk_home _ _ Htr _ Hin) as Hhome. pose proof (tk_range _ _ Htr _ Hin) as Hrange.
    assert (Hlk : lw !! Z.to_nat k = Some (log_block (l_start l) k, V (nthZ (l_block l) k))).
    { unfold lw, log_writes. rewrite list_lookup_imap. unfold tr. rewrite trans_lookup by done. simpl.
      by rewrite Z2Nat.id by lia. }
    assert (Hnl : nthZ (l_block l) k ∉ (take (Z.to_nat k) lw).*1).
    { rewrite fmap_take. intros (i & Hi & _)%elem_of_take.
      apply list_elem_of_lookup_2 in Hi. by apply (log_writes_not_home _ _ _ Htr) in Hi as [? _]. }
    destruct (write_log_round s1 _ _ (log_block (l_start l) k) (nthZ (l_block l) k) Hr1) as (s2 & Hrun & Hcp).
    { intros He. apply Hhome. rewrite <- He. unfold log_block. lia. }
    { by rewrite drop_zero. } { by rewrite drop_zero. }
    exists s2. split.
    + unfold get_log. rewrite bind_gets. rewrite (outer_log _ _ Ho). fold l. rewrite Hdev, !u32_small by lia. exact Hrun.
    + replace (Z.to_nat (k + 1)) with (S (Z.to_nat k)) by lia. rewrite (take_S_r _ _ _ Hlk).
      eapply wrote_snoc; [exact Hw|exact Hcp|]. by apply view_other.
  - exists s'. rewrite (bind_ok _ _ _ _ _ Hrun). split; [done|]. by rewrite take_ge in Hw by lia.
Qed.

Definition installing (l : log_t) V : list write :=
  (λ k, (u32 (nthZ (l_block l) k), V (log_block (l_start l) k))) <$> seqZ 0 (l_n l).

Lemma drop_pins_le n ws P b : 0 ≤ n → drop_pins n ws P b ≤ P b.
Proof.
  intros Hn. revert P. induction ws as [|[a x] ws IH]; intros P; [done|]. simpl. etransitivity; [apply IH|].
  unfold insert, fn_insert. case_decide; [subst; lia|done].
Qed.

Lemma NoDup_take_lookup {A} (l : list A) k x : NoDup l → l !! k = Some x → x ∉ take k l.
Proof.
  intros Hnd Hx (j & Hj & Hlt)%elem_of_take. pose proof (NoDup_lookup _ _ _ _ Hnd Hx Hj). lia.
Qed.

Lemma install_run (r : bool) s V P :
  let l := log s in let ins := installing l V in let n := if r then 0 else 1 in
  log_ok l → at_rest s V P → (∀ b, b ∈ ins.*1 → home (l_start l) b) → (∀ b, P b + 1 < 2 ^ 32) →
  (r = false → NoDup ins.*1 ∧ ∀ b, b ∈ ins.*1 → 1 ≤ P b) →
  ∃ s', install_trans r s = Ok tt s' ∧ wrote n s V P ins s'.
Proof.
  intros l ins n Hl Hrest Hhome HP Hpin. assert (Hn0 : 0 ≤ n) by (unfold n; destruct r; lia).
  assert (Hlen : length ins = Z.to_nat (l_n l)) by (unfold ins, installing; by rewrite length_fmap, length_seqZ).
  unfold install_trans. rewrite (bind_ok get_log _ s l s eq_refl).
  destruct (for_each_seqZ (λ k s', wrote n s V P (take (Z.to_nat k) ins) s') (λ tail,
    l ← get_log;
    lbuf ← bread (u32 (l_dev l)) (u32 (l_start l + tail + 1));
    dbuf ← bread (u32 (l_dev l)) (u32 (nthZ (l_block l) tail));
    lb ← get_buf lbuf;
    upd_buf dbuf (set_b_data (b_data lb));;
    bwrite dbuf;;
    when (negb r) (bunpin dbuf);;
    brelse lbuf;;
    brelse dbuf;;
    mret (None : option unit)) (l_n l) s) as (s' & Hrun & Hw); [apply Hl|by apply wrote_nil| |].
  - intros k s1 Hk Hw. pose proof Hw as (Ho & _ & _ & Hr1). destruct Hl as [Hdev Hd Hst Hend Hn _].
    set (hm := u32 (nthZ (l_block l) k)). set (lg := log_block (l_start l) k).
    assert (Hlk : ins !! Z.to_nat k = Some (hm, V lg)).
    { unfold ins, installing. rewrite list_lookup_fmap, lookup_seqZ_lt by lia. simpl. by rewrite Z2Nat.id by lia. }
    assert (Hhm : home (l_start l) hm).
    { apply Hhome, list_elem_of_fmap. exists (hm, V lg). split; [done|]. by eapply list_elem_of_lookup_2. }
    assert (Hlg : ¬ home (l_start l) lg) by (unfold home, lg, log_block; lia).
    assert (Hnl : lg ∉ (take (Z.to_nat k) ins).*1).
    { rewrite fmap_take. intros (i & Hi & _)%elem_of_take. by apply list_elem_of_lookup_2, Hhome in Hi. }
    destruct (install_round r s1 _ _ hm lg Hr1) as (s2 & Hrun & Hcp).
    { intros He. rewrite He in Hlg. done. }
    { by rewrite drop_other. } { pose proof (drop_pins_le n (take (Z.to_nat k) ins) P hm Hn0). specialize (HP hm). lia. }
    { intros Hr. destruct (Hpin Hr) as [Hnd Hp]. rewrite drop_other.
      - apply Hp, list_elem_of_fmap. exists (hm, V lg). split; [done|]. by eapply list_elem_of_lookup_2.
      - rewrite fmap_take. apply NoDup_take_lookup; [done|]. by rewrite list_lookup_fmap, Hlk. }
    exists s2. split.
    + unfold get_log. rewrite bind_gets. rewrite (outer_log _ _ Ho). fold l.
      rewrite Hdev, (u32_small d), (u32_small (l_start l + k + 1)) by lia. exact Hrun.
    + replace (Z.to_nat (k + 1)) with (S (Z.to_nat k)) by lia. rewrite (take_S_r _ _ _ Hlk).
      eapply wrote_snoc; [exact Hw|exact Hcp|]. by apply view_other.
  - exists s'. rewrite (bind_ok _ _ _ _ _ Hrun). split; [done|]. by rewrite take_ge in Hw by lia.
Qed.

(** The loop of write_head(), in the buffer [i] of the header block. *)
Lemma fill_header i s V P st :
  let l := log s in let h := put_header (V st) (l_block l) (l_n l) in
  0 ≤ l_n l → cache d pid s V P (<[st := i]> ∅) →
  ∃ s1 s', upd_buf i (λ x, set_b_data (put_word (b_data x) 0 (l_n l)) x) s = Ok tt s1 ∧
    for_each (seqZ 0 (l_n l)) (λ k,
      l ← get_log;
      upd_buf i (λ x, set_b_data (put_word (b_data x) (1 + k) (nthZ (l_block l) k)) x);;
      mret (None : option unit)) s1 = Ok None s' ∧
    outer s' = outer s ∧ disk s' = disk s ∧ dlog s' = dlog s ∧
    cache d pid s' (<[st := h]> V) P (<[st := i]> ∅) ∧ uses (bcore s') = uses (bcore s).
Proof.
  intros l h Hn Hc. assert (Hh : (<[st := i]> (∅ : gmap Z nat)) !! st = Some i) by apply lookup_insert_eq.
  destruct (put_data_spec d pid Hfuel s V _ _ st i (λ x, put_word x 0 (l_n l)) Hc Hh)
    as (s2 & Hr2 & Ho2 & Hd2 & Hl2 & Hc2 & Hu2).
  set (hk := λ k : Z, foldl (λ x i, put_word x (1 + i) (nthZ (l_block l) i)) (put_word (V st) 0 (l_n l)) (seqZ 0 k)).
  exists s2. destruct (for_each_seqZ (λ k s', outer s' = outer s ∧ disk s' = disk s ∧
    dlog s' = dlog s ∧ cache d pid s' (<[st := hk k]> V) P (<[st := i]> ∅) ∧ uses (bcore s') = uses (bcore s)) (λ k,
      l ← get_log;
      upd_buf i (λ x, set_b_data (put_word (b_data x) (1 + k) (nthZ (l_block l) k)) x);;
      mret (None : option unit)) (l_n l) s2) as (s' & Hr' & HI); [lia|done| |by exists s'].
  intros k s' Hk (Ho & Hdk & Hdl & Hc' & Hu').
  destruct (put_data_spec d pid Hfuel s' _ _ _ st i (λ x, put_word x (1 + k) (nthZ (l_block l) k)) Hc' Hh)
    as (s'' & Hr & Ho'' & Hd'' & Hl'' & Hc'' & Hu'').
  exists s''. split; [|do 3 (split; [congruence|]); split; [|congruence]].
  - unfold get_log. rewrite bind_gets, (outer_log _ _ Ho). fold l. by rewrite (bind_ok _ _ _ _ _ Hr).
  - eapply cache_ext; [| |exact Hc'']; [|done]. intros b. unfold hk. rewrite seqZ_app, foldl_app by lia.
    change (seqZ (0 + k) 1) with [0 + (0 + k)]. cbn [foldl]. rewrite !Z.add_0_l, fn_lookup_insert.
    unfold insert, fn_insert. by case_decide.
Qed.

(** write_head() writes the header in memory to the header block. *)
Lemma write_head_run s V P :
  let l := log s in let h := put_header (V (l_start l)) (l_block l) (l_n l) in
  log_ok l → at_rest s V P → P (l_start l) + 1 < 2 ^ 32 →
  ∃ s', write_head s = Ok tt s' ∧ wrote 0 s V P [(l_start l, h)] s'.
Proof.
  intros l h Hl (Hso & Hca & Hu) HP. pose proof Hl as [Hdev Hd Hst Hend Hn _]. set (st := l_start l) in *.
  destruct (bread_spec d me pid Hfuel s V P ∅ st Hso Hca) as (i & s1 & Hr1 & Ho1 & Hd1 & Hl1 & Hc1 & Hu1);
    [apply lookup_empty|done|lia|].
  destruct (fill_header i s1 V _ st ltac:(rewrite (outer_log _ _ Ho1); fold l; lia) Hc1)
    as (s2 & s3 & Hr2 & Hr3 & Ho3 & Hd3 & Hl3 & Hc3 & Hu3).
  rewrite (outer_log _ _ Ho1) in Hr2, Hr3, Hc3. fold l h in Hr2, Hr3, Hc3.
  assert (Hh : (<[st := i]> (∅ : gmap Z nat)) !! st = Some i) by apply lookup_insert_eq.
  assert (Hso3 : solo me pid s3) by (eapply solo_outer; [|exact Hso]; congruence).
  destruct (bwrite_spec d me pid Hfuel s3 _ _ _ st i Hso3 Hc3 Hh) as (s4 & Hr4 & Ho4 & Hd4 & Hl4 & Hc4 & Hu4).
  rewrite fn_lookup_insert in Hd4, Hl4. pose proof (solo_outer _ _ _ _ Ho4 Hso3) as Hso4.
  destruct (brelse_spec d me pid Hfuel s4 _ _ _ st i Hso4 Hc4 Hh) as (s5 & Hr5 & Ho5 & Hd5 & Hl5 & Hc5 & Hu5).
  { intros _. by rewrite fn_lookup_insert, Hd4, block_insert, decide_True. }
  rewrite delete_insert_id in Hc5 by apply lookup_empty. rewrite fn_lookup_insert in Hc5, Hu5.
  exists s5. split; [|split; [congruence|split; [|split; [congruence|split; [|split]]]]].
  - unfold write_head. rewrite (bind_ok get_log _ s l s eq_refl). fold st. rewrite Hdev, !u32_small by lia.
    rewrite (bind_ok _ _ _ _ _ Hr1), (bind_ok _ _ _ _ _ Hr2), (bind_ok _ _ _ _ _ Hr3).
    by rewrite (bind_ok _ _ _ _ _ Hr4).
  - rewrite Hd5, Hd4, Hd3, Hd1. done.
  - eapply solo_outer; [|exact Hso]. congruence.
  - eapply cache_ext; [| |exact Hc5]; [done|]. intros b. rewrite drop_zero. unfold insert, fn_insert.
    repeat case_decide; subst; try done; lia.
  - rewrite Hu5, Hu4, Hu3, Hu1. destruct (Z.eqb_spec (P st) 0), (Z.eqb_spec (P st + 1) 1); lia.
Qed.

(** ** commit() *)
Lemma at_rest_log s V P l : at_rest s V P → at_rest (set_log l s) V P.
Proof.
  intros (Hso & [[L Hl] Hc] & Hu). split; [by eapply solo_same, Hso|]. split; [|done].
  split; [|done]. exists L. by apply (lru_same s).
Qed.

Lemma at_rest_ext s V V' P P' :
  (∀ b, V' b = V b) → (∀ b, P' b = P b) → at_rest s V P → at_rest s V' P'.
Proof. intros HV HP (Hso & Hc & Hu). split; [done|]. split; [|done]. by eapply cache_ext. Qed.

(** Once the log and its header are written, install_trans() is about to write
    the transaction home. *)
Lemma installing_trans l V h :
  log_ok l → trans_ok (l_start l) (trans l V) →
  installing l (<[l_start l := h]> (view_writes (log_writes (l_start l) (trans l V)) V)) = trans l V.
Proof.
  intros Hl Htr. unfold installing. unfold trans at 2. apply list_fmap_ext. intros j k Hj.
  apply lookup_seqZ in Hj as [-> Hj]. assert (Hk : 0 ≤ 0 + Z.of_nat j < l_n l) by lia.
  pose proof (elem_of_trans l V _ Hk) as Hin. pose proof (tk_range _ _ Htr _ Hin).
  rewrite u32_small by lia. f_equal.
  rewrite fn_lookup_insert_ne by (unfold log_block; lia). apply view_in; [apply NoDup_log_writes|].
  apply list_elem_of_lookup. exists j. unfold log_writes. rewrite list_lookup_imap.
  pose proof (trans_lookup l V _ Hk) as Hlk. replace (Z.to_nat (0 + Z.of_nat j)) with j in Hlk by lia.
  rewrite Hlk. simpl. by rewrite Z.add_0_l.
Qed.

Lemma start_not_home st : ¬ home st st.
Proof. unfold home, LOGSIZE, MAXOPBLOCKS. lia. Qed.

Lemma header_for_trans l V data :
  log_ok l → trans_ok (l_start l) (trans l V) → length data = 1024%nat →
  header_for (trans l V) (put_header data (l_block l) (l_n l)).
Proof.
  intros Hl Htr Hlen. destruct (word_put_header data (l_block l) (l_n l)) as (H1 & H2 & H3); [done|apply Hl| |].
  { intros i Hi. pose proof (tk_range _ _ Htr _ (elem_of_trans l V i Hi)). lia. }
  split; [done|]. split; [rewrite length_trans; destruct Hl; lia|].
  intros k w Hk. pose proof (lookup_lt_Some _ _ _ Hk) as Hlt. rewrite length_trans in Hlt.
  rewrite H3 by lia. pose proof (trans_lookup l V (Z.of_nat k) ltac:(lia)) as Hk'.
  rewrite Nat2Z.id in Hk'. by simplify_eq.
Qed.

(** The first half of commit(): the log and the header. *)
Lemma log_written s V P :
  let l := log s in let tr := trans l V in let h := put_header (V (l_start l)) (l_block l) (l_n l) in
  log_ok l → at_rest s V P → trans_ok (l_start l) tr → (∀ b, P b + 1 < 2 ^ 32) →
  ∃ s1 s2, write_log s = Ok tt s1 ∧ write_head s1 = Ok tt s2 ∧ outer s2 = outer s ∧
    dlog s2 = dlog s ++ log_writes (l_start l) tr ++ [(l_start l, h)] ∧
    disk s2 = apply_writes (log_writes (l_start l) tr ++ [(l_start l, h)]) (disk s) ∧
    at_rest s2 (<[l_start l := h]> (view_writes (log_writes (l_start l) tr) V)) P.
Proof.
  intros l tr h Hl Hrest Htr HP. set (st := l_start l) in *. set (lw := log_writes st tr).
  assert (Hst : st ∉ lw.*1) by (intros Hin; by apply (log_writes_not_home _ _ _ Htr) in Hin as [_ ?]).
  destruct (write_log_run s V P Hl Hrest Htr HP) as (s1 & Hr1 & Ho1 & Hd1 & Hdl1 & Hrest1).
  fold l st tr lw in Hd1, Hdl1, Hrest1. pose proof (outer_log _ _ Ho1) as Hlog1. fold l in Hlog1.
  assert (HP1 : ∀ b, drop_pins 0 lw P b = P b) by (intros; apply drop_zero).
  destruct (write_head_run s1 _ _ ltac:(by rewrite Hlog1) Hrest1 ltac:(by rewrite Hlog1, HP1))
    as (s2 & Hr2 & Ho2 & Hd2 & Hdl2 & Hrest2).
  rewrite Hlog1 in Hd2, Hdl2, Hrest2. fold st in Hd2, Hdl2, Hrest2. rewrite (view_other lw V st Hst) in Hd2, Hdl2, Hrest2.
  fold h in Hd2, Hdl2, Hrest2. exists s1, s2. do 2 (split; [done|]). split; [congruence|].
  split; [by rewrite Hdl2, Hdl1, app_assoc|]. split; [by rewrite Hd2, Hd1, apply_writes_app|].
  eapply at_rest_ext; [| |exact Hrest2]; [done|]. intros b. by rewrite drop_zero, HP1.
Qed.

(** The second half: the home locations and the cleared header. *)
Lemma log_installed s V P :
  let l := log s in let tr := installing l V in let st := l_start l in
  log_ok l → at_rest s V P → trans_ok st tr → (∀ b, P b + 1 < 2 ^ 32) → (∀ b, b ∈ tr.*1 → 1 ≤ P b) →
  ∃ s1 s2 V', install_trans false s = Ok tt s1 ∧ write_head (set_log (set_l_n 0 l) s1) = Ok tt s2 ∧
    log s1 = l ∧ outer s2 = outer (set_log (set_l_n 0 l) s) ∧
    dlog s2 = dlog s ++ tr ++ [(st, put_word (V st) 0 0)] ∧
    disk s2 = apply_writes (tr ++ [(st, put_word (V st) 0 0)]) (disk s) ∧
    at_rest s2 V' (drop_pins 1 tr P) ∧ (∀ b, home st b → V' b = view_writes tr V b).
Proof.
  intros l tr st Hl Hrest Htr HP Hpin.
  assert (Hst : st ∉ tr.*1) by (intros Hin%(tk_home _ _ Htr); by apply start_not_home in Hin).
  destruct (install_run false s V P Hl Hrest (tk_home _ _ Htr) HP) as (s1 & Hr1 & Ho1 & Hd1 & Hdl1 & Hrest1).
  { intros _. split; [apply Htr|done]. }
  fold l tr in Hd1, Hdl1, Hrest1. pose proof (outer_log _ _ Ho1) as Hlog1. fold l in Hlog1.
  set (s1' := set_log (set_l_n 0 l) s1). pose proof (at_rest_log _ _ _ (set_l_n 0 l) Hrest1) as Hrest1'.
  assert (Hl0 : log_ok (log s1')) by (destruct Hl; split; simpl; done).
  destruct (write_head_run s1' _ _ Hl0 Hrest1') as (s2 & Hr2 & Ho2 & Hd2 & Hdl2 & Hrest2).
  { pose proof (drop_pins_le 1 tr P (l_start (log s1')) ltac:(lia)). specialize (HP (l_start (log s1'))). lia. }
  change (log s1') with (set_l_n 0 l) in *. simpl l_start in *. simpl l_block in *. simpl l_n in *. fold st in Hd2, Hdl2, Hrest2.
  change (put_header ?x ?b 0) with (put_word x 0 0) in *. rewrite (view_other tr V st Hst) in Hd2, Hdl2, Hrest2.
  eexists s1, s2, _. split; [done|]. split; [done|]. split; [done|]. split; [|split; [|split; [|split]]].
  - rewrite Ho2. apply (f_equal (set_log (set_l_n 0 l))) in Ho1. exact Ho1.
  - rewrite Hdl2. simpl. by rewrite Hdl1, app_assoc.
  - rewrite Hd2. simpl disk. by rewrite Hd1, apply_writes_app.
  - eapply at_rest_ext; [| |exact Hrest2]; [done|]. intros b. by rewrite drop_zero.
  - intros b Hb. simpl. apply fn_lookup_insert_ne. intros ->. by apply start_not_home in Hb.
Qed.

Lemma commit_run s V P :
  let l := log s in let tr := trans l V in let h := put_header (V (l_start l)) (l_block l) (l_n l) in
  0 < l_n l → log_ok l → at_rest s V P → trans_ok (l_start l) tr → (∀ b, P b + 1 < 2 ^ 32) →
  (∀ b, b ∈ tr.*1 → 1 ≤ P b) →
  ∃ s' V', commit s = Ok tt s' ∧ outer s' = outer (set_log (set_l_n 0 l) s) ∧
    dlog s' = dlog s ++ commit_writes (l_start l) tr h ∧
    disk s' = apply_writes (commit_writes (l_start l) tr h) (disk s) ∧
    at_rest s' V' (drop_pins 1 tr P) ∧ (∀ b, home (l_start l) b → V' b = V b).
Proof.
  intros l tr h Hn Hl Hrest Htr HP Hpin. set (st := l_start l) in *. set (lw := log_writes st tr).
  destruct (log_written s V P Hl Hrest Htr HP) as (s1 & s2 & Hr1 & Hr2 & Ho2 & Hdl2 & Hd2 & Hrest2).
  fold l tr st lw h in Hdl2, Hd2, Hrest2. pose proof (outer_log _ _ Ho2) as Hlog2. fold l in Hlog2.
  set (V2 := <[st := h]> (view_writes lw V)) in *.
  assert (Hins : installing (log s2) V2 = tr) by (rewrite Hlog2; by apply installing_trans).
  destruct (log_installed s2 V2 P) as (s3 & s4 & V' & Hr3 & Hr4 & Hlog3 & Ho4 & Hdl4 & Hd4 & Hrest4 & HV');
    [by rewrite Hlog2|done|by rewrite Hins, Hlog2|done|by rewrite Hins|].
  rewrite Hins in Hdl4, Hd4, Hrest4, HV'. rewrite Hlog2 in *. fold st in Hdl4, Hd4, HV'.
  assert (HV2 : V2 st = h) by apply fn_lookup_insert. rewrite HV2 in Hdl4, Hd4.
  exists s4, V'. split; [|split; [|split; [|split; [|split; [done|]]]]].
  - unfold commit. rewrite (bind_ok get_log _ s l s eq_refl). rewrite (proj2 (Z.ltb_lt _ _)) by done. cbn [when].
    rewrite (bind_ok _ _ _ _ _ Hr1), (bind_ok _ _ _ _ _ Hr2), (bind_ok _ _ _ _ _ Hr3). unfold upd_log.
    rewrite bind_modify, Hlog3. exact Hr4.
  - rewrite Ho4. apply (f_equal (set_log (set_l_n 0 l))) in Ho2. exact Ho2.
  - rewrite Hdl4, Hdl2. unfold commit_writes. by rewrite <- !app_assoc.
  - rewrite Hd4, Hd2, <- apply_writes_app. unfold commit_writes. by rewrite <- !app_assoc.
  - intros b Hb. rewrite HV' by done. destruct (decide (b ∈ tr.*1)) as [Hin|Hout].
    + apply list_elem_of_fmap in Hin as ([b' x] & -> & Hin). pose proof Hin as (k & Hk & _)%list_elem_of_fmap.
      simplify_eq/=. apply view_in; [apply Htr|done].
    + rewrite view_other by done. unfold V2. rewrite fn_lookup_insert_ne.
      * apply view_other. intros Hin%(log_writes_not_home _ _ _ Htr). tauto.
      * intros ->. by apply start_not_home in Hb.
Qed.

(** ** Recovery *)

(** read_head() loads the header block into memory. *)
Lemma read_head_run s V P :
  let l := log s in let st := l_start l in let n := word (V st) 0 in
  log_ok (set_l_n n l) → at_rest s V P → P st + 1 < 2 ^ 32 →
  ∃ s' l', read_head s = Ok tt s' ∧ log_ok l' ∧ l_start l' = st ∧ l_n l' = n ∧
    (∀ k, 0 ≤ k < n → nthZ (l_block l') k = word (V st) (1 + k)) ∧
    outer s' = outer (set_log l' s) ∧ disk s' = disk s ∧ dlog s' = dlog s ∧ at_rest s' V P.
Proof.
  intros l st n Hl (Hso & Hca & Hu) HP. pose proof Hl as [Hdev Hd Hst Hend Hn Hlen]. simpl in *.
  destruct (bread_spec d me pid Hfuel s V P ∅ st Hso Hca) as (i & s1 & Hr1 & Ho1 & Hd1 & Hl1 & Hc1 & Hu1);
    [apply lookup_empty|done|lia|].
  assert (Hh : (<[st := i]> (∅ : gmap Z nat)) !! st = Some i) by apply lookup_insert_eq.
  destruct (cache_held d pid Hfuel _ _ _ _ _ _ Hc1 Hh) as (x & Hx & _ & _ & _ & _ & Hdat & _).
  pose proof (outer_log _ _ Ho1) as Hlog1. fold l in Hlog1.
  destruct (for_each_seqZ (λ k s', ∃ B, s' = set_log (set_l_block B (set_l_n n l)) s1 ∧ length B = 30%nat ∧
      ∀ j, 0 ≤ j < k → nthZ B j = word (V st) (1 + j))
    (λ i, upd_log (λ l, set_l_block (updZ (l_block l) i (word (V st) (1 + i))) l);;
      mret (None : option unit)) n (set_log (set_l_n n l) s1)) as (s2 & Hr2 & B & -> & HB & Hw); [lia| | |].
  { exists (l_block l). split; [by destruct s1, l|]. split; [done|]. intros; lia. }
  { intros k s' Hk (B & -> & HB & Hw). eexists. split; [done|]. simpl.
    exists (updZ B k (word (V st) (1 + k))). split; [done|]. split; [by rewrite length_updZ|].
    intros j Hj. destruct (decide (j = k)) as [->|]; unfold LOGSIZE, MAXOPBLOCKS in *.
    - apply nthZ_updZ_eq. lia.
    - rewrite nthZ_updZ_ne by lia. apply Hw. lia. }
  set (l' := set_l_block B (set_l_n n l)) in *.
  assert (Hc2 : cache d pid (set_log l' s1) V (<[st := P st + 1]> P) (<[st := i]> ∅)).
  { destruct Hc1 as [[L HL] Hc1]. split; [|done]. exists L. by apply (lru_same s1). }
  assert (Hso2 : solo me pid (set_log l' s1)) by (apply (solo_same me pid s1); [done..|]; by eapply solo_outer).
  destruct (brelse_spec d me pid Hfuel _ _ _ _ st i Hso2 Hc2 Hh) as (s3 & Hr3 & Ho3 & Hd3 & Hl3 & Hc3 & Hu3).
  { rewrite fn_lookup_insert. intros HP0. simpl. rewrite Hd1. eapply cache_clean; [exact Hca|]. lia. }
  rewrite delete_insert_id in Hc3 by apply lookup_empty. rewrite fn_lookup_insert in Hc3, Hu3.
  exists s3, l'. split; [|split; [by split|split; [done|split; [done|split; [done|]]]]].
  - unfold read_head. rewrite (bind_ok get_log _ s l s eq_refl). fold st. rewrite Hdev, !u32_small by lia.
    rewrite (bind_ok _ _ _ _ _ Hr1), (bind_ok _ _ _ _ _ (get_buf_eq i s1 x Hx)), Hdat.
    rewrite (bind_ok _ _ s1 tt (set_log (set_l_n n l) s1)) by (unfold upd_log, modify; by rewrite Hlog1).
    rewrite (bind_ok _ _ _ _ _ Hr2). exact Hr3.
  - split; [rewrite Ho3; by apply (f_equal (set_log l')) in Ho1|]. split; [by rewrite Hd3|]. split; [by rewrite Hl3|].
    split; [eapply solo_outer; [exact Ho3|done]|]. split.
    + eapply cache_ext; [| |exact Hc3]; [done|]. intros b. unfold insert, fn_insert.
      repeat case_decide; subst; try done; lia.
    + rewrite Hu3. change (bcore (set_log l' s1)) with (bcore s1). rewrite Hu1.
      destruct (Z.eqb_spec (P st) 0), (Z.eqb_spec (P st + 1) 1); lia.
Qed.

Lemma recover_run s V :
  let l := log s in let st := l_start l in let dk := disk s in
  log_ok (set_l_n (head_n st dk) l) → at_rest s V (λ _, 0) → (∀ b, b ∈ (installs st dk).*1 → home st b) →
  ∃ s' V', recover_from_log s = Ok tt s' ∧ disk s' = recovered st dk ∧ l_n (log s') = 0 ∧
    at_rest s' V' (λ _, 0) ∧ dlog s' = dlog s ++ installs st dk ++ [(st, put_word (block_of dk st) 0 0)].
Proof.
  intros l st dk Hl Hrest Hhome. assert (HV : ∀ b, V b = block_of dk b).
  { intros b. eapply cache_clean; [apply Hrest|done]. }
  destruct (read_head_run s V (λ _, 0)) as (s1 & l1 & Hr1 & Hl1 & Hst1 & Hn1 & Hb1 & Ho1 & Hd1 & Hdl1 & Hrest1).
  { rewrite HV. exact Hl. } { done. } { lia. }
  fold l st in Hst1, Hn1, Hb1. rewrite HV in Hn1, Hb1. pose proof (outer_log _ _ Ho1) as Hlog1. simpl in Hlog1.
  assert (Hins : installing (log s1) V = installs st dk).
  { rewrite Hlog1. unfold installing, installs, head_n. rewrite Hn1, Hst1. apply list_fmap_ext. intros j k Hj.
    apply lookup_seqZ in Hj as [-> Hj]. rewrite Hb1 by lia. rewrite HV. done. }
  destruct (install_run true s1 V (λ _, 0)) as (s2 & Hr2 & Ho2 & Hd2 & Hdl2 & Hrest2).
  { by rewrite Hlog1. } { done. } { by rewrite Hins, Hlog1, Hst1. } { intros; lia. } { done. }
  rewrite Hins in Hd2, Hdl2, Hrest2. pose proof (outer_log _ _ Ho2) as Hlog2. rewrite Hlog1 in Hlog2.
  assert (Hstn : st ∉ (installs st dk).*1) by (intros Hin%Hhome; by apply start_not_home in Hin).
  set (s3 := set_log (set_l_n 0 l1) s2). pose proof (at_rest_log _ _ _ (set_l_n 0 l1) Hrest2) as Hrest3.
  assert (Hl0 : log_ok (log s3)) by (destruct Hl1; split; simpl; done).
  destruct (write_head_run s3 _ _ Hl0 Hrest3) as (s4 & Hr4 & Ho4 & Hd4 & Hdl4 & Hrest4).
  { rewrite drop_zero. lia. }
  change (log s3) with (set_l_n 0 l1) in *. simpl l_start in *. simpl l_block in *. simpl l_n in *.
  rewrite Hst1 in Hd4, Hdl4, Hrest4. change (put_header ?x ?b 0) with (put_word x 0 0) in *.
  rewrite (view_other _ V st Hstn), HV in Hd4, Hdl4, Hrest4. simpl disk in *. simpl dlog in *.
  eexists s4, _. split; [|split; [|split; [|split]]].
  - unfold recover_from_log. rewrite (bind_ok _ _ _ _ _ Hr1), (bind_ok _ _ _ _ _ Hr2).
    rewrite (bind_ok _ _ s2 tt s3) by (unfold upd_log, modify; by rewrite Hlog2). exact Hr4.
  - rewrite Hd4, Hd2, Hd1. fold dk. unfold recovered, replay. by rewrite (apply_other _ dk st Hstn).
  - rewrite (outer_log _ _ Ho4). done.
  - eapply at_rest_ext; [| |exact Hrest4]; [done|]. intros b. by rewrite !drop_zero.
  - by rewrite Hdl4, Hdl2, Hdl1, <- app_assoc.
Qed.
End run.
