(* ===== verification/LogOps.v ===== *)
(** * begin_op(), log_write(), end_op()

    How file-system operations enter a transaction, add blocks to it and leave. *)

From Stdlib Require Import ZArith Lia.
From stdpp Require Import base numbers functions gmap strings countable tactics list.
From S2P Require Import Prelude Machine CString State Spinlock Kalloc Vm VmMap Sched SchedTheory Sleeplock Bio BioList BioCache Log LogTheory LogRun.

(** ** log_write *)

(** The search finds the first entry of the block, or stops at the end. *)
Lemma log_slot_spec block b n i :
  let r := log_slot block b i n in
  i ≤ r ≤ i + Z.of_nat n ∧ (∀ j, i ≤ j < r → u32 (nthZ block j) ≠ b) ∧
  (r < i + Z.of_nat n → u32 (nthZ block r) = b).
Proof.
  revert i. induction n as [|n IH]; intros i; cbn [log_slot].
  { split; [lia|]. split; intros; lia. }
  destruct (Z.eqb_spec (u32 (nthZ block i)) b) as [He|Hne].
  { split; [lia|]. split; [intros; lia|done]. }
  destruct (IH (i + 1)) as (H1 & H2 & H3). split; [lia|]. split.
  - intros j Hj. destruct (decide (j = i)) as [->|]; [done|]. apply H2. lia.
  - intros Hlt. apply H3. lia.
Qed.

Lemma updZ_id l i : 0 ≤ i < Z.of_nat (length l) → updZ l i (nthZ l i) = l.
Proof.
  intros Hi. apply list_eq_nthZ; [by rewrite length_updZ|]. intros j Hj. rewrite length_updZ in Hj.
  destruct (decide (j = i)) as [->|]; [by rewrite nthZ_updZ_eq|by rewrite nthZ_updZ_ne by lia].
Qed.

Lemma bpin_eq `{Env} i s x :
  lock_free LkBcache s → bcache s !! i = Some x → 0 ≤ b_refcnt x + 1 < 2 ^ 32 →
  bpin i s = Ok tt (set_bcache (<[i := set_b_refcnt (b_refcnt x + 1) x]> (bcache s)) s).
Proof.
  intros [Hc Hl] Hx Hr. unfold bpin. rewrite (bind_ok _ _ _ _ _ (acquire_eq LkBcache s Hl)).
  rewrite (bind_ok _ _ _ _ _ (upd_buf_eq i _ (hold LkBcache s) x Hx)), u32_small by done.
  rewrite (release_eq LkBcache s) by done. by destruct s.
Qed.

(** The blocks already in the transaction. *)
Definition logged (l : log_t) : list Z := take (Z.to_nat (l_n l)) (l_block l).

Record entries_ok (l : log_t) : Prop := {
  en_n : 0 ≤ l_n l;
  en_len : length (l_block l) = 30%nat;
  en_range : ∀ b, b ∈ l_block l → 0 ≤ b < 2 ^ 31;
}.

Lemma entries_nthZ l k : entries_ok l → 0 ≤ k < 30 → 0 ≤ nthZ (l_block l) k < 2 ^ 31.
Proof. intros [_ Hlen Hr] Hk. apply Hr. unfold nthZ. apply list_elem_of_In, nth_In. lia. Qed.

(** The slot log_write() finds is that of the block, or the next free one. *)
Lemma log_slot_logged l b :
  entries_ok l → l_n l < 30 → 0 ≤ b < 2 ^ 31 →
  let r := log_slot (l_block l) b 0 (Z.to_nat (l_n l)) in
  if decide (b ∈ logged l) then 0 ≤ r < l_n l ∧ nthZ (l_block l) r = b else r = l_n l.
Proof.
  intros Hen Hn Hb r. destruct (log_slot_spec (l_block l) b (Z.to_nat (l_n l)) 0) as (H1 & H2 & H3). fold r in H1, H2, H3.
  pose proof Hen as [Hn0 Hlen _]. rewrite Z2Nat.id, Z.add_0_l in * by done.
  assert (Hw : ∀ k, 0 ≤ k < l_n l → u32 (nthZ (l_block l) k) = nthZ (l_block l) k).
  { intros k Hk. pose proof (entries_nthZ l k Hen ltac:(lia)). apply u32_small. lia. }
  assert (Hin : b ∈ logged l ↔ ∃ k, 0 ≤ k < l_n l ∧ nthZ (l_block l) k = b).
  { unfold logged. rewrite elem_of_take. split.
    - intros (k & Hk & Hlt). exists (Z.of_nat k). split; [lia|]. unfold nthZ. rewrite Nat2Z.id.
      rewrite nth_lookup, Hk. done.
    - intros (k & Hk & <-). exists (Z.to_nat k). split; [|lia]. unfold nthZ. rewrite nth_lookup.
      destruct (lookup_lt_is_Some_2 (l_block l) (Z.to_nat k) ltac:(lia)) as [v ->]. done. }
  case_decide as Hd.
  - destruct (decide (r < l_n l)) as [Hlt|Hge].
    + split; [lia|]. rewrite <- Hw by lia. by apply H3.
    + exfalso. apply Hin in Hd as (k & Hk & He). apply (H2 k); [lia|]. rewrite Hw; done.
  - destruct (decide (r < l_n l)) as [Hlt|Hge]; [|lia]. destruct Hd. apply Hin. exists r. split; [lia|].
    rewrite <- Hw by lia. by apply H3.
Qed.

Lemma log_write_eq `{Env} me pid s i x :
  let l := log s in let b := b_blockno x in
  solo me pid s → bcache s !! i = Some x → entries_ok l → 0 ≤ b < 2 ^ 31 → 0 ≤ b_refcnt x + 1 < 2 ^ 32 →
  log_write i s =
    if (LOGSIZE <=? l_n l) || (l_size l - 1 <=? l_n l) then Panic "too big a transaction" (hold LkLog s)
    else if l_outstanding l <? 1 then Panic "log_write outside of trans" (hold LkLog s)
    else if decide (b ∈ logged l) then Ok tt s
    else Ok tt (set_log (set_l_n (l_n l + 1) (set_l_block (updZ (l_block l) (l_n l) b) l))
           (set_bcache (<[i := set_b_refcnt (b_refcnt x + 1) x]> (bcache s)) s)).
Proof.
  intros l b [Hp Hc Hl _ _ _] Hx Hen Hb Hr.
  assert (Hlk : locks s !! LkLog = None) by (rewrite Hl; apply lookup_empty).
  unfold log_write. rewrite (bind_ok _ _ _ _ _ (acquire_eq LkLog s Hlk)).
  rewrite (bind_ok get_log _ (hold LkLog s) l (hold LkLog s) eq_refl).
  destruct ((LOGSIZE <=? l_n l) || (l_size l - 1 <=? l_n l)) eqn:Hbig; [done|].
  destruct (l_outstanding l <? 1) eqn:Hout; [done|].
  apply orb_false_elim in Hbig as [Hbig%Z.leb_gt _]. unfold LOGSIZE, MAXOPBLOCKS in Hbig.
  rewrite (bind_ok _ _ _ _ _ (get_buf_eq i (hold LkLog s) x Hx)). fold b.
  pose proof (log_slot_logged l b Hen ltac:(lia) Hb) as Hslot. set (r := log_slot _ _ _ _) in *.
  assert (Hs32 : s32 b = b) by (apply s32_small; lia). rewrite Hs32.
  set (s1 := set_log (set_l_block (updZ (l_block l) r b) l) (hold LkLog s)).
  rewrite (bind_ok _ _ _ tt s1) by done.
  case_decide as Hin.
  - destruct Hslot as [Hr0 Hrb]. rewrite (proj2 (Z.eqb_neq r (l_n l))) by lia. cbn [when].
    rewrite (bind_ok _ _ s1 tt s1) by done. rewrite (release_eq LkLog s) by done.
    assert (updZ (l_block l) r b = l_block l) as Hid by (rewrite <- Hrb; apply updZ_id; destruct Hen; lia).
    unfold s1, unhold, hold. rewrite Hid. f_equal. unfold l. destruct s as [? ? ? ? ? ? ? ? ? ? ? ? ? ? ? lg]. by destruct lg.
  - rewrite Hslot, Z.eqb_refl. cbn [when]. erewrite bind_ok.
    2:{ rewrite (bind_ok _ _ s1 tt (set_bcache (<[i := set_b_refcnt (b_refcnt x + 1) x]> (bcache s)) s1)); [done|].
        apply (bpin_eq i s1 x); [|done|done]. split; [by apply cpu_ok_pushed|]. simpl.
        rewrite Hl, lookup_insert_ne by done. apply lookup_empty. }
    rewrite (release_eq LkLog s) by done. unfold s1. rewrite Hslot. by destruct s.
Qed.

(** ** begin_op *)

(** An operation may start: nobody commits and its blocks are sure to fit. *)
Definition may_begin (l : log_t) : bool :=
  negb (l_committing l) && (l_n l + (l_outstanding l + 1) * MAXOPBLOCKS <=? LOGSIZE).

Lemma begin_op_go `{Env} me pid s :
  solo me pid s → (0 < fuel)%nat → may_begin (log s) = true →
  begin_op s = Ok tt (set_log (set_l_outstanding (l_outstanding (log s) + 1) (log s)) s).
Proof.
  intros [Hp Hc Hl _ _ _] Hfuel [Hcm%negb_true_iff Hfit%Z.leb_le]%andb_prop.
  assert (Hlk : locks s !! LkLog = None) by (rewrite Hl; apply lookup_empty).
  unfold begin_op. rewrite (bind_ok _ _ _ _ _ (acquire_eq LkLog s Hlk)).
  destruct fuel as [|f]; [lia|]. rewrite loop_S.
  set (s1 := set_log (set_l_outstanding (l_outstanding (log s) + 1) (log s)) s).
  rewrite (bind_ok _ _ _ (inr tt) s1); [done|].
  rewrite (bind_ok get_log _ (hold LkLog s) (log s) (hold LkLog s) eq_refl), Hcm.
  rewrite (proj2 (Z.ltb_ge _ _)) by lia. unfold upd_log. rewrite bind_modify.
  erewrite bind_ok; [|by apply (release_eq LkLog s)]. unfold s1. by destruct s.
Qed.

Lemma begin_op_wait `{Env} me pid s p :
  solo me pid s → (0 < fuel)%nat → c_noff (cpu s) = 0 → procs s !! me = Some p → may_begin (log s) = false →
  ∃ s1 k, begin_op s = Switch s1 k ∧ log s1 = log s ∧ locks s1 !! LkLog = None ∧
    procs s1 !! me = Some (asleep ChLog p).
Proof.
  intros [Hp Hc Hl _ _ _] Hfuel Hn Hpr Hno.
  assert (Hlk : ∀ lk, locks s !! lk = None) by (intros; rewrite Hl; apply lookup_empty).
  destruct (sleep_eq ChLog LkLog me (hold LkLog s)) as (s1 & k & Hsl & Hs1 & _).
  { split; [done|]. unfold hold, pushed. simpl. by rewrite Hn. } { simpl. by rewrite lookup_insert_eq. }
  { simpl. by rewrite lookup_insert_ne. } { by eapply lookup_lt_Some. }
  destruct fuel as [|f] eqn:Hfu; [lia|]. eexists s1, _. split; [|subst s1; simpl; split; [done|split]].
  - unfold begin_op. rewrite (bind_ok _ _ _ _ _ (acquire_eq LkLog s (Hlk LkLog))), Hfu, loop_S. apply bind_switch.
    rewrite (bind_ok get_log _ (hold LkLog s) (log s) (hold LkLog s) eq_refl).
    unfold may_begin in Hno. destruct (l_committing (log s)); [apply bind_switch, Hsl|]. simpl in Hno.
    apply Z.leb_gt in Hno. rewrite (proj2 (Z.ltb_lt _ _)) by lia. apply bind_switch, Hsl.
  - rewrite lookup_insert_ne by done. by rewrite lookup_delete_eq.
  - by rewrite list_lookup_alter_eq, Hpr.
Qed.

(** ** end_op *)

(** Leaving while other operations are in the transaction. *)
Lemma end_op_more `{Env} me pid s :
  solo me pid s → l_committing (log s) = false → 1 < l_outstanding (log s) →
  ∃ ps, end_op s = Ok tt (set_procs ps (set_log (set_l_outstanding (l_outstanding (log s) - 1) (log s)) s)) ∧
    ∀ j, ps !! j = (if decide (j = me) then id else wake (Some ChLog)) <$> procs s !! j.
Proof.
  intros [Hp Hc Hl Hlen _ _] Hcm Hout. assert (Hlk : ∀ lk, locks s !! lk = None) by (intros; rewrite Hl; apply lookup_empty).
  set (l' := set_l_outstanding (l_outstanding (log s) - 1) (log s)). set (s1 := set_log l' (hold LkLog s)).
  destruct (wakeup_eq (Some ChLog) s1) as (ps & Hw & _ & Hps).
  { split; [by apply cpu_ok_pushed|]. intros i Hi _. simpl. by rewrite lookup_insert_ne. } { done. }
  exists ps. split.
  - unfold end_op. rewrite (bind_ok _ _ _ _ _ (acquire_eq LkLog s (Hlk LkLog))).
    rewrite (bind_ok _ _ _ tt s1) by done. rewrite (bind_ok get_log _ s1 l' s1 eq_refl).
    rewrite (Hcm : l_committing l' = false).
    assert (l_outstanding l' =? 0 = false) as -> by (apply Z.eqb_neq; simpl; lia). rewrite (bind_ok _ _ _ _ _ Hw).
    erewrite bind_ok; [|by apply (release_eq LkLog s)]. unfold s1. by destruct s.
  - intros j. rewrite Hps. simpl. rewrite Hp. repeat case_decide; simplify_eq; done.
Qed.

Lemma end_op_committing `{Env} me pid s :
  solo me pid s → l_committing (log s) = true → ∃ s1, end_op s = Panic "log.committing" s1.
Proof.
  intros [Hp Hc Hl Hlen _ _] Hcm. assert (Hlk : locks s !! LkLog = None) by (rewrite Hl; apply lookup_empty).
  set (l' := set_l_outstanding (l_outstanding (log s) - 1) (log s)). set (s1 := set_log l' (hold LkLog s)).
  exists s1. unfold end_op. rewrite (bind_ok _ _ _ _ _ (acquire_eq LkLog s Hlk)).
  rewrite (bind_ok _ _ _ tt s1) by done. rewrite (bind_ok get_log _ s1 l' s1 eq_refl).
  by rewrite (Hcm : l_committing l' = true).
Qed.

(** The last operation out commits: [m] is what commit() does in between. *)
Lemma end_op_last `{Env} me pid s s2 :
  let l := log s in
  solo me pid s → l_committing l = false → l_outstanding l = 1 →
  commit (set_log (set_l_committing true (set_l_outstanding 0 l)) s) = Ok tt s2 → cpu s2 = cpu s → locks s2 = locks s →
  procs s2 = procs s →
  ∃ ps, end_op s = Ok tt (set_procs ps (set_log (set_l_committing false (log s2)) s2)) ∧
    ∀ j, ps !! j = (if decide (j = me) then id else wake (Some ChLog)) <$> procs s !! j.
Proof.
  intros l [Hp Hc Hl Hlen _ _] Hcm Hout Hco Ec El Ep.
  assert (Hlk : ∀ lk, locks s !! lk = None) by (intros; rewrite Hl; apply lookup_empty).
  set (l1 := set_l_outstanding 0 l). set (s1 := set_log l1 (hold LkLog s)).
  assert (Hdec : upd_log (λ l, set_l_outstanding (l_outstanding l - 1) l) (hold LkLog s) = Ok tt s1).
  { unfold upd_log, modify, s1, l1, l in *. cbn [hold log]. change (log (hold LkLog s)) with (log s). by rewrite Hout. }
  set (s3 := set_log (set_l_committing false (log s2)) (hold LkLog s2)).
  destruct (wakeup_eq (Some ChLog) s3) as (ps & Hw & _ & Hps).
  { split; [simpl; rewrite Ec; by apply cpu_ok_pushed|]. intros i Hi _. simpl. rewrite El. by rewrite lookup_insert_ne. }
  { simpl. by rewrite Ep. }
  exists ps. split.
  - unfold end_op. rewrite (bind_ok _ _ _ _ _ (acquire_eq LkLog s (Hlk LkLog))).
    rewrite (bind_ok _ _ _ _ _ Hdec).
    rewrite (bind_ok get_log _ s1 l1 s1 eq_refl). rewrite (Hcm : l_committing l1 = false).
    assert (l_outstanding l1 =? 0 = true) as -> by done. rewrite (bind_ok _ _ s1 tt (set_log (set_l_committing true l1) s1)) by done.
    erewrite bind_ok; [|by apply (release_eq LkLog s)].
    replace (unhold s _) with (set_log (set_l_committing true l1) s) by (by destruct s). cbn [when].
    rewrite (bind_ok _ _ _ _ _ Hco), (bind_ok _ _ _ _ _ (acquire_eq LkLog s2 ltac:(by rewrite El))).
    rewrite (bind_ok _ _ _ tt s3) by done. rewrite (bind_ok _ _ _ _ _ Hw).
    rewrite (release_eq LkLog s2); [by destruct s2|by rewrite Ec|by rewrite El|done|done].
  - intros j. rewrite Hps. simpl. rewrite Ec, Hp, Ep. repeat case_decide; simplify_eq; done.
Qed.
