(* ===== verification/Fs.v ===== *)
(** * kernel/fs.c: blocks, inodes, directories, path names

    In-memory inodes are indices into itable.inode[]. On-disk structures are
    read from and written to the bytes of the buffers that hold them. *)

From Stdlib Require Import ZArith Lia.
From stdpp Require Import base numbers gmap strings countable tactics list.
From S2P Require Import Prelude Machine CString State Spinlock Kalloc Vm Sched Sleeplock Bio Log.

(** ** Bytes of a block *)
Definition ldw (data : list Z) (off : Z) : Z := le_value (slice data off 4).
Definition ldh (data : list Z) (off : Z) : Z := le_value (slice data off 2).

(** kernel/fs.h: struct dinode *)
Record dinode := mkDinode {
  di_type : Z;
  di_major : Z;
  di_minor : Z;
  di_nlink : Z;
  di_size : Z;
  di_addrs : list Z;
}.

Definition decode_dinode (bs : list Z) : dinode :=
  mkDinode (s16 (ldh bs 0)) (s16 (ldh bs 2)) (s16 (ldh bs 4)) (s16 (ldh bs 6)) (ldw bs 8)
    ((λ k, ldw bs (12 + 4 * k)) <$> seqZ 0 (NDIRECT + 1)).

Definition encode_dinode (d : dinode) : list Z :=
  le_bytes 2 (u16 (di_type d)) ++ le_bytes 2 (u16 (di_major d)) ++ le_bytes 2 (u16 (di_minor d)) ++
  le_bytes 2 (u16 (di_nlink d)) ++ le_bytes 4 (di_size d) ++ concat (le_bytes 4 <$> di_addrs d).

(** The dinode of [inum] in its block, and the block with it replaced. *)
Definition get_dinode (data : list Z) (inum : Z) : dinode :=
  decode_dinode (slice data (DINODE_SIZE * (inum mod IPB)) DINODE_SIZE).
Definition put_dinode (data : list Z) (inum : Z) (d : dinode) : list Z :=
  splice data (DINODE_SIZE * (inum mod IPB)) (encode_dinode d).

(** kernel/fs.h: struct dirent *)
Definition de_inum (bs : list Z) : Z := ldh bs 0.
Definition de_name (bs : list Z) : list Z := slice bs 2 DIRSIZ.
Definition mk_dirent (inum : Z) (name : list Z) : list Z := le_bytes 2 (u16 inum) ++ name.

Definition IBLOCK (i : Z) (sb : superblock) : Z := i / IPB + sb_inodestart sb.
Definition BBLOCK (b : Z) (sb : superblock) : Z := b / BPB + sb_bmapstart sb.

(** kernel/fs.h: struct superblock *)
Definition decode_sb (d : list Z) : superblock :=
  mkSb (ldw d 0) (ldw d 4) (ldw d 8) (ldw d 12) (ldw d 16) (ldw d 20) (ldw d 24) (ldw d 28).

Section fs.
Context `{Env}.

(** ** Blocks *)
Definition readsb (dev : Z) : M unit :=
  bp ← bread dev 1;
  b ← get_buf bp;
  modify (set_sb (decode_sb (b_data b)));;
  brelse bp.

Definition fsinit (dev : Z) : M unit :=
  readsb dev;;
  s ← gets sb;
  if negb (sb_magic s =? FSMAGIC) then panic "invalid file system"
  else initlog dev.

Definition bzero (dev bno : Z) : M unit :=
  bp ← bread dev bno;
  upd_buf bp (set_b_data (replicate 1024 0));;
  log_write bp;;
  brelse bp.

(** Bit [bi] of a bitmap block, and the block with it set or cleared. *)
Definition bit_mask (bi : Z) : Z := Z.shiftl 1 (bi mod 8).
Definition bit_free (data : list Z) (bi : Z) : bool := Z.land (nthZ data (bi / 8)) (bit_mask bi) =? 0.
Definition bit_set (data : list Z) (bi : Z) : list Z :=
  updZ data (bi / 8) (u8 (Z.lor (nthZ data (bi / 8)) (bit_mask bi))).
Definition bit_clear (data : list Z) (bi : Z) : list Z :=
  updZ data (bi / 8) (u8 (Z.land (nthZ data (bi / 8)) (Z.lnot (bit_mask bi)))).

(** The body of the inner loop of balloc(): bit [bi] of the bitmap block for
    the blocks from [b] on. *)
Definition balloc_bit (dev : Z) (bp : nat) (b bi : Z) : M (option Z) :=
  x ← get_buf bp;
  if bit_free (b_data x) bi then
    upd_buf bp (set_b_data (bit_set (b_data x) bi));;
    log_write bp;;
    brelse bp;;
    bzero dev (b + bi);;
    mret (Some (b + bi))
  else mret None.

Definition balloc (dev : Z) : M Z :=
  s ← gets sb;
  r ← for_each ((λ k, k * BPB) <$> seqZ 0 ((sb_size s + BPB - 1) / BPB)) (λ b,
    bp ← bread dev (BBLOCK b s);
    r ← for_each (seqZ 0 (Z.min BPB (sb_size s - b))) (balloc_bit dev bp b);
    match r with
    | Some addr => mret (Some addr)
    | None => brelse bp;; mret None
    end);
  match r with
  | Some addr => mret addr
  | None => panic "balloc: out of blocks"
  end.

Definition bfree (dev b : Z) : M unit :=
  s ← gets sb;
  bp ← bread dev (BBLOCK b s);
  x ← get_buf bp;
  let bi := b mod BPB in
  if bit_free (b_data x) bi then panic "freeing free block"
  else
    upd_buf bp (set_b_data (bit_clear (b_data x) bi));;
    log_write bp;;
    brelse bp.

(** ** Inodes *)
Definition inode_ids : list nat := seq 0 NINODE.

Definition iinit : M unit :=
  initlock LkItable;;
  for_each inode_ids (λ i, initsleeplock (SlInode i);; mret (None : option unit));;
  mret tt.

(** One pass over the table: the entry of (dev, inum), or the first empty slot. *)
Fixpoint iget_scan (t : list inode) (dev inum : Z) (i : nat) (empty : option nat) : nat + option nat :=
  match t with
  | [] => inr empty
  | ip :: t =>
      if (0 <? i_ref ip) && (i_dev ip =? dev) && (i_inum ip =? inum) then inl i
      else
        let empty := match empty with None => if i_ref ip =? 0 then Some i else None | _ => empty end in
        iget_scan t dev inum (S i) empty
  end.

Definition iget (dev inum : Z) : M nat :=
  acquire LkItable;;
  t ← gets itable;
  match iget_scan (take NINODE t) dev inum 0 None with
  | inl i =>
      upd_inode i (λ ip, set_i_ref (i_ref ip + 1) ip);;
      release LkItable;;
      mret i
  | inr None => panic "iget: no inodes"
  | inr (Some i) =>
      upd_inode i (λ ip, set_i_valid false (set_i_ref 1 (set_i_inum inum (set_i_dev dev ip))));;
      release LkItable;;
      mret i
  end.

Definition ialloc (dev type : Z) : M nat :=
  s ← gets sb;
  r ← for_each (seqZ 1 (sb_ninodes s - 1)) (λ inum,
    bp ← bread dev (IBLOCK inum s);
    b ← get_buf bp;
    if di_type (get_dinode (b_data b) inum) =? 0 then
      upd_buf bp (set_b_data (put_dinode (b_data b) inum (mkDinode type 0 0 0 0 (replicate 13 0))));;
      log_write bp;;
      brelse bp;;
      i ← iget dev inum;
      mret (Some i)
    else brelse bp;; mret None);
  match r with
  | Some i => mret i
  | None => panic "ialloc: no inodes"
  end.

Definition iupdate (i : nat) : M unit :=
  s ← gets sb;
  ip ← get_inode i;
  bp ← bread (i_dev ip) (IBLOCK (i_inum ip) s);
  upd_buf bp (λ b, set_b_data (put_dinode (b_data b) (i_inum ip)
    (mkDinode (i_type ip) (i_major ip) (i_minor ip) (i_nlink ip) (i_size ip) (i_addrs ip))) b);;
  log_write bp;;
  brelse bp.

Definition idup (i : nat) : M nat :=
  acquire LkItable;;
  upd_inode i (λ ip, set_i_ref (i_ref ip + 1) ip);;
  release LkItable;;
  mret i.

Definition ilock (i : nat) : M unit :=
  ip ← get_inode i;
  if i_ref ip <? 1 then panic "ilock"
  else
    acquiresleep (SlInode i);;
    ip ← get_inode i;
    if i_valid ip then mret tt
    else
      s ← gets sb;
      bp ← bread (i_dev ip) (IBLOCK (i_inum ip) s);
      b ← get_buf bp;
      let d := get_dinode (b_data b) (i_inum ip) in
      upd_inode i (λ ip, set_i_addrs (di_addrs d) (set_i_size (di_size d) (set_i_nlink (di_nlink d)
        (set_i_minor (di_minor d) (set_i_major (di_major d) (set_i_type (di_type d) ip))))));;
      brelse bp;;
      upd_inode i (set_i_valid true);;
      if di_type d =? 0 then panic "ilock: no type" else mret tt.

Definition iunlock (i : nat) : M unit :=
  h ← holdingsleep (SlInode i);
  ip ← get_inode i;
  if negb h || (i_ref ip <? 1) then panic "iunlock"
  else releasesleep (SlInode i).

Definition itrunc (i : nat) : M unit :=
  for_each (seqZ 0 NDIRECT) (λ k,
    ip ← get_inode i;
    when (negb (nthZ (i_addrs ip) k =? 0))
      (bfree (i_dev ip) (nthZ (i_addrs ip) k);;
       upd_inode i (λ ip, set_i_addrs (updZ (i_addrs ip) k 0) ip));;
    mret (None : option unit));;
  ip ← get_inode i;
  let ind := nthZ (i_addrs ip) NDIRECT in
  when (negb (ind =? 0))
    (bp ← bread (i_dev ip) ind;
     for_each (seqZ 0 NINDIRECT) (λ j,
       b ← get_buf bp;
       when (negb (ldw (b_data b) (4 * j) =? 0)) (bfree (i_dev ip) (ldw (b_data b) (4 * j)));;
       mret (None : option unit));;
     brelse bp;;
     bfree (i_dev ip) ind;;
     upd_inode i (λ ip, set_i_addrs (updZ (i_addrs ip) NDIRECT 0) ip));;
  upd_inode i (set_i_size 0);;
  iupdate i.

Definition iput (i : nat) : M unit :=
  acquire LkItable;;
  ip ← get_inode i;
  when ((i_ref ip =? 1) && i_valid ip && (i_nlink ip =? 0))
    (acquiresleep (SlInode i);;
     release LkItable;;
     itrunc i;;
     upd_inode i (set_i_type 0);;
     iupdate i;;
     upd_inode i (set_i_valid false);;
     releasesleep (SlInode i);;
     acquire LkItable);;
  upd_inode i (λ ip, set_i_ref (i_ref ip - 1) ip);;
  release LkItable.

Definition iunlockput (i : nat) : M unit := iunlock i;; iput i.

(** ** Inode content *)
Definition bmap (i : nat) (bn : Z) : M Z :=
  ip ← get_inode i;
  if bn <? NDIRECT then
    let addr := nthZ (i_addrs ip) bn in
    if addr =? 0 then
      addr ← balloc (i_dev ip);
      upd_inode i (λ ip, set_i_addrs (updZ (i_addrs ip) bn addr) ip);;
      mret addr
    else mret addr
  else
    let bn := bn - NDIRECT in
    if bn <? NINDIRECT then
      let ind := nthZ (i_addrs ip) NDIRECT in
      ind ← (if ind =? 0 then
               addr ← balloc (i_dev ip);
               upd_inode i (λ ip, set_i_addrs (updZ (i_addrs ip) NDIRECT addr) ip);;
               mret addr
             else mret ind);
      bp ← bread (i_dev ip) ind;
      b ← get_buf bp;
      let addr := ldw (b_data b) (4 * bn) in
      addr ← (if addr =? 0 then
                addr ← balloc (i_dev ip);
                upd_buf bp (λ b, set_b_data (splice (b_data b) (4 * bn) (le_bytes 4 addr)) b);;
                log_write bp;;
                mret addr
              else mret addr);
      brelse bp;;
      mret addr
    else panic "bmap: out of range".

(** stati() fills a struct stat; its fields in order. *)
Definition stati (i : nat) : M (Z * Z * Z * Z * Z) :=
  ip ← get_inode i;
  mret (s32 (i_dev ip), i_inum ip, i_type ip, i_nlink ip, i_size ip).

(** The loop of readi(): (tot, off, dst, bytes for a local destination). *)
Definition readi_body (i : nat) (n : Z) (x : Z * Z * place * list Z) :
    M ((Z * Z * place * list Z) + (Z * list Z)) :=
  let '(tot, off, dst, acc) := x in
  if negb (tot <? n) then mret (inr (tot, acc))
  else
    ip ← get_inode i;
    a ← bmap i (off / BSIZE);
    bp ← bread (i_dev ip) a;
    let m := Z.min (n - tot) (BSIZE - off mod BSIZE) in
    b ← get_buf bp;
    r ← either_copyout dst (slice (b_data b) (off mod BSIZE) m);
    let '(code, bs) := r in
    brelse bp;;
    if code =? -1 then mret (inr (-1, acc))
    else mret (inl (tot + m, off + m, advance dst m, acc ++ bs)).

(** The result is the return value with the bytes for a local destination. *)
Definition readi (i : nat) (dst : place) (off n : Z) : M (Z * list Z) :=
  ip ← get_inode i;
  if (i_size ip <? off) || (u32 (off + n) <? off) then mret (0, [])
  else
    let n := if i_size ip <? off + n then i_size ip - off else n in
    loop (S (S (Z.to_nat (n / BSIZE + 1)))) (readi_body i n) (0, off, dst, []).

(** The loop of writei(): (tot, off, src). *)
Definition writei_body (i : nat) (n : Z) (x : Z * Z * place) : M ((Z * Z * place) + (Z * Z)) :=
  let '(tot, off, src) := x in
  if negb (tot <? n) then mret (inr (tot, off))
  else
    ip ← get_inode i;
    a ← bmap i (off / BSIZE);
    bp ← bread (i_dev ip) a;
    let m := Z.min (n - tot) (BSIZE - off mod BSIZE) in
    r ← either_copyin src m;
    let '(code, bs) := r in
    upd_buf bp (λ b, set_b_data (splice (b_data b) (off mod BSIZE) bs) b);;
    if code =? -1 then
      brelse bp;;
      mret (inr (tot, off))
    else
      log_write bp;;
      brelse bp;;
      mret (inl (tot + m, off + m, advance src m)).

Definition writei (i : nat) (src : place) (off n : Z) : M Z :=
  ip ← get_inode i;
  if (i_size ip <? off) || (u32 (off + n) <? off) then mret (-1)
  else if MAXFILE * BSIZE <? off + n then mret (-1)
  else
    r ← loop (S (S (Z.to_nat (n / BSIZE + 1)))) (writei_body i n) (0, off, src);
    let '(tot, off) := r in
    ip ← get_inode i;
    when (i_size ip <? off) (upd_inode i (set_i_size off));;
    iupdate i;;
    mret tot.

(** ** Directories *)
Definition namecmp (s t : list Z) : Z := strncmp s t (Z.to_nat DIRSIZ).

(** The offsets [0, 16, 32, ...] below the size of the directory. *)
Definition dir_offs (size : Z) : list Z :=
  (λ k, k * DIRENT_SIZE) <$> seqZ 0 ((size + DIRENT_SIZE - 1) / DIRENT_SIZE).

(** The inode and the offset of the entry, or [None]. *)
Definition dirlookup (dp : nat) (name : list Z) : M (option (nat * Z)) :=
  d ← get_inode dp;
  if negb (i_type d =? T_DIR) then panic "dirlookup not DIR"
  else
    for_each (dir_offs (i_size d)) (λ off,
      r ← readi dp (Local []) off DIRENT_SIZE;
      let '(code, de) := r in
      if negb (code =? DIRENT_SIZE) then panic "dirlookup read"
      else if de_inum de =? 0 then mret None
      else if namecmp name (de_name de) =? 0 then
        ip ← iget (i_dev d) (de_inum de);
        mret (Some (ip, off))
      else mret None).

Definition dirlink (dp : nat) (name : list Z) (inum : Z) : M Z :=
  r ← dirlookup dp name;
  match r with
  | Some (ip, _) => iput ip;; mret (-1)
  | None =>
      d ← get_inode dp;
      r ← for_each (dir_offs (i_size d)) (λ off,
        r ← readi dp (Local []) off DIRENT_SIZE;
        let '(code, de) := r in
        if negb (code =? DIRENT_SIZE) then panic "dirlink read"
        else if de_inum de =? 0 then mret (Some (off, de_name de))
        else mret None);
      let '(off, old) :=
        match r with
        | Some x => x
        | None => ((i_size d + DIRENT_SIZE - 1) / DIRENT_SIZE * DIRENT_SIZE, replicate 14 0)
        end in
      let de := mk_dirent inum (strncpy old name (Z.to_nat DIRSIZ)) in
      w ← writei dp (Local de) off DIRENT_SIZE;
      if negb (w =? DIRENT_SIZE) then panic "dirlink" else mret 0
  end.

(** ** Paths *)
Definition SLASH : Z := 47.

Fixpoint skip_slashes (path : list Z) : list Z :=
  match path with
  | c :: path' => if c =? SLASH then skip_slashes path' else path
  | [] => []
  end.

(** The characters up to the next slash or the end, and the rest. *)
Fixpoint span_elem (path : list Z) : list Z * list Z :=
  match path with
  | c :: path' =>
      if (c =? SLASH) || (c =? 0) then ([], path)
      else let '(e, r) := span_elem path' in (c :: e, r)
  | [] => ([], [])
  end.

(** [None] when there is no element; otherwise the rest of the path and the
    contents of [name]. *)
Definition skipelem (path name : list Z) : option (list Z * list Z) :=
  let path := skip_slashes path in
  if nthZ path 0 =? 0 then None
  else
    let '(e, rest) := span_elem path in
    let len := Z.of_nat (length e) in
    let name :=
      if DIRSIZ <=? len then splice name 0 (take (Z.to_nat DIRSIZ) e)
      else splice name 0 (e ++ [0]) in
    Some (skip_slashes rest, name).

(** namex() returns the inode and, for its caller, the last element. *)
Definition namex_body (nameiparent : bool) (x : list Z * nat * list Z) :
    M ((list Z * nat * list Z) + (option nat * list Z)) :=
  let '(path, ip, name) := x in
  match skipelem path name with
  | None =>
      if nameiparent then iput ip;; mret (inr (None, name))
      else mret (inr (Some ip, name))
  | Some (path, name) =>
      ilock ip;;
      d ← get_inode ip;
      if negb (i_type d =? T_DIR) then iunlockput ip;; mret (inr (None, name))
      else if nameiparent && (nthZ path 0 =? 0) then
        iunlock ip;;
        mret (inr (Some ip, name))
      else
        r ← dirlookup ip name;
        match r with
        | None => iunlockput ip;; mret (inr (None, name))
        | Some (next, _) => iunlockput ip;; mret (inl (path, next, name))
        end
  end.

Definition namex (path : list Z) (nameiparent : bool) (name : list Z) : M (option nat * list Z) :=
  ip ← (if nthZ path 0 =? SLASH then iget ROOTDEV ROOTINO
        else
          me ← cur;
          p ← get_proc me;
          match p_cwd p with Some i => idup i | None => panic "null pointer" end);
  loop (S (length path)) (namex_body nameiparent) (path, ip, name).

Definition namei (path : list Z) : M (option nat) :=
  r ← namex path false (replicate 14 0);
  mret r.1.

Definition nameiparent (path : list Z) (name : list Z) : M (option nat * list Z) :=
  namex path true name.
End fs.
