(* ===== verification/LogTx.v ===== *)
(** * Block updates inside a transaction

    The pattern of kernel/fs.c: bread(), change the data, log_write(), brelse(),
    between begin_op() and end_op(). *)

From Stdlib Require Import ZArith Lia.
From stdpp Require Import base numbers functions gmap strings countable tactics list.
From S2P Require Import Prelude Machine CString State Spinlock Kalloc Vm VmMap Sched SchedTheory Sleeplock Bio BioList BioCache Log LogTheory LogRun LogOps Fs.

(** The log after log_write() of block [b]. *)
Definition log_add (l : log_t) (b : Z) : log_t :=
  if decide (b ∈ logged l) then l else set_l_n (l_n l + 1) (set_l_block (updZ (l_block l) (l_n l) b) l).

(** A block joins the transaction once, and is pinned when it does. *)
Definition pin_new (l : log_t) (b : Z) (P : Z → Z) : Z → Z :=
  if decide (b ∈ logged l) then P else <[b := P b + 1]> P.

(** There is room for one more block, and a transaction is open. *)
Record tx_open (l : log_t) : Prop := {
  to_entries : entries_ok l;
  to_room : l_n l < LOGSIZE;
  to_size : l_n l < l_size l - 1;
  to_out : 1 ≤ l_outstanding l;
}.

Lemma logged_add l b : tx_open l →
  logged (log_add l b) = if decide (b ∈ logged l) then logged l else logged l ++ [b].
Proof.
  intros [[Hn Hlen _] Hroom _ _]. unfold log_add. case_decide; [done|]. unfold logged. simpl.
  unfold LOGSIZE, MAXOPBLOCKS in Hroom. unfold updZ. replace (Z.to_nat (l_n l + 1)) with (S (Z.to_nat (l_n l))) by lia.
  rewrite (take_S_r _ _ b) by (rewrite list_lookup_insert_eq; [done|lia]).
  by rewrite take_insert_ge by lia.
Qed.

Section tx.
Context `{Env} (d : Z) (me : nat) (pid : Z) (Hfuel : (0 < fuel)%nat).
Implicit Types (V : Z → list Z) (P : Z → Z).

Lemma log_write_spec s V P HH b i :
  solo me pid s → cache d pid s V P HH → HH !! b = Some i → tx_open (log s) → 0 ≤ b < 2 ^ 31 → P b + 1 < 2 ^ 32 →
  ∃ s', log_write i s = Ok tt s' ∧ outer s' = outer (set_log (log_add (log s) b) s) ∧ disk s' = disk s ∧
    dlog s' = dlog s ∧ cache d pid s' V (pin_new (log s) b P) HH ∧ uses (bcore s') = uses (bcore s).
Proof.
  intros Hso Hca Hh [Hen Hroom Hsize Hout] Hb HPb.
  destruct (cache_held d pid Hfuel s V P HH b i Hca Hh) as (x & Hx & Hd & Hbn & Hl & Hv & Hdat & Hr & HP).
  pose proof (log_write_eq me pid s i x Hso Hx Hen ltac:(by rewrite Hbn) ltac:(lia)) as Heq. rewrite Hbn in Heq.
  rewrite (proj2 (Z.leb_gt _ _)), (proj2 (Z.leb_gt (l_size _ - 1) _)), (proj2 (Z.ltb_ge _ _)) in Heq by lia.
  unfold log_add, pin_new. simpl in Heq. case_decide.
  { exists s. split; [done|]. replace (set_log (log s) s) with s by (by destruct s). done. }
  set (x' := set_b_refcnt (b_refcnt x + 1) x) in *.
  destruct (cache_update d pid s V P HH b i x x' (disk s) (dlog s) HH) as [Hca' Hu']; simpl; try done; try lia.
  { left. split; [done|]. split; [lia|]. by rewrite insert_id. }
  rewrite set_same in Hca', Hu'. eexists. split; [exact Heq|]. split; [by destruct s|]. do 2 (split; [done|]). split.
  - destruct Hca' as [[L HL] Hco]. split; [exists L; by eapply lru_same, HL|].
    eapply core_ext; [| |exact Hco]; intros b'; unfold insert, fn_insert, x'; simpl; case_decide; subst; congruence.
  - etransitivity; [exact Hu'|]. simpl. rewrite !(proj2 (Z.eqb_neq _ 0)) by lia. lia.
Qed.

(** The end of an update, of a block that is held. *)
Lemma update_held s V P b i (g : list Z → list Z) :
  solo me pid s → cache d pid s V (<[b := P b + 1]> P) (<[b := i]> ∅) → tx_open (log s) → 0 ≤ b < 2 ^ 31 →
  P b + 2 < 2 ^ 32 → 0 ≤ P b → (b ∈ logged (log s) → 1 ≤ P b) →
  ∃ s', (upd_buf i (λ x, set_b_data (g (b_data x)) x);; log_write i;; brelse i) s = Ok tt s' ∧
    outer s' = outer (set_log (log_add (log s) b) s) ∧ disk s' = disk s ∧ dlog s' = dlog s ∧
    solo me pid s' ∧ cache d pid s' (<[b := g (V b)]> V) (pin_new (log s) b P) ∅ ∧ uses (bcore s') = uses (bcore s).
Proof.
  intros Hso Hc1 Hop Hb HP HPb Hin.
  assert (Hh : (<[b := i]> (∅ : gmap Z nat)) !! b = Some i) by apply lookup_insert_eq.
  destruct (put_data_spec d pid Hfuel s _ _ _ b i g Hc1 Hh) as (s2 & Hr2 & Ho2 & Hd2 & Hl2 & Hc2 & Hu2').
  pose proof (solo_outer me pid s s2 Ho2 Hso) as Hso2.
  assert (Hlog2 : log s2 = log s) by (apply outer_same; congruence).
  destruct (log_write_spec s2 _ _ _ b i Hso2 Hc2 Hh) as (s3 & Hr3 & Ho3 & Hd3 & Hl3 & Hc3 & Hu3);
    [by rewrite Hlog2|done|rewrite fn_lookup_insert; lia|].
  rewrite Hlog2 in *.
  assert (Hout3 : outer s3 = outer (set_log (log_add (log s) b) s)).
  { rewrite Ho3. transitivity (set_log (log_add (log s) b) (outer s2)); [by destruct s2|]. rewrite Ho2. by destruct s. }
  assert (Hso3 : solo me pid s3) by (eapply solo_outer; [exact Hout3|]; by destruct Hso).
  assert (HP3 : 2 ≤ pin_new (log s) b (<[b := P b + 1]> P) b).
  { unfold pin_new. case_decide; rewrite ?fn_lookup_insert; [specialize (Hin ltac:(done))|]; lia. }
  destruct (brelse_spec d me pid Hfuel s3 _ _ _ b i Hso3 Hc3 Hh) as (s4 & Hr4 & Ho4 & Hd4 & Hl4 & Hc4 & Hu4); [lia|].
  exists s4. split; [rewrite (bind_ok _ _ _ _ _ Hr2), (bind_ok _ _ _ _ _ Hr3); exact Hr4|].
  split; [congruence|]. split; [congruence|]. split; [congruence|]. split; [by eapply solo_outer|]. split.
  - rewrite delete_insert_id in Hc4 by apply lookup_empty. eapply cache_ext; [reflexivity| |exact Hc4].
    intros c. unfold pin_new. case_decide; unfold insert, fn_insert; repeat case_decide; subst; lia.
  - rewrite Hu4, Hu3, Hu2'. rewrite (proj2 (Z.eqb_neq _ _)); lia.
Qed.

(** One update of a block. *)
Lemma update_uses s V P b (g : list Z → list Z) :
  at_rest d me pid s V P → uses (bcore s) + 2 < Z.of_nat NBUF → tx_open (log s) → 0 ≤ b < 2 ^ 31 →
  (∀ c, P c + 2 < 2 ^ 32) → 0 ≤ P b → (b ∈ logged (log s) → 1 ≤ P b) →
  ∃ s', (bp ← bread d b; upd_buf bp (λ x, set_b_data (g (b_data x)) x);; log_write bp;; brelse bp) s = Ok tt s' ∧
    outer s' = outer (set_log (log_add (log s) b) s) ∧ disk s' = disk s ∧ dlog s' = dlog s ∧
    at_rest d me pid s' (<[b := g (V b)]> V) (pin_new (log s) b P) ∧ uses (bcore s') ≤ uses (bcore s) + 1.
Proof.
  intros (Hso & Hca & Hu) Hu2 Hop Hb HP HPb Hin. specialize (HP b).
  destruct (bread_spec d me pid Hfuel s V P ∅ b Hso Hca) as (i & s1 & Hr1 & Ho1 & Hd1 & Hl1 & Hc1 & Hu1);
    [apply lookup_empty|lia|lia|].
  assert (Hlog1 : log s1 = log s) by (by apply outer_same).
  destruct (update_held s1 V P b i g) as (s4 & Hr4 & Ho4 & Hd4 & Hl4 & Hso4 & Hc4 & Hu4); rewrite ?Hlog1; try done; try lia.
  { by eapply solo_outer. }
  rewrite Hlog1 in *. exists s4. split; [rewrite (bind_ok _ _ _ _ _ Hr1); exact Hr4|]. split.
  { rewrite Ho4. transitivity (set_log (log_add (log s) b) (outer s1)); [by destruct s1|]. rewrite Ho1. by destruct s. }
  split; [congruence|]. split; [congruence|]. 
  rewrite Hu4, Hu1. split; [|case_match; lia]. split; [done|]. split; [done|]. rewrite Hu4, Hu1. case_match; lia.
Qed.

Lemma update_spec s V P b (g : list Z → list Z) :
  at_rest d me pid s V P → uses (bcore s) + 2 < Z.of_nat NBUF → tx_open (log s) → 0 ≤ b < 2 ^ 31 →
  (∀ c, P c + 2 < 2 ^ 32) → 0 ≤ P b → (b ∈ logged (log s) → 1 ≤ P b) →
  ∃ s', (bp ← bread d b; upd_buf bp (λ x, set_b_data (g (b_data x)) x);; log_write bp;; brelse bp) s = Ok tt s' ∧
    outer s' = outer (set_log (log_add (log s) b) s) ∧ disk s' = disk s ∧ dlog s' = dlog s ∧
    at_rest d me pid s' (<[b := g (V b)]> V) (pin_new (log s) b P).
Proof.
  intros Hrest Hu Hop Hb HP HPb Hin.
  destruct (update_uses s V P b g Hrest Hu Hop Hb HP HPb Hin) as (s' & ? & ? & ? & ? & ? & _). by exists s'.
Qed.

(** ** A whole transaction *)

(** Nothing in use: between two file-system operations. *)
Record quiet (s : kstate) V : Prop := {
  qu_rest : at_rest d me pid s V (λ _, 0);
  qu_log : log_ok d (log s);
  qu_entries : entries_ok (log s);
  qu_n : l_n (log s) = 0;
  qu_out : l_outstanding (log s) = 0;
  qu_committing : l_committing (log s) = false;
  qu_size : 1 < l_size (log s);
}.

Lemma quiet_uses s V : at_rest d me pid s V (λ _, 0) → uses (bcore s) = 0.
Proof.
  intros (_ & [_ Hc] & _). apply count_none. intros x [i Hx]%list_elem_of_lookup. unfold in_use.
  destruct (decide (b_dev x = d)) as [Hd|Hd].
  - by rewrite <- (ca_pins _ _ _ _ _ _ _ Hc i x Hx Hd).
  - by rewrite (ca_other _ _ _ _ _ _ _ Hc i x Hx Hd).
Qed.

(** Waking processes keeps the running one alone with the cache. *)
Lemma solo_woken s ps :
  solo me pid s → (∀ j, ps !! j = (if decide (j = me) then id else wake (Some ChLog)) <$> procs s !! j) →
  solo me pid (set_procs ps s).
Proof.
  intros [Hp Hc Hl Hlen Hpid Hw] Hps. split; simpl; try done.
  - rewrite <- Hlen. apply Nat.le_antisymm.
    + apply Nat.nlt_ge. intros Hlt. destruct (lookup_lt_is_Some_2 ps (length (procs s)) Hlt) as [p Hp'].
      rewrite Hps in Hp'. rewrite lookup_ge_None_2 in Hp' by done. done.
    + apply Nat.nlt_ge. intros Hlt. destruct (lookup_lt_is_Some_2 (procs s) (length ps) Hlt) as [p Hp'].
      pose proof (Hps (length ps)) as Hq. rewrite Hp', lookup_ge_None_2 in Hq by done. done.
  - rewrite <- Hpid, !list_lookup_total_alt, Hps, decide_True by done. by destruct (procs s !! me).
  - intros p i [j Hj]%list_elem_of_lookup. rewrite Hps in Hj. apply fmap_Some in Hj as (q & Hq & ->).
    apply list_elem_of_lookup_2 in Hq. case_decide; [by apply Hw|]. unfold wake.
    case_bool_decide; [done|by apply Hw].
Qed.

Lemma at_rest_woken s V P ps :
  at_rest d me pid s V P → (∀ j, ps !! j = (if decide (j = me) then id else wake (Some ChLog)) <$> procs s !! j) →
  at_rest d me pid (set_procs ps s) V P.
Proof.
  intros (Hso & [[L Hl] Hc] & Hu) Hps. split; [by apply solo_woken|]. split; [|done].
  split; [|done]. exists L. by apply (lru_same s).
Qed.

Lemma trans_one l V b : l_n l = 0 → entries_ok l → trans (log_add l b) V = [(b, V b)].
Proof.
  intros Hn [_ Hlen _]. unfold log_add, logged. rewrite Hn, decide_False by apply not_elem_of_nil.
  unfold trans. simpl. rewrite nthZ_updZ_eq by lia. done.
Qed.

Lemma drop_pin_one b c x : drop_pins 1 [(b, x)] (<[b := 0 + 1]> (λ _, 0)) c = 0.
Proof. unfold drop_pins. simpl. unfold insert, fn_insert. repeat case_decide; subst; try done; lia. Qed.

(** The log with its first block. *)
Lemma log_first l b : l_n l = 0 → log_ok d l → entries_ok l → 0 ≤ b < 2 ^ 31 →
  log_add l b = set_l_n 1 (set_l_block (updZ (l_block l) 0 b) l) ∧ log_ok d (log_add l b) ∧
  entries_ok (set_l_n 0 (log_add l b)) ∧ ∀ P, pin_new l b P = <[b := P b + 1]> P.
Proof.
  intros Hn [Hdev Hd Hst Hend _ Hlen] [_ _ Hr] Hb. unfold log_add, logged, pin_new, logged.
  rewrite Hn, decide_False by apply not_elem_of_nil. split; [done|]. split; [|split; [|done]].
  - split; simpl; rewrite ?length_updZ; done.
  - split; simpl; [done|by rewrite length_updZ|]. intros c Hc. unfold updZ in Hc.
    apply list_elem_of_lookup in Hc as [k Hk]. apply list_insert_inv in Hk as [[_ ->]|[_ Hk]]; [done|]. simpl in Hk.
    by apply Hr, list_elem_of_lookup_2 with k.
Qed.

(** One update as a transaction of its own. *)
Lemma transaction_spec s V b (m : M unit) (g : list Z → list Z) :
  quiet s V → home (l_start (log s)) b → 0 ≤ b < 2 ^ 31 →
  (∀ s1, log s1 = set_l_outstanding 1 (log s) → at_rest d me pid s1 V (λ _, 0) →
    ∃ s2, m s1 = Ok tt s2 ∧ outer s2 = outer (set_log (log_add (log s1) b) s1) ∧ disk s2 = disk s1 ∧
      dlog s2 = dlog s1 ∧ at_rest d me pid s2 (<[b := g (V b)]> V) (pin_new (log s1) b (λ _, 0))) →
  ∃ s' V', (begin_op;; m;; end_op) s = Ok tt s' ∧ quiet s' V' ∧
    (∀ c, home (l_start (log s)) c → block_of (disk s') c = if decide (c = b) then g (V b) else block_of (disk s) c).
Proof.
  intros [Hrest Hlog Hen Hn Hout Hcm Hsz] Hh Hb Hm.
  set (l1 := set_l_outstanding 1 (log s)). set (s1 := set_log l1 s).
  assert (Hbeg : begin_op s = Ok tt s1).
  { rewrite (begin_op_go me pid s); [unfold s1, l1; by rewrite Hout|apply Hrest|done|].
    unfold may_begin. rewrite Hcm, Hn, Hout. done. }
  destruct (Hm s1 eq_refl) as (s2 & Hm2 & Ho2 & Hd2 & Hl2 & Hrest2); [by apply at_rest_log|]. clear Hm.
  assert (Hlog2 : log s2 = log_add l1 b) by (by apply (f_equal log) in Ho2).
  assert (Hlog1 : log_ok d l1) by (by destruct Hlog). assert (Hen1 : entries_ok l1) by (by destruct Hen).
  destruct (log_first l1 b Hn Hlog1 Hen1 Hb) as (Hadd & Hlok & Henok & Hpin).
  set (lc := set_l_committing true (set_l_outstanding 0 (log s2))). set (sc := set_log lc s2).
  change (log s1) with l1 in *. rewrite (Hpin _) in Hrest2.
  assert (Htr : trans lc (<[b := g (V b)]> V) = [(b, g (V b))]).
  { transitivity (trans (log_add l1 b) (<[b := g (V b)]> V)); [unfold lc, trans; by rewrite Hlog2|].
    rewrite trans_one by done. by rewrite fn_lookup_insert. }
  assert (Hlc : lc = set_l_committing true (set_l_outstanding 0 (set_l_n 1 (set_l_block (updZ (l_block l1) 0 b) l1)))).
  { unfold lc. by rewrite Hlog2, Hadd. }
  destruct (commit_run d me pid Hfuel sc (<[b := g (V b)]> V) (<[b := 0 + 1]> (λ _, 0)))
    as (s3 & V3 & Hc3 & Ho3 & Hl3 & Hd3 & Hrest3 & HV3); change (log sc) with lc.
  - by rewrite Hlc.
  - rewrite Hlc. destruct Hlok as [? ? ? ? ? ?]. rewrite Hadd in *. by split.
  - by apply at_rest_log.
  - rewrite Htr. split; simpl; rewrite ?list_to_set_nil; [|apply NoDup_singleton|unfold LOGSIZE, MAXOPBLOCKS; lia|];
      intros c ->%list_elem_of_singleton; [by rewrite Hlog2, Hadd|done].
  - intros c. unfold insert, fn_insert. case_decide; lia.
  - rewrite Htr. intros c ->%list_elem_of_singleton. rewrite fn_lookup_insert. lia.
  - change (log sc) with lc in *. rewrite Htr in Hrest3, Hd3.
    destruct (outer_same _ _ Ho3) as (Ec & El & Ep & Elog3). simpl in Ec, El, Ep, Elog3.
    destruct (end_op_last me pid s2 s3) as (ps & He & Hps); try done; [apply Hrest2|by rewrite Hlog2, Hadd|by rewrite Hlog2, Hadd|].
    assert (Hr3 : at_rest d me pid s3 V3 (λ _, 0)).
    { eapply at_rest_ext; [reflexivity| |exact Hrest3]. intros c. by rewrite drop_pin_one. }
    exists (set_procs ps (set_log (set_l_committing false (log s3)) s3)), V3. split; [|split].
    + rewrite (bind_ok _ _ _ _ _ Hbeg), (bind_ok _ _ _ _ _ Hm2). exact He.
    + split; simpl; rewrite ?Elog3, ?Hlc; simpl; try done.
      * apply at_rest_woken; [by apply at_rest_log|]. simpl. by rewrite Ep.
      * rewrite Hadd in Hlok. destruct Hlok as [? ? ? ? ? ?]. split; simpl in *; try done.
      * rewrite Hadd in Henok. destruct Henok as [? ? ?]. by split.
    + intros c Hc. assert (Hst : l_start lc = l_start (log s)) by (by rewrite Hlc). rewrite Hst in HV3.
      change (disk (set_procs _ _)) with (disk s3). rewrite <- (cache_clean d pid s3 V3 (λ _, 0) ∅ c (proj1 (proj2 Hr3)) eq_refl).
      rewrite (HV3 c Hc). unfold insert, fn_insert. do 2 case_decide; try done.
      by apply (cache_clean d pid s V (λ _, 0) ∅ c (proj1 (proj2 Hrest))).
Qed.
End tx.
