(* ===== verification/FsTheory.v ===== *)
(** * On-disk inodes and the block bitmap

    The byte layout of struct dinode and of the bitmap of kernel/fs.c: what is
    encoded is decoded again, and one inode or bit of a block does not touch the
    others. *)

From Stdlib Require Import ZArith Lia.
From stdpp Require Import base numbers functions gmap strings countable tactics list.
From S2P Require Import Prelude Machine CString State Spinlock Kalloc Vm VmMap Sched SchedTheory Sleeplock Bio BioList BioCache Log LogTheory LogRun LogOps Fs LogTx.

(** ** Slices of concatenations *)
Lemma slice_app_l {A} (a b : list A) n : n = Z.of_nat (length a) → slice (a ++ b) 0 n = a.
Proof. intros ->. unfold slice. by rewrite Nat2Z.id, drop_0, take_app_length. Qed.

Lemma slice_app_r {A} (a b : list A) off n : Z.of_nat (length a) ≤ off →
  slice (a ++ b) off n = slice b (off - Z.of_nat (length a)) n.
Proof.
  intros Ho. unfold slice. f_equal. rewrite drop_app_ge by lia. f_equal. lia.
Qed.

Lemma slice_words l k v : l !! Z.to_nat k = Some v → 0 ≤ k →
  slice (concat (le_bytes 4 <$> l)) (4 * k) 4 = le_bytes 4 v.
Proof.
  revert k. induction l as [|x l IH]; intros k Hv Hk; [done|]. rewrite fmap_cons. cbn [concat].
  destruct (decide (k = 0)) as [->|Hne].
  - simpl in Hv. injection Hv as ->. by apply slice_app_l.
  - rewrite slice_app_r by (rewrite length_le_bytes; lia). rewrite length_le_bytes.
    replace (4 * k - Z.of_nat 4) with (4 * (k - 1)) by lia. apply IH; [|lia].
    replace (Z.to_nat k) with (S (Z.to_nat (k - 1))) in Hv by lia. done.
Qed.

Lemma length_words l : length (concat (le_bytes 4 <$> l)) = (4 * length l)%nat.
Proof. induction l as [|x l IH]; [done|]. rewrite fmap_cons. cbn [concat]. rewrite length_app, length_le_bytes, IH. simpl. lia. Qed.

(** ** Bytes and words of a block *)
Lemma nthZ_zero k : nthZ zero_block k = 0.
Proof. unfold nthZ, zero_block. rewrite nth_lookup. destruct (_ !! _) as [x|] eqn:E; [|done]. by apply lookup_replicate in E as [-> _]. Qed.

Lemma nthZ_end bs o : Z.of_nat (length bs) ≤ o → nthZ bs o = 0.
Proof. intros Ho. unfold nthZ. apply nth_overflow. lia. Qed.

Lemma nthZ_upd l i k v : 0 ≤ i < Z.of_nat (length l) → 0 ≤ k → nthZ (updZ l i v) k = if decide (k = i) then v else nthZ l k.
Proof. intros Hi Hk. case_decide as E; [subst; apply nthZ_updZ_eq; lia|apply nthZ_updZ_ne; lia]. Qed.

Lemma ldw_zero o : ldw zero_block o = 0.
Proof.
  unfold ldw, slice, zero_block. generalize (Z.to_nat o). intros k. rewrite drop_replicate, take_replicate.
  generalize (Z.to_nat 4 `min` (1024 - k))%nat. intros n. induction n as [|n IH]; [done|]. simpl. rewrite IH. lia.
Qed.

Lemma nthZ_splice (x q : list Z) a k : 0 ≤ a → a + Z.of_nat (length q) ≤ Z.of_nat (length x) → 0 ≤ k →
  nthZ (splice x a q) k = if decide (a ≤ k < a + Z.of_nat (length q)) then nthZ q (k - a) else nthZ x k.
Proof.
  intros Ha Hl Hk. unfold splice. rewrite nthZ_app, length_take by done. destruct (decide (k < a)) as [Hlt|Hge].
  - rewrite decide_True, decide_False by lia. unfold nthZ. by rewrite !nth_lookup, lookup_take_lt by lia.
  - rewrite decide_False, nthZ_app by lia. destruct (decide (k < a + Z.of_nat (length q))) as [Hin|Hout].
    + rewrite !decide_True by lia. f_equal. lia.
    + rewrite !decide_False by lia. unfold nthZ. rewrite !nth_lookup, lookup_drop. do 2 f_equal. lia.
Qed.

(** ** Inodes on disk *)
Record dinode_ok (d : dinode) : Prop := {
  do_type : - 2 ^ 15 ≤ di_type d < 2 ^ 15;
  do_major : - 2 ^ 15 ≤ di_major d < 2 ^ 15;
  do_minor : - 2 ^ 15 ≤ di_minor d < 2 ^ 15;
  do_nlink : - 2 ^ 15 ≤ di_nlink d < 2 ^ 15;
  do_size : 0 ≤ di_size d < 2 ^ 32;
  do_len : length (di_addrs d) = 13%nat;
  do_addrs : ∀ a, a ∈ di_addrs d → 0 ≤ a < 2 ^ 32;
}.

Lemma s16_short v : - 2 ^ 15 ≤ v < 2 ^ 15 → s16 (le_value (le_bytes 2 (u16 v))) = v.
Proof.
  intros Hv. rewrite le_value_bytes. change (256 ^ Z.of_nat 2) with (2 ^ 16). unfold u16, s16.
  rewrite Z.mod_mod by lia. rewrite Zplus_mod_idemp_l. rewrite Z.mod_small; lia.
Qed.

Lemma word_of v : 0 ≤ v < 2 ^ 32 → le_value (le_bytes 4 v) = v.
Proof. intros Hv. rewrite le_value_bytes. by apply Z.mod_small. Qed.

Lemma ldw_splice_eq x o v : length x = 1024%nat → 0 ≤ o → o + 4 ≤ 1024 → 0 ≤ v < 2 ^ 32 → ldw (splice x o (le_bytes 4 v)) o = v.
Proof. intros. unfold ldw. rewrite slice_splice_eq by (rewrite ?length_le_bytes; lia). by apply word_of. Qed.

Lemma ldw_splice_ne x o o' v : length x = 1024%nat → 0 ≤ o → 0 ≤ o' → o + 4 ≤ 1024 → o' + 4 ≤ o ∨ o + 4 ≤ o' → ldw (splice x o (le_bytes 4 v)) o' = ldw x o'.
Proof. intros. unfold ldw. by rewrite slice_splice_ne by (rewrite ?length_le_bytes; lia). Qed.

Lemma length_encode d : length (di_addrs d) = 13%nat → length (encode_dinode d) = Z.to_nat DINODE_SIZE.
Proof. intros Hl. unfold encode_dinode. rewrite !length_app, !length_le_bytes, length_words, Hl. done. Qed.

(** The fields of a dinode are where the C compiler puts them. *)
Lemma slice_fields (a b c e w r : list Z) :
  length a = 2%nat → length b = 2%nat → length c = 2%nat → length e = 2%nat → length w = 4%nat →
  let bs := a ++ b ++ c ++ e ++ w ++ r in
  slice bs 0 2 = a ∧ slice bs 2 2 = b ∧ slice bs 4 2 = c ∧ slice bs 6 2 = e ∧ slice bs 8 4 = w ∧
  ∀ k, 0 ≤ k → slice bs (12 + k) 4 = slice r k 4.
Proof.
  intros Ha Hb Hc He Hw bs. unfold bs. split; [by apply slice_app_l; rewrite Ha|].
  split; [rewrite (slice_app_r a) by lia; rewrite Ha; by apply slice_app_l; rewrite Hb|].
  split; [rewrite (slice_app_r a), (slice_app_r b) by lia; rewrite Ha, Hb; by apply slice_app_l; rewrite Hc|].
  split; [rewrite (slice_app_r a), (slice_app_r b), (slice_app_r c) by lia; rewrite Ha, Hb, Hc; by apply slice_app_l; rewrite He|].
  split; [rewrite (slice_app_r a), (slice_app_r b), (slice_app_r c), (slice_app_r e) by lia; rewrite Ha, Hb, Hc, He;
    by apply slice_app_l; rewrite Hw|].
  intros k Hk. rewrite (slice_app_r a), (slice_app_r b), (slice_app_r c), (slice_app_r e), (slice_app_r w) by lia.
  f_equal. lia.
Qed.

Lemma decode_encode d : dinode_ok d → decode_dinode (encode_dinode d) = d.
Proof.
  intros [Ht Hma Hmi Hnl Hs Hlen Ha]. unfold decode_dinode, encode_dinode, ldh, ldw.
  destruct (slice_fields (le_bytes 2 (u16 (di_type d))) (le_bytes 2 (u16 (di_major d))) (le_bytes 2 (u16 (di_minor d)))
    (le_bytes 2 (u16 (di_nlink d))) (le_bytes 4 (di_size d)) (concat (le_bytes 4 <$> di_addrs d))) as (-> & -> & -> & -> & -> & Hr);
    [apply length_le_bytes..|].
  rewrite !s16_short, word_of by done. destruct d as [ty ma mi nl sz addrs]. cbn [di_type di_major di_minor di_nlink di_size di_addrs] in *. f_equal.
  apply list_eq. intros k. rewrite list_lookup_fmap. destruct (decide (k < 13)%nat) as [Hk|Hk].
  - rewrite lookup_seqZ_lt by (unfold NDIRECT; lia). destruct (lookup_lt_is_Some_2 addrs k ltac:(lia)) as [v Hv].
    rewrite Hv. cbn [fmap option_fmap option_map]. f_equal. rewrite Z.add_0_l, Hr by lia.
    rewrite (slice_words _ _ v) by (rewrite ?Nat2Z.id; done || lia). apply word_of, Ha. by eapply list_elem_of_lookup_2.
  - rewrite lookup_seqZ_ge by (unfold NDIRECT; lia). symmetry. apply lookup_ge_None_2. lia.
Qed.

Lemma get_put_dinode data inum d : length data = 1024%nat → dinode_ok d → 0 ≤ inum →
  get_dinode (put_dinode data inum d) inum = d.
Proof.
  intros Hlen Hd Hi. unfold get_dinode, put_dinode. change IPB with 16.
  pose proof (Z.mod_pos_bound inum 16 ltac:(lia)) as Hm. rewrite slice_splice_eq.
  - by apply decode_encode.
  - unfold DINODE_SIZE. lia.
  - rewrite Hlen. unfold DINODE_SIZE. lia.
  - rewrite length_encode by apply Hd. done.
Qed.

Lemma get_put_dinode_ne data inum inum' d : length data = 1024%nat → length (di_addrs d) = 13%nat → 0 ≤ inum → 0 ≤ inum' →
  inum mod IPB ≠ inum' mod IPB → get_dinode (put_dinode data inum d) inum' = get_dinode data inum'.
Proof.
  intros Hlen Hd Hi Hi' Hne. unfold get_dinode, put_dinode. change IPB with 16 in *.
  pose proof (Z.mod_pos_bound inum 16 ltac:(lia)) as Hm. pose proof (Z.mod_pos_bound inum' 16 ltac:(lia)) as Hm'.
  rewrite slice_splice_ne; [done|..]; rewrite ?length_encode, ?Hlen by done; unfold DINODE_SIZE; lia.
Qed.

Lemma length_put_dinode data inum d : length data = 1024%nat → length (di_addrs d) = 13%nat →
  length (put_dinode data inum d) = 1024%nat.
Proof.
  intros Hlen Hd. unfold put_dinode. change IPB with 16. pose proof (Z.mod_pos_bound inum 16 ltac:(lia)) as Hm.
  rewrite length_splice; rewrite ?length_encode, ?Hlen by done; unfold DINODE_SIZE; lia.
Qed.

(** ** The bitmap *)
Definition bytes_ok (data : list Z) : Prop := length data = 1024%nat ∧ ∀ k, 0 ≤ nthZ data k < 2 ^ 8.

Lemma bit_free_spec data bi : 0 ≤ bi → bit_free data bi = negb (Z.testbit (nthZ data (bi / 8)) (bi mod 8)).
Proof.
  intros Hb. unfold bit_free, bit_mask. pose proof (Z.mod_pos_bound bi 8 ltac:(lia)) as Hm.
  rewrite Z.shiftl_1_l. destruct (Z.testbit (nthZ data (bi / 8)) (bi mod 8)) eqn:Ht; simpl.
  - apply Z.eqb_neq. intros H0. apply (f_equal (λ z, Z.testbit z (bi mod 8))) in H0.
    rewrite Z.land_spec, Ht, Z.pow2_bits_true, Z.testbit_0_l in H0 by lia. done.
  - apply Z.eqb_eq. apply Z.bits_inj'. intros k Hk. rewrite Z.land_spec, Z.testbit_0_l.
    destruct (decide (k = bi mod 8)) as [->|Hne]; [by rewrite Ht|]. by rewrite Z.pow2_bits_false, andb_false_r by lia.
Qed.

Lemma u8_testbit z k : 0 ≤ k < 8 → Z.testbit (u8 z) k = Z.testbit z k.
Proof. intros Hk. unfold u8. by rewrite Z.mod_pow2_bits_low by lia. Qed.

(** Writing byte [bi / 8] so that only bit [bi mod 8] of it changes. *)
Lemma bit_update data bi bj v b :
  bytes_ok data → 0 ≤ bi < BPB → 0 ≤ bj < BPB →
  (∀ k, 0 ≤ k < 8 → Z.testbit v k = if decide (k = bi mod 8) then b else Z.testbit (nthZ data (bi / 8)) k) →
  bit_free (updZ data (bi / 8) v) bj = if decide (bj = bi) then negb b else bit_free data bj.
Proof.
  intros [Hlen _] Hi Hj Hv. change BPB with 8192 in *. rewrite !bit_free_spec by lia.
  pose proof (Z.mod_pos_bound bi 8 ltac:(lia)) as Hmi. pose proof (Z.mod_pos_bound bj 8 ltac:(lia)) as Hmj.
  pose proof (Z.div_mod bi 8 ltac:(lia)) as Ei. pose proof (Z.div_mod bj 8 ltac:(lia)) as Ej.
  destruct (decide (bj / 8 = bi / 8)) as [He|Hne].
  - rewrite He, nthZ_updZ_eq, Hv by lia. destruct (decide (bj = bi)) as [->|Hne]; [by rewrite decide_True|].
    rewrite decide_False by lia. done.
  - rewrite nthZ_updZ_ne by lia. by rewrite decide_False by (intros ->; done).
Qed.

Lemma bit_set_free data bi bj : bytes_ok data → 0 ≤ bi < BPB → 0 ≤ bj < BPB →
  bit_free (bit_set data bi) bj = if decide (bj = bi) then false else bit_free data bj.
Proof.
  intros Hd Hi Hj. apply (bit_update data bi bj _ true Hd Hi Hj). intros k Hk. rewrite u8_testbit, Z.lor_spec by done.
  unfold bit_mask. rewrite Z.shiftl_1_l. pose proof (Z.mod_pos_bound bi 8 ltac:(lia)). case_decide as Hd'.
  - subst k. rewrite Z.pow2_bits_true by lia. apply orb_true_r.
  - rewrite Z.pow2_bits_false by lia. apply orb_false_r.
Qed.

Lemma bit_clear_free data bi bj : bytes_ok data → 0 ≤ bi < BPB → 0 ≤ bj < BPB →
  bit_free (bit_clear data bi) bj = if decide (bj = bi) then true else bit_free data bj.
Proof.
  intros Hd Hi Hj. apply (bit_update data bi bj _ false Hd Hi Hj). intros k Hk. rewrite u8_testbit, Z.land_spec by done.
  unfold bit_mask. rewrite Z.shiftl_1_l, Z.lnot_spec by lia. pose proof (Z.mod_pos_bound bi 8 ltac:(lia)). case_decide as Hd'.
  - subst k. rewrite Z.pow2_bits_true by lia. apply andb_false_r.
  - rewrite Z.pow2_bits_false by lia. apply andb_true_r.
Qed.

Lemma bytes_ok_upd data i v : bytes_ok data → 0 ≤ i < 1024 → bytes_ok (updZ data i (u8 v)).
Proof.
  intros [Hlen Hr] Hi. split; [by rewrite length_updZ|]. intros k. destruct (decide (k < 0)) as [Hk|Hk].
  { replace (nthZ (updZ data i (u8 v)) k) with (nthZ (updZ data i (u8 v)) 0) by (unfold nthZ; f_equal; lia).
    destruct (decide (i = 0)) as [->|]; [rewrite nthZ_updZ_eq by lia; apply u8_range|rewrite nthZ_updZ_ne by lia; apply Hr]. }
  destruct (decide (k = i)) as [->|]; [rewrite nthZ_updZ_eq by lia; apply u8_range|rewrite nthZ_updZ_ne by lia; apply Hr].
Qed.

(** Clearing a bit that was set undoes it. *)
Lemma bit_clear_set data bi : bytes_ok data → 0 ≤ bi < BPB → bit_free data bi = true → bit_clear (bit_set data bi) bi = data.
Proof.
  intros Hd Hi Hfree. pose proof Hd as [Hlen Hr]. change BPB with 8192 in Hi. rewrite bit_free_spec in Hfree by lia.
  apply negb_true_iff in Hfree. unfold bit_clear, bit_set, updZ. rewrite list_insert_insert_eq.
  fold (updZ data (bi / 8) (u8 (Z.lor (nthZ data (bi / 8)) (bit_mask bi)))).
  rewrite nthZ_updZ_eq by (rewrite Hlen; Z.div_mod_to_equations; lia).
  set (x := nthZ data (bi / 8)) in *. specialize (Hr (bi / 8)). fold x in Hr.
  pose proof (Z.mod_pos_bound bi 8 ltac:(lia)) as Hm.
  assert (Hx : u8 (Z.land (u8 (Z.lor x (bit_mask bi))) (Z.lnot (bit_mask bi))) = x).
  { rewrite <- (u8_small x) at 2 by lia. apply Z.bits_inj'. intros k Hk.
    destruct (decide (k < 8)) as [Hk8|Hk8].
    - rewrite !u8_testbit, Z.land_spec, u8_testbit, Z.lor_spec, Z.lnot_spec by lia. unfold bit_mask. rewrite Z.shiftl_1_l.
      destruct (decide (k = bi mod 8)) as [->|Hne]; [by rewrite Z.pow2_bits_true, Hfree by lia|].
      rewrite Z.pow2_bits_false by lia. by rewrite orb_false_r, andb_true_r.
    - unfold u8. by rewrite !Z.mod_pow2_bits_high by lia. }
  rewrite Hx. apply (updZ_id data (bi / 8)). rewrite Hlen. Z.div_mod_to_equations. lia.
Qed.
