(* ===== verification/FsOps.v ===== *)
(** * Inodes and block allocation over the log

    iupdate(), ilock() and balloc() of kernel/fs.c as operations on the view of
    the disk that the buffer cache gives. *)

From Stdlib Require Import ZArith Lia.
From stdpp Require Import base numbers functions gmap strings countable tactics list.
From S2P Require Import Prelude Machine CString State Spinlock Kalloc Vm VmMap Sched SchedTheory Sleeplock Bio BioList BioCache Log LogTheory LogRun LogOps Fs LogTx FsTheory.

Section search.
Context `{Env} (d : Z).

(** The search of balloc() when one bitmap block covers the disk. *)
Lemma balloc_one s bi i s1 s' :
  0 < sb_size (sb s) ≤ BPB → bread d (sb_bmapstart (sb s)) s = Ok i s1 →
  for_each (seqZ 0 (sb_size (sb s))) (balloc_bit d i 0) s1 = Ok (Some bi) s' → balloc d s = Ok bi s'.
Proof.
  intros Hn Hr1 Hin. change BPB with 8192 in Hn. unfold balloc. rewrite bind_gets. change BPB with 8192. set (n := sb_size (sb s)) in *.
  replace ((n + 8192 - 1) / 8192) with 1 by (apply Z.div_unique with (n - 1); lia).
  change ((λ k : Z, k * 8192) <$> seqZ 0 1) with [0]. cbn [for_each].
  replace (BBLOCK 0 (sb s)) with (sb_bmapstart (sb s)) by done.
  rewrite (bind_ok _ _ s (Some bi) s'); [done|]. rewrite (bind_ok _ _ s (Some bi) s'); [done|].
  by rewrite (bind_ok _ _ _ _ _ Hr1), Z.sub_0_r, (Z.min_r 8192 n), (bind_ok _ _ _ _ _ Hin) by lia.
Qed.
End search.

Section ops.
Context `{Env} (d : Z) (me : nat) (pid : Z) (Hfuel : (0 < fuel)%nat).
Implicit Types (V : Z → list Z) (P : Z → Z).

(** ** The inode table *)
Lemma get_inode_eq i s x : itable s !! i = Some x → get_inode i s = Ok x s.
Proof. intros Hx. unfold get_inode, gets. by rewrite (list_lookup_total_correct _ _ _ Hx). Qed.

Lemma upd_inode_eq i f s x : itable s !! i = Some x →
  upd_inode i f s = Ok tt (set_itable (<[i := f x]> (itable s)) s).
Proof. intros Hx. unfold upd_inode, modify. by rewrite (list_alter_insert _ _ _ _ Hx). Qed.

Lemma cache_itable s t V P HH : cache d pid s V P HH → cache d pid (set_itable t s) V P HH.
Proof. intros [[L HL] Hc]. split; [|done]. exists L. by apply (lru_same s). Qed.

Lemma acquiresleep_inode i s x :
  solo me pid s → itable s !! i = Some x → sl_locked (i_lock x) = false →
  acquiresleep (SlInode i) s = Ok tt (set_itable (<[i := set_i_lock (mkSleeplock true pid) x]> (itable s)) s).
Proof.
  intros [Hp Hc Hl Hlen Hpid _] Hx Hfree. set (lk := sl_lk (SlInode i)).
  assert (Hlk : locks s !! lk = None) by (rewrite Hl; apply lookup_empty).
  unfold acquiresleep. fold lk. rewrite (bind_ok _ _ _ _ _ (acquire_eq lk s Hlk)).
  rewrite (bind_ok _ _ _ tt (hold lk s)).
  2:{ destruct fuel as [|f]; [lia|]. rewrite loop_S. rewrite (bind_ok _ _ _ (inr tt) (hold lk s)); [done|].
      rewrite bind_gets. unfold sl_of. change (itable (hold lk s)) with (itable s).
      rewrite (list_lookup_total_correct _ _ _ Hx), Hfree. done. }
  rewrite (bind_ok _ _ _ me (hold lk s)) by (apply cur_eq; [by apply cpu_ok_pushed|done]).
  unfold get_proc. rewrite bind_gets. change (p_pid (procs (hold lk s) !!! me)) with (p_pid (procs s !!! me)). rewrite Hpid. cbn [set_sl].
  rewrite (bind_ok _ _ _ _ _ (upd_inode_eq i _ (hold lk s) x Hx)), (release_eq lk s) by done. by destruct s.
Qed.

(** The dinode of an in-memory inode. *)
Definition dinode_of (ip : inode) : dinode :=
  mkDinode (i_type ip) (i_major ip) (i_minor ip) (i_nlink ip) (i_size ip) (i_addrs ip).

Definition set_dinode (x : dinode) (ip : inode) : inode :=
  set_i_addrs (di_addrs x) (set_i_size (di_size x) (set_i_nlink (di_nlink x)
    (set_i_minor (di_minor x) (set_i_major (di_major x) (set_i_type (di_type x) ip))))).

(** iupdate() writes the inode to its place in its block, inside the
    transaction. *)
Lemma iupdate_spec s V P i ip :
  let b := IBLOCK (i_inum ip) (sb s) in
  itable s !! i = Some ip → i_dev ip = d →
  at_rest d me pid s V P → uses (bcore s) + 2 < Z.of_nat NBUF → tx_open (log s) → 0 ≤ b < 2 ^ 31 →
  (∀ c, P c + 2 < 2 ^ 32) → 0 ≤ P b → (b ∈ logged (log s) → 1 ≤ P b) →
  ∃ s', iupdate i s = Ok tt s' ∧ outer s' = outer (set_log (log_add (log s) b) s) ∧ disk s' = disk s ∧ dlog s' = dlog s ∧
    at_rest d me pid s' (<[b := put_dinode (V b) (i_inum ip) (dinode_of ip)]> V) (pin_new (log s) b P).
Proof.
  intros b Hip Hd Hrest Hu Hop Hb HP HPb Hin.
  destruct (update_spec d me pid Hfuel s V P b (λ data, put_dinode data (i_inum ip) (dinode_of ip)))
    as (s' & Hrun & Hrest'); [done..|].
  exists s'. split; [|done]. unfold iupdate. rewrite bind_gets, (bind_ok _ _ _ _ _ (get_inode_eq i s ip Hip)), Hd. exact Hrun.
Qed.

(** ilock() of an inode that is not in memory yet reads it from its block. *)
Lemma ilock_spec s V P i ip :
  let b := IBLOCK (i_inum ip) (sb s) in let x := get_dinode (V b) (i_inum ip) in
  itable s !! i = Some ip → i_dev ip = d → 1 ≤ i_ref ip → i_valid ip = false → sl_locked (i_lock ip) = false →
  at_rest d me pid s V P → P b + 1 < 2 ^ 32 → 0 ≤ P b → di_type x ≠ 0 →
  ∃ s', ilock i s = Ok tt s' ∧
    itable s' = <[i := set_i_valid true (set_dinode x (set_i_lock (mkSleeplock true pid) ip))]> (itable s) ∧
    disk s' = disk s ∧ at_rest d me pid s' V P.
Proof.
  intros b x Hip Hd Href Hval Hfree (Hso & Hca & Hu) HPb HP0 Hty.
  set (ip1 := set_i_lock (mkSleeplock true pid) ip). set (s1 := set_itable (<[i := ip1]> (itable s)) s).
  assert (Hlt : (i < length (itable s))%nat) by (by eapply lookup_lt_Some).
  assert (Hip1 : itable s1 !! i = Some ip1) by (by apply list_lookup_insert_eq).
  assert (Hso1 : solo me pid s1) by (by eapply solo_same, Hso).
  destruct (bread_spec d me pid Hfuel s1 V P ∅ b Hso1 (cache_itable s _ _ _ _ Hca)) as (k & s2 & Hr2 & Ho2 & Hd2 & _ & Hc2 & Hu2);
    [apply lookup_empty|done|unfold bcore in *; simpl in *; lia|].
  assert (Hh : (<[b := k]> (∅ : gmap Z nat)) !! b = Some k) by apply lookup_insert_eq.
  destruct (cache_held d pid Hfuel s2 _ _ _ b k Hc2 Hh) as (y & Hy & _ & _ & _ & _ & Hdat & _).
  assert (Hit2 : itable s2 = itable s1) by (by apply (f_equal itable) in Ho2).
  assert (Hip2 : itable s2 !! i = Some ip1) by (by rewrite Hit2).
  set (s3 := set_itable (<[i := set_dinode x ip1]> (itable s2)) s2).
  assert (Hso3 : solo me pid s3) by (eapply solo_same, (solo_outer me pid s1 s2 Ho2 Hso1); done).
  destruct (brelse_spec d me pid Hfuel s3 V _ _ b k Hso3 (cache_itable s2 _ _ _ _ Hc2) Hh) as (s4 & Hr4 & Ho4 & Hd4 & _ & Hc4 & Hu4).
  { rewrite fn_lookup_insert. intros H1. change (disk s3) with (disk s2). rewrite Hd2.
    apply (cache_clean d pid s V P ∅); [done|lia]. }
  assert (Hit4 : itable s4 = itable s3) by (by apply (f_equal itable) in Ho4).
  assert (Hip4 : itable s4 !! i = Some (set_dinode x ip1)).
  { rewrite Hit4. apply list_lookup_insert_eq. by eapply lookup_lt_Some. }
  exists (set_itable (<[i := set_i_valid true (set_dinode x ip1)]> (itable s4)) s4). split; [|split; [|split; [|split; [|split]]]].
  - unfold ilock. rewrite (bind_ok _ _ _ _ _ (get_inode_eq i s ip Hip)), (proj2 (Z.ltb_ge _ _)) by done.
    rewrite (bind_ok _ _ _ _ _ (acquiresleep_inode i s ip Hso Hip Hfree)). fold ip1 s1.
    rewrite (bind_ok _ _ _ _ _ (get_inode_eq i s1 ip1 Hip1)). change (i_valid ip1) with (i_valid ip). rewrite Hval.
    rewrite bind_gets. change (i_dev ip1) with (i_dev ip). change (i_inum ip1) with (i_inum ip). rewrite Hd. fold b.
    change (sb s1) with (sb s). fold b. rewrite (bind_ok _ _ _ _ _ Hr2), (bind_ok _ _ _ _ _ (get_buf_eq k s2 y Hy)), Hdat.
    fold x. rewrite (bind_ok _ _ _ _ _ (upd_inode_eq i _ s2 ip1 Hip2)). change (set_itable _ s2) with s3.
    rewrite (bind_ok _ _ _ _ _ Hr4), (bind_ok _ _ _ _ _ (upd_inode_eq i _ s4 _ Hip4)).
    by rewrite (proj2 (Z.eqb_neq _ _)).
  - simpl. rewrite Hit4. simpl. rewrite Hit2. simpl. by rewrite !list_insert_insert_eq.
  - simpl. rewrite Hd4. exact Hd2.
  - eapply solo_same, (solo_outer me pid s3 s4 Ho4 Hso3); done.
  - apply cache_itable. rewrite delete_insert_id in Hc4 by apply lookup_empty.
    eapply cache_ext; [reflexivity| |exact Hc4]. intros c. unfold insert, fn_insert. repeat case_decide; subst; lia.
  - change (bcore (set_itable _ s4)) with (bcore s4). rewrite Hu4. change (bcore s3) with (bcore s2). rewrite Hu2.
    change (bcore s1) with (bcore s). rewrite fn_lookup_insert. destruct (Z.eqb_spec (P b) 0), (Z.eqb_spec (P b + 1) 1); lia.
Qed.

(** ** Block allocation *)

(** The state of a transaction: blocks in it are pinned, and there is room for
    [n] more. *)
Record in_tx (n : Z) (s : kstate) V P : Prop := {
  it_rest : at_rest d me pid s V P;
  it_entries : entries_ok (log s);
  it_room : l_n (log s) + n ≤ LOGSIZE;
  it_size : l_n (log s) + n < l_size (log s);
  it_out : 1 ≤ l_outstanding (log s);
  it_uses : uses (bcore s) + n + 1 < Z.of_nat NBUF;
  it_pins : ∀ c, 0 ≤ P c ∧ P c + n + 1 < 2 ^ 32;
  it_logged : ∀ c, c ∈ logged (log s) → 1 ≤ P c;
}.

Lemma in_tx_open n s V P : in_tx n s V P → 1 ≤ n → tx_open (log s).
Proof. intros [_ He Hr Hs Ho _ _ _] Hn. split; [done|lia|lia|done]. Qed.

Lemma log_add_entries l b : entries_ok l → 0 ≤ b < 2 ^ 31 → entries_ok (log_add l b).
Proof.
  intros [Hn Hlen Hr] Hb. unfold log_add. case_decide; [done|]. split; simpl; [lia|by rewrite length_updZ|].
  intros c Hc. unfold updZ in Hc. apply list_elem_of_lookup in Hc as [k Hk].
  apply list_insert_inv in Hk as [[_ ->]|[_ Hk]]; [done|]. by apply Hr, list_elem_of_lookup_2 with k.
Qed.

Lemma log_add_fields l b : l_n l ≤ l_n (log_add l b) ≤ l_n l + 1 ∧ l_size (log_add l b) = l_size l ∧
  l_outstanding (log_add l b) = l_outstanding l.
Proof. unfold log_add. case_decide; simpl; lia. Qed.

(** One more block in the transaction. *)
Lemma in_tx_next n s V P s' V' b :
  in_tx n s V P → 1 ≤ n → 0 ≤ b < 2 ^ 31 → log s' = log_add (log s) b → at_rest d me pid s' V' (pin_new (log s) b P) →
  uses (bcore s') ≤ uses (bcore s) + 1 → in_tx (n - 1) s' V' (pin_new (log s) b P).
Proof.
  intros Ht Hn Hb Hlog Hrest Hu. pose proof (in_tx_open n s V P Ht Hn) as Hop. destruct Ht as [_ He Hr Hs Ho Hus Hp Hl].
  destruct (log_add_fields (log s) b) as (H1 & H2 & H3).
  split; rewrite ?Hlog; [done|by apply log_add_entries|lia|lia|lia|lia| |].
  - intros c. specialize (Hp c). unfold pin_new. case_decide; [lia|]. unfold insert, fn_insert. case_decide; subst; lia.
  - intros c Hc. rewrite (logged_add _ _ Hop) in Hc. unfold pin_new. case_decide as Hd; [by apply Hl|].
    unfold insert, fn_insert. case_decide as E; [subst; specialize (Hp c); lia|].
    apply elem_of_app in Hc as [Hc|Hc%list_elem_of_singleton]; [by apply Hl|congruence].
Qed.

Lemma bzero_tx n s V P b : in_tx n s V P → 1 ≤ n → 0 ≤ b < 2 ^ 31 →
  ∃ s', bzero d b s = Ok tt s' ∧ outer s' = outer (set_log (log_add (log s) b) s) ∧ disk s' = disk s ∧ dlog s' = dlog s ∧
    in_tx (n - 1) s' (<[b := replicate 1024 0]> V) (pin_new (log s) b P).
Proof.
  intros Ht Hn Hb. pose proof Ht as [Hrest _ _ _ _ Hu Hp Hl].
  destruct (update_uses d me pid Hfuel s V P b (λ _, replicate 1024 0)) as (s' & Hrun & Ho & Hd & Hdl & Hrest' & Hu');
    [done|lia|by eapply in_tx_open|done|intros c; specialize (Hp c); lia|apply Hp|apply Hl|].
  exists s'. do 4 (split; [done|]). eapply in_tx_next; try done. by apply (f_equal log) in Ho.
Qed.

(** The search of balloc() over a single bitmap block. *)
Lemma find_bit {A} (body : Z → M (option A)) n bi s r s' :
  0 ≤ bi < n → (∀ k, 0 ≤ k < bi → body k s = Ok None s) → body bi s = Ok (Some r) s' →
  for_each (seqZ 0 n) body s = Ok (Some r) s'.
Proof.
  intros Hb Hbefore Hat. replace n with (bi + (n - bi)) by lia. rewrite seqZ_app by lia.
  rewrite for_each_skip; [|intros k Hk%elem_of_seqZ; apply Hbefore; lia].
  rewrite seqZ_cons by lia. cbn [for_each]. rewrite Z.add_0_l, (bind_ok _ _ _ _ _ Hat). done.
Qed.

Definition first_free (data : list Z) (n bi : Z) : Prop :=
  0 ≤ bi < n ∧ bit_free data bi = true ∧ ∀ k, 0 ≤ k < bi → bit_free data k = false.

Lemma balloc_spec m s V P bi :
  let bm := sb_bmapstart (sb s) in let n := sb_size (sb s) in
  in_tx m s V P → 2 ≤ m → 0 < n ≤ BPB → 0 ≤ bm < 2 ^ 31 → first_free (V bm) n bi → bi ≠ bm →
  ∃ s', balloc d s = Ok bi s' ∧ disk s' = disk s ∧
    outer s' = outer (set_log (log_add (log_add (log s) bm) bi) s) ∧
    in_tx (m - 2) s' (<[bi := replicate 1024 0]> (<[bm := bit_set (V bm) bi]> V))
      (pin_new (log_add (log s) bm) bi (pin_new (log s) bm P)).
Proof.
  intros bm n Ht Hm Hn Hbm (Hbi & Hfree & Hbefore) Hne. pose proof Ht as [(Hso & Hca & Hu) _ _ _ _ Hus Hp Hl].
  change BPB with 8192 in Hn. pose proof (Hp bm) as Hpb.
  destruct (bread_spec d me pid Hfuel s V P ∅ bm Hso Hca) as (i & s1 & Hr1 & Ho1 & Hd1 & _ & Hc1 & Hu1);
    [apply lookup_empty|lia|lia|].
  assert (Hh : (<[bm := i]> (∅ : gmap Z nat)) !! bm = Some i) by apply lookup_insert_eq.
  destruct (cache_held d pid Hfuel s1 _ _ _ bm i Hc1 Hh) as (y & Hy & _ & _ & _ & _ & Hdat & _).
  assert (Hlog1 : log s1 = log s) by (by apply outer_same).
  destruct (update_held d me pid Hfuel s1 V P bm i (λ _, bit_set (V bm) bi)) as (s2 & Hr2 & Ho2 & Hd2 & _ & Hso2 & Hc2 & Hu2);
    [by eapply solo_outer|done|rewrite Hlog1; eapply in_tx_open; [done|lia]|done|lia|lia|rewrite Hlog1; apply Hl|].
  assert (Hout2 : outer s2 = outer (set_log (log_add (log s) bm) s)).
  { rewrite Ho2, Hlog1. transitivity (set_log (log_add (log s) bm) (outer s1)); [by destruct s1|]. rewrite Ho1. by destruct s. }
  assert (Hlog2 : log s2 = log_add (log s) bm) by (by apply (f_equal log) in Hout2).
  assert (Hu2' : uses (bcore s2) ≤ uses (bcore s) + 1) by (rewrite Hu2, Hu1; case_match; lia).
  rewrite Hlog1 in Hc2. assert (Ht2 : in_tx (m - 1) s2 (<[bm := bit_set (V bm) bi]> V) (pin_new (log s) bm P)).
  { apply (in_tx_next m s V P); try done; [lia|]. split; [done|]. split; [done|lia]. }
  destruct (bzero_tx (m - 1) s2 _ _ bi Ht2 ltac:(lia) ltac:(lia)) as (s3 & Hr3 & Ho3 & Hd3 & _ & Ht3).
  replace (m - 1 - 1) with (m - 2) in Ht3 by lia. rewrite Hlog2 in *.
  exists s3. split; [|split; [congruence|split; [|done]]].
  - assert (Hbit : ∀ k, balloc_bit d i 0 k s1 = if bit_free (V bm) k then (upd_buf i (set_b_data (bit_set (V bm) k));;
      log_write i;; brelse i;; bzero d (0 + k);; mret (Some (0 + k))) s1 else Ok None s1).
    { intros k. unfold balloc_bit. rewrite (bind_ok _ _ _ _ _ (get_buf_eq i s1 y Hy)), Hdat. by destruct (bit_free (V bm) k). }
    assert (Hin : for_each (seqZ 0 n) (balloc_bit d i 0) s1 = Ok (Some bi) s3).
    { apply (find_bit _ _ bi); [lia|intros k Hk; by rewrite Hbit, Hbefore by lia|].
      rewrite Hbit, Hfree, (then3 _ _ _ _ _ _ Hr2). by rewrite (bind_ok _ _ _ _ _ Hr3). }
    apply (balloc_one d s bi i s1); [change BPB with 8192; fold n; lia|done|done].
  - rewrite Ho3. apply (f_equal (set_log (log_add (log_add (log s) bm) bi))) in Hout2. exact Hout2.
Qed.

Lemma bfree_spec n s V P b :
  let bm := sb_bmapstart (sb s) in
  in_tx n s V P → 1 ≤ n → 0 ≤ b < BPB → 0 ≤ bm < 2 ^ 31 → bit_free (V bm) b = false →
  ∃ s', bfree d b s = Ok tt s' ∧ disk s' = disk s ∧ outer s' = outer (set_log (log_add (log s) bm) s) ∧
    in_tx (n - 1) s' (<[bm := bit_clear (V bm) b]> V) (pin_new (log s) bm P).
Proof.
  intros bm Ht Hn Hb Hbm Hset. pose proof Ht as [(Hso & Hca & Hu) _ _ _ _ Hus Hp Hl]. pose proof (Hp bm) as Hpb.
  change BPB with 8192 in Hb.
  destruct (bread_spec d me pid Hfuel s V P ∅ bm Hso Hca) as (i & s1 & Hr1 & Ho1 & Hd1 & _ & Hc1 & Hu1);
    [apply lookup_empty|lia|lia|].
  assert (Hh : (<[bm := i]> (∅ : gmap Z nat)) !! bm = Some i) by apply lookup_insert_eq.
  destruct (cache_held d pid Hfuel s1 _ _ _ bm i Hc1 Hh) as (y & Hy & _ & _ & _ & _ & Hdat & _).
  assert (Hlog1 : log s1 = log s) by (by apply outer_same).
  destruct (update_held d me pid Hfuel s1 V P bm i (λ _, bit_clear (V bm) b)) as (s2 & Hr2 & Ho2 & Hd2 & _ & Hso2 & Hc2 & Hu2);
    [by eapply solo_outer|done|rewrite Hlog1; by eapply in_tx_open|done|lia|lia|rewrite Hlog1; apply Hl|].
  exists s2. split; [|split; [congruence|split]].
  - unfold bfree. rewrite bind_gets. replace (BBLOCK b (sb s)) with bm.
    2:{ unfold BBLOCK. change BPB with 8192. by rewrite Z.div_small. }
    rewrite (bind_ok _ _ _ _ _ Hr1), (bind_ok _ _ _ _ _ (get_buf_eq i s1 y Hy)), Hdat. change BPB with 8192.
    rewrite Z.mod_small, Hset by lia. exact Hr2.
  - rewrite Ho2, Hlog1. transitivity (set_log (log_add (log s) bm) (outer s1)); [by destruct s1|]. rewrite Ho1. by destruct s.
  - rewrite Hlog1 in *. apply (in_tx_next n s V P); try done.
    + by apply (f_equal log) in Ho2.
    + split; [done|]. split; [done|]. rewrite Hu2, Hu1. case_match; lia.
    + rewrite Hu2, Hu1. case_match; lia.
Qed.

Lemma bfree_free n s V P b :
  let bm := sb_bmapstart (sb s) in
  in_tx n s V P → 0 ≤ n → 0 ≤ b < BPB → bit_free (V bm) b = true → ∃ s', bfree d b s = Panic "freeing free block" s'.
Proof.
  intros bm Ht Hn Hb Hset. pose proof Ht as [(Hso & Hca & Hu) _ _ _ _ Hus Hp Hl]. pose proof (Hp bm) as Hpb.
  change BPB with 8192 in Hb.
  destruct (bread_spec d me pid Hfuel s V P ∅ bm Hso Hca) as (i & s1 & Hr1 & Ho1 & Hd1 & _ & Hc1 & Hu1);
    [apply lookup_empty|lia|lia|].
  destruct (cache_held d pid Hfuel s1 _ _ _ bm i Hc1 (lookup_insert_eq _ _ _)) as (y & Hy & _ & _ & _ & _ & Hdat & _).
  exists s1. unfold bfree. rewrite bind_gets. replace (BBLOCK b (sb s)) with bm.
  2:{ unfold BBLOCK. change BPB with 8192. by rewrite Z.div_small. }
  rewrite (bind_ok _ _ _ _ _ Hr1), (bind_ok _ _ _ _ _ (get_buf_eq i s1 y Hy)), Hdat. change BPB with 8192.
  by rewrite Z.mod_small, Hset by lia.
Qed.
End ops.
