(* ===== verification/FsTx.v ===== *)
(** * Blocks inside a transaction, with buffers held

    [tx n s V HH]: the process is alone with the file system, [V] is what the cache
    shows of the disk, [HH] are the buffers the process holds, and the log has room
    for [n] blocks that are not in it yet. bread(), log_write() and brelse() step
    from one such state to another; what pins the buffers stays inside. *)

From Stdlib Require Import ZArith Lia.
From stdpp Require Import base numbers functions gmap strings countable tactics list.
From S2P Require Import Prelude Machine CString State Spinlock Kalloc Vm VmMap Sched SchedTheory Sleeplock Bio BioList BioCache Log LogTheory LogRun LogOps Fs LogTx FsTheory FsOps.

(** References to a block: those of the log, and the one of the holder. *)
Definition held_pins (HH : gmap Z nat) (Q : Z → Z) (c : Z) : Z := Q c + (if decide (is_Some (HH !! c)) then 1 else 0).

(** The held blocks that nothing else keeps in the cache. *)
Definition loose (Q : Z → Z) (HH : gmap Z nat) : Z := Z.of_nat (size (filter (λ x, Q x.1 = 0) HH)).

Lemma loose_insert Q HH b i : HH !! b = None → loose Q (<[b := i]> HH) = loose Q HH + (if decide (Q b = 0) then 1 else 0).
Proof.
  intros Hn. unfold loose. rewrite map_filter_insert. simpl. case_decide as Hd.
  - rewrite map_size_insert_None; [lia|]. apply map_lookup_filter_None. left. done.
  - rewrite delete_id by done. lia.
Qed.

Lemma loose_held Q HH b i : HH !! b = Some i → loose Q HH = loose Q (delete b HH) + (if decide (Q b = 0) then 1 else 0).
Proof. intros Hh. rewrite <- (insert_delete_id HH b i Hh) at 1. by rewrite loose_insert by apply lookup_delete_eq. Qed.

Lemma loose_fresh Q HH b v : HH !! b = None → loose (<[b := v]> Q) HH = loose Q HH.
Proof.
  intros Hn. unfold loose. do 2 f_equal. apply map_filter_ext. intros c j Hc. simpl.
  rewrite fn_lookup_insert_ne; [done|]. intros ->. congruence.
Qed.

Lemma loose_le Q HH : loose Q HH ≤ Z.of_nat (size HH).
Proof. unfold loose. pose proof (map_size_filter (λ x, Q x.1 = 0) HH). lia. Qed.

(** Everything but the cache, the log and the inode table is as it was. *)
Record fsame (s s' : kstate) : Prop := {
  fs_outer : outer s' = outer (set_itable (itable s') (set_log (log s') s));
  fs_disk : disk s' = disk s;
  fs_dlog : dlog s' = dlog s;
  fs_open : l_outstanding (log s') = l_outstanding (log s);
  fs_grow : ∀ b, b ∈ logged (log s) → b ∈ logged (log s');
}.

Lemma fsame_refl s : fsame s s.
Proof. by split; destruct s. Qed.

Lemma fsame_trans s1 s2 s3 : fsame s1 s2 → fsame s2 s3 → fsame s1 s3.
Proof.
  intros [Ho Hd Hl Hn Hg] [Ho' Hd' Hl' Hn' Hg']. split; [|congruence|congruence|congruence|auto]. rewrite Ho'.
  transitivity (set_itable (itable s3) (set_log (log s3) (outer s2))); [by destruct s2|]. rewrite Ho. by destruct s1.
Qed.

Lemma fsame_outer s s' : outer s' = outer s → disk s' = disk s → dlog s' = dlog s → fsame s s'.
Proof.
  intros Ho Hd Hl. pose proof (f_equal itable Ho) as Hi. pose proof (f_equal log Ho) as Hg. simpl in Hi, Hg.
  split; rewrite ?Hg; try done. rewrite Ho, Hi. by destruct s.
Qed.

Lemma fsame_itable s t : fsame s (set_itable t s).
Proof. by split; destruct s. Qed.

Lemma fsame_parts s s' : fsame s s' → sb s' = sb s ∧ procs s' = procs s ∧ cpu s' = cpu s ∧ mem s' = mem s ∧ freelist s' = freelist s.
Proof.
  intros [Ho _ _ _ _]. repeat split; [by apply (f_equal sb) in Ho|by apply (f_equal procs) in Ho|by apply (f_equal cpu) in Ho|
    by apply (f_equal mem) in Ho|by apply (f_equal freelist) in Ho].
Qed.

(** What a block costs: nothing when the log has it already. *)
Definition lcost (s : kstate) (b : Z) : Z := if decide (b ∈ logged (log s)) then 0 else 1.

Lemma lcost_range s b : 0 ≤ lcost s b ≤ 1.
Proof. unfold lcost. case_decide; lia. Qed.

Lemma lcost_mono s s' b : fsame s s' → lcost s' b ≤ lcost s b.
Proof. intros Hs. unfold lcost. repeat case_decide; try lia. exfalso. by eauto using fs_grow. Qed.

Lemma lcost_logged s b : b ∈ logged (log s) → lcost s b = 0.
Proof. intros Hb. unfold lcost. by rewrite decide_True. Qed.

Section state.
Context (d : Z) (me : nat) (pid : Z).
Implicit Types (V : Z → list Z) (Q : Z → Z) (HH : gmap Z nat).

Record txq (n : Z) (s : kstate) V HH Q (W : Z) : Prop := {
  tx_solo : solo me pid s;
  tx_cache : cache d pid s V (held_pins HH Q) HH;
  tx_pins : ∀ c, 0 ≤ Q c ∧ Q c + n + 1 < 2 ^ 32;
  tx_logged : ∀ c, c ∈ logged (log s) → 1 ≤ Q c;
  tx_clean : ∀ c, Q c = 0 → V c = block_of (disk s) c;
  tx_uses : uses (bcore s) = W + loose Q HH;
  tx_bufs : W + n + 2 ≤ Z.of_nat NBUF;
  tx_entries : entries_ok (log s);
  tx_room : l_n (log s) + n ≤ LOGSIZE;
  tx_size : l_n (log s) + n < l_size (log s);
}.

Definition tx n s V HH : Prop := ∃ Q W, txq n s V HH Q W.

Lemma in_tx_tx n s V P : in_tx d me pid n s V P → tx n s V ∅.
Proof.
  intros [(Hso & Hca & Hu) He Hr Hs Ho Hus Hp Hl]. exists P, (uses (bcore s)). split; try done.
  - eapply cache_ext; [reflexivity| |exact Hca]. intros c. unfold held_pins. rewrite lookup_empty, decide_False; [lia|].
    by intros [? ?].
  - intros c Hc. by apply (cache_clean d pid s V P ∅).
  - unfold loose. rewrite map_filter_empty, map_size_empty. lia.
  - lia.
Qed.

Lemma tx_weaken n m s V HH : tx n s V HH → m ≤ n → tx m s V HH.
Proof.
  intros (Q & W & [H1 H2 H3 H4 H5 H6 H7 H8 H9 H10]) Hm. exists Q, W. split; try done; try lia.
  intros c. specialize (H3 c). lia.
Qed.

Lemma tx_ext n s V V' HH HH' : (∀ c, V' c = V c) → HH' = HH → tx n s V HH → tx n s V' HH'.
Proof.
  intros HV -> (Q & W & [H1 H2 H3 H4 H5 H6 H7 H8 H9 H10]). exists Q, W. split; try done.
  - by eapply cache_ext, H2.
  - intros c Hc. rewrite HV. by apply H5.
Qed.

(** What tx depends on. *)
Lemma tx_same n s s' V HH :
  cpu s' = cpu s → locks s' = locks s → procs s' = procs s → bcache s' = bcache s → bhead s' = bhead s →
  disk s' = disk s → log s' = log s → tx n s V HH → tx n s' V HH.
Proof.
  intros Hc Hl Hp Hb Hh Hd Hg (Q & W & [H1 [[L HL] H2] H3 H4 H5 H6 H7 H8 H9 H10]).
  assert (Hbc : bcore s' = bcore s) by (unfold bcore; by rewrite Hb).
  exists Q, W. split; rewrite ?Hg, ?Hd, ?Hbc; try done.
  - by eapply solo_same, H1.
  - split; [exists L; by apply (lru_same s)|]. by rewrite Hbc, Hd.
Qed.

Lemma tx_itable n s t V HH : tx n s V HH → tx n (set_itable t s) V HH.
Proof. by apply tx_same. Qed.

End state.

Section tx.
Context `{Env} (d : Z) (me : nat) (pid : Z) (Hfuel : (0 < fuel)%nat).
Implicit Types (V : Z → list Z) (Q : Z → Z) (HH : gmap Z nat).
Local Notation tx := (tx d me pid).

Lemma tx_bread n s V HH b :
  tx n s V HH → 0 ≤ n → HH !! b = None → (size HH ≤ 1)%nat →
  ∃ i s', bread d b s = Ok i s' ∧ outer s' = outer s ∧ fsame s s' ∧ tx n s' V (<[b := i]> HH).
Proof.
  intros (Q & W & [Hso Hca Hp Hl Hcl Hu Hb He Hr Hs]) Hn0 Hn Hsz.
  assert (Hpb : held_pins HH Q b = Q b) by (unfold held_pins; rewrite Hn, decide_False by (by intros [? ?]); lia).
  pose proof (loose_le Q HH) as Hle. pose proof (Hp b) as Hpb'.
  destruct (bread_spec d me pid Hfuel s V _ HH b Hso Hca Hn) as (i & s' & Hrun & Ho & Hd & Hdl & Hca' & Hu'); [lia|lia|].
  exists i, s'. split; [done|]. split; [done|]. split; [by apply fsame_outer|].
  destruct (outer_same _ _ Ho) as (_ & _ & _ & Hlog). exists Q, W. split; rewrite ?Hlog, ?Hd; try done.
  - by eapply solo_outer.
  - eapply cache_ext; [reflexivity| |exact Hca']. intros c. destruct (decide (c = b)) as [->|Hc].
    + rewrite fn_lookup_insert, Hpb. unfold held_pins. by rewrite lookup_insert_eq, decide_True by done.
    + rewrite fn_lookup_insert_ne by done. unfold held_pins. by rewrite lookup_insert_ne by done.
  - rewrite Hu', Hu, Hpb, loose_insert by done. destruct (Z.eqb_spec (Q b) 0); case_decide; lia.
Qed.

Lemma tx_get n s V HH b i : tx n s V HH → HH !! b = Some i → ∃ x, get_buf i s = Ok x s ∧ b_data x = V b.
Proof.
  intros (Q & W & Htx) Hh. destruct (cache_held d pid Hfuel s V _ HH b i (tx_cache _ _ _ _ _ _ _ _ _ Htx) Hh) as (x & Hx & _ & _ & _ & _ & Hd & _).
  exists x. split; [by apply get_buf_eq|done].
Qed.

Lemma tx_put n s V HH b i (g : list Z → list Z) :
  tx n s V HH → HH !! b = Some i → 1 ≤ n → 1 ≤ l_outstanding (log s) → 0 ≤ b < 2 ^ 31 →
  ∃ s', (upd_buf i (λ x, set_b_data (g (b_data x)) x);; log_write i) s = Ok tt s' ∧
    outer s' = outer (set_log (log_add (log s) b) s) ∧ fsame s s' ∧ b ∈ logged (log s') ∧
    tx (n - lcost s b) s' (<[b := g (V b)]> V) HH.
Proof.
  intros (Q & W & [Hso Hca Hp Hl Hcl Hu Hbf He Hr Hs]) Hh Hn Hout Hb.
  assert (Hop : tx_open (log s)) by (split; [done|lia|lia|done]).
  destruct (put_data_spec d pid Hfuel s _ _ _ b i g Hca Hh) as (s2 & Hr2 & Ho2 & Hd2 & Hl2 & Hc2 & Hu2).
  pose proof (solo_outer me pid s s2 Ho2 Hso) as Hso2. assert (Hlog2 : log s2 = log s) by (by apply outer_same).
  assert (Hpb : held_pins HH Q b = Q b + 1) by (unfold held_pins; by rewrite Hh, decide_True by done).
  pose proof (Hp b) as Hpb'.
  destruct (log_write_spec d me pid Hfuel s2 _ _ _ b i Hso2 Hc2 Hh) as (s3 & Hr3 & Ho3 & Hd3 & Hl3 & Hc3 & Hu3); [by rewrite Hlog2|done|lia|].
  rewrite Hlog2 in *. assert (Hout3 : outer s3 = outer (set_log (log_add (log s) b) s)).
  { rewrite Ho3. transitivity (set_log (log_add (log s) b) (outer s2)); [by destruct s2|]. rewrite Ho2. by destruct s. }
  assert (Hlog3 : log s3 = log_add (log s) b) by (by apply (f_equal log) in Hout3).
  exists s3. split; [by rewrite (bind_ok _ _ _ _ _ Hr2)|]. split; [done|]. split.
  { split; rewrite ?Hlog3; [|congruence|congruence|by apply log_add_fields|].
    - rewrite Hout3. apply (f_equal itable) in Hout3. simpl in Hout3. rewrite Hout3. by destruct s.
    - intros c Hc. rewrite (logged_add _ _ Hop). case_decide; [done|]. apply elem_of_app. by left. }
  split; [rewrite Hlog3, (logged_add _ _ Hop); case_decide; [done|]; apply elem_of_app; right; by apply list_elem_of_singleton|].
  destruct (log_add_fields Hfuel (log s) b) as (Hf1 & Hf2 & Hf3).
  rewrite (loose_held _ _ _ _ Hh) in Hu.
  unfold lcost, pin_new, log_add in *. case_decide as Hin.
  - exists Q, W. split; rewrite ?Hlog3; try done; try lia.
    + eapply solo_outer; [exact Hout3|]. by destruct Hso.
    + intros c. specialize (Hp c). lia.
    + intros c Hc. assert (c ≠ b) by (intros ->; specialize (Hl b Hin); lia).
      rewrite fn_lookup_insert_ne, Hd3, Hd2 by done. by apply Hcl.
    + by rewrite Hu3, Hu2, Hu, (loose_held _ _ _ _ Hh).
  - exists (<[b := Q b + 1]> Q), (W + if decide (Q b = 0) then 1 else 0). split; rewrite ?Hlog3; try done; simpl; try lia.
    + eapply solo_outer; [exact Hout3|]. by destruct Hso.
    + eapply cache_ext; [reflexivity| |exact Hc3]. intros c. destruct (decide (c = b)) as [->|Hc].
      * rewrite fn_lookup_insert, Hpb. unfold held_pins. by rewrite fn_lookup_insert, Hh, decide_True by done.
      * rewrite fn_lookup_insert_ne by done. unfold held_pins. by rewrite fn_lookup_insert_ne by done.
    + intros c. specialize (Hp c). unfold insert, fn_insert. destruct (decide (b = c)); [subst|]; lia.
    + intros c Hc.
      assert (logged (set_l_n (l_n (log s) + 1) (set_l_block (updZ (l_block (log s)) (l_n (log s)) b) (log s))) = logged (log s) ++ [b]) as Hlg.
      { pose proof (logged_add (log s) b Hop) as HL. unfold log_add in HL. by rewrite !decide_False in HL by done. }
      rewrite Hlg in Hc. unfold insert, fn_insert. destruct (decide (b = c)) as [E|E]; [lia|].
      apply elem_of_app in Hc as [Hc|Hc%list_elem_of_singleton]; [by apply Hl|congruence].
    + intros c. unfold insert, fn_insert. destruct (decide (b = c)) as [E|E]; [lia|]. rewrite Hd3, Hd2. apply Hcl.
    + rewrite Hu3, Hu2, Hu, (loose_held _ _ _ _ Hh), loose_fresh, fn_lookup_insert by apply lookup_delete_eq. repeat case_decide; lia.
    + destruct (decide (Q b = 0)); lia.
    + pose proof (log_add_entries Hfuel (log s) b He Hb) as HE. unfold log_add in HE. by rewrite decide_False in HE.
Qed.

Lemma tx_brelse n s V HH b i :
  tx n s V HH → HH !! b = Some i →
  ∃ s', brelse i s = Ok tt s' ∧ outer s' = outer s ∧ fsame s s' ∧ tx n s' V (delete b HH).
Proof.
  intros (Q & W & [Hso Hca Hp Hl Hcl Hu Hbf He Hr Hs]) Hh. pose proof (Hp b) as Hpb.
  assert (Hpb' : held_pins HH Q b = Q b + 1) by (unfold held_pins; by rewrite Hh, decide_True by done).
  destruct (brelse_spec d me pid Hfuel s V _ HH b i Hso Hca Hh) as (s' & Hrun & Ho & Hd & Hdl & Hca' & Hu').
  { intros H1. apply Hcl. lia. }
  rewrite (loose_held _ _ _ _ Hh) in Hu.
  exists s'. split; [done|]. split; [done|]. split; [by apply fsame_outer|].
  destruct (outer_same _ _ Ho) as (_ & _ & _ & Hlog). exists Q, W. split; rewrite ?Hlog, ?Hd; try done.
  - by eapply solo_outer.
  - eapply cache_ext; [reflexivity| |exact Hca']. intros c. destruct (decide (c = b)) as [->|Hc].
    + rewrite fn_lookup_insert, Hpb'. unfold held_pins. rewrite lookup_delete_eq, decide_False by (by intros [? ?]). lia.
    + rewrite fn_lookup_insert_ne by done. unfold held_pins. by rewrite lookup_delete_ne by done.
  - rewrite Hu', Hu, Hpb'. destruct (Z.eqb_spec (Q b + 1) 1); case_decide; lia.
Qed.
End tx.
