(* ===== verification/FsFile.v ===== *)
(** * The blocks of a file

    balloc() and bmap() of kernel/fs.c: the free blocks of the bitmap, the blocks
    an inode names directly and through its indirect block, and how a file grows. *)

From Stdlib Require Import ZArith Lia.
From stdpp Require Import base numbers functions gmap strings countable tactics list.
From S2P Require Import Prelude Machine CString State Spinlock Kalloc Vm VmMap Sched SchedTheory Sleeplock Bio BioList BioCache Log LogTheory LogRun LogOps Fs LogTx FsTheory FsOps FsTx.

Lemma filter_agree {A} (P1 P2 : A → Prop) `{∀ x, Decision (P1 x)} `{∀ x, Decision (P2 x)} (l : list A) :
  (∀ x, x ∈ l → (P1 x ↔ P2 x)) → filter P1 l = filter P2 l.
Proof.
  induction l as [|x l IH]; intros Hl; [done|]. rewrite !filter_cons.
  rewrite IH by (intros y Hy; apply Hl; by apply list_elem_of_further). specialize (Hl x (list_elem_of_here _ _)).
  repeat case_decide; tauto.
Qed.

Lemma filter_all {A} (P1 : A → Prop) `{∀ x, Decision (P1 x)} (l : list A) : (∀ x, x ∈ l → P1 x) → filter P1 l = l.
Proof.
  induction l as [|x l IH]; intros Hl; [done|]. rewrite filter_cons_True by (apply Hl, list_elem_of_here).
  by rewrite IH by (intros y Hy; apply Hl; by apply list_elem_of_further).
Qed.

(** ** The free blocks *)
Definition bitmap (B : superblock) (V : Z → list Z) : list Z := V (sb_bmapstart B).
Definition free_blocks (B : superblock) (V : Z → list Z) : list Z :=
  filter (λ b, bit_free (bitmap B V) b = true) (seqZ 0 (sb_size B)).

(** One bitmap block covers the disk, and no block up to it is free. *)
Record disk_ok (B : superblock) (V : Z → list Z) : Prop := {
  dk_len : ∀ b, length (V b) = 1024%nat;
  dk_bytes : bytes_ok (bitmap B V);
  dk_start : 0 ≤ sb_bmapstart B < sb_size B;
  dk_size : sb_size B ≤ BPB;
  dk_meta : ∀ b, 0 ≤ b < sb_size B → bit_free (bitmap B V) b = true → sb_bmapstart B < b;
}.

(** A data block that is not free. *)
Definition used (B : superblock) (V : Z → list Z) (b : Z) : Prop :=
  sb_bmapstart B < b < sb_size B ∧ bit_free (bitmap B V) b = false.

Lemma free_first B V bi rest : free_blocks B V = bi :: rest → first_free (bitmap B V) (sb_size B) bi.
Proof.
  intros Hf. assert (Hin : bi ∈ free_blocks B V) by (rewrite Hf; apply list_elem_of_here).
  apply list_elem_of_filter in Hin as [Hfree Hr%elem_of_seqZ]. split; [lia|]. split; [done|]. intros k Hk.
  destruct (bit_free (bitmap B V) k) eqn:Hb; [|done]. exfalso. unfold free_blocks in Hf.
  replace (sb_size B) with (k + (1 + (sb_size B - k - 1))) in Hf by lia. rewrite seqZ_app, (seqZ_app (0 + k)), !filter_app in Hf by lia.
  change (seqZ (0 + k) 1) with [0 + k] in Hf. rewrite (filter_cons_True _ (0 + k)) in Hf by (by rewrite Z.add_0_l).
  destruct (filter _ (seqZ 0 k)) as [|x l] eqn:E; simpl in Hf; injection Hf; [lia|]. intros _ ->.
  assert (Hx : bi ∈ bi :: l) by apply list_elem_of_here. rewrite <- E in Hx.
  apply list_elem_of_filter in Hx as [_ Hx%elem_of_seqZ]. lia.
Qed.

(** What allocating [bi] does to the disk. *)
Record taken (B : superblock) (V : Z → list Z) (bi : Z) (V' : Z → list Z) : Prop := {
  tk_disk : disk_ok B V';
  tk_zero : V' bi = replicate 1024 0;
  tk_same : ∀ c, c ≠ bi → c ≠ sb_bmapstart B → V' c = V c;
  tk_bits : ∀ k, 0 ≤ k < BPB → bit_free (bitmap B V') k = if decide (k = bi) then false else bit_free (bitmap B V) k;
  tk_free : ∀ rest, free_blocks B V = bi :: rest → free_blocks B V' = rest;
  tk_was : bit_free (bitmap B V) bi = true ∧ sb_bmapstart B < bi < sb_size B;
}.

Lemma take_block B V bi rest : disk_ok B V → free_blocks B V = bi :: rest →
  taken B V bi (<[bi := replicate 1024 0]> (<[sb_bmapstart B := bit_set (bitmap B V) bi]> V)).
Proof.
  intros Hd Hf. destruct (free_first _ _ _ _ Hf) as (Hbi & Hfree & Hbefore). pose proof (dk_meta _ _ Hd bi Hbi Hfree) as Hm.
  pose proof (dk_size _ _ Hd) as Hsz. change BPB with 8192 in *. set (V' := <[bi := _]> _).
  assert (Hbm : bitmap B V' = bit_set (bitmap B V) bi) by (unfold bitmap, V'; by rewrite fn_lookup_insert_ne, fn_lookup_insert by lia).
  assert (Hbits : ∀ k, 0 ≤ k < 8192 → bit_free (bitmap B V') k = if decide (k = bi) then false else bit_free (bitmap B V) k).
  { intros k Hk. rewrite Hbm. apply bit_set_free; [apply (dk_bytes _ _ Hd)|change BPB with 8192; lia|done]. }
  assert (Hbytes : bytes_ok (bitmap B V')).
  { rewrite Hbm. apply bytes_ok_upd; [apply (dk_bytes _ _ Hd)|]. Z.div_mod_to_equations. lia. }
  split; try done.
  - split; [|done|apply Hd|apply Hd|].
    + intros b. unfold V', insert, fn_insert. repeat case_decide; [by rewrite length_replicate| |apply Hd].
      destruct Hbytes as [Hl _]. by rewrite Hbm in Hl.
    + intros b Hb. rewrite Hbits by lia. case_decide; [done|]. by apply Hd.
  - unfold V'. by rewrite fn_lookup_insert.
  - intros c H1 H2. unfold V'. by rewrite !fn_lookup_insert_ne.
  - intros r Hr. rewrite Hf in Hr. injection Hr as <-. assert (Hnd : NoDup (bi :: rest)) by (rewrite <- Hf; apply NoDup_filter, NoDup_seqZ).
    apply NoDup_cons in Hnd as [Hni _]. transitivity (filter (λ b, b ≠ bi) (free_blocks B V)).
    + unfold free_blocks. rewrite list_filter_filter. apply filter_agree. intros b Hb%elem_of_seqZ.
      rewrite Hbits by lia. case_decide; naive_solver.
    + rewrite Hf, filter_cons_False by naive_solver. apply filter_all. intros b Hb ->. done.
  - split; [done|lia].
Qed.

(** ** The blocks an inode names

    Slot -1 is the indirect block, slot k the block of bytes [k * BSIZE] to
    [(k + 1) * BSIZE]; 0 means that there is none. *)
Definition IND (ip : inode) : Z := nthZ (i_addrs ip) NDIRECT.
Definition fblk (V : Z → list Z) (ip : inode) (k : Z) : Z :=
  if k <? NDIRECT then nthZ (i_addrs ip) k
  else if IND ip =? 0 then 0 else ldw (V (IND ip)) (4 * (k - NDIRECT)).
Definition slot (V : Z → list Z) (ip : inode) (k : Z) : Z := if k =? -1 then IND ip else fblk V ip k.

(** A byte of the file. *)
Definition fbyte (V : Z → list Z) (ip : inode) (o : Z) : Z :=
  let b := fblk V ip (o / BSIZE) in if b =? 0 then 0 else nthZ (V b) (o mod BSIZE).

(** The blocks of a file are data blocks marked used, and all different. *)
Record file_ok (B : superblock) (V : Z → list Z) (ip : inode) : Prop := {
  fo_len : length (i_addrs ip) = 13%nat;
  fo_used : ∀ k, -1 ≤ k < MAXFILE → slot V ip k ≠ 0 → used B V (slot V ip k);
  fo_inj : ∀ j k, -1 ≤ j < MAXFILE → -1 ≤ k < MAXFILE → slot V ip j ≠ 0 → slot V ip j = slot V ip k → j = k;
}.

(** The file grows: it keeps the blocks it has, and new blocks come from the
    free ones, with zeros in them. *)
Record grows (B : superblock) (V V' : Z → list Z) (ip ip' : inode) : Prop := {
  gr_disk : disk_ok B V';
  gr_file : file_ok B V' ip';
  gr_inode : ∃ a, ip' = set_i_addrs a ip;
  gr_slot : ∀ k, -1 ≤ k < MAXFILE → slot V ip k ≠ 0 → slot V' ip' k = slot V ip k;
  gr_new : ∀ k, -1 ≤ k < MAXFILE → slot V ip k = 0 → slot V' ip' k = 0 ∨
    bit_free (bitmap B V) (slot V' ip' k) = true ∧ (0 ≤ k → V' (slot V' ip' k) = replicate 1024 0);
  gr_frame : ∀ c, 0 ≤ c < BPB → bit_free (bitmap B V) c = false → c ≠ sb_bmapstart B → (IND ip ≠ 0 → c ≠ IND ip) → V' c = V c;
  gr_bits : ∀ c, 0 ≤ c < BPB → bit_free (bitmap B V) c = false → bit_free (bitmap B V') c = false;
}.

Lemma slot_ind V ip : slot V ip (-1) = IND ip.
Proof. done. Qed.

Lemma slot_fblk V ip k : 0 ≤ k → slot V ip k = fblk V ip k.
Proof. intros Hk. unfold slot. by rewrite (proj2 (Z.eqb_neq k (-1))) by lia. Qed.

(** What holds of the block in a slot. *)
Lemma slot_used B V ip k : disk_ok B V → file_ok B V ip → -1 ≤ k < MAXFILE → slot V ip k ≠ 0 →
  0 ≤ slot V ip k < BPB ∧ slot V ip k ≠ sb_bmapstart B ∧ bit_free (bitmap B V) (slot V ip k) = false ∧ (0 ≤ k → slot V ip k ≠ IND ip).
Proof.
  intros Hd Hf Hk Hne. destruct (fo_used _ _ _ Hf k Hk Hne) as [Hr Hb]. pose proof (dk_start _ _ Hd). pose proof (dk_size _ _ Hd).
  split; [lia|]. split; [lia|]. split; [done|]. intros Hk0 He. rewrite <- (slot_ind V) in He.
  pose proof (fo_inj _ _ _ Hf k (-1) Hk ltac:(done) Hne He). lia.
Qed.

Lemma grows_refl B V ip : disk_ok B V → file_ok B V ip → grows B V V ip ip.
Proof. intros Hd Hf. split; try done; [exists (i_addrs ip); by destruct ip|auto]. Qed.

Lemma grows_trans B V1 V2 V3 p1 p2 p3 : disk_ok B V1 → file_ok B V1 p1 →
  grows B V1 V2 p1 p2 → grows B V2 V3 p2 p3 → grows B V1 V3 p1 p3.
Proof.
  intros Hd Hf [D2 F2 (a2 & I2) S2 N2 R2 B2] [D3 F3 (a3 & I3) S3 N3 R3 B3]. split; [done|done|exists a3; by rewrite I3, I2|..].
  - intros k Hk Hne. specialize (S2 k Hk Hne). rewrite <- S2. apply S3; [done|]. by rewrite S2.
  - intros k Hk H0. destruct (decide (slot V2 p2 k = 0)) as [E|E].
    + destruct (N3 k Hk E) as [?|[Hb Hz]]; [by left|]. destruct (decide (slot V3 p3 k = 0)) as [|Hne]; [by left|]. right. split; [|done].
      destruct (slot_used B V3 p3 k D3 F3 Hk Hne) as (Hr & _). destruct (bit_free (bitmap B V1) _) eqn:Eb; [done|].
      apply B2 in Eb; [|done]. congruence.
    + right. destruct (N2 k Hk H0) as [?|[Hb Hz]]; [done|]. rewrite (S3 k Hk E). split; [done|]. intros Hk0. rewrite <- Hz by done.
      destruct (slot_used B V2 p2 k D2 F2 Hk E) as (Hr & H1 & H2 & H3). apply R3; auto.
  - intros c Hc Hb H1 H2. rewrite <- (R2 c) by done. apply R3; [done|by apply B2|done|]. rewrite <- (slot_ind V2).
    assert (Hk : -1 ≤ -1 < MAXFILE) by done. destruct (decide (slot V1 p1 (-1) = 0)) as [E|E]; [|rewrite (S2 _ Hk E); done].
    intros Hne ->. destruct (N2 _ Hk E) as [E2|[E2 _]]; congruence.
  - intros c Hc Hb. by apply B3, B2.
Qed.

(** A new block in an empty slot. *)
Lemma grow_step B V V1 V' ip ip' k0 bi :
  disk_ok B V → file_ok B V ip → taken B V bi V1 → disk_ok B V' → (∀ c, c ≠ IND ip ∨ IND ip = 0 → V' c = V1 c) →
  -1 ≤ k0 < MAXFILE → slot V ip k0 = 0 → slot V' ip' k0 = bi →
  (∀ j, -1 ≤ j < MAXFILE → j ≠ k0 → slot V' ip' j = slot V ip j) → (∃ a, ip' = set_i_addrs a ip) →
  length (i_addrs ip') = 13%nat → grows B V V' ip ip'.
Proof.
  intros Hd Hf Ht Hd' HV Hk0 H0 Hnew Hold Hip Hlen. pose proof Ht as [Hd1 Hz Hs Hbits _ [Hfree Hr]].
  pose proof (dk_size _ _ Hd) as Hsz. pose proof (dk_start _ _ Hd) as Hst.
  assert (HI : ∀ c, c ≠ IND ip ∨ IND ip = 0 ∨ c = sb_bmapstart B ∨ c = bi → V' c = V1 c).
  { intros c Hc. apply HV. destruct (decide (IND ip = 0)) as [|Hne]; [by right|left]. intros ->.
    destruct (slot_used B V ip (-1) Hd Hf) as (_ & H1 & H2 & _); [done|done|]. rewrite slot_ind in *. destruct Hc as [?|[?|[?|E]]]; try done.
    rewrite E in H2. congruence. }
  assert (Hbm : bitmap B V' = bitmap B V1) by (unfold bitmap; apply HI; auto).
  assert (Hns : ∀ j, -1 ≤ j < MAXFILE → slot V ip j ≠ bi).
  { intros j Hj E. destruct (slot_used B V ip j Hd Hf Hj) as (_ & _ & H2 & _); [lia|]. rewrite E in H2. congruence. }
  split; [done| |done|..].
  - split; [done|..].
    + intros k Hk Hne. destruct (decide (k = k0)) as [->|Hkk].
      * rewrite Hnew. split; [done|]. rewrite Hbm, Hbits by lia. by rewrite decide_True.
      * rewrite Hold in Hne |- * by done. destruct (fo_used _ _ _ Hf k Hk Hne) as [H1 H2]. split; [done|].
        rewrite Hbm, Hbits by lia. by case_decide.
    + intros j k Hj Hk Hne He. destruct (decide (j = k0)) as [->|Hjk], (decide (k = k0)) as [->|Hkk]; [done|..].
      * rewrite Hnew, Hold in He by done. by destruct (Hns k).
      * rewrite Hnew, Hold in He by done. by destruct (Hns j).
      * rewrite !Hold in He by done. rewrite Hold in Hne by done. by apply (fo_inj _ _ _ Hf).
  - intros k Hk Hne. apply Hold; [done|]. intros ->. done.
  - intros k Hk Hk'. destruct (decide (k = k0)) as [->|Hkk]; [right|left; by rewrite Hold]. rewrite Hnew. split; [done|].
    intros _. rewrite <- Hz. apply HI. auto.
  - intros c Hc Hb H1 H2. rewrite HI by (destruct (decide (IND ip = 0)); auto). apply Hs; [|done]. intros ->. congruence.
  - intros c Hc Hb. rewrite Hbm, Hbits by done. by case_decide.
Qed.

(** Growing does not change a byte. *)
Lemma fbyte_grows B V V' ip ip' o : disk_ok B V → file_ok B V ip → grows B V V' ip ip' → 0 ≤ o < MAXFILE * BSIZE →
  fbyte V' ip' o = fbyte V ip o.
Proof.
  intros Hd Hf [_ _ _ S N R _] Ho. unfold fbyte. assert (Hk : -1 ≤ o / BSIZE < MAXFILE ∧ 0 ≤ o / BSIZE).
  { change BSIZE with 1024 in *. Z.div_mod_to_equations. lia. }
  destruct Hk as [Hk H0]. rewrite <- !slot_fblk by done. destruct (Z.eqb_spec (slot V ip (o / BSIZE)) 0) as [E|E].
  - destruct (N _ Hk E) as [->|[_ Hz]]; [done|]. rewrite Hz by done. destruct (_ =? 0); [done|]. apply nthZ_zero.
  - rewrite (S _ Hk E). rewrite (proj2 (Z.eqb_neq _ _)) by done.
    destruct (slot_used B V ip _ Hd Hf Hk E) as (H1 & H2 & H3 & H4). rewrite R; auto.
Qed.

(** The three ways a file gets a block. *)
Lemma grow_direct B V V1 ip k bi : disk_ok B V → file_ok B V ip → taken B V bi V1 → 0 ≤ k < NDIRECT → fblk V ip k = 0 →
  grows B V V1 ip (set_i_addrs (updZ (i_addrs ip) k bi) ip) ∧ fblk V1 (set_i_addrs (updZ (i_addrs ip) k bi) ip) k = bi.
Proof.
  intros Hd Hf Ht Hk H0. change NDIRECT with 12 in Hk. pose proof (fo_len _ _ _ Hf) as Hlen.
  assert (Hnew : fblk V1 (set_i_addrs (updZ (i_addrs ip) k bi) ip) k = bi).
  { unfold fblk. change NDIRECT with 12. rewrite (proj2 (Z.ltb_lt k 12)) by lia. simpl. apply nthZ_updZ_eq. lia. }
  split; [|done]. apply (grow_step B V V1 V1 ip _ k bi); try done; rewrite ?slot_fblk by lia; try done.
  - apply Ht.
  - change MAXFILE with 268. lia.
  - assert (HI : IND (set_i_addrs (updZ (i_addrs ip) k bi) ip) = IND ip) by (unfold IND; simpl; apply nthZ_updZ_ne; change NDIRECT with 12; lia).
    intros j Hj Hne. unfold slot, fblk. rewrite !HI. destruct (Z.eqb_spec j (-1)); [done|]. change NDIRECT with 12.
    destruct (Z.ltb_spec j 12); simpl; [apply nthZ_updZ_ne; lia|]. destruct (Z.eqb_spec (IND ip) 0) as [|Hi]; [done|].
    destruct (slot_used B V ip (-1) Hd Hf) as (_ & H1 & H2 & _); [done|done|]. rewrite slot_ind in *.
    rewrite (tk_same _ _ _ _ Ht); [done| |done]. intros E. rewrite E in H2. destruct (tk_was _ _ _ _ Ht). congruence.
  - by eexists.
  - simpl. by rewrite length_updZ.
Qed.

Lemma grow_ind B V V1 ip bi : disk_ok B V → file_ok B V ip → taken B V bi V1 → IND ip = 0 →
  grows B V V1 ip (set_i_addrs (updZ (i_addrs ip) NDIRECT bi) ip) ∧ IND (set_i_addrs (updZ (i_addrs ip) NDIRECT bi) ip) = bi.
Proof.
  intros Hd Hf Ht H0. pose proof (fo_len _ _ _ Hf) as Hlen.
  assert (Hnew : IND (set_i_addrs (updZ (i_addrs ip) NDIRECT bi) ip) = bi).
  { unfold IND. simpl. apply nthZ_updZ_eq. change NDIRECT with 12. lia. }
  split; [|done]. apply (grow_step B V V1 V1 ip _ (-1) bi); try done.
  - apply Ht.
  - intros j Hj Hne. rewrite !slot_fblk by lia. unfold fblk. rewrite Hnew, H0. change NDIRECT with 12.
    destruct (Z.ltb_spec j 12); simpl; [apply nthZ_updZ_ne; lia|]. destruct (Z.eqb_spec bi 0); [done|].
    rewrite (tk_zero _ _ _ _ Ht). apply ldw_zero.
  - by eexists.
  - simpl. by rewrite length_updZ.
Qed.

Lemma grow_entry B V V1 ip k bi : let ind := IND ip in
  let V' := <[ind := splice (V1 ind) (4 * (k - NDIRECT)) (le_bytes 4 bi)]> V1 in
  disk_ok B V → file_ok B V ip → taken B V bi V1 → NDIRECT ≤ k < MAXFILE → ind ≠ 0 → fblk V ip k = 0 →
  grows B V V' ip ip ∧ fblk V' ip k = bi.
Proof.
  intros ind V' Hd Hf Ht Hk Hi H0. destruct (slot_used B V ip (-1) Hd Hf) as (H1 & H2 & H3 & _); [done|done|].
  rewrite slot_ind in *. fold ind in H1, H2, H3. change NDIRECT with 12 in *. change MAXFILE with 268 in *.
  destruct (tk_was _ _ _ _ Ht) as [Hw Hr]. pose proof (dk_size _ _ Hd) as Hsz. change BPB with 8192 in Hsz. pose proof (dk_start _ _ Hd) as Hst.
  assert (Hib : ind ≠ bi) by congruence. assert (Hl1 : length (V1 ind) = 1024%nat) by apply Ht.
  assert (HVi : V' ind = splice (V1 ind) (4 * (k - 12)) (le_bytes 4 bi)) by apply fn_lookup_insert.
  assert (Hnew : fblk V' ip k = bi).
  { unfold fblk. fold ind. change NDIRECT with 12. rewrite (proj2 (Z.ltb_ge k 12)), (proj2 (Z.eqb_neq ind 0)), HVi by lia.
    apply ldw_splice_eq; [done|lia..]. }
  split; [|done]. apply (grow_step B V V1 V' ip ip k bi); try done; rewrite ?slot_fblk by lia; try done.
  - pose proof Ht as [[Hl Hb Hs' Hz Hm] _ _ _ _ _].
    assert (Hbm : bitmap B V' = bitmap B V1) by (unfold bitmap, V'; by rewrite fn_lookup_insert_ne). split; rewrite ?Hbm; try done.
    intros b. destruct (decide (b = ind)) as [->|]; [|unfold V'; rewrite fn_lookup_insert_ne by done; apply Hl].
    rewrite HVi, length_splice; rewrite ?length_le_bytes, ?Hl1; lia.
  - intros c [Hc|Hc]; [|done]. unfold V'. by rewrite fn_lookup_insert_ne.
  - change MAXFILE with 268. lia.
  - intros j Hj Hne. unfold slot, fblk. fold ind. destruct (j =? -1); [done|]. change NDIRECT with 12.
    destruct (Z.ltb_spec j 12); [done|]. destruct (ind =? 0); [done|]. rewrite HVi, ldw_splice_ne by (done || lia).
    by rewrite (tk_same _ _ _ _ Ht).
  - exists (i_addrs ip). by destruct ip.
  - apply Hf.
Qed.

(** What is left to log for the bitmap and the indirect block. *)
Definition lroom (s : kstate) (ip : inode) : Z :=
  lcost s (sb_bmapstart (sb s)) + (if IND ip =? 0 then 1 else lcost s (IND ip)).

Lemma lroom_itable s t ip : lroom (set_itable t s) ip = lroom s ip.
Proof. done. Qed.

(** Blocks still needed for the indirect block. *)
Definition ineed (ip : inode) : Z := if IND ip =? 0 then 1 else 0.

Lemma lroom_range s ip : 0 ≤ lroom s ip ≤ 2.
Proof. unfold lroom. pose proof (lcost_range s (sb_bmapstart (sb s))). pose proof (lcost_range s (IND ip)). case_match; lia. Qed.

Lemma lroom_mono s s' ip : fsame s s' → lroom s' ip ≤ lroom s ip.
Proof.
  intros Hs. unfold lroom. destruct (fsame_parts _ _ Hs) as (-> & _). pose proof (lcost_mono _ _ (sb_bmapstart (sb s)) Hs).
  pose proof (lcost_mono _ _ (IND ip) Hs). case_match; lia.
Qed.

Lemma ineed_range ip : 0 ≤ ineed ip ≤ 1.
Proof. unfold ineed. case_match; lia. Qed.

Definition nfree (B : superblock) (V : Z → list Z) : Z := Z.of_nat (length (free_blocks B V)).

Lemma nfree_same B V V' : bitmap B V' = bitmap B V → nfree B V' = nfree B V.
Proof. intros Hb. unfold nfree, free_blocks. by rewrite Hb. Qed.

Lemma nfree_taken B V bi V' rest : taken B V bi V' → free_blocks B V = bi :: rest → nfree B V' = nfree B V - 1.
Proof. intros Ht Hf. unfold nfree. rewrite (tk_free _ _ _ _ Ht rest Hf), Hf. simpl. lia. Qed.

Section file.
Context `{Env} (d : Z) (me : nat) (pid : Z) (Hfuel : (0 < fuel)%nat).
Implicit Types (V : Z → list Z) (HH : gmap Z nat).
Local Notation tx := (tx d me pid).

(** Reading a block: its buffer is held, and nothing else changes. *)
Lemma tx_read n s V HH b :
  tx n s V HH → 0 ≤ n → HH !! b = None → (size HH ≤ 1)%nat →
  ∃ i s' x, bread d b s = Ok i s' ∧ get_buf i s' = Ok x s' ∧ b_data x = V b ∧ outer s' = outer s ∧ fsame s s' ∧ tx n s' V (<[b := i]> HH).
Proof.
  intros Ht Hn Hb Hs. destruct (tx_bread d me pid Hfuel n s V HH b Ht Hn Hb Hs) as (i & s' & Hr & Ho & Hf & Ht').
  destruct (tx_get d me pid Hfuel n s' V _ b i Ht' (lookup_insert_eq _ _ _)) as (x & Hx & Hd). by exists i, s', x.
Qed.

Lemma tx_release n s V HH b i :
  tx n s V (<[b := i]> HH) → HH !! b = None → ∃ s', brelse i s = Ok tt s' ∧ outer s' = outer s ∧ fsame s s' ∧ tx n s' V HH.
Proof.
  intros Ht Hb. destruct (tx_brelse d me pid Hfuel n s V _ b i Ht (lookup_insert_eq _ _ _)) as (s' & Hr & Ho & Hf & Ht').
  exists s'. rewrite delete_insert_id in Ht' by done. done.
Qed.

(** Replacing the content of a held block, logged, and released. *)
Lemma tx_commit n s V HH b i (g : list Z → list Z) :
  tx n s V (<[b := i]> HH) → HH !! b = None → 1 ≤ n → 1 ≤ l_outstanding (log s) → 0 ≤ b < 2 ^ 31 →
  ∃ s', (upd_buf i (λ x, set_b_data (g (b_data x)) x);; log_write i;; brelse i) s = Ok tt s' ∧ itable s' = itable s ∧
    fsame s s' ∧ b ∈ logged (log s') ∧ tx (n - lcost s b) s' (<[b := g (V b)]> V) HH.
Proof.
  intros Ht Hb Hn Ho Hr. destruct (tx_put d me pid Hfuel n s V _ b i g Ht (lookup_insert_eq _ _ _) Hn Ho Hr) as (s1 & Hr1 & Ho1 & Hf1 & Hl1 & Ht1).
  destruct (tx_release _ s1 _ HH b i Ht1 Hb) as (s2 & Hr2 & Ho2 & Hf2 & Ht2).
  apply bind_inv in Hr1 as (? & sm & Hm & Hr1).
  exists s2. split; [by rewrite (bind_ok _ _ _ _ _ Hm), (bind_ok _ _ _ _ _ Hr1)|].
  split; [apply (f_equal itable) in Ho1, Ho2; simpl in *; congruence|].
  split; [by eapply fsame_trans|]. split; [by apply Hf2|done].
Qed.

Lemma balloc_tx n s V HH bi rest :
  let bm := sb_bmapstart (sb s) in
  disk_ok (sb s) V → free_blocks (sb s) V = bi :: rest → tx n s V HH → 1 + lcost s bm ≤ n → 1 ≤ l_outstanding (log s) →
  HH !! bm = None → HH !! bi = None → (size HH ≤ 1)%nat →
  ∃ s' V', balloc d s = Ok bi s' ∧ itable s' = itable s ∧ fsame s s' ∧ bm ∈ logged (log s') ∧ bi ∈ logged (log s') ∧
    taken (sb s) V bi V' ∧ tx (n - lcost s bm - 1) s' V' HH.
Proof.
  intros bm Hd Hf Ht Hn Hout Hbm Hbi Hsz. pose proof (take_block _ _ _ _ Hd Hf) as Htk. fold bm in Htk.
  destruct (free_first _ _ _ _ Hf) as (Hr & Hfree & Hbefore). pose proof (tk_was _ _ _ _ Htk) as [_ Hw]. fold bm in Hw.
  pose proof (dk_size _ _ Hd) as Hszb. pose proof (dk_start _ _ Hd) as Hst. fold bm in Hst. change BPB with 8192 in Hszb.
  pose proof (lcost_range s bm) as Hcr.
  destruct (tx_read n s V HH bm Ht ltac:(lia) Hbm Hsz) as (i & s1 & y & Hr1 & Hy & Hdat & Ho1 & Hf1 & Ht1).
  destruct (tx_commit n s1 V HH bm i (λ _, bit_set (V bm) bi) Ht1 Hbm) as (s2 & Hr2 & Hi2 & Hf2 & Hl2 & Ht2);
    [lia|by rewrite (fs_open _ _ Hf1)|lia|].
  destruct (tx_bread d me pid Hfuel _ s2 _ HH bi Ht2) as (j & s3 & Hr3 & Ho3 & Hf3 & Ht3); [pose proof (lcost_mono s s1 bm Hf1); lia|done|done|].
  destruct (tx_commit _ s3 _ HH bi j (λ _, replicate 1024 0) Ht3 Hbi) as (s4 & Hr4 & Hi4 & Hf4 & Hl4 & Ht4);
    [pose proof (lcost_mono s s1 bm Hf1); lia|by rewrite (fs_open _ _ Hf3), (fs_open _ _ Hf2), (fs_open _ _ Hf1)|lia|].
  exists s4, (<[bi := replicate 1024 0]> (<[bm := bit_set (V bm) bi]> V)). split; [|split; [|split; [|split; [|split; [|split]]]]].
  - assert (Hbit : ∀ k, balloc_bit d i 0 k s1 = if bit_free (V bm) k then (upd_buf i (set_b_data (bit_set (V bm) k));;
      log_write i;; brelse i;; bzero d (0 + k);; mret (Some (0 + k))) s1 else Ok None s1).
    { intros k. unfold balloc_bit. rewrite (bind_ok _ _ _ _ _ Hy), Hdat. by destruct (bit_free (V bm) k). }
    assert (Hz : bzero d bi s2 = Ok tt s4) by (unfold bzero; by rewrite (bind_ok _ _ _ _ _ Hr3)).
    assert (Hin : for_each (seqZ 0 (sb_size (sb s))) (balloc_bit d i 0) s1 = Ok (Some bi) s4).
    { apply (find_bit Hfuel _ _ bi); [lia|intros k Hk; rewrite Hbit; change (V bm) with (bitmap (sb s) V); by rewrite Hbefore by lia|].
      rewrite Hbit. change (bit_free (V bm) bi) with (bit_free (bitmap (sb s) V) bi). rewrite Hfree, (then3 _ _ _ _ _ _ Hr2).
      by rewrite (bind_ok _ _ _ _ _ Hz). }
    apply (balloc_one d s bi i s1); [change BPB with 8192; lia|done|done].
  - apply (f_equal itable) in Ho1, Ho3. simpl in *. congruence.
  - by do 3 (eapply fsame_trans; [done|]).
  - apply Hf4, Hf3, Hl2.
  - done.
  - exact Htk.
  - eapply tx_weaken; [exact Ht4|]. pose proof (lcost_mono s s1 bm Hf1). pose proof (lcost_range s3 bi). lia.
Qed.
(** ** bmap() *)

(** The two halves of bmap() for a block behind the indirect block. *)
Definition need_ind (i : nat) (ip : inode) : M Z :=
  let ind := nthZ (i_addrs ip) NDIRECT in
  if ind =? 0 then
    addr ← balloc (i_dev ip);
    upd_inode i (λ ip, set_i_addrs (updZ (i_addrs ip) NDIRECT addr) ip);;
    mret addr
  else mret ind.

Definition need_entry (dv ind bn : Z) : M Z :=
  bp ← bread dv ind;
  b ← get_buf bp;
  let addr := ldw (b_data b) (4 * bn) in
  addr ← (if addr =? 0 then
            addr ← balloc dv;
            upd_buf bp (λ b, set_b_data (splice (b_data b) (4 * bn) (le_bytes 4 addr)) b);;
            log_write bp;;
            mret addr
          else mret addr);
  brelse bp;;
  mret addr.

Lemma bmap_split s i ip k : itable s !! i = Some ip → NDIRECT ≤ k < MAXFILE →
  bmap i k s = (ind ← need_ind i ip; need_entry (i_dev ip) ind (k - NDIRECT)) s.
Proof.
  intros Hi Hk. change MAXFILE with 268 in Hk. unfold bmap. rewrite (bind_ok _ _ _ _ _ (get_inode_eq i s ip Hi)).
  change NDIRECT with 12 in *. change NINDIRECT with 256. rewrite (proj2 (Z.ltb_ge k 12)), (proj2 (Z.ltb_lt (k - 12) 256)) by lia. done.
Qed.

Lemma entry_hit n s V ind bn : tx n s V ∅ → 0 ≤ n → ldw (V ind) (4 * bn) ≠ 0 →
  ∃ s', need_entry d ind bn s = Ok (ldw (V ind) (4 * bn)) s' ∧ outer s' = outer s ∧ fsame s s' ∧ tx n s' V ∅.
Proof.
  intros Ht Hn Hne.
  destruct (tx_read n s V ∅ ind Ht Hn (lookup_empty _)) as (j & s1 & x & Hr1 & Hx & Hdat & Ho1 & Hf1 & Ht1); [rewrite map_size_empty; lia|].
  destruct (tx_release n s1 V ∅ _ j Ht1 (lookup_empty _)) as (s2 & Hr2 & Ho2 & Hf2 & Ht2).
  exists s2. split; [|split; [congruence|split; [by eapply fsame_trans|done]]]. unfold need_entry.
  rewrite (bind_ok _ _ _ _ _ Hr1), (bind_ok _ _ _ _ _ Hx), Hdat.
  rewrite (proj2 (Z.eqb_neq _ 0)) by done. rewrite (bind_ok _ _ s1 _ s1) by done. by rewrite (bind_ok _ _ _ _ _ Hr2).
Qed.

Lemma bmap_hit n s V i ip k :
  itable s !! i = Some ip → i_dev ip = d → tx n s V ∅ → 0 ≤ n → 0 ≤ k < MAXFILE → fblk V ip k ≠ 0 →
  ∃ s', bmap i k s = Ok (fblk V ip k) s' ∧ outer s' = outer s ∧ fsame s s' ∧ tx n s' V ∅.
Proof.
  intros Hi Hdev Ht Hn Hk Hne. destruct (decide (k < NDIRECT)) as [Hlt|Hge].
  - exists s. split; [|split; [done|split; [apply fsame_refl|done]]]. unfold bmap. rewrite (bind_ok _ _ _ _ _ (get_inode_eq i s ip Hi)).
    unfold fblk in *. rewrite (proj2 (Z.ltb_lt _ _)) in * by done. by rewrite (proj2 (Z.eqb_neq _ 0)) by done.
  - rewrite (bmap_split s i ip k Hi) by lia. unfold fblk in *. rewrite (proj2 (Z.ltb_ge _ _)) in * by lia. unfold need_ind. fold (IND ip).
    destruct (IND ip =? 0); [done|]. rewrite (bind_ok _ _ s (IND ip) s), Hdev by done. by apply entry_hit.
Qed.

(** The state when a block has been found or allocated: [m] more blocks may be logged. *)
Record mapped (m : Z) (s : kstate) V (i : nat) (ip : inode) (s' : kstate) V' (ip' : inode) : Prop := {
  ma_table : itable s' = <[i := ip']> (itable s);
  ma_same : fsame s s';
  ma_grows : grows (sb s) V V' ip ip';
  ma_tx : tx (lroom s' ip' + m) s' V' ∅;
}.

Lemma bmap_direct m s V i ip k :
  itable s !! i = Some ip → i_dev ip = d → disk_ok (sb s) V → file_ok (sb s) V ip → 0 ≤ k < NDIRECT → fblk V ip k = 0 →
  1 ≤ nfree (sb s) V → 1 ≤ m → 1 ≤ l_outstanding (log s) → tx (lroom s ip + m) s V ∅ →
  ∃ s' V' ip', bmap i k s = Ok (fblk V' ip' k) s' ∧ fblk V' ip' k ≠ 0 ∧ fblk V' ip' k ∈ logged (log s') ∧
    mapped (m - 1) s V i ip s' V' ip' ∧ nfree (sb s) V' = nfree (sb s) V - 1 ∧ IND ip' = IND ip.
Proof.
  intros Hi Hdev Hd Hf Hk H0 Hfr Hm Hout Ht. change NDIRECT with 12 in Hk.
  destruct (free_blocks (sb s) V) as [|bi rest] eqn:Hfb; [unfold nfree in Hfr; rewrite Hfb in Hfr; simpl in Hfr; lia|].
  pose proof (lcost_range s (sb_bmapstart (sb s))) as Hc1. pose proof (lcost_range s (IND ip)) as Hc2.
  destruct (balloc_tx _ s V ∅ bi rest Hd Hfb Ht) as (s1 & V1 & Hr1 & Hi1 & Hf1 & Hl1 & Hl2 & Htk & Ht1);
    [unfold lroom; case_match; lia|done|apply lookup_empty|apply lookup_empty|rewrite map_size_empty; lia|].
  destruct (grow_direct _ _ _ _ k bi Hd Hf Htk Hk H0) as [Hg Hb]. set (ip' := set_i_addrs _ _) in *.
  assert (HI : IND ip' = IND ip) by (unfold IND, ip'; simpl; apply nthZ_updZ_ne; change NDIRECT with 12; lia).
  exists (set_itable (<[i := ip']> (itable s1)) s1), V1, ip'. rewrite Hb. split.
  { unfold bmap. rewrite (bind_ok _ _ _ _ _ (get_inode_eq i s ip Hi)). change NDIRECT with 12. rewrite (proj2 (Z.ltb_lt k 12)) by lia.
    unfold fblk in H0. change NDIRECT with 12 in H0. rewrite (proj2 (Z.ltb_lt k 12)) in H0 by lia. rewrite H0. simpl. rewrite Hdev.
    rewrite (bind_ok _ _ _ _ _ Hr1), (bind_ok _ _ _ _ _ (upd_inode_eq i _ s1 ip ltac:(by rewrite Hi1))). done. }
  destruct (tk_was _ _ _ _ Htk) as [_ Hr]. pose proof (dk_start _ _ Hd) as Hst. split; [lia|]. split; [done|].
  split; [|split; [by eapply nfree_taken|done]]. split; [simpl; by rewrite Hi1|eapply fsame_trans; [done|apply fsame_itable]|done|].
  apply tx_itable. eapply tx_weaken; [exact Ht1|]. rewrite lroom_itable. unfold lroom. destruct (fsame_parts _ _ Hf1) as (-> & _).
  rewrite (lcost_logged s1 (sb_bmapstart (sb s))), HI by done. pose proof (lcost_mono _ _ (IND ip) Hf1). case_match; lia.
Qed.
Lemma ind_spec m s V i ip :
  itable s !! i = Some ip → i_dev ip = d → disk_ok (sb s) V → file_ok (sb s) V ip →
  ineed ip ≤ nfree (sb s) V → 0 ≤ m → 1 ≤ l_outstanding (log s) → tx (lroom s ip + m) s V ∅ →
  ∃ s' V' ip', need_ind i ip s = Ok (IND ip') s' ∧ IND ip' ≠ 0 ∧ mapped m s V i ip s' V' ip' ∧ nfree (sb s) V' = nfree (sb s) V - ineed ip.
Proof.
  intros Hi Hdev Hd Hf Hfr Hm Hout Ht. unfold need_ind. fold (IND ip). destruct (Z.eqb_spec (IND ip) 0) as [E|E].
  2:{ exists s, V, ip. split; [done|]. split; [done|]. unfold ineed. rewrite (proj2 (Z.eqb_neq _ 0)) by done. split; [|lia].
      split; [by rewrite list_insert_id|apply fsame_refl|by apply grows_refl|done]. }
  unfold ineed, lroom in *. rewrite E in *. simpl in *.
  destruct (free_blocks (sb s) V) as [|bi rest] eqn:Hfb; [unfold nfree in Hfr; rewrite Hfb in Hfr; simpl in Hfr; lia|].
  destruct (balloc_tx _ s V ∅ bi rest Hd Hfb Ht) as (s1 & V1 & Hr1 & Hi1 & Hf1 & Hl1 & Hl2 & Htk & Ht1);
    [lia|done|apply lookup_empty|apply lookup_empty|rewrite map_size_empty; lia|].
  destruct (grow_ind _ _ _ _ bi Hd Hf Htk E) as [Hg Hb]. set (ip' := set_i_addrs _ _) in *.
  exists (set_itable (<[i := ip']> (itable s1)) s1), V1, ip'. rewrite Hb. split.
  { rewrite Hdev. by rewrite (bind_ok _ _ _ _ _ Hr1), (bind_ok _ _ _ _ _ (upd_inode_eq i _ s1 ip ltac:(by rewrite Hi1))). }
  destruct (tk_was _ _ _ _ Htk) as [_ Hr]. pose proof (dk_start _ _ Hd) as Hst. split; [lia|]. split; [|by eapply nfree_taken].
  split; [simpl; by rewrite Hi1|eapply fsame_trans; [done|apply fsame_itable]|done|].
  apply tx_itable. eapply tx_weaken; [exact Ht1|]. rewrite lroom_itable. unfold lroom. destruct (fsame_parts _ _ Hf1) as (-> & _).
  rewrite Hb, (proj2 (Z.eqb_neq bi 0)), !lcost_logged by (done || lia). lia.
Qed.

Lemma entry_new m s V ip k bi rest :
  disk_ok (sb s) V → file_ok (sb s) V ip → IND ip ≠ 0 → NDIRECT ≤ k < MAXFILE → fblk V ip k = 0 → free_blocks (sb s) V = bi :: rest →
  2 ≤ m → 1 ≤ l_outstanding (log s) → tx (lroom s ip + m) s V ∅ →
  ∃ s' V', need_entry d (IND ip) (k - NDIRECT) s = Ok bi s' ∧ bi ∈ logged (log s') ∧ fblk V' ip k = bi ∧ bi ≠ 0 ∧ itable s' = itable s ∧
    fsame s s' ∧ grows (sb s) V V' ip ip ∧ tx (lroom s' ip + (m - 1)) s' V' ∅ ∧ nfree (sb s) V' = nfree (sb s) V - 1.
Proof.
  intros Hd Hf HI Hk H0 Hfb Hm Hout Ht. set (ind := IND ip) in *. destruct (slot_used _ V ip (-1) Hd Hf ltac:(done) HI) as (Hi1 & Hi2 & Hi3 & _).
  rewrite slot_ind in *. fold ind in Hi1, Hi2, Hi3. set (bm := sb_bmapstart (sb s)) in *.
  assert (Hroom : lroom s ip = lcost s bm + lcost s ind) by (unfold lroom; fold bm ind; by rewrite (proj2 (Z.eqb_neq _ 0))).
  pose proof (lcost_range s bm) as Hc1. pose proof (lcost_range s ind) as Hc2. pose proof (take_block _ _ _ _ Hd Hfb) as Htk0.
  destruct (tk_was _ _ _ _ Htk0) as [Hbf Hbr]. fold bm in Hbr. assert (Hib : ind ≠ bi) by congruence. clear Htk0.
  destruct (tx_read _ s V ∅ ind Ht ltac:(lia) (lookup_empty _)) as (j & s1 & x & Hr1 & Hx & Hdat & Ho1 & Hf1 & Ht1); [rewrite map_size_empty; lia|].
  destruct (fsame_parts _ _ Hf1) as (Hsb1 & _). pose proof (lcost_mono _ _ bm Hf1) as Hm1. pose proof (lcost_range s1 bm) as Hc3.
  destruct (balloc_tx (lroom s ip + m) s1 V (<[ind := j]> ∅) bi rest) as (s2 & V2 & Hr2 & It2 & Hf2 & Hl2 & Hl2' & Htk & Ht2); rewrite ?Hsb1; try done;
    fold bm; [lia|by rewrite (fs_open _ _ Hf1)|by rewrite lookup_insert_ne|by rewrite lookup_insert_ne|by rewrite map_size_insert_None|].
  rewrite Hsb1 in *. fold bm in Hl2, Ht2. destruct (fsame_parts _ _ Hf2) as (Hsb2 & _).
  set (g := λ data, splice data (4 * (k - NDIRECT)) (le_bytes 4 bi)).
  destruct (tx_put d me pid Hfuel _ s2 V2 _ ind j g Ht2 (lookup_insert_eq _ _ _)) as (s3 & Hr3 & Ho3 & Hf3 & Hl3 & Ht3);
    [lia|by rewrite (fs_open _ _ Hf2), (fs_open _ _ Hf1)|change BPB with 8192 in Hi1; lia|].
  destruct (tx_release _ s3 _ ∅ ind j Ht3 (lookup_empty _)) as (s4 & Hr4 & Ho4 & Hf4 & Ht4).
  destruct (grow_entry _ V V2 ip k bi Hd Hf Htk Hk HI H0) as [Hg Hb]. fold ind in Hg, Hb.
  pose proof (dk_start _ _ Hd) as Hst. fold bm in Hst. exists s4, (<[ind := g (V2 ind)]> V2).
  assert (Hb' : ldw (V ind) (4 * (k - NDIRECT)) = 0).
  { unfold fblk in H0. rewrite (proj2 (Z.ltb_ge _ _)) in H0 by lia. fold ind in H0. by rewrite (proj2 (Z.eqb_neq _ 0)) in H0. }
  split; [|split; [by apply Hf4, Hf3|split; [done|split; [lia|split; [|split; [|split; [done|split]]]]]]].
  - unfold need_entry. rewrite (bind_ok _ _ _ _ _ Hr1), (bind_ok _ _ _ _ _ Hx), Hdat, Hb'. simpl.
    apply bind_inv in Hr3 as (? & sm & Hm3 & Hr3). rewrite (bind_ok _ _ s1 bi s3).
    + by rewrite (bind_ok _ _ _ _ _ Hr4).
    + rewrite (bind_ok _ _ _ _ _ Hr2). fold g. by rewrite (bind_ok _ _ _ _ _ Hm3), (bind_ok _ _ _ _ _ Hr3).
  - apply (f_equal itable) in Ho1, Ho3, Ho4. simpl in *. congruence.
  - by do 3 (eapply fsame_trans; [done|]).
  - eapply tx_weaken; [exact Ht4|]. unfold lroom. fold ind. destruct (fsame_parts _ _ Hf3) as (Hsb3 & _). destruct (fsame_parts _ _ Hf4) as (Hsb4 & _).
    rewrite Hsb4, Hsb3, Hsb2, Hsb1. fold bm. rewrite (proj2 (Z.eqb_neq ind 0)), !lcost_logged by (done || (by apply Hf4) || (by apply Hf4, Hf3)).
    pose proof (lcost_mono _ _ ind Hf1). pose proof (lcost_mono _ _ ind Hf2). lia.
  - rewrite <- (nfree_taken _ _ _ _ _ Htk Hfb). apply nfree_same. unfold bitmap. fold bm. by rewrite fn_lookup_insert_ne.
Qed.
Lemma lroom_outer s s' ip : outer s' = outer s → lroom s' ip = lroom s ip.
Proof.
  intros Ho. unfold lroom, lcost. pose proof (f_equal log Ho) as Hl. pose proof (f_equal sb Ho) as Hs. simpl in Hl, Hs. by rewrite Hl, Hs.
Qed.

Lemma mapped_hit m s V i ip s' b : itable s !! i = Some ip → disk_ok (sb s) V → file_ok (sb s) V ip → outer s' = outer s → fsame s s' →
  tx (lroom s ip + m) s' V ∅ → mapped (m - 1 + lcost s' b) s V i ip s' V ip.
Proof.
  intros Hi Hd Hf Ho Hs Ht. split; [|done|by apply grows_refl|].
  - apply (f_equal itable) in Ho. simpl in Ho. by rewrite Ho, list_insert_id.
  - rewrite (lroom_outer _ _ _ Ho). eapply tx_weaken; [exact Ht|]. pose proof (lcost_range s' b). lia.
Qed.

(** bmap() finds the block or allocates it, the indirect block included. *)
Lemma bmap_spec m s V i ip k :
  itable s !! i = Some ip → i_dev ip = d → disk_ok (sb s) V → file_ok (sb s) V ip → 0 ≤ k < MAXFILE →
  1 + ineed ip ≤ nfree (sb s) V → 2 ≤ m → 1 ≤ l_outstanding (log s) → tx (lroom s ip + m) s V ∅ →
  ∃ s' V' ip', bmap i k s = Ok (fblk V' ip' k) s' ∧ fblk V' ip' k ≠ 0 ∧ mapped (m - 1 + lcost s' (fblk V' ip' k)) s V i ip s' V' ip' ∧
    nfree (sb s) V - 1 - ineed ip ≤ nfree (sb s) V' - ineed ip'.
Proof.
  intros Hi Hdev Hd Hf Hk Hfr Hm Hout Ht.
  pose proof (lroom_range s ip) as Hr0. pose proof (ineed_range ip) as Hn1.
  destruct (decide (fblk V ip k = 0)) as [E|E].
  2:{ destruct (bmap_hit _ s V i ip k Hi Hdev Ht ltac:(lia) Hk E) as (s' & Hr & Ho & Hs & Ht'). exists s', V, ip.
      split; [done|]. split; [done|]. split; [by apply mapped_hit|lia]. }
  destruct (decide (k < NDIRECT)) as [Hlt|Hge].
  { destruct (bmap_direct m s V i ip k) as (s' & V' & ip' & Hr & Hne & Hl & Hmp & Hnf & HI); try done; try lia.
    exists s', V', ip'. split; [done|]. split; [done|]. rewrite lcost_logged, Z.add_0_r by done. split; [done|]. unfold ineed. rewrite HI. lia. }
  destruct (ind_spec m s V i ip Hi Hdev Hd Hf) as (s1 & V1 & p1 & Hr1 & HI1 & [Mt Ms [G1 G2 (a & Ha) G3 G4 G5 G6] Mx] & Hnf); [lia|lia|done|done|].
  assert (Hg1 : grows (sb s) V V1 ip p1) by (split; try done; by exists a).
  destruct (fsame_parts _ _ Ms) as (Hsb & _). rewrite (bmap_split s i ip k Hi) by lia. rewrite (bind_ok _ _ _ _ _ Hr1), Hdev.
  assert (Hip1 : itable s1 !! i = Some p1) by (rewrite Mt; apply list_lookup_insert_eq; by eapply lookup_lt_Some).
  assert (Hin1 : ineed p1 = 0) by (unfold ineed; by rewrite (proj2 (Z.eqb_neq _ 0))).
  assert (Hfb1 : fblk V1 p1 k = ldw (V1 (IND p1)) (4 * (k - NDIRECT))).
  { unfold fblk. by rewrite (proj2 (Z.ltb_ge _ _)), (proj2 (Z.eqb_neq _ 0)) by (done || lia). }
  destruct (decide (fblk V1 p1 k = 0)) as [E1|E1].
  - destruct (free_blocks (sb s) V1) as [|bi rest] eqn:Hfb.
    { unfold nfree at 1 in Hnf. rewrite Hfb in Hnf. simpl in Hnf. lia. }
    destruct (entry_new m s1 V1 p1 k bi rest) as (s2 & V2 & Hr2 & Hl2 & Hb & Hb0 & It & Hf2 & Hg2 & Ht2 & Hn2); rewrite ?Hsb; try done; [lia|by rewrite (fs_open _ _ Ms)|].
    rewrite Hsb in *. exists s2, V2, p1. rewrite Hb. split; [done|]. split; [done|]. rewrite lcost_logged, Z.add_0_r by done. split; [|lia].
    split; [by rewrite It|by eapply fsame_trans|by eapply grows_trans|done].
  - rewrite Hfb1 in *. pose proof (lroom_range s1 p1) as Hr1'.
    destruct (entry_hit _ s1 V1 (IND p1) (k - NDIRECT) Mx ltac:(lia) E1) as (s2 & Hr2 & Ho2 & Hf2 & Ht2).
    exists s2, V1, p1. rewrite Hfb1. split; [done|]. split; [done|]. split; [|lia].
    destruct (mapped_hit m s1 V1 i p1 s2 (ldw (V1 (IND p1)) (4 * (k - NDIRECT)))) as [Mt2 _ _ Mx2]; rewrite ?Hsb; try done.
    split; [rewrite Mt2, Mt; apply list_insert_insert_eq|by eapply fsame_trans|done|done].
Qed.
End file.
