(* ===== verification/FsRw.v ===== *)
(** * Reading and writing files

    readi() and writei() of kernel/fs.c. Where the bytes come from or go to, user
    memory or the kernel, is behind the interfaces [gives] and [sink]. *)

From Stdlib Require Import ZArith Lia.
From stdpp Require Import base numbers functions gmap strings countable tactics list.
From S2P Require Import Prelude Machine State CString Spinlock Kalloc Vm VmTheory VmMap VmUser VmAccess Sched SchedTheory Sleeplock Pipe PipeTheory Bio BioList BioCache Log LogTheory LogRun LogOps Fs LogTx FsTheory FsOps FsTx FsFile.

(** ** The blocks of a range of bytes *)
Definition nspan (off n : Z) : Z := if n <=? 0 then 0 else (off + n - 1) / BSIZE - off / BSIZE + 1.

(** The piece of it in the first block. *)
Definition piece (off n : Z) : Z := Z.min n (BSIZE - off mod BSIZE).

Lemma piece_range off n : 0 < n → 0 < piece off n ≤ n ∧ off mod BSIZE + piece off n ≤ BSIZE.
Proof. intros Hn. unfold piece. change BSIZE with 1024. pose proof (Z.mod_pos_bound off 1024 ltac:(lia)). lia. Qed.

Lemma nspan_step off n : 0 ≤ off → 0 < n → nspan (off + piece off n) (n - piece off n) = nspan off n - 1.
Proof.
  intros Ho Hn. unfold nspan, piece. change BSIZE with 1024. pose proof (Z.mod_pos_bound off 1024 ltac:(lia)) as Hm.
  pose proof (Z.div_mod off 1024 ltac:(lia)) as Hdm. rewrite (proj2 (Z.leb_gt n 0)) by lia.
  destruct (Z.leb_spec (n - Z.min n (1024 - off mod 1024)) 0) as [Hle|Hgt].
  - replace ((off + n - 1) / 1024) with (off / 1024); [lia|]. apply Z.div_unique with (off mod 1024 + n - 1); lia.
  - rewrite Z.min_r in * by lia. replace ((off + (1024 - off mod 1024)) / 1024) with (off / 1024 + 1) by (apply Z.div_unique with 0; lia).
    replace (off + (1024 - off mod 1024) + (n - (1024 - off mod 1024)) - 1) with (off + n - 1) by lia. lia.
Qed.

Lemma nspan_range off n : 0 ≤ off → 0 ≤ n → 0 ≤ nspan off n ≤ n / BSIZE + 2 ∧ (0 < n → 1 ≤ nspan off n).
Proof.
  intros Ho Hn. unfold nspan. change BSIZE with 1024. destruct (Z.leb_spec n 0); [pose proof (Z.div_pos n 1024); lia|].
  Z.div_mod_to_equations. lia.
Qed.

(** ** The bytes of a file *)
Definition fbytes (V : Z → list Z) (ip : inode) (off n : Z) : list Z := fbyte V ip <$> seqZ off n.

Lemma length_fbytes V ip off n : 0 ≤ n → Z.of_nat (length (fbytes V ip off n)) = n.
Proof. intros Hn. unfold fbytes. rewrite length_fmap, length_seqZ. lia. Qed.

Lemma nthZ_fbytes V ip off n k : 0 ≤ k < n → nthZ (fbytes V ip off n) k = fbyte V ip (off + k).
Proof.
  intros Hk. unfold nthZ, fbytes. rewrite nth_lookup, list_lookup_fmap, lookup_seqZ_lt by lia. simpl. f_equal. lia.
Qed.

Lemma fbytes_app V ip off a b : 0 ≤ a → 0 ≤ b → fbytes V ip off (a + b) = fbytes V ip off a ++ fbytes V ip (off + a) b.
Proof. intros Ha Hb. unfold fbytes. by rewrite seqZ_app, fmap_app. Qed.

Lemma nthZ_slice (l : list Z) a n k : 0 ≤ a → 0 ≤ k < n → nthZ (slice l a n) k = nthZ l (a + k).
Proof.
  intros Ha Hk. unfold nthZ, slice. rewrite !nth_lookup, lookup_take_lt by lia. rewrite lookup_drop. do 2 f_equal. lia.
Qed.

Lemma slice_cut (l : list Z) a p n : 0 ≤ a → 0 ≤ p ≤ n → slice l a n = slice l a p ++ slice l (a + p) (n - p).
Proof.
  intros Ha Hp. unfold slice. replace (Z.to_nat n) with (Z.to_nat p + Z.to_nat (n - p))%nat by lia.
  rewrite <- take_take_drop. do 2 f_equal. rewrite drop_drop. f_equal. lia.
Qed.

(** A piece of the file is a piece of a block. *)
Lemma slice_fbytes V ip off n : 0 ≤ off → 0 < n → fblk V ip (off / BSIZE) ≠ 0 → length (V (fblk V ip (off / BSIZE))) = 1024%nat →
  slice (V (fblk V ip (off / BSIZE))) (off mod BSIZE) (piece off n) = fbytes V ip off (piece off n).
Proof.
  intros Ho Hn Hb Hl. destruct (piece_range off n Hn) as [Hp Hpm]. change BSIZE with 1024 in *.
  pose proof (Z.mod_pos_bound off 1024 ltac:(lia)) as Hm. apply list_eq_nthZ.
  { apply Nat2Z.inj. rewrite length_slice, length_fbytes by lia. lia. }
  intros k Hk. rewrite length_slice in Hk by lia. rewrite nthZ_slice, nthZ_fbytes by lia. unfold fbyte. change BSIZE with 1024.
  pose proof (Z.div_mod off 1024 ltac:(lia)) as Hdm.
  replace ((off + k) / 1024) with (off / 1024) by (apply Z.div_unique with (off mod 1024 + k); lia).
  replace ((off + k) mod 1024) with (off mod 1024 + k) by (apply Z.mod_unique with (off / 1024); lia).
  by rewrite (proj2 (Z.eqb_neq _ 0)).
Qed.

(** ** What a write does to the disk *)

(** [bs] is written at [off]; the file may grow. Everything else keeps its
    content: the other bytes of the file, and the blocks that are neither free nor
    the file's. *)
Record wrote (B : superblock) (V V' : Z → list Z) (ip ip' : inode) (off : Z) (bs : list Z) : Prop := {
  wr_disk : disk_ok B V';
  wr_file : file_ok B V' ip';
  wr_inode : ∃ a, ip' = set_i_addrs a ip;
  wr_bytes : ∀ o, 0 ≤ o < MAXFILE * BSIZE →
    fbyte V' ip' o = if decide (off ≤ o < off + Z.of_nat (length bs)) then nthZ bs (o - off) else fbyte V ip o;
  wr_mapped : ∀ o, off ≤ o < off + Z.of_nat (length bs) → fblk V' ip' (o / BSIZE) ≠ 0;
  wr_slot : ∀ k, -1 ≤ k < MAXFILE → slot V ip k ≠ 0 → slot V' ip' k = slot V ip k;
  wr_new : ∀ k, -1 ≤ k < MAXFILE → slot V ip k = 0 → slot V' ip' k = 0 ∨ bit_free (bitmap B V) (slot V' ip' k) = true;
  wr_frame : ∀ c, 0 ≤ c < BPB → bit_free (bitmap B V) c = false → c ≠ sb_bmapstart B →
    (∀ k, -1 ≤ k < MAXFILE → slot V ip k ≠ 0 → slot V ip k ≠ c) → V' c = V c;
  wr_bits : ∀ c, 0 ≤ c < BPB → bit_free (bitmap B V) c = false → bit_free (bitmap B V') c = false;
}.

Lemma wrote_none B V ip off : disk_ok B V → file_ok B V ip → wrote B V V ip ip off [].
Proof.
  intros Hd Hf. split; try done.
  - exists (i_addrs ip). by destruct ip.
  - intros o Ho. rewrite decide_False; [done|]. simpl. lia.
  - simpl. intros o Ho. lia.
  - auto.
Qed.

Lemma wrote_app B V1 V2 V3 p1 p2 p3 off b1 b2 : 0 ≤ off → off + Z.of_nat (length (b1 ++ b2)) ≤ MAXFILE * BSIZE →
  wrote B V1 V2 p1 p2 off b1 → wrote B V2 V3 p2 p3 (off + Z.of_nat (length b1)) b2 → wrote B V1 V3 p1 p3 off (b1 ++ b2).
Proof.
  intros Hoff Hmax [D2 F2 (a2 & I2) Y2 M2 S2 N2 R2 B2] [D3 F3 (a3 & I3) Y3 M3 S3 N3 R3 B3]. rewrite length_app, Nat2Z.inj_add in *.
  split; [done|done|exists a3; by rewrite I3, I2|..].
  - intros o Ho. rewrite Y3, Y2 by done. rewrite length_app, Nat2Z.inj_add. repeat case_decide; try lia; try done.
    + rewrite nthZ_app, decide_False by lia. f_equal. lia.
    + by rewrite nthZ_app, decide_True by lia.
  - intros o Ho. rewrite length_app, Nat2Z.inj_add in Ho. destruct (decide (o < off + Z.of_nat (length b1))); [|apply M3; lia].
    assert (Hk : -1 ≤ o / BSIZE < MAXFILE ∧ 0 ≤ o / BSIZE) by (change BSIZE with 1024 in *; change MAXFILE with 268 in *; Z.div_mod_to_equations; lia).
    specialize (M2 o ltac:(lia)). rewrite <- slot_fblk in * by apply Hk. rewrite S3 by (apply Hk || done). done.
  - intros k Hk Hne. specialize (S2 k Hk Hne). rewrite <- S2. apply S3; [done|]. by rewrite S2.
  - intros k Hk H0. destruct (decide (slot V2 p2 k = 0)) as [E|E].
    + destruct (N3 k Hk E) as [?|Hb]; [by left|]. destruct (decide (slot V3 p3 k = 0)) as [|Hne]; [by left|]. right.
      destruct (slot_used B V3 p3 k D3 F3 Hk Hne) as (Hr & _). destruct (bit_free (bitmap B V1) _) eqn:Eb; [done|].
      apply B2 in Eb; [|done]. congruence.
    + right. rewrite (S3 k Hk E). by destruct (N2 k Hk H0).
  - intros c Hc Hb H1 H2. rewrite <- (R2 c) by done. apply R3; [done|by apply B2|done|]. intros k Hk Hne.
    destruct (decide (slot V1 p1 k = 0)) as [E|E]; [|rewrite (S2 _ Hk E); by apply H2].
    destruct (N2 _ Hk E) as [?|E2]; [done|]. congruence.
  - intros c Hc Hb. by apply B3, B2.
Qed.

(** Writing into a block of the file. *)
Lemma wrote_block B V V1 ip ip1 off bs :
  let a := fblk V1 ip1 (off / BSIZE) in
  disk_ok B V → file_ok B V ip → grows B V V1 ip ip1 → 0 ≤ off → off + Z.of_nat (length bs) ≤ MAXFILE * BSIZE → 0 < Z.of_nat (length bs) →
  off mod BSIZE + Z.of_nat (length bs) ≤ BSIZE → a ≠ 0 → wrote B V (<[a := splice (V1 a) (off mod BSIZE) bs]> V1) ip ip1 off bs.
Proof.
  intros a Hd Hf Hg Hoff Hmax Hpos Hfit Ha. pose proof Hg as [D1 F1 I1 S1 N1 R1 B1]. set (V2 := <[a := _]> V1).
  change MAXFILE with 268 in *. change BSIZE with 1024 in *. pose proof (Z.mod_pos_bound off 1024 ltac:(lia)) as Hm.
  pose proof (Z.div_mod off 1024 ltac:(lia)) as Hdm.
  assert (Hk : -1 ≤ off / 1024 < MAXFILE) by (change MAXFILE with 268; lia).
  pose proof (slot_used B V1 ip1 (off / 1024) D1 F1 Hk) as Hu. rewrite slot_fblk in Hu by lia. fold a in Hu.
  destruct (Hu Ha) as (Hr & Hbm & Hbit & HI). specialize (HI ltac:(lia)). clear Hu.
  assert (Hb2 : bitmap B V2 = bitmap B V1) by (unfold bitmap, V2; by rewrite fn_lookup_insert_ne).
  assert (Hs2 : ∀ k, slot V2 ip1 k = slot V1 ip1 k) by (intros k; unfold slot, fblk, V2; by rewrite fn_lookup_insert_ne).
  assert (Hf2 : ∀ k, fblk V2 ip1 k = fblk V1 ip1 k) by (intros k; unfold fblk, V2; by rewrite fn_lookup_insert_ne).
  pose proof D1 as [L1 Y1 T1 Z1 M1]. assert (Hla : length (V1 a) = 1024%nat) by apply L1.
  assert (HV2 : V2 a = splice (V1 a) (off mod 1024) bs) by apply fn_lookup_insert.
  split; [| |done|..].
  - split; rewrite ?Hb2; try done. intros b. destruct (decide (b = a)) as [->|]; [|unfold V2; rewrite fn_lookup_insert_ne by done; apply L1].
    rewrite HV2, length_splice; lia.
  - destruct F1 as [F1 F2 F3]. split; [done|..].
    + intros k. rewrite Hs2. unfold used. rewrite Hb2. apply F2.
    + intros j k. rewrite !Hs2. apply F3.
  - intros o Ho. rewrite <- (fbyte_grows B V V1 ip ip1 o) by done. unfold fbyte. rewrite Hf2. change MAXFILE with 268 in Ho. change BSIZE with 1024 in *.
    pose proof (Z.mod_pos_bound o 1024 ltac:(lia)) as Hmo. pose proof (Z.div_mod o 1024 ltac:(lia)) as Hdo.
    destruct (decide (o / 1024 = off / 1024)) as [E|E].
    + rewrite E. fold a. rewrite (proj2 (Z.eqb_neq a 0)), HV2, nthZ_splice by lia.
      destruct (decide (off ≤ o < off + Z.of_nat (length bs))); [rewrite decide_True by lia; f_equal; lia|by rewrite decide_False by lia].
    + rewrite decide_False by lia. destruct (Z.eqb_spec (fblk V1 ip1 (o / 1024)) 0) as [|Hne]; [done|].
      unfold V2. rewrite fn_lookup_insert_ne; [done|]. unfold a. rewrite <- !slot_fblk by lia. intros He. apply E.
      symmetry. apply (fo_inj B V1 ip1 F1); try done; try (change MAXFILE with 268; lia). by rewrite slot_fblk by lia.
  - intros o Ho. rewrite Hf2. change BSIZE with 1024. replace (o / 1024) with (off / 1024); [done|]. apply Z.div_unique with (o - 1024 * (off / 1024)); lia.
  - intros k Hk' Hne. rewrite Hs2. by apply S1.
  - intros k Hk' H0. rewrite Hs2. destruct (N1 k Hk' H0) as [?|[? _]]; auto.
  - intros c Hc Hb H1 H2. unfold V2. rewrite fn_lookup_insert_ne.
    + apply R1; try done. intros Hi E. by apply (H2 (-1)).
    + intros <-. unfold a in *. rewrite <- slot_fblk in * by lia. destruct (decide (slot V ip (off / 1024) = 0)) as [E0|E0].
      * destruct (N1 _ Hk E0) as [?|[? _]]; congruence.
      * apply (H2 _ Hk E0). symmetry. by apply S1.
  - intros c Hc Hb. rewrite Hb2. by apply B1.
Qed.

(** What writei() leaves: the bytes, the size and the inode on the disk. *)
Record saved (B : superblock) (V V' : Z → list Z) (ip ip' : inode) (off : Z) (bs : list Z) : Prop := {
  sv_disk : disk_ok B V';
  sv_file : file_ok B V' ip';
  sv_inode : ∃ a, ip' = set_i_size (Z.max (i_size ip) (off + Z.of_nat (length bs))) (set_i_addrs a ip);
  sv_stored : get_dinode (V' (IBLOCK (i_inum ip) B)) (i_inum ip) = dinode_of ip';
  sv_others : ∀ j, 0 ≤ j → j mod IPB ≠ i_inum ip mod IPB →
    get_dinode (V' (IBLOCK (i_inum ip) B)) j = get_dinode (V (IBLOCK (i_inum ip) B)) j;
  sv_bytes : ∀ o, 0 ≤ o < MAXFILE * BSIZE →
    fbyte V' ip' o = if decide (off ≤ o < off + Z.of_nat (length bs)) then nthZ bs (o - off) else fbyte V ip o;
  sv_mapped : ∀ o, 0 ≤ o < MAXFILE * BSIZE → off ≤ o < off + Z.of_nat (length bs) ∨ fblk V ip (o / BSIZE) ≠ 0 → fblk V' ip' (o / BSIZE) ≠ 0;
  sv_frame : ∀ c, 0 ≤ c < BPB → bit_free (bitmap B V) c = false → c ≠ sb_bmapstart B → c ≠ IBLOCK (i_inum ip) B →
    (∀ k, -1 ≤ k < MAXFILE → slot V ip k ≠ 0 → slot V ip k ≠ c) → V' c = V c;
  sv_bits : ∀ c, 0 ≤ c < BPB → bit_free (bitmap B V) c = false → bit_free (bitmap B V') c = false;
}.

(** The addresses of a file fit the words of the dinode. *)
Lemma file_dinode_ok B V ip jp a n : disk_ok B V → file_ok B V ip → dinode_ok (dinode_of jp) → ip = set_i_size n (set_i_addrs a jp) →
  0 ≤ n < 2 ^ 32 → dinode_ok (dinode_of ip).
Proof.
  intros Hd Hf [Ht Hma Hmi Hnl _ _ _] Hip Hs. split; rewrite ?Hip; try done; rewrite <- Hip; [apply Hf|]. clear a Hip. cbn [dinode_of di_addrs]. intros a Ha.
  apply list_elem_of_lookup in Ha as [k Hk]. pose proof (lookup_lt_Some _ _ _ Hk) as Hlt. rewrite (fo_len _ _ _ Hf) in Hlt.
  set (z := if decide (k = 12%nat) then -1 else Z.of_nat k).
  assert (Hz : slot V ip z = a ∧ -1 ≤ z < MAXFILE).
  { assert (Ha : nthZ (i_addrs ip) (Z.of_nat k) = a) by (unfold nthZ; by rewrite nth_lookup, Nat2Z.id, Hk).
    unfold z. change MAXFILE with 268. case_decide as E; [split; [|lia]; rewrite slot_ind; unfold IND; change NDIRECT with (Z.of_nat 12); by rewrite <- E|].
    split; [|lia]. rewrite slot_fblk by lia. unfold fblk. change NDIRECT with 12. by rewrite (proj2 (Z.ltb_lt _ _)) by lia. }
  destruct Hz as [<- Hz]. destruct (decide (slot V ip z = 0)) as [E|E]; [lia|].
  destruct (slot_used B V ip z Hd Hf Hz E) as (Hr & _). change BPB with 8192 in Hr. lia.
Qed.

(** The inode block is no block of a file. *)
Lemma saved_intro B V V1 ip ip1 off bs :
  let ib := IBLOCK (i_inum ip) B in let ip' := set_i_size (Z.max (i_size ip) (off + Z.of_nat (length bs))) ip1 in
  disk_ok B V → file_ok B V ip → wrote B V V1 ip ip1 off bs → dinode_ok (dinode_of ip) → 0 ≤ off → off + Z.of_nat (length bs) ≤ MAXFILE * BSIZE → 0 ≤ i_inum ip →
  0 ≤ ib < sb_bmapstart B → saved B V (<[ib := put_dinode (V1 ib) (i_inum ip) (dinode_of ip')]> V1) ip ip' off bs.
Proof.
  intros ib ip' Hd Hf [D1 F1 (a & I1) Y1 M1 S1 N1 R1 B1] Hdi Hoff Hmax Hin Hib. set (V' := <[ib := _]> V1).
  pose proof D1 as [L1 Y1' T1 Z1 M1']. assert (HV' : ∀ c, c ≠ ib → V' c = V1 c) by (intros c Hc; unfold V'; by rewrite fn_lookup_insert_ne).
  assert (Hnf : bit_free (bitmap B V) ib = false).
  { destruct (bit_free (bitmap B V) ib) eqn:E; [|done]. pose proof (dk_meta _ _ Hd ib ltac:(lia) E). lia. }
  assert (Hns : ∀ W jp k, disk_ok B W → file_ok B W jp → -1 ≤ k < MAXFILE → slot W jp k ≠ 0 → slot W jp k ≠ ib).
  { intros W jp k _ Hj Hk Hne. destruct (fo_used _ _ _ Hj k Hk Hne) as [Hr _]. lia. }
  assert (H1ib : V1 ib = V ib) by (apply R1; [lia|done|lia|intros k Hk Hne; by apply (Hns V ip)]).
  assert (Hind : IND ip' = IND ip1) by done.
  assert (Hfb : ∀ k, 0 ≤ k < MAXFILE → fblk V' ip' k = fblk V1 ip1 k).
  { intros k Hk. unfold fblk. rewrite Hind. destruct (k <? NDIRECT); [done|]. destruct (Z.eqb_spec (IND ip1) 0) as [|Hne]; [done|].
    rewrite HV'; [done|]. apply (Hns V1 ip1 (-1)); done. }
  assert (Hsl : ∀ k, -1 ≤ k < MAXFILE → slot V' ip' k = slot V1 ip1 k).
  { intros k Hk. unfold slot. destruct (Z.eqb_spec k (-1)); [done|]. apply Hfb. lia. }
  assert (Hbm : bitmap B V' = bitmap B V1) by (apply HV'; lia).
  assert (Hsz : dinode_ok (dinode_of ip')).
  { eapply (file_dinode_ok B V1 ip' ip a); [done| |done|unfold ip'; by rewrite I1|].
    - destruct F1 as [F1 F2 F3]. by split.
    - pose proof (do_size _ Hdi) as Hs. cbn [di_size dinode_of] in Hs. change (MAXFILE * BSIZE) with 274432 in Hmax. lia. }
  split; [| |exists a; unfold ip'; by rewrite I1|..].
  - split; rewrite ?Hbm; try done. intros b. destruct (decide (b = ib)) as [->|Hb]; [|by rewrite HV'].
    unfold V'. rewrite fn_lookup_insert. apply length_put_dinode; [done|apply Hsz].
  - destruct F1 as [F1 F2 F3]. split; [done|..].
    + intros k Hk. rewrite Hsl by done. unfold used. rewrite Hbm. by apply F2.
    + intros j k Hj Hk. rewrite !Hsl by done. by apply F3.
  - fold ib. unfold V'. rewrite fn_lookup_insert. by apply get_put_dinode.
  - intros j Hj Hne. fold ib. unfold V'. rewrite fn_lookup_insert, get_put_dinode_ne, H1ib by (done || apply Hsz || auto). done.
  - intros o Ho. rewrite <- Y1 by done. unfold fbyte. assert (Hk : 0 ≤ o / BSIZE < MAXFILE) by (change BSIZE with 1024 in *; change MAXFILE with 268 in *; Z.div_mod_to_equations; lia).
    rewrite Hfb by done. destruct (Z.eqb_spec (fblk V1 ip1 (o / BSIZE)) 0) as [|Hne]; [done|]. rewrite HV'; [done|].
    rewrite <- slot_fblk in * by lia. apply (Hns V1 ip1); (done || lia).
  - intros o Ho Hor. assert (Hk : 0 ≤ o / BSIZE < MAXFILE) by (change BSIZE with 1024 in *; change MAXFILE with 268 in *; Z.div_mod_to_equations; lia).
    rewrite Hfb by done. destruct Hor as [Hor|Hor]; [by apply M1|]. rewrite <- slot_fblk in * by lia. by rewrite S1 by (done || lia).
  - intros c Hc Hb H1 H2 H3. rewrite HV' by done. by apply R1.
  - intros c Hc Hb. rewrite Hbm. by apply B1.
Qed.

(** Another file is not touched. *)
Lemma saved_other B V V' ip ip' off bs jp : disk_ok B V → file_ok B V jp → saved B V V' ip ip' off bs →
  IBLOCK (i_inum ip) B < sb_bmapstart B →
  (∀ j k, -1 ≤ j < MAXFILE → -1 ≤ k < MAXFILE → slot V jp j ≠ 0 → slot V ip k ≠ slot V jp j) →
  ∀ o, 0 ≤ o < MAXFILE * BSIZE → fbyte V' jp o = fbyte V jp o.
Proof.
  intros Hd Hf Hsv Hib Hdis o Ho.
  assert (Hsame : ∀ j, -1 ≤ j < MAXFILE → slot V jp j ≠ 0 → V' (slot V jp j) = V (slot V jp j)).
  { intros j Hj Hne. destruct (slot_used B V jp j Hd Hf Hj Hne) as (H1 & H2 & H3 & _). destruct (fo_used _ _ _ Hf j Hj Hne) as [H4 _].
    apply (sv_frame _ _ _ _ _ _ _ Hsv); [done|done|done|lia|auto]. }
  assert (Hk : 0 ≤ o / BSIZE < MAXFILE) by (change BSIZE with 1024 in *; change MAXFILE with 268 in *; Z.div_mod_to_equations; lia).
  assert (Hfb : fblk V' jp (o / BSIZE) = fblk V jp (o / BSIZE)).
  { unfold fblk. destruct (_ <? NDIRECT); [done|]. destruct (Z.eqb_spec (IND jp) 0) as [|Hne]; [done|].
    by rewrite <- (slot_ind V jp), Hsame. }
  unfold fbyte. rewrite Hfb. destruct (Z.eqb_spec (fblk V jp (o / BSIZE)) 0) as [|Hne]; [done|].
  rewrite <- slot_fblk in * by lia. by rewrite Hsame by (done || lia).
Qed.

(** ** Where bytes go to and come from *)
Lemma advance_advance p a b : 0 ≤ a → 0 ≤ b → advance (advance p a) b = advance p (a + b).
Proof.
  intros Ha Hb. destruct p as [va|pa|bs]; simpl; f_equal.
  - unfold u64. rewrite Zplus_mod_idemp_l. f_equal. lia.
  - unfold u64. rewrite Zplus_mod_idemp_l. f_equal. lia.
  - rewrite drop_drop. f_equal. lia.
Qed.

Section rw.
Context `{EnvOk} (d : Z) (me : nat) (pid : Z) (Hfuel : (0 < fuel)%nat).
Implicit Types (V : Z → list Z).
Local Notation tx := (tx d me pid).

(** either_copyin() reads [bs] from [src], piece by piece. *)
Definition gives (s : kstate) (src : place) (bs : list Z) : Prop :=
  advance src 0 = src ∧ ∀ s' t m, fsame s s' → 0 ≤ t → 0 ≤ m → t + m ≤ Z.of_nat (length bs) →
    either_copyin (advance src t) m s' = Ok (0, slice bs t m) s'.

(** either_copyout() delivers up to [n] bytes to [dst]: [K l out s] says that [l]
    has arrived in state [s], [out] being what a local destination got. *)
Record sink (dst : place) (n : Z) (K : list Z → list Z → kstate → Prop) : Prop := {
  sk_start : advance dst 0 = dst;
  sk_step : ∀ l out s bs, solo me pid s → K l out s → Z.of_nat (length l) + Z.of_nat (length bs) ≤ n →
    ∃ out' m', either_copyout (advance dst (Z.of_nat (length l))) bs s = Ok (0, out') (set_mem m' s) ∧
      K (l ++ bs) (out ++ out') (set_mem m' s);
  sk_same : ∀ l out s s', fsame s s' → K l out s → K l out s';
}.

(** Only memory differs, besides what the file system changes. *)
Definition rsame (s s' : kstate) : Prop := fsame (set_mem (mem s') s) s' ∧ itable s' = itable s.

Lemma rsame_trans s1 s2 s3 : rsame s1 s2 → rsame s2 s3 → rsame s1 s3.
Proof.
  intros [[Ho Hd Hl Hn Hg] Hi] [[Ho' Hd' Hl' Hn' Hg'] Hi']. split; [|congruence].
  split; simpl in *; [|congruence|congruence|congruence|auto]. rewrite Ho'.
  transitivity (set_itable (itable s3) (set_log (log s3) (set_mem (mem s3) (outer s2)))); [by destruct s2|]. rewrite Ho. by destruct s1.
Qed.

Lemma rsame_outer s s' : outer s' = outer s → fsame s s' → rsame s s'.
Proof.
  intros Ho Hs. destruct (fsame_parts _ _ Hs) as (_ & _ & _ & Hm & _). apply (f_equal itable) in Ho. split; [|done].
  by replace (set_mem (mem s') s) with s by (rewrite Hm; by destruct s).
Qed.

Lemma rsame_mem s m : rsame s (set_mem m s).
Proof. split; [|done]. apply fsame_refl. Qed.

Lemma tx_solo_of n s V HH : tx n s V HH → solo me pid s.
Proof. by intros (Q & W & []). Qed.

(** ** readi() *)
Lemma readi_step q s V i ip dst n K l out off rem :
  0 ≤ q → sink dst n K → K l out s → tx q s V ∅ → itable s !! i = Some ip → i_dev ip = d → (∀ b, length (V b) = 1024%nat) →
  0 ≤ off → 0 < rem → Z.of_nat (length l) + rem = n → off + rem ≤ MAXFILE * BSIZE → fblk V ip (off / BSIZE) ≠ 0 →
  let tot := Z.of_nat (length l) in let p := piece off rem in
  ∃ s' out', readi_body i n (tot, off, advance dst tot, out) s = Ok (inl (tot + p, off + p, advance dst (tot + p), out')) s' ∧
    K (l ++ fbytes V ip off p) out' s' ∧ tx q s' V ∅ ∧ rsame s s'.
Proof.
  intros Hq Hsk HK Ht Hi Hdev Hlen Hoff Hrem Hn Hmax Hb tot p. destruct (piece_range off rem Hrem) as [Hp Hpm]. fold p in Hp, Hpm.
  assert (Hk : 0 ≤ off / BSIZE < MAXFILE) by (change BSIZE with 1024 in *; Z.div_mod_to_equations; lia).
  destruct (bmap_hit d me pid Hfuel q s V i ip (off / BSIZE) Hi Hdev Ht Hq Hk Hb) as (s1 & Hr1 & Ho1 & Hf1 & Ht1).
  destruct (tx_read d me pid Hfuel q s1 V ∅ (fblk V ip (off / BSIZE)) Ht1 Hq (lookup_empty _)) as (j & s2 & x & Hr2 & Hx & Hdat & Ho2 & Hf2 & Ht2); [rewrite map_size_empty; lia|].
  pose proof (slice_fbytes V ip off rem Hoff Hrem Hb (Hlen _)) as Hsl. fold p in Hsl.
  destruct (sk_step _ _ _ Hsk l out s2 (fbytes V ip off p)) as (out' & m' & Hr3 & HK3); [by eapply tx_solo_of| |rewrite length_fbytes by lia; lia|].
  { eapply sk_same; [done|exact Hf2|]. by eapply sk_same. }
  destruct (tx_release d me pid Hfuel q (set_mem m' s2) V ∅ (fblk V ip (off / BSIZE)) j) as (s4 & Hr4 & Ho4 & Hf4 & Ht4); [by apply (tx_same d me pid q s2)|apply lookup_empty|].
  exists s4, (out ++ out'). split; [|split; [by eapply sk_same|split; [done|]]].
  - unfold readi_body. rewrite (proj2 (Z.ltb_lt tot n)) by lia. cbn [negb].
    rewrite (bind_ok _ _ _ _ _ (get_inode_eq i s ip Hi)), (bind_ok _ _ _ _ _ Hr1), Hdev, (bind_ok _ _ _ _ _ Hr2), (bind_ok _ _ _ _ _ Hx), Hdat.
    replace (n - tot) with rem by lia. fold (piece off rem). fold p. rewrite Hsl. fold tot in Hr3. rewrite (bind_ok _ _ _ _ _ Hr3).
    rewrite (bind_ok _ _ _ _ _ Hr4). simpl. by rewrite advance_advance by lia.
  - eapply rsame_trans; [by apply rsame_outer|]. eapply rsame_trans; [by apply (rsame_outer s1 s2)|].
    eapply rsame_trans; [apply (rsame_mem s2 m')|]. by apply rsame_outer.
Qed.

Lemma readi_loop q f s V i ip dst n K l out off rem :
  0 ≤ q → sink dst n K → K l out s → tx q s V ∅ → itable s !! i = Some ip → i_dev ip = d → (∀ b, length (V b) = 1024%nat) →
  0 ≤ off → 0 ≤ rem → Z.of_nat (length l) + rem = n → off + rem ≤ MAXFILE * BSIZE →
  (∀ o, off ≤ o < off + rem → fblk V ip (o / BSIZE) ≠ 0) → nspan off rem < Z.of_nat f →
  ∃ s' out', loop f (readi_body i n) (Z.of_nat (length l), off, advance dst (Z.of_nat (length l)), out) s = Ok (n, out') s' ∧
    K (l ++ fbytes V ip off rem) out' s' ∧ tx q s' V ∅ ∧ rsame s s'.
Proof.
  intros Hq Hsk. revert s l out off rem. induction f as [|f IH]; intros s l out off rem HK Ht Hi Hdev Hlen Hoff Hrem Hn Hmax Hb Hf;
    pose proof (nspan_range off rem Hoff Hrem) as [Hnb Hnb']; [lia|].
  rewrite loop_S. destruct (decide (rem = 0)) as [->|Hne].
  { exists s, out. rewrite (bind_ok _ _ s (inr (n, out)) s).
    - rewrite app_nil_r. split; [done|]. split; [done|]. split; [done|]. apply rsame_outer; [done|apply fsame_refl].
    - unfold readi_body. replace (Z.of_nat (length l)) with n by lia. by rewrite Z.ltb_irrefl. }
  destruct (readi_step q s V i ip dst n K l out off rem) as (s1 & out1 & Hr1 & HK1 & Ht1 & Hs1); try done; [lia|apply Hb; lia|].
  destruct (piece_range off rem ltac:(lia)) as [Hp Hpm]. set (p := piece off rem) in *. rewrite (bind_ok _ _ _ _ _ Hr1).
  assert (Hl1 : Z.of_nat (length (l ++ fbytes V ip off p)) = Z.of_nat (length l) + p) by (rewrite length_app, Nat2Z.inj_add, length_fbytes; lia).
  destruct (IH s1 (l ++ fbytes V ip off p) out1 (off + p) (rem - p)) as (s2 & out2 & Hr2 & HK2 & Ht2 & Hs2); try done; try lia.
  - by rewrite (proj2 Hs1).
  - intros o Ho. apply Hb. lia.
  - unfold p. rewrite nspan_step by lia. lia.
  - rewrite Hl1 in Hr2. exists s2, out2. split; [done|]. split; [|split; [done|by eapply rsame_trans]].
    replace rem with (p + (rem - p)) by lia. rewrite fbytes_app, (assoc_L (++)) by lia. done.
Qed.

(** readi() delivers the bytes from [off], as many as there are, up to [n]. *)
Lemma readi_spec q s V i ip dst off n K :
  let n' := Z.min n (i_size ip - off) in
  0 ≤ q → sink dst n' K → K [] [] s → tx q s V ∅ → itable s !! i = Some ip → i_dev ip = d → (∀ b, length (V b) = 1024%nat) →
  0 ≤ off ≤ i_size ip → 0 ≤ n → off + n < 2 ^ 32 → i_size ip ≤ MAXFILE * BSIZE → (∀ o, 0 ≤ o < i_size ip → fblk V ip (o / BSIZE) ≠ 0) →
  ∃ s' out, readi i dst off n s = Ok (n', out) s' ∧ K (fbytes V ip off n') out s' ∧ tx q s' V ∅ ∧ rsame s s'.
Proof.
  intros n' Hq Hsk HK Ht Hi Hdev Hlen Hoff Hn Hov Hsz Hb. unfold readi. rewrite (bind_ok _ _ _ _ _ (get_inode_eq i s ip Hi)).
  rewrite u32_small by lia. rewrite (proj2 (Z.ltb_ge (i_size ip) off)), (proj2 (Z.ltb_ge (off + n) off)) by lia. cbn [orb].
  replace (if i_size ip <? off + n then i_size ip - off else n) with n' by (unfold n'; destruct (Z.ltb_spec (i_size ip) (off + n)); lia).
  destruct (readi_loop q (S (S (Z.to_nat (n' / BSIZE + 1)))) s V i ip dst n' K [] [] off n') as (s' & out & Hr & HK' & Ht' & Hs'); try done; try (simpl; lia).
  - intros o Ho. apply Hb. lia.
  - pose proof (nspan_range off n' ltac:(lia) ltac:(lia)) as [Hnb _]. pose proof (Z.div_pos n' BSIZE ltac:(lia) ltac:(done)). lia.
  - change (Z.of_nat (length (@nil Z))) with 0 in Hr. rewrite (sk_start _ _ _ Hsk) in Hr. by exists s', out.
Qed.

(** ** writei() *)
Lemma writei_step q s V i ip src bs tot off :
  let n := Z.of_nat (length bs) in let rem := n - tot in let p := piece off rem in
  gives s src bs → itable s !! i = Some ip → i_dev ip = d → disk_ok (sb s) V → file_ok (sb s) V ip →
  0 ≤ tot → 0 ≤ off → 0 < rem → off + rem ≤ MAXFILE * BSIZE → nspan off rem + ineed ip ≤ nfree (sb s) V →
  0 ≤ q → 1 ≤ l_outstanding (log s) → tx (lroom s ip + (nspan off rem + 1 + q)) s V ∅ →
  ∃ s' V' ip', writei_body i n (tot, off, advance src tot) s = Ok (inl (tot + p, off + p, advance src (tot + p))) s' ∧
    itable s' = <[i := ip']> (itable s) ∧ fsame s s' ∧ wrote (sb s) V V' ip ip' off (slice bs tot p) ∧
    nfree (sb s) V - ineed ip - 1 ≤ nfree (sb s) V' - ineed ip' ∧ tx (lroom s' ip' + (nspan off rem + q)) s' V' ∅.
Proof.
  intros n rem p [_ Hsrc] Hi Hdev Hd Hf Htot Hoff Hrem Hmax Hfr Hq Hout Ht. destruct (piece_range off rem Hrem) as [Hp Hpm]. fold p in Hp, Hpm.
  destruct (nspan_range off rem Hoff ltac:(lia)) as [_ Hnb]. specialize (Hnb Hrem).
  assert (Hk : 0 ≤ off / BSIZE < MAXFILE) by (change BSIZE with 1024 in *; Z.div_mod_to_equations; lia).
  destruct (bmap_spec d me pid Hfuel (nspan off rem + 1 + q) s V i ip (off / BSIZE)) as (s1 & V1 & ip1 & Hr1 & Ha & [Mt Ms Mg Mx] & Hnf); try done; try lia.
  set (a := fblk V1 ip1 (off / BSIZE)) in *. pose proof (lroom_range s1 ip1) as Hlr. pose proof (lcost_range s1 a) as Hlc.
  destruct (tx_bread d me pid Hfuel _ s1 V1 ∅ a Mx) as (j & s2 & Hr2 & Ho2 & Hf2 & Ht2); [lia|apply lookup_empty|rewrite map_size_empty; lia|].
  pose proof (fsame_trans _ _ _ Ms Hf2) as Hs2. pose proof (lcost_mono _ _ a Hf2) as Hlc2.
  pose proof (Hsrc s2 tot p Hs2 Htot ltac:(lia) ltac:(lia)) as Hcp. set (w := slice bs tot p) in *.
  assert (Hw : Z.of_nat (length w) = p) by (unfold w; rewrite length_slice; lia).
  destruct (slot_used (sb s) V1 ip1 (off / BSIZE)) as (Har & Hab & _); [apply Mg|apply Mg|lia|by rewrite slot_fblk by lia|].
  rewrite slot_fblk in Har, Hab by lia. fold a in Har, Hab.
  destruct (tx_commit d me pid Hfuel _ s2 V1 ∅ a j (λ data, splice data (off mod BSIZE) w) Ht2 (lookup_empty _)) as (s3 & Hr3 & Hi3 & Hf3 & Hl3 & Ht3);
    [lia|by rewrite (fs_open _ _ Hs2)|change BPB with 8192 in Har; lia|].
  eexists s3, _, ip1. split; [|split; [|split; [by eapply fsame_trans|split; [|split]]]].
  - unfold writei_body. rewrite (proj2 (Z.ltb_lt tot n)) by lia. cbn [negb].
    rewrite (bind_ok _ _ _ _ _ (get_inode_eq i s ip Hi)), (bind_ok _ _ _ _ _ Hr1), Hdev, (bind_ok _ _ _ _ _ Hr2). fold rem. fold (piece off rem). fold p.
    rewrite (bind_ok _ _ _ _ _ Hcp). change (0 =? -1) with false. cbv iota beta.
    apply bind_inv in Hr3 as (? & sa & Hra & Hr3). apply bind_inv in Hr3 as (? & sc & Hrb & Hr3).
    rewrite (bind_ok _ _ _ _ _ Hra), (bind_ok _ _ _ _ _ Hrb), (bind_ok _ _ _ _ _ Hr3). by rewrite advance_advance by lia.
  - rewrite Hi3. apply (f_equal itable) in Ho2. simpl in Ho2. by rewrite Ho2.
  - apply wrote_block; rewrite ?Hw; try done; lia.
  - transitivity (nfree (sb s) V1 - ineed ip1); [lia|]. apply Z.eq_le_incl. f_equal. symmetry. apply nfree_same.
    unfold bitmap. by rewrite fn_lookup_insert_ne.
  - eapply tx_weaken; [exact Ht3|]. pose proof (lroom_mono _ _ ip1 Hf2). pose proof (lroom_mono _ _ ip1 Hf3). lia.
Qed.

Lemma gives_same s s' src bs : fsame s s' → gives s src bs → gives s' src bs.
Proof. intros Hs [H1 H2]. split; [done|]. intros s2 t m Hs2. apply H2. by eapply fsame_trans. Qed.

Lemma writei_loop q f i src bs : ∀ s V ip tot off, let n := Z.of_nat (length bs) in let rem := n - tot in
  gives s src bs → itable s !! i = Some ip → i_dev ip = d → disk_ok (sb s) V → file_ok (sb s) V ip →
  0 ≤ tot → 0 ≤ off → 0 ≤ rem → off + rem ≤ MAXFILE * BSIZE → nspan off rem + ineed ip ≤ nfree (sb s) V →
  0 ≤ q → 1 ≤ l_outstanding (log s) → nspan off rem < Z.of_nat f → tx (lroom s ip + (nspan off rem + 1 + q)) s V ∅ →
  ∃ s' V' ip', loop f (writei_body i n) (tot, off, advance src tot) s = Ok (n, off + rem) s' ∧
    itable s' = <[i := ip']> (itable s) ∧ fsame s s' ∧ wrote (sb s) V V' ip ip' off (slice bs tot rem) ∧ tx (lroom s' ip' + (1 + q)) s' V' ∅.
Proof.
  induction f as [|f IH]; intros s V ip tot off n rem Hg Hi Hdev Hd Hf Htot Hoff Hrem Hmax Hfr Hq Hout Hfu Ht;
    pose proof (nspan_range off rem Hoff Hrem) as [Hnb _]; [lia|].
  rewrite loop_S. destruct (decide (rem = 0)) as [E|E].
  { exists s, V, ip. rewrite (bind_ok _ _ s (inr (tot, off)) s).
    2:{ unfold writei_body. replace tot with n by lia. by rewrite Z.ltb_irrefl. }
    replace tot with n at 1 by lia. rewrite E, Z.add_0_r in *. split; [done|]. split; [by rewrite list_insert_id|]. split; [apply fsame_refl|].
    change (slice bs tot 0) with (@nil Z). split; [by apply wrote_none|done]. }
  destruct (writei_step q s V i ip src bs tot off Hg) as (s1 & V1 & ip1 & Hr1 & Hi1 & Hs1 & Hw1 & Hn1 & Ht1); try done; fold n; fold rem; try lia; try done.
  fold n rem in Hr1, Hw1, Hn1, Ht1. destruct (piece_range off rem ltac:(lia)) as [Hp Hpm]. set (p := piece off rem) in *.
  rewrite (bind_ok _ _ _ _ _ Hr1). destruct (fsame_parts _ _ Hs1) as (Hsb & _). pose proof Hw1 as [D1 F1 (a & I1) _ _ _ _ _ _].
  assert (Hlq : Z.of_nat (length (slice bs tot p)) = p) by (rewrite length_slice; fold n; lia).
  assert (Hnp : nspan (off + p) (n - (tot + p)) = nspan off rem - 1) by (replace (n - (tot + p)) with (rem - p) by lia; apply nspan_step; lia).
  destruct (IH s1 V1 ip1 (tot + p) (off + p)) as (s2 & V2 & ip2 & Hr2 & Hi2 & Hs2 & Hw2 & Ht2); fold n; rewrite ?Hnp, ?Hsb; try done; try lia.
  - by eapply gives_same.
  - rewrite Hi1. apply list_lookup_insert_eq. by eapply lookup_lt_Some.
  - by rewrite I1.
  - by rewrite (fs_open _ _ Hs1).
  - by replace (nspan off rem - 1 + 1 + q) with (nspan off rem + q) by lia.
  - fold n in Hr2, Hw2. exists s2, V2, ip2. split; [rewrite Hr2; do 2 f_equal; lia|]. split; [by rewrite Hi2, Hi1, list_insert_insert_eq|].
    split; [by eapply fsame_trans|]. split; [|done]. rewrite Hsb in Hw2. rewrite (slice_cut bs tot p rem) by lia.
    replace (rem - p) with (n - (tot + p)) by lia. apply (wrote_app (sb s) V V1 V2 ip ip1 ip2); try done; [|by rewrite Hlq].
    rewrite length_app, Nat2Z.inj_add, Hlq, length_slice by (fold n; lia). lia.
Qed.

Lemma iupdate_tx n s V i ip : let b := IBLOCK (i_inum ip) (sb s) in
  itable s !! i = Some ip → i_dev ip = d → tx n s V ∅ → 1 ≤ n → 1 ≤ l_outstanding (log s) → 0 ≤ b < 2 ^ 31 →
  ∃ s', iupdate i s = Ok tt s' ∧ itable s' = itable s ∧ fsame s s' ∧
    tx (n - 1) s' (<[b := put_dinode (V b) (i_inum ip) (dinode_of ip)]> V) ∅.
Proof.
  intros b Hi Hdev Ht Hn Hout Hb.
  destruct (tx_bread d me pid Hfuel n s V ∅ b Ht) as (j & s1 & Hr1 & Ho1 & Hf1 & Ht1); [lia|apply lookup_empty|rewrite map_size_empty; lia|].
  destruct (tx_commit d me pid Hfuel n s1 V ∅ b j (λ data, put_dinode data (i_inum ip) (dinode_of ip)) Ht1 (lookup_empty _)) as (s2 & Hr2 & Hi2 & Hf2 & _ & Ht2);
    [done|by rewrite (fs_open _ _ Hf1)|done|].
  exists s2. split; [|split; [|split; [by eapply fsame_trans|]]].
  - unfold iupdate. rewrite bind_gets, (bind_ok _ _ _ _ _ (get_inode_eq i s ip Hi)), Hdev. fold b. rewrite (bind_ok _ _ _ _ _ Hr1). exact Hr2.
  - rewrite Hi2. by apply (f_equal itable) in Ho1.
  - eapply tx_weaken; [exact Ht2|]. pose proof (lcost_range s1 b). lia.
Qed.

(** writei() writes everything, in a transaction with room for the blocks of the
    range and three more: the bitmap, the indirect block and the inode. *)
Lemma writei_spec q s V i ip src off bs : let n := Z.of_nat (length bs) in
  gives s src bs → itable s !! i = Some ip → i_dev ip = d → disk_ok (sb s) V → file_ok (sb s) V ip → dinode_ok (dinode_of ip) →
  0 ≤ off ≤ i_size ip → off + n ≤ MAXFILE * BSIZE → nspan off n + ineed ip ≤ nfree (sb s) V → 1 ≤ l_outstanding (log s) →
  0 ≤ i_inum ip → 0 ≤ IBLOCK (i_inum ip) (sb s) < sb_bmapstart (sb s) → 0 ≤ q → tx (nspan off n + 3 + q) s V ∅ →
  ∃ s' V' ip', writei i src off n s = Ok n s' ∧ itable s' = <[i := ip']> (itable s) ∧ fsame s s' ∧ saved (sb s) V V' ip ip' off bs ∧ tx q s' V' ∅.
Proof.
  intros n Hg Hi Hdev Hd Hf Hdi Hoff Hmax Hfr Hout Hin Hib Hq Ht. pose proof (nspan_range off n ltac:(lia) ltac:(lia)) as [Hnb _].
  pose proof (lroom_range s ip) as Hlr. pose proof (dk_size _ _ Hd) as Hsz. pose proof (dk_start _ _ Hd) as Hst. change BPB with 8192 in Hsz.
  destruct (writei_loop q (S (S (Z.to_nat (n / BSIZE + 1)))) i src bs s V ip 0 off) as (s1 & V1 & ip1 & Hr1 & Hi1 & Hs1 & Hw1 & Ht1); fold n; rewrite ?Z.sub_0_r; try done; try lia.
  { eapply tx_weaken; [exact Ht|lia]. }
  fold n in Hr1, Hw1. rewrite Z.sub_0_r in *. rewrite (proj1 Hg) in Hr1. replace (slice bs 0 n) with bs in Hw1 by (unfold slice, n; by rewrite Nat2Z.id, drop_0, firstn_all).
  pose proof Hw1 as [_ _ (a & I1) _ _ _ _ _ _]. destruct (fsame_parts _ _ Hs1) as (Hsb & _).
  assert (Hp1 : itable s1 !! i = Some ip1) by (rewrite Hi1; apply list_lookup_insert_eq; by eapply lookup_lt_Some).
  set (ip' := set_i_size (Z.max (i_size ip) (off + n)) ip1). set (s2 := set_itable (<[i := ip']> (itable s1)) s1).
  assert (Hp2 : itable s2 !! i = Some ip') by (apply list_lookup_insert_eq; by eapply lookup_lt_Some).
  assert (Hinum : i_inum ip' = i_inum ip) by (unfold ip'; by rewrite I1).
  destruct (iupdate_tx (1 + q) s2 V1 i ip') as (s3 & Hr3 & Hi3 & Hf3 & Ht3); rewrite ?Hinum; try done.
  - unfold ip'. by rewrite I1.
  - apply tx_itable. eapply tx_weaken; [exact Ht1|]. pose proof (lroom_range s1 ip1). lia.
  - lia.
  - simpl. by rewrite (fs_open _ _ Hs1).
  - simpl. rewrite Hsb. lia.
  - rewrite Hinum in Ht3. simpl in Ht3. rewrite Hsb in Ht3. replace (1 + q - 1) with q in Ht3 by lia. eexists s3, _, ip'. split; [|split; [|split; [|split; [|exact Ht3]]]].
    + unfold writei. rewrite (bind_ok _ _ _ _ _ (get_inode_eq i s ip Hi)). change (MAXFILE * BSIZE) with 274432 in *. rewrite u32_small by lia.
      rewrite (proj2 (Z.ltb_ge (i_size ip) off)), (proj2 (Z.ltb_ge (off + n) off)), (proj2 (Z.ltb_ge 274432 (off + n))) by lia. cbn [orb].
      rewrite (bind_ok _ _ _ _ _ Hr1), (bind_ok _ _ _ _ _ (get_inode_eq i s1 ip1 Hp1)). rewrite (bind_ok _ _ s1 tt s2).
      * by rewrite (bind_ok _ _ _ _ _ Hr3).
      * assert (Hsi : i_size ip1 = i_size ip) by (by rewrite I1). rewrite Hsi. destruct (Z.ltb_spec (i_size ip) (off + n)) as [Hlt|Hge]; simpl.
        -- rewrite (upd_inode_eq i _ s1 ip1 Hp1). unfold s2, ip'. by rewrite Z.max_r by lia.
        -- unfold s2, ip'. rewrite Z.max_l, <- Hsi by lia. replace (set_i_size (i_size ip1) ip1) with ip1 by (by destruct ip1).
           rewrite list_insert_id by done. by destruct s1.
    + rewrite Hi3. simpl. by rewrite Hi1, list_insert_insert_eq.
    + eapply fsame_trans; [exact Hs1|]. eapply fsame_trans; [apply fsame_itable|done].
    + apply saved_intro; (done || lia).
Qed.
End rw.

(** ** The two sides of a file transfer *)

Lemma slice_uread D m a n t k : 0 ≤ t → 0 ≤ k → t + k ≤ n → slice (uread D m a n) t k = uread D m (a + t) k.
Proof.
  intros Ht Hk Hn. assert (Hl : length (uread D m a n) = Z.to_nat n) by (unfold uread; by rewrite length_fmap, length_seqZ).
  apply list_eq_nthZ.
  - rewrite length_slice by (rewrite ?Hl; lia). unfold uread. by rewrite length_fmap, length_seqZ.
  - intros j Hj. rewrite length_slice in Hj by (rewrite ?Hl; lia). rewrite nthZ_slice by lia. unfold nthZ, uread.
    rewrite !nth_lookup, !list_lookup_fmap, !lookup_seqZ_lt by lia. simpl. do 2 f_equal. lia.
Qed.

Lemma acc_range m T D a : acc m T D a → 0 ≤ a < MAXVA.
Proof. by intros [? _]. Qed.

Section io.
Context `{EnvOk} (me : nat) (pid : Z).

Lemma cur_solo s : solo me pid s → cur s = Ok me s.
Proof. intros [Hp Hc _ _ _ _]. by apply cur_eq. Qed.

Lemma cur_fsame s s' : solo me pid s → fsame s s' → cur s' = Ok me s'.
Proof. intros [Hp Hc _ _ _ _] Hs. destruct (fsame_parts _ _ Hs) as (_ & _ & Hcpu & _). apply cur_eq; by rewrite Hcpu. Qed.

Lemma gives_local s bs : solo me pid s → gives s (Local bs) bs.
Proof.
  intros Hso. split; [done|]. intros s' t m Hs Ht Hm Hl. unfold either_copyin. by rewrite (bind_ok _ _ _ _ _ (cur_fsame s s' Hso Hs)).
Qed.

(** The user's bytes at [va]. *)
Lemma gives_user s root T fl D va n :
  solo me pid s → uspace s root T fl D → p_pagetable (procs s !!! me) = root → 0 ≤ va < 2 ^ 64 → 0 ≤ n →
  (∀ k, 0 ≤ k < n → acc (mem s) T D (va + k)) → gives s (User va) (uread D (mem s) va n).
Proof.
  intros Hso Hu Hpt Hva Hn Hacc. split; [simpl; by rewrite Z.add_0_r, u64_small|]. intros s' t m Hs Ht Hm Hl.
  destruct (fsame_parts _ _ Hs) as (_ & Hpr & _ & Hmem & Hfl). unfold uread in Hl. rewrite length_fmap, length_seqZ in Hl.
  unfold either_copyin. rewrite (bind_ok _ _ _ _ _ (cur_fsame s s' Hso Hs)). cbn [advance]. unfold get_proc. rewrite bind_gets, Hpr, Hpt.
  rewrite slice_uread by lia. assert (Hu' : uspace s' root T fl D) by (by apply (uspace_same s)).
  destruct (decide (m = 0)) as [->|Hne].
  { apply (copyin_spec root s' T fl D (u64 (va + t)) 0 0 Hu' (u64_range _)); [done|done|intros; lia|by left]. }
  assert (Hr : 0 ≤ va + t < MAXVA) by (by eapply acc_range, Hacc; lia). pose proof MAXVA_lt. rewrite u64_small by lia.
  pose proof (copyin_spec root s' T fl D (va + t) m 0 Hu') as Hc. rewrite Z.add_0_r, Hmem in Hc. apply Hc; [lia|done|done| |by left].
  intros k Hk. replace (va + t + k) with (va + (t + k)) by lia. apply Hacc. lia.
Qed.

Lemma sink_local n : sink me pid (Local []) n (λ l out _, out = l).
Proof.
  split; [done| |done]. intros l out s bs Hso -> _. exists bs, (mem s). split; [|done].
  replace (set_mem (mem s) s) with s by (by destruct s). unfold either_copyout. by rewrite (bind_ok _ _ _ _ _ (cur_solo s Hso)).
Qed.

(** What has arrived at the user address [va], from memory [m0] on. *)
Definition arrived (root : Z) (T : gmap (list Z) Z) (fl : list Z) (D : gmap Z Z) (va : Z) (m0 : gmap Z Z) (l out : list Z) (s : kstate) : Prop :=
  out = [] ∧ uspace s root T fl D ∧ p_pagetable (procs s !!! me) = root ∧ (∀ a, leaf (mem s) T a = leaf m0 T a) ∧ uwritten D va l m0 (mem s).

Lemma acc_leaf m m' T D a : leaf m' T a = leaf m T a → acc m T D a → acc m' T D a.
Proof. intros Hl [Hr Hp]. split; [done|]. by rewrite Hl. Qed.

Lemma sink_user root T fl D va n m0 : 0 ≤ va < 2 ^ 64 → (∀ k, 0 ≤ k < n → acc m0 T D (va + k)) →
  sink me pid (User va) n (arrived root T fl D va m0).
Proof.
  intros Hva Hacc. split.
  - simpl. by rewrite Z.add_0_r, u64_small.
  - intros l out s bs Hso (-> & Hu & Hpt & Hlf & Hw) Hn. exists []. unfold either_copyout. cbn [advance].
    assert (Hc : ∃ m', copyout root (u64 (va + Z.of_nat (length l))) bs s = Ok 0 (set_mem m' s) ∧ uspace (set_mem m' s) root T fl D ∧
      (∀ a, leaf m' T a = leaf (mem s) T a) ∧ uwritten D (va + Z.of_nat (length l)) bs (mem s) m').
    { pose proof (copyout_spec root s T fl D (u64 (va + Z.of_nat (length l))) bs [] Hu (u64_range _)) as Hc. rewrite app_nil_r in Hc.
      destruct bs as [|b bs].
      { destruct Hc as (m' & Hr & Hu' & Hl' & Hw'); [simpl; intros; lia|by left|]. exists m'. do 3 (split; [done|]). by eapply uwritten_move; [by left|]. }
      assert (Hr : 0 ≤ va + Z.of_nat (length l) < MAXVA) by (eapply acc_range, Hacc; simpl in Hn; lia). pose proof MAXVA_lt.
      rewrite u64_small in * by lia. apply Hc; [|by left]. intros k Hk. eapply acc_leaf; [apply Hlf|].
      replace (va + Z.of_nat (length l) + k) with (va + (Z.of_nat (length l) + k)) by lia. apply Hacc. lia. }
    destruct Hc as (m' & Hr & Hu' & Hl' & Hw'). exists m'. split.
    + rewrite (bind_ok _ _ _ _ _ (cur_solo s Hso)). unfold get_proc. by rewrite bind_gets, Hpt, (bind_ok _ _ _ _ _ Hr).
    + split; [done|]. split; [done|]. split; [done|]. split; [intros a; by rewrite <- Hlf, <- Hl'|].
      eapply (uwritten_app root s T fl D); [done| |done|done]. intros k Hk. rewrite length_app in Hk.
      destruct (Hacc k ltac:(lia)) as [_ (p & Hp & _)]. by exists p.
  - intros l out s s' Hs (-> & Hu & Hpt & Hlf & Hw). destruct (fsame_parts _ _ Hs) as (_ & Hpr & _ & Hmem & Hfl).
    split; [done|]. split; [by apply (uspace_same s)|]. by rewrite Hpr, Hmem.
Qed.
End io.
