(* ===== verification/FsDir.v ===== *)
(** * Directories

    dirlookup(), dirlink() and iget() of kernel/fs.c: a directory as its list of
    entries, and the table of inodes in memory. *)

From Stdlib Require Import ZArith Lia.
From stdpp Require Import base numbers functions gmap strings countable tactics list.
From S2P Require Import Prelude Machine CString State Spinlock Kalloc Vm VmTheory VmMap VmUser VmAccess Sched SchedTheory Sleeplock Pipe PipeTheory Bio BioList BioCache Log LogTheory LogRun LogOps Fs LogTx FsTheory FsOps FsTx FsFile FsRw.

(** ** Names *)
Lemma strncmp_refl t n : strncmp t t n = 0.
Proof.
  revert t. induction n as [|n IH]; intros t; [done|]. simpl. rewrite Z.eqb_refl, andb_true_r. destruct (negb _); [apply IH|]. lia.
Qed.

Lemma nthZ_drop l i : 0 ≤ i → nthZ (drop (Z.to_nat i) l) 0 = nthZ l i.
Proof. intros Hi. unfold nthZ. rewrite !nth_lookup, lookup_drop. do 2 f_equal. lia. Qed.

Lemma tail_drop {A} (l : list A) i : 0 ≤ i → tail (drop (Z.to_nat i) l) = drop (Z.to_nat (i + 1)) l.
Proof.
  intros Hi. replace (Z.to_nat (i + 1)) with (S (Z.to_nat i)) by lia. generalize (Z.to_nat i). intros n. clear. revert n.
  induction l as [|x l IH]; intros [|n]; try done. apply IH.
Qed.

Lemma length_pad_zero n : ∀ s i, length (pad_zero s i n) = length s.
Proof. induction n as [|n IH]; intros s i; [done|]. simpl. by rewrite IH, length_updZ. Qed.

Lemma length_strncpy_at t n : ∀ s i, length (strncpy_at s t i n) = length s.
Proof. induction n as [|n IH]; intros s i; [done|]. simpl. case_match; rewrite ?length_pad_zero, ?IH; apply length_updZ. Qed.

Lemma pad_zero_below n : ∀ s i k, 0 ≤ k < i → nthZ (pad_zero s i n) k = nthZ s k.
Proof. induction n as [|n IH]; intros s i k Hk; [done|]. simpl. by rewrite IH, nthZ_updZ_ne by lia. Qed.

Lemma strncpy_below t n : ∀ s i k, 0 ≤ k < i → nthZ (strncpy_at s t i n) k = nthZ s k.
Proof.
  induction n as [|n IH]; intros s i k Hk; [done|]. simpl. case_match; rewrite ?pad_zero_below, ?IH by lia; by rewrite nthZ_updZ_ne by lia.
Qed.

(** A copied name compares like the name. *)
Lemma strncmp_strncpy_at t n : ∀ p s i, 0 ≤ i → i + Z.of_nat n ≤ Z.of_nat (length s) →
  strncmp p (drop (Z.to_nat i) (strncpy_at s t i n)) n = strncmp p (drop (Z.to_nat i) t) n.
Proof.
  induction n as [|n IH]; intros p s i Hi Hl; [done|]. cbn [strncmp]. rewrite !nthZ_drop, !tail_drop by done. cbn [strncpy_at].
  destruct (Z.eqb_spec (nthZ t i) 0) as [E|E].
  - rewrite pad_zero_below, nthZ_updZ_eq by lia. rewrite E. destruct (Z.eqb_spec (nthZ p 0) 0) as [->|Hp]; [done|]. by rewrite andb_false_r.
  - rewrite strncpy_below, nthZ_updZ_eq by lia. destruct (_ && _); [|done]. apply IH; [lia|]. rewrite length_updZ. lia.
Qed.

Lemma strncmp_strncpy p old t n : (n ≤ length old)%nat → strncmp p (strncpy old t n) n = strncmp p t n.
Proof. intros Hn. apply (strncmp_strncpy_at t n p old 0); lia. Qed.

(** ** Loops *)
Section scan.
Context {A : Type} (body : Z → M (option A)) (Inv : kstate → Prop).

Lemma scan_past l1 l2 s : Inv s → (∀ x s, x ∈ l1 → Inv s → ∃ s', body x s = Ok None s' ∧ Inv s') →
  ∃ s', Inv s' ∧ for_each (l1 ++ l2) body s = for_each l2 body s'.
Proof.
  revert s. induction l1 as [|x l1 IH]; intros s Hs Hb; [by exists s|].
  destruct (Hb x s (list_elem_of_here _ _) Hs) as (s1 & Hr & Hs1).
  destruct (IH s1 Hs1) as (s2 & Hs2 & Hr2); [intros y s3 Hy; apply Hb; by apply list_elem_of_further|].
  exists s2. split; [done|]. simpl. by rewrite (bind_ok _ _ _ _ _ Hr).
Qed.
End scan.

(** ** The inode table *)
Lemma scan_table t dev inum : ∀ i e, 
  match iget_scan t dev inum i e with
  | inl j => ∃ ip, t !! (j - i)%nat = Some ip ∧ (i ≤ j)%nat ∧ 0 < i_ref ip ∧ i_dev ip = dev ∧ i_inum ip = inum
  | inr (Some j) => e = Some j ∨ ∃ ip, t !! (j - i)%nat = Some ip ∧ (i ≤ j)%nat ∧ i_ref ip = 0
  | inr None => e = None ∧ ∀ ip, ip ∈ t → i_ref ip ≠ 0
  end.
Proof.
  induction t as [|ip t IH]; intros i e; simpl.
  { destruct e; [by left|]. split; [done|]. intros ip Hip. by apply not_elem_of_nil in Hip. }
  destruct (_ && _) eqn:Em.
  { exists ip. rewrite Nat.sub_diag. repeat apply andb_prop in Em as [Em ?]. split; [done|]. lia. }
  set (e' := match e with None => if i_ref ip =? 0 then Some i else None | _ => e end). specialize (IH (S i) e').
  destruct (iget_scan t dev inum (S i) e') as [j|[j|]].
  - destruct IH as (jp & Hj & Hle & ?). exists jp. replace (j - i)%nat with (S (j - S i)) by lia. split; [done|]. split; [lia|done].
  - destruct IH as [He|(jp & Hj & Hle & ?)].
    + unfold e' in He. destruct e; [by left|]. destruct (Z.eqb_spec (i_ref ip) 0); [|done]. injection He as <-. right.
      exists ip. rewrite Nat.sub_diag. done.
    + right. exists jp. replace (j - i)%nat with (S (j - S i)) by lia. split; [done|]. split; [lia|done].
  - destruct IH as [He Hn]. unfold e' in He. destruct e; [done|]. destruct (Z.eqb_spec (i_ref ip) 0); [done|].
    split; [done|]. intros jp [->|Hj]%elem_of_cons; [done|by apply Hn].
Qed.

(** ** A directory *)
Record dir_ok (B : superblock) (V : Z → list Z) (dp : inode) : Prop := {
  dr_file : file_ok B V dp;
  dr_type : i_type dp = T_DIR;
  dr_size : i_size dp = DIRENT_SIZE * (i_size dp / DIRENT_SIZE) ∧ 0 ≤ i_size dp ≤ MAXFILE * BSIZE;
  dr_map : ∀ o, 0 ≤ o < i_size dp → fblk V dp (o / BSIZE) ≠ 0;
}.

Definition nents (dp : inode) : Z := i_size dp / DIRENT_SIZE.
Definition dent (V : Z → list Z) (dp : inode) (k : Z) : list Z := fbytes V dp (k * DIRENT_SIZE) DIRENT_SIZE.

(** Entry [k] is in use and has the name. *)
Definition names (V : Z → list Z) (dp : inode) (name : list Z) (k : Z) : Prop :=
  de_inum (dent V dp k) ≠ 0 ∧ namecmp name (de_name (dent V dp k)) = 0.

Lemma dir_offs_eq V B dp : dir_ok B V dp → dir_offs (i_size dp) = (λ k, k * DIRENT_SIZE) <$> seqZ 0 (nents dp).
Proof.
  intros Hd. unfold dir_offs, nents. destruct (dr_size _ _ _ Hd) as [He Hr]. change DIRENT_SIZE with 16 in *. do 2 f_equal.
  Z.div_mod_to_equations. lia.
Qed.

Section dir.
Context `{EnvOk} (d : Z) (me : nat) (pid : Z) (Hfuel : (0 < fuel)%nat) (q : Z) (Hq : 0 ≤ q).
Implicit Types (V : Z → list Z).
Local Notation tx := (tx d me pid).

(** iget() finds the inode or takes an unused entry for it. *)
Lemma iget_spec s dev inum :
  solo me pid s → length (itable s) = NINODE → (∃ jp, jp ∈ itable s ∧ i_ref jp = 0) →
  ∃ i ip ip', iget dev inum s = Ok i (set_itable (<[i := ip']> (itable s)) s) ∧ itable s !! i = Some ip ∧
    i_dev ip' = dev ∧ i_inum ip' = inum ∧ 0 < i_ref ip' ∧
    (0 < i_ref ip ∧ ip' = set_i_ref (i_ref ip + 1) ip ∨ i_ref ip = 0 ∧ i_ref ip' = 1 ∧ i_valid ip' = false).
Proof.
  intros [Hp Hc Hl _ _ _] Hlen (jp & Hj & Hj0). assert (Hlk : locks s !! LkItable = None) by (rewrite Hl; apply lookup_empty).
  unfold iget. rewrite (bind_ok _ _ _ _ _ (acquire_eq LkItable s Hlk)), bind_gets. change (itable (hold LkItable s)) with (itable s).
  rewrite take_ge by lia. pose proof (scan_table (itable s) dev inum 0 None) as Hscan.
  destruct (iget_scan (itable s) dev inum 0 None) as [i|[i|]].
  - destruct Hscan as (ip & Hip & _ & Hr & Hd & Hn). rewrite Nat.sub_0_r in Hip. exists i, ip, (set_i_ref (i_ref ip + 1) ip).
    split; [|split; [done|split; [done|split; [done|split; [simpl; lia|by left]]]]].
    rewrite (bind_ok _ _ _ _ _ (upd_inode_eq i _ (hold LkItable s) ip Hip)). set (s1 := set_itable _ _).
    rewrite (bind_ok _ _ s1 _ _ (release_eq LkItable s s1 Hc Hlk eq_refl eq_refl)). by destruct s.
  - destruct Hscan as [?|(ip & Hip & _ & Hr)]; [done|]. rewrite Nat.sub_0_r in Hip.
    exists i, ip, (set_i_valid false (set_i_ref 1 (set_i_inum inum (set_i_dev dev ip)))).
    split; [|split; [done|split; [done|split; [done|split; [simpl; lia|right; by split]]]]].
    rewrite (bind_ok _ _ _ _ _ (upd_inode_eq i _ (hold LkItable s) ip Hip)). set (s1 := set_itable _ _).
    rewrite (bind_ok _ _ s1 _ _ (release_eq LkItable s s1 Hc Hlk eq_refl eq_refl)). by destruct s.
  - destruct Hscan as [_ Hn]. by destruct (Hn jp Hj).
Qed.

(** The state between two entries of a scan. *)
Definition scanning (s0 : kstate) V (s : kstate) : Prop := fsame s0 s ∧ itable s = itable s0 ∧ tx q s V ∅.

Lemma read_entry s0 s V B i dp k :
  scanning s0 V s → itable s0 !! i = Some dp → i_dev dp = d → (∀ b, length (V b) = 1024%nat) → dir_ok B V dp → 0 ≤ k < nents dp →
  ∃ s', readi i (Local []) (k * DIRENT_SIZE) DIRENT_SIZE s = Ok (DIRENT_SIZE, dent V dp k) s' ∧ scanning s0 V s'.
Proof.
  intros (Hf & Hi & Ht) Hip Hdev Hlen Hd Hk. destruct (dr_size _ _ _ Hd) as [He Hr]. unfold nents in Hk.
  change (MAXFILE * BSIZE) with 274432 in Hr. change DIRENT_SIZE with 16 in *.
  assert (Hmin : Z.min 16 (i_size dp - k * 16) = 16) by lia.
  destruct (readi_spec d me pid Hfuel q s V i dp (Local []) (k * 16) 16 (λ l out s', out = l ∧ mem s' = mem s)) as (s' & out & Hrun & HK & Ht' & Hs' & Hi');
    rewrite ?Hmin; try done; try lia.
  - destruct (sink_local me pid 16) as [Ha Hb Hc]. split; [done| |].
    + intros l out s1 bs Hso [-> Hm] Hl. exists bs, (mem s1). split; [|done].
      replace (set_mem (mem s1) s1) with s1 by (by destruct s1). unfold either_copyout. by rewrite (bind_ok _ _ _ _ _ (cur_solo me pid s1 Hso)).
    + intros l out s1 s2 Hs [-> Hm]. split; [done|]. destruct (fsame_parts _ _ Hs) as (_ & _ & _ & -> & _). done.
  - by rewrite Hi.
  - change (MAXFILE * BSIZE) with 274432. lia.
  - apply (dr_map _ _ _ Hd).
  - rewrite Hmin in *. destruct HK as [-> Hm]. exists s'. split; [done|]. split; [|split; [congruence|done]].
    eapply fsame_trans; [exact Hf|]. rewrite Hm in Hs'. by replace (set_mem (mem s) s) with s in Hs' by (by destruct s).
Qed.

(** The entries before [k] do not have the name: the scan reaches entry [k]. *)
Lemma lookup_reach s V B i dp name k :
  itable s !! i = Some dp → i_dev dp = d → (∀ b, length (V b) = 1024%nat) → dir_ok B V dp → tx q s V ∅ → 0 ≤ k ≤ nents dp →
  (∀ j, 0 ≤ j < k → ¬ names V dp name j) →
  ∃ s', scanning s V s' ∧ dirlookup i name s = for_each ((λ k, k * DIRENT_SIZE) <$> seqZ k (nents dp - k)) (λ off,
    r ← readi i (Local []) off DIRENT_SIZE;
    let '(code, de) := r in
    if negb (code =? DIRENT_SIZE) then panic "dirlookup read"
    else if de_inum de =? 0 then mret None
    else if namecmp name (de_name de) =? 0 then ip ← iget d (de_inum de); mret (Some (ip, off)) else mret None) s'.
Proof.
  intros Hi Hdev Hlen Hd Ht Hk Hno. unfold dirlookup. rewrite (bind_ok _ _ _ _ _ (get_inode_eq i s dp Hi)), (dr_type _ _ _ Hd).
  rewrite Z.eqb_refl. cbn [negb]. rewrite (dir_offs_eq V B dp Hd), Hdev.
  assert (Hsq : seqZ 0 (nents dp) = seqZ 0 k ++ seqZ k (nents dp - k)).
  { replace (nents dp) with (k + (nents dp - k)) at 1 by lia. by rewrite seqZ_app by lia. }
  rewrite Hsq, fmap_app.
  apply (scan_past _ (scanning s V)); [split; [apply fsame_refl|done]|].
  intros off s1 Hoff Hs1. apply list_elem_of_fmap in Hoff as (j & -> & Hj%elem_of_seqZ).
  destruct (read_entry s s1 V B i dp j Hs1 Hi Hdev Hlen Hd ltac:(lia)) as (s2 & Hr & Hs2). exists s2. split; [|done].
  rewrite (bind_ok _ _ _ _ _ Hr). cbv beta iota. rewrite Z.eqb_refl. cbn [negb]. specialize (Hno j ltac:(lia)). unfold names in Hno.
  destruct (Z.eqb_spec (de_inum (dent V dp j)) 0); [done|]. destruct (Z.eqb_spec (namecmp name (de_name (dent V dp j))) 0); [|done]. tauto.
Qed.

Lemma lookup_absent s V B i dp name :
  itable s !! i = Some dp → i_dev dp = d → (∀ b, length (V b) = 1024%nat) → dir_ok B V dp → tx q s V ∅ →
  (∀ j, 0 ≤ j < nents dp → ¬ names V dp name j) → ∃ s', dirlookup i name s = Ok None s' ∧ scanning s V s'.
Proof.
  intros Hi Hdev Hlen Hd Ht Hno. assert (Hn : 0 ≤ nents dp) by (destruct (dr_size _ _ _ Hd); apply Z.div_pos; [lia|done]).
  destruct (lookup_reach s V B i dp name (nents dp) Hi Hdev Hlen Hd Ht ltac:(lia) Hno) as (s' & Hs' & ->).
  rewrite Z.sub_diag. by exists s'.
Qed.

Lemma lookup_found s V B i dp name k :
  itable s !! i = Some dp → i_dev dp = d → (∀ b, length (V b) = 1024%nat) → dir_ok B V dp → tx q s V ∅ → 0 ≤ k < nents dp →
  names V dp name k → (∀ j, 0 ≤ j < k → ¬ names V dp name j) → length (itable s) = NINODE → (∃ jp, jp ∈ itable s ∧ i_ref jp = 0) →
  ∃ j jp s', dirlookup i name s = Ok (Some (j, k * DIRENT_SIZE)) s' ∧ itable s' = <[j := jp]> (itable s) ∧
    i_dev jp = d ∧ i_inum jp = de_inum (dent V dp k) ∧ 0 < i_ref jp ∧ (i_ref jp ≠ 1 ∨ i_valid jp = false) ∧ (j < length (itable s))%nat ∧
    fsame s s' ∧ tx q s' V ∅.
Proof.
  intros Hi Hdev Hlen Hd Ht Hk [Hin Hnm] Hno HL Hfree.
  destruct (lookup_reach s V B i dp name k Hi Hdev Hlen Hd Ht ltac:(lia) Hno) as (s1 & Hs1 & ->).
  destruct (read_entry s s1 V B i dp k Hs1 Hi Hdev Hlen Hd Hk) as (s2 & Hr & Hf2 & Hi2 & Ht2).
  destruct (iget_spec s2 d (de_inum (dent V dp k))) as (j & jp & jp' & Hg & Hj & Hjd & Hjn & Hjr & Hjv);
    [by eapply tx_solo_of|by rewrite Hi2|by rewrite Hi2|].
  exists j, jp', (set_itable (<[j := jp']> (itable s2)) s2). split; [|split; [simpl; by rewrite Hi2|do 3 (split; [done|]); split; [|split; [|split]]]].
  - rewrite seqZ_cons by lia. rewrite fmap_cons. cbn [for_each]. rewrite (bind_ok _ _ _ (Some (j, k * DIRENT_SIZE)) (set_itable (<[j := jp']> (itable s2)) s2)); [done|].
    rewrite (bind_ok _ _ _ _ _ Hr). cbv beta iota. rewrite Z.eqb_refl. cbn [negb].
    rewrite (proj2 (Z.eqb_neq _ 0)), (proj2 (Z.eqb_eq _ 0)) by done. by rewrite (bind_ok _ _ _ _ _ Hg).
  - destruct Hjv as [[Hr0 ->]|(_ & _ & ?)]; [left; simpl; lia|by right].
  - rewrite <- Hi2. by eapply lookup_lt_Some.
  - eapply fsame_trans; [exact Hf2|apply fsame_itable].
  - by apply tx_itable.
Qed.

(** iput() of an inode that is not the last reference to a deleted file. *)
Lemma iput_simple s i ip : solo me pid s → itable s !! i = Some ip → i_ref ip ≠ 1 ∨ i_valid ip = false →
  iput i s = Ok tt (set_itable (<[i := set_i_ref (i_ref ip - 1) ip]> (itable s)) s).
Proof.
  intros [Hp Hc Hl _ _ _] Hi Hor. assert (Hlk : locks s !! LkItable = None) by (rewrite Hl; apply lookup_empty).
  unfold iput. rewrite (bind_ok _ _ _ _ _ (acquire_eq LkItable s Hlk)), (bind_ok _ _ _ _ _ (get_inode_eq i (hold LkItable s) ip Hi)).
  replace ((i_ref ip =? 1) && i_valid ip && (i_nlink ip =? 0)) with false.
  2:{ destruct Hor as [Hr|Hv]; [by rewrite (proj2 (Z.eqb_neq _ 1))|by rewrite Hv, andb_false_r]. }
  rewrite (bind_ok _ _ (hold LkItable s) tt (hold LkItable s)) by done. rewrite (bind_ok _ _ _ _ _ (upd_inode_eq i _ (hold LkItable s) ip Hi)).
  rewrite (release_eq LkItable s) by done. by destruct s.
Qed.

(** A name that is there is not linked again. *)
Lemma dirlink_dup s V B i dp name inum k :
  itable s !! i = Some dp → i_dev dp = d → (∀ b, length (V b) = 1024%nat) → dir_ok B V dp → tx q s V ∅ → 0 ≤ k < nents dp →
  names V dp name k → (∀ j, 0 ≤ j < k → ¬ names V dp name j) → length (itable s) = NINODE → (∃ jp, jp ∈ itable s ∧ i_ref jp = 0) →
  ∃ s', dirlink i name inum s = Ok (-1) s' ∧ fsame s s' ∧ tx q s' V ∅.
Proof.
  intros Hi Hdev Hlen Hd Ht Hk Hnm Hno HL Hfree.
  destruct (lookup_found s V B i dp name k Hi Hdev Hlen Hd Ht Hk Hnm Hno HL Hfree) as (j & jp & s1 & Hr1 & Hi1 & _ & _ & _ & Hor & Hj & Hf1 & Ht1).
  assert (Hjp : itable s1 !! j = Some jp) by (rewrite Hi1; by apply list_lookup_insert_eq).
  pose proof (iput_simple s1 j jp (tx_solo_of d me pid _ _ _ _ Ht1) Hjp Hor) as Hp.
  eexists. split; [unfold dirlink; rewrite (bind_ok _ _ _ _ _ Hr1), (bind_ok _ _ _ _ _ Hp); reflexivity|].
  split; [eapply fsame_trans; [exact Hf1|apply fsame_itable]|by apply tx_itable].
Qed.
End dir.

(** ** dirlink() *)

(** The entry dirlink() uses: the first free one, or the one after the last. *)
Definition free_slot (V : Z → list Z) (dp : inode) (k : Z) : Prop :=
  0 ≤ k ≤ nents dp ∧ (∀ j, 0 ≤ j < k → de_inum (dent V dp j) ≠ 0) ∧ (k < nents dp → de_inum (dent V dp k) = 0).

Definition old_name (V : Z → list Z) (dp : inode) (k : Z) : list Z := if k <? nents dp then de_name (dent V dp k) else replicate 14 0.

Lemma length_dent V dp k : length (dent V dp k) = 16%nat.
Proof. unfold dent, fbytes. by rewrite length_fmap, length_seqZ. Qed.

Lemma length_old_name V dp k : length (old_name V dp k) = 14%nat.
Proof.
  unfold old_name. case_match; [|done]. unfold de_name. rewrite length_slice; rewrite ?length_dent; done.
Qed.

Lemma length_dirent inum name : length name = 14%nat → Z.of_nat (length (mk_dirent inum name)) = DIRENT_SIZE.
Proof. intros Hl. unfold mk_dirent. by rewrite length_app, length_le_bytes, Hl. Qed.

Lemma dirent_parts inum name : length name = 14%nat → 0 ≤ inum < 2 ^ 16 → de_inum (mk_dirent inum name) = inum ∧ de_name (mk_dirent inum name) = name.
Proof.
  intros Hl Hi. unfold de_inum, de_name, mk_dirent, ldh. split.
  - rewrite slice_app_l by (by rewrite length_le_bytes). rewrite le_value_bytes. change (256 ^ Z.of_nat 2) with (2 ^ 16). unfold u16.
    rewrite Z.mod_mod, Z.mod_small by lia. done.
  - rewrite slice_app_r by (rewrite length_le_bytes; lia). rewrite length_le_bytes. change (2 - Z.of_nat 2) with 0. unfold slice.
    rewrite drop_0. apply take_ge. change DIRSIZ with 14. lia.
Qed.

Lemma one_block k : 0 ≤ k → nspan (k * DIRENT_SIZE) DIRENT_SIZE = 1.
Proof.
  intros Hk. unfold nspan. change DIRENT_SIZE with 16. change BSIZE with 1024. simpl.
  replace ((k * 16 + 16 - 1) / 1024) with (k * 16 / 1024); [lia|]. Z.div_mod_to_equations. lia.
Qed.

(** The entries after [de] has been written to slot [k]. *)
Lemma dent_saved B V V' dp dp' k de : dir_ok B V dp → 0 ≤ k ≤ nents dp → saved B V V' dp dp' (k * DIRENT_SIZE) de →
  Z.of_nat (length de) = DIRENT_SIZE → k * DIRENT_SIZE + DIRENT_SIZE ≤ MAXFILE * BSIZE →
  dir_ok B V' dp' ∧ nents dp' = Z.max (nents dp) (k + 1) ∧ dent V' dp' k = de ∧ ∀ j, 0 ≤ j < nents dp → j ≠ k → dent V' dp' j = dent V dp j.
Proof.
  intros Hd Hk [_ F' (a & I') _ _ Y' M' _ _] Hlen Hmax. destruct (dr_size _ _ _ Hd) as [He Hr]. rewrite Hlen in *.
  unfold nents in *. change DIRENT_SIZE with 16 in *. change (MAXFILE * BSIZE) with 274432 in *.
  assert (Hsz : i_size dp' = Z.max (i_size dp) (k * 16 + 16)) by (by rewrite I').
  split; [split|split; [|split]].
  - done.
  - rewrite I'. apply (dr_type _ _ _ Hd).
  - change DIRENT_SIZE with 16. change (MAXFILE * BSIZE) with 274432. rewrite Hsz. Z.div_mod_to_equations. lia.
  - intros o Ho. rewrite Hsz in Ho. apply M'; [lia|]. destruct (decide (o < i_size dp)); [right; apply (dr_map _ _ _ Hd); lia|left; lia].
  - rewrite Hsz. Z.div_mod_to_equations. lia.
  - apply list_eq_nthZ; [rewrite length_dent; lia|]. intros o Ho. rewrite length_dent in Ho. unfold dent. change DIRENT_SIZE with 16.
    rewrite nthZ_fbytes, Y', decide_True by lia. f_equal. lia.
  - intros j Hj Hne. apply list_eq_nthZ; [by rewrite !length_dent|]. intros o Ho. rewrite length_dent in Ho. unfold dent. change DIRENT_SIZE with 16.
    rewrite !nthZ_fbytes, Y', decide_False by lia. done.
Qed.

Section link.
Context `{EnvOk} (d : Z) (me : nat) (pid : Z) (Hfuel : (0 < fuel)%nat) (q : Z) (Hq : 0 ≤ q).
Implicit Types (V : Z → list Z).
Local Notation tx := (tx d me pid).

(** The second scan of dirlink() finds the slot. *)
Lemma slot_scan s0 s V B i dp k :
  scanning d me pid q s0 V s → itable s0 !! i = Some dp → i_dev dp = d → (∀ b, length (V b) = 1024%nat) → dir_ok B V dp → free_slot V dp k →
  ∃ s', for_each (dir_offs (i_size dp)) (λ off,
      r ← readi i (Local []) off DIRENT_SIZE;
      let '(code, de) := r in
      if negb (code =? DIRENT_SIZE) then panic "dirlink read"
      else if de_inum de =? 0 then mret (Some (off, de_name de))
      else mret None) s = Ok (if k <? nents dp then Some (k * DIRENT_SIZE, de_name (dent V dp k)) else None) s' ∧ scanning d me pid q s0 V s'.
Proof.
  intros Hs Hi Hdev Hlen Hd (Hk & Hno & Hfree). rewrite (dir_offs_eq V B dp Hd).
  assert (Hsq : seqZ 0 (nents dp) = seqZ 0 k ++ seqZ k (nents dp - k)).
  { replace (nents dp) with (k + (nents dp - k)) at 1 by lia. by rewrite seqZ_app by lia. }
  rewrite Hsq, fmap_app. set (body := λ off : Z, readi i _ off _ ≫= _).
  destruct (scan_past body (scanning d me pid q s0 V) ((λ k, k * DIRENT_SIZE) <$> seqZ 0 k) ((λ k, k * DIRENT_SIZE) <$> seqZ k (nents dp - k)) s Hs) as (s1 & Hs1 & ->).
  { intros off s1 Hoff Hs1. apply list_elem_of_fmap in Hoff as (j & -> & Hj%elem_of_seqZ).
    destruct (read_entry d me pid Hfuel q Hq s0 s1 V B i dp j Hs1 Hi Hdev Hlen Hd ltac:(lia)) as (s2 & Hr & Hs2). exists s2. split; [|done].
    unfold body. rewrite (bind_ok _ _ _ _ _ Hr). cbv beta iota. rewrite Z.eqb_refl. cbn [negb]. by rewrite (proj2 (Z.eqb_neq _ 0)) by (apply Hno; lia). }
  destruct (Z.ltb_spec k (nents dp)) as [Hlt|Hge].
  - destruct (read_entry d me pid Hfuel q Hq s0 s1 V B i dp k Hs1 Hi Hdev Hlen Hd ltac:(lia)) as (s2 & Hr & Hs2). exists s2. split; [|done].
    rewrite seqZ_cons by lia. rewrite fmap_cons. cbn [for_each]. rewrite (bind_ok _ _ _ (Some (k * DIRENT_SIZE, de_name (dent V dp k))) s2); [done|].
    unfold body. rewrite (bind_ok _ _ _ _ _ Hr). cbv beta iota. rewrite Z.eqb_refl. cbn [negb]. by rewrite (proj2 (Z.eqb_eq _ 0)) by (apply Hfree; lia).
  - exists s1. replace (nents dp - k) with 0 by lia. done.
Qed.
End link.

Section link2.
Context `{EnvOk} (d : Z) (me : nat) (pid : Z) (Hfuel : (0 < fuel)%nat).
Implicit Types (V : Z → list Z).
Local Notation tx := (tx d me pid).

(** dirlink() of a new name writes one entry. *)
Lemma dirlink_spec q s V i dp name inum k :
  let B := sb s in let de := mk_dirent inum (strncpy (old_name V dp k) name (Z.to_nat DIRSIZ)) in
  0 ≤ q → itable s !! i = Some dp → i_dev dp = d → disk_ok B V → dir_ok B V dp → dinode_ok (dinode_of dp) →
  0 ≤ i_inum dp → 0 ≤ IBLOCK (i_inum dp) B < sb_bmapstart B → (∀ j, 0 ≤ j < nents dp → ¬ names V dp name j) →
  free_slot V dp k → k * DIRENT_SIZE + DIRENT_SIZE ≤ MAXFILE * BSIZE → 1 + ineed dp ≤ nfree B V →
  1 ≤ l_outstanding (log s) → tx (4 + q) s V ∅ →
  ∃ s' V' dp', dirlink i name inum s = Ok 0 s' ∧ itable s' = <[i := dp']> (itable s) ∧ fsame s s' ∧
    saved B V V' dp dp' (k * DIRENT_SIZE) de ∧ tx q s' V' ∅.
Proof.
  intros B de Hq Hi Hdev Hdk Hd Hdi Hin Hib Hno Hsl Hmax Hfr Hout Ht. pose proof (dk_len _ _ Hdk) as Hlen.
  assert (Hl : Z.of_nat (length de) = DIRENT_SIZE) by (apply length_dirent; unfold strncpy; by rewrite length_strncpy_at, length_old_name).
  destruct (lookup_absent d me pid Hfuel (4 + q) ltac:(lia) s V B i dp name Hi Hdev Hlen Hd Ht Hno) as (s1 & Hr1 & Hs1).
  destruct (slot_scan d me pid Hfuel (4 + q) ltac:(lia) s s1 V B i dp k Hs1 Hi Hdev Hlen Hd Hsl) as (s2 & Hr2 & Hf2 & Hi2 & Ht2).
  destruct (fsame_parts _ _ Hf2) as (Hsb & _). destruct (dr_size _ _ _ Hd) as [He Hr]. pose proof Hsl as ([Hk0 Hk] & _ & _). unfold nents in Hk.
  destruct (writei_spec d me pid Hfuel q s2 V i dp (Local de) (k * DIRENT_SIZE) de) as (s3 & V3 & dp3 & Hr3 & Hi3 & Hf3 & Hsv & Ht3);
    rewrite ?Hl, ?Hsb, ?one_block by done; try done; try lia.
  - by apply (gives_local me pid), (tx_solo_of d me pid (4 + q) s2 V ∅).
  - by rewrite Hi2.
  - apply (dr_file _ _ _ Hd).
  - change DIRENT_SIZE with 16 in *. lia.
  - by rewrite (fs_open _ _ Hf2).
  - rewrite Hsb in Hsv. exists s3, V3, dp3. split; [|split; [by rewrite Hi3, Hi2|split; [by eapply fsame_trans|done]]].
    unfold dirlink. rewrite (bind_ok _ _ _ _ _ Hr1), (bind_ok _ _ _ _ _ (get_inode_eq i s1 dp ltac:(by rewrite (proj1 (proj2 Hs1))))).
    rewrite (bind_ok _ _ _ _ _ Hr2). rewrite Hl in Hr3.
    destruct (Z.ltb_spec k (nents dp)) as [Hlt|Hge].
    + unfold de, old_name in Hr3. rewrite (proj2 (Z.ltb_lt k (nents dp))) in Hr3 by done. by rewrite (bind_ok _ _ _ _ _ Hr3).
    + unfold de, old_name in Hr3. rewrite (proj2 (Z.ltb_ge k (nents dp))) in Hr3 by done.
      replace ((i_size dp + DIRENT_SIZE - 1) / DIRENT_SIZE * DIRENT_SIZE) with (k * DIRENT_SIZE).
      * by rewrite (bind_ok _ _ _ _ _ Hr3).
      * f_equal. unfold nents in *. change DIRENT_SIZE with 16 in *. Z.div_mod_to_equations. lia.
Qed.
End link2.
