(* ===== verification/Mkfs.v ===== *)
(** * mkfs/mkfs.c: building the disk image

    The image is a map from block numbers to blocks; blocks that were never
    written are past the end of the file. A run ends with a value, or dies. The
    program runs on a little-endian host, where xint() and xshort() are the
    identity; structures are laid out as the kernel reads them (Fs.v). *)

From Stdlib Require Import ZArith Lia.
From stdpp Require Import base numbers functions gmap strings countable tactics list.
From S2P Require Import Prelude Machine CString State Spinlock Kalloc Vm Sched Sleeplock Bio BioCache Log LogTheory Fs FsTheory.

Record mkst := mkMkst {
  m_img : gmap Z (list Z);
  m_freeinode : Z;
  m_freeblock : Z;
}.

Inductive mkres (A : Type) :=
  | Made (a : A) (st : mkst)
  | Died (why : string).
Arguments Made {A} a st.
Arguments Died {A} why.

Definition K (A : Type) : Type := mkst → mkres A.
#[global] Instance K_ret : MRet K := λ A a st, Made a st.
#[global] Instance K_bind : MBind K := λ A B f m st,
  match m st with
  | Made a st => f a st
  | Died why => Died why
  end.

Definition die {A} (why : string) : K A := λ _, Died why.
Definition assert_ (b : bool) : K unit := if b then mret tt else die "assert".

(** ** The layout *)
Definition NINODES : Z := 200.
Definition nbitmap : Z := FSSIZE / (BSIZE * 8) + 1.
Definition ninodeblocks : Z := NINODES / IPB + 1.
Definition nlog : Z := LOGSIZE.
Definition nmeta : Z := 2 + nlog + ninodeblocks + nbitmap.
Definition nblocks : Z := FSSIZE - nmeta.

Definition mksb : superblock :=
  mkSb FSMAGIC FSSIZE nblocks NINODES nlog 2 (2 + nlog) (2 + nlog + ninodeblocks).

Definition encode_sb (s : superblock) : list Z :=
  concat (le_bytes 4 <$> [sb_magic s; sb_size s; sb_nblocks s; sb_ninodes s; sb_nlog s; sb_logstart s; sb_inodestart s; sb_bmapstart s]).

(** ** Blocks and inodes *)
Definition wsect (sec : Z) (buf : list Z) : K unit := λ st,
  Made tt (mkMkst (<[sec := buf]> (m_img st)) (m_freeinode st) (m_freeblock st)).

Definition rsect (sec : Z) : K (list Z) := λ st,
  match m_img st !! sec with
  | Some buf => Made buf st
  | None => Died "read"
  end.

Definition winode (inum : Z) (d : dinode) : K unit :=
  let bn := IBLOCK inum mksb in
  buf ← rsect bn;
  wsect bn (put_dinode buf inum d).

Definition rinode (inum : Z) : K dinode :=
  let bn := IBLOCK inum mksb in
  buf ← rsect bn;
  mret (get_dinode buf inum).

(** freeinode++ and freeblock++ *)
Definition next_inode : K Z := λ st,
  Made (m_freeinode st) (mkMkst (m_img st) (u32 (m_freeinode st + 1)) (m_freeblock st)).
Definition next_block : K Z := λ st,
  Made (m_freeblock st) (mkMkst (m_img st) (m_freeinode st) (u32 (m_freeblock st + 1))).

Definition blocks_used : K Z := λ st, Made (m_freeblock st) st.

Definition ialloc (type : Z) : K Z :=
  inum ← next_inode;
  winode inum (mkDinode type 0 0 1 0 (replicate 13 0));;
  mret inum.

Definition balloc (used : Z) : K unit :=
  assert_ (used <? BSIZE * 8);;
  wsect (sb_bmapstart mksb) (foldl bit_set zero_block (seqZ 0 used)).

(** ** Appending to a file *)
Definition set_addr (d : dinode) (k a : Z) : dinode :=
  mkDinode (di_type d) (di_major d) (di_minor d) (di_nlink d) (di_size d) (updZ (di_addrs d) k a).
Definition set_size (d : dinode) (n : Z) : dinode :=
  mkDinode (di_type d) (di_major d) (di_minor d) (di_nlink d) n (di_addrs d).

(** din.addrs[k], with a new block if there is none *)
Definition have_addr (d : dinode) (k : Z) : K dinode :=
  if nthZ (di_addrs d) k =? 0 then b ← next_block; mret (set_addr d k b) else mret d.

(** The block for part [fbn] of the file. *)
Definition file_block (d : dinode) (fbn : Z) : K (dinode * Z) :=
  if fbn <? NDIRECT then
    d ← have_addr d fbn;
    mret (d, nthZ (di_addrs d) fbn)
  else
    d ← have_addr d NDIRECT;
    let ib := nthZ (di_addrs d) NDIRECT in
    let o := 4 * (fbn - NDIRECT) in
    indirect ← rsect ib;
    indirect ← (if ldw indirect o =? 0 then
                  b ← next_block;
                  let indirect := splice indirect o (le_bytes 4 b) in
                  wsect ib indirect;;
                  mret indirect
                else mret indirect);
    mret (d, ldw indirect o).

(** One round of the loop of iappend(), for the bytes [p] that are left. *)
Definition iappend_round (d : dinode) (off : Z) (p : list Z) : K (dinode * Z * list Z) :=
  let fbn := off / BSIZE in
  assert_ (fbn <? MAXFILE);;
  '(d, x) ← file_block d fbn;
  let n1 := Z.min (Z.of_nat (length p)) ((fbn + 1) * BSIZE - off) in
  buf ← rsect x;
  wsect x (splice buf (off - fbn * BSIZE) (take (Z.to_nat n1) p));;
  mret (d, u32 (off + n1), drop (Z.to_nat n1) p).

Fixpoint iappend_loop (fuel : nat) (d : dinode) (off : Z) (p : list Z) : K (dinode * Z) :=
  match p, fuel with
  | [], _ => mret (d, off)
  | _, O => die "fuel"
  | _, S fuel =>
      '(d, off, p) ← iappend_round d off p;
      iappend_loop fuel d off p
  end.

Definition iappend (inum : Z) (p : list Z) : K unit :=
  d ← rinode inum;
  '(d, off) ← iappend_loop (length p) d (di_size d) p;
  winode inum (set_size d off).

(** ** main() *)

(** A directory entry: the name is cut or padded to DIRSIZ bytes. *)
Definition pad_name (name : list Z) : list Z := take (Z.to_nat DIRSIZ) (name ++ replicate (Z.to_nat DIRSIZ) 0).
Definition dirent (inum : Z) (name : list Z) : list Z := mk_dirent inum (pad_name name).

(** strip a leading user/, and then a leading underscore *)
Definition strip_user (arg : list Z) : list Z :=
  if decide (take 5 arg = [117; 115; 101; 114; 47]) then drop 5 arg else arg.
Definition strip_underscore (name : list Z) : list Z :=
  match name with
  | 95 :: name => name
  | _ => name
  end.

(** A file on the command line: its name, and what the reads of it deliver;
    [None] if it cannot be opened. *)
Definition source : Type := list Z * option (list (list Z)).

Fixpoint each {X} (f : X → K unit) (l : list X) : K unit :=
  match l with
  | [] => mret tt
  | x :: l => f x;; each f l
  end.

Definition add_file (f : source) : K unit :=
  let name := strip_user f.1 in
  assert_ (forallb (λ c, negb (c =? 47)) name);;
  match f.2 with
  | None => die "open"
  | Some pieces =>
      inum ← ialloc T_FILE;
      iappend ROOTINO (dirent inum (strip_underscore name));;
      each (iappend inum) pieces
  end.

Definition mkfs_main (files : list source) : K unit :=
  each (λ i, wsect i zero_block) (seqZ 0 FSSIZE);;
  wsect 1 (splice zero_block 0 (encode_sb mksb));;
  rootino ← ialloc T_DIR;
  assert_ (rootino =? ROOTINO);;
  iappend rootino (dirent rootino [46]);;
  iappend rootino (dirent rootino [46; 46]);;
  each add_file files;;
  din ← rinode rootino;
  winode rootino (set_size din ((di_size din / BSIZE + 1) * BSIZE));;
  used ← blocks_used;
  balloc used.

Definition mkfs (files : list source) : mkres unit := mkfs_main files (mkMkst ∅ 1 nmeta).
