(* ===== verification/MkfsTheory.v ===== *)
(** * What mkfs leaves on the disk

    An inode owns blocks: one per part of its file, and the block of its indirect
    addresses. [files_ok] says that the blocks of all inodes are different, that
    they hold the contents of the files, and that the blocks from the first free one
    on are zero. iappend() keeps this and appends to one file. *)

From Stdlib Require Import ZArith Lia.
From stdpp Require Import base numbers functions gmap strings countable tactics list.
From S2P Require Import Prelude Machine CString State Spinlock Kalloc Vm Sched Sleeplock Bio BioCache Log LogTheory Fs FsTheory Mkfs.

Implicit Types (img : gmap Z (list Z)) (d : dinode) (n fb : Z) (h : bool) (bs : list Z).

(** ** Blocks of an inode

    The inode has [n] data blocks and, if [h], a block of indirect addresses, which
    is number -1. *)
Notation shape := (Z * bool)%type.

Definition valid (s : shape) (k : Z) : Prop := 0 ≤ k < s.1 ∨ k = -1 ∧ s.2 = true.

Definition saddr img d (k : Z) : Z :=
  if k <? 12 then nthZ (di_addrs d) (if k =? -1 then 12 else k)
  else ldw (block_of img (nthZ (di_addrs d) 12)) (4 * (k - 12)).

Definition cost (s : shape) : Z := s.1 + if s.2 then 1 else 0.

Record node img fb d (s : shape) bs : Prop := {
  nd_len : length (di_addrs d) = 13%nat;
  nd_n : 0 ≤ s.1 ≤ 268;
  nd_small : s.2 = false → s.1 ≤ 12;
  nd_used : ∀ k, valid s k → nmeta ≤ saddr img d k < fb;
  nd_free : ∀ k, s.1 ≤ k < 12 → nthZ (di_addrs d) k = 0;
  nd_ind : s.2 = false → nthZ (di_addrs d) 12 = 0;
  nd_words : s.2 = true → ∀ k, s.1 ≤ k < 268 → 12 ≤ k → saddr img d k = 0;
  nd_size : Z.of_nat (length bs) ≤ 1024 * s.1;
  nd_bytes : ∀ o, 0 ≤ o < 1024 * s.1 → nthZ (block_of img (saddr img d (o / 1024))) (o mod 1024) = nthZ bs o;
}.

Record files_ok img fb (m : Z) (D : Z → dinode) (S : Z → shape) (C : Z → list Z) : Prop := {
  fo_img : ∀ b, 0 ≤ b < FSSIZE → ∃ x, img !! b = Some x ∧ length x = 1024%nat;
  fo_node : ∀ j, 1 ≤ j < m → node img fb (D j) (S j) (C j);
  fo_inj : ∀ j j' k k', 1 ≤ j < m → 1 ≤ j' < m → valid (S j) k → valid (S j') k' →
    saddr img (D j) k = saddr img (D j') k' → j = j' ∧ k = k';
  fo_zero : ∀ b, fb ≤ b < FSSIZE → block_of img b = zero_block;
  fo_fb : nmeta ≤ fb ≤ FSSIZE;
}.

Lemma nmeta_val : nmeta = 46.
Proof. reflexivity. Qed.
Lemma FSSIZE_val : FSSIZE = 1000.
Proof. reflexivity. Qed.

(** The blocks of an inode that did not change. *)
Lemma saddr_frame img img' fb d s bs : node img fb d s bs →
  (∀ k, valid s k → block_of img' (saddr img d k) = block_of img (saddr img d k)) →
  (s.2 = true → ∀ k, saddr img' d k = saddr img d k) ∧ ∀ k, valid s k → saddr img' d k = saddr img d k.
Proof.
  intros Hn Hb. assert (Hi : s.2 = true → ∀ k, saddr img' d k = saddr img d k).
  { intros Hs k. specialize (Hb (-1) (or_intror (conj eq_refl Hs))). unfold saddr in *. simpl in Hb.
    destruct (k <? 12); [done|]. by rewrite Hb. }
  split; [done|]. intros k Hk. destruct (s.2) eqn:E; [by apply Hi|]. destruct Hk as [Hk|[_ Hk]]; [|congruence].
  pose proof (nd_small _ _ _ _ _ Hn E). unfold saddr. destruct (k <? 12) eqn:E'; [done|lia].
Qed.

Lemma node_frame img img' fb fb' d s bs : node img fb d s bs → fb ≤ fb' →
  (∀ k, valid s k → block_of img' (saddr img d k) = block_of img (saddr img d k)) → node img' fb' d s bs.
Proof.
  intros Hn Hfb Hb. destruct (saddr_frame img img' fb d s bs Hn Hb) as [Hi Hs].
  destruct Hn as [H1 H2 H3 H4 H5 H6 H7 H8 H9]. constructor; try done.
  - intros k Hk. rewrite Hs by done. specialize (H4 k Hk). lia.
  - intros E k Hk1 Hk2. rewrite Hi by done. by apply H7.
  - intros o Ho. assert (Hv : valid s (o / 1024)) by (left; Z.div_mod_to_equations; lia).
    rewrite (Hs _ Hv), (Hb _ Hv). by apply H9.
Qed.

(** One inode gets one more block, the first free one. *)
Lemma add_slot img img' fb m D S C i d' s' kn : files_ok img fb m D S C → 1 ≤ i < m → fb < FSSIZE →
  node img' (fb + 1) d' s' (C i) → (∀ k, valid s' k → k = kn ∨ valid (S i) k) → saddr img' d' kn = fb →
  (∀ k, valid (S i) k → saddr img' d' k = saddr img (D i) k) →
  (∀ j k, 1 ≤ j < m → j ≠ i → valid (S j) k → block_of img' (saddr img (D j) k) = block_of img (saddr img (D j) k)) →
  (∀ b, fb < b < FSSIZE → block_of img' b = block_of img b) →
  (∀ b, 0 ≤ b < FSSIZE → ∃ x, img' !! b = Some x ∧ length x = 1024%nat) →
  files_ok img' (fb + 1) m (<[i := d']> D) (<[i := s']> S) C.
Proof.
  intros [Hi Hn Hinj Hz Hfb] Him Hlt Hnode Hval Hnew Hold Hoth Hz' Hi'.
  assert (Hsame : ∀ j k, 1 ≤ j < m → j ≠ i → valid (S j) k → saddr img' (D j) k = saddr img (D j) k).
  { intros j k Hj Hne. apply (saddr_frame img img' fb (D j) (S j) (C j)); [by apply Hn|]. by intros k' Hk'; apply Hoth. }
  assert (Hlow : ∀ j k, 1 ≤ j < m → valid (S j) k → saddr img (D j) k < fb) by (intros j k Hj Hk; by apply (nd_used _ _ _ _ _ (Hn j Hj))).
  constructor; try done.
  - intros j Hj. destruct (decide (j = i)) as [->|Hne]; [by rewrite !fn_lookup_insert|]. rewrite !fn_lookup_insert_ne by done.
    eapply node_frame; [by apply Hn|lia|]. intros k Hk. by apply Hoth.
  - intros j j' k k' Hj Hj' Hk Hk' Heq. destruct (decide (j = i)) as [->|Hne], (decide (j' = i)) as [->|Hne'];
      rewrite ?fn_lookup_insert, ?fn_lookup_insert_ne in * by done.
    + split; [done|]. apply Hval in Hk as [->|Hk], Hk' as [->|Hk']; [done|..]; rewrite ?Hnew, ?Hold in Heq by done.
      * specialize (Hlow i k' Him Hk'). lia.
      * specialize (Hlow i k Him Hk). lia.
      * by apply (Hinj i i k k').
    + exfalso. rewrite (Hsame j') in Heq by done. specialize (Hlow j' k' Hj' Hk') as Hl.
      apply Hval in Hk as [->|Hk]; rewrite ?Hnew, ?Hold in Heq by done; [lia|]. by destruct (Hinj i j' k k' Hj Hj' Hk Hk' Heq).
    + exfalso. rewrite (Hsame j) in Heq by done. specialize (Hlow j k Hj Hk) as Hl.
      apply Hval in Hk' as [->|Hk']; rewrite ?Hnew, ?Hold in Heq by done; [lia|]. by destruct (Hinj j i k k' Hj Hj' Hk Hk' Heq).
    + rewrite !Hsame in Heq by done. by apply Hinj.
  - intros b Hb. rewrite Hz' by lia. apply Hz. lia.
  - lia.
Qed.

Lemma saddr_set img d n a k : length (di_addrs d) = 13%nat → 0 ≤ n < 12 → -1 ≤ k →
  saddr img (set_addr d n a) k = if decide (k = n) then a else saddr img d k.
Proof.
  intros Hl Hn Hk. unfold saddr, set_addr. cbn [di_addrs].
  destruct (k <? 12) eqn:E1, (k =? -1) eqn:E2; rewrite !nthZ_upd by lia; repeat case_decide; lia || done.
Qed.

Lemma alloc_direct img fb m D S C i n h : files_ok img fb m D S C → 1 ≤ i < m → fb < FSSIZE → S i = (n, h) → n < 12 →
  files_ok img (fb + 1) m (<[i := set_addr (D i) n fb]> D) (<[i := (n + 1, h)]> S) C.
Proof.
  intros Hok Hi Hfb HS Hn. pose proof (fo_node _ _ _ _ _ _ Hok i Hi) as Hnode. rewrite HS in Hnode.
  destruct Hnode as [H1 H2 H3 H4 H5 H6 H7 H8 H9]. cbn [fst snd] in *. pose proof (fo_fb _ _ _ _ _ _ Hok) as Hfb'.
  assert (Hset : ∀ k, -1 ≤ k → saddr img (set_addr (D i) n fb) k = if decide (k = n) then fb else saddr img (D i) k)
    by (intros k Hk; apply saddr_set; [done|lia|done]).
  apply (add_slot img img fb m D S C i _ _ n); try done.
  - constructor; cbn [fst snd].
    + unfold set_addr. cbn [di_addrs]. by rewrite length_updZ.
    + lia.
    + intros Hh. lia.
    + intros k Hk. rewrite Hset by (destruct Hk as [?|[? ?]]; simpl in *; lia). case_decide; [lia|].
      assert (valid (n, h) k) as Hv by (destruct Hk as [?|?]; [left; simpl in *; lia|by right]). specialize (H4 k Hv). lia.
    + intros k Hk. unfold set_addr. cbn [di_addrs]. rewrite nthZ_upd, decide_False by lia. apply H5. lia.
    + intros Hh. unfold set_addr. cbn [di_addrs]. rewrite nthZ_upd, decide_False by lia. by apply H6.
    + intros Hh k Hk Hk12. rewrite Hset, decide_False by lia. apply H7; [done|lia|done].
    + lia.
    + intros o Ho. rewrite Hset by (Z.div_mod_to_equations; lia). case_decide as E.
      * rewrite (fo_zero _ _ _ _ _ _ Hok) by lia. rewrite nthZ_zero, nthZ_end; [done|]. Z.div_mod_to_equations; lia.
      * apply H9. Z.div_mod_to_equations; lia.
  - intros k [Hk|Hk]; [|right; rewrite HS; by right]. simpl in Hk. destruct (decide (k = n)); [by left|right; rewrite HS; left; simpl; lia].
  - rewrite Hset, decide_True by lia. done.
  - intros k. rewrite HS. intros Hk. rewrite Hset by (destruct Hk as [?|[? ?]]; simpl in *; lia).
    rewrite decide_False; [done|]. destruct Hk as [?|[? ?]]; simpl in *; lia.
  - apply Hok.
Qed.

Lemma alloc_indirect img fb m D S C i : files_ok img fb m D S C → 1 ≤ i < m → fb < FSSIZE → S i = (12, false) →
  files_ok img (fb + 1) m (<[i := set_addr (D i) 12 fb]> D) (<[i := (12, true)]> S) C.
Proof.
  intros Hok Hi Hfb HS. pose proof (fo_node _ _ _ _ _ _ Hok i Hi) as Hnode. rewrite HS in Hnode.
  destruct Hnode as [H1 H2 H3 H4 H5 H6 H7 H8 H9]. cbn [fst snd] in *. pose proof (fo_fb _ _ _ _ _ _ Hok) as Hfb'.
  assert (Hlow : ∀ k, 0 ≤ k < 12 → saddr img (set_addr (D i) 12 fb) k = saddr img (D i) k).
  { intros k Hk. unfold saddr, set_addr. cbn [di_addrs]. destruct (k <? 12) eqn:E1; [|lia]. destruct (k =? -1) eqn:E2; [lia|].
    by rewrite nthZ_upd, decide_False by lia. }
  assert (Hmin : saddr img (set_addr (D i) 12 fb) (-1) = fb) by (unfold saddr, set_addr; simpl; by rewrite nthZ_upd by lia).
  assert (Hval : ∀ k, valid (12, true) k → k = -1 ∨ 0 ≤ k < 12) by (intros k [?|[? _]]; [by right|by left]).
  apply (add_slot img img fb m D S C i _ _ (-1)); try done.
  - constructor; cbn [fst snd]; try done.
    + unfold set_addr. cbn [di_addrs]. by rewrite length_updZ.
    + intros k [->|Hk]%Hval; [rewrite Hmin; lia|]. rewrite Hlow by done. specialize (H4 k ltac:(by left)). lia.
    + intros k Hk. lia.
    + intros _ k Hk Hk12. unfold saddr. destruct (k <? 12) eqn:E; [lia|]. unfold set_addr. cbn [di_addrs].
      rewrite nthZ_upd, decide_True by lia. by rewrite (fo_zero _ _ _ _ _ _ Hok), ldw_zero by lia.
    + intros o Ho. rewrite Hlow by (Z.div_mod_to_equations; lia). by apply H9.
  - intros k [->|Hk]%Hval; [by left|right]. rewrite HS. by left.
  - intros k. rewrite HS. intros [Hk|[_ Hk]]; [by apply Hlow|done].
  - apply Hok.
Qed.

Lemma img_insert img b x : (∀ c, 0 ≤ c < FSSIZE → ∃ y, img !! c = Some y ∧ length y = 1024%nat) → length x = 1024%nat →
  ∀ c, 0 ≤ c < FSSIZE → ∃ y, <[b := x]> img !! c = Some y ∧ length y = 1024%nat.
Proof. intros Hi Hx c Hc. destruct (decide (c = b)) as [->|]; [rewrite lookup_insert_eq; eauto|rewrite lookup_insert_ne by done; by apply Hi]. Qed.

Lemma block_some img b x : img !! b = Some x → block_of img b = x.
Proof. intros H. unfold block_of. by rewrite H. Qed.

Lemma block_length img fb m D S C b : files_ok img fb m D S C → 0 ≤ b < FSSIZE → length (block_of img b) = 1024%nat.
Proof. intros Hok Hb. destruct (fo_img _ _ _ _ _ _ Hok b Hb) as (x & Hx & Hl). by rewrite (block_some _ _ _ Hx). Qed.

(** The block of indirect addresses of an inode is nobody's data. *)
Lemma indirect_apart img fb m D S C i j k : files_ok img fb m D S C → 1 ≤ i < m → (S i).2 = true → 1 ≤ j < m → valid (S j) k →
  j ≠ i ∨ k ≠ -1 → saddr img (D j) k ≠ saddr img (D i) (-1).
Proof. intros Hok Hi Hh Hj Hk Hne Heq. destruct (fo_inj _ _ _ _ _ _ Hok j i k (-1) Hj Hi Hk ltac:(by right) Heq). naive_solver. Qed.

Lemma alloc_entry img fb m D S C i n : files_ok img fb m D S C → 1 ≤ i < m → fb < FSSIZE → S i = (n, true) → 12 ≤ n < 268 →
  let ib := nthZ (di_addrs (D i)) 12 in
  let img' := <[ib := splice (block_of img ib) (4 * (n - 12)) (le_bytes 4 fb)]> img in
  files_ok img' (fb + 1) m (<[i := D i]> D) (<[i := (n + 1, true)]> S) C ∧ saddr img' (D i) n = fb.
Proof.
  intros Hok Hi Hfb HS Hn ib img'. pose proof (fo_node _ _ _ _ _ _ Hok i Hi) as Hnode. rewrite HS in Hnode.
  destruct Hnode as [H1 H2 H3 H4 H5 H6 H7 H8 H9]. cbn [fst snd] in *. pose proof (fo_fb _ _ _ _ _ _ Hok) as Hfb'.
  assert (Hib : nmeta ≤ ib < fb) by apply (H4 (-1) ltac:(by right)). rewrite nmeta_val, FSSIZE_val in *.
  assert (Hl : length (block_of img ib) = 1024%nat) by (eapply block_length; [done|rewrite FSSIZE_val; lia]).
  assert (Hoth : ∀ b, b ≠ ib → block_of img' b = block_of img b) by (intros b Hb; unfold img'; by rewrite block_insert, decide_False).
  assert (Hap : ∀ j k, 1 ≤ j < m → valid (S j) k → j ≠ i ∨ k ≠ -1 → saddr img (D j) k ≠ ib)
    by (intros j k Hj Hk Hne; apply (indirect_apart img fb m D S C i); try done; by rewrite HS).
  assert (Hsa : ∀ k, 0 ≤ k < 268 → saddr img' (D i) k = if decide (k = n) then fb else saddr img (D i) k).
  { intros k Hk. unfold saddr. destruct (k <? 12) eqn:E; [rewrite decide_False by lia; done|]. fold ib. unfold img'.
    rewrite block_insert, decide_True by done. case_decide as Ek; [subst; apply ldw_splice_eq; lia|apply ldw_splice_ne; lia]. }
  assert (Hfin : saddr img' (D i) n = fb) by (rewrite Hsa, decide_True by lia; done). split; [|done].
  apply (add_slot img img' fb m D S C i _ _ n); try done; rewrite ?nmeta_val, ?FSSIZE_val; try lia.
  - constructor; cbn [fst snd]; try done; try lia.
    + rewrite nmeta_val. intros k [Hk|[-> _]]; [|change (saddr img' (D i) (-1)) with ib; lia]. cbn [fst] in Hk. rewrite Hsa by lia. case_decide; [lia|].
      specialize (H4 k ltac:(left; simpl; lia)). lia.
    + intros _ k Hk Hk12. rewrite Hsa, decide_False by lia. apply H7; [done|lia|done].
    + intros o Ho. rewrite Hsa by (Z.div_mod_to_equations; lia). case_decide as E.
      * rewrite Hoth, (fo_zero _ _ _ _ _ _ Hok), nthZ_zero, nthZ_end; [done|Z.div_mod_to_equations; lia|rewrite FSSIZE_val; lia|lia].
      * assert (Hv : valid (S i) (o / 1024)) by (rewrite HS; left; simpl; Z.div_mod_to_equations; lia).
        rewrite Hoth; [apply H9; Z.div_mod_to_equations; lia|]. apply Hap; [done|done|right; Z.div_mod_to_equations; lia].
  - intros k [Hk|Hk]; [|right; rewrite HS; by right]. simpl in Hk. destruct (decide (k = n)); [by left|right; rewrite HS; left; simpl; lia].
  - intros k. rewrite HS. intros [Hk|[-> _]]; [|done]. cbn [fst] in Hk. rewrite Hsa, decide_False by lia. done.
  - intros j k Hj Hne Hk. apply Hoth, Hap; [done|done|by left].
  - intros b Hb. apply Hoth. lia.
  - intros b. rewrite <- FSSIZE_val. apply img_insert; [apply Hok|]. rewrite length_splice; rewrite ?length_le_bytes; lia.
Qed.

(** Only the values of the three tables matter. *)
#[global] Instance files_ok_proper img fb m :
  Proper (pointwise_relation Z eq ==> pointwise_relation Z eq ==> pointwise_relation Z eq ==> iff) (files_ok img fb m).
Proof.
  assert (Himp : ∀ D D' S S' C C', pointwise_relation Z eq D D' → pointwise_relation Z eq S S' → pointwise_relation Z eq C C' →
            files_ok img fb m D S C → files_ok img fb m D' S' C').
  { intros D D' S S' C C' HD HS HC [H1 H2 H3 H4 H5]. constructor; try done.
    - intros j Hj. rewrite <- HD, <- HS, <- HC. by apply H2.
    - intros j j' k k'. rewrite <- !HD, <- !HS. apply H3. }
  intros D D' HD S S' HS C C' HC. split; apply Himp; done.
Qed.

(** The shape of an inode with [n] data blocks, and the fields that iappend() keeps. *)
Definition norm n : shape := (n, 12 <? n).
Definition keeps d d' : Prop :=
  di_type d' = di_type d ∧ di_major d' = di_major d ∧ di_minor d' = di_minor d ∧ di_nlink d' = di_nlink d ∧ di_size d' = di_size d.

Definition meta_same img img' : Prop := ∀ b, b < nmeta → block_of img' b = block_of img b.

Lemma used_pos img fb m D S C i k : files_ok img fb m D S C → 1 ≤ i < m → valid (S i) k → 46 ≤ saddr img (D i) k < fb.
Proof. intros Hok Hi Hk. rewrite <- nmeta_val. by apply (nd_used _ _ _ _ _ (fo_node _ _ _ _ _ _ Hok i Hi)). Qed.

Lemma rsect_ok img fi fb x b : img !! b = Some x → rsect b (mkMkst img fi fb) = Made x (mkMkst img fi fb).
Proof. intros H. unfold rsect. simpl. by rewrite H. Qed.

Lemma insert_same {A} (f : Z → A) i a a' : pointwise_relation Z eq (<[i := a']> (<[i := a]> f)) (<[i := a']> f).
Proof. intros j. destruct (decide (j = i)) as [->|]; [by rewrite !fn_lookup_insert|by rewrite !fn_lookup_insert_ne]. Qed.

Lemma insert_id {A} (f : Z → A) i a : f i = a → pointwise_relation Z eq (<[i := a]> f) f.
Proof. intros <- j. destruct (decide (j = i)) as [->|]; [by rewrite fn_lookup_insert|by rewrite fn_lookup_insert_ne]. Qed.

(** The part of file_block() for an inode that has its indirect block. *)
Lemma entry_spec img fi fb m D S C i n fbn : let ib := nthZ (di_addrs (D i)) 12 in let o := 4 * (fbn - 12) in
  files_ok img fb m D S C → 1 ≤ i < m → S i = (n, true) → 12 ≤ fbn < 268 → fbn ≤ n → 12 ≤ n →
  fb + (Z.max n (fbn + 1) - n) ≤ FSSIZE →
  ∃ img' ind, (indirect ← rsect ib;
     (if ldw indirect o =? 0 then b ← next_block; let indirect := splice indirect o (le_bytes 4 b) in wsect ib indirect;; mret indirect
      else mret indirect)) (mkMkst img fi fb) = Made ind (mkMkst img' fi (fb + (Z.max n (fbn + 1) - n))) ∧
    ldw ind o = saddr img' (D i) fbn ∧ files_ok img' (fb + (Z.max n (fbn + 1) - n)) m D (<[i := (Z.max n (fbn + 1), true)]> S) C ∧ meta_same img img'.
Proof.
  intros ib o Hok Hi HS Hf Hfn Hn Hfit. pose proof (fo_fb _ _ _ _ _ _ Hok) as Hfb.
  assert (Hib : 46 ≤ ib < fb) by (apply (used_pos img fb m D S C i (-1)); [done..|rewrite HS; by right]).
  destruct (fo_img _ _ _ _ _ _ Hok ib) as (x & Hx & Hlx); [rewrite FSSIZE_val in *; lia|].
  assert (Hsa : saddr img (D i) fbn = ldw x o) by (unfold saddr; destruct (fbn <? 12) eqn:E; [lia|]; fold ib; by rewrite (block_some _ _ _ Hx)).
  unfold mbind, K_bind. rewrite (rsect_ok _ _ _ _ _ Hx). destruct (decide (fbn < n)) as [Hlt|Hge].
  - replace (Z.max n (fbn + 1)) with n by lia. replace (fb + (n - n)) with fb by lia.
    pose proof (used_pos img fb m D S C i fbn Hok Hi ltac:(rewrite HS; left; simpl; lia)) as Hu. rewrite Hsa in Hu.
    destruct (ldw x o =? 0) eqn:E; [lia|]. exists img, x. split_and!; try done. by rewrite insert_id.
  - assert (fbn = n) as -> by lia. replace (Z.max n (n + 1)) with (n + 1) in * by lia. replace (fb + (n + 1 - n)) with (fb + 1) in * by lia.
    pose proof (nd_words _ _ _ _ _ (fo_node _ _ _ _ _ _ Hok i Hi)) as Hw. rewrite HS in Hw. specialize (Hw eq_refl n). rewrite Hsa in Hw. simpl in Hw.
    rewrite Hw by lia. cbn -[splice le_bytes]. rewrite (u32_small (fb + 1)) by (rewrite FSSIZE_val in *; lia).
    destruct (alloc_entry img fb m D S C i n Hok Hi ltac:(lia) HS ltac:(lia)) as [Hok' Hnew]. fold ib in Hok', Hnew.
    rewrite (block_some _ _ _ Hx) in *. fold o in Hok', Hnew. eexists _, _. split; [done|]. split_and!.
    + rewrite Hnew. apply ldw_splice_eq; rewrite ?FSSIZE_val in *; unfold o; lia.
    + by rewrite (insert_id D) in Hok'.
    + intros b Hb. rewrite nmeta_val in Hb. rewrite block_insert, decide_False by lia. done.
Qed.

Lemma kbind_ok {A B} (c : K A) (f : A → K B) st a st' : c st = Made a st' → (c ≫= f) st = f a st'.
Proof. intros H. unfold mbind, K_bind. by rewrite H. Qed.

Lemma kbind_assoc {A B X} (c : K A) (f : A → K B) (g : B → K X) st : (c ≫= (λ a, f a ≫= g)) st = ((c ≫= f) ≫= g) st.
Proof. unfold mbind, K_bind. by destruct (c st). Qed.

Lemma have_addr_old d k st : nthZ (di_addrs d) k ≠ 0 → have_addr d k st = Made d st.
Proof. intros H. unfold have_addr. by destruct (_ =? _) eqn:E; [lia|]. Qed.

Lemma have_addr_new d k img fi fb : nthZ (di_addrs d) k = 0 → 0 ≤ fb < FSSIZE →
  have_addr d k (mkMkst img fi fb) = Made (set_addr d k fb) (mkMkst img fi (fb + 1)).
Proof. intros Hz Hfb. unfold have_addr. rewrite Hz. simpl. unfold mbind, K_bind, next_block. simpl. by rewrite u32_small by (rewrite FSSIZE_val in *; lia). Qed.

Lemma direct_spec img fi fb m D S C i n fbn : files_ok img fb m D S C → 1 ≤ i < m → S i = norm n → 0 ≤ fbn < 12 → fbn ≤ n →
  let n' := Z.max n (fbn + 1) in let fb' := fb + (n' - n) in fb' ≤ FSSIZE →
  ∃ d', file_block (D i) fbn (mkMkst img fi fb) = Made (d', saddr img d' fbn) (mkMkst img fi fb') ∧ keeps (D i) d' ∧
    files_ok img fb' m (<[i := d']> D) (<[i := norm n']> S) C.
Proof.
  intros Hok Hi HS Hf Hfn n' fb' Hfit. pose proof (fo_fb _ _ _ _ _ _ Hok) as Hfb. rewrite nmeta_val in Hfb.
  assert (Hsa : ∀ d, saddr img d fbn = nthZ (di_addrs d) fbn)
    by (intros d; unfold saddr; destruct (fbn <? 12) eqn:E1, (fbn =? -1) eqn:E2; lia || done).
  assert (E : fbn <? NDIRECT = true) by (unfold NDIRECT; lia). unfold file_block. rewrite E. destruct (decide (fbn < n)) as [Hlt|Hge].
  - pose proof (used_pos img fb m D S C i fbn Hok Hi ltac:(rewrite HS; left; simpl; lia)) as Hu. rewrite Hsa in Hu.
    exists (D i). rewrite (kbind_ok _ _ _ _ _ (have_addr_old (D i) fbn (mkMkst img fi fb) ltac:(lia))). rewrite Hsa.
    unfold fb', n'. replace (Z.max n (fbn + 1)) with n by lia. replace (fb + (n - n)) with fb by lia. split_and!; try done.
    by rewrite (insert_id D), (insert_id S) by done.
  - assert (fbn = n) as -> by lia. assert (Hn' : n' = n + 1) by lia. assert (Hb' : fb' = fb + 1) by lia. rewrite Hn', Hb' in *.
    exists (set_addr (D i) n fb). pose proof (fo_node _ _ _ _ _ _ Hok i Hi) as Hnode.
    pose proof (nd_free _ _ _ _ _ Hnode n) as Hz. rewrite HS in Hz. cbn [norm fst] in Hz.
    rewrite (kbind_ok _ _ _ _ _ (have_addr_new (D i) n img fi fb (Hz ltac:(lia)) ltac:(lia))). rewrite Hsa. split_and!; try done.
    pose proof (alloc_direct img fb m D S C i n (12 <? n) Hok Hi ltac:(lia) HS ltac:(lia)) as Hok'.
    unfold norm. replace (12 <? n + 1) with (12 <? n) by lia. done.
Qed.

Lemma indirect_spec img fi fb m D S C i n fbn : files_ok img fb m D S C → 1 ≤ i < m → S i = norm n → 12 ≤ fbn < 268 → fbn ≤ n →
  let n' := Z.max n (fbn + 1) in let fb' := fb + (cost (norm n') - cost (norm n)) in fb' ≤ FSSIZE →
  ∃ d' img', file_block (D i) fbn (mkMkst img fi fb) = Made (d', saddr img' d' fbn) (mkMkst img' fi fb') ∧ keeps (D i) d' ∧
    files_ok img' fb' m (<[i := d']> D) (<[i := norm n']> S) C ∧ meta_same img img'.
Proof.
  intros Hok Hi HS Hf Hfn n' fb' Hfit. pose proof (fo_fb _ _ _ _ _ _ Hok) as Hfb. rewrite nmeta_val in Hfb.
  assert (E : fbn <? NDIRECT = false) by (unfold NDIRECT; lia). unfold file_block. rewrite E. change NDIRECT with 12.
  assert (Hn'2 : norm n' = (n', true)) by (unfold norm; f_equal; lia).
  assert (Hhave : ∃ d1 fb1, have_addr (D i) 12 (mkMkst img fi fb) = Made d1 (mkMkst img fi fb1) ∧ keeps (D i) d1 ∧
            files_ok img fb1 m (<[i := d1]> D) (<[i := (n, true)]> S) C ∧ fb' = fb1 + (n' - n)).
  { unfold fb', cost. rewrite Hn'2. cbn [norm fst snd] in *. destruct (12 <? n) eqn:E12.
    - exists (D i), fb. rewrite have_addr_old.
      + split_and!; try done; [|lia]. unfold norm in HS. rewrite E12 in HS. by rewrite (insert_id D), (insert_id S).
      + pose proof (used_pos img fb m D S C i (-1) Hok Hi) as Hu. rewrite HS in Hu. unfold saddr in Hu. simpl in Hu. specialize (Hu ltac:(by right)). lia.
    - assert (n = 12) as -> by lia. exists (set_addr (D i) 12 fb), (fb + 1). change (norm 12) with (12, false) in HS. 
      rewrite have_addr_new; [split_and!; try done; [|lia]|..].
      + apply alloc_indirect; try done. unfold fb', cost in Hfit. rewrite Hn'2 in Hfit. simpl in Hfit. lia.
      + pose proof (nd_ind _ _ _ _ _ (fo_node _ _ _ _ _ _ Hok i Hi)) as Hind. rewrite HS in Hind. by apply Hind.
      + unfold fb', cost in Hfit. rewrite Hn'2 in Hfit. simpl in Hfit. lia. }
  destruct Hhave as (d1 & fb1 & Hrun & Hk & Hok1 & Hfb1). rewrite (kbind_ok _ _ _ _ _ Hrun). cbv zeta. rewrite kbind_assoc.
  destruct (entry_spec img fi fb1 m (<[i := d1]> D) (<[i := (n, true)]> S) C i n fbn Hok1 Hi) as (img' & ind & Hr & Hv & Hok' & Hm);
    [by rewrite fn_lookup_insert|done|done|lia|lia|].
  rewrite fn_lookup_insert in *. rewrite (kbind_ok _ _ _ _ _ Hr), Hv. exists d1, img'. fold n' in Hok' |- *. rewrite <- Hfb1 in *.
  split_and!; try done. rewrite insert_same in Hok'. by rewrite Hn'2.
Qed.

Lemma file_block_spec img fi fb m D S C i n fbn : files_ok img fb m D S C → 1 ≤ i < m → S i = norm n → 0 ≤ fbn < 268 → fbn ≤ n →
  let n' := Z.max n (fbn + 1) in let fb' := fb + (cost (norm n') - cost (norm n)) in fb' ≤ FSSIZE →
  ∃ d' img', file_block (D i) fbn (mkMkst img fi fb) = Made (d', saddr img' d' fbn) (mkMkst img' fi fb') ∧ keeps (D i) d' ∧
    files_ok img' fb' m (<[i := d']> D) (<[i := norm n']> S) C ∧ meta_same img img'.
Proof.
  intros Hok Hi HS Hf Hfn n' fb' Hfit. destruct (decide (fbn < 12)) as [Hlt|Hge]; [|by apply indirect_spec; [..|lia|done|done]].
  assert (Hb' : fb' = fb + (n' - n)) by (unfold fb', cost, norm; simpl; destruct (12 <? n') eqn:E1, (12 <? n) eqn:E2; lia).
  rewrite Hb' in *. destruct (direct_spec img fi fb m D S C i n fbn) as (d' & H1 & H2 & H3); try done; [lia|]. by exists d', img.
Qed.

Lemma write_node img img' fb d s bs q fbn : node img fb d s bs → 0 ≤ fbn < s.1 →
  let len := Z.of_nat (length bs) in let x := saddr img d fbn in
  fbn * 1024 ≤ len → len + Z.of_nat (length q) ≤ (fbn + 1) * 1024 → length (block_of img x) = 1024%nat →
  (∀ k, valid s k → k ≠ fbn → block_of img' (saddr img d k) = block_of img (saddr img d k)) →
  block_of img' x = splice (block_of img x) (len - fbn * 1024) q →
  (s.2 = true → ∀ k, saddr img' d k = saddr img d k) → (∀ k, valid s k → saddr img' d k = saddr img d k) → node img' fb d s (bs ++ q).
Proof.
  intros [H1 H2 H3 H4 H5 H6 H7 H8 H9] Hf len x Hlo Hhi Hlx Hoth Hx Hind Hsa. constructor; try done.
  - intros k Hk. rewrite Hsa by done. by apply H4.
  - intros Hh k. rewrite Hind by done. by apply H7.
  - rewrite length_app. lia.
  - intros o Ho. assert (Hv : valid s (o / 1024)) by (left; Z.div_mod_to_equations; lia). rewrite Hsa by done.
    assert (Ho1024 : o = 1024 * (o / 1024) + o mod 1024 ∧ 0 ≤ o mod 1024 < 1024) by (Z.div_mod_to_equations; lia).
    specialize (H9 o Ho) as Ho9. rewrite nthZ_app by lia. fold len. destruct (decide (o / 1024 = fbn)) as [E|E].
    + rewrite E in *. fold x in Ho9 |- *. rewrite Hx, nthZ_splice by lia. destruct (decide (o < len)) as [Hlt|Hge].
      * rewrite decide_False by lia. done.
      * case_decide; [f_equal; lia|]. rewrite Ho9, !nthZ_end by lia. done.
    + rewrite Hoth by done. rewrite Ho9. destruct (decide (o < len)) as [Hlt|Hge]; [done|].
      rewrite !nthZ_end; [done|..]; Z.div_mod_to_equations; lia.
Qed.

(** Writing the bytes [q] behind the contents, in the block where they end. *)
Lemma write_data img fb m D S C i fbn q : files_ok img fb m D S C → 1 ≤ i < m → 0 ≤ fbn < (S i).1 →
  let len := Z.of_nat (length (C i)) in let x := saddr img (D i) fbn in
  fbn * 1024 ≤ len → len + Z.of_nat (length q) ≤ (fbn + 1) * 1024 →
  files_ok (<[x := splice (block_of img x) (len - fbn * 1024) q]> img) fb m D S (<[i := C i ++ q]> C).
Proof.
  intros Hok Hi Hf len x Hlo Hhi. set (img' := <[x := _]> img).
  assert (Hx : 46 ≤ x < fb) by (apply (used_pos img fb m D S C i fbn Hok Hi); by left). pose proof (fo_fb _ _ _ _ _ _ Hok) as Hfb.
  assert (Hlx : length (block_of img x) = 1024%nat) by (eapply block_length; [done|lia]).
  assert (Hoth : ∀ b, b ≠ x → block_of img' b = block_of img b) by (intros b Hb; unfold img'; by rewrite block_insert, decide_False).
  assert (Hap : ∀ j k, 1 ≤ j < m → valid (S j) k → j ≠ i ∨ k ≠ fbn → saddr img (D j) k ≠ x).
  { intros j k Hj Hk Hne Heq. destruct (fo_inj _ _ _ _ _ _ Hok j i k fbn Hj Hi Hk ltac:(by left) Heq). naive_solver. }
  pose proof (fo_node _ _ _ _ _ _ Hok i Hi) as Hnode.
  assert (Hind : (S i).2 = true → ∀ k, saddr img' (D i) k = saddr img (D i) k).
  { intros Hh k. unfold saddr. destruct (k <? 12); [done|]. rewrite Hoth; [done|].
    apply (Hap i (-1)); [done|by right|right; lia]. }
  assert (Hsa : ∀ j k, 1 ≤ j < m → valid (S j) k → saddr img' (D j) k = saddr img (D j) k).
  { intros j k Hj Hk. destruct (decide (j = i)) as [->|Hne].
    - destruct ((S i).2) eqn:E; [by apply Hind|]. pose proof (nd_small _ _ _ _ _ Hnode E). destruct Hk as [Hk|[_ Hk]]; [|congruence].
      unfold saddr. destruct (k <? 12) eqn:E'; [done|lia].
    - apply (saddr_frame img img' fb (D j) (S j) (C j)); [by apply Hok| |done]. intros k' Hk'. apply Hoth, Hap; [done|done|by left]. }
  constructor.
  - rewrite FSSIZE_val in *. apply img_insert; [apply Hok|]. rewrite length_splice; lia.
  - intros j Hj. destruct (decide (j = i)) as [->|Hne]; [rewrite fn_lookup_insert|rewrite fn_lookup_insert_ne by done].
    + apply (write_node img img' fb (D i) (S i) (C i) q fbn); try done; [intros k Hk Hne; apply Hoth, Hap; [done|done|by right]| |by intros k Hk; apply Hsa].
      unfold img'. by rewrite block_insert, decide_True.
    + eapply node_frame; [by apply Hok|lia|]. intros k Hk. apply Hoth, Hap; [done|done|by left].
  - intros j j' k k' Hj Hj' Hk Hk'. rewrite !Hsa by done. by apply Hok.
  - intros b Hb. rewrite Hoth by lia. by apply Hok.
  - done.
Qed.

(** ** iappend() *)

(** The number of data blocks, and of all blocks, of a file of [len] bytes. *)
Definition parts (len : Z) : Z := (len + 1023) / 1024.
Definition blocks (len : Z) : Z := cost (norm (parts len)).
Definition len_of bs : Z := Z.of_nat (length bs).

Lemma blocks_mono a b : 0 ≤ a ≤ b → blocks a ≤ blocks b.
Proof.
  intros Hab. assert (Hp : parts a ≤ parts b) by (unfold parts; apply Z.div_le_mono; lia).
  unfold blocks, cost, norm. simpl. destruct (12 <? parts a) eqn:E1, (12 <? parts b) eqn:E2; lia.
Qed.

Lemma round_spec img fi fb m D S C i p : files_ok img fb m D S C → 1 ≤ i < m → p ≠ [] →
  let len := len_of (C i) in S i = norm (parts len) → len < 268 * 1024 →
  let q := take (Z.to_nat (Z.min (len_of p) ((len / 1024 + 1) * 1024 - len))) p in let len' := len + len_of q in
  let fb' := fb + (blocks len' - blocks len) in fb' ≤ FSSIZE →
  ∃ d' img', iappend_round (D i) len p (mkMkst img fi fb) = Made (d', len', drop (length q) p) (mkMkst img' fi fb') ∧ keeps (D i) d' ∧
    files_ok img' fb' m (<[i := d']> D) (<[i := norm (parts len')]> S) (<[i := C i ++ q]> C) ∧ meta_same img img' ∧
    0 < len_of q ≤ len_of p.
Proof.
  intros Hok Hi Hp len HS Hlen. set (n1 := Z.min _ _). set (fbn := len / 1024) in *. intros q len' fb' Hfit.
  assert (Hp0 : 0 < len_of p) by (destruct p; [done|unfold len_of; simpl; lia]).
  assert (Hlen0 : 0 ≤ len) by (unfold len, len_of; lia). assert (Hfbn : len = 1024 * fbn + len mod 1024 ∧ 0 ≤ len mod 1024 < 1024) by (unfold fbn; Z.div_mod_to_equations; lia).
  assert (Hq : len_of q = n1) by (unfold q, len_of in *; rewrite length_take; lia).
  assert (Hpl : fbn ≤ parts len ≤ fbn + 1) by (unfold parts; Z.div_mod_to_equations; lia).
  assert (Hpl' : parts len' = Z.max (parts len) (fbn + 1)) by (unfold parts at 1, len'; rewrite Hq; unfold n1; Z.div_mod_to_equations; lia).
  assert (Hb' : fb' = fb + (cost (norm (Z.max (parts len) (fbn + 1))) - cost (norm (parts len)))) by (unfold fb', blocks; by rewrite Hpl').
  destruct (file_block_spec img fi fb m D S C i (parts len) fbn Hok Hi HS) as (d' & img1 & Hrun & Hk & Hok1 & Hm1); [lia|lia|by rewrite <- Hb'|].
  rewrite <- Hb', <- Hpl' in *. unfold iappend_round. change BSIZE with 1024. fold fbn. change MAXFILE with 268.
  assert (E : fbn <? 268 = true) by lia. rewrite E. simpl assert_. rewrite (kbind_ok (mret tt) _ _ tt (mkMkst img fi fb)) by done.
  rewrite (kbind_ok _ _ _ _ _ Hrun). cbv beta iota zeta. change (Z.of_nat (length p)) with (len_of p). fold n1. fold q.
  set (x := saddr img1 d' fbn) in *.
  assert (Hx : 46 ≤ x < fb').
  { pose proof (used_pos img1 fb' m _ _ C i fbn Hok1 Hi) as Hu. rewrite !fn_lookup_insert in Hu. apply Hu. left. simpl. lia. }
  destruct (fo_img _ _ _ _ _ _ Hok1 x) as (bx & Hbx & _); [rewrite FSSIZE_val in *; lia|].
  rewrite (kbind_ok _ _ _ _ _ (rsect_ok _ _ _ _ _ Hbx)). 
  pose proof (write_data img1 fb' m _ _ C i fbn q Hok1 Hi) as Hw. rewrite !fn_lookup_insert in Hw. cbn [norm fst] in Hw.
  fold (len_of (C i)) in Hw. fold len in Hw. fold x in Hw. rewrite (block_some _ _ _ Hbx) in Hw. fold (len_of q) in Hw.
  eexists d', _. split; [|split_and!; [done|apply Hw; [lia|lia|rewrite Hq; unfold n1; lia]| |lia|lia]].
  - unfold mbind, K_bind, wsect. simpl. unfold mret, K_ret. do 2 f_equal; [|f_equal; unfold len_of in Hq; lia].
    f_equal. unfold len'. rewrite Hq, u32_small; [done|]. unfold n1. lia.
  - intros b Hb. rewrite nmeta_val in Hb. rewrite block_insert, decide_False by lia. apply Hm1. by rewrite nmeta_val.
Qed.

Lemma keeps_trans d1 d2 d3 : keeps d1 d2 → keeps d2 d3 → keeps d1 d3.
Proof. unfold keeps. intuition congruence. Qed.

Lemma loop_spec fuel : ∀ img fi fb m D S C i p, files_ok img fb m D S C → 1 ≤ i < m → (length p ≤ fuel)%nat →
  let len := len_of (C i) in S i = norm (parts len) → len + len_of p ≤ 268 * 1024 →
  let fb' := fb + (blocks (len + len_of p) - blocks len) in fb' ≤ FSSIZE →
  ∃ d' img', iappend_loop fuel (D i) len p (mkMkst img fi fb) = Made (d', len + len_of p) (mkMkst img' fi fb') ∧ keeps (D i) d' ∧
    files_ok img' fb' m (<[i := d']> D) (<[i := norm (parts (len + len_of p))]> S) (<[i := C i ++ p]> C) ∧ meta_same img img'.
Proof.
  induction fuel as [|fuel IH]; intros img fi fb m D S C i p Hok Hi Hfuel len HS Hmax fb' Hfit.
  all: destruct (decide (p = [])) as [->|Hp];
    [subst fb'; change (len_of []) with 0 in *; rewrite Z.add_0_r, Z.sub_diag, Z.add_0_r in *; exists (D i), img; split_and!; try done;
       by rewrite (insert_id D), (insert_id S), app_nil_r, (insert_id C)|].
  { destruct p; [done|simpl in Hfuel; lia]. }
  assert (Hp0 : 0 < len_of p) by (destruct p; [done|unfold len_of; simpl; lia]).
  set (q := take (Z.to_nat (Z.min (len_of p) ((len / 1024 + 1) * 1024 - len))) p).
  assert (Hlen0 : 0 ≤ len) by (unfold len, len_of; lia). assert (Hqp : len_of q ≤ len_of p) by (unfold q, len_of; rewrite length_take; lia).
  assert (Hmono : blocks (len + len_of q) ≤ blocks (len + len_of p)) by (apply blocks_mono; unfold len_of in *; lia).
  destruct (round_spec img fi fb m D S C i p Hok Hi Hp HS) as (d1 & img1 & Hrun & Hk1 & Hok1 & Hm1 & Hq0); [fold len; lia|fold len q; lia|].
  fold len q in Hrun, Hok1, Hq0.
  assert (HA : len_of (C i ++ q) = len + len_of q) by (unfold len, len_of; rewrite length_app; lia).
  assert (HB : len + len_of q + len_of (drop (length q) p) = len + len_of p) by (unfold len_of in *; rewrite length_drop; lia).
  assert (Hcat : (C i ++ q) ++ drop (length q) p = C i ++ p).
  { rewrite <- app_assoc. f_equal. etrans; [|apply (take_drop (length q) p)]. f_equal. unfold q. rewrite length_take.
    f_equal. unfold len_of. lia. }
  destruct (IH img1 fi (fb + (blocks (len + len_of q) - blocks len)) m (<[i := d1]> D) (<[i := norm (parts (len + len_of q))]> S)
    (<[i := C i ++ q]> C) i (drop (length q) p) Hok1 Hi) as (d2 & img2 & Hrun2 & Hk2 & Hok2 & Hm2); rewrite ?fn_lookup_insert, ?HA, ?HB; try done.
  { rewrite length_drop. unfold len_of in *. lia. }
  { unfold fb' in Hfit. lia. }
  rewrite !fn_lookup_insert, HA, HB in *. replace (_ + (blocks (len + len_of p) - _)) with fb' in * by (unfold fb'; lia).
  exists d2, img2. split_and!.
  - destruct p as [|c p]; [done|]. cbn [iappend_loop]. rewrite (kbind_ok _ _ _ _ _ Hrun). exact Hrun2.
  - by eapply keeps_trans.
  - rewrite !insert_same, Hcat in Hok2. exact Hok2.
  - intros b Hb. rewrite Hm2, Hm1 by done. done.
Qed.
