(* ===== verification/MkfsRun.v ===== *)
(** * Runs of mkfs: the inode table and the whole image *)

From Stdlib Require Import ZArith Lia.
From stdpp Require Import base numbers functions gmap strings countable tactics list.
From S2P Require Import Prelude Machine State CString Spinlock Kalloc Vm Sched Sleeplock Bio BioCache Log LogTheory Fs FsTheory Mkfs MkfsTheory.

Implicit Types (img : gmap Z (list Z)) (d : dinode) (n fb : Z) (bs : list Z).

Definition sizes (C : Z → list Z) : Z → Z * bool := λ j, norm (parts (len_of (C j))).
Definition type_of (j : Z) : Z := if j =? ROOTINO then T_DIR else T_FILE.
Definition free_dinode : dinode := mkDinode 0 0 0 0 0 (replicate 13 0).

(** The inode table on the disk: 13 blocks of 16 inodes. *)
Definition table img (D : Z → dinode) : Prop := ∀ j, 0 ≤ j < 208 → get_dinode (block_of img (IBLOCK j mksb)) j = D j.

Definition boot_block (b : Z) : list Z := if b =? 1 then splice zero_block 0 (encode_sb mksb) else zero_block.

(** The image while files are added: inodes 1 to [m] - 1 are in use, with the contents [C]. *)
Record image_ok img fb (m : Z) (D : Z → dinode) (C : Z → list Z) : Prop := {
  io_files : files_ok img fb m D (sizes C) C;
  io_m : 1 ≤ m ≤ NINODES;
  io_table : table img D;
  io_live : ∀ j, 1 ≤ j < m → D j = mkDinode (type_of j) 0 0 1 (len_of (C j)) (di_addrs (D j));
  io_free : ∀ j, 0 ≤ j < 208 → ¬ 1 ≤ j < m → D j = free_dinode;
  io_boot : ∀ b, 0 ≤ b < 32 → block_of img b = boot_block b;
}.

Lemma iblock j : 0 ≤ j < 208 → IBLOCK j mksb = j / 16 + 32 ∧ 32 ≤ IBLOCK j mksb < 45.
Proof. intros Hj. unfold IBLOCK. change IPB with 16. change (sb_inodestart mksb) with 32. Z.div_mod_to_equations; lia. Qed.

(** Blocks of the metadata may change, and fields of inodes other than addresses. *)
Lemma files_meta img fb m D D' S C b x : files_ok img fb m D S C → 0 ≤ b < nmeta → length x = 1024%nat →
  (∀ j, di_addrs (D' j) = di_addrs (D j)) → files_ok (<[b := x]> img) fb m D' S C.
Proof.
  intros Hok Hb Hx HD. pose proof (fo_fb _ _ _ _ _ _ Hok) as Hfb.
  assert (Hoth : ∀ c, nmeta ≤ c → block_of (<[b := x]> img) c = block_of img c) by (intros c Hc; rewrite block_insert, decide_False by lia; done).
  assert (Hnode : ∀ j, 1 ≤ j < m → node (<[b := x]> img) fb (D j) (S j) (C j)).
  { intros j Hj. eapply node_frame; [by apply Hok|lia|]. intros k Hk. apply Hoth.
    apply (nd_used _ _ _ _ _ (fo_node _ _ _ _ _ _ Hok j Hj) k Hk). }
  assert (Hsa : ∀ img j k, saddr img (D' j) k = saddr img (D j) k) by (intros; unfold saddr; by rewrite HD).
  constructor.
  - apply img_insert; [apply Hok|done].
  - intros j Hj. specialize (Hnode j Hj) as [H1 H2 H3 H4 H5 H6 H7 H8 H9]. constructor; rewrite ?HD; try done.
    + intros k. rewrite Hsa. apply H4.
    + intros Hh k. rewrite Hsa. by apply H7.
    + intros o Ho. rewrite Hsa. by apply H9.
  - intros j j' k k' Hj Hj' Hk Hk'. rewrite !Hsa.
    assert (Hfr : ∀ j k, 1 ≤ j < m → valid (S j) k → saddr (<[b := x]> img) (D j) k = saddr img (D j) k).
    { intros j0 k0 Hj0 Hk0. apply (saddr_frame img _ fb (D j0) (S j0) (C j0)); [by apply Hok| |done]. intros k1 Hk1. apply Hoth.
      apply (nd_used _ _ _ _ _ (fo_node _ _ _ _ _ _ Hok j0 Hj0) k1 Hk1). }
    rewrite !Hfr by done. by apply Hok.
  - intros c Hc. rewrite Hoth by lia. by apply Hok.
  - done.
Qed.

(** winode() *)
Lemma winode_spec img fi fb m D D0 S C i d : files_ok img fb m D S C → table img D0 → 0 ≤ i < 208 → dinode_ok d →
  di_addrs d = di_addrs (D i) →
  ∃ img', winode i d (mkMkst img fi fb) = Made tt (mkMkst img' fi fb) ∧ files_ok img' fb m (<[i := d]> D) S C ∧
    table img' (<[i := d]> D0) ∧ ∀ b, ¬ 32 ≤ b < 45 → block_of img' b = block_of img b.
Proof.
  intros Hok Ht Hi Hd Ha. destruct (iblock i Hi) as [Hbi Hb]. set (bn := IBLOCK i mksb) in *.
  destruct (fo_img _ _ _ _ _ _ Hok bn) as (x & Hx & Hlx); [rewrite FSSIZE_val; lia|].
  exists (<[bn := put_dinode x i d]> img). unfold winode. fold bn. rewrite (kbind_ok _ _ _ _ _ (rsect_ok _ _ _ _ _ Hx)).
  pose proof (do_len _ Hd) as Hl13. split_and!; [done| | |].
  - apply (files_meta img fb m D); [done|rewrite nmeta_val; lia|by rewrite length_put_dinode|].
    intros j. destruct (decide (j = i)) as [->|Hne]; [by rewrite fn_lookup_insert|by rewrite fn_lookup_insert_ne].
  - intros j Hj. destruct (iblock j Hj) as [Hbj _]. rewrite block_insert. destruct (decide (j = i)) as [->|Hne].
    + fold bn. rewrite decide_True, fn_lookup_insert by done. apply get_put_dinode; [done|done|lia].
    + rewrite fn_lookup_insert_ne by done. specialize (Ht j Hj). case_decide as E; [|done]. rewrite E, (block_some _ _ _ Hx) in Ht.
      rewrite get_put_dinode_ne; [done|done|done|lia|lia|]. change IPB with 16. intros Hmod. apply Hne. Z.div_mod_to_equations; lia.
  - intros b Hnb. rewrite block_insert, decide_False by lia. done.
Qed.

Lemma node_ok img fb d s bs ty n : node img fb d s bs → fb ≤ FSSIZE → 0 ≤ ty ≤ 2 → 0 ≤ n < 2 ^ 32 →
  dinode_ok (mkDinode ty 0 0 1 n (di_addrs d)).
Proof.
  intros [H1 H2 H3 H4 H5 H6 _ _ _] Hfb Hty Hn. rewrite FSSIZE_val in Hfb. rewrite nmeta_val in H4. constructor; simpl; try lia; try done.
  intros a (k & Hk)%list_elem_of_lookup. assert (Hk13 : (k < 13)%nat) by (apply lookup_lt_Some in Hk; lia).
  assert (Ha : nthZ (di_addrs d) (Z.of_nat k) = a) by (unfold nthZ; by rewrite Nat2Z.id, nth_lookup, Hk).
  destruct (decide (k = 12)%nat) as [->|Hne].
  - change (Z.of_nat 12) with 12 in Ha. destruct s.2 eqn:E; [|rewrite H6 in Ha by done; lia]. specialize (H4 (-1) ltac:(by right)). unfold saddr in H4. simpl in *. lia.
  - destruct (decide (Z.of_nat k < s.1)) as [Hlt|Hge]; [|rewrite H5 in Ha by lia; lia].
    specialize (H4 (Z.of_nat k) ltac:(left; lia)). unfold saddr in H4. destruct (_ <? 12) eqn:E1; [|lia].
    destruct (_ =? -1) eqn:E2; lia.
Qed.

(** ** Appending *)
Lemma sizes_insert C i bs : pointwise_relation Z eq (<[i := norm (parts (len_of bs))]> (sizes C)) (sizes (<[i := bs]> C)).
Proof. intros j. unfold sizes. destruct (decide (j = i)) as [->|]; [by rewrite !fn_lookup_insert|by rewrite !fn_lookup_insert_ne]. Qed.

Lemma len_app bs p : len_of (bs ++ p) = len_of bs + len_of p.
Proof. unfold len_of. rewrite length_app. lia. Qed.

Lemma rinode_spec img fi fb m D C i : image_ok img fb m D C → 0 ≤ i < 208 →
  rinode i (mkMkst img fi fb) = Made (D i) (mkMkst img fi fb).
Proof.
  intros [Hok _ Ht _ _ _] Hi. destruct (iblock i Hi) as [_ Hb].
  destruct (fo_img _ _ _ _ _ _ Hok (IBLOCK i mksb)) as (x & Hx & _); [rewrite FSSIZE_val; lia|].
  unfold rinode. rewrite (kbind_ok _ _ _ _ _ (rsect_ok _ _ _ _ _ Hx)). specialize (Ht i Hi). rewrite (block_some _ _ _ Hx) in Ht. by rewrite Ht.
Qed.

Lemma type_range j : 0 ≤ type_of j ≤ 2.
Proof. unfold type_of, T_DIR, T_FILE. destruct (_ =? _); lia. Qed.

Lemma iappend_spec img fi fb m D C i p : image_ok img fb m D C → 1 ≤ i < m → 
  let len' := len_of (C i) + len_of p in let fb' := fb + (blocks len' - blocks (len_of (C i))) in
  len' ≤ 268 * 1024 → fb' ≤ FSSIZE →
  ∃ img' D', iappend i p (mkMkst img fi fb) = Made tt (mkMkst img' fi fb') ∧ image_ok img' fb' m D' (<[i := C i ++ p]> C).
Proof.
  intros Hio Hi len' fb' Hmax Hfit. pose proof Hio as [Hok Hm Ht Hlive Hfree Hboot]. change NINODES with 200 in Hm.
  unfold iappend. rewrite (kbind_ok _ _ _ _ _ (rinode_spec img fi fb m D C i Hio ltac:(lia))).
  assert (Hsz : di_size (D i) = len_of (C i)) by (rewrite (Hlive i Hi); done). rewrite Hsz.
  destruct (loop_spec (length p) img fi fb m D (sizes C) C i p Hok Hi) as (d' & img1 & Hrun & Hk & Hok1 & Hm1); [done..|].
  rewrite (kbind_ok _ _ _ _ _ Hrun). fold len' fb' in Hok1 |- *. assert (Hl' : len_of (C i ++ p) = len') by apply len_app. rewrite <- Hl' in Hok1.
  rewrite sizes_insert in Hok1. assert (Hset : set_size d' len' = mkDinode (type_of i) 0 0 1 len' (di_addrs d')).
  { destruct Hk as (H1 & H2 & H3 & H4 & _). rewrite (Hlive i Hi) in H1, H2, H3, H4. simpl in *. unfold set_size. congruence. }
  pose proof (fo_node _ _ _ _ _ _ Hok1 i Hi) as Hnode. rewrite fn_lookup_insert in Hnode.
  assert (Ht1 : table img1 D) by (intros j Hj; destruct (iblock j Hj) as [_ Hb]; rewrite Hm1 by (rewrite nmeta_val; lia); by apply Ht).
  destruct (winode_spec img1 fi fb' m (<[i := d']> D) D (sizes (<[i := C i ++ p]> C)) (<[i := C i ++ p]> C) i (set_size d' len')) as (img2 & Hrun2 & Hok2 & Ht2 & Hb2);
    [done|done|lia| |by rewrite fn_lookup_insert|].
  { rewrite Hset. eapply node_ok; [done|done|apply type_range|]. unfold len', len_of in *. lia. }
  exists img2, (<[i := set_size d' len']> D). split; [exact Hrun2|]. constructor; try done.
  - by rewrite insert_same in Hok2.
  - intros j Hj. destruct (decide (j = i)) as [->|Hne]; [rewrite !fn_lookup_insert|rewrite !fn_lookup_insert_ne by done; by apply Hlive].
    rewrite Hset. by rewrite Hl'.
  - intros j Hj Hnj. rewrite fn_lookup_insert_ne by lia. by apply Hfree.
  - intros b Hb. rewrite Hb2, Hm1 by (rewrite ?nmeta_val; lia). by apply Hboot.
Qed.

(** ** ialloc() *)
Lemma node_empty img fb d : di_addrs d = replicate 13 0 → node img fb d (norm (parts 0)) [].
Proof.
  intros Ha. change (norm (parts 0)) with (0, false). assert (H0 : ∀ k, nthZ (di_addrs d) k = 0).
  { intros k. rewrite Ha. unfold nthZ. rewrite nth_lookup. destruct (_ !! _) as [x|] eqn:E; [|done]. by apply lookup_replicate in E as [-> _]. }
  constructor; simpl; try done; try lia.
  - by rewrite Ha.
  - intros k [Hk|[_ Hk]]; simpl in *; [lia|done].
Qed.

Lemma files_new img fb m D C d : files_ok img fb m D (sizes C) C → 1 ≤ m → di_addrs d = replicate 13 0 →
  files_ok img fb (m + 1) (<[m := d]> D) (sizes (<[m := []]> C)) (<[m := []]> C).
Proof.
  intros [H1 H2 H3 H4 H5] Hm Ha. assert (Hoff : ∀ k, ¬ valid (sizes (<[m := []]> C) m) k).
  { intros k Hk. unfold sizes in Hk. rewrite fn_lookup_insert in Hk. change (norm (parts (len_of []))) with (0, false) in Hk. destruct Hk as [Hk|[_ Hk]]; simpl in Hk; [lia|done]. }
  assert (Hs : ∀ j, j ≠ m → sizes (<[m := []]> C) j = sizes C j) by (intros j Hj; unfold sizes; by rewrite fn_lookup_insert_ne).
  constructor; try done.
  - intros j Hj. destruct (decide (j = m)) as [->|Hne].
    + unfold sizes. rewrite !fn_lookup_insert. by apply node_empty.
    + rewrite !fn_lookup_insert_ne, Hs by done. apply H2. lia.
  - intros j j' k k' Hj Hj' Hk Hk'. destruct (decide (j = m)) as [->|Hne]; [by apply Hoff in Hk|].
    destruct (decide (j' = m)) as [->|Hne']; [by apply Hoff in Hk'|].
    rewrite !fn_lookup_insert_ne by done. rewrite Hs in Hk, Hk' by done. apply H3; [lia|lia|done|done].
Qed.

Lemma ialloc_spec img fb m D C : image_ok img fb m D C → m < NINODES →
  ∃ img' D', ialloc (type_of m) (mkMkst img m fb) = Made m (mkMkst img' (m + 1) fb) ∧ image_ok img' fb (m + 1) D' (<[m := []]> C).
Proof.
  intros [Hok Hm Ht Hlive Hfree Hboot] Hlt. change NINODES with 200 in *. set (d := mkDinode (type_of m) 0 0 1 0 (replicate 13 0)).
  unfold ialloc. rewrite (kbind_ok next_inode _ _ m (mkMkst img (m + 1) fb)) by (unfold next_inode; simpl; by rewrite u32_small by lia).
  pose proof (files_new img fb m D C d Hok ltac:(lia) eq_refl) as Hok1.
  destruct (winode_spec img (m + 1) fb (m + 1) _ D _ _ m d Hok1 Ht) as (img' & Hrun & Hok' & Ht' & Hb'); [lia| |by rewrite fn_lookup_insert|].
  { apply (node_ok img fb d (norm (parts 0)) []); [by apply node_empty|apply Hok|apply type_range|lia]. }
  rewrite (kbind_ok _ _ _ _ _ Hrun). exists img', (<[m := d]> D). split; [done|]. constructor; try done.
  - by rewrite insert_same in Hok'.
  - change NINODES with 200. lia.
  - intros j Hj. destruct (decide (j = m)) as [->|Hne]; [by rewrite !fn_lookup_insert|]. rewrite !fn_lookup_insert_ne by done. apply Hlive. lia.
  - intros j Hj Hnj. rewrite fn_lookup_insert_ne by lia. apply Hfree; [done|lia].
  - intros b Hb. rewrite Hb' by lia. by apply Hboot.
Qed.

(** ** Adding files *)
Lemma image_ext img fb m D C C' : (∀ j, C j = C' j) → image_ok img fb m D C → image_ok img fb m D C'.
Proof.
  intros HC [Hok Hm Ht Hl Hf Hb]. constructor; try done.
  - assert (HS : pointwise_relation Z eq (sizes C) (sizes C')) by (intros j; unfold sizes; by rewrite HC).
    assert (HC' : pointwise_relation Z eq C C') by (intros j; apply HC). by rewrite HS, HC' in Hok.
  - intros j Hj. rewrite <- HC. by apply Hl.
Qed.

Lemma pieces_spec pieces : ∀ img fi fb m D C i, image_ok img fb m D C → 1 ≤ i < m →
  let len' := len_of (C i) + len_of (concat pieces) in let fb' := fb + (blocks len' - blocks (len_of (C i))) in
  len' ≤ 268 * 1024 → fb' ≤ FSSIZE →
  ∃ img' D', each (iappend i) pieces (mkMkst img fi fb) = Made tt (mkMkst img' fi fb') ∧ image_ok img' fb' m D' (<[i := C i ++ concat pieces]> C).
Proof.
  induction pieces as [|p pieces IH]; intros img fi fb m D C i Hio Hi len' fb' Hmax Hfit.
  - exists img, D. subst fb' len'. change (concat []) with (@nil Z). change (len_of []) with 0. rewrite Z.add_0_r, Z.sub_diag, Z.add_0_r.
    split; [done|]. eapply image_ext; [|exact Hio]. intros j. rewrite app_nil_r. destruct (decide (j = i)) as [->|]; [by rewrite fn_lookup_insert|by rewrite fn_lookup_insert_ne].
  - subst fb' len'. cbn [concat] in *. rewrite len_app in *. cbn [each].
    assert (Hmono : blocks (len_of (C i) + len_of p) ≤ blocks (len_of (C i) + (len_of p + len_of (concat pieces)))) by (apply blocks_mono; unfold len_of; lia).
    destruct (iappend_spec img fi fb m D C i p Hio Hi) as (img1 & D1 & Hrun & Hio1); [unfold len_of in *; lia|lia|].
    rewrite (kbind_ok _ _ _ _ _ Hrun).
    assert (Has : len_of (C i) + len_of p + len_of (concat pieces) = len_of (C i) + (len_of p + len_of (concat pieces))) by lia.
    destruct (IH img1 fi (fb + (blocks (len_of (C i) + len_of p) - blocks (len_of (C i)))) m D1 _ i Hio1 Hi) as (img2 & D2 & Hrun2 & Hio2);
      rewrite ?fn_lookup_insert, ?len_app, ?Has in *; [lia|lia|].
    replace (_ + (blocks (len_of (C i) + (len_of p + _)) - _)) with (fb + (blocks (len_of (C i) + (len_of p + len_of (concat pieces))) - blocks (len_of (C i)))) in Hrun2, Hio2 by lia.
    exists img2, D2. split; [exact Hrun2|].
    eapply image_ext; [|exact Hio2]. intros j. rewrite <- app_assoc. apply insert_same.
Qed.

Definition short_name (f : source) : list Z := strip_underscore (strip_user f.1).
Definition content (f : source) : list Z := concat (default [] f.2).

(** A file that mkfs takes: a name without slash, a source that opens, not too large. *)
Record good (f : source) : Prop := {
  g_name : forallb (λ c, negb (c =? 47)) (strip_user f.1) = true;
  g_open : is_Some f.2;
  g_size : len_of (content f) ≤ MAXFILE * BSIZE;
}.

Lemma dirent_len i name : len_of (dirent i name) = 16.
Proof.
  unfold len_of, dirent, mk_dirent, pad_name. rewrite length_app, length_le_bytes, length_take, length_app, length_replicate.
  change (Z.to_nat DIRSIZ) with 14%nat. lia.
Qed.

Lemma add_file_spec img fb m D C f : image_ok img fb m D C → 2 ≤ m < NINODES → good f →
  let r := len_of (C 1) in let fb' := fb + (blocks (r + 16) - blocks r) + blocks (len_of (content f)) in r + 16 ≤ 268 * 1024 → fb' ≤ FSSIZE →
  ∃ img' D', add_file f (mkMkst img m fb) = Made tt (mkMkst img' (m + 1) fb') ∧
    image_ok img' fb' (m + 1) D' (<[m := content f]> (<[1 := C 1 ++ dirent m (short_name f)]> (<[m := []]> C))).
Proof.
  intros Hio Hm [Hname [pieces Hop] Hsize] r fb' Hr Hfit. subst fb' r. change (MAXFILE * BSIZE) with (268 * 1024) in Hsize. 
  assert (Hc : content f = concat pieces) by (unfold content; by rewrite Hop). rewrite Hc in *.
  assert (Hb0 : 0 ≤ blocks (len_of (concat pieces))) by (rewrite <- (eq_refl : blocks 0 = 0); apply blocks_mono; unfold len_of; lia).
  unfold add_file. rewrite Hname, Hop. rewrite (kbind_ok (assert_ true) _ _ tt (mkMkst img m fb)) by done.
  assert (Hty : type_of m = T_FILE) by (unfold type_of, ROOTINO; destruct (m =? 1) eqn:E; [lia|done]).
  destruct (ialloc_spec img fb m D C Hio ltac:(lia)) as (img1 & D1 & Hrun1 & Hio1). rewrite Hty in Hrun1. rewrite (kbind_ok _ _ _ _ _ Hrun1).
  change ROOTINO with 1. assert (HC1 : <[m := []]> C 1 = C 1) by (by rewrite fn_lookup_insert_ne by lia).
  destruct (iappend_spec img1 (m + 1) fb (m + 1) D1 _ 1 (dirent m (strip_underscore (strip_user f.1))) Hio1 ltac:(lia)) as (img2 & D2 & Hrun2 & Hio2);
    rewrite ?HC1, ?dirent_len in *; [lia|lia|].
  rewrite (kbind_ok _ _ _ _ _ Hrun2).
  destruct (pieces_spec pieces img2 (m + 1) (fb + (blocks (len_of (C 1) + 16) - blocks (len_of (C 1)))) (m + 1) D2 _ m Hio2 ltac:(lia)) as (img3 & D3 & Hrun3 & Hio3);
    rewrite ?(fn_lookup_insert_ne _ 1 m), ?fn_lookup_insert in * by lia; change (len_of []) with 0 in *; rewrite ?Z.add_0_l in *; change (blocks 0) with 0 in *.
  { done. }
  { lia. }
  rewrite app_nil_l, Z.sub_0_r in *. exists img3, D3. split; [exact Hrun3|exact Hio3].
Qed.

(** What is in the files when the sources [files] have been added: the root
    directory is inode 1, the sources are inodes 2, 3, ... *)
Definition dir_bytes (files : list source) : list Z :=
  dirent 1 [46] ++ dirent 1 [46; 46] ++ concat (imap (λ t f, dirent (Z.of_nat t + 2) (short_name f)) files).

Definition contents (files : list source) (j : Z) : list Z :=
  if j =? 1 then dir_bytes files
  else if j <? 2 then []
  else match files !! Z.to_nat (j - 2) with Some f => content f | None => [] end.

Fixpoint data_blocks (files : list source) : Z :=
  match files with
  | [] => 0
  | f :: files => blocks (len_of (content f)) + data_blocks files
  end.

Lemma dir_bytes_snoc l f : dir_bytes (l ++ [f]) = dir_bytes l ++ dirent (Z.of_nat (length l) + 2) (short_name f).
Proof. unfold dir_bytes. rewrite imap_app, concat_app, !app_assoc. simpl. by rewrite app_nil_r, Nat.add_0_r. Qed.

Lemma dir_bytes_len l : len_of (dir_bytes l) = 32 + 16 * Z.of_nat (length l).
Proof.
  induction l as [|f l IH] using rev_ind; [done|]. rewrite dir_bytes_snoc, len_app, dirent_len, IH, length_app. simpl. lia.
Qed.

Lemma contents_snoc l f j : let m := Z.of_nat (length l) + 2 in
  contents (l ++ [f]) j = <[m := content f]> (<[1 := contents l 1 ++ dirent m (short_name f)]> (<[m := []]> (contents l))) j.
Proof.
  intros m. destruct (decide (j = m)) as [->|Hm].
  { rewrite fn_lookup_insert. unfold contents. destruct (m =? 1) eqn:E1, (m <? 2) eqn:E2; [lia..|].
    replace (Z.to_nat (m - 2)) with (length l) by lia. by rewrite lookup_app_r, Nat.sub_diag. }
  rewrite fn_lookup_insert_ne by done. destruct (decide (j = 1)) as [->|H1].
  { rewrite fn_lookup_insert. unfold contents. simpl. by rewrite dir_bytes_snoc. }
  rewrite !fn_lookup_insert_ne by done. unfold contents. destruct (j =? 1) eqn:E1; [lia|]. destruct (j <? 2) eqn:E2; [done|].
  destruct (decide (j < m)) as [Hlt|Hge]; [by rewrite lookup_app_l by lia|]. rewrite !lookup_ge_None_2; [done|..]; rewrite ?length_app; simpl; lia.
Qed.

Lemma files_spec files : ∀ l img fb D, image_ok img fb (2 + Z.of_nat (length l)) D (contents l) → (∀ f, f ∈ files → good f) →
  2 + Z.of_nat (length (l ++ files)) ≤ NINODES →
  let m := 2 + Z.of_nat (length (l ++ files)) in
  let fb' := fb + (blocks (len_of (dir_bytes (l ++ files))) - blocks (len_of (dir_bytes l))) + data_blocks files in fb' ≤ FSSIZE →
  ∃ img' D', each add_file files (mkMkst img (2 + Z.of_nat (length l)) fb) = Made tt (mkMkst img' m fb') ∧ image_ok img' fb' m D' (contents (l ++ files)).
Proof.
  induction files as [|f files IH]; intros l img fb D Hio Hgood Hm m fb' Hfit.
  { exists img, D. subst fb' m. rewrite app_nil_r, Z.sub_diag. cbn [data_blocks]. rewrite !Z.add_0_r. done. }
  assert (Hpos : 0 ≤ data_blocks files).
  { clear. induction files as [|f files IH]; simpl; [lia|]. assert (blocks 0 ≤ blocks (len_of (content f))) by (apply blocks_mono; unfold len_of; lia).
    change (blocks 0) with 0 in *. lia. }
  change NINODES with 200 in *. rewrite length_app in Hm. cbn [length] in Hm. set (fb1 := fb + (blocks (len_of (dir_bytes (l ++ [f]))) - blocks (len_of (dir_bytes l))) + blocks (len_of (content f))).
  assert (Hmono : blocks (len_of (dir_bytes (l ++ [f]))) ≤ blocks (len_of (dir_bytes (l ++ f :: files)))).
  { apply blocks_mono. rewrite !dir_bytes_len, !length_app. simpl. lia. }
  assert (Hr : contents l 1 = dir_bytes l) by done.
  assert (Hr' : len_of (dir_bytes l) + 16 = len_of (dir_bytes (l ++ [f]))) by (rewrite !dir_bytes_len, length_app; simpl; lia).
  destruct (add_file_spec img fb (2 + Z.of_nat (length l)) D (contents l) f Hio) as (img1 & D1 & Hrun & Hio1);
    rewrite ?Hr, ?Hr' in *; [change NINODES with 200; lia|apply Hgood; by left|rewrite dir_bytes_len, length_app; simpl; lia|subst fb'; simpl in Hfit; lia|].
  fold fb1 in Hrun, Hio1. cbn [each]. rewrite (kbind_ok _ _ _ _ _ Hrun).
  assert (Hio2 : image_ok img1 fb1 (2 + Z.of_nat (length (l ++ [f]))) D1 (contents (l ++ [f]))).
  { rewrite length_app. replace (2 + Z.of_nat (length l + length [f])) with (2 + Z.of_nat (length l) + 1) by (simpl; lia).
    eapply image_ext; [|exact Hio1]. intros j. rewrite contents_snoc. by replace (Z.of_nat (length l) + 2) with (2 + Z.of_nat (length l)) by lia. }
  destruct (IH (l ++ [f]) img1 fb1 D1 Hio2) as (img2 & D2 & Hrun2 & Hio3).
  { intros g Hg. apply Hgood. by right. }
  { rewrite <- app_assoc, length_app. change NINODES with 200. simpl. lia. }
  { rewrite <- app_assoc. subst fb' fb1. simpl in *. lia. }
  rewrite <- app_assoc in *. cbn [app] in *. exists img2, D2. fold m in Hrun2, Hio3.
  replace (fb1 + _ + _) with fb' in Hrun2, Hio3 by (subst fb' fb1; simpl; lia). split; [|done]. rewrite <- Hrun2. f_equal. f_equal.
  rewrite length_app. simpl. lia.
Qed.

(** ** The empty image *)
Lemma zero_all l : ∀ img fi fb, ∃ img', each (λ i, wsect i zero_block) l (mkMkst img fi fb) = Made tt (mkMkst img' fi fb) ∧
  ∀ b, img' !! b = if decide (b ∈ l) then Some zero_block else img !! b.
Proof.
  induction l as [|a l IH]; intros img fi fb.
  { exists img. split; [done|]. intros b. rewrite decide_False; [done|]. apply not_elem_of_nil. }
  destruct (IH (<[a := zero_block]> img) fi fb) as (img' & Hrun & Himg). exists img'. split; [exact Hrun|].
  intros b. rewrite Himg. destruct (decide (b ∈ l)) as [Hb|Hb]; [rewrite decide_True; [done|by right]|].
  destruct (decide (b = a)) as [->|Hne]; [rewrite lookup_insert_eq, decide_True; [done|by left]|].
  rewrite lookup_insert_ne, decide_False; [done| |done]. by intros [?|?]%elem_of_cons.
Qed.

Lemma zero_dinode j : get_dinode zero_block j = free_dinode.
Proof.
  unfold get_dinode. change DINODE_SIZE with 64. change IPB with 16.
  assert (Hs : slice zero_block (64 * (j mod 16)) 64 = replicate 64 0).
  { unfold slice, zero_block. rewrite drop_replicate, take_replicate. f_equal. Z.div_mod_to_equations; lia. }
  rewrite Hs. vm_compute. reflexivity.
Qed.

Lemma start_spec fi fb : ∃ img, (each (λ i, wsect i zero_block) (seqZ 0 FSSIZE);; wsect 1 (splice zero_block 0 (encode_sb mksb))) (mkMkst ∅ fi fb) =
    Made tt (mkMkst img fi fb) ∧ image_ok img nmeta 1 (λ _, free_dinode) (λ _, []).
Proof.
  destruct (zero_all (seqZ 0 FSSIZE) ∅ fi fb) as (img0 & Hrun & Himg). rewrite (kbind_ok _ _ _ _ _ Hrun).
  assert (Hin : ∀ b, 0 ≤ b < FSSIZE → img0 !! b = Some zero_block) by (intros b Hb; rewrite Himg, decide_True; [done|]; apply elem_of_seqZ; lia).
  eexists. split; [done|]. cbn [m_img m_freeinode m_freeblock].
  assert (Hboot : ∀ b, 0 ≤ b < FSSIZE → block_of (<[1 := splice zero_block 0 (encode_sb mksb)]> img0) b = boot_block b).
  { intros b Hb. rewrite block_insert. unfold boot_block. destruct (b =? 1) eqn:E; [rewrite decide_True by lia; done|].
    rewrite decide_False by lia. by apply block_some, Hin. }
  assert (Hzero : ∀ b, 2 ≤ b < FSSIZE → block_of (<[1 := splice zero_block 0 (encode_sb mksb)]> img0) b = zero_block).
  { intros b Hb. rewrite Hboot by lia. unfold boot_block. by destruct (b =? 1) eqn:E; [lia|]. }
  rewrite FSSIZE_val in *. constructor; try done.
  - constructor; try (intros; lia).
    + rewrite FSSIZE_val. intros b Hb. destruct (decide (b = 1)) as [->|Hne].
      * eexists. rewrite lookup_insert_eq. split; [done|]. vm_compute. reflexivity.
      * exists zero_block. rewrite lookup_insert_ne by done. split; [by apply Hin|reflexivity].
    + rewrite FSSIZE_val, nmeta_val. intros b Hb. apply Hzero. lia.
    + by rewrite FSSIZE_val, nmeta_val.
  - intros j Hj. destruct (iblock j Hj) as [_ Hb]. rewrite Hzero by lia. apply zero_dinode.
  - intros j Hj. lia.
  - intros b Hb. apply Hboot. lia.
Qed.

(** The root directory with its two entries. *)
Lemma root_spec img D : image_ok img nmeta 1 D (λ _, []) → let fb := nmeta + blocks (len_of (dir_bytes [])) in
  ∃ img' D', (∀ k : Z → K unit, (rootino ← ialloc T_DIR; assert_ (rootino =? ROOTINO);; iappend rootino (dirent rootino [46]);;
     iappend rootino (dirent rootino [46; 46]);; k rootino) (mkMkst img 1 nmeta) = k 1 (mkMkst img' 2 fb)) ∧
    image_ok img' fb 2 D' (contents []).
Proof.
  intros Hio fb. destruct (ialloc_spec img nmeta 1 D (λ _, []) Hio ltac:(done)) as (img1 & D1 & Hrun & Hio1).
  change (type_of 1) with T_DIR in Hrun.
  destruct (iappend_spec img1 2 nmeta 2 D1 _ 1 (dirent 1 [46]) Hio1 ltac:(lia)) as (img2 & D2 & Hrun2 & Hio2);
    [by rewrite fn_lookup_insert|by rewrite fn_lookup_insert|]. rewrite fn_lookup_insert in *.
  destruct (iappend_spec img2 2 _ 2 D2 _ 1 (dirent 1 [46; 46]) Hio2 ltac:(lia)) as (img3 & D3 & Hrun3 & Hio3);
    [by rewrite fn_lookup_insert|by rewrite fn_lookup_insert|]. rewrite fn_lookup_insert in *.
  exists img3, D3. split.
  { intros k. rewrite (kbind_ok _ _ _ _ _ Hrun). change (1 =? ROOTINO) with true.
    rewrite (kbind_ok (assert_ true) _ _ tt (mkMkst img1 2 nmeta)) by done. by rewrite (kbind_ok _ _ _ _ _ Hrun2), (kbind_ok _ _ _ _ _ Hrun3). }
  eapply image_ext; [|exact Hio3]. intros j.
  destruct (decide (j = 1)) as [->|Hne]; [by rewrite fn_lookup_insert|]. rewrite !fn_lookup_insert_ne by done.
  unfold contents. destruct (j =? 1) eqn:E; [lia|]. by destruct (j <? 2).
Qed.

(** ** The bitmap *)
Lemma bitmap_spec n : 0 ≤ n < BPB → bytes_ok (foldl bit_set zero_block (seqZ 0 n)) ∧
  ∀ b, 0 ≤ b < BPB → bit_free (foldl bit_set zero_block (seqZ 0 n)) b = (n <=? b).
Proof.
  intros [Hn0 Hn]. revert Hn. pattern n. apply natlike_ind; [| |done]; clear n Hn0.
  - intros _. change (seqZ 0 0) with (@nil Z). cbn [foldl]. split.
    + split; [reflexivity|]. intros k. rewrite nthZ_zero. lia.
    + intros b Hb. unfold bit_free. rewrite nthZ_zero. simpl. lia.
  - intros n Hn0 IH Hn. destruct (IH ltac:(lia)) as [Hok Hfree]. unfold Z.succ. rewrite seqZ_app, foldl_app by lia.
    set (x := foldl bit_set zero_block (seqZ 0 n)) in *. rewrite Z.add_0_l. change (seqZ n 1) with [0 + n]. rewrite Z.add_0_l. cbn [foldl]. split.
    + apply bytes_ok_upd; [done|]. change BPB with 8192 in *. Z.div_mod_to_equations; lia.
    + intros b Hb. rewrite bit_set_free by (done || lia). case_decide; [lia|]. rewrite Hfree by done. lia.
Qed.

(** ** The whole run *)

(** The image that mkfs leaves: every file and the root directory are readable,
    the other inodes are free, the log is empty and the bitmap marks exactly the blocks
    in use. *)
Record built img fb (m : Z) (D : Z → dinode) (files : list source) : Prop := {
  bu_files : files_ok img fb m D (sizes (contents files)) (contents files);
  bu_table : table img D;
  bu_file : ∀ j, 2 ≤ j < m → D j = mkDinode T_FILE 0 0 1 (len_of (contents files j)) (di_addrs (D j));
  bu_root : D 1 = mkDinode T_DIR 0 0 1 ((len_of (dir_bytes files) / BSIZE + 1) * BSIZE) (di_addrs (D 1));
  bu_free : ∀ j, m ≤ j < NINODES → D j = free_dinode;
  bu_sb : decode_sb (block_of img 1) = mksb;
  bu_log : block_of img (sb_logstart mksb) = zero_block;
  bu_map : ∀ b, 0 ≤ b < BPB → bit_free (block_of img (sb_bmapstart mksb)) b = (fb <=? b);
}.

Lemma finish_spec img fb m D files : image_ok img fb m D (contents files) → 2 ≤ m → 0 ≤ len_of (dir_bytes files) < 2 ^ 31 →
  ∃ img' D', (din ← rinode ROOTINO; winode ROOTINO (set_size din ((di_size din / BSIZE + 1) * BSIZE));;
     used ← blocks_used; balloc used) (mkMkst img m fb) = Made tt (mkMkst img' m fb) ∧ built img' fb m D' files.
Proof.
  intros Hio Hm Hlen. change ROOTINO with 1. rewrite (kbind_ok _ _ _ _ _ (rinode_spec img m fb m D (contents files) 1 Hio ltac:(lia))).
  destruct Hio as [Hok Hmn Ht Hlive Hfree Hboot]. pose proof (fo_fb _ _ _ _ _ _ Hok) as Hfb. rewrite FSSIZE_val in Hfb. change NINODES with 200 in Hmn.
  assert (Hroot : di_size (D 1) = len_of (dir_bytes files)) by (rewrite (Hlive 1 ltac:(lia)); done). rewrite Hroot.
  set (d := set_size (D 1) _).
  assert (Hd : d = mkDinode T_DIR 0 0 1 ((len_of (dir_bytes files) / BSIZE + 1) * BSIZE) (di_addrs (D 1))) by (unfold d, set_size; by rewrite (Hlive 1 ltac:(lia))).
  destruct (winode_spec img m fb m D D _ _ 1 d Hok Ht) as (img1 & Hrun & Hok1 & Ht1 & Hb1); [lia| |done|].
  { rewrite Hd. eapply node_ok; [apply (fo_node _ _ _ _ _ _ Hok 1 ltac:(lia))|rewrite FSSIZE_val; lia|unfold T_DIR; lia|].
    change BSIZE with 1024. Z.div_mod_to_equations; lia. }
  rewrite (kbind_ok _ _ _ _ _ Hrun). rewrite (kbind_ok blocks_used _ _ fb (mkMkst img1 m fb)) by done.
  assert (Eb : fb <? BSIZE * 8 = true) by (change (BSIZE * 8) with 8192; lia). unfold balloc. rewrite Eb. cbn [assert_].
  rewrite (kbind_ok (mret tt) _ _ tt (mkMkst img1 m fb)) by done. rewrite nmeta_val in Hfb.
  destruct (bitmap_spec fb) as [Hbok Hbits]; [change BPB with 8192; lia|].
  change (sb_bmapstart mksb) with 45. eexists _, (<[1 := d]> D). split; [done|]. constructor.
  - apply (files_meta img1 fb m (<[1 := d]> D)); [done|rewrite nmeta_val; lia|apply Hbok|done].
  - intros j Hj. destruct (iblock j Hj) as [_ Hb]. rewrite block_insert, decide_False by lia. by apply Ht1.
  - intros j Hj. rewrite fn_lookup_insert_ne by lia. rewrite (Hlive j ltac:(lia)) at 1. unfold type_of. change ROOTINO with 1. by destruct (j =? 1) eqn:E; [lia|].
  - rewrite fn_lookup_insert. rewrite Hd. done.
  - change NINODES with 200. intros j Hj. rewrite fn_lookup_insert_ne by lia. apply Hfree; lia.
  - rewrite block_insert, decide_False, Hb1, Hboot by lia. vm_compute. reflexivity.
  - change (sb_logstart mksb) with 2. rewrite block_insert, decide_False, Hb1, Hboot by lia. done.
  - change (sb_bmapstart mksb) with 45. intros b Hb. rewrite block_insert, decide_True by done. by apply Hbits.
Qed.

Lemma mkfs_spec files : (∀ f, f ∈ files → good f) → 2 + Z.of_nat (length files) ≤ NINODES →
  let fb := nmeta + blocks (len_of (dir_bytes files)) + data_blocks files in fb ≤ FSSIZE →
  ∃ img D, mkfs files = Made tt (mkMkst img (2 + Z.of_nat (length files)) fb) ∧ built img fb (2 + Z.of_nat (length files)) D files.
Proof.
  intros Hgood Hm fb Hfit. unfold mkfs, mkfs_main. rewrite kbind_assoc.
  destruct (start_spec 1 nmeta) as (img0 & Hrun0 & Hio0). rewrite (kbind_ok _ _ _ _ _ Hrun0).
  destruct (root_spec img0 _ Hio0) as (img1 & D1 & Hrun1 & Hio1). rewrite Hrun1.
  destruct (files_spec files [] img1 _ D1 Hio1 Hgood) as (img2 & D2 & Hrun2 & Hio2); [done|cbn [app]; unfold fb in Hfit; lia|].
  change (2 + Z.of_nat (length [])) with 2 in Hrun2. rewrite (kbind_ok _ _ _ _ _ Hrun2). cbn [app] in Hio2 |- *.
  replace (_ + _ + data_blocks files) with fb in Hio2 |- * by (unfold fb; lia).
  apply (finish_spec img2 fb (2 + Z.of_nat (length files)) D2 files Hio2); [lia|]. rewrite dir_bytes_len. change NINODES with 200 in Hm. lia.
Qed.

(** ** What mkfs promises the kernel *)

(** C21: when the files fit, mkfs builds an image that the kernel can read: the
    superblock is the layout, the log is empty, every file has its own inode with its
    size, and its bytes are in its blocks, direct or indirect, padded with zeros; the
    root directory lists the files; no block belongs to two inodes; the
    bitmap marks exactly the blocks in use; the other inodes are free. *)
Theorem mkfs_correct files : (∀ f, f ∈ files → good f) → 2 + Z.of_nat (length files) ≤ NINODES →
  let fb := nmeta + blocks (len_of (dir_bytes files)) + data_blocks files in let m := 2 + Z.of_nat (length files) in fb ≤ FSSIZE →
  ∃ img D, mkfs files = Made tt (mkMkst img m fb) ∧ built img fb m D files ∧
    ∀ t f o, files !! t = Some f → let j := Z.of_nat t + 2 in
      let d := get_dinode (block_of img (IBLOCK j mksb)) j in
      di_size d = len_of (content f) ∧
      (0 ≤ o < len_of (content f) → nthZ (block_of img (saddr img d (o / BSIZE))) (o mod BSIZE) = nthZ (content f) o).
Proof.
  intros Hgood Hm fb m Hfit. destruct (mkfs_spec files Hgood Hm Hfit) as (img & D & Hrun & Hb). exists img, D. split_and!; [done..|].
  intros t f o Hf j d. pose proof (lookup_lt_Some _ _ _ Hf) as Ht. change NINODES with 200 in Hm.
  assert (Hd : d = D j) by (apply (bu_table _ _ _ _ _ Hb); unfold j; lia).
  assert (Hc : contents files j = content f).
  { unfold contents, j. destruct (_ =? 1) eqn:E1; [lia|]. destruct (_ <? 2) eqn:E2; [lia|]. replace (Z.to_nat (Z.of_nat t + 2 - 2)) with t by lia. by rewrite Hf. }
  rewrite Hd. split; [rewrite (bu_file _ _ _ _ _ Hb) by (unfold j, m; lia); simpl; by rewrite Hc|].
  intros Ho. pose proof (fo_node _ _ _ _ _ _ (bu_files _ _ _ _ _ Hb) j ltac:(unfold j, m; lia)) as Hnode.
  rewrite Hc in Hnode. apply (nd_bytes _ _ _ _ _ Hnode). unfold sizes. rewrite Hc. unfold norm, parts. simpl. Z.div_mod_to_equations; lia.
Qed.

(** With 62 files the directory fills its block exactly, and the size that mkfs
    gives the root covers a second block that is not there. *)
Lemma root_hole files img fb D : built img fb (2 + Z.of_nat (length files)) D files → length files = 62%nat →
  di_size (D 1) = 2048 ∧ nthZ (di_addrs (D 1)) 1 = 0.
Proof.
  intros Hb Hl. pose proof (dir_bytes_len files) as Hlen. rewrite Hl in Hlen. change (32 + 16 * Z.of_nat 62) with 1024 in Hlen. split.
  - rewrite (bu_root _ _ _ _ _ Hb), Hlen. reflexivity.
  - pose proof (fo_node _ _ _ _ _ _ (bu_files _ _ _ _ _ Hb) 1 ltac:(lia)) as Hn. apply (nd_free _ _ _ _ _ Hn).
    unfold sizes. change (contents files 1) with (dir_bytes files). rewrite Hlen. change (norm (parts 1024)).1 with 1. lia.
Qed.

(** The program user/_cat, read in two pieces. *)
Definition demo_files : list source := [([117; 115; 101; 114; 47; 95; 99; 97; 116], Some [replicate 1024 7; replicate 1000 8])].

Lemma mkfs_correct_witness : ∃ img D, mkfs demo_files = Made tt (mkMkst img 3 49) ∧ built img 49 3 D demo_files.
Proof.
  destruct (mkfs_correct demo_files) as (img & D & Hrun & Hb & _).
  - intros f ->%list_elem_of_singleton. constructor; [reflexivity|by eexists|vm_compute; discriminate].
  - vm_compute. discriminate.
  - vm_compute. discriminate.
  - exists img, D. split; [exact Hrun|exact Hb].
Defined.
