(* ===== verification/Console.v ===== *)
(** * kernel/uart.c, kernel/printf.c, kernel/console.c

    The UART driver with its transmit ring, the kernel's printf(), and the
    console with its line editing. The device answers reads of its registers
    from [uart] (State.v). A panic() ends the run, so the [panicked] flag, which
    stops the other harts, is never seen. *)

From Stdlib Require Import ZArith Lia.
From stdpp Require Import base numbers gmap strings countable tactics list.
From S2P Require Import Prelude Machine CString State Spinlock Kalloc Vm Sched.

(** The bytes of a C string literal, without the terminator. *)
Definition bytes_of (s : string) : list Z :=
  (λ c, Z.of_N (Ascii.N_of_ascii c)) <$> String.list_ascii_of_string s.

Definition newline : string := String (Ascii.ascii_of_N 10) EmptyString.

Definition get_uart : M uart_t := gets uart.
Definition upd_uart (f : uart_t → uart_t) : M unit := modify (λ s, set_uart (f (uart s)) s).
Definition get_cons : M console := gets cons.
Definition upd_cons (f : console → console) : M unit := modify (λ s, set_cons (f (cons s)) s).

Definition UART_TX_BUF_SIZE : Z := 32.
Definition INPUT_BUF : Z := 128.
Definition BACKSPACE : Z := 0x100.

(** The characters the code names. *)
Definition chBS : Z := 8.
Definition chNL : Z := 10.
Definition chCR : Z := 13.
Definition chSPACE : Z := 32.
Definition chPERCENT : Z := 37.
Definition chMINUS : Z := 45.
Definition chDEL : Z := 127.
(** [C(x)]: control-x *)
Definition ctrl (c : Z) : Z := c - 64.

Section uart.
Context `{Env}.

(** ** kernel/uart.c *)

(** [ReadReg(LSR) & LSR_TX_IDLE], as the device answers it; a device that has
    no more answers to give is idle. *)
Definition tx_idle : M bool :=
  u ← get_uart;
  upd_uart (set_uart_idle (tail (uart_idle u)));;
  mret (hd true (uart_idle u)).

(** [WriteReg(THR, c)] *)
Definition thr (c : Z) : M unit := upd_uart (λ u, set_uart_out (uart_out u ++ [u8 c]) u).

Definition uartinit : M unit := initlock LkUart.

(** The transmit ring holds at most [UART_TX_BUF_SIZE] bytes. *)
Definition uartstart : M unit :=
  loop (S (S (Z.to_nat UART_TX_BUF_SIZE))) (λ _ : unit,
    u ← get_uart;
    if uart_tx_w u =? uart_tx_r u then mret (inr tt)
    else
      idle ← tx_idle;
      if negb idle then mret (inr tt)
      else
        let c := nthZ (uart_tx_buf u) (uart_tx_r u mod UART_TX_BUF_SIZE) in
        upd_uart (set_uart_tx_r (u64 (uart_tx_r u + 1)));;
        wakeup (Some ChUart);;
        thr c;;
        mret (inl tt)) tt.

Definition uartputc (c : Z) : M unit :=
  acquire LkUart;;
  loop fuel (λ _ : unit,
    u ← get_uart;
    if uart_tx_w u =? u64 (uart_tx_r u + UART_TX_BUF_SIZE) then
      sleep ChUart LkUart;;
      mret (inl tt)
    else
      upd_uart (λ u, set_uart_tx_w (u64 (uart_tx_w u + 1))
        (set_uart_tx_buf (updZ (uart_tx_buf u) (uart_tx_w u mod UART_TX_BUF_SIZE) (u8 c)) u));;
      uartstart;;
      release LkUart;;
      mret (inr tt)) tt.

(** The spin loop reads the status register until the device is idle. *)
Definition uartputc_sync (c : Z) : M unit :=
  push_off;;
  u ← get_uart;
  loop (S (length (uart_idle u))) (λ _ : unit,
    idle ← tx_idle;
    mret (if (idle : bool) then inr tt else inl tt)) tt;;
  thr c;;
  pop_off.

Definition uartgetc : M Z :=
  u ← get_uart;
  match uart_rx u with
  | [] => mret (-1)
  | c :: rx => upd_uart (set_uart_rx rx);; mret c
  end.

(** ** kernel/printf.c *)
Definition consputc (c : Z) : M unit :=
  if c =? BACKSPACE then
    uartputc_sync chBS;;
    uartputc_sync chSPACE;;
    uartputc_sync chBS
  else uartputc_sync c.

Definition digits : list Z := bytes_of "0123456789abcdef".

(** The do-while loop of printint(): the digits of [x], least significant
    first. A 32-bit number has at most 32 digits in any base. *)
Fixpoint digit_loop (n : nat) (x base : Z) : list Z :=
  match n with
  | O => []
  | S n =>
      nthZ digits (x mod base) :: (if x / base =? 0 then [] else digit_loop n (x / base) base)
  end.

(** The characters printint() sends, in the order it sends them. *)
Definition printint (xx base : Z) (sign : bool) : list Z :=
  let neg := sign && (xx <? 0) in
  let x := if neg then u32 (- xx) else u32 xx in
  let buf := digit_loop 32 x base ++ (if neg then [chMINUS] else []) in
  reverse buf.

Fixpoint ptr_digits (n : nat) (x : Z) : list Z :=
  match n with
  | O => []
  | S n => nthZ digits (Z.shiftr x 60) :: ptr_digits n (u64 (Z.shiftl x 4))
  end.

Definition printptr (x : Z) : list Z := bytes_of "0x" ++ ptr_digits 16 x.

(** The variable arguments, as the conversions take them. *)
Inductive parg := PInt (x : Z) | PPtr (x : Z) | PStr (s : list Z) | PNull.

(** A string argument up to its terminator. *)
Fixpoint c_str (s : list Z) : list Z :=
  match s with
  | [] => []
  | c :: s => if c =? 0 then [] else c :: c_str s
  end.

Definition arg_int (a : list parg) : Z :=
  match a with PInt x :: _ => s32 x | PPtr x :: _ => s32 x | _ => 0 end.
Definition arg_ptr (a : list parg) : Z :=
  match a with PInt x :: _ => u64 x | PPtr x :: _ => u64 x | _ => 0 end.
Definition arg_str (a : list parg) : list Z :=
  match a with PStr s :: _ => c_str s | _ => bytes_of "(null)" end.

(** The characters printf() sends for the format [fmt] (without terminator). *)
Fixpoint format (fmt : list Z) (args : list parg) : list Z :=
  match fmt with
  | [] => []
  | c :: rest =>
      if negb (c =? chPERCENT) then c :: format rest args
      else
        match rest with
        | [] => []
        | d :: rest =>
            if d =? 100 then printint (arg_int args) 10 true ++ format rest (tail args)
            else if d =? 120 then printint (arg_int args) 16 true ++ format rest (tail args)
            else if d =? 112 then printptr (arg_ptr args) ++ format rest (tail args)
            else if d =? 115 then arg_str args ++ format rest (tail args)
            else if d =? chPERCENT then chPERCENT :: format rest args
            else chPERCENT :: d :: format rest args
        end
  end.

Definition put_all (cs : list Z) : M unit :=
  for_each cs (λ c, consputc c;; mret (None : option unit));; mret tt.

Definition printf (fmt : string) (args : list parg) : M unit :=
  locking ← gets pr_locking;
  when locking (acquire LkPr);;
  put_all (format (bytes_of fmt) args);;
  when locking (release LkPr).

Definition printfinit : M unit :=
  initlock LkPr;;
  modify (set_pr_locking true).

(** kernel/proc.c: procdump(). Its table has no name for USED. *)
Definition state_name (st : procstate) : list Z :=
  bytes_of (match st with
  | UNUSED => "unused" | USED => "???" | SLEEPING => "sleep " | RUNNABLE => "runble"
  | RUNNING => "run   " | ZOMBIE => "zombie" end).

Definition procdump : M unit :=
  printf newline [];;
  for_each proc_ids (λ i,
    p ← get_proc i;
    if decide (p_state p = UNUSED) then mret (None : option unit)
    else
      printf "%d %s %s" [PInt (p_pid p); PStr (state_name (p_state p)); PStr (p_name p)];;
      printf newline [];;
      mret None);;
  mret tt.

(** ** kernel/console.c *)
Definition consolewrite (src : place) (n : Z) : M Z :=
  r ← for_each (seqZ 0 n) (λ i,
    r ← either_copyin (advance src i) 1;
    let '(code, bs) := r in
    if code =? -1 then mret (Some i)
    else uartputc (nthZ bs 0);; mret None);
  mret (match r with Some i => i | None => Z.max 0 n end).

(** The inner loop of consoleread(): wait for input; [inr false] is the early
    return of a killed process. *)
Definition cons_wait (_ : unit) : M (unit + bool) :=
  c ← get_cons;
  if cons_r c =? cons_w c then
    me ← cur;
    p ← get_proc me;
    if p_killed p then
      release LkCons;;
      mret (inr false)
    else
      sleep ChCons LkCons;;
      mret (inl tt)
  else mret (inr true).

(** One round of the outer loop, with (dst, n, bytes for a local destination);
    [inr None] is the early return. *)
Definition consoleread_body (target : Z) (x : place * Z * list Z) :
    M ((place * Z * list Z) + option (Z * list Z)) :=
  let '(dst, n, acc) := x in
  if n <=? 0 then mret (inr (Some (n, acc)))
  else
    ok ← loop fuel cons_wait tt;
    if negb ok then mret (inr None)
    else
      k ← get_cons;
      let c := nthZ (cons_buf k) (cons_r k mod INPUT_BUF) in
      upd_cons (set_cons_r (u32 (cons_r k + 1)));;
      if c =? ctrl 68 then
        when (u32 n <? target) (upd_cons (λ k, set_cons_r (u32 (cons_r k - 1)) k));;
        mret (inr (Some (n, acc)))
      else
        r ← either_copyout dst [c];
        let '(code, bs) := r in
        if code =? -1 then mret (inr (Some (n, acc)))
        else if c =? chNL then mret (inr (Some (n - 1, acc ++ bs)))
        else mret (inl (advance dst 1, n - 1, acc ++ bs)).

Definition consoleread (dst : place) (n : Z) : M (Z * list Z) :=
  let target := u32 n in
  acquire LkCons;;
  r ← loop (S (Z.to_nat n)) (consoleread_body target) (dst, n, []);
  match r with
  | None => mret (-1, [])
  | Some (n, acc) =>
      release LkCons;;
      mret (s32 (target - n), acc)
  end.

(** The erase loop of control-U: at most [INPUT_BUF] characters. *)
Definition kill_line (_ : unit) : M (unit + unit) :=
  k ← get_cons;
  if negb (cons_e k =? cons_w k) &&
     negb (nthZ (cons_buf k) (u32 (cons_e k - 1) mod INPUT_BUF) =? chNL) then
    upd_cons (set_cons_e (u32 (cons_e k - 1)));;
    consputc BACKSPACE;;
    mret (inl tt)
  else mret (inr tt).

Definition consoleintr (c : Z) : M unit :=
  acquire LkCons;;
  (if c =? ctrl 80 then procdump
   else if c =? ctrl 85 then loop (S (Z.to_nat INPUT_BUF)) kill_line tt
   else if (c =? ctrl 72) || (c =? chDEL) then
     k ← get_cons;
     when (negb (cons_e k =? cons_w k))
       (upd_cons (set_cons_e (u32 (cons_e k - 1)));;
        consputc BACKSPACE)
   else
     k ← get_cons;
     when (negb (c =? 0) && (u32 (cons_e k - cons_r k) <? INPUT_BUF))
       (let c := if c =? chCR then chNL else c in
        consputc c;;
        upd_cons (λ k, set_cons_e (u32 (cons_e k + 1))
          (set_cons_buf (updZ (cons_buf k) (cons_e k mod INPUT_BUF) (u8 c)) k));;
        k ← get_cons;
        when ((c =? chNL) || (c =? ctrl 68) || (cons_e k =? u32 (cons_r k + INPUT_BUF)))
          (upd_cons (λ k, set_cons_w (cons_e k) k);;
           wakeup (Some ChCons))));;
  release LkCons.

Definition consoleinit : M unit :=
  initlock LkCons;;
  uartinit.

Definition uartintr : M unit :=
  u ← get_uart;
  loop (S (length (uart_rx u))) (λ _ : unit,
    c ← uartgetc;
    if c =? -1 then mret (inr tt)
    else consoleintr c;; mret (inl tt)) tt;;
  acquire LkUart;;
  uartstart;;
  release LkUart.
End uart.
