(* ===== verification/File.v ===== *)
(** * kernel/file.c, and pipealloc() of kernel/pipe.c: open files

    Files are indices into ftable.file[]. The only device with entries in
    devsw[] is the console (consoleinit()). *)

From Stdlib Require Import ZArith Lia.
From stdpp Require Import base numbers gmap strings countable tactics list.
From S2P Require Import Prelude Machine CString State Spinlock Kalloc Vm Sched Sleeplock Pipe Bio Log Fs Console.

Definition file_ids : list nat := seq 0 NFILE.
#[global] Arguments file_ids : simpl never.

Definition CONSOLE : Z := 1.

Section file.
Context `{Env}.

Definition fileinit : M unit := initlock LkFtable.

Definition filealloc : M (option nat) :=
  acquire LkFtable;;
  r ← for_each file_ids (λ i,
    f ← get_file i;
    if f_ref f =? 0 then
      upd_file i (set_f_ref 1);;
      release LkFtable;;
      mret (Some i)
    else mret None);
  match r with
  | Some i => mret (Some i)
  | None => release LkFtable;; mret None
  end.

Definition filedup (i : nat) : M nat :=
  acquire LkFtable;;
  f ← get_file i;
  if f_ref f <? 1 then panic "filedup"
  else
    upd_file i (set_f_ref (f_ref f + 1));;
    release LkFtable;;
    mret i.

(** An inode pointer of a struct file, dereferenced. *)
Definition deref (ip : option nat) : M nat :=
  match ip with Some i => mret i | None => panic "null pointer" end.

Definition fileclose (i : nat) : M unit :=
  acquire LkFtable;;
  f ← get_file i;
  if f_ref f <? 1 then panic "fileclose"
  else
    upd_file i (set_f_ref (f_ref f - 1));;
    if 0 <? f_ref f - 1 then release LkFtable
    else
      ff ← get_file i;
      upd_file i (λ f, set_f_type FD_NONE (set_f_ref 0 f));;
      release LkFtable;;
      match f_type ff with
      | FD_PIPE => pipeclose (f_pipe ff) (f_writable ff)
      | FD_INODE | FD_DEVICE =>
          begin_op;;
          ip ← deref (f_ip ff);
          iput ip;;
          end_op
      | FD_NONE => mret tt
      end.

(** kernel/stat.h: struct stat (24 bytes, with 4 bytes of padding before
    size, which the compiler leaves as they are on the stack: [pad]). *)
Definition stat_bytes (st : Z * Z * Z * Z * Z) (pad : list Z) : list Z :=
  let '(dev, ino, type, nlink, size) := st in
  le_bytes 4 (u32 dev) ++ le_bytes 4 ino ++ le_bytes 2 (u16 type) ++ le_bytes 2 (u16 nlink) ++
  pad ++ le_bytes 8 size.

Definition filestat (i : nat) (addr : Z) (pad : list Z) : M Z :=
  me ← cur;
  f ← get_file i;
  if decide (f_type f = FD_INODE ∨ f_type f = FD_DEVICE) then
    ip ← deref (f_ip f);
    ilock ip;;
    st ← stati ip;
    iunlock ip;;
    p ← get_proc me;
    r ← copyout (p_pagetable p) addr (stat_bytes st pad);
    if r <? 0 then mret (-1) else mret 0
  else mret (-1).

Definition fileread (i : nat) (addr n : Z) : M Z :=
  f ← get_file i;
  if negb (f_readable f) then mret (-1)
  else
    match f_type f with
    | FD_PIPE => piperead (f_pipe f) addr n
    | FD_DEVICE =>
        if f_major f =? CONSOLE then r ← consoleread (User addr) n; mret r.1
        else mret (-1)
    | FD_INODE =>
        ip ← deref (f_ip f);
        ilock ip;;
        r ← readi ip (User addr) (f_off f) (u32 n);
        let r := s32 r.1 in
        when (0 <? r) (upd_file i (λ f, set_f_off (u32 (f_off f + r)) f));;
        iunlock ip;;
        mret r
    | FD_NONE => panic "fileread"
    end.

(** ((MAXOPBLOCKS-1-1-2) / 2) * BSIZE *)
Definition WRITE_MAX : Z := (MAXOPBLOCKS - 1 - 1 - 2) / 2 * BSIZE.

Definition filewrite_body (i : nat) (addr n : Z) (k : Z) : M (Z + Z) :=
  if negb (k <? n) then mret (inr k)
  else
    let n1 := if WRITE_MAX <? n - k then WRITE_MAX else n - k in
    begin_op;;
    f ← get_file i;
    ip ← deref (f_ip f);
    ilock ip;;
    r ← writei ip (User (u64 (addr + k))) (f_off f) n1;
    when (0 <? r) (upd_file i (λ f, set_f_off (u32 (f_off f + r)) f));;
    iunlock ip;;
    end_op;;
    if negb (r =? n1) then mret (inr k) else mret (inl (k + r)).

Definition filewrite (i : nat) (addr n : Z) : M Z :=
  f ← get_file i;
  if negb (f_writable f) then mret (-1)
  else
    match f_type f with
    | FD_PIPE => pipewrite (f_pipe f) addr n
    | FD_DEVICE => if f_major f =? CONSOLE then consolewrite (User addr) n else mret (-1)
    | FD_INODE =>
        k ← loop (S (S (Z.to_nat (n / WRITE_MAX)))) (filewrite_body i addr n) 0;
        mret (if k =? n then n else -1)
    | FD_NONE => panic "filewrite"
    end.

(** kernel/pipe.c: the two ends of a new pipe, or [None] (-1). The page comes
    from kalloc() filled with 5s. *)
Definition pipealloc : M (option (nat * nat)) :=
  f0 ← filealloc;
  match f0 with
  | None => mret None
  | Some f0 =>
      f1 ← filealloc;
      match f1 with
      | None => fileclose f0;; mret None
      | Some f1 =>
          pi ← kalloc;
          if pi =? 0 then
            fileclose f0;;
            fileclose f1;;
            mret None
          else
            modify (λ s, set_pipes (<[pi := mkPipe (replicate 512 5) 0 0 true true]> (pipes s)) s);;
            initlock (LkPipe pi);;
            upd_file f0 (λ f, set_f_pipe pi (set_f_writable false (set_f_readable true (set_f_type FD_PIPE f))));;
            upd_file f1 (λ f, set_f_pipe pi (set_f_writable true (set_f_readable false (set_f_type FD_PIPE f))));;
            mret (Some (f0, f1))
      end
  end.
End file.
