(* ===== verification/Process.v ===== *)
(** * kernel/proc.c: fork(), exit(), wait() and the first process

    The trapframe of a process is the page at p->trapframe; its fields are at
    the offsets of kernel/proc.h. *)

From Stdlib Require Import ZArith Lia.
From stdpp Require Import base numbers gmap strings countable tactics list.
From S2P Require Import Prelude Machine CString State Spinlock Kalloc Vm Sched Sleeplock Pipe Bio Log Fs Console File.

(** Offsets in struct trapframe, and its size. *)
Definition TF_kernel_satp : Z := 0.
Definition TF_kernel_sp : Z := 8.
Definition TF_kernel_trap : Z := 16.
Definition TF_epc : Z := 24.
Definition TF_kernel_hartid : Z := 32.
Definition TF_sp : Z := 48.
Definition TF_a0 : Z := 112.
Definition TF_a1 : Z := 120.
Definition TF_a7 : Z := 168.
Definition TF_SIZE : nat := 288.
#[global] Arguments TF_SIZE : simpl never.

Section process.
Context `{Env}.

Definition tf_get (i : nat) (off : Z) : M Z :=
  p ← get_proc i;
  ld64 (p_trapframe p + off).
Definition tf_set (i : nat) (off v : Z) : M unit :=
  p ← get_proc i;
  st64 (p_trapframe p + off) v.

Definition fork : M Z :=
  me ← cur;
  r ← allocproc;
  match r with
  | None => mret (-1)
  | Some np =>
      p ← get_proc me;
      c ← get_proc np;
      r ← uvmcopy (p_pagetable p) (p_pagetable c) (p_sz p);
      if r <? 0 then
        freeproc np;;
        release (LkProc np);;
        mret (-1)
      else
        upd_proc np (set_p_sz (p_sz p));;
        modify (λ s, set_mem (memmove (mem s) (p_trapframe c) (p_trapframe p) TF_SIZE) s);;
        tf_set np TF_a0 0;;
        for_each (seq 0 NOFILE) (λ i,
          p ← get_proc me;
          match p_ofile p !!! i with
          | Some f =>
              f' ← filedup f;
              upd_proc np (λ c, set_p_ofile (<[i := Some f']> (p_ofile c)) c);;
              mret (None : option unit)
          | None => mret None
          end);;
        cwd ← deref (p_cwd p);
        cwd ← idup cwd;
        upd_proc np (set_p_cwd (Some cwd));;
        upd_proc np (λ c, set_p_name (safestrcpy (p_name c) (p_name p) 16) c);;
        c ← get_proc np;
        let pid := p_pid c in
        release (LkProc np);;
        acquire LkWait;;
        upd_proc np (set_p_parent (Some me));;
        release LkWait;;
        acquire (LkProc np);;
        upd_proc np (set_p_state RUNNABLE);;
        release (LkProc np);;
        p ← get_proc me;
        upd_proc np (set_p_trace_mask (p_trace_mask p));;
        mret pid
  end.

Definition reparent (i : nat) : M unit :=
  for_each proc_ids (λ j,
    p ← get_proc j;
    if decide (p_parent p = Some i) then
      ip ← gets initproc;
      upd_proc j (set_p_parent ip);;
      wakeup (ChProc <$> ip);;
      mret (None : option unit)
    else mret None);;
  mret tt.

(** exit() does not return: after sched() it panics. *)
Definition exit (status : Z) : M unit :=
  me ← cur;
  ip ← gets initproc;
  if decide (Some me = ip) then panic "init exiting"
  else
    for_each (seq 0 NOFILE) (λ fd,
      p ← get_proc me;
      match p_ofile p !!! fd with
      | Some f =>
          fileclose f;;
          upd_proc me (λ p, set_p_ofile (<[fd := None]> (p_ofile p)) p);;
          mret (None : option unit)
      | None => mret None
      end);;
    begin_op;;
    p ← get_proc me;
    cwd ← deref (p_cwd p);
    iput cwd;;
    end_op;;
    upd_proc me (set_p_cwd None);;
    acquire LkWait;;
    reparent me;;
    p ← get_proc me;
    wakeup (ChProc <$> p_parent p);;
    acquire (LkProc me);;
    upd_proc me (λ p, set_p_state ZOMBIE (set_p_xstate status p));;
    release LkWait;;
    sched;;
    panic "zombie exit".

(** One child of the scan of wait(): [Some r] is a return of wait(), and the
    flag that children exist is kept in the loop variable. *)
Definition wait_one (me : nat) (addr : Z) (np : nat) (havekids : bool) : M (bool + Z) :=
  c ← get_proc np;
  if decide (p_parent c = Some me) then
    acquire (LkProc np);;
    c ← get_proc np;
    if decide (p_state c = ZOMBIE) then
      let pid := p_pid c in
      p ← get_proc me;
      r ← (if negb (addr =? 0) then copyout (p_pagetable p) addr (le_bytes 4 (u32 (p_xstate c)))
           else mret 0);
      if r <? 0 then
        release (LkProc np);;
        release LkWait;;
        mret (inr (-1))
      else
        freeproc np;;
        release (LkProc np);;
        release LkWait;;
        mret (inr pid)
    else
      release (LkProc np);;
      mret (inl true)
  else mret (inl havekids).

Fixpoint wait_scan (me : nat) (addr : Z) (l : list nat) (havekids : bool) : M (bool + Z) :=
  match l with
  | [] => mret (inl havekids)
  | np :: l =>
      r ← wait_one me addr np havekids;
      match r with
      | inl hk => wait_scan me addr l hk
      | inr r => mret (inr r)
      end
  end.

Definition wait (addr : Z) : M Z :=
  me ← cur;
  acquire LkWait;;
  loop fuel (λ _ : unit,
    r ← wait_scan me addr proc_ids false;
    match r with
    | inr r => mret (inr r)
    | inl havekids =>
        p ← get_proc me;
        if negb havekids || p_killed p then
          release LkWait;;
          mret (inr (-1))
        else
          sleep (ChProc me) LkWait;;
          mret (inl tt)
    end) tt.

(** initcode[] *)
Definition initcode : list Z :=
  [0x17; 0x05; 0x00; 0x00; 0x13; 0x05; 0x45; 0x02;
   0x97; 0x05; 0x00; 0x00; 0x93; 0x85; 0x35; 0x02;
   0x93; 0x08; 0x70; 0x00; 0x73; 0x00; 0x00; 0x00;
   0x93; 0x08; 0x20; 0x00; 0x73; 0x00; 0x00; 0x00;
   0xef; 0xf0; 0x9f; 0xff; 0x2f; 0x69; 0x6e; 0x69;
   0x74; 0x00; 0x00; 0x24; 0x00; 0x00; 0x00; 0x00;
   0x00; 0x00; 0x00; 0x00].

Definition userinit : M unit :=
  r ← allocproc;
  modify (set_initproc r);;
  match r with
  | None => panic "null pointer"
  | Some i =>
      p ← get_proc i;
      uvminit (p_pagetable p) initcode;;
      upd_proc i (set_p_sz PGSIZE);;
      tf_set i TF_epc 0;;
      tf_set i TF_sp PGSIZE;;
      upd_proc i (λ p, set_p_name (safestrcpy (p_name p) (bytes_of "initcode") 16) p);;
      cwd ← namei [SLASH];
      upd_proc i (set_p_cwd cwd);;
      upd_proc i (set_p_state RUNNABLE);;
      release (LkProc i)
  end.
End process.
