(* ===== verification/ProcFork.v ===== *)
(** * fork(): a second process like the first

    The parent keeps its address space, its files and its registers; the child
    gets a copy of each, or fork() gives everything back and answers -1. The
    states in between differ from the one fork() started in by memory, the free
    list, the process table, the file table and the inode table: [at_ b m fr ps
    ft it] is the state [b] with those five replaced. *)

From Stdlib Require Import ZArith Lia.
From stdpp Require Import base numbers gmap strings countable tactics list.
From S2P Require Import Prelude Machine CString State Spinlock Kalloc Vm VmTheory VmMap VmUser VmAlloc VmLoops VmCopy Sched VmFree SchedTheory ProcMem Sleeplock Pipe Bio Log Fs Console File Process.

Definition at_ (b : kstate) (m : gmap Z Z) (fr : Z) (ps : list proc) (ft : list file) (it : list inode) : kstate :=
  set_itable it (set_ftable ft (set_procs ps (set_freelist fr (set_mem m b)))).

(** ** Address spaces under changes elsewhere *)
Section keep.
Context `{EnvOk}.

(** A space does not notice that pages left the free list or changed outside it. *)
Lemma space_keep s s' root T fl fl' D sz tf :
  proc_space s root T fl D sz tf → kmem_ok s' fl' → (∀ x, x ∈ fl' → x ∈ fl) →
  (∀ x, page_ok x → x ∉ fl → same_page x (mem s) (mem s')) →
  proc_space s' root T fl' D sz tf ∧ ∀ va, leaf (mem s') T va = leaf (mem s) T va.
Proof.
  intros [[Hu Hsz Hdom Htr Htf Htp Hon] Hfor] Hk Hsub Hsame. pose proof Hu as [(Hk0 & Hr & Hdis) Hvpn Hpg Hmap Hinj].
  assert (Ht : ∀ q, is_table T q → same_page q (mem s) (mem s')).
  { intros q Hq. apply Hsame; [destruct Hq; by eapply rep_ok|by apply Hdis]. }
  assert (Hl : ∀ va, leaf (mem s') T va = leaf (mem s) T va) by (intros; by eapply leaf_same_tables).
  assert (Hr' : pt_rep (mem s') root T).
  { destruct Hr as [Hroot Hok Hlen Hinj' Hent Hpre Hlow]. split; try done.
    intros path q i Hq Hlq Hi. rewrite (same_page_load64 q i (mem s)); [by apply Hent|done|]. apply Ht. by eexists. }
  split; [|done]. split.
  - split; [|done|done|by rewrite Hl..|done|intros va Hva; rewrite Hl; by apply Hon].
    split; [|done| |intros vpn q Hq; rewrite Hl; by apply Hmap|done].
    + split; [done|]. split; [done|]. intros q Hq Hin. by apply (Hdis q Hq), Hsub.
    + intros vpn q Hq. destruct (Hpg vpn q Hq) as (? & Hn & ?). split; [done|]. split; [|done].
      intros Hin. by apply Hn, Hsub.
  - destruct Hfor as (? & Hn & ? & ?). split; [done|]. split; [|done]. intros Hin. by apply Hn, Hsub.
Qed.

(** A write to a page of neither the space nor the free list. *)
Lemma space_write s m' root T fl D sz tf x :
  proc_space s root T fl D sz tf → foreign T fl D x → same_outside x (mem s) m' →
  proc_space (set_mem m' s) root T fl D sz tf.
Proof.
  intros Hsp (Hx & Hxf & Hxt & HxD) Hso. pose proof Hsp as [Hly Hfor].
  pose proof (pl_us _ _ _ _ _ _ _ Hly) as Hu. pose proof (us_vm _ _ _ _ _ Hu) as (_ & Hr & _).
  pose proof (uspace_write s m' root T fl D x Hu Hx Hxf Hxt Hso) as Hu'.
  assert (Hl : ∀ va, leaf m' T va = leaf (mem s) T va).
  { intros va. eapply leaf_same_tables; [exact Hr|]. intros q [path Hq].
    apply (same_outside_page x); [done|by eapply rep_ok| |done]. intros ->. apply Hxt. by eexists. }
  split; [|done]. destruct Hly as [_ Hsz Hdom Htr Htf Htp Hon].
  split; [done|done|done|cbn [mem set_mem]; by rewrite Hl..|done|].
  cbn [mem set_mem]. intros va. rewrite Hl. apply Hon.
Qed.

(** Only memory and the free list matter. *)
Lemma kmem_ok_at s s' fl : mem s' = mem s → freelist s' = freelist s → kmem_ok s fl → kmem_ok s' fl.
Proof. apply kmem_ok_same. Qed.

Lemma space_at s s' root T fl D sz tf : mem s' = mem s → freelist s' = freelist s →
  proc_space s root T fl D sz tf → proc_space s' root T fl D sz tf.
Proof.
  intros Hm Hf Hsp. apply (space_keep s s' root T fl fl D sz tf Hsp); [|done|by rewrite Hm].
  eapply kmem_ok_same; [done|done|]. apply Hsp.
Qed.
End keep.

Lemma get_proc_eq i s p : procs s !! i = Some p → get_proc i s = Ok p s.
Proof. intros Hp. unfold get_proc, gets. by rewrite (list_lookup_total_correct _ _ _ Hp). Qed.

(** ** The steps of fork() after the copy of memory *)
Section steps.
Variables (b : kstate).
Hypothesis Hcpu : cpu_ok (cpu b).

(** filedup() *)
Definition bump (f : nat) (ft : list file) : list file := alter (λ x, set_f_ref (f_ref x + 1) x) f ft.

Lemma filedup_at f x m fr ps ft it : locks b !! LkFtable = None → ft !! f = Some x → 1 ≤ f_ref x →
  filedup f (at_ b m fr ps ft it) = Ok f (at_ b m fr ps (bump f ft) it).
Proof.
  intros Hl Hf Hr. unfold filedup. set (s := at_ b m fr ps ft it).
  rewrite (bind_ok _ _ _ _ _ (acquire_eq LkFtable s Hl)). unfold get_file, upd_file. rewrite bind_gets.
  assert (Hft : ftable (hold LkFtable s) = ft) by reflexivity. rewrite Hft, (list_lookup_total_correct _ _ _ Hf).
  rewrite (proj2 (Z.ltb_ge _ _)) by lia. rewrite bind_modify.
  erewrite bind_ok; [|apply (release_eq LkFtable s); [exact Hcpu|exact Hl|reflexivity|reflexivity]]. unfold mret, M_ret. f_equal.
  rewrite Hft. unfold bump. rewrite !(list_alter_insert _ _ _ _ Hf). reflexivity.
Qed.

Lemma idup_at f m fr ps ft it : locks b !! LkItable = None →
  idup f (at_ b m fr ps ft it) = Ok f (at_ b m fr ps ft (alter (λ x, set_i_ref (i_ref x + 1) x) f it)).
Proof.
  intros Hl. unfold idup, upd_inode. set (s := at_ b m fr ps ft it).
  rewrite (bind_ok _ _ _ _ _ (acquire_eq LkItable s Hl)), bind_modify.
  erewrite bind_ok; [|apply (release_eq LkItable s); [exact Hcpu|exact Hl|reflexivity|reflexivity]]. reflexivity.
Qed.

Lemma upd_proc_at i f m fr ps ft it : upd_proc i f (at_ b m fr ps ft it) = Ok tt (at_ b m fr (alter f i ps) ft it).
Proof. reflexivity. Qed.

Lemma get_proc_at i m fr ps ft it p : ps !! i = Some p → get_proc i (at_ b m fr ps ft it) = Ok p (at_ b m fr ps ft it).
Proof. by intros Hp; apply get_proc_eq. Qed.

Lemma release_at lk m fr ps ft it : locks b !! lk = None →
  release lk (at_ (hold lk b) m fr ps ft it) = Ok tt (at_ b m fr ps ft it).
Proof. intros Hl. rewrite (release_eq lk b); [reflexivity|exact Hcpu|exact Hl|reflexivity|reflexivity]. Qed.

Lemma acquire_at lk m fr ps ft it : locks b !! lk = None →
  acquire lk (at_ b m fr ps ft it) = Ok tt (at_ (hold lk b) m fr ps ft it).
Proof. intros Hl. rewrite acquire_eq by done. reflexivity. Qed.
End steps.

(** ** The descriptors *)
Definition bumps (l : list (option nat)) (ft : list file) : list file :=
  foldl (λ ft o, match o with Some f => bump f ft | None => ft end) ft l.

(** How many descriptors of [l] are the file [f]. *)
Definition refs (f : nat) (l : list (option nat)) : Z := Z.of_nat (length (filter (λ o, o = Some f) l)).

Lemma bump_lookup f g ft : bump f ft !! g = (λ x, if decide (g = f) then set_f_ref (f_ref x + 1) x else x) <$> ft !! g.
Proof.
  unfold bump. destruct (decide (g = f)) as [->|Hne].
  - by rewrite list_lookup_alter_eq.
  - rewrite list_lookup_alter_ne by done. by destruct (ft !! g).
Qed.

Lemma bumps_lookup l : ∀ ft g, bumps l ft !! g = (λ x, set_f_ref (f_ref x + refs g l) x) <$> ft !! g.
Proof.
  assert (Hset : ∀ a b x, set_f_ref (f_ref (set_f_ref a x) + b) (set_f_ref a x) = set_f_ref (a + b) x) by done.
  induction l as [|[f|] l IH]; intros ft g; simpl.
  - unfold refs. simpl. destruct (ft !! g) as [x|]; [|done]. simpl. rewrite Z.add_0_r. by destruct x.
  - rewrite IH, bump_lookup. unfold refs. rewrite filter_cons. destruct (ft !! g) as [x|]; [|by destruct (decide (g = f))].
    destruct (decide (g = f)) as [->|Hne].
    + rewrite decide_True by done. unfold fmap, option_fmap, option_map. rewrite Hset. cbn [length]. do 2 f_equal. lia.
    + by rewrite decide_False by congruence.
  - rewrite IH. unfold refs. by rewrite filter_cons, decide_False.
Qed.

Lemma bumps_take_S l k ft o : l !! k = Some o →
  bumps (take (S k) l) ft = match o with Some f => bump f (bumps (take k l) ft) | None => bumps (take k l) ft end.
Proof. intros Hk. unfold bumps. by rewrite (take_S_r _ _ _ Hk), foldl_app. Qed.

(** The first [k] entries of [a], the others of [b]. *)
Definition mixed {A} (k : nat) (a b : list A) : list A := take k a ++ drop k b.

Lemma mixed_S {A} k (a b : list A) x : a !! k = Some x → (k < length b)%nat →
  <[k := x]> (mixed k a b) = mixed (S k) a b.
Proof.
  intros Ha Hb. unfold mixed. pose proof (lookup_lt_Some _ _ _ Ha).
  rewrite insert_app_r_alt by (rewrite length_take; lia).
  rewrite length_take, (take_S_r _ _ _ Ha), <- app_assoc. f_equal. replace (k - k `min` length a)%nat with 0%nat by lia.
  destruct (lookup_lt_is_Some_2 b k Hb) as [y Hy]. by rewrite (drop_S _ _ _ Hy).
Qed.

Lemma mixed_all {A} (a b : list A) : length a = length b → mixed (length a) a b = a.
Proof. intros Hl. unfold mixed. by rewrite firstn_all, Hl, drop_all, app_nil_r. Qed.

Section files.
Variables (b : kstate) (me i : nat) (p q : proc).
Hypothesis Hcpu : cpu_ok (cpu b).
Hypothesis Hlk : locks b !! LkFtable = None.
Hypothesis Hne : me ≠ i.
Hypothesis Hofp : length (p_ofile p) = NOFILE.
Hypothesis Hofq : p_ofile q = replicate NOFILE None.

Definition fork_file (k : nat) : M (option unit) :=
  p ← get_proc me;
  match p_ofile p !!! k with
  | Some f =>
      f' ← filedup f;
      upd_proc i (λ c, set_p_ofile (<[k := Some f']> (p_ofile c)) c);;
      mret None
  | None => mret None
  end.

Definition child_files (k : nat) : proc := set_p_ofile (mixed k (p_ofile p) (p_ofile q)) q.

Lemma fork_file_step k m fr ps ft it :
  (k < NOFILE)%nat → ps !! me = Some p → (i < length ps)%nat →
  (∀ f, Some f ∈ p_ofile p → ∃ x, ft !! f = Some x ∧ 1 ≤ f_ref x) →
  fork_file k (at_ b m fr (<[i := child_files k]> ps) (bumps (take k (p_ofile p)) ft) it) =
  Ok None (at_ b m fr (<[i := child_files (S k)]> ps) (bumps (take (S k) (p_ofile p)) ft) it).
Proof.
  intros Hk Hp Hi Href. destruct (lookup_lt_is_Some_2 (p_ofile p) k) as [o Ho]; [lia|].
  assert (Hq : (k < length (p_ofile q))%nat) by (rewrite Hofq, length_replicate; lia).
  rewrite (bumps_take_S _ _ _ _ Ho). unfold fork_file.
  rewrite (bind_ok _ _ _ _ _ (get_proc_at b me m fr _ _ it p ltac:(by rewrite list_lookup_insert_ne))).
  rewrite (list_lookup_total_correct _ _ _ Ho). destruct o as [f|].
  - destruct (Href f) as (x & Hx & Hr); [by eapply list_elem_of_lookup_2|].
    erewrite bind_ok; [|eapply (filedup_at b Hcpu f); [done|rewrite bumps_lookup, Hx; reflexivity|simpl; unfold refs; lia]].
    rewrite (bind_ok _ _ _ _ _ (upd_proc_at b i _ m fr _ _ it)). unfold mret, M_ret. do 2 f_equal.
    rewrite (list_alter_insert _ _ _ (child_files k)) by (by apply list_lookup_insert_eq). rewrite list_insert_insert_eq. f_equal.
    unfold child_files. simpl. by rewrite (mixed_S k _ _ _ Ho Hq).
  - unfold mret, M_ret. do 3 f_equal. unfold child_files. f_equal. rewrite <- (mixed_S k _ _ _ Ho Hq).
    symmetry. apply list_insert_id. unfold mixed. rewrite lookup_app_r by (rewrite length_take; lia).
    rewrite length_take, Hofq, lookup_drop, Hofp. apply lookup_replicate. split; [done|]. lia.
Qed.

Lemma fork_files m fr ps ft it :
  ps !! me = Some p → ps !! i = Some q →
  (∀ f, Some f ∈ p_ofile p → ∃ x, ft !! f = Some x ∧ 1 ≤ f_ref x) →
  for_each (seq 0 NOFILE) fork_file (at_ b m fr ps ft it) =
  Ok None (at_ b m fr (<[i := set_p_ofile (p_ofile p) q]> ps) (bumps (p_ofile p) ft) it).
Proof.
  intros Hp Hq Href. pose proof (lookup_lt_Some _ _ _ Hq) as Hi.
  assert (Hgen : ∀ n k, (k + n = NOFILE)%nat →
    for_each (seq k n) fork_file (at_ b m fr (<[i := child_files k]> ps) (bumps (take k (p_ofile p)) ft) it) =
    Ok None (at_ b m fr (<[i := child_files NOFILE]> ps) (bumps (take NOFILE (p_ofile p)) ft) it)).
  { induction n as [|n IH]; intros k Hk; cbn [seq for_each].
    - assert (k = NOFILE) as -> by lia. reflexivity.
    - rewrite (bind_ok _ _ _ _ _ (fork_file_step k m fr ps ft it ltac:(lia) Hp Hi Href)). apply IH. lia. }
  specialize (Hgen NOFILE 0%nat eq_refl).
  assert (H0 : child_files 0 = q) by (unfold child_files, mixed; rewrite drop_0; by destruct q).
  assert (H1 : child_files NOFILE = set_p_ofile (p_ofile p) q).
  { unfold child_files. f_equal. rewrite <- Hofp. apply mixed_all. by rewrite Hofp, Hofq, length_replicate. }
  rewrite H0, H1, list_insert_id, <- Hofp, firstn_all in Hgen by done. by rewrite <- Hofp.
Qed.
End files.

(** ** fork() from the copy of the descriptors on *)
Section rest.
Context `{Env}.
Variables (sn : kstate) (me i : nat) (p q : proc) (cw : nat).
Hypothesis Hcpu : cpu_ok (cpu sn).
Hypothesis Hlocks : locks sn !! LkProc i = None ∧ locks sn !! LkFtable = None ∧ locks sn !! LkItable = None ∧
  locks sn !! LkWait = None.
Hypothesis Hne : me ≠ i.
Hypothesis Hofp : length (p_ofile p) = NOFILE.
Hypothesis Hofq : p_ofile q = replicate NOFILE None.
Hypothesis Hcw : p_cwd p = Some cw.

Definition fork_rest : M Z :=
  for_each (seq 0 NOFILE) (fork_file me i);;
  cwd ← deref (p_cwd p);
  cwd ← idup cwd;
  upd_proc i (set_p_cwd (Some cwd));;
  upd_proc i (λ c, set_p_name (safestrcpy (p_name c) (p_name p) 16) c);;
  c ← get_proc i;
  let pid := p_pid c in
  release (LkProc i);;
  acquire LkWait;;
  upd_proc i (set_p_parent (Some me));;
  release LkWait;;
  acquire (LkProc i);;
  upd_proc i (set_p_state RUNNABLE);;
  release (LkProc i);;
  p ← get_proc me;
  upd_proc i (set_p_trace_mask (p_trace_mask p));;
  mret pid.

(** The child in the end. *)
Definition forked : proc :=
  set_p_trace_mask (p_trace_mask p) (set_p_state RUNNABLE (set_p_parent (Some me)
    (set_p_name (safestrcpy (p_name q) (p_name p) 16) (set_p_cwd (Some cw) (set_p_ofile (p_ofile p) q))))).

Lemma upd_child b c f m fr ps ft it : (i < length ps)%nat →
  upd_proc i f (at_ b m fr (<[i := c]> ps) ft it) = Ok tt (at_ b m fr (<[i := f c]> ps) ft it).
Proof.
  intros Hi. rewrite upd_proc_at. by rewrite (list_alter_insert _ _ _ c), list_insert_insert_eq by (by apply list_lookup_insert_eq).
Qed.

Lemma fork_rest_run m fr ps ft it :
  ps !! me = Some p → ps !! i = Some q →
  (∀ f, Some f ∈ p_ofile p → ∃ x, ft !! f = Some x ∧ 1 ≤ f_ref x) →
  fork_rest (at_ (hold (LkProc i) sn) m fr ps ft it) =
  Ok (p_pid q) (at_ sn m fr (<[i := forked]> ps) (bumps (p_ofile p) ft) (alter (λ x, set_i_ref (i_ref x + 1) x) cw it)).
Proof.
  intros Hp Hq Href. pose proof (lookup_lt_Some _ _ _ Hq) as Hi. destruct Hlocks as (Hl1 & Hl2 & Hl3 & Hl4).
  assert (Hc1 : cpu_ok (cpu (hold (LkProc i) sn))) by (by apply cpu_ok_pushed).
  assert (Hlk : ∀ lk, LkProc i ≠ lk → locks sn !! lk = None → locks (hold (LkProc i) sn) !! lk = None)
    by (intros lk Hn Hl; cbn [locks hold set_locks set_cpu]; by rewrite lookup_insert_ne).
  unfold fork_rest. rewrite (bind_ok _ _ _ _ _ (fork_files _ me i p q Hc1 (Hlk LkFtable ltac:(done) Hl2) Hne Hofp Hofq m fr ps ft it Hp Hq Href)).
  rewrite Hcw. unfold deref. rewrite bind_ret.
  rewrite (bind_ok _ _ _ _ _ (idup_at _ Hc1 cw m fr _ _ it (Hlk LkItable ltac:(done) Hl3))).
  rewrite (bind_ok _ _ _ _ _ (upd_child _ _ _ _ _ _ _ _ Hi)), (bind_ok _ _ _ _ _ (upd_child _ _ _ _ _ _ _ _ Hi)).
  erewrite bind_ok; [|apply get_proc_at; by apply list_lookup_insert_eq]. cbv zeta.
  rewrite (bind_ok _ _ _ _ _ (release_at sn Hcpu (LkProc i) _ _ _ _ _ Hl1)).
  rewrite (bind_ok _ _ _ _ _ (acquire_at sn LkWait _ _ _ _ _ Hl4)), (bind_ok _ _ _ _ _ (upd_child _ _ _ _ _ _ _ _ Hi)).
  rewrite (bind_ok _ _ _ _ _ (release_at sn Hcpu LkWait _ _ _ _ _ Hl4)).
  rewrite (bind_ok _ _ _ _ _ (acquire_at sn (LkProc i) _ _ _ _ _ Hl1)), (bind_ok _ _ _ _ _ (upd_child _ _ _ _ _ _ _ _ Hi)).
  rewrite (bind_ok _ _ _ _ _ (release_at sn Hcpu (LkProc i) _ _ _ _ _ Hl1)).
  erewrite bind_ok; [|apply get_proc_at; by rewrite list_lookup_insert_ne].
  rewrite (bind_ok _ _ _ _ _ (upd_child _ _ _ _ _ _ _ _ Hi)). reflexivity.
Qed.
End rest.

(** ** The whole of fork() *)

(** What the child's registers are: those of the parent, with a0 = 0. *)
Definition same_registers (m : gmap Z Z) (tf : Z) (m' : gmap Z Z) (tf' : Z) : Prop :=
  (∀ k, 0 ≤ k < Z.of_nat TF_SIZE → ¬ (TF_a0 ≤ k < TF_a0 + 8) → load8 m' (tf' + k) = load8 m (tf + k)) ∧
  load64 m' (tf' + TF_a0) = 0.

Section fork.
Context `{EnvOk}.
Variables (s : kstate) (fl : list Z) (me i : nat) (p c : proc) (T : gmap (list Z) Z) (D : gmap Z Z) (cw : nat).

(** What fork() relies on: the caller runs in slot [me], slot [i] is the first free
    one, and the locks fork() takes are free. *)
Record fork_ready : Prop := {
  fr_alloc : alloc_ready s fl;
  fr_me : c_proc (cpu s) = Some me;
  fr_locks : locks s !! LkFtable = None ∧ locks s !! LkItable = None ∧ locks s !! LkWait = None;
  fr_proc : procs s !! me = Some p ∧ p_state p ≠ UNUSED;
  fr_space : proc_space s (p_pagetable p) T fl D (p_sz p) (p_trapframe p);
  fr_files : length (p_ofile p) = NOFILE ∧ ∀ f, Some f ∈ p_ofile p → ∃ x, ftable s !! f = Some x ∧ 1 ≤ f_ref x;
  fr_cwd : p_cwd p = Some cw;
  fr_slot : procs s !! i = Some c ∧ p_state c = UNUSED ∧ p_ofile c = replicate NOFILE None;
  fr_first : ∀ j q, (j < i)%nat → procs s !! j = Some q → p_state q ≠ UNUSED;
}.

Let sn := set_nextpid (s32 (nextpid s + 1)) s.

(** The call failed: every page is back and the slot is free again. *)
Definition fork_failed (s' : kstate) : Prop :=
  ∃ c' fl', s' = at_ sn (mem s') (freelist s') (<[i := c']> (procs s)) (ftable s) (itable s) ∧
    (p_state c' = UNUSED ∧ p_pid c' = 0 ∧ p_pagetable c' = 0 ∧ p_trapframe c' = 0 ∧ p_sz c' = 0) ∧
    kmem_ok s' fl' ∧ fl' ≡ₚ fl ∧ ∀ x, page_ok x → x ∉ fl → same_page x (mem s) (mem s').

(** The call succeeded: the child is [q], with an address space [T'], [D'] of its
    own; the parent has what it had. *)
Record fork_done (q : proc) (T' : gmap (list Z) Z) (fl' : list Z) (D' : gmap Z Z) (s' : kstate) : Prop := {
  fd_state : s' = at_ sn (mem s') (freelist s') (<[i := q]> (procs s)) (bumps (p_ofile p) (ftable s))
    (alter (λ x, set_i_ref (i_ref x + 1) x) cw (itable s));
  fd_child : p_state q = RUNNABLE ∧ p_pid q = nextpid s ∧ p_parent q = Some me ∧ p_sz q = p_sz p ∧
    p_ofile q = p_ofile p ∧ p_cwd q = Some cw ∧ p_trace_mask q = p_trace_mask p;
  fd_space : proc_space s' (p_pagetable q) T' fl' D' (p_sz p) (p_trapframe q);
  fd_copy : ∀ vpn, 0 ≤ vpn < npg (p_sz p) → copied (mem s) T D (mem s') T' D' vpn;
  fd_regs : same_registers (mem s) (p_trapframe p) (mem s') (p_trapframe q);
  fd_parent : proc_space s' (p_pagetable p) T fl' D (p_sz p) (p_trapframe p) ∧
    (∀ va, leaf (mem s') T va = leaf (mem s) T va);
  fd_pages : p_trapframe q :: owned T' fl' D' ≡ₚ fl;
  fd_rest : ∀ x, page_ok x → x ∉ fl → same_page x (mem s) (mem s');
}.

(** The copy of memory, on the address spaces of two processes. *)
Lemma fork_copy s1 ro rn T1 fl1 sz tfo tfn :
  lock_free LkKmem s1 → proc_space s1 ro T fl1 D sz tfo → proc_space s1 rn T1 fl1 ∅ 0 tfn → apart T D T1 fl1 ∅ →
  ∃ r s2 T2 fl2 D2, uvmcopy ro rn sz s1 = Ok r s2 ∧ owned T2 fl2 D2 ≡ₚ owned T1 fl1 ∅ ∧
    aside (owned T1 fl1 ∅) s1 s2 ∧
    ((r = 0 ∧ proc_space s2 rn T2 fl2 D2 sz tfn ∧
      ∀ vpn, 0 ≤ vpn < npg sz → copied (mem s1) T D (mem s2) T2 D2 vpn) ∨
     (r = -1 ∧ D2 = ∅ ∧ proc_space s2 rn T2 fl2 ∅ 0 tfn)).
Proof.
  intros Hlk Hso Hsn Hap. pose proof Hso as [[Huo Hsz Hdom _ _ _ _] _]. pose proof Hsn as [[Hu _ Hdom0 _ _ _ Hon] _].
  pose proof top_pages as (E1 & E2 & _). pose proof (npg_top sz ltac:(lia)) as Ht. pose proof (npg_mono 0 sz ltac:(lia)) as Hz.
  change (npg 0) with 0 in Hz.
  destruct (uvmcopy_range ro rn sz s1 T D T1 fl1 ∅ Hlk Huo Hu Hap) as (r & s2 & T2 & fl2 & D2 & Hrun & Hx & _ & _ & Hp & Hc).
  - split; [lia|]. etrans; [apply Hsz|done].
  - unfold range. intros vpn Hv. apply Hdom. lia.
  - intros vpn Hv. unfold range in Hv. split; [done|]. apply dec_stable. intros Hval.
    destruct (vpn_va vpn ltac:(lia)) as [Hva Hvp]. apply Hon in Hval; [|done]. change (npg 0) with 0 in Hval. lia.
  - exists r, s2, T2, fl2, D2. split; [done|]. split; [by eapply urel_owned|]. split; [by eapply aside_urel|].
    destruct Hc as [[-> Hcp]|(-> & -> & Hun)]; [left|right]; (split; [done|]).
    + split; [|intros vpn Hv; apply Hcp; unfold range; lia].
      eapply space_urel; try done; [unfold range; lia| |unfold range; lia| |intros; unfold range; apply _].
      * intros vpn. destruct (decide (0 ≤ vpn < npg sz)) as [Hr|Hr].
        -- destruct (Hcp vpn) as (a & a' & _ & -> & _); [unfold range; lia|]. split; [done|by eexists].
        -- rewrite (ur_keep _ _ _ _ _ _ _ _ _ _ Hx), lookup_empty by (unfold range; lia). split; [by intros [? ?]|done].
      * intros vpn _. change (npg 0) with 0. lia.
    + split; [done|]. eapply space_urel; try done; [unfold range; lia| |intros; unfold range; apply _].
      intros vpn Hr. right. intros Hv. by apply Hv, Hun.
Qed.

(** A copy seen from the memory before and after. *)
Lemma copied_mono m0 m1 m2 m3 T2 fl2 D2 rn s2 vpn :
  mem s2 = m2 → uspace s2 rn T2 fl2 D2 → (∀ a, leaf m1 T a = leaf m0 T a) →
  (∀ y, D !! vpn = Some y → same_page y m0 m1) →
  (∀ y, is_table T2 y ∨ D2 !! vpn = Some y → same_page y m2 m3) →
  copied m1 T D m2 T2 D2 vpn → copied m0 T D m3 T2 D2 vpn.
Proof.
  intros <- Hu Hl Hp Hq (a & a' & Ha & Ha' & Hb & Hf). exists a, a'. split; [done|]. split; [done|]. split.
  - intros k Hk. rewrite (Hq a'), Hb, (Hp a) by (auto; lia). done.
  - rewrite <- Hl, <- Hf. f_equal. eapply leaf_same_tables; [apply Hu|]. intros y Hy. apply Hq. by left.
Qed.

Hypothesis Hrdy : fork_ready.

Lemma slot_ne : me ≠ i.
Proof.
  intros ->. destruct (fr_proc Hrdy) as [Hp Hs]. destruct (fr_slot Hrdy) as (Hc & Hu & _). congruence.
Qed.

Lemma inside_at q s1 : inside s i q s1 →
  s1 = at_ (hold (LkProc i) sn) (mem s1) (freelist s1) (<[i := q]> (procs s)) (ftable s) (itable s).
Proof. unfold inside. intros Hi. rewrite Hi at 1. reflexivity. Qed.

(** The pages of the parent are not on the free list. *)
Lemma parent_foreign y : owns T D y → page_ok y ∧ y ∉ fl.
Proof.
  pose proof (pl_us _ _ _ _ _ _ _ (proj1 (fr_space Hrdy))) as [(_ & Hr & Hdis) _ Hpg _ _].
  intros [Ht|[vpn Hv]].
  - split; [|by apply Hdis]. destruct Ht. by eapply rep_ok.
  - destruct (Hpg vpn y Hv) as (? & ? & _). done.
Qed.

Lemma kmem_lock_inside q s1 : inside s i q s1 → lock_free LkKmem s1.
Proof.
  intros ->. pose proof (fr_alloc Hrdy) as Har. split; [by apply cpu_ok_pushed, Har|].
  cbn [locks set_freelist set_mem set_procs hold set_locks set_cpu]. rewrite lookup_insert_ne by done. apply Har.
Qed.

(** Undoing allocproc() when the copy failed. *)
Lemma fork_undo s2 q T2 fl2 :
  inside s i q s2 → proc_space s2 (p_pagetable q) T2 fl2 ∅ (p_sz q) (p_trapframe q) →
  p_trapframe q :: owned T2 fl2 ∅ ≡ₚ fl → (∀ x, page_ok x → x ∉ fl → same_page x (mem s) (mem s2)) →
  ∃ s', (freeproc i;; release (LkProc i);; mret (-1)) s2 = Ok (-1) s' ∧ fork_failed s'.
Proof.
  intros Hi Hsp Hfl Hsame. pose proof (fr_alloc Hrdy) as Har. destruct (fr_slot Hrdy) as (Hc & _).
  destruct (inside_procs s i c Hc q s2 Hi) as (Hps & Hq & _).
  destruct (freeproc_spec i s2 q T2 fl2 ∅ Hq (kmem_lock_inside q s2 Hi) Hsp) as (s3 & fl3 & Hrun & Hk & Hp3 & Hps3 & Hf3 & Hs3).
  assert (Ha3 : s3 = at_ (hold (LkProc i) sn) (mem s3) (freelist s3) (<[i := cleared q]> (procs s)) (ftable s) (itable s)).
  { rewrite Hf3, Hps3, Hps, (list_alter_insert _ _ _ q), list_insert_insert_eq by (by rewrite <- Hps).
    rewrite (inside_at q s2 Hi). reflexivity. }
  exists (unhold s s3). split.
  { rewrite (bind_ok _ _ _ _ _ Hrun). erewrite bind_ok; [reflexivity|].
    apply (release_eq (LkProc i) s); [apply Har|apply Har|rewrite Ha3; reflexivity|rewrite Ha3; reflexivity]. }
  exists (cleared q), fl3. split; [rewrite Ha3; reflexivity|]. split; [done|].
  split; [by eapply kmem_ok_same|]. split; [by rewrite Hp3|]. intros x Hx Hn. cbn [mem unhold set_locks set_cpu].
  eapply same_page_trans; [by apply Hsame|]. apply Hs3; [done|]. by rewrite Hfl.
Qed.

(** The trapframe of the child, written by fork(). *)
Definition child_mem (m : gmap Z Z) (tf : Z) : gmap Z Z :=
  store64 (memmove m tf (p_trapframe p) TF_SIZE) (tf + TF_a0) 0.

Lemma child_mem_outside m tf : same_outside tf m (child_mem m tf).
Proof.
  unfold child_mem. eapply same_outside_trans; [|apply same_outside_store64; unfold TF_a0, PGSIZE; lia].
  intros a Ha. rewrite load8_memmove. rewrite decide_False; [done|]. change (Z.of_nat TF_SIZE) with 288. unfold PGSIZE in Ha. lia.
Qed.

Lemma child_registers m tf : page_ok tf → same_page (p_trapframe p) (mem s) m → same_registers (mem s) (p_trapframe p) (child_mem m tf) tf.
Proof.
  intros Hok Hs. apply page_ok_bounds in Hok. unfold child_mem. split.
  - intros k Hk Hn. rewrite load8_store64_ne by lia. rewrite load8_memmove, decide_True by lia.
    replace (p_trapframe p + (tf + k - tf)) with (p_trapframe p + k) by lia. apply Hs.
    change (Z.of_nat TF_SIZE) with 288 in Hk. unfold PGSIZE. lia.
  - by rewrite load64_store64.
Qed.

Lemma fork_writes tf q s2 : inside s i q s2 → p_trapframe q = tf →
  (upd_proc i (set_p_sz (p_sz p));;
   modify (λ s, set_mem (memmove (mem s) tf (p_trapframe p) TF_SIZE) s);;
   tf_set i TF_a0 0;; fork_rest me i p) s2 =
  fork_rest me i p (at_ (hold (LkProc i) sn) (child_mem (mem s2) tf) (freelist s2)
    (<[i := set_p_sz (p_sz p) q]> (procs s)) (ftable s) (itable s)).
Proof.
  intros Hi Htf. destruct (fr_slot Hrdy) as (Hc & _). pose proof (lookup_lt_Some _ _ _ Hc) as Hlt.
  rewrite (inside_at q s2 Hi) at 1. rewrite (bind_ok _ _ _ _ _ (upd_child i _ _ _ _ _ _ _ _ Hlt)), bind_modify.
  unfold tf_set. set (q' := set_p_sz (p_sz p) q).
  assert (Hg : get_proc i (at_ (hold (LkProc i) sn) (memmove (mem s2) tf (p_trapframe p) TF_SIZE) (freelist s2)
    (<[i := q']> (procs s)) (ftable s) (itable s)) = Ok q' _) by (apply get_proc_at; by apply list_lookup_insert_eq).
  assert (Ht : p_trapframe q' = tf) by done.
  erewrite bind_ok; [|erewrite bind_ok; [|exact Hg]; rewrite Ht; reflexivity]. reflexivity.
Qed.

Section success.
Variables (tf pt : Z) (s1 s2 : kstate) (T1 T2 : gmap (list Z) Z) (fl1 fl2 : list Z) (D2 : gmap Z Z).
Let q1 := handed (nextpid s) tf pt c.
Hypothesis Hi1 : inside s i q1 s1.
Hypothesis Hp1 : tf :: owned T1 fl1 ∅ ≡ₚ fl.
Hypothesis Hsame1 : ∀ x, page_ok x → x ∉ fl → same_page x (mem s) (mem s1).
Hypothesis Hl1 : ∀ va, leaf (mem s1) T va = leaf (mem s) T va.
Hypothesis Hown : owned T2 fl2 D2 ≡ₚ owned T1 fl1 ∅.
Hypothesis Has : aside (owned T1 fl1 ∅) s1 s2.
Hypothesis Hsp2 : proc_space s2 pt T2 fl2 D2 (p_sz p) tf.
Hypothesis Hcp : ∀ vpn, 0 ≤ vpn < npg (p_sz p) → copied (mem s1) T D (mem s2) T2 D2 vpn.

Let q2 := set_p_sz (p_sz p) q1.
Let q3 := forked me p q2 cw.
Let s3 := at_ sn (child_mem (mem s2) tf) (freelist s2) (<[i := q3]> (procs s)) (bumps (p_ofile p) (ftable s))
  (alter (λ x, set_i_ref (i_ref x + 1) x) cw (itable s)).

Lemma success_state : mem s3 = child_mem (mem s2) tf ∧ freelist s3 = freelist s2.
Proof. done. Qed.

Lemma success_child : proc_space s3 pt T2 fl2 D2 (p_sz p) tf.
Proof.
  eapply (space_at (set_mem (child_mem (mem s2) tf) s2)); [done|done|].
  eapply space_write; [done|apply Hsp2|apply child_mem_outside].
Qed.

Lemma success_same x : page_ok x → x ∉ fl → same_page x (mem s) (mem s3).
Proof.
  intros Hx Hn. pose proof (proj1 (proj2 Hsp2)) as Htf. rewrite <- Hp1, not_elem_of_cons in Hn. destruct Hn as [Hxt Hxo].
  eapply same_page_trans; [apply Hsame1; [done|by rewrite <- Hp1, not_elem_of_cons]|].
  eapply same_page_trans; [by apply (proj2 Has)|].
  apply (same_outside_page tf); [done|done|congruence|apply child_mem_outside].
Qed.

Lemma success_copy vpn : 0 ≤ vpn < npg (p_sz p) → copied (mem s) T D (mem s3) T2 D2 vpn.
Proof.
  intros Hv. pose proof Hsp2 as [[Hu _ _ _ _ _ _] Hfor]. pose proof Hu as [(_ & Hr & _) _ Hpg _ _].
  eapply (copied_mono (mem s) (mem s1) (mem s2) (mem s3)); [done|exact Hu|exact Hl1| | |by apply Hcp].
  - intros y Hy. apply Hsame1; apply parent_foreign; right; by eexists.
  - intros y Hy. assert (page_ok y ∧ y ≠ tf) as [Hok Hne].
    { destruct Hy as [Ht|Hy].
      - split; [destruct Ht; by eapply rep_ok|]. intros ->. by apply Hfor.
      - split; [by eapply Hpg|]. intros ->. by eapply Hfor. }
    apply (same_outside_page tf); [apply Hfor|done|congruence|apply child_mem_outside].
Qed.

Lemma success_run : uvmcopy (p_pagetable p) pt (p_sz p) s1 = Ok 0 s2 → allocproc s = Ok (Some i) s1 → fork s = Ok (nextpid s) s3.
Proof.
  intros Hcopy Halloc. pose proof (fr_alloc Hrdy) as Har. destruct (fr_slot Hrdy) as (Hc & _ & Hofc).
  destruct (fr_proc Hrdy) as [Hp _]. destruct (fr_files Hrdy) as [Hofp Href]. pose proof slot_ne as Hne.
  unfold fork. rewrite (bind_ok _ _ _ _ _ (cur_eq s me (ar_cpu _ _ Har) (fr_me Hrdy))), (bind_ok _ _ _ _ _ Halloc).
  destruct (inside_procs s i c Hc q1 s1 Hi1) as (Hps1 & Hq1 & _).
  assert (Hpm : procs s1 !! me = Some p) by (by rewrite Hps1, list_lookup_insert_ne).
  rewrite (bind_ok _ _ _ _ _ (get_proc_eq _ _ _ Hpm)), (bind_ok _ _ _ _ _ (get_proc_eq _ _ _ Hq1)).
  change (p_pagetable q1) with pt. change (p_trapframe q1) with tf.
  rewrite (bind_ok _ _ _ _ _ Hcopy). cbn [Z.ltb Z.compare].
  pose proof (inside_mframe s i q1 s1 s2 Hi1 (proj1 Has)) as Hi2.
  etrans; [exact (fork_writes tf q1 s2 Hi2 eq_refl)|].
  destruct (fr_locks Hrdy) as (Hl1' & Hl2' & Hl3').
  etrans; [apply (fork_rest_run sn me i p q2 cw); [apply Har| |done|done|done|apply Hrdy| | |done]|].
  - split; [apply Har|done].
  - by rewrite list_lookup_insert_ne.
  - apply list_lookup_insert_eq. by eapply lookup_lt_Some.
  - unfold s3. by rewrite list_insert_insert_eq.
Qed.

Lemma success_done : fork_done q3 T2 fl2 D2 s3.
Proof.
  pose proof success_child as Hch. pose proof (fr_space Hrdy) as Hsp. pose proof (proj2 Hsp) as Hforp.
  split; [done|done|exact Hch|apply success_copy| | | |apply success_same].
  - apply child_registers; [apply Hsp2|]. pose proof (proj1 (proj2 Hforp)) as Hn.
    eapply same_page_trans; [apply Hsame1; [apply Hforp|done]|]. apply (proj2 Has); [apply Hforp|].
    intros Hin. apply Hn. rewrite <- Hp1. by right.
  - apply (space_keep s s3 _ _ fl fl2); [done|apply Hch| |apply success_same].
    intros x Hx. rewrite <- Hp1, <- Hown. right. apply elem_of_owned. by left.
  - change (p_trapframe q3) with tf. by rewrite Hown.
Qed.
End success.

Lemma fork_spec : ∃ r s', fork s = Ok r s' ∧
  ((r = -1 ∧ fork_failed s') ∨ (r = nextpid s ∧ ∃ q T' fl' D', fork_done q T' fl' D' s')).
Proof.
  pose proof (fr_alloc Hrdy) as Har. destruct (fr_slot Hrdy) as (Hc & Hun & _). destruct (fr_proc Hrdy) as [Hp _].
  destruct (allocproc_spec s fl i c Har Hc Hun (fr_first Hrdy)) as (r & s1 & Hrun & Hsame & Hd).
  destruct r as [j|].
  - destruct Hd as (-> & tf & pt & T1 & fl1 & Hi1 & Hsp1 & Hp1).
    assert (Hsub : ∀ x, x ∈ owned T1 fl1 ∅ → x ∈ fl) by (intros x Hx; rewrite <- Hp1; by right).
    destruct (space_keep s s1 _ T fl fl1 D _ _ (fr_space Hrdy)) as [Hpar Hl1];
      [apply Hsp1|intros x Hx; apply Hsub, elem_of_owned; by left|done|].
    destruct (fork_copy s1 (p_pagetable p) pt T1 fl1 (p_sz p) (p_trapframe p) tf) as (r & s2 & T2 & fl2 & D2 & Hcopy & Hown & Has & Hout);
      [by eapply kmem_lock_inside|done|done| |].
    { intros y Hy. destruct (parent_foreign y Hy). apply foreign_owned. auto. }
    destruct Hout as [(-> & Hsp2 & Hcp)|(-> & -> & Hsp2)].
    + eexists (nextpid s), _. split; [by eapply success_run|]. right. split; [done|].
      eexists _, _, _, _. by eapply success_done.
    + destruct (ar_blank _ _ Har i c Hc Hun) as [_ Hsz0].
      destruct (fork_undo s2 (handed (nextpid s) tf pt c) T2 fl2) as (s' & Hrun' & Hf).
      * eapply inside_mframe; [done|apply Has].
      * change (p_sz (handed (nextpid s) tf pt c)) with (p_sz c). by rewrite Hsz0.
      * change (p_trapframe (handed (nextpid s) tf pt c)) with tf. by rewrite Hown.
      * intros x Hx Hn. eapply same_page_trans; [by apply Hsame|]. apply (proj2 Has); [done|]. auto.
      * exists (-1), s'. split; [|by left]. unfold fork.
        rewrite (bind_ok _ _ _ _ _ (cur_eq s me (ar_cpu _ _ Har) (fr_me Hrdy))), (bind_ok _ _ _ _ _ Hrun).
        destruct (inside_procs s i c Hc _ s1 Hi1) as (Hps1 & Hq1 & _).
        assert (Hpm : procs s1 !! me = Some p) by (rewrite Hps1, list_lookup_insert_ne; [done|]; apply not_eq_sym, slot_ne).
        rewrite (bind_ok _ _ _ _ _ (get_proc_eq _ _ _ Hpm)), (bind_ok _ _ _ _ _ (get_proc_eq _ _ _ Hq1)).
        rewrite (bind_ok _ _ _ _ _ Hcopy). exact Hrun'.
  - destruct Hd as (Ho & fl' & Hk & Hfl). exists (-1), s1. split.
    + unfold fork. by rewrite (bind_ok _ _ _ _ _ (cur_eq s me (ar_cpu _ _ Har) (fr_me Hrdy))), (bind_ok _ _ _ _ _ Hrun).
    + left. split; [done|]. exists (cleared c), fl'. split; [rewrite Ho at 1; reflexivity|]. done.
Qed.
End fork.
