(* ===== verification/Exec.v ===== *)
(** * kernel/exec.c: loading a program

    The arguments are byte strings with their terminators. [bad] carries what
    the label needs: the new page table, its size, and the inode if it is still
    locked. *)

From Stdlib Require Import ZArith Lia.
From stdpp Require Import base numbers gmap strings countable tactics list.
From S2P Require Import Prelude Machine CString State Spinlock Kalloc Vm Sched Sleeplock Pipe Bio Log Fs Console File Process.

(** kernel/elf.h *)
Definition ELF_MAGIC : Z := 0x464C457F.
Definition ELF_PROG_LOAD : Z := 1.
Definition ELFHDR_SIZE : Z := 64.
Definition PROGHDR_SIZE : Z := 56.

Definition ldq (data : list Z) (off : Z) : Z := le_value (slice data off 8).

(** The fields of struct elfhdr and struct proghdr that exec() reads. *)
Definition elf_magic (e : list Z) : Z := ldw e 0.
Definition elf_entry (e : list Z) : Z := ldq e 24.
Definition elf_phoff (e : list Z) : Z := ldq e 32.
Definition elf_phnum (e : list Z) : Z := ldh e 56.
Definition ph_type (p : list Z) : Z := ldw p 0.
Definition ph_off (p : list Z) : Z := ldq p 8.
Definition ph_vaddr (p : list Z) : Z := ldq p 16.
Definition ph_filesz (p : list Z) : Z := ldq p 32.
Definition ph_memsz (p : list Z) : Z := ldq p 40.

Section exec.
Context `{Env}.

(** loadseg() has [uint] arguments offset and sz. *)
Definition loadseg (pagetable va : Z) (ip : nat) (offset sz : Z) : M Z :=
  r ← for_each ((λ k, k * PGSIZE) <$> seqZ 0 ((sz + PGSIZE - 1) / PGSIZE)) (λ i,
    pa ← walkaddr pagetable (u64 (va + i));
    if pa =? 0 then panic "loadseg: address should exist"
    else
      let n := if sz - i <? PGSIZE then sz - i else PGSIZE in
      r ← readi ip (Kern pa) (u32 (offset + i)) n;
      if negb (r.1 =? n) then mret (Some (-1)) else mret None);
  mret (match r with Some e => e | None => 0 end).

Definition exec_bad (pagetable sz : Z) (ip : option nat) : M Z :=
  when (negb (pagetable =? 0)) (proc_freepagetable pagetable sz);;
  match ip with
  | Some i => iunlockput i;; end_op
  | None => mret tt
  end;;
  mret (-1).

(** One program header: [inl sz] is the new size, [inr sz] a jump to bad with
    that size. *)
Definition load_ph (pagetable : Z) (ip : nat) (off sz : Z) : M (Z + Z) :=
  r ← readi ip (Local []) (u32 off) PROGHDR_SIZE;
  let '(code, ph) := r in
  if negb (code =? PROGHDR_SIZE) then mret (inr sz)
  else if negb (ph_type ph =? ELF_PROG_LOAD) then mret (inl sz)
  else if ph_memsz ph <? ph_filesz ph then mret (inr sz)
  else if u64 (ph_vaddr ph + ph_memsz ph) <? ph_vaddr ph then mret (inr sz)
  else
    sz1 ← uvmalloc pagetable sz (u64 (ph_vaddr ph + ph_memsz ph));
    if sz1 =? 0 then mret (inr sz)
    else if negb (ph_vaddr ph mod PGSIZE =? 0) then mret (inr sz1)
    else
      r ← loadseg pagetable (ph_vaddr ph) ip (u32 (ph_off ph)) (u32 (ph_filesz ph));
      if r <? 0 then mret (inr sz1) else mret (inl sz1).

Fixpoint load_phs (pagetable : Z) (ip : nat) (n : nat) (off sz : Z) : M (Z + Z) :=
  match n with
  | O => mret (inl sz)
  | S n =>
      r ← load_ph pagetable ip off sz;
      match r with
      | inl sz => load_phs pagetable ip n (s32 (off + PROGHDR_SIZE)) sz
      | inr sz => mret (inr sz)
      end
  end.

(** Pushing the argument strings: the new sp and ustack[], or [None] for bad. *)
Fixpoint push_args (pagetable stackbase : Z) (argv : list (list Z)) (sp : Z) (ustack : list Z) :
    M (option (Z * list Z)) :=
  match argv with
  | [] => mret (Some (sp, ustack))
  | a :: argv =>
      if (MAXARG <=? length ustack)%nat then mret None
      else
        let sp := u64 (sp - (strlen a + 1)) in
        let sp := sp - sp mod 16 in
        if sp <? stackbase then mret None
        else
          r ← copyout pagetable sp (take (Z.to_nat (strlen a + 1)) a);
          if r <? 0 then mret None
          else push_args pagetable stackbase argv sp (ustack ++ [sp])
  end.

(** The part of [path] after its last slash. *)
Fixpoint last_elem (s last : list Z) : list Z :=
  match s with
  | [] => last
  | c :: s' => if c =? 0 then last else if c =? SLASH then last_elem s' s' else last_elem s' last
  end.

(** The user image is complete: the stack and the commit of exec(). *)
Definition exec_finish (me : nat) (path : list Z) (argv : list (list Z)) (entry pagetable sz : Z) : M Z :=
  p ← get_proc me;
  let oldsz := p_sz p in
  let sz := PGROUNDUP sz in
  sz1 ← uvmalloc pagetable sz (u64 (sz + 2 * PGSIZE));
  if sz1 =? 0 then exec_bad pagetable sz None
  else
    let sz := sz1 in
    uvmclear pagetable (u64 (sz - 2 * PGSIZE));;
    let stackbase := sz - PGSIZE in
    r ← push_args pagetable stackbase argv sz [];
    match r with
    | None => exec_bad pagetable sz None
    | Some (sp, ustack) =>
        let argc := Z.of_nat (length ustack) in
        let sp := u64 (sp - (argc + 1) * 8) in
        let sp := sp - sp mod 16 in
        if sp <? stackbase then exec_bad pagetable sz None
        else
          r ← copyout pagetable sp (concat (le_bytes 8 <$> ustack ++ [0]));
          if r <? 0 then exec_bad pagetable sz None
          else
            tf_set me TF_a1 sp;;
            upd_proc me (λ p, set_p_name (safestrcpy (p_name p) (last_elem path path) 16) p);;
            p ← get_proc me;
            let oldpagetable := p_pagetable p in
            upd_proc me (λ p, set_p_sz sz (set_p_pagetable pagetable p));;
            tf_set me TF_epc entry;;
            tf_set me TF_sp sp;;
            proc_freepagetable oldpagetable oldsz;;
            mret argc
    end.

Definition exec (path : list Z) (argv : list (list Z)) : M Z :=
  me ← cur;
  begin_op;;
  r ← namei path;
  match r with
  | None => end_op;; mret (-1)
  | Some ip =>
      ilock ip;;
      r ← readi ip (Local []) 0 ELFHDR_SIZE;
      let '(code, elf) := r in
      if negb (code =? ELFHDR_SIZE) then exec_bad 0 0 (Some ip)
      else if negb (elf_magic elf =? ELF_MAGIC) then exec_bad 0 0 (Some ip)
      else
        pagetable ← proc_pagetable me;
        if pagetable =? 0 then exec_bad 0 0 (Some ip)
        else
          r ← load_phs pagetable ip (Z.to_nat (elf_phnum elf)) (s32 (elf_phoff elf)) 0;
          match r with
          | inr sz => exec_bad pagetable sz (Some ip)
          | inl sz =>
              iunlockput ip;;
              end_op;;
              exec_finish me path argv (elf_entry elf) pagetable sz
          end
  end.
End exec.
