(* ===== verification/Sysfile.v ===== *)
(** * kernel/syscall.c (arguments), kernel/sysfile.c: the file system calls

    A fetched string comes back with the return value; it is the content of the
    caller's buffer up to and including the terminator. *)

From Stdlib Require Import ZArith Lia.
From stdpp Require Import base numbers gmap strings countable tactics list.
From S2P Require Import Prelude Machine CString State Spinlock Kalloc Vm Sched Sleeplock Pipe Bio Log Fs Console File Process Exec.

Section sysfile.
Context `{Env}.

(** ** kernel/syscall.c: fetching arguments *)
Definition fetchaddr (addr : Z) : M (Z * Z) :=
  me ← cur;
  p ← get_proc me;
  if (p_sz p <=? addr) || (p_sz p <? u64 (addr + 8)) then mret (-1, 0)
  else
    r ← copyin (p_pagetable p) addr 8;
    if negb (r.1 =? 0) then mret (-1, 0) else mret (0, le_value r.2).

Definition fetchstr (addr max : Z) : M (Z * list Z) :=
  me ← cur;
  p ← get_proc me;
  r ← copyinstr (p_pagetable p) addr max;
  if r.1 <? 0 then mret r else mret (strlen r.2, r.2).

Definition argraw (n : Z) : M Z :=
  me ← cur;
  if (0 <=? n) && (n <=? 5) then tf_get me (TF_a0 + 8 * n)
  else panic "argraw".

Definition argint (n : Z) : M Z := x ← argraw n; mret (s32 x).
Definition argaddr (n : Z) : M Z := argraw n.

Definition argstr (n max : Z) : M (Z * list Z) :=
  addr ← argaddr n;
  fetchstr addr max.

(** ** kernel/sysfile.c *)
Definition argfd (n : Z) : M (option (Z * nat)) :=
  fd ← argint n;
  me ← cur;
  p ← get_proc me;
  if (fd <? 0) || (Z.of_nat NOFILE <=? fd) then mret None
  else
    match p_ofile p !!! Z.to_nat fd with
    | Some f => mret (Some (fd, f))
    | None => mret None
    end.

Definition fdalloc (f : nat) : M Z :=
  me ← cur;
  r ← for_each (seq 0 NOFILE) (λ fd,
    p ← get_proc me;
    match p_ofile p !!! fd with
    | None => upd_proc me (λ p, set_p_ofile (<[fd := Some f]> (p_ofile p)) p);; mret (Some (Z.of_nat fd))
    | Some _ => mret None
    end);
  mret (match r with Some fd => fd | None => -1 end).

Definition sys_dup : M Z :=
  r ← argfd 0;
  match r with
  | None => mret (-1)
  | Some (_, f) =>
      fd ← fdalloc f;
      if fd <? 0 then mret (-1)
      else filedup f;; mret fd
  end.

Definition sys_read : M Z :=
  r ← argfd 0;
  match r with
  | None => mret (-1)
  | Some (_, f) =>
      n ← argint 2;
      p ← argaddr 1;
      fileread f p n
  end.

Definition sys_write : M Z :=
  r ← argfd 0;
  match r with
  | None => mret (-1)
  | Some (_, f) =>
      n ← argint 2;
      p ← argaddr 1;
      filewrite f p n
  end.

Definition sys_close : M Z :=
  r ← argfd 0;
  match r with
  | None => mret (-1)
  | Some (fd, f) =>
      me ← cur;
      upd_proc me (λ p, set_p_ofile (<[Z.to_nat fd := None]> (p_ofile p)) p);;
      fileclose f;;
      mret 0
  end.

Definition sys_fstat (pad : list Z) : M Z :=
  r ← argfd 0;
  match r with
  | None => mret (-1)
  | Some (_, f) =>
      st ← argaddr 1;
      filestat f st pad
  end.

Definition sys_link : M Z :=
  o ← argstr 0 MAXPATH;
  if o.1 <? 0 then mret (-1)
  else
    n ← argstr 1 MAXPATH;
    if n.1 <? 0 then mret (-1)
    else
      begin_op;;
      r ← namei o.2;
      match r with
      | None => end_op;; mret (-1)
      | Some ip =>
          ilock ip;;
          i ← get_inode ip;
          if i_type i =? T_DIR then
            iunlockput ip;;
            end_op;;
            mret (-1)
          else
            upd_inode ip (λ i, set_i_nlink (s16 (i_nlink i + 1)) i);;
            iupdate ip;;
            iunlock ip;;
            r ← nameiparent n.2 (replicate 14 0);
            let '(dp, name) := r in
            linked ←
              match dp with
              | None => mret false
              | Some dp =>
                  ilock dp;;
                  d ← get_inode dp;
                  i ← get_inode ip;
                  if negb (i_dev d =? i_dev i) then iunlockput dp;; mret false
                  else
                    r ← dirlink dp name (i_inum i);
                    iunlockput dp;;
                    mret (negb (r <? 0))
              end;
            if linked : bool then
              iput ip;;
              end_op;;
              mret 0
            else
              ilock ip;;
              upd_inode ip (λ i, set_i_nlink (s16 (i_nlink i - 1)) i);;
              iupdate ip;;
              iunlockput ip;;
              end_op;;
              mret (-1)
      end.

(** The offsets after the entries for dot and dot-dot. *)
Definition isdirempty (dp : nat) : M bool :=
  d ← get_inode dp;
  r ← for_each (drop 2 (dir_offs (i_size d))) (λ off,
    r ← readi dp (Local []) off DIRENT_SIZE;
    let '(code, de) := r in
    if negb (code =? DIRENT_SIZE) then panic "isdirempty: readi"
    else if negb (de_inum de =? 0) then mret (Some tt)
    else mret None);
  mret (match r with Some _ => false | None => true end).

Definition DOT : list Z := [46; 0].
Definition DOTDOT : list Z := [46; 46; 0].

(** The body of sys_unlink() once the name is found in the locked [dp]. *)
Definition unlink_entry (dp ip : nat) (off : Z) : M Z :=
  ilock ip;;
  i ← get_inode ip;
  if i_nlink i <? 1 then panic "unlink: nlink < 1"
  else
    busy ← (if i_type i =? T_DIR then e ← isdirempty ip; mret (negb e) else mret false);
    if busy : bool then
      iunlockput ip;;
      iunlockput dp;;
      end_op;;
      mret (-1)
    else
      w ← writei dp (Local (replicate 16 0)) off DIRENT_SIZE;
      if negb (w =? DIRENT_SIZE) then panic "unlink: writei"
      else
        when (i_type i =? T_DIR)
          (upd_inode dp (λ d, set_i_nlink (s16 (i_nlink d - 1)) d);;
           iupdate dp);;
        iunlockput dp;;
        upd_inode ip (λ i, set_i_nlink (s16 (i_nlink i - 1)) i);;
        iupdate ip;;
        iunlockput ip;;
        end_op;;
        mret 0.

Definition sys_unlink : M Z :=
  a ← argstr 0 MAXPATH;
  if a.1 <? 0 then mret (-1)
  else
    begin_op;;
    r ← nameiparent a.2 (replicate 14 0);
    let '(dp, name) := r in
    match dp with
    | None => end_op;; mret (-1)
    | Some dp =>
        ilock dp;;
        let bad := iunlockput dp;; end_op;; mret (-1) in
        if (namecmp name DOT =? 0) || (namecmp name DOTDOT =? 0) then bad
        else
          r ← dirlookup dp name;
          match r with
          | None => bad
          | Some (ip, off) => unlink_entry dp ip off
          end
    end.

Definition create (path : list Z) (type major minor : Z) : M (option nat) :=
  r ← nameiparent path (replicate 14 0);
  let '(dp, name) := r in
  match dp with
  | None => mret None
  | Some dp =>
      ilock dp;;
      r ← dirlookup dp name;
      match r with
      | Some (ip, _) =>
          iunlockput dp;;
          ilock ip;;
          i ← get_inode ip;
          if (type =? T_FILE) && ((i_type i =? T_FILE) || (i_type i =? T_DEVICE)) then mret (Some ip)
          else iunlockput ip;; mret None
      | None =>
          d ← get_inode dp;
          ip ← ialloc (i_dev d) type;
          ilock ip;;
          upd_inode ip (λ i, set_i_nlink 1 (set_i_minor minor (set_i_major major i)));;
          iupdate ip;;
          i ← get_inode ip;
          when (type =? T_DIR)
            (upd_inode dp (λ d, set_i_nlink (s16 (i_nlink d + 1)) d);;
             iupdate dp;;
             r1 ← dirlink ip DOT (i_inum i);
             if r1 <? 0 then panic "create dots"
             else
               d ← get_inode dp;
               r2 ← dirlink ip DOTDOT (i_inum d);
               if r2 <? 0 then panic "create dots" else mret tt);;
          r ← dirlink dp name (i_inum i);
          if r <? 0 then panic "create: dirlink"
          else
            iunlockput dp;;
            mret (Some ip)
      end
  end.

(** The part of sys_open() that has the inode [ip] locked. *)
Definition open_inode (ip : nat) (omode : Z) : M Z :=
  let fail := iunlockput ip;; end_op;; mret (-1) in
  i ← get_inode ip;
  if (i_type i =? T_DEVICE) && ((i_major i <? 0) || (NDEV <=? i_major i)) then fail
  else
    f ← filealloc;
    match f with
    | None => fail
    | Some f =>
        fd ← fdalloc f;
        if fd <? 0 then fileclose f;; fail
        else
          (if i_type i =? T_DEVICE then upd_file f (λ x, set_f_major (i_major i) (set_f_type FD_DEVICE x))
           else upd_file f (λ x, set_f_off 0 (set_f_type FD_INODE x)));;
          upd_file f (λ x,
            set_f_writable (negb (Z.land omode O_WRONLY =? 0) || negb (Z.land omode O_RDWR =? 0))
              (set_f_readable (Z.land omode O_WRONLY =? 0) (set_f_ip (Some ip) x)));;
          when (negb (Z.land omode O_TRUNC =? 0) && (i_type i =? T_FILE)) (itrunc ip);;
          iunlock ip;;
          end_op;;
          mret fd
    end.

Definition sys_open : M Z :=
  a ← argstr 0 MAXPATH;
  if a.1 <? 0 then mret (-1)
  else
    omode ← argint 1;
    begin_op;;
    if negb (Z.land omode O_CREATE =? 0) then
      r ← create a.2 T_FILE 0 0;
      match r with
      | None => end_op;; mret (-1)
      | Some ip => open_inode ip omode
      end
    else
      r ← namei a.2;
      match r with
      | None => end_op;; mret (-1)
      | Some ip =>
          ilock ip;;
          i ← get_inode ip;
          if (i_type i =? T_DIR) && negb (omode =? O_RDONLY) then
            iunlockput ip;;
            end_op;;
            mret (-1)
          else open_inode ip omode
      end.

Definition sys_mkdir : M Z :=
  begin_op;;
  a ← argstr 0 MAXPATH;
  if a.1 <? 0 then end_op;; mret (-1)
  else
    r ← create a.2 T_DIR 0 0;
    match r with
    | None => end_op;; mret (-1)
    | Some ip => iunlockput ip;; end_op;; mret 0
    end.

Definition sys_mknod : M Z :=
  begin_op;;
  a ← argstr 0 MAXPATH;
  if a.1 <? 0 then end_op;; mret (-1)
  else
    major ← argint 1;
    minor ← argint 2;
    r ← create a.2 T_DEVICE (s16 major) (s16 minor);
    match r with
    | None => end_op;; mret (-1)
    | Some ip => iunlockput ip;; end_op;; mret 0
    end.

Definition sys_chdir : M Z :=
  me ← cur;
  begin_op;;
  a ← argstr 0 MAXPATH;
  if a.1 <? 0 then end_op;; mret (-1)
  else
    r ← namei a.2;
    match r with
    | None => end_op;; mret (-1)
    | Some ip =>
        ilock ip;;
        i ← get_inode ip;
        if negb (i_type i =? T_DIR) then
          iunlockput ip;;
          end_op;;
          mret (-1)
        else
          iunlock ip;;
          p ← get_proc me;
          cwd ← deref (p_cwd p);
          iput cwd;;
          end_op;;
          upd_proc me (set_p_cwd (Some ip));;
          mret 0
    end.

(** The loop of sys_exec(): the pages argv[0..] and the strings in them;
    [false] is a jump to bad. *)
Definition fetch_arg (uargv : Z) (x : list Z * list (list Z)) :
    M ((list Z * list (list Z)) + (bool * list Z * list (list Z))) :=
  let '(pages, strs) := x in
  let i := Z.of_nat (length pages) in
  if (MAXARG <=? length pages)%nat then mret (inr (false, pages, strs))
  else
    r ← fetchaddr (u64 (uargv + 8 * i));
    if r.1 <? 0 then mret (inr (false, pages, strs))
    else if r.2 =? 0 then mret (inr (true, pages, strs))
    else
      pg ← kalloc;
      if pg =? 0 then mret (inr (false, pages, strs))
      else
        s ← fetchstr r.2 PGSIZE;
        modify (λ st, set_mem (write_bytes (mem st) pg s.2) st);;
        if s.1 <? 0 then mret (inr (false, pages ++ [pg], strs))
        else mret (inl (pages ++ [pg], strs ++ [s.2])).

Definition sys_exec : M Z :=
  a ← argstr 0 MAXPATH;
  if a.1 <? 0 then mret (-1)
  else
    uargv ← argaddr 1;
    r ← loop (S (S MAXARG)) (fetch_arg uargv) ([], []);
    let '(ok, pages, strs) := r in
    ret ← (if ok : bool then exec a.2 strs else mret (-1));
    for_each pages (λ pg, kfree pg;; mret (None : option unit));;
    mret ret.

Definition sys_pipe : M Z :=
  me ← cur;
  fdarray ← argaddr 0;
  r ← pipealloc;
  match r with
  | None => mret (-1)
  | Some (rf, wf) =>
      let clear fd := upd_proc me (λ p, set_p_ofile (<[Z.to_nat fd := None]> (p_ofile p)) p) in
      let close := fileclose rf;; fileclose wf;; mret (-1) in
      fd0 ← fdalloc rf;
      if fd0 <? 0 then close
      else
        fd1 ← fdalloc wf;
        if fd1 <? 0 then clear fd0;; close
        else
          p ← get_proc me;
          r0 ← copyout (p_pagetable p) fdarray (le_bytes 4 fd0);
          r1 ← (if r0 <? 0 then mret r0
                else copyout (p_pagetable p) (u64 (fdarray + 4)) (le_bytes 4 fd1));
          if r1 <? 0 then
            clear fd0;;
            clear fd1;;
            close
          else mret 0
  end.
End sysfile.
