(* ===== verification/Syscall.v ===== *)
(** * kernel/syscall.c, kernel/sysproc.c: the system call table *)

From Stdlib Require Import ZArith Lia.
From stdpp Require Import base numbers gmap strings countable tactics list.
From S2P Require Import Prelude Machine CString State Spinlock Kalloc Vm Sched Sleeplock Pipe Bio Log Fs Console File Process Exec Sysfile.

Section sysproc.
Context `{Env}.

(** ** kernel/sysproc.c *)
Definition sys_exit : M Z :=
  n ← argint 0;
  exit n;;
  mret 0.

Definition sys_getpid : M Z :=
  me ← cur;
  p ← get_proc me;
  mret (p_pid p).

Definition sys_fork : M Z := fork.

Definition sys_wait : M Z :=
  p ← argaddr 0;
  wait p.

Definition sys_sbrk : M Z :=
  n ← argint 0;
  me ← cur;
  p ← get_proc me;
  let addr := s32 (p_sz p) in
  r ← growproc n;
  if r <? 0 then mret (-1) else mret addr.

(** [ticks - ticks0 < n] compares as unsigned. *)
Definition sys_sleep : M Z :=
  n ← argint 0;
  acquire LkTicks;;
  ticks0 ← gets ticks;
  loop fuel (λ _ : unit,
    t ← gets ticks;
    if u32 (t - ticks0) <? u32 n then
      me ← cur;
      p ← get_proc me;
      if p_killed p then
        release LkTicks;;
        mret (inr (-1))
      else
        sleep ChTicks LkTicks;;
        mret (inl tt)
    else
      release LkTicks;;
      mret (inr 0)) tt.

Definition sys_kill : M Z :=
  pid ← argint 0;
  kill pid.

Definition sys_uptime : M Z :=
  acquire LkTicks;;
  xticks ← gets ticks;
  release LkTicks;;
  mret xticks.

Definition sys_trace : M Z :=
  n ← argint 0;
  me ← cur;
  upd_proc me (set_p_trace_mask n);;
  mret 0.

(** kernel/sysinfo.h: freemem, nproc *)
Definition sys_sysinfo : M Z :=
  addr ← argaddr 0;
  nproc ← procnum;
  free ← freemem;
  me ← cur;
  p ← get_proc me;
  r ← copyout (p_pagetable p) addr (le_bytes 8 free ++ le_bytes 8 (u64 nproc));
  if r <? 0 then mret (-1) else mret 0.

(** ** kernel/syscall.c *)

(** syscalls[]; [pad] is the padding inside fstat()'s struct stat. *)
Definition syscalls (pad : list Z) (num : Z) : option (M Z) :=
  match num with
  | 1 => Some sys_fork | 2 => Some sys_exit | 3 => Some sys_wait | 4 => Some sys_pipe
  | 5 => Some sys_read | 6 => Some sys_kill | 7 => Some sys_exec | 8 => Some (sys_fstat pad)
  | 9 => Some sys_chdir | 10 => Some sys_dup | 11 => Some sys_getpid | 12 => Some sys_sbrk
  | 13 => Some sys_sleep | 14 => Some sys_uptime | 15 => Some sys_open | 16 => Some sys_write
  | 17 => Some sys_mknod | 18 => Some sys_unlink | 19 => Some sys_link | 20 => Some sys_mkdir
  | 21 => Some sys_close | 22 => Some sys_trace | 23 => Some sys_sysinfo
  | _ => None
  end.

Definition sysname (num : Z) : string :=
  match num with
  | 1 => "fork" | 2 => "exit" | 3 => "wait" | 4 => "pipe" | 5 => "read" | 6 => "kill"
  | 7 => "exec" | 8 => "fstat" | 9 => "chdir" | 10 => "dup" | 11 => "getpid" | 12 => "sbrk"
  | 13 => "sleep" | 14 => "uptime" | 15 => "open" | 16 => "write" | 17 => "mknod"
  | 18 => "unlink" | 19 => "link" | 20 => "mkdir" | 21 => "close" | 22 => "trace"
  | 23 => "sysinfo" | _ => EmptyString
  end.

Definition syscall (pad : list Z) : M unit :=
  me ← cur;
  a7 ← tf_get me TF_a7;
  let num := s32 a7 in
  match syscalls pad num with
  | Some f =>
      r ← f;
      tf_set me TF_a0 (u64 r);;
      p ← get_proc me;
      when (negb (Z.land (p_trace_mask p) (s32 (Z.shiftl 1 num)) =? 0))
        (a0 ← tf_get me TF_a0;
         printf ("%d: syscall %s -> %d" +:+ newline)
           [PInt (p_pid p); PStr (bytes_of (sysname num)); PInt a0])
  | None =>
      p ← get_proc me;
      printf ("%d %s: unknown sys call %d" +:+ newline) [PInt (p_pid p); PStr (p_name p); PInt num];;
      tf_set me TF_a0 (u64 (-1))
  end.
End sysproc.
