(* ===== verification/SysTheory.v ===== *)
(** * What the kernel prints, and the system calls trace() and sysinfo()

    printf() sends its text to the serial port character by character, and its
    numbers are the usual decimal numbers; syscall() runs the handler of a
    number and reports it when the process asked for it. *)

From Stdlib Require Import ZArith Lia.
From stdpp Require Import base numbers gmap strings countable tactics list pretty.
From S2P Require Import Prelude Machine CString State Spinlock Kalloc Vm VmTheory VmUser VmAccess Sched SchedTheory Console Process Sysfile Syscall.

(** The serial port has sent [cs] more. *)
Definition says (cs : list Z) (idle : list bool) (s : kstate) : kstate :=
  set_uart (set_uart_idle idle (set_uart_out (uart_out (uart s) ++ cs) (uart s))) s.

Lemma says_says cs1 cs2 i1 i2 s : says cs2 i2 (says cs1 i1 s) = says (cs1 ++ cs2) i2 s.
Proof. unfold says. simpl. by rewrite (assoc_L (++)). Qed.

Lemma says_nil s : says [] (uart_idle (uart s)) s = s.
Proof. unfold says. rewrite app_nil_r. by destruct s as [? ? ? ? ? ? ? ? ? ? ? ? ? ? ? ? ? ? ? ? []]. Qed.

Section says.
Context `{Env}.

Lemma bind_tx_idle {A B} (f : bool → M A) (g : A → M B) s : ((b ← tx_idle; f b) ≫= g) s =
  (f (hd true (uart_idle (uart s))) ≫= g) (set_uart (set_uart_idle (tail (uart_idle (uart s))) (uart s)) s).
Proof. reflexivity. Qed.

(** The loop that waits for the device ends. *)
Lemma spin_says (idle : list bool) : ∀ s, uart_idle (uart s) = idle →
  ∃ idle', loop (S (length idle)) (λ _ : unit, b ← tx_idle; mret (if (b : bool) then inr tt else inl tt)) tt s =
    Ok tt (set_uart (set_uart_idle idle' (uart s)) s).
Proof.
  induction idle as [|b idle IH]; intros s Hs; cbn [loop length].
  - exists []. rewrite bind_tx_idle, Hs. reflexivity.
  - rewrite bind_tx_idle, Hs. destruct b; simpl; [by exists idle|].
    by destruct (IH (set_uart (set_uart_idle idle (uart s)) s) eq_refl) as (idle' & He); exists idle'.
Qed.

Lemma uartputc_sync_says c s : cpu_ok (cpu s) → ∃ idle, uartputc_sync c s = Ok tt (says [u8 c] idle s).
Proof.
  intros Hc. unfold uartputc_sync. rewrite (bind_ok _ _ _ _ _ (push_off_eq s)). unfold get_uart at 1. mstep.
  destruct (spin_says (uart_idle (uart (set_cpu (pushed (cpu s)) s))) (set_cpu (pushed (cpu s)) s) eq_refl) as (idle & He).
  rewrite (bind_ok _ _ _ _ _ He). unfold thr, upd_uart. mstep. exists idle.
  rewrite (pop_off_eq (cpu s)) by done. by destruct s.
Qed.

Lemma consputc_says c s : cpu_ok (cpu s) → c ≠ BACKSPACE → ∃ idle, consputc c s = Ok tt (says [u8 c] idle s).
Proof. intros Hc Hb. unfold consputc. rewrite (proj2 (Z.eqb_neq _ _) Hb). by apply uartputc_sync_says. Qed.

Lemma put_all_says cs s : cpu_ok (cpu s) → Forall (λ c, c ≠ BACKSPACE) cs → ∃ idle, put_all cs s = Ok tt (says (u8 <$> cs) idle s).
Proof.
  intros Hc Hf. assert (Hl : ∃ idle, for_each cs (λ c, consputc c;; mret (None : option unit)) s = Ok None (says (u8 <$> cs) idle s)).
  { revert s Hc. induction Hf as [|c cs Hb _ IH]; intros s Hc; [exists (uart_idle (uart s)); simpl; by rewrite says_nil|].
    destruct (consputc_says c s Hc Hb) as (i1 & H1). destruct (IH (says [u8 c] i1 s) Hc) as (i2 & H2). exists i2.
    cbn [for_each]. erewrite bind_ok by (rewrite (bind_ok _ _ _ _ _ H1); done). simpl. rewrite H2. by rewrite says_says. }
  destruct Hl as (idle & Hl). exists idle. unfold put_all. by rewrite (bind_ok _ _ _ _ _ Hl).
Qed.

Lemma printf_says fmt args s : cpu_ok (cpu s) → locks s !! LkPr = None → Forall (λ c, c ≠ BACKSPACE) (format (bytes_of fmt) args) →
  ∃ idle, Console.printf fmt args s = Ok tt (says (u8 <$> format (bytes_of fmt) args) idle s).
Proof.
  intros Hc Hl Hf. unfold Console.printf. mstep. destruct (pr_locking s) eqn:Hpl; rewrite bind_when.
  - rewrite (bind_ok _ _ _ _ _ (acquire_eq _ _ Hl)).
    destruct (put_all_says (format (bytes_of fmt) args) (hold LkPr s) ltac:(by apply cpu_ok_pushed) Hf) as (idle & He).
    exists idle. rewrite (bind_ok _ _ _ _ _ He). unfold when. rewrite (release_eq LkPr s) by done. by destruct s.
  - destruct (put_all_says _ s Hc Hf) as (idle & He). exists idle. by rewrite (bind_ok _ _ _ _ _ He).
Qed.
End says.

(** ** Decimal numbers *)
Lemma bytes_of_app a b : bytes_of (a +:+ b) = bytes_of a ++ bytes_of b.
Proof.
  unfold bytes_of. induction a as [|c a IH]; [done|]. simpl. f_equal. exact IH.
Qed.

Lemma bytes_of_range a : Forall (λ c, 0 ≤ c < 256) (bytes_of a).
Proof.
  unfold bytes_of. apply Forall_fmap, Forall_true. intros c. simpl. pose proof (Ascii.N_ascii_bounded c). lia.
Qed.

Lemma digit_char_pretty x : 0 ≤ x < 10 → nthZ Console.digits x = Z.of_N (Ascii.N_of_ascii (pretty_N_char (Z.to_N x))).
Proof.
  intros Hx. assert (Hd : x = 0 ∨ x = 1 ∨ x = 2 ∨ x = 3 ∨ x = 4 ∨ x = 5 ∨ x = 6 ∨ x = 7 ∨ x = 8 ∨ x = 9) by lia.
  repeat destruct Hd as [-> | Hd]; try (vm_compute; reflexivity). subst x. vm_compute. reflexivity.
Qed.

Lemma digit_loop_pretty n x str : 0 < x < 10 ^ Z.of_nat n →
  bytes_of (pretty_N_go (Z.to_N x) str) = reverse (Console.digit_loop n x 10) ++ bytes_of str.
Proof.
  revert x str. induction n as [|n IH]; intros x str Hx; [simpl in Hx; lia|].
  rewrite Nat2Z.inj_succ, Z.pow_succ_r in Hx by lia. rewrite pretty_N_go_step by lia. simpl Console.digit_loop.
  change 10%N with (Z.to_N 10). rewrite <- Z2N.inj_div, <- Z2N.inj_mod by lia. rewrite reverse_cons.
  destruct (Z.eqb_spec (x / 10) 0) as [H0|H0].
  - rewrite H0. simpl. rewrite pretty_N_go_0. unfold bytes_of. simpl. f_equal. symmetry. apply digit_char_pretty.
    pose proof (Z.mod_pos_bound x 10). lia.
  - rewrite IH by (Z.div_mod_to_equations; lia). rewrite <- (assoc_L (++)). f_equal. unfold bytes_of. simpl. f_equal. symmetry.
    apply digit_char_pretty. pose proof (Z.mod_pos_bound x 10). lia.
Qed.

(** printint() prints 32-bit numbers in decimal. *)
Lemma printint_pretty x : - 2 ^ 31 ≤ x < 2 ^ 31 → Console.printint x 10 true = bytes_of (pretty x).
Proof.
  intros Hx. unfold Console.printint. cbn [andb].
  assert (Hgo : ∀ y, 0 < y ≤ 2 ^ 31 → bytes_of (pretty (Z.to_N y)) = reverse (Console.digit_loop 32 y 10)).
  { intros y Hy. unfold pretty, pretty_N. rewrite decide_False by lia. rewrite (digit_loop_pretty 32) by (change (10 ^ Z.of_nat 32) with (10 ^ 32); lia).
    apply app_nil_r. }
  destruct x as [|p|p].
  - vm_compute. reflexivity.
  - change (Z.pos p <? 0) with false. cbv iota. rewrite app_nil_r, u32_small by lia. symmetry. apply (Hgo (Zpos p)). lia.
  - change (Z.neg p <? 0) with true. cbv iota. change (- Z.neg p) with (Z.pos p). rewrite u32_small by lia. rewrite reverse_app.
    rewrite <- (Hgo (Z.pos p)) by lia. reflexivity.
Qed.

(** ** syscall() *)
Definition trace_line (pid num r : Z) : string :=
  pretty pid +:+ ": syscall " +:+ sysname num +:+ " -> " +:+ pretty (s32 r) +:+ newline.

Definition unknown_line (pid : Z) (name : list Z) (num : Z) : list Z :=
  bytes_of (pretty pid) ++ bytes_of " " ++ c_str name ++ bytes_of ": unknown sys call " ++ bytes_of (pretty num) ++ bytes_of newline.

Lemma s32_range z : - 2 ^ 31 ≤ s32 z < 2 ^ 31.
Proof. unfold s32. pow2. Z.div_mod_to_equations. lia. Qed.

Lemma s32_u64 z : s32 (u64 z) = s32 z.
Proof.
  unfold s32, u64. f_equal. rewrite <- Zplus_mod_idemp_l, <- (Zplus_mod_idemp_l z). do 2 f_equal. symmetry.
  apply Znumtheory.Zmod_div_mod; [done|done|]. exists (2 ^ 32). reflexivity.
Qed.

Lemma sysname_str num : c_str (bytes_of (sysname num)) = bytes_of (sysname num).
Proof. unfold sysname. repeat case_match; reflexivity. Qed.

Lemma trace_format pid num r : - 2 ^ 31 ≤ pid < 2 ^ 31 →
  format (bytes_of ("%d: syscall %s -> %d" +:+ newline)) [PInt pid; PStr (bytes_of (sysname num)); PInt (u64 r)] = bytes_of (trace_line pid num r).
Proof.
  intros Hp. transitivity (Console.printint (s32 pid) 10 true ++ bytes_of ": syscall " ++ c_str (bytes_of (sysname num)) ++ bytes_of " -> " ++
    Console.printint (s32 (u64 r)) 10 true ++ bytes_of newline); [reflexivity|].
  unfold trace_line. rewrite !bytes_of_app. rewrite <- !printint_pretty by (done || apply s32_range).
  by rewrite s32_u64, sysname_str, (s32_small pid).
Qed.

Lemma bytes_no_backspace cs : Forall (λ c, 0 ≤ c < 256) cs → Forall (λ c, c ≠ BACKSPACE) cs ∧ u8 <$> cs = cs.
Proof.
  intros Hf. split; [eapply Forall_impl; [exact Hf|]; intros c Hc; simpl in *; unfold BACKSPACE; lia|].
  induction Hf as [|c cs Hc _ IH]; [done|]. rewrite fmap_cons, IH. f_equal. apply u8_small. pow2. lia.
Qed.

(** The bit of the mask that stands for a number of the table. *)
Lemma mask_bit mask num : 0 < num < 24 → negb (Z.land mask (s32 (Z.shiftl 1 num)) =? 0) = Z.testbit mask num.
Proof.
  intros Hn. rewrite Z.shiftl_mul_pow2, Z.mul_1_l by lia.
  assert (Hp : 2 ^ num < 2 ^ 31) by (apply Z.pow_lt_mono_r; lia). assert (0 < 2 ^ num) by (apply Z.pow_pos_nonneg; lia).
  rewrite s32_small by lia. destruct (Z.testbit mask num) eqn:Hb.
  - apply negb_true_iff, Z.eqb_neq. intros H0.
    assert (Ht : Z.testbit (Z.land mask (2 ^ num)) num = true) by (rewrite Z.land_spec, Hb, Z.pow2_bits_true by lia; done).
    rewrite H0, Z.bits_0 in Ht. done.
  - apply negb_false_iff, Z.eqb_eq. apply Z.bits_inj'. intros k Hk. rewrite Z.land_spec, Z.bits_0.
    destruct (decide (k = num)) as [->|Hne]; [by rewrite Hb|]. rewrite Z.pow2_bits_false by done. apply andb_false_r.
Qed.

Lemma syscalls_range `{Env} pad num f : syscalls pad num = Some f → 0 < num < 24.
Proof. intros Hs. destruct num as [|p|p]; try done. do 5 (destruct p as [p|p|]; try done; try lia). Qed.

Section syscall.
Context `{Env}.

Definition sys_done (r : Z) (p : proc) (s : kstate) : kstate := set_mem (store64 (mem s) (p_trapframe p + TF_a0) (u64 r)) s.

Lemma tf_get_eq s i p off : procs s !! i = Some p → tf_get i off s = Ok (load64 (mem s) (p_trapframe p + off)) s.
Proof. intros Hp. unfold tf_get, ld64. mrun. by rewrite (list_lookup_total_correct _ _ _ Hp). Qed.

Lemma tf_set_eq s i p off v : procs s !! i = Some p → tf_set i off v s = Ok tt (set_mem (store64 (mem s) (p_trapframe p + off) v) s).
Proof. intros Hp. unfold tf_set, st64. mrun. by rewrite (list_lookup_total_correct _ _ _ Hp). Qed.

Lemma syscall_known pad s i p f num r s1 p1 : cpu_ok (cpu s) → c_proc (cpu s) = Some i → procs s !! i = Some p →
  num = s32 (load64 (mem s) (p_trapframe p + TF_a7)) → syscalls pad num = Some f → f s = Ok r s1 →
  procs s1 !! i = Some p1 → cpu_ok (cpu s1) → locks s1 !! LkPr = None → - 2 ^ 31 ≤ p_pid p1 < 2 ^ 31 →
  ∃ idle, syscall pad s = Ok tt (says (if Z.testbit (p_trace_mask p1) num then bytes_of (trace_line (p_pid p1) num r) else []) idle (sys_done r p1 s1)).
Proof.
  intros Hc Hi Hp -> Hf Hrun Hp1 Hc1 Hl Hpid. pose proof (syscalls_range _ _ _ Hf) as Hn. unfold syscall.
  rewrite (bind_ok _ _ _ _ _ (cur_eq s i Hc Hi)), (bind_ok _ _ _ _ _ (tf_get_eq s i p _ Hp)). set (num := s32 _) in *. rewrite Hf.
  rewrite (bind_ok _ _ _ _ _ Hrun), (bind_ok _ _ _ _ _ (tf_set_eq s1 i p1 _ _ Hp1)). fold (sys_done r p1 s1).
  unfold get_proc. mstep. change (procs (sys_done r p1 s1)) with (procs s1). rewrite (list_lookup_total_correct _ _ _ Hp1).
  rewrite mask_bit by done. destruct (Z.testbit (p_trace_mask p1) num); cbn [when]; [|exists (uart_idle (uart (sys_done r p1 s1))); by rewrite says_nil].
  rewrite (bind_ok _ _ _ _ _ (tf_get_eq (sys_done r p1 s1) i p1 _ Hp1)). cbn [sys_done mem set_mem]. rewrite load64_store64 by apply u64_range.
  destruct (bytes_no_backspace _ (bytes_of_range (trace_line (p_pid p1) num r))) as [Hb Hu].
  destruct (printf_says ("%d: syscall %s -> %d" +:+ newline) [PInt (p_pid p1); PStr (bytes_of (sysname num)); PInt (u64 r)] (sys_done r p1 s1)) as (idle & He);
    [done|done|by rewrite trace_format|]. rewrite trace_format, Hu in He by done. by exists idle.
Qed.

Lemma unknown_format pid name num : - 2 ^ 31 ≤ pid < 2 ^ 31 → - 2 ^ 31 ≤ num < 2 ^ 31 →
  format (bytes_of ("%d %s: unknown sys call %d" +:+ newline)) [PInt pid; PStr name; PInt num] = unknown_line pid name num.
Proof.
  intros Hp Hn. transitivity (Console.printint (s32 pid) 10 true ++ bytes_of " " ++ c_str name ++ bytes_of ": unknown sys call " ++
    Console.printint (s32 num) 10 true ++ bytes_of newline); [reflexivity|].
  unfold unknown_line. rewrite <- !printint_pretty by done. by rewrite !s32_small.
Qed.

Lemma c_str_bytes l : Forall (λ c, 0 ≤ c < 256) l → Forall (λ c, 0 ≤ c < 256) (c_str l).
Proof. induction 1 as [|c l Hc _ IH]; simpl; [constructor|]. destruct (c =? 0); by constructor. Qed.

Lemma syscall_unknown pad s i p num : cpu_ok (cpu s) → c_proc (cpu s) = Some i → procs s !! i = Some p →
  num = s32 (load64 (mem s) (p_trapframe p + TF_a7)) → syscalls pad num = None →
  locks s !! LkPr = None → - 2 ^ 31 ≤ p_pid p < 2 ^ 31 → Forall (λ c, 0 ≤ c < 256) (p_name p) →
  ∃ idle, syscall pad s = Ok tt (says (unknown_line (p_pid p) (p_name p) num) idle (sys_done (-1) p s)).
Proof.
  intros Hc Hi Hp Hnum Hf Hl Hpid Hname. unfold syscall.
  rewrite (bind_ok _ _ _ _ _ (cur_eq s i Hc Hi)), (bind_ok _ _ _ _ _ (tf_get_eq s i p _ Hp)), <- Hnum. rewrite Hf.
  unfold get_proc. mstep. rewrite (list_lookup_total_correct _ _ _ Hp).
  assert (Hr : - 2 ^ 31 ≤ num < 2 ^ 31) by (rewrite Hnum; apply s32_range).
  assert (Hbytes : Forall (λ c, 0 ≤ c < 256) (unknown_line (p_pid p) (p_name p) num)).
  { unfold unknown_line. repeat apply Forall_app_2; try apply bytes_of_range. by apply c_str_bytes. }
  destruct (bytes_no_backspace _ Hbytes) as [Hb Hu].
  destruct (printf_says ("%d %s: unknown sys call %d" +:+ newline) [PInt (p_pid p); PStr (p_name p); PInt num] s) as (idle & He);
    [done|done|by rewrite unknown_format|]. rewrite unknown_format, Hu in He by done.
  exists idle. rewrite (bind_ok _ _ _ _ _ He). exact (tf_set_eq (says _ idle s) i p _ _ Hp).
Qed.

(** ** trace() and sysinfo() *)
Lemma argraw_eq s i p n : cpu_ok (cpu s) → c_proc (cpu s) = Some i → procs s !! i = Some p → 0 ≤ n ≤ 5 →
  argraw n s = Ok (load64 (mem s) (p_trapframe p + (TF_a0 + 8 * n))) s.
Proof.
  intros Hc Hi Hp Hn. unfold argraw. rewrite (bind_ok _ _ _ _ _ (cur_eq s i Hc Hi)).
  rewrite (proj2 (Z.leb_le 0 n)), (proj2 (Z.leb_le n 5)) by lia. by apply tf_get_eq.
Qed.

Lemma sys_trace_eq s i p : cpu_ok (cpu s) → c_proc (cpu s) = Some i → procs s !! i = Some p →
  sys_trace s = Ok 0 (set_procs (<[i := set_p_trace_mask (s32 (load64 (mem s) (p_trapframe p + TF_a0))) p]> (procs s)) s).
Proof.
  intros Hc Hi Hp. unfold sys_trace, argint. erewrite bind_ok by (erewrite bind_ok by (apply (argraw_eq s i p); (done || lia)); done).
  rewrite (bind_ok _ _ _ _ _ (cur_eq s i Hc Hi)). unfold upd_proc. mstep. replace (TF_a0 + 8 * 0) with TF_a0 by lia.
  unfold mret, M_ret. do 2 f_equal. by apply list_alter_insert.
Qed.

(** What sysinfo() writes. *)
Definition sysinfo_bytes (s : kstate) (fl : list Z) : list Z :=
  le_bytes 8 (PGSIZE * Z.of_nat (length fl)) ++ le_bytes 8 (Z.of_nat (length (filter (λ p, p_state p ≠ UNUSED) (procs s)))).
End syscall.

Lemma sys_sysinfo_eq `{EnvOk} s i p T fl D l1 l2 : let addr := load64 (mem s) (p_trapframe p + TF_a0) in
  cpu_ok (cpu s) → c_proc (cpu s) = Some i → procs s !! i = Some p → length (procs s) = NPROC →
  uspace s (p_pagetable p) T fl D → sysinfo_bytes s fl = l1 ++ l2 → 0 ≤ addr < 2 ^ 64 →
  (∀ k, 0 ≤ k < Z.of_nat (length l1) → acc (mem s) T D (addr + k)) → (l2 = [] ∨ fault (mem s) T (addr + Z.of_nat (length l1))) →
  ∃ m', sys_sysinfo s = Ok (if decide (l2 = []) then 0 else -1) (set_mem m' s) ∧
    uspace (set_mem m' s) (p_pagetable p) T fl D ∧ (∀ va, leaf m' T va = leaf (mem s) T va) ∧ uwritten D addr l1 (mem s) m'.
Proof.
  intros addr Hc Hi Hp Hlen Hu Hb Ha Hacc Hf. unfold sys_sysinfo, argaddr.
  rewrite (bind_ok _ _ _ _ _ (argraw_eq s i p 0 Hc Hi Hp ltac:(lia))). rewrite (bind_ok _ _ _ _ _ (procnum_eq s Hlen)).
  rewrite (bind_ok _ _ _ _ _ (freemem_eq s fl (proj1 (us_vm _ _ _ _ _ Hu)))). rewrite (bind_ok _ _ _ _ _ (cur_eq s i Hc Hi)).
  unfold get_proc. mstep. rewrite (list_lookup_total_correct _ _ _ Hp). replace (TF_a0 + 8 * 0) with TF_a0 by lia. fold addr.
  assert (Hsmall : u64 (Z.of_nat (length (filter (λ p, p_state p ≠ UNUSED) (procs s)))) = Z.of_nat (length (filter (λ p, p_state p ≠ UNUSED) (procs s)))).
  { apply u64_small. pose proof (length_filter (λ p, p_state p ≠ UNUSED) (procs s)) as Hle. rewrite Hlen in Hle. unfold NPROC in Hle. pow2. lia. }
  rewrite Hsmall. fold (sysinfo_bytes s fl). rewrite Hb.
  destruct (copyout_spec (p_pagetable p) s T fl D addr l1 l2 Hu Ha Hacc Hf) as (m' & Hrun & Hrest).
  exists m'. split; [|done]. rewrite (bind_ok _ _ _ _ _ Hrun). by destruct (decide (l2 = [])).
Qed.
