(* ===== verification/Virtio.v ===== *)
(** * kernel/virtio_disk.c: the disk driver

    The descriptors, the rings and the driver's bookkeeping are [vdisk]
    (State.v), with the writes to the device's registers in order. The device itself
    is not part of the sources: [VirtioBlk] says what the virtio specification
    promises of it. *)

From Stdlib Require Import ZArith Lia.
From stdpp Require Import base numbers gmap strings countable tactics list.
From S2P Require Import Prelude Machine CString State Spinlock Kalloc Vm Sched Sleeplock Bio.

Definition NUM : Z := 8.
Definition VRING_DESC_F_NEXT : Z := 1.
Definition VRING_DESC_F_WRITE : Z := 2.
Definition VIRTIO_BLK_T_IN : Z := 0.
Definition VIRTIO_BLK_T_OUT : Z := 1.

(** Registers of the device (kernel/virtio.h). *)
Definition VIRTIO_MMIO_DRIVER_FEATURES : Z := 0x20.
Definition VIRTIO_MMIO_GUEST_PAGE_SIZE : Z := 0x28.
Definition VIRTIO_MMIO_QUEUE_SEL : Z := 0x30.
Definition VIRTIO_MMIO_QUEUE_NUM : Z := 0x38.
Definition VIRTIO_MMIO_QUEUE_PFN : Z := 0x40.
Definition VIRTIO_MMIO_QUEUE_NOTIFY : Z := 0x50.
Definition VIRTIO_MMIO_INTERRUPT_ACK : Z := 0x64.
Definition VIRTIO_MMIO_STATUS : Z := 0x70.

(** Bits of the status register, and features the driver does not want. *)
Definition VIRTIO_CONFIG_S_ACKNOWLEDGE : Z := 1.
Definition VIRTIO_CONFIG_S_DRIVER : Z := 2.
Definition VIRTIO_CONFIG_S_DRIVER_OK : Z := 4.
Definition VIRTIO_CONFIG_S_FEATURES_OK : Z := 8.
Definition unwanted : list Z := [5; 7; 11; 12; 27; 29; 28].

#[global] Instance vdesc_inhabited : Inhabited vdesc := populate (mkDesc VNull 0 0 0).
#[global] Instance vreq_inhabited : Inhabited vreq := populate (mkReq 0 0 0).

Definition get_disk : M vdisk_t := gets vdisk.
Definition upd_disk (f : vdisk_t → vdisk_t) : M unit := modify (λ s, set_vdisk (f (vdisk s)) s).
Definition upd_desc (i : Z) (f : vdesc → vdesc) : M unit :=
  upd_disk (λ d, set_dk_desc (alter f (Z.to_nat i) (dk_desc d)) d).

(** [*R(r) = v]: registers have 32 bits. *)
Definition write_reg (r v : Z) : M unit :=
  upd_disk (λ d, set_dk_mmio (dk_mmio d ++ [mkMmio r (u32 v) (dk_avail_idx d)]) d).

(** The device registers virtio_disk_init() reads, and where the linker put
    disk.pages. *)
Record virtio_regs := mkVregs {
  vr_magic : Z; vr_version : Z; vr_device_id : Z; vr_vendor_id : Z; vr_features : Z; vr_queue_num_max : Z;
  vr_pages : Z }.

Section virtio.
Context `{Env}.

Definition virtio_disk_init (regs : virtio_regs) : M unit :=
  initlock LkVdisk;;
  if negb (vr_magic regs =? 0x74726976) || negb (vr_version regs =? 1) ||
     negb (vr_device_id regs =? 2) || negb (vr_vendor_id regs =? 0x554d4551)
  then panic "could not find virtio disk"
  else
    let status := VIRTIO_CONFIG_S_ACKNOWLEDGE in
    write_reg VIRTIO_MMIO_STATUS status;;
    let status := Z.lor status VIRTIO_CONFIG_S_DRIVER in
    write_reg VIRTIO_MMIO_STATUS status;;
    let features := foldl (λ f bit, Z.ldiff f (Z.shiftl 1 bit)) (vr_features regs) unwanted in
    write_reg VIRTIO_MMIO_DRIVER_FEATURES features;;
    let status := Z.lor status VIRTIO_CONFIG_S_FEATURES_OK in
    write_reg VIRTIO_MMIO_STATUS status;;
    let status := Z.lor status VIRTIO_CONFIG_S_DRIVER_OK in
    write_reg VIRTIO_MMIO_STATUS status;;
    write_reg VIRTIO_MMIO_GUEST_PAGE_SIZE PGSIZE;;
    write_reg VIRTIO_MMIO_QUEUE_SEL 0;;
    let max := vr_queue_num_max regs in
    if max =? 0 then panic "virtio disk has no queue 0"
    else if max <? NUM then panic "virtio disk max queue too short"
    else
      write_reg VIRTIO_MMIO_QUEUE_NUM NUM;;
      upd_disk (λ d, set_dk_dev_ring (replicate 8 0) (set_dk_dev_idx 0
        (set_dk_avail_ring (replicate 8 0) (set_dk_avail_idx 0
          (set_dk_desc (replicate 8 (mkDesc VNull 0 0 0)) d)))));;
      write_reg VIRTIO_MMIO_QUEUE_PFN (Z.shiftr (vr_pages regs) 12);;
      upd_disk (set_dk_free (replicate 8 true)).

Definition alloc_desc : M Z :=
  r ← for_each (seq 0 8) (λ i,
    d ← get_disk;
    if nth i (dk_free d) false then
      upd_disk (λ d, set_dk_free (<[i := false]> (dk_free d)) d);;
      mret (Some (Z.of_nat i))
    else mret None);
  mret (match r with Some i => i | None => -1 end).

Definition free_desc (i : Z) : M unit :=
  if NUM <=? i then panic "free_desc 1"
  else
    d ← get_disk;
    if nth (Z.to_nat i) (dk_free d) false then panic "free_desc 2"
    else
      upd_desc i (λ _, mkDesc VNull 0 0 0);;
      upd_disk (λ d, set_dk_free (<[Z.to_nat i := true]> (dk_free d)) d);;
      wakeup (Some ChDiskFree).

(** A chain has at most [NUM] descriptors. *)
Definition free_chain (i : Z) : M unit :=
  loop (S (Z.to_nat NUM)) (λ i,
    d ← get_disk;
    let x := dk_desc d !!! Z.to_nat i in
    free_desc i;;
    if negb (Z.land (d_flags x) VRING_DESC_F_NEXT =? 0) then mret (inl (d_next x))
    else mret (inr tt)) i.

Definition alloc3_desc : M (option (Z * Z * Z)) :=
  i0 ← alloc_desc;
  if i0 <? 0 then mret None
  else
    i1 ← alloc_desc;
    if i1 <? 0 then free_desc i0;; mret None
    else
      i2 ← alloc_desc;
      if i2 <? 0 then free_desc i0;; free_desc i1;; mret None
      else mret (Some (i0, i1, i2)).

(** Formatting the three descriptors and offering the chain to the device. *)
Definition submit (b : nat) (write : bool) (sector : Z) (idx : Z * Z * Z) : M unit :=
  let '(i0, i1, i2) := idx in
  upd_disk (λ d, set_dk_ops (<[Z.to_nat i0 :=
    mkReq (if write then VIRTIO_BLK_T_OUT else VIRTIO_BLK_T_IN) 0 sector]> (dk_ops d)) d);;
  upd_desc i0 (λ _, mkDesc (VOp (Z.to_nat i0)) 16 VRING_DESC_F_NEXT i1);;
  upd_desc i1 (λ _, mkDesc (VData b) BSIZE
    (Z.lor (if write then 0 else VRING_DESC_F_WRITE) VRING_DESC_F_NEXT) i2);;
  upd_disk (λ d, set_dk_info_status (updZ (dk_info_status d) i0 0xff) d);;
  upd_desc i2 (λ _, mkDesc (VStatus (Z.to_nat i0)) 1 VRING_DESC_F_WRITE 0);;
  upd_buf b (set_b_disk true);;
  upd_disk (λ d, set_dk_info_b (<[Z.to_nat i0 := Some b]> (dk_info_b d)) d);;
  upd_disk (λ d, set_dk_avail_ring (updZ (dk_avail_ring d) (dk_avail_idx d mod NUM) i0) d);;
  upd_disk (λ d, set_dk_avail_idx (u16 (dk_avail_idx d + 1)) d).

Definition virtio_disk_rw (b : nat) (write : bool) : M unit :=
  x ← get_buf b;
  let sector := u32 (b_blockno x * (BSIZE / 512)) in
  acquire LkVdisk;;
  idx ← loop fuel (λ _ : unit,
    r ← alloc3_desc;
    match r with
    | Some idx => mret (inr idx)
    | None => sleep ChDiskFree LkVdisk;; mret (inl tt)
    end) tt;
  submit b write sector idx;;
  write_reg VIRTIO_MMIO_QUEUE_NOTIFY 0;;
  loop fuel (λ _ : unit,
    x ← get_buf b;
    if b_disk x then
      sleep (ChBuf b) LkVdisk;;
      mret (inl tt)
    else mret (inr tt)) tt;;
  let i0 := idx.1.1 in
  upd_disk (λ d, set_dk_info_b (<[Z.to_nat i0 := None]> (dk_info_b d)) d);;
  free_chain i0;;
  release LkVdisk.

(** The device completes at most [NUM] requests between two runs of the
    handler. *)
Definition virtio_disk_intr : M unit :=
  acquire LkVdisk;;
  d ← get_disk;
  write_reg VIRTIO_MMIO_INTERRUPT_ACK (Z.land (dk_isr d) 3);;
  loop (S (Z.to_nat NUM)) (λ _ : unit,
    d ← get_disk;
    if dk_used_idx d =? dk_dev_idx d then mret (inr tt)
    else
      let id := nthZ (dk_dev_ring d) (dk_used_idx d mod NUM) in
      if negb (nthZ (dk_info_status d) id =? 0) then panic "virtio_disk_intr status"
      else
        match dk_info_b d !!! Z.to_nat id with
        | None => panic "null pointer"
        | Some b =>
            upd_buf b (set_b_disk false);;
            wakeup (Some (ChBuf b));;
            upd_disk (λ d, set_dk_used_idx (u16 (dk_used_idx d + 1)) d);;
            mret (inl tt)
        end) tt;;
  release LkVdisk.
End virtio.

(** ** The device

    What the virtio specification (version 1.1, sections 2.6, 3.1, 4.2 and 5.2)
    says a block device does. It speaks about sectors of 512 bytes. *)
Definition SECTOR : Z := 512.

Definition sector (s : kstate) (n : Z) : list Z :=
  take (Z.to_nat SECTOR) (drop (Z.to_nat (SECTOR * (n mod 2))) (dblock s (n / 2))).

(** The disk consists of whole blocks. *)
Definition sized (s : kstate) : Prop := ∀ k, length (dblock s k) = Z.to_nat BSIZE.

Definition wrote (d : vdisk_t) (r v : Z) : Prop := ∃ e, e ∈ dk_mmio d ∧ mw_reg e = r ∧ mw_value e = v.

(** The driver has initialised the device and given it the queue. *)
Definition set_up (d : vdisk_t) : Prop :=
  wrote d VIRTIO_MMIO_STATUS 15 ∧ wrote d VIRTIO_MMIO_QUEUE_NUM NUM ∧ ∃ pfn, wrote d VIRTIO_MMIO_QUEUE_PFN pfn.

(** The driver has notified the device of queue 0 when the index of the available
    ring had just passed entry [n]. *)
Definition told (d : vdisk_t) (n : Z) : Prop :=
  ∃ e, e ∈ dk_mmio d ∧ mw_reg e = VIRTIO_MMIO_QUEUE_NOTIFY ∧ mw_value e = 0 ∧ mw_avail e = u16 (n + 1).

(** The flags of a descriptor: is there a next one, and may the device write. *)
Definition flagged (x : vdesc) (next write : bool) : Prop :=
  Z.testbit (d_flags x) 0 = next ∧ Z.testbit (d_flags x) 1 = write.

(** A request, as a chain of three descriptors: a header of 16 bytes for the device to
    read; the data, for it to read or to write; a status byte for it to write. *)
Record blk_request (d : vdisk_t) (head : nat) (w : bool) (b : nat) (sec count : Z) (st : nat) : Prop := {
  br_chain : ∃ o i1 i2 x0 x1 x2 q,
    (dk_desc d !! head = Some x0 ∧ d_addr x0 = VOp o ∧ d_len x0 = 16 ∧ flagged x0 true false ∧ d_next x0 = Z.of_nat i1) ∧
    (dk_desc d !! i1 = Some x1 ∧ d_addr x1 = VData b ∧ d_len x1 = SECTOR * count ∧ flagged x1 true (negb w) ∧ d_next x1 = Z.of_nat i2) ∧
    (dk_desc d !! i2 = Some x2 ∧ d_addr x2 = VStatus st ∧ d_len x2 = 1 ∧ flagged x2 false true) ∧
    dk_ops d !! o = Some q ∧ q_type q = (if w then VIRTIO_BLK_T_OUT else VIRTIO_BLK_T_IN) ∧ q_reserved q = 0 ∧ q_sector q = sec;
}.

(** The request is done: the data moved, the status is 0, the head of the chain
    is on the used ring and the device wants an interrupt; nothing else changed. *)
Record served (s s' : kstate) (head : nat) (w : bool) (b : nat) (x : buf) (sec count : Z) (st : nat) : Prop := {
  sv_buf : bcache s' = if w then bcache s else <[b := set_b_data (concat (sector s <$> seqZ sec count)) x]> (bcache s);
  sv_disk : ∀ n, sector s' n = if w && (sec <=? n) && (n <? sec + count)
    then take (Z.to_nat SECTOR) (drop (Z.to_nat (SECTOR * (n - sec))) (b_data x)) else sector s n;
  sv_sized : sized s';
  sv_done : vdisk s' = set_dk_isr (Z.lor (dk_isr (vdisk s)) 1) (set_dk_dev_idx (u16 (dk_dev_idx (vdisk s) + 1))
    (set_dk_dev_ring (updZ (dk_dev_ring (vdisk s)) (dk_dev_idx (vdisk s) mod NUM) (Z.of_nat head))
      (set_dk_info_status (updZ (dk_info_status (vdisk s)) (Z.of_nat st) 0) (vdisk s))));
  sv_rest : s' = set_dlog (dlog s') (set_disk (disk s') (set_bcache (bcache s') (set_vdisk (vdisk s') s)));
}.

(** [device n] is the moment at which the device has performed entry [n] of the
    available ring. It does so once it has been told of it, for a request that is
    well formed and within its capacity. *)
Class VirtioBlk := {
  device : Z → M unit;
  capacity : Z;
  device_serves s n head w b x sec count st :
    set_up (vdisk s) → told (vdisk s) n → nthZ (dk_avail_ring (vdisk s)) (n mod NUM) = Z.of_nat head →
    blk_request (vdisk s) head w b sec count st → 0 ≤ sec → 0 ≤ count → sec + count ≤ capacity →
    sized s → bcache s !! b = Some x → length (b_data x) = Z.to_nat (SECTOR * count) →
    ∃ s', device n s = Ok tt s' ∧ served s s' head w b x sec count st;
}.
