(* ===== verification/VirtioTheory.v ===== *)
(** * The disk driver transfers blocks

    A call of virtio_disk_rw() offers a request to the device, notifies it and sleeps;
    the device performs it; the interrupt handler wakes the callers of all requests
    that are done, which give their descriptors back. Between these steps other
    requests may be made and completed: each lemma asks only for its own request. *)

From Stdlib Require Import ZArith Lia.
From stdpp Require Import base numbers gmap strings countable tactics list.
From S2P Require Import Prelude Machine CString State Spinlock Kalloc Vm Sched SchedTheory Sleeplock Bio BioCache LogRun Virtio.

Definition sizes_ok (d : vdisk_t) : Prop :=
  length (dk_desc d) = 8%nat ∧ length (dk_avail_ring d) = 8%nat ∧ length (dk_dev_ring d) = 8%nat ∧ length (dk_free d) = 8%nat ∧
  length (dk_info_b d) = 8%nat ∧ length (dk_info_status d) = 8%nat ∧ length (dk_ops d) = 8%nat.

(** The descriptors [i0], [i1], [i2] as a chain for the buffer [b]. *)
Record chained (d : vdisk_t) (b : nat) (w : bool) (i0 i1 i2 : nat) : Prop := {
  ch_desc0 : dk_desc d !! i0 = Some (mkDesc (VOp i0) 16 VRING_DESC_F_NEXT (Z.of_nat i1));
  ch_desc1 : dk_desc d !! i1 = Some (mkDesc (VData b) BSIZE (Z.lor (if w then 0 else VRING_DESC_F_WRITE) VRING_DESC_F_NEXT) (Z.of_nat i2));
  ch_desc2 : dk_desc d !! i2 = Some (mkDesc (VStatus i0) 1 VRING_DESC_F_WRITE 0);
  ch_free : dk_free d !! i0 = Some false ∧ dk_free d !! i1 = Some false ∧ dk_free d !! i2 = Some false;
  ch_ne : i0 ≠ i1 ∧ i0 ≠ i2 ∧ i1 ≠ i2;
}.

(** The request for block [blk] in that chain. *)
Record request (d : vdisk_t) (b : nat) (w : bool) (blk : Z) (i0 i1 i2 : nat) : Prop := {
  rq_chain : chained d b w i0 i1 i2;
  rq_op : dk_ops d !! i0 = Some (mkReq (if w then VIRTIO_BLK_T_OUT else VIRTIO_BLK_T_IN) 0 (u32 (blk * 2)));
  rq_b : dk_info_b d !! i0 = Some (Some b);
}.

(** ** Descriptors *)
Definition first_free (L : list bool) (i : nat) : Prop := L !! i = Some true ∧ ∀ j, (j < i)%nat → L !! j = Some false.

Lemma nth_bool (L : list bool) i v : L !! i = Some v → nth i L false = v.
Proof. intros H. by rewrite nth_lookup, H. Qed.

Definition set_free (L : list bool) (s : kstate) : kstate := set_vdisk (set_dk_free L (vdisk s)) s.

Lemma alloc_desc_spec s i : first_free (dk_free (vdisk s)) i → length (dk_free (vdisk s)) = 8%nat →
  alloc_desc s = Ok (Z.of_nat i) (set_free (<[i := false]> (dk_free (vdisk s))) s).
Proof.
  intros [Hi Hlow] Hl. assert (Hi8 : (i < 8)%nat) by (apply lookup_lt_Some in Hi; lia).
  unfold alloc_desc. eapply eq_trans; [apply (bind_ok _ _ s (Some (Z.of_nat i)) (set_free (<[i := false]> (dk_free (vdisk s))) s))|done].
  replace (seq 0 8) with (seq 0 i ++ i :: seq (S i) (7 - i)).
  2: { change (i :: seq (S i) (7 - i)) with (seq (0 + i) (S (7 - i))). rewrite <- seq_app. f_equal. lia. }
  rewrite for_each_skip.
  - cbn [for_each]. rewrite (bind_ok _ _ s (Some (Z.of_nat i)) (set_free (<[i := false]> (dk_free (vdisk s))) s)); [done|].
    unfold get_disk, upd_disk. mrun. rewrite (nth_bool _ _ _ Hi). mrun. done.
  - intros j Hj%elem_of_seq. unfold get_disk. mrun. rewrite (nth_bool _ j false) by (apply Hlow; lia). done.
Qed.

(** The three descriptors that alloc3_desc() finds. *)
Definition three_free (L : list bool) (i0 i1 i2 : nat) : Prop :=
  first_free L i0 ∧ first_free (<[i0 := false]> L) i1 ∧ first_free (<[i1 := false]> (<[i0 := false]> L)) i2.

Definition taken (L : list bool) (i0 i1 i2 : nat) : list bool := <[i2 := false]> (<[i1 := false]> (<[i0 := false]> L)).

Lemma alloc3_spec s i0 i1 i2 : three_free (dk_free (vdisk s)) i0 i1 i2 → length (dk_free (vdisk s)) = 8%nat →
  alloc3_desc s = Ok (Some (Z.of_nat i0, Z.of_nat i1, Z.of_nat i2)) (set_free (taken (dk_free (vdisk s)) i0 i1 i2) s).
Proof.
  intros (H0 & H1 & H2) Hl. unfold alloc3_desc. rewrite (bind_ok _ _ _ _ _ (alloc_desc_spec s i0 H0 Hl)).
  rewrite (proj2 (Z.ltb_ge _ _)) by lia. set (s1 := set_free _ s).
  assert (Hl1 : length (dk_free (vdisk s1)) = 8%nat) by (simpl; by rewrite length_insert).
  rewrite (bind_ok _ _ _ _ _ (alloc_desc_spec s1 i1 H1 Hl1)). rewrite (proj2 (Z.ltb_ge _ _)) by lia. set (s2 := set_free _ s1).
  assert (Hl2 : length (dk_free (vdisk s2)) = 8%nat) by (simpl; by rewrite !length_insert).
  rewrite (bind_ok _ _ _ _ _ (alloc_desc_spec s2 i2 H2 Hl2)). rewrite (proj2 (Z.ltb_ge _ _)) by lia. done.
Qed.

Lemma three_ne L i0 i1 i2 : three_free L i0 i1 i2 → i0 ≠ i1 ∧ i0 ≠ i2 ∧ i1 ≠ i2.
Proof.
  intros ([H0 _] & [H1 _] & [H2 _]). pose proof (lookup_lt_Some _ _ _ H0) as Hl0. pose proof (lookup_lt_Some _ _ _ H1) as Hl1.
  rewrite length_insert in Hl1. split_and!; intros ->.
  - by rewrite list_lookup_insert_eq in H1.
  - destruct (decide (i1 = i2)) as [->|]; [by rewrite list_lookup_insert_eq in H2 by (by rewrite length_insert)|].
    by rewrite list_lookup_insert_ne, list_lookup_insert_eq in H2.
  - by rewrite list_lookup_insert_eq in H2 by (by rewrite length_insert).
Qed.

Lemma three_taken L i0 i1 i2 : three_free L i0 i1 i2 → (i0 < length L)%nat ∧ (i1 < length L)%nat ∧ (i2 < length L)%nat ∧
  taken L i0 i1 i2 !! i0 = Some false ∧ taken L i0 i1 i2 !! i1 = Some false ∧ taken L i0 i1 i2 !! i2 = Some false.
Proof.
  intros H3. destruct (three_ne _ _ _ _ H3) as (N01 & N02 & N12). destruct H3 as ([H0 _] & [H1 _] & [H2 _]).
  apply lookup_lt_Some in H0, H1, H2. rewrite ?length_insert in *. unfold taken. split_and!; try done.
  - rewrite !list_lookup_insert_ne by done. by apply list_lookup_insert_eq.
  - rewrite list_lookup_insert_ne by done. apply list_lookup_insert_eq. by rewrite length_insert.
  - apply list_lookup_insert_eq. by rewrite !length_insert.
Qed.

(** ** Initialisation *)
Definition disk_found (r : virtio_regs) : Prop :=
  vr_magic r = 0x74726976 ∧ vr_version r = 1 ∧ vr_device_id r = 2 ∧ vr_vendor_id r = 0x554d4551 ∧ NUM ≤ vr_queue_num_max r.

Definition reg_logged (r v : Z) (d : vdisk_t) : vdisk_t := set_dk_mmio (dk_mmio d ++ [mkMmio r (u32 v) (dk_avail_idx d)]) d.

Lemma write_reg_eq r v s : write_reg r v s = Ok tt (set_vdisk (reg_logged r v (vdisk s)) s).
Proof. reflexivity. Qed.

Lemma wrote_reg r v d : wrote (reg_logged r v d) r (u32 v).
Proof. exists (mkMmio r (u32 v) (dk_avail_idx d)). split; [|done]. simpl. apply elem_of_app. right. by left. Qed.

Lemma wrote_more r v r' v' d : wrote d r' v' → wrote (reg_logged r v d) r' v'.
Proof. intros (e & He & Hr). exists e. split; [|done]. simpl. apply elem_of_app. by left. Qed.

Lemma wrote_free f r v d : wrote d r v → wrote (set_dk_free f d) r v.
Proof. done. Qed.

Definition emptied (d : vdisk_t) : vdisk_t :=
  set_dk_dev_ring (replicate 8 0) (set_dk_dev_idx 0 (set_dk_avail_ring (replicate 8 0) (set_dk_avail_idx 0
    (set_dk_desc (replicate 8 (mkDesc VNull 0 0 0)) d)))).

Lemma wrote_emptied r v d : wrote d r v → wrote (emptied d) r v.
Proof. done. Qed.

(** virtio_disk_init() leaves the device set up and an empty queue. *)
Lemma init_spec r s : disk_found r → ∃ s', virtio_disk_init r s = Ok tt s' ∧ set_up (vdisk s') ∧
  dk_free (vdisk s') = replicate 8 true ∧ dk_avail_idx (vdisk s') = 0 ∧ dk_dev_idx (vdisk s') = 0 ∧ disk s' = disk s.
Proof.
  intros (H1 & H2 & H3 & H4 & H5). unfold virtio_disk_init, initlock, upd_disk. rewrite bind_modify.
  rewrite H1, H2, H3, H4, !Z.eqb_refl. cbn [negb orb]. cbv zeta.
  do 7 rewrite (bind_ok _ _ _ _ _ (write_reg_eq _ _ _)). rewrite (proj2 (Z.eqb_neq _ _)), (proj2 (Z.ltb_ge _ _)) by (unfold NUM in *; lia).
  rewrite (bind_ok _ _ _ _ _ (write_reg_eq _ _ _)), bind_modify, (bind_ok _ _ _ _ _ (write_reg_eq _ _ _)).
  eexists. split; [reflexivity|]. split; [|repeat split].
  assert (Hd : ∀ d, wrote d VIRTIO_MMIO_STATUS 15 → wrote d VIRTIO_MMIO_QUEUE_NUM NUM →
    set_up (set_dk_free (replicate 8 true) (reg_logged VIRTIO_MMIO_QUEUE_PFN (Z.shiftr (vr_pages r) 12) (emptied d)))).
  { intros d Hw1 Hw2. split_and!; [..|eexists]; apply wrote_free; [apply wrote_more, wrote_emptied..|apply wrote_reg]; done. }
  apply Hd.
  - do 3 apply wrote_more. apply wrote_reg.
  - apply wrote_reg.
Qed.

(** ** The request *)
Definition submitted (d : vdisk_t) (b : nat) (w : bool) (sec : Z) (i0 i1 i2 : nat) : vdisk_t :=
  mkVdisk (alter (λ _, mkDesc (VStatus i0) 1 VRING_DESC_F_WRITE 0) i2
      (alter (λ _, mkDesc (VData b) BSIZE (Z.lor (if w then 0 else VRING_DESC_F_WRITE) VRING_DESC_F_NEXT) (Z.of_nat i2)) i1
        (alter (λ _, mkDesc (VOp i0) 16 VRING_DESC_F_NEXT (Z.of_nat i1)) i0 (dk_desc d))))
    (u16 (dk_avail_idx d + 1)) (updZ (dk_avail_ring d) (dk_avail_idx d mod NUM) (Z.of_nat i0)) (dk_dev_idx d) (dk_dev_ring d)
    (dk_free d) (dk_used_idx d) (<[i0 := Some b]> (dk_info_b d)) (updZ (dk_info_status d) (Z.of_nat i0) 0xff)
    (<[i0 := mkReq (if w then VIRTIO_BLK_T_OUT else VIRTIO_BLK_T_IN) 0 sec]> (dk_ops d)) (dk_isr d) (dk_mmio d).

Lemma submit_spec b w sec i0 i1 i2 s : submit b w sec (Z.of_nat i0, Z.of_nat i1, Z.of_nat i2) s =
  Ok tt (set_bcache (alter (set_b_disk true) b (bcache s)) (set_vdisk (submitted (vdisk s) b w sec i0 i1 i2) s)).
Proof. unfold submit, upd_desc, upd_disk. rewrite !Nat2Z.id. mrun. destruct s. simpl. by destruct vdisk. Qed.

(** The device has been told of the current end of the available ring. *)
Definition notified (d : vdisk_t) : vdisk_t := set_dk_mmio (dk_mmio d ++ [mkMmio VIRTIO_MMIO_QUEUE_NOTIFY 0 (dk_avail_idx d)]) d.

Lemma notify_spec s : write_reg VIRTIO_MMIO_QUEUE_NOTIFY 0 s = Ok tt (set_vdisk (notified (vdisk s)) s).
Proof. reflexivity. Qed.

Lemma alter_const {A} (a : A) i (l : list A) : alter (λ _, a) i l = <[i := a]> l.
Proof.
  apply list_eq. intros j. destruct (decide (j = i)) as [->|]; [|by rewrite list_lookup_alter_ne, list_lookup_insert_ne].
  rewrite list_lookup_alter_eq. destruct (l !! i) as [x|] eqn:E; simpl.
  - by rewrite list_lookup_insert_eq by (by eapply lookup_lt_Some).
  - by rewrite list_insert_ge by (by apply lookup_ge_None_1).
Qed.

Lemma request_submitted d b w blk i0 i1 i2 : sizes_ok d → (i0 < 8)%nat → (i1 < 8)%nat → (i2 < 8)%nat → i0 ≠ i1 ∧ i0 ≠ i2 ∧ i1 ≠ i2 →
  dk_free d !! i0 = Some false ∧ dk_free d !! i1 = Some false ∧ dk_free d !! i2 = Some false →
  request (submitted d b w (u32 (blk * 2)) i0 i1 i2) b w blk i0 i1 i2.
Proof.
  intros (H1 & _ & _ & _ & H5 & _ & H7) L0 L1 L2 (N01 & N02 & N12) Hf.
  split; [constructor|..]; cbn [submitted dk_desc dk_ops dk_info_b dk_free]; rewrite ?alter_const; try done.
  - rewrite list_lookup_insert_ne, list_lookup_insert_ne, list_lookup_insert_eq by (rewrite ?length_insert; lia || done). done.
  - rewrite list_lookup_insert_ne, list_lookup_insert_eq by (rewrite ?length_insert; lia || done). done.
  - rewrite list_lookup_insert_eq by (rewrite ?length_insert; lia). done.
  - by rewrite list_lookup_insert_eq by lia.
  - by rewrite list_lookup_insert_eq by lia.
Qed.

(** What virtio_disk_rw() leaves for the device. *)
Lemma rw_offers s b w blk i0 i1 i2 : sizes_ok (vdisk s) → three_free (dk_free (vdisk s)) i0 i1 i2 → 0 ≤ dk_avail_idx (vdisk s) → set_up (vdisk s) →
  let d := notified (submitted (set_dk_free (taken (dk_free (vdisk s)) i0 i1 i2) (vdisk s)) b w (u32 (blk * 2)) i0 i1 i2) in
  request d b w blk i0 i1 i2 ∧ nthZ (dk_avail_ring d) (dk_avail_idx (vdisk s) mod NUM) = Z.of_nat i0 ∧ set_up d ∧ told d (dk_avail_idx (vdisk s)).
Proof.
  intros Hsz H3 Hav Hup d. pose proof Hsz as (S1 & S2 & S3 & S4 & S5 & S6 & S7).
  pose proof (three_ne _ _ _ _ H3) as Hne. pose proof (three_taken _ _ _ _ H3) as (L0 & L1 & L2 & Htk). rewrite S4 in L0, L1, L2. split; [|split; [|split]].
  - assert (Hrq : request (submitted (set_dk_free (taken (dk_free (vdisk s)) i0 i1 i2) (vdisk s)) b w (u32 (blk * 2)) i0 i1 i2) b w blk i0 i1 i2).
    { apply request_submitted; try done. unfold sizes_ok, taken. simpl. by rewrite !length_insert. }
    destruct Hrq as [[] ? ?]. by split; [constructor|..].
  - unfold d. simpl. apply nthZ_updZ_eq. rewrite S2. unfold NUM. Z.div_mod_to_equations; lia.
  - destruct Hup as (H1 & H2 & pfn & H4).
    assert (Hmore : ∀ r v, wrote (vdisk s) r v → wrote d r v).
    { intros r v (e & He & Hr). exists e. split; [|done]. unfold d. simpl. apply elem_of_app. by left. }
    split_and!; [by apply Hmore..|]. exists pfn. by apply Hmore.
  - exists (mkMmio VIRTIO_MMIO_QUEUE_NOTIFY 0 (u16 (dk_avail_idx (vdisk s) + 1))). split; [|done]. unfold d. simpl. apply elem_of_app. right. by left.
Qed.

(** The request is one the device can serve: two sectors. *)
Lemma request_served d b w blk i0 i1 i2 : request d b w blk i0 i1 i2 → 0 ≤ blk < 2 ^ 31 → blk_request d i0 w b (2 * blk) 2 i0.
Proof.
  intros [[H0 H1 H2 _ _] Hop _] Hblk. rewrite u32_small in Hop by lia. constructor. eexists _, _, _, _, _, _, _.
  split_and!; try done; try (by destruct w). simpl. lia.
Qed.

(** ** The device *)
Lemma halves (l : list Z) : length l = Z.to_nat BSIZE →
  take (Z.to_nat SECTOR) (drop (Z.to_nat (SECTOR * 0)) l) ++ take (Z.to_nat SECTOR) (drop (Z.to_nat (SECTOR * 1)) l) = l.
Proof.
  intros Hl. change (Z.to_nat (SECTOR * 0)) with 0%nat. change (Z.to_nat (SECTOR * 1)) with (Z.to_nat SECTOR). rewrite drop_0.
  rewrite (take_ge (drop _ l)) by (rewrite length_drop, Hl; unfold SECTOR, BSIZE; lia). apply take_drop.
Qed.

(** A block is two sectors. *)
Lemma block_sectors s k : sized s → dblock s k = sector s (2 * k) ++ sector s (2 * k + 1).
Proof.
  intros Hs. unfold sector. rewrite (Z.mul_comm 2 k), Z.mod_mul, Z.div_mul by lia.
  rewrite (Z.add_comm (k * 2)), Z.mod_add, Z.div_add by lia. change (1 mod 2) with 1. change (1 / 2 + k) with k. by rewrite halves.
Qed.

(** Serving the request is what [disk_rw] does to the buffer and the disk. *)
Lemma served_disk_rw s s' b w y head st : served s s' head w b y (2 * b_blockno y) 2 st → sized s →
  bcache s !! b = Some y → length (b_data y) = Z.to_nat BSIZE →
  ∃ s3, disk_rw b w s = Ok tt s3 ∧ bcache s' = bcache s3 ∧ ∀ k, dblock s' k = dblock s3 k.
Proof.
  intros [Hbuf Hd Hsz' _ _] Hsz Hy Hlen. unfold disk_rw. rewrite (bind_ok _ _ _ _ _ (get_buf_eq b s y Hy)). destruct w; cbn.
  - eexists. split; [done|]. split; [done|]. intros k. rewrite (block_sectors s' k Hsz'), !Hd.
    destruct (decide (k = b_blockno y)) as [->|Hne].
    + unfold dblock. simpl. rewrite lookup_insert_eq. simpl.
      rewrite !(proj2 (Z.leb_le _ _)), !(proj2 (Z.ltb_lt _ _)) by lia. simpl.
      replace (2 * b_blockno y - 2 * b_blockno y) with 0 by lia. replace (2 * b_blockno y + 1 - 2 * b_blockno y) with 1 by lia. by rewrite halves.
    + assert (Hout : ∀ n, n = 2 * k ∨ n = 2 * k + 1 → (true && (2 * b_blockno y <=? n) && (n <? 2 * b_blockno y + 2)) = false).
      { intros n Hn. simpl. apply andb_false_iff. rewrite Z.leb_gt, Z.ltb_ge. lia. }
      rewrite !Hout by auto. rewrite <- (block_sectors s k Hsz). unfold dblock. simpl. by rewrite lookup_insert_ne.
  - eexists. split; [reflexivity|]. simpl. split; [|intros k; rewrite (block_sectors s' k Hsz'), !Hd; symmetry; exact (block_sectors s k Hsz)].
    assert (Hseq : seqZ (2 * b_blockno y) 2 = [2 * b_blockno y; 2 * b_blockno y + 1]) by (unfold seqZ; change (Z.to_nat 2) with 2%nat; cbn [seq fmap list_fmap]; f_equal; f_equal; lia).
    rewrite Hbuf, Hseq, (list_alter_insert _ _ _ _ Hy). do 2 f_equal. rewrite (block_sectors s (b_blockno y) Hsz).
    cbn [fmap list_fmap concat]. by rewrite app_nil_r.
Qed.

Lemma device_does `{!VirtioBlk} s b w y i0 i1 i2 n : request (vdisk s) b w (b_blockno y) i0 i1 i2 → set_up (vdisk s) → told (vdisk s) n →
  nthZ (dk_avail_ring (vdisk s)) (n mod NUM) = Z.of_nat i0 → sized s → sizes_ok (vdisk s) → 0 ≤ dk_dev_idx (vdisk s) → bcache s !! b = Some y →
  length (b_data y) = Z.to_nat BSIZE → 0 ≤ b_blockno y < 2 ^ 31 → 2 * b_blockno y + 2 ≤ capacity →
  ∃ s' r, device n s = Ok tt s' ∧ disk_rw b w s = Ok tt r ∧ bcache s' = bcache r ∧ (∀ k, dblock s' k = dblock r k) ∧
    request (vdisk s') b w (b_blockno y) i0 i1 i2 ∧ nthZ (dk_dev_ring (vdisk s')) (dk_dev_idx (vdisk s) mod NUM) = Z.of_nat i0 ∧
    dk_dev_idx (vdisk s') = u16 (dk_dev_idx (vdisk s) + 1) ∧ nthZ (dk_info_status (vdisk s')) (Z.of_nat i0) = 0.
Proof.
  intros Hrq Hup Ht Hring Hsz (_ & _ & S3 & _ & S5 & S6 & _) Hdev Hy Hyl Hblk Hcap.
  assert (Hsec : 0 ≤ 2 * b_blockno y) by lia. assert (H2 : 0 ≤ 2) by lia.
  destruct (device_serves s n i0 w b y (2 * b_blockno y) 2 i0 Hup Ht Hring (request_served _ _ _ _ _ _ _ Hrq Hblk) Hsec H2 Hcap Hsz Hy Hyl)
    as (s' & Hrun & Hsv).
  destruct (served_disk_rw s s' b w y i0 i0 Hsv Hsz Hy Hyl) as (r & Hr & Hb & Hd). destruct Hsv as [_ _ _ Hv _].
  exists s', r. rewrite Hv. split_and!; try done; simpl.
  - by destruct Hrq as [[] ? ?]; constructor.
  - apply nthZ_updZ_eq. rewrite S3. unfold NUM. Z.div_mod_to_equations; lia.
  - apply nthZ_updZ_eq. destruct Hrq as [_ _ Hb0]. apply lookup_lt_Some in Hb0. rewrite S5 in Hb0. rewrite S6. lia.
Qed.

(** ** The interrupt *)

(** The requests for the buffers [bs] have been completed, in this order, since the
    handler last looked at the used ring. *)
Record completions (d : vdisk_t) (bs : list nat) : Prop := {
  cp_used : 0 ≤ dk_used_idx d < 2 ^ 16;
  cp_num : Z.of_nat (length bs) ≤ NUM;
  cp_idx : dk_dev_idx d = u16 (dk_used_idx d + Z.of_nat (length bs));
  cp_each : ∀ k b, bs !! k = Some b → ∃ id,
    nthZ (dk_dev_ring d) (u16 (dk_used_idx d + Z.of_nat k) mod NUM) = Z.of_nat id ∧
    nthZ (dk_info_status d) (Z.of_nat id) = 0 ∧ dk_info_b d !! id = Some (Some b);
}.

(** Those buffers are no longer the disk's, and their callers runnable. *)
Definition undisk (bs : list nat) (l : list buf) : list buf := foldl (λ l b, alter (set_b_disk false) b l) l bs.
Definition wakes (bs : list nat) (p : proc) : proc := foldl (λ p b, wake (Some (ChBuf b)) p) p bs.

Lemma undisk_lookup bs l b : undisk bs l !! b = (if decide (b ∈ bs) then set_b_disk false else id) <$> l !! b.
Proof.
  unfold undisk. revert l. induction bs as [|b' bs IH]; intros l; cbn [foldl].
  - by destruct (l !! b).
  - rewrite IH. destruct (decide (b = b')) as [->|Hne].
    + rewrite list_lookup_alter_eq, (decide_True (P := b' ∈ b' :: bs)) by (by left). destruct (l !! b') as [x|]; [|done]. simpl.
      by destruct (decide (b' ∈ bs)).
    + rewrite list_lookup_alter_ne by done. destruct (decide (b ∈ bs)) as [Hin|Hout].
      * by rewrite (decide_True (P := b ∈ b' :: bs)) by (by right).
      * by rewrite (decide_False (P := b ∈ b' :: bs)) by (by intros [?|?]%elem_of_cons).
Qed.

Lemma wakes_spec bs p : wakes bs p =
  if decide (p_state p = SLEEPING ∧ p_chan p ∈ Some ∘ ChBuf <$> bs) then set_p_state RUNNABLE p else p.
Proof.
  unfold wakes. revert p. induction bs as [|b bs IH]; intros p; cbn [foldl].
  - rewrite decide_False; [done|]. intros [_ ?%elem_of_nil]. done.
  - rewrite fmap_cons, IH. unfold wake. case_bool_decide as Hb; [destruct Hb as [Hs Hc]|].
    + rewrite decide_False by (simpl; naive_solver). rewrite decide_True; [done|]. split; [done|]. rewrite Hc. by left.
    + apply decide_ext. split; intros [Hs Hc]; (split; [done|]); [by right|]. apply elem_of_cons in Hc as [Hc|]; [naive_solver|done].
Qed.

(** One round of the loop. *)
Lemma completions_next d b bs : completions d (b :: bs) → completions (set_dk_used_idx (u16 (dk_used_idx d + 1)) d) bs.
Proof.
  intros [Hu Hn Hi He]. rewrite length_cons in *. split; simpl.
  - unfold u16. apply Z.mod_pos_bound. lia.
  - lia.
  - rewrite Hi. unfold u16. rewrite Zplus_mod_idemp_l. f_equal. lia.
  - intros k b' Hk. destruct (He (S k) b' Hk) as (id & Hr & Hrest). exists id. split; [|done]. rewrite <- Hr. do 2 f_equal.
    unfold u16. rewrite Zplus_mod_idemp_l. f_equal. lia.
Qed.

Lemma intr_loop body : (body = λ _ : unit,
    d ← get_disk;
    if dk_used_idx d =? dk_dev_idx d then mret (inr tt)
    else
      let id := nthZ (dk_dev_ring d) (dk_used_idx d mod NUM) in
      if negb (nthZ (dk_info_status d) id =? 0) then panic "virtio_disk_intr status"
      else
        match dk_info_b d !!! Z.to_nat id with
        | None => panic "null pointer"
        | Some b =>
            upd_buf b (set_b_disk false);;
            wakeup (Some (ChBuf b));;
            upd_disk (λ d, set_dk_used_idx (u16 (dk_used_idx d + 1)) d);;
            mret (inl tt)
        end) →
  ∀ bs n s, (length bs < n)%nat → completions (vdisk s) bs → proc_locks_free s → length (procs s) = NPROC →
  ∃ ps, loop n body tt s = Ok tt (set_procs ps (set_bcache (undisk bs (bcache s)) (set_vdisk (set_dk_used_idx (dk_dev_idx (vdisk s)) (vdisk s)) s))) ∧
    length ps = NPROC ∧ ∀ j, ps !! j = (if decide (c_proc (cpu s) = Some j) then id else wakes bs) <$> procs s !! j.
Proof.
  intros Hbody. induction bs as [|b bs IH]; intros n s Hn Hcp Hl Hlen; (destruct n as [|n]; [lia|]); pose proof Hcp as [Hu Hnum Hi He].
  - assert (Hi' : dk_dev_idx (vdisk s) = dk_used_idx (vdisk s)) by (rewrite Hi; unfold u16; rewrite Z.mod_small; simpl; lia).
    exists (procs s). cbn [loop]. rewrite (bind_ok _ _ s (inr tt) s).
    + rewrite Hi'. split; [|split; [done|]]; [destruct s as [? ? ? ? ? ? ? ? ? ? ? ? ? ? ? ? ? ? ? ? ? ? []]; done|].
      intros j. by destruct (procs s !! j), (decide _).
    + rewrite Hbody. unfold get_disk. mrun. by rewrite Hi', Z.eqb_refl.
  - destruct (He 0%nat b eq_refl) as (id & Hr & Hst & Hb). rewrite Z.add_0_r in Hr.
    assert (Hsm : u16 (dk_used_idx (vdisk s)) = dk_used_idx (vdisk s)) by (unfold u16; apply Z.mod_small; lia). rewrite Hsm in Hr.
    set (s1 := set_bcache (alter (set_b_disk false) b (bcache s)) s).
    destruct (wakeup_eq (Some (ChBuf b)) s1 Hl Hlen) as (ps1 & Hw & Hlen1 & Hps1).
    set (s2 := set_vdisk (set_dk_used_idx (u16 (dk_used_idx (vdisk s) + 1)) (vdisk s)) (set_procs ps1 s1)).
    destruct (IH n s2) as (ps & Hrun & Hlenps & Hps); [simpl in Hn; lia|by eapply completions_next|done|done|].
    exists ps. split; [|split; [done|]].
    + cbn [loop]. rewrite (bind_ok _ _ s (inl tt) s2); [rewrite Hrun; by destruct s|].
      rewrite Hbody. unfold get_disk, upd_disk, upd_buf. mrun. rewrite length_cons in *. rewrite (proj2 (Z.eqb_neq _ _)).
      2: { rewrite Hi. unfold u16, NUM in *. intros E. Z.div_mod_to_equations; lia. }
      cbv zeta. rewrite Hr, Hst, Nat2Z.id, (list_lookup_total_correct _ _ _ Hb). cbn [Z.eqb negb]. mrun.
      rewrite (bind_ok _ _ _ _ _ Hw). mrun. done.
    + intros j. rewrite Hps. simpl. rewrite Hps1. simpl. by destruct (decide _), (procs s !! j).
Qed.

Definition acked (d : vdisk_t) : vdisk_t :=
  set_dk_mmio (dk_mmio d ++ [mkMmio VIRTIO_MMIO_INTERRUPT_ACK (u32 (Z.land (dk_isr d) 3)) (dk_avail_idx d)]) d.

(** The handler acknowledges the interrupt and deals with all completions. *)
Lemma intr_spec s bs : proc_locks_free s → locks s !! LkVdisk = None → length (procs s) = NPROC → completions (vdisk s) bs →
  ∃ ps, virtio_disk_intr s = Ok tt (set_procs ps (set_bcache (undisk bs (bcache s))
      (set_vdisk (set_dk_used_idx (dk_dev_idx (vdisk s)) (acked (vdisk s))) s))) ∧ length ps = NPROC ∧
    ∀ j, ps !! j = (if decide (c_proc (cpu s) = Some j) then id else wakes bs) <$> procs s !! j.
Proof.
  intros [Hc Hl] Hlk Hlen Hcp. unfold virtio_disk_intr. rewrite (bind_ok _ _ _ _ _ (acquire_eq _ s Hlk)). cbv beta. rewrite (bind_ok get_disk _ (hold LkVdisk s) (vdisk s) (hold LkVdisk s)) by done.
  set (s1 := set_vdisk (acked (vdisk s)) (hold LkVdisk s)). rewrite (bind_ok _ _ _ tt s1) by done.
  destruct (intr_loop _ eq_refl bs (S (Z.to_nat NUM)) s1) as (ps & Hrun & Hlenps & Hps).
  - destruct Hcp as [_ Hn _ _]. unfold NUM in *. lia.
  - destruct Hcp as [? ? ? ?]. by split.
  - split; [simpl; by apply cpu_ok_pushed|]. intros i Hi Hci. simpl. rewrite lookup_insert_ne by done. by apply Hl.
  - done.
  - exists ps. split; [|done]. erewrite bind_ok; [|exact Hrun]. rewrite (release_eq LkVdisk s) by done. unfold unhold, s1. by destruct s.
Qed.

(** The handler, as its effect on buffers and processes. *)
Lemma intr_does s b w blk i0 i1 i2 bs : proc_locks_free s → locks s !! LkVdisk = None → length (procs s) = NPROC → completions (vdisk s) bs →
  request (vdisk s) b w blk i0 i1 i2 →
  ∃ s', virtio_disk_intr s = Ok tt s' ∧ request (vdisk s') b w blk i0 i1 i2 ∧ disk s' = disk s ∧ locks s' = locks s ∧ cpu s' = cpu s ∧
    dk_used_idx (vdisk s') = dk_dev_idx (vdisk s) ∧
    dk_mmio (vdisk s') = dk_mmio (vdisk s) ++
      [mkMmio VIRTIO_MMIO_INTERRUPT_ACK (u32 (Z.land (dk_isr (vdisk s)) 3)) (dk_avail_idx (vdisk s))] ∧
    (∀ c, bcache s' !! c = (if decide (c ∈ bs) then set_b_disk false else id) <$> bcache s !! c) ∧
    (∀ j q, c_proc (cpu s) ≠ Some j → procs s !! j = Some q → procs s' !! j = Some
      (if decide (p_state q = SLEEPING ∧ p_chan q ∈ Some ∘ ChBuf <$> bs) then set_p_state RUNNABLE q else q)).
Proof.
  intros Hpl Hlk Hlen Hcp Hrq. destruct (intr_spec s bs Hpl Hlk Hlen Hcp) as (ps & Hrun & _ & Hps).
  eexists. split; [exact Hrun|]. split; [by destruct Hrq as [[] ? ?]; constructor|]. do 5 (split; [reflexivity|]). split.
  - intros c. apply undisk_lookup.
  - intros j q Hj Hq. simpl. rewrite Hps, Hq, decide_False by done. simpl. by rewrite wakes_spec.
Qed.

(** ** Giving the descriptors back *)
Definition freed (d : vdisk_t) (i : nat) : vdisk_t :=
  set_dk_free (<[i := true]> (dk_free d)) (set_dk_desc (<[i := mkDesc VNull 0 0 0]> (dk_desc d)) d).

(** The part of the state that wakeup() changes, for the process that runs. *)
Definition woken (s : kstate) (ps : list proc) : Prop :=
  length ps = NPROC ∧ ∀ j, c_proc (cpu s) = Some j → ps !! j = procs s !! j.

Lemma free_desc_spec s i : dk_free (vdisk s) !! i = Some false → (i < 8)%nat → proc_locks_free s → length (procs s) = NPROC →
  ∃ ps, free_desc (Z.of_nat i) s = Ok tt (set_procs ps (set_vdisk (freed (vdisk s) i) s)) ∧ woken s ps.
Proof.
  intros Hf Hi Hl Hlen. destruct (wakeup_eq (Some ChDiskFree) (set_vdisk (freed (vdisk s) i) s) Hl Hlen) as (ps & Hw & Hlps & Hps).
  exists ps. split.
  - unfold free_desc, upd_desc, upd_disk, get_disk. rewrite (proj2 (Z.leb_gt _ _)) by (unfold NUM; lia). rewrite bind_gets, Nat2Z.id, (nth_bool _ _ _ Hf). mrun.
    rewrite <- Hw. f_equal. unfold freed. rewrite alter_const. by destruct s.
  - split; [done|]. intros j Hj. rewrite Hps, decide_True by done. simpl. by destruct (procs s !! j).
Qed.

Lemma chain_spec s b w i0 i1 i2 : chained (vdisk s) b w i0 i1 i2 → length (dk_free (vdisk s)) = 8%nat → proc_locks_free s → length (procs s) = NPROC →
  ∃ ps, free_chain (Z.of_nat i0) s = Ok tt (set_procs ps (set_vdisk (freed (freed (freed (vdisk s) i0) i1) i2) s)) ∧ woken s ps.
Proof.
  intros [H0 H1 H2 (F0 & F1 & F2) (N01 & N02 & N12)] Hlf Hl Hlen.
  assert (L0 : (i0 < 8)%nat) by (rewrite <- Hlf; by eapply lookup_lt_Some). assert (L1 : (i1 < 8)%nat) by (rewrite <- Hlf; by eapply lookup_lt_Some).
  assert (L2 : (i2 < 8)%nat) by (rewrite <- Hlf; by eapply lookup_lt_Some).
  destruct (free_desc_spec s i0 F0 L0 Hl Hlen) as (p1 & R1 & W1). set (s1 := set_procs p1 _) in *.
  destruct (free_desc_spec s1 i1) as (p2 & R2 & W2); [simpl; by rewrite list_lookup_insert_ne|done|done|apply W1|]. set (s2 := set_procs p2 _) in *.
  destruct (free_desc_spec s2 i2) as (p3 & R3 & W3); [simpl; by rewrite !list_lookup_insert_ne|done|done|apply W2|]. set (s3 := set_procs p3 _) in *.
  assert (Hstep : ∀ r i x r', dk_desc (vdisk r) !! i = Some x → free_desc (Z.of_nat i) r = Ok tt r' →
    (d ← get_disk; let x := dk_desc d !!! Z.to_nat (Z.of_nat i) in free_desc (Z.of_nat i);;
       (if negb (Z.land (d_flags x) VRING_DESC_F_NEXT =? 0) then mret (inl (d_next x)) else mret (inr tt))) r =
    Ok (if negb (Z.land (d_flags x) VRING_DESC_F_NEXT =? 0) then inl (d_next x) else inr tt) r').
  { intros r i x r' Hx Hr. unfold get_disk. rewrite bind_gets. cbv zeta. rewrite Nat2Z.id, (list_lookup_total_correct _ _ _ Hx), (bind_ok _ _ _ _ _ Hr). by destruct (negb _). }
  exists p3. split.
  - unfold free_chain. change (S (Z.to_nat NUM)) with 9%nat. cbn [loop].
    rewrite (bind_ok _ _ _ _ _ (Hstep s i0 _ s1 H0 R1)). cbn [d_flags d_next]. change (Z.land VRING_DESC_F_NEXT VRING_DESC_F_NEXT =? 0) with false. cbn [negb].
    rewrite (bind_ok _ _ _ _ _ (Hstep s1 i1 _ s2 ltac:(simpl; by rewrite list_lookup_insert_ne) R2)). cbn [d_flags d_next].
    replace (Z.land _ VRING_DESC_F_NEXT =? 0) with false by (by destruct w). cbn [negb].
    rewrite (bind_ok _ _ _ _ _ (Hstep s2 i2 _ s3 ltac:(simpl; by rewrite !list_lookup_insert_ne) R3)). cbn [d_flags d_next]. 
    change (Z.land VRING_DESC_F_WRITE VRING_DESC_F_NEXT =? 0) with true. cbn [negb]. unfold s3, s2, s1. by destruct s.
  - split; [apply W3|]. intros j Hj. rewrite (proj2 W3), <- (proj2 W1) by done. simpl. by rewrite (proj2 W2).
Qed.

(** ** virtio_disk_rw() *)
Section rw.
Context `{Env}.

(** After the request is done: what is left of virtio_disk_rw(). *)
Definition rw_end (i0 : Z) : M unit :=
  upd_disk (λ d, set_dk_info_b (<[Z.to_nat i0 := None]> (dk_info_b d)) d);;
  free_chain i0;;
  release LkVdisk.

Definition given_back (d : vdisk_t) (i0 i1 i2 : nat) : vdisk_t :=
  freed (freed (freed (set_dk_info_b (<[i0 := None]> (dk_info_b d)) d) i0) i1) i2.

Lemma rw_end_spec s i b w i0 i1 i2 : running i s → locks s !! LkVdisk = Some (c_id (cpu s)) →
  (∀ j, (j < NPROC)%nat → locks s !! LkProc j = None) → length (procs s) = NPROC → chained (vdisk s) b w i0 i1 i2 → length (dk_free (vdisk s)) = 8%nat →
  ∃ s', rw_end (Z.of_nat i0) s = Ok tt s' ∧ vdisk s' = given_back (vdisk s) i0 i1 i2 ∧ bcache s' = bcache s ∧ disk s' = disk s ∧ dlog s' = dlog s ∧
    locks s' = delete LkVdisk (locks s) ∧ procs s' !! i = procs s !! i ∧
    cpu s' = mkCpu (Some i) 0 (c_intena (cpu s)) (c_intena (cpu s)) (c_id (cpu s)).
Proof.
  intros Hr Hlk Hl Hlen [H0 H1 H2 H3 H4] Hf. pose proof Hr as (Hp & Hn & Hs). set (s1 := set_vdisk (set_dk_info_b (<[i0 := None]> (dk_info_b (vdisk s))) (vdisk s)) s).
  destruct (chain_spec s1 b w i0 i1 i2) as (ps & Hrun & Hlps & Hps); [by constructor|done|split; [by apply (running_ok i)|auto]|done|].
  eexists. split.
  - unfold rw_end, upd_disk. rewrite bind_modify, Nat2Z.id. fold s1. rewrite (bind_ok _ _ _ _ _ Hrun). by apply release_last.
  - simpl. rewrite Hp. split_and!; try done. by rewrite Hps.
Qed.

(** The call up to the point where it sleeps, and from there on once the request is
    done. *)
Lemma rw_spec s i p x b w i0 i1 i2 : (1 < fuel)%nat → cpu_ok (cpu s) → c_proc (cpu s) = Some i → c_noff (cpu s) = 0 →
  locks s !! LkVdisk = None → locks s !! LkProc i = None → procs s !! i = Some p → bcache s !! b = Some x →
  sizes_ok (vdisk s) → three_free (dk_free (vdisk s)) i0 i1 i2 →
  ∃ s1 k, virtio_disk_rw b w s = Switch s1 k ∧
    procs s1 = <[i := asleep (ChBuf b) p]> (procs s) ∧ locks s1 = <[LkProc i := c_id (cpu s)]> (locks s) ∧
    bcache s1 = <[b := set_b_disk true x]> (bcache s) ∧ disk s1 = disk s ∧ dlog s1 = dlog s ∧
    vdisk s1 = notified (submitted (set_dk_free (taken (dk_free (vdisk s)) i0 i1 i2) (vdisk s)) b w (u32 (b_blockno x * 2)) i0 i1 i2) ∧
    ∀ s2 y, running i s2 → locks s2 !! LkProc i = Some (c_id (cpu s2)) → locks s2 !! LkVdisk = None →
      (∀ j, (j < NPROC)%nat → j ≠ i → locks s2 !! LkProc j = None) → length (procs s2) = NPROC →
      bcache s2 !! b = Some y → b_disk y = false → chained (vdisk s2) b w i0 i1 i2 → length (dk_free (vdisk s2)) = 8%nat →
      ∃ s3, k s2 = Ok tt s3 ∧ vdisk s3 = given_back (vdisk s2) i0 i1 i2 ∧ bcache s3 = bcache s2 ∧ disk s3 = disk s2 ∧ dlog s3 = dlog s2 ∧
        locks s3 = delete (LkProc i) (locks s2) ∧ procs s3 !! i = set_p_chan None <$> procs s2 !! i ∧ c_noff (cpu s3) = 0.
Proof.
  intros Hfuel Hc Hp Hn Hlk Hli Hpi Hx Hsz H3. destruct fuel as [|[|f]] eqn:Ef; [lia|lia|]. clear Hfuel.
  set (h := hold LkVdisk s). set (h1 := set_free (taken (dk_free (vdisk s)) i0 i1 i2) h).
  set (d1 := submitted (vdisk h1) b w (u32 (b_blockno x * 2)) i0 i1 i2).
  set (h2 := set_vdisk (notified d1) (set_bcache (<[b := set_b_disk true x]> (bcache s)) (set_vdisk d1 h1))).
  assert (Hrun : running i h2) by (unfold running, h2, h1, h, hold, pushed; simpl; rewrite Hn; split_and!; done).
  destruct (sleep_eq (ChBuf b) LkVdisk i h2 Hrun) as (s1 & k & Hsl & Hs1 & Hk); [simpl; by rewrite lookup_insert_eq|simpl; by rewrite lookup_insert_ne|by eapply lookup_lt_Some|].
  assert (Hal : alter (set_b_disk true) b (bcache s) = <[b := set_b_disk true x]> (bcache s)) by (by apply list_alter_insert).
  assert (Hb2 : bcache h2 !! b = Some (set_b_disk true x)) by (simpl; apply list_lookup_insert_eq; by eapply lookup_lt_Some).
  eexists s1, _. split_and!.
  - unfold virtio_disk_rw. rewrite Ef. rewrite (bind_ok _ _ _ _ _ (get_buf_eq b s x Hx)). cbv zeta.
    rewrite (bind_ok _ _ _ _ _ (acquire_eq _ s Hlk)). fold h. change (BSIZE / 512) with 2.
    rewrite (bind_ok _ _ h (Z.of_nat i0, Z.of_nat i1, Z.of_nat i2) h1).
    2: { cbn [loop]. rewrite (bind_ok _ _ h (inr (Z.of_nat i0, Z.of_nat i1, Z.of_nat i2)) h1); [done|].
         rewrite (bind_ok _ _ _ _ _ (alloc3_spec h i0 i1 i2 H3 (proj1 (proj2 (proj2 (proj2 Hsz)))))). done. }
    rewrite (bind_ok _ _ _ _ _ (submit_spec b w _ i0 i1 i2 h1)). change (bcache h1) with (bcache s). rewrite Hal. fold d1.
    rewrite (bind_ok _ _ _ _ _ (notify_spec _)). change (set_vdisk _ (set_bcache _ (set_vdisk d1 h1))) with h2.
    cbn [fst loop]. eapply bind_switch, bind_switch. rewrite (bind_ok _ _ _ _ _ (get_buf_eq b h2 (set_b_disk true x) Hb2)). by apply bind_switch.
  - rewrite Hs1. simpl. by apply list_alter_insert.
  - rewrite Hs1. simpl. by rewrite delete_insert_id.
  - by rewrite Hs1.
  - by rewrite Hs1.
  - by rewrite Hs1.
  - by rewrite Hs1.
  - intros s2 y Hr2 Hl2 Hlk2 Hj2 Hlen2 Hy Hyd Hch Hf2. cbv beta. rewrite (Hk s2 Hr2 Hl2 Hlk2). set (s2' := set_cpu _ _). cbn [bind_out].
    assert (Hy' : get_buf b s2' = Ok y s2') by (by apply get_buf_eq).
    assert (Hr2' : running i s2') by (destruct Hr2 as (? & ? & ?); unfold s2', running; by destruct (cpu s2)).
    destruct (rw_end_spec s2' i b w i0 i1 i2 Hr2') as (s3 & Hend & Hv & Hb & Hd & Hdl & Hlo & Hps & Hcpu);
      [simpl; by rewrite lookup_insert_eq| |simpl; by rewrite length_alter|done|done|].
    { intros j Hj. simpl. rewrite lookup_insert_ne by done. destruct (decide (j = i)) as [->|]; [by rewrite lookup_delete_eq|]. rewrite lookup_delete_ne by congruence. by apply Hj2. }
    exists s3. split_and!; try done.
    + cbn [mret M_ret bind_out]. rewrite (bind_ok _ _ s2' (inr tt) s2') by (by rewrite (bind_ok _ _ _ _ _ Hy'), Hyd). exact Hend.
    + rewrite Hlo. simpl. rewrite delete_insert_id; [done|]. by rewrite lookup_delete_ne.
    + rewrite Hps. simpl. by rewrite list_lookup_alter_eq.
    + by rewrite Hcpu.
Qed.
End rw.
