(* ===== verification/Trap.v ===== *)
(** * kernel/trap.c, kernel/plic.c, forkret() of kernel/proc.c, kernel/main.c

    [userret] is where the C code leaves the kernel: usertrapret() ends by
    jumping there with the page table of the process. *)

From Stdlib Require Import ZArith Lia.
From stdpp Require Import base numbers gmap strings countable tactics list.
From S2P Require Import Prelude Machine CString State Spinlock Kalloc Vm Sched Sleeplock Pipe Bio Log Fs Console File Process Exec Sysfile Syscall Virtio.

Definition upd_csr (f : csr_t → csr_t) : M unit := modify (λ s, set_csr (f (csr s)) s).

Section trap.
Context `{Env}.

Definition trapinit : M unit := initlock LkTicks.

Definition trapinithart : M unit := upd_csr (set_r_stvec kernelvec).

Definition clockintr : M unit :=
  acquire LkTicks;;
  modify (λ s, set_ticks (u32 (ticks s + 1)) s);;
  wakeup (Some ChTicks);;
  release LkTicks.

(** kernel/plic.c: the registers that set the controller up are words of memory;
    the claim register answers a read with [r_irq], and a write to it clears it. *)
Definition st32 (a v : Z) : M unit := modify (λ s, set_mem (store32 (mem s) a v) s).

Definition plicinit : M unit :=
  st32 (PLIC + UART0_IRQ * 4) 1;;
  st32 (PLIC + VIRTIO0_IRQ * 4) 1.

Definition plicinithart : M unit :=
  hart ← cpuid;
  st32 (PLIC_SENABLE hart) (Z.lor (Z.shiftl 1 UART0_IRQ) (Z.shiftl 1 VIRTIO0_IRQ));;
  st32 (PLIC_SPRIORITY hart) 0.

Definition plic_claim : M Z := gets (λ s, r_irq (csr s)).
Definition plic_complete (irq : Z) : M unit := upd_csr (set_r_irq 0).

Definition devintr : M Z :=
  c ← gets csr;
  let scause := r_scause c in
  if negb (Z.land scause 0x8000000000000000 =? 0) && (Z.land scause 0xff =? 9) then
    irq ← plic_claim;
    (if irq =? UART0_IRQ then uartintr
     else if irq =? VIRTIO0_IRQ then virtio_disk_intr
     else when (negb (irq =? 0)) (printf ("unexpected interrupt irq=%d" +:+ newline) [PInt irq]));;
    when (negb (irq =? 0)) (plic_complete irq);;
    mret 1
  else if scause =? 0x8000000000000001 then
    id ← cpuid;
    when (id =? 0) clockintr;;
    upd_csr (λ c, set_r_sip (Z.land (r_sip c) (u64 (Z.lnot 2))) c);;
    mret 2
  else mret 0.

(** What the trampoline is entered with: TRAPFRAME and the satp value. *)
Definition usertrapret : M (Z * Z * Z) :=
  me ← cur;
  intr_off;;
  upd_csr (set_r_stvec (TRAMPOLINE + (uservec - trampoline)));;
  c ← gets csr;
  tf_set me TF_kernel_satp (r_satp c);;
  p ← get_proc me;
  tf_set me TF_kernel_sp (u64 (p_kstack p + PGSIZE));;
  tf_set me TF_kernel_trap usertrap_addr;;
  id ← cpuid;
  tf_set me TF_kernel_hartid id;;
  upd_csr (λ c, set_r_spie true (set_r_spp false c));;
  epc ← tf_get me TF_epc;
  upd_csr (set_r_sepc epc);;
  p ← get_proc me;
  mret (TRAMPOLINE + (userret - trampoline), TRAPFRAME, MAKE_SATP (p_pagetable p)).

Definition usertrap (pad : list Z) : M (Z * Z * Z) :=
  c ← gets csr;
  if r_spp c then panic "usertrap: not from user mode"
  else
    upd_csr (set_r_stvec kernelvec);;
    me ← cur;
    tf_set me TF_epc (r_sepc c);;
    which_dev ←
      (if r_scause c =? 8 then
         p ← get_proc me;
         when (p_killed p) (exit (-1));;
         epc ← tf_get me TF_epc;
         tf_set me TF_epc (u64 (epc + 4));;
         intr_on;;
         syscall pad;;
         mret 0
       else
         d ← devintr;
         when (d =? 0)
           (p ← get_proc me;
            printf ("usertrap(): unexpected scause %p pid=%d" +:+ newline) [PPtr (r_scause c); PInt (p_pid p)];;
            printf ("            sepc=%p stval=%p" +:+ newline) [PPtr (r_sepc c); PPtr (r_stval c)];;
            upd_proc me (set_p_killed true));;
         mret d);
    p ← get_proc me;
    when (p_killed p) (exit (-1));;
    when (which_dev =? 2) yield;;
    usertrapret.

Definition kerneltrap : M unit :=
  c ← gets csr;
  if negb (r_spp c) then panic "kerneltrap: not from supervisor mode"
  else
    on ← intr_get;
    if on : bool then panic "kerneltrap: interrupts enabled"
    else
      which_dev ← devintr;
      (if which_dev =? 0 then
         printf ("scause %p" +:+ newline) [PPtr (r_scause c)];;
         printf ("sepc=%p stval=%p" +:+ newline) [PPtr (r_sepc c); PPtr (r_stval c)];;
         panic "kerneltrap"
       else mret tt);;
      (if which_dev =? 2 then
         me ← myproc;
         match me with
         | Some _ =>
             i ← cur;
             p ← get_proc i;
             if decide (p_state p = RUNNING) then yield else mret tt
         | None => mret tt
         end
       else mret tt);;
      intr_off;;
      upd_csr (λ k, set_r_spie (r_spie c) (set_r_spp (r_spp c) (set_r_sepc (r_sepc c) k))).

(** kernel/proc.c: where a new process starts *)
Definition forkret : M (Z * Z * Z) :=
  me ← cur;
  release (LkProc me);;
  f ← gets first;
  when f
    (modify (set_first false);;
     fsinit ROOTDEV);;
  usertrapret.

(** kernel/main.c, up to scheduler(): hart 0, and the other harts once it has
    set [started]. *)
Definition main (regs : virtio_regs) : M unit :=
  consoleinit;;
  printfinit;;
  printf newline [];;
  printf ("xv6 kernel is booting" +:+ newline) [];;
  printf newline [];;
  kinit;;
  kvminit;;
  kvminithart;;
  procinit;;
  trapinit;;
  trapinithart;;
  plicinit;;
  plicinithart;;
  binit;;
  iinit;;
  fileinit;;
  virtio_disk_init regs;;
  userinit.

Definition main_secondary : M unit :=
  id ← cpuid;
  printf ("hart %d starting" +:+ newline) [PInt id];;
  kvminithart;;
  trapinithart;;
  plicinithart.
End trap.
