(* ===== verification/User.v ===== *)
(** * What a user program sees of the system

    The programs under user/ run on the system calls only. A computation of a
    program is a function on the [world] it sees: for every open descriptor what
    the reads of it will deliver, the files it can open, and what it has written.
    A stream is the list of deliveries of successive reads: [Some bs] is a
    non-empty run of bytes that is available at once (a pipe, the console and a
    file all deliver fewer bytes than asked for at times), [None] is an error;
    the end of the list is the end of the file. *)

From Stdlib Require Import ZArith Lia.
From stdpp Require Import base numbers gmap strings countable tactics list.
From S2P Require Import Prelude Machine.

Definition stream := list (option (list Z)).

(** The system calls that act on something a program does not see again. The
    arguments of exec() are the array of pointers up to the first null. *)
Inductive call :=
  | CKill (pid : Z) | CLink (old new : list Z) | CMkdir (path : list Z) | CUnlink (path : list Z)
  | CTrace (mask : Z) | CExec (path : list Z) (argv : list (list Z))
  | CChdir (path : list Z) | CSpawn (line : list Z)
  | COpen (path : list Z) (mode : Z) | CMknod (path : list Z) (major minor : Z) | CDup (fd : Z)
  | CFork | CWait | CFstat (fd : Z).

Record world := mkWorld {
  w_fds : gmap Z stream;                       (* open descriptors *)
  w_files : list (list Z * stream);            (* files that open() finds *)
  w_bad : gset Z;                              (* descriptors that fail on write() *)
  w_out : list (Z * list Z);                   (* the writes so far *)
  w_answers : list Z;                          (* what the other calls will return *)
  w_calls : list call;                         (* the other calls so far *)
}.

Definition set_w_fds fds (w : world) := mkWorld fds (w_files w) (w_bad w) (w_out w) (w_answers w) (w_calls w).
Definition set_w_out o (w : world) := mkWorld (w_fds w) (w_files w) (w_bad w) o (w_answers w) (w_calls w).

(** [Exited]: the program called exit(). [Starved]: a loop ran out of fuel. *)
Inductive ures (A : Type) :=
  | Done (a : A) (w : world)
  | Exited (code : Z) (w : world)
  | Starved.
Arguments Done {A} a w.
Arguments Exited {A} code w.
Arguments Starved {A}.

Definition U (A : Type) : Type := world → ures A.

#[global] Instance U_ret : MRet U := λ A a w, Done a w.
#[global] Instance U_bind : MBind U := λ A B f m w,
  match m w with
  | Done a w => f a w
  | Exited c w => Exited c w
  | Starved => Starved
  end.

Definition uexit {A} (code : Z) : U A := λ w, Exited code w.

(** A loop: the body says whether to go on with a new state or to stop. *)
Fixpoint uloop {S A} (n : nat) (body : S → U (S + A)) (x : S) : U A :=
  match n with
  | O => λ _, Starved
  | Datatypes.S n =>
      r ← body x;
      match r with
      | inl x => uloop n body x
      | inr a => mret a
      end
  end.

(** ** System calls *)

(** read(): the bytes delivered, or -1. *)
Definition take_stream (st : stream) (n : Z) : option (list Z) * stream :=
  match st with
  | [] => (Some [], [])
  | None :: st => (None, st)
  | Some bs :: st =>
      let k := Z.to_nat n in
      (Some (take k bs), if decide (drop k bs = []) then st else Some (drop k bs) :: st)
  end.

Definition u_read (fd n : Z) : U (option (list Z)) := λ w,
  match w_fds w !! fd with
  | None => Done None w
  | Some st => let '(r, st) := take_stream st n in Done r (set_w_fds (<[fd := st]> (w_fds w)) w)
  end.

Definition u_write (fd : Z) (bs : list Z) : U Z := λ w,
  if decide (fd ∈ w_bad w) then Done (-1) w
  else Done (Z.of_nat (length bs)) (set_w_out (w_out w ++ [(fd, bs)]) w).

(** The lowest descriptor that is free, as fdalloc() of kernel/sysfile.c. *)
Definition lowest_fd (fds : gmap Z stream) : option Z :=
  snd <$> list_find (λ fd, fds !! fd = None) (seqZ 0 (Z.of_nat NOFILE)).

Definition u_open (path : list Z) : U Z := λ w,
  match list_find (λ f, f.1 = path) (w_files w), lowest_fd (w_fds w) with
  | Some (_, (_, st)), Some fd => Done fd (set_w_fds (<[fd := st]> (w_fds w)) w)
  | _, _ => Done (-1) w
  end.

Definition u_close (fd : Z) : U unit := λ w, Done tt (set_w_fds (delete fd (w_fds w)) w).

(** Any other call: recorded, and answered with the next answer, or -1. *)
Definition u_other (c : call) : U Z := λ w,
  Done (hd (-1) (w_answers w))
    (mkWorld (w_fds w) (w_files w) (w_bad w) (w_out w) (tail (w_answers w)) (w_calls w ++ [c])).

(** The fields of struct stat that programs read. *)
Record ustat := mkStat { st_type : Z; st_ino : Z; st_size : Z }.

Definition u_answer : U Z := λ w,
  Done (hd (-1) (w_answers w)) (mkWorld (w_fds w) (w_files w) (w_bad w) (w_out w) (tail (w_answers w)) (w_calls w)).

(** fstat(): the answer of the call and, when it is not negative, the three
    fields, which are the next answers. *)
Definition u_fstat (fd : Z) : U (option ustat) :=
  r ← u_other (CFstat fd);
  if r <? 0 then mret None
  else t ← u_answer; i ← u_answer; n ← u_answer; mret (Some (mkStat t i n)).

(** ** Streams *)

(** The bytes a stream delivers before it ends. *)
Definition stream_bytes (st : stream) : list Z := concat (default [] <$> st).

(** A stream without errors, whose deliveries are not empty. *)
Definition healthy (st : stream) : Prop := ∀ x, x ∈ st → ∃ bs, x = Some bs ∧ bs ≠ [].

(** What a program wrote to [fd]. *)
Definition written (fd : Z) (w : world) : list Z :=
  concat ((λ o, if decide (o.1 = fd) then o.2 else []) <$> w_out w).

Lemma written_app fd w o : written fd (set_w_out (w_out w ++ o) w) =
  written fd w ++ concat ((λ o, if decide (o.1 = fd) then o.2 else []) <$> o).
Proof. unfold written. simpl. by rewrite fmap_app, concat_app. Qed.

Lemma ubind_done {A B} (m : U A) (f : A → U B) w a w' : m w = Done a w' → (m ≫= f) w = f a w'.
Proof. intros Hm. unfold mbind, U_bind. by rewrite Hm. Qed.

Lemma uloop_S {S A} n (body : S → U (S + A)) x :
  uloop (Datatypes.S n) body x = (r ← body x; match r with inl x => uloop n body x | inr a => mret a end).
Proof. done. Qed.

(** One read of a healthy stream with room for at least a byte takes some
    bytes off its front, or finds the end. *)
Lemma take_stream_healthy st n : healthy st → 0 < n →
  ∃ bs st', take_stream st n = (Some bs, st') ∧ healthy st' ∧ stream_bytes st = bs ++ stream_bytes st' ∧
    (length bs ≤ Z.to_nat n)%nat ∧ (bs = [] → stream_bytes st = []).
Proof.
  intros Hst Hn. destruct st as [|x st].
  { exists [], []. do 3 (split; [done|]). split; [simpl; lia|done]. }
  destruct (Hst x (list_elem_of_here _ _)) as (bs & -> & Hbs).
  assert (Hst' : healthy st) by (intros y Hy; apply Hst; by apply list_elem_of_further).
  simpl. eexists _, _. split; [done|]. unfold stream_bytes at 1. simpl. fold (stream_bytes st).
  split; [|split; [|split]].
  - case_decide; [done|]. intros y [->|Hy]%elem_of_cons; [by eexists|by apply Hst'].
  - case_decide as Hd.
    + rewrite <- (take_drop (Z.to_nat n) bs) at 1. by rewrite Hd, app_nil_r.
    + unfold stream_bytes. simpl. by rewrite app_assoc, take_drop.
  - rewrite length_take. lia.
  - intros Hnil. destruct bs as [|b bs]; [done|]. destruct (Z.to_nat n) eqn:E; [lia|done].
Qed.
