(* ===== verification/Ulib.v ===== *)
(** * user/ulib.c and user/printf.c

    The library of the user programs. A char array is a list of bytes, read as if
    a zero byte followed it; memmove() works on byte memory, where its source and
    destination can overlap. *)

From Stdlib Require Import ZArith Lia.
From stdpp Require Import base numbers gmap strings countable tactics list.
From S2P Require Import Prelude Machine CString User.

(** ** Strings *)

(** The C string at the start of an array. *)
Fixpoint cstr (s : list Z) : list Z :=
  match s with
  | [] => []
  | c :: s => if c =? 0 then [] else c :: cstr s
  end.

(** The copy loop, from index [i] of the destination. *)
Fixpoint strcpy_at (s : list Z) (i : Z) (t : list Z) : list Z :=
  match t with
  | [] => updZ s i 0
  | c :: t => if c =? 0 then updZ s i 0 else strcpy_at (updZ s i c) (i + 1) t
  end.
Definition strcpy (s t : list Z) : list Z := strcpy_at s 0 t.

Fixpoint strcmp (p q : list Z) : Z :=
  match p with
  | [] => - u8 (nthZ q 0)
  | c :: p' =>
      if negb (c =? 0) && (c =? nthZ q 0) then strcmp p' (tail q) else u8 c - u8 (nthZ q 0)
  end.

Definition strlen (s : list Z) : Z := Z.of_nat (length (cstr s)).

(** The index of the first [c]; the terminator is not searched for. *)
Fixpoint strchr_from (s : list Z) (c : Z) (i : nat) : option nat :=
  match s with
  | [] => None
  | x :: s => if x =? 0 then None else if x =? c then Some i else strchr_from s c (S i)
  end.
Definition strchr (s : list Z) (c : Z) : option nat := strchr_from s c 0.

(** [for(i = 0; i < n; i++) cdst[i] = c;] *)
Fixpoint memset_at (s : list Z) (i c : Z) (n : nat) : list Z :=
  match n with
  | O => s
  | S n => memset_at (updZ s i (u8 c)) (i + 1) c n
  end.
Definition memset (s : list Z) (c : Z) (n : nat) : list Z := memset_at s 0 c n.

(** [while(src > dst)] upwards, else downwards. *)
Definition memmove (m : gmap Z Z) (dst src : Z) (n : nat) : gmap Z Z :=
  if dst <? src then copy_up m dst src n
  else copy_down m (dst + Z.of_nat n) (src + Z.of_nat n) n.

Fixpoint memcmp (p1 p2 : list Z) (n : nat) : Z :=
  match n with
  | O => 0
  | S n => if nthZ p1 0 =? nthZ p2 0 then memcmp (tail p1) (tail p2) n else nthZ p1 0 - nthZ p2 0
  end.

(** ['0' <= *s && *s <= '9'] *)
Definition is_digit (c : Z) : bool := (48 <=? c) && (c <=? 57).

Fixpoint atoi_from (n : Z) (s : list Z) : Z :=
  match s with
  | [] => n
  | c :: s => if is_digit c then atoi_from (s32 (n * 10 + c - 48)) s else n
  end.
Definition atoi (s : list Z) : Z := atoi_from 0 s.

(** gets(): a line, at most [max - 1] bytes, with its newline. *)
Definition gets (buf : list Z) (max : Z) : U (list Z) :=
  r ← uloop (S (Z.to_nat max)) (λ '(buf, i),
    if i + 1 <? max then
      cc ← u_read 0 1;
      match cc with
      | Some [c] =>
          let buf := updZ buf i c in
          if (c =? 10) || (c =? 13) then mret (inr (buf, i + 1)) else mret (inl (buf, i + 1))
      | _ => mret (inr (buf, i))
      end
    else mret (inr (buf, i))) (buf, 0);
  mret (updZ r.1 r.2 0).

(** stat(): open(), fstat(), close(). *)
Definition stat (n : list Z) : U (option ustat) :=
  fd ← u_open n;
  if fd <? 0 then mret None
  else
    r ← u_fstat fd;
    u_close fd;;
    mret r.

(** ** printf *)
Definition bytes_of (s : string) : list Z :=
  (λ c, Z.of_N (Ascii.N_of_ascii c)) <$> String.list_ascii_of_string s.

Definition digits : list Z := bytes_of "0123456789ABCDEF".

Definition putc (fd c : Z) : U unit := u_write fd [u8 c];; mret tt.

Fixpoint put_chars (fd : Z) (cs : list Z) : U unit :=
  match cs with
  | [] => mret tt
  | c :: cs => putc fd c;; put_chars fd cs
  end.

(** The do-while loop: the digits of a 32-bit [x], least significant first. *)
Fixpoint digit_loop (n : nat) (x base : Z) : list Z :=
  match n with
  | O => []
  | S n => nthZ digits (x mod base) :: (if x / base =? 0 then [] else digit_loop n (x / base) base)
  end.

(** The characters of printint(), in the order they are sent. *)
Definition int_chars (xx base : Z) (sgn : bool) : list Z :=
  let neg := sgn && (xx <? 0) in
  let x := if neg then u32 (- xx) else u32 xx in
  reverse (digit_loop 32 x base ++ (if neg then [45] else [])).
Definition printint (fd xx base : Z) (sgn : bool) : U unit := put_chars fd (int_chars xx base sgn).

Fixpoint ptr_digits (n : nat) (x : Z) : list Z :=
  match n with
  | O => []
  | S n => nthZ digits (Z.shiftr x 60) :: ptr_digits n (u64 (Z.shiftl x 4))
  end.
Definition printptr (fd x : Z) : U unit := put_chars fd (bytes_of "0x" ++ ptr_digits 16 x).

(** The variable arguments: a word, or a string; [AStr None] is a null pointer. *)
Inductive varg := AWord (x : Z) | AStr (s : option (list Z)).

Definition arg_word (a : list varg) : Z := match a with AWord x :: _ => x | _ => 0 end.
Definition arg_chars (a : list varg) : list Z :=
  match a with AStr (Some s) :: _ => cstr s | _ => bytes_of "(null)" end.

(** [pct]: the state of vprintf() is '%'. *)
Fixpoint vprintf_from (fd : Z) (pct : bool) (fmt : list Z) (ap : list varg) : U unit :=
  match fmt with
  | [] => mret tt
  | c :: fmt =>
      if c =? 0 then mret tt
      else if negb pct then
        if c =? 37 then vprintf_from fd true fmt ap
        else putc fd c;; vprintf_from fd false fmt ap
      else if c =? 100 then printint fd (s32 (arg_word ap)) 10 true;; vprintf_from fd false fmt (tail ap)
      else if c =? 108 then printint fd (s32 (arg_word ap)) 10 false;; vprintf_from fd false fmt (tail ap)
      else if c =? 120 then printint fd (s32 (arg_word ap)) 16 false;; vprintf_from fd false fmt (tail ap)
      else if c =? 112 then printptr fd (u64 (arg_word ap));; vprintf_from fd false fmt (tail ap)
      else if c =? 115 then put_chars fd (arg_chars ap);; vprintf_from fd false fmt (tail ap)
      else if c =? 99 then putc fd (u32 (arg_word ap));; vprintf_from fd false fmt (tail ap)
      else if c =? 37 then putc fd c;; vprintf_from fd false fmt ap
      else putc fd 37;; putc fd c;; vprintf_from fd false fmt ap
  end.
Definition vprintf (fd : Z) (fmt : list Z) (ap : list varg) : U unit := vprintf_from fd false fmt ap.
Definition fprintf (fd : Z) (fmt : string) (ap : list varg) : U unit := vprintf fd (bytes_of fmt) ap.
Definition printf (fmt : string) (ap : list varg) : U unit := vprintf 1 (bytes_of fmt) ap.

(** ** Lemmas *)
Lemma cstr_nul s : (∀ c, c ∈ s → c ≠ 0) → cstr s = s.
Proof.
  induction s as [|c s IH]; intros Hs; [done|]. simpl.
  rewrite (proj2 (Z.eqb_neq c 0)) by (apply Hs, list_elem_of_here). f_equal. apply IH.
  intros x Hx. by apply Hs, list_elem_of_further.
Qed.

Lemma cstr_app s t : (∀ c, c ∈ s → c ≠ 0) → cstr (s ++ 0 :: t) = s.
Proof.
  induction s as [|c s IH]; intros Hs; [done|]. simpl.
  rewrite (proj2 (Z.eqb_neq c 0)) by (apply Hs, list_elem_of_here). f_equal. apply IH.
  intros x Hx. by apply Hs, list_elem_of_further.
Qed.

Lemma strchr_from_none s c i : c ∉ cstr s → strchr_from s c i = None.
Proof.
  revert i. induction s as [|x s IH]; intros i Hs; [done|]. simpl in *.
  destruct (Z.eqb_spec x 0); [done|]. apply not_elem_of_cons in Hs as [Hx Hs].
  rewrite (proj2 (Z.eqb_neq x c)) by done. by apply IH.
Qed.

(** strchr() finds the first occurrence. *)
Lemma strchr_from_app s c t i : c ≠ 0 → c ∉ s → (∀ x, x ∈ s → x ≠ 0) →
  strchr_from (s ++ c :: t) c i = Some (i + length s)%nat.
Proof.
  intros Hc. revert i. induction s as [|x s IH]; intros i Hs Hn; simpl.
  - rewrite (proj2 (Z.eqb_neq c 0)), Z.eqb_refl by done. f_equal. lia.
  - rewrite (proj2 (Z.eqb_neq x 0)) by (apply Hn, list_elem_of_here).
    apply not_elem_of_cons in Hs as [Hx Hs]. rewrite (proj2 (Z.eqb_neq x c)) by done.
    rewrite IH; [f_equal; lia|done|]. intros y Hy. by apply Hn, list_elem_of_further.
Qed.

Lemma is_space_strchr (s : list Z) c : is_Some (strchr s c) ↔ c ∈ cstr s ∧ c ≠ 0.
Proof.
  unfold strchr. generalize 0%nat as i. induction s as [|x s IH]; intros i; simpl.
  - split; [by intros []|]. by intros [Hc%elem_of_nil _].
  - destruct (Z.eqb_spec x 0) as [->|Hx].
    { split; [by intros []|]. by intros [Hc%elem_of_nil _]. }
    rewrite elem_of_cons. destruct (Z.eqb_spec x c) as [->|Hxc].
    + split; [|by eexists]. intros _. split; [by left|done].
    + rewrite IH. split; intros [? ?]; split; try done; [by right|]. by destruct H as [->|].
Qed.

(** ** Numbers *)
Lemma digit_char x : 0 ≤ x < 10 → nthZ digits x = 48 + x ∧ is_digit (48 + x) = true.
Proof.
  intros Hx. assert (H : x = 0 ∨ x = 1 ∨ x = 2 ∨ x = 3 ∨ x = 4 ∨ x = 5 ∨ x = 6 ∨ x = 7 ∨ x = 8 ∨ x = 9) by lia.
  destruct_or! H; by subst.
Qed.

Lemma atoi_from_app n a b : Forall (λ c, is_digit c = true) a → atoi_from n (a ++ b) = atoi_from (atoi_from n a) b.
Proof.
  revert n. induction a as [|c a IH]; intros n Ha; [done|]. apply Forall_cons in Ha as [Hc Ha]. simpl.
  rewrite Hc. by apply IH.
Qed.

Lemma digit_loop_digits n x : 0 ≤ x → Forall (λ c, is_digit c = true) (digit_loop n x 10).
Proof.
  revert x. induction n as [|n IH]; intros x Hx; simpl; [constructor|].
  destruct (digit_char (x mod 10)) as [-> Hd]; [apply Z.mod_pos_bound; lia|]. constructor; [done|].
  case_match; [constructor|]. apply IH. apply Z.div_pos; lia.
Qed.

Lemma atoi_digits n x : 0 ≤ x < 2 ^ 31 → x < 10 ^ Z.of_nat n → atoi_from 0 (reverse (digit_loop n x 10)) = x.
Proof.
  revert x. induction n as [|n IH]; intros x Hx Hn; [simpl in *; lia|]. cbn [digit_loop].
  rewrite reverse_cons, atoi_from_app.
  2:{ apply Forall_reverse. case_match; [constructor|]. apply digit_loop_digits, Z.div_pos; lia. }
  destruct (digit_char (x mod 10)) as [-> Hd]; [apply Z.mod_pos_bound; lia|].
  assert (Hq : atoi_from 0 (reverse (if x / 10 =? 0 then [] else digit_loop n (x / 10) 10)) = x / 10).
  { destruct (Z.eqb_spec (x / 10) 0) as [->|Hne]; [done|]. apply IH.
    - split; [apply Z.div_pos; lia|]. apply Z.div_lt_upper_bound; lia.
    - apply Z.div_lt_upper_bound; [lia|]. rewrite Nat2Z.inj_succ, Z.pow_succ_r in Hn by lia. lia. }
  rewrite Hq. cbn [atoi_from]. rewrite Hd. pose proof (Z.div_mod x 10 ltac:(lia)).
  rewrite s32_small; lia.
Qed.
