(* ===== verification/Umalloc.v ===== *)
(** * user/umalloc.c: the memory allocator of the programs

    Headers are kept by address: the two fields [ptr] and [size] of the header at
    an address. [base] is the address of the static header that the free list
    starts from. sbrk() is sys_sbrk() of kernel/sysproc.c as the program sees it. *)

From Stdlib Require Import ZArith Lia.
From stdpp Require Import base numbers gmap strings countable tactics list.
From S2P Require Import Prelude Machine.

Record arena := mkArena {
  a_ptr : gmap Z Z;          (* s.ptr of the header at an address *)
  a_size : gmap Z Z;         (* s.size *)
  a_freep : Z;
  a_brk : Z;                 (* the size of the process *)
  a_grants : list bool;      (* whether the next requests for memory succeed *)
}.

Definition set_ptr (p v : Z) (s : arena) := mkArena (<[p := v]> (a_ptr s)) (a_size s) (a_freep s) (a_brk s) (a_grants s).
Definition set_size (p v : Z) (s : arena) := mkArena (a_ptr s) (<[p := v]> (a_size s)) (a_freep s) (a_brk s) (a_grants s).
Definition set_freep (p : Z) (s : arena) := mkArena (a_ptr s) (a_size s) p (a_brk s) (a_grants s).
Definition set_brk (n : Z) (g : list bool) (s : arena) := mkArena (a_ptr s) (a_size s) (a_freep s) n g.

Definition ptr (s : arena) (p : Z) : Z := a_ptr s !!! p.
Definition size_of (s : arena) (p : Z) : Z := a_size s !!! p.

(** sizeof(Header), and [p + n] for a pointer to headers *)
Definition hsize : Z := 16.
Definition plus (p n : Z) : Z := u64 (p + hsize * n).

(** ** The operations *)
Section umalloc.
Context (base : Z).

(** The loop of free(): the free block after which [bp] goes. *)
Fixpoint free_find (fuel : nat) (s : arena) (bp p : Z) : option Z :=
  match fuel with
  | O => None
  | S fuel =>
      if (p <? bp) && (bp <? ptr s p) then Some p
      else if (ptr s p <=? p) && ((p <? bp) || (bp <? ptr s p)) then Some p
      else free_find fuel s bp (ptr s p)
  end.

Definition free_up (bp p : Z) (s : arena) : arena :=
  if plus bp (size_of s bp) =? ptr s p then
    let s := set_size bp (u32 (size_of s bp + size_of s (ptr s p))) s in
    set_ptr bp (ptr s (ptr s p)) s
  else set_ptr bp (ptr s p) s.

Definition free_down (bp p : Z) (s : arena) : arena :=
  if plus p (size_of s p) =? bp then
    let s := set_size p (u32 (size_of s p + size_of s bp)) s in
    set_ptr p (ptr s bp) s
  else set_ptr p bp s.

Definition free (fuel : nat) (ap : Z) (s : arena) : option arena :=
  let bp := u64 (ap - hsize) in
  p ← free_find fuel s bp (a_freep s);
  Some (set_freep p (free_down bp p (free_up bp p s))).

(** growproc() cannot fail to shrink. The old size comes back as an int. *)
Definition sbrk (n : Z) (s : arena) : Z * arena :=
  let addr := u64 (s32 (a_brk s)) in
  if n <=? 0 then (addr, set_brk (u32 (a_brk s + n)) (a_grants s) s)
  else match a_grants s with
  | true :: g => (addr, set_brk (u32 (a_brk s + n)) g s)
  | _ => (u64 (-1), set_brk (a_brk s) (tail (a_grants s)) s)
  end.

Definition morecore (fuel : nat) (nu : Z) (s : arena) : option (Z * arena) :=
  let nu := if nu <? 4096 then 4096 else nu in
  let '(p, s) := sbrk (s32 (nu * hsize)) s in
  if p =? u64 (-1) then Some (0, s)
  else
    let s := set_size p nu s in
    s ← free fuel (plus p 1) s;
    Some (a_freep s, s).

(** Taking [nunits] units from the block at [p], the successor of [prevp]. *)
Definition malloc_take (nunits prevp p : Z) (s : arena) : Z * arena :=
  if size_of s p =? nunits then (plus p 1, set_freep prevp (set_ptr prevp (ptr s p) s))
  else
    let s := set_size p (u32 (size_of s p - nunits)) s in
    let p := plus p (size_of s p) in
    (plus p 1, set_freep prevp (set_size p nunits s)).

Fixpoint malloc_loop (fuel : nat) (nunits prevp p : Z) (s : arena) : option (Z * arena) :=
  match fuel with
  | O => None
  | S fuel =>
      if nunits <=? size_of s p then Some (malloc_take nunits prevp p s)
      else if p =? a_freep s then
        '(p, s) ← morecore fuel nunits s;
        if p =? 0 then Some (0, s) else malloc_loop fuel nunits p (ptr s p) s
      else malloc_loop fuel nunits p (ptr s p) s
  end.

(** The number of header-sized units for [nbytes] bytes and the header. *)
Definition units_for (nbytes : Z) : Z := u32 ((nbytes + hsize - 1) / hsize + 1).

Definition malloc (fuel : nat) (nbytes : Z) (s : arena) : option (Z * arena) :=
  let s := if a_freep s =? 0 then set_size base 0 (set_freep base (set_ptr base base s)) else s in
  malloc_loop fuel (units_for nbytes) (a_freep s) (ptr s (a_freep s)) s.

(** ** Blocks

    A block is its address and its number of units. *)
Fixpoint cover (L : list (Z * Z)) (x : Z) : Z :=
  match L with
  | [] => 0
  | b :: L => (if decide (b.1 ≤ x < b.1 + hsize * b.2) then 1 else 0) + cover L x
  end.

Fixpoint units (L : list (Z * Z)) : Z :=
  match L with
  | [] => 0
  | b :: L => b.2 + units L
  end.

(** Ascending, and no two blocks touch. *)
Definition before (b c : Z * Z) : Prop := b.1 + hsize * b.2 < c.1.

Fixpoint gapped (L : list (Z * Z)) : Prop :=
  match L with
  | [] => True
  | b :: L => (∀ c, c ∈ L → before b c) ∧ gapped L
  end.

(** Every header of the list links to the next one, the last to [e]. *)
Fixpoint linked (m : gmap Z Z) (L : list Z) (e : Z) : Prop :=
  match L with
  | [] => True
  | a :: L => m !!! a = hd e L ∧ linked m L e
  end.

(** Freeing a block, on the list of free blocks: it joins the neighbours that it
    touches. *)
Definition join (b : Z * Z) (L : list (Z * Z)) : list (Z * Z) :=
  match L with
  | c :: L' => if b.1 + hsize * b.2 =? c.1 then (b.1, b.2 + c.2) :: L' else b :: L
  | [] => [b]
  end.

Fixpoint insert_block (b : Z * Z) (L : list (Z * Z)) : list (Z * Z) :=
  match L with
  | c :: L' => if b.1 <? c.1 then join b L else join c (insert_block b L')
  | [] => [b]
  end.

Record heap (s : arena) (F A : list (Z * Z)) : Prop := {
  h_ring : linked (a_ptr s) (base :: F.*1) base;
  h_gaps : gapped F;
  h_block : ∀ b, b ∈ F ++ A → size_of s b.1 = b.2 ∧ 0 < b.2 ∧ base + hsize ≤ b.1 ∧ b.1 + hsize * b.2 ≤ a_brk s;
  h_disj : ∀ x, cover (F ++ A) x ≤ 1;
  h_base : 0 < base ∧ size_of s base = 0;
  h_freep : a_freep s ∈ base :: F.*1;
  h_brk : base + hsize ≤ a_brk s < 2 ^ 31;
}.

(** Before the first malloc(), or after it. *)
Definition ready (s : arena) (F A : list (Z * Z)) : Prop :=
  heap s F A ∨ a_freep s = 0 ∧ F = [] ∧ A = [] ∧ 0 < base ∧ base + hsize ≤ a_brk s < 2 ^ 31.
End umalloc.
