(* ===== verification/UmallocTheory.v ===== *)
(** * The allocator keeps a heap

    The free blocks form a ring in address order that starts at the static header,
    no two of them touch, and free and live blocks share no byte. malloc() and
    free() keep this, from any header of the ring at which they start. *)

From Stdlib Require Import ZArith Lia.
From stdpp Require Import base numbers gmap strings countable tactics list sorting.
From S2P Require Import Prelude Machine Umalloc.

(** ** Lists of blocks *)
Lemma cover_app L1 L2 x : cover (L1 ++ L2) x = cover L1 x + cover L2 x.
Proof. induction L1 as [|b L1 IH]; simpl; [lia|]. rewrite IH. lia. Qed.

Lemma units_app L1 L2 : units (L1 ++ L2) = units L1 + units L2.
Proof. induction L1 as [|b L1 IH]; simpl; [lia|]. rewrite IH. lia. Qed.

Lemma cover_nonneg L x : 0 ≤ cover L x.
Proof. induction L as [|b L IH]; simpl; [lia|]. case_decide; lia. Qed.

Lemma cover_in L b x : b ∈ L → b.1 ≤ x < b.1 + hsize * b.2 → 1 ≤ cover L x.
Proof.
  intros Hb Hx. induction L as [|c L IH]; [by apply not_elem_of_nil in Hb|]. simpl. pose proof (cover_nonneg L x).
  apply elem_of_cons in Hb as [<-|Hb]; [rewrite decide_True by done; lia|]. specialize (IH Hb). case_decide; lia.
Qed.

(** Memory that no block of a list reaches. *)
Lemma cover_out L x : (∀ b, b ∈ L → b.1 + hsize * b.2 ≤ x ∨ x < b.1) → cover L x = 0.
Proof.
  induction L as [|b L IH]; intros HL; [done|]. simpl. rewrite IH by (intros c Hc; apply HL; by right).
  destruct (HL b (list_elem_of_here _ _)); rewrite decide_False by lia; lia.
Qed.

(** A block cut in two. *)
Lemma cover_split a n k x : 0 ≤ k ≤ n → cover [(a, n)] x = cover [(a, k); (a + hsize * k, n - k)] x.
Proof. intros Hk. unfold hsize. simpl. repeat case_decide; unfold hsize in *; lia. Qed.

Lemma gapped_app L1 L2 : gapped (L1 ++ L2) ↔ gapped L1 ∧ gapped L2 ∧ ∀ b c, b ∈ L1 → c ∈ L2 → before b c.
Proof.
  induction L1 as [|b L1 IH]; simpl.
  { split; [intros H; split_and!; [done..|]; intros ? ? []%not_elem_of_nil|by intros (_ & ? & _)]. }
  rewrite IH. split.
  - intros (Hb & H1 & H2 & H12). split_and!; try done.
    + intros c Hc. apply Hb, elem_of_app. by left.
    + intros b' c [->|Hb']%elem_of_cons Hc; [apply Hb, elem_of_app; by right|by apply H12].
  - intros ((Hb & H1) & H2 & H12). split_and!; try done.
    + intros c [Hc|Hc]%elem_of_app; [by apply Hb|apply H12; [by left|done]].
    + intros b' c Hb' Hc. apply H12; [by right|done].
Qed.

Lemma linked_app m L1 L2 e : linked m (L1 ++ L2) e ↔ linked m L1 (hd e L2) ∧ linked m L2 e.
Proof.
  induction L1 as [|a L1 IH]; simpl; [tauto|]. rewrite IH.
  destruct L1 as [|b L1]; simpl; [destruct L2; simpl; tauto|tauto].
Qed.

Lemma linked_ext m m' L e : (∀ a, a ∈ L → m' !!! a = m !!! a) → linked m L e → linked m' L e.
Proof.
  induction L as [|a L IH]; simpl; [done|]. intros Hm [Ha HL]. split; [by rewrite Hm by left|].
  apply IH; [|done]. intros b Hb. apply Hm. by right.
Qed.

(** *** Inserting a block *)
Lemma join_before b c L : before b c → join b (c :: L) = b :: c :: L.
Proof. unfold before, join. intros H. destruct (_ =? _) eqn:E; [lia|done]. Qed.

Lemma join_units b L : units (join b L) = b.2 + units L.
Proof. destruct L as [|c L]; simpl; [done|]. destruct (_ =? _); simpl; lia. Qed.

Lemma insert_units b L : units (insert_block b L) = b.2 + units L.
Proof. induction L as [|c L IH]; [done|]. cbn [insert_block]. destruct (_ <? _); rewrite join_units; simpl; lia. Qed.

Lemma join_pos b L : 0 ≤ b.2 → (∀ c, c ∈ L → 0 ≤ c.2) → ∀ c, c ∈ join b L → 0 ≤ c.2.
Proof.
  intros Hb HL c. destruct L as [|d L]; simpl; [intros ->%list_elem_of_singleton; done|].
  pose proof (HL d (list_elem_of_here _ _)). destruct (_ =? _); [|intros [->|Hc]%elem_of_cons; [done|by apply HL]].
  intros [->|Hc]%elem_of_cons; [simpl; lia|apply HL; by right].
Qed.

Lemma insert_pos b L : 0 ≤ b.2 → (∀ c, c ∈ L → 0 ≤ c.2) → ∀ c, c ∈ insert_block b L → 0 ≤ c.2.
Proof.
  intros Hb. induction L as [|d L IH]; intros HL c; [intros ->%list_elem_of_singleton; done|]. cbn [insert_block].
  destruct (_ <? _); apply join_pos; try done; [apply HL; by left|]. apply IH. intros e He. apply HL. by right.
Qed.

Lemma join_cover b L x : 0 ≤ b.2 → (∀ c, c ∈ L → 0 ≤ c.2) → cover (join b L) x = cover (b :: L) x.
Proof.
  intros Hb HL. destruct L as [|c L]; [done|]. pose proof (HL c (list_elem_of_here _ _)). cbn [join].
  destruct (_ =? _) eqn:E; [|done]. cbn [cover fst snd]. unfold hsize in *. repeat case_decide; lia.
Qed.

(** The block is added to the free memory, byte for byte. *)
Lemma insert_cover b L x : 0 ≤ b.2 → (∀ c, c ∈ L → 0 ≤ c.2) → cover (insert_block b L) x = cover (b :: L) x.
Proof.
  intros Hb. induction L as [|c L IH]; intros HL; [done|]. cbn [insert_block].
  assert (HL' : ∀ d, d ∈ L → 0 ≤ d.2) by (intros d Hd; apply HL; by right). pose proof (HL c (list_elem_of_here _ _)).
  destruct (_ <? _); [by apply join_cover|]. rewrite join_cover by (try done; by apply insert_pos).
  simpl in *. rewrite IH by done. lia.
Qed.

(** Where the block goes: after [p], before [F2]. *)
Lemma insert_split b F1 p F2 : gapped (F1 ++ p :: F2) → (∀ c, c ∈ F1 → 0 ≤ c.2) → p.1 < b.1 → (∀ c, c ∈ F2 → b.1 < c.1) →
  insert_block b (F1 ++ p :: F2) = F1 ++ join p (join b F2).
Proof.
  intros Hg Hpos Hp Hb. induction F1 as [|c F1 IH].
  - cbn [app insert_block]. destruct (_ <? _) eqn:E; [lia|]. f_equal. destruct F2 as [|d F2]; [done|]. cbn [insert_block].
    specialize (Hb d (list_elem_of_here _ _)). by destruct (b.1 <? d.1) eqn:E'; [|lia].
  - destruct Hg as [Hc Hg]. assert (before c p) as Hcp by (apply Hc, elem_of_app; right; by left).
    pose proof (Hpos c (list_elem_of_here _ _)). cbn [app insert_block]. unfold before, hsize in Hcp.
    destruct (b.1 <? c.1) eqn:E; [lia|]. rewrite IH by (done || (intros d Hd; apply Hpos; by right)).
    destruct F1 as [|d F1]; [|cbn [app]; rewrite join_before; [done|]; apply Hc, elem_of_app; left; by left].
    cbn [app]. destruct (join p (join b F2)) as [|q Q] eqn:E'; [by destruct (join b F2) as [|z Z]; simpl in E'; [|destruct (_ =? _)]|].
    rewrite join_before; [done|]. assert (Hq : q.1 = p.1) by (destruct (join b F2) as [|z Z]; simpl in E'; [|destruct (_ =? _)]; by simplify_eq).
    unfold before. rewrite Hq. exact Hcp.
Qed.

Lemma gapped_join b L : gapped L → 0 ≤ b.2 → (∀ c, c ∈ L → 0 ≤ c.2 ∧ b.1 + hsize * b.2 ≤ c.1) → gapped (join b L).
Proof.
  intros Hg Hb HL. destruct L as [|c L]; [simpl; split; [intros ? []%not_elem_of_nil|done]|]. destruct Hg as [Hc Hg].
  destruct (HL c (list_elem_of_here _ _)) as [Hc2 Hbc]. cbn [join]. destruct (_ =? _) eqn:E.
  - split; [|done]. intros d Hd. specialize (Hc d Hd). unfold before, hsize in *. simpl. lia.
  - split; [|by split]. intros d [->|Hd]%elem_of_cons; [unfold before, hsize in *; lia|].
    specialize (Hc d Hd). unfold before, hsize in *. lia.
Qed.

Lemma join_elem b L d : d ∈ join b L → d.1 = b.1 ∨ d ∈ L.
Proof.
  destruct L as [|c L]; simpl; [intros ->%list_elem_of_singleton; by left|].
  destruct (_ =? _); intros [->|Hd]%elem_of_cons; [by left|right; by right|by left|by right].
Qed.

Lemma gapped_insert F1 p F2 b : gapped (F1 ++ p :: F2) → (∀ c, c ∈ F2 → 0 ≤ c.2 ∧ b.1 + hsize * b.2 ≤ c.1) → 0 ≤ p.2 → 0 < b.2 →
  p.1 + hsize * p.2 ≤ b.1 → gapped (F1 ++ join p (join b F2)).
Proof.
  intros (H1 & [Hp H2] & H12)%gapped_app HF2 Hp2 Hb Hpb. apply gapped_app. split; [done|]. split.
  - apply gapped_join; [apply gapped_join; [done|lia|done]|done|]. intros c Hc. split.
    { revert c Hc. apply join_pos; [lia|]. intros c Hc. by apply HF2. }
    apply join_elem in Hc as [->|Hc]; [done|]. destruct (HF2 c Hc). unfold hsize in *. lia.
  - intros c d Hc Hd. pose proof (H12 c p Hc (list_elem_of_here _ _)) as Hcp. unfold before, hsize in *.
    apply join_elem in Hd as [->|[->|Hd]%join_elem]; [done|lia|]. destruct (HF2 d Hd). lia.
Qed.

(** Two blocks that share no byte. *)
Lemma apart b L c : (∀ x, cover (b :: L) x ≤ 1) → 0 < b.2 → 0 < c.2 → c ∈ L → b.1 + hsize * b.2 ≤ c.1 ∨ c.1 + hsize * c.2 ≤ b.1.
Proof.
  intros Hx Hb Hc Hin. unfold hsize in *. specialize (Hx (Z.max b.1 c.1)). simpl in Hx.
  destruct (decide (c.1 + 16 * c.2 ≤ b.1)) as [|H1]; [by right|]. left.
  pose proof (cover_in L c (Z.max b.1 c.1) Hin) as Hc'. unfold hsize in *.
  destruct (decide (b.1 + 16 * b.2 ≤ c.1)) as [|H2]; [done|]. exfalso. rewrite decide_True in Hx by lia. lia.
Qed.

(** ** free() *)

(** What free_up() and free_down() have in common. *)
Definition attach (q x : Z) (s : arena) : arena :=
  if plus q (size_of s q) =? x then set_ptr q (ptr s x) (set_size q (u32 (size_of s q + size_of s x)) s)
  else set_ptr q x s.

Lemma plus_small p n : 0 ≤ p → 0 ≤ n → p + hsize * n < 2 ^ 31 → plus p n = p + hsize * n.
Proof. intros. unfold plus. apply u64_small. unfold hsize in *. lia. Qed.

Lemma attach_spec base s q L : let s' := attach q.1 (hd base (L.*1)) s in
  linked (a_ptr s) (L.*1) base → (∀ c, c ∈ L → size_of s c.1 = c.2 ∧ 0 < c.2 ∧ q.1 < c.1 ∧ c.1 + hsize * c.2 < 2 ^ 31) →
  size_of s q.1 = q.2 → 0 ≤ q.1 → 0 ≤ q.2 → q.1 + hsize * q.2 < 2 ^ 31 → (L = [] → base < q.1) →
  ∃ n L', join q L = (q.1, n) :: L' ∧ size_of s' q.1 = n ∧ linked (a_ptr s') (q.1 :: L'.*1) base ∧
    (∀ c, c ∈ L' → c ∈ L) ∧ (∀ a, a ≠ q.1 → ptr s' a = ptr s a ∧ size_of s' a = size_of s a) ∧
    a_freep s' = a_freep s ∧ a_brk s' = a_brk s ∧ a_grants s' = a_grants s.
Proof.
  intros s' Hlk HL Hsz Hq0 Hq2 Hqe Hnil. subst s'. unfold attach. rewrite Hsz, plus_small by done.
  assert (Hfr : ∀ v n, (∀ a, a ≠ q.1 → ptr (set_ptr q.1 v (set_size q.1 n s)) a = ptr s a ∧ size_of (set_ptr q.1 v (set_size q.1 n s)) a = size_of s a))
    by (intros v n a Ha; unfold ptr, size_of; simpl; by rewrite !lookup_total_insert_ne by done).
  assert (Hfr' : ∀ v, (∀ a, a ≠ q.1 → ptr (set_ptr q.1 v s) a = ptr s a ∧ size_of (set_ptr q.1 v s) a = size_of s a))
    by (intros v a Ha; unfold ptr, size_of; simpl; by rewrite !lookup_total_insert_ne by done).
  assert (Hlk' : ∀ v L', (∀ c, c ∈ L' → c ∈ L) → linked (a_ptr s) (L'.*1) base → hd base (L'.*1) = v →
            linked (<[q.1 := v]> (a_ptr s)) (q.1 :: L'.*1) base).
  { intros v L' Hsub Hl <-. split; [by rewrite lookup_total_insert_eq|]. eapply linked_ext, Hl.
    intros a (c & -> & Hc)%list_elem_of_fmap. destruct (HL c (Hsub c Hc)). rewrite lookup_total_insert_ne; [done|lia]. }
  destruct L as [|c L]; cbn [fmap list_fmap hd].
  - specialize (Hnil eq_refl). destruct (_ =? _) eqn:E; [unfold hsize in *; lia|]. destruct q as [a n]. simpl in *.
    exists n, []. split_and!; try done; [by apply (Hlk' base [])|apply Hfr'].
  - destruct (HL c (list_elem_of_here _ _)) as (Hcs & Hc2 & Hqc & Hce). destruct Hlk as [Hc Hlk]. cbn [join].
    destruct (_ =? _) eqn:E.
    + exists (q.2 + c.2), L. split_and!; try done; [|apply Hlk'; [by right|done|exact (eq_sym Hc)]|by right|apply Hfr].
      unfold size_of in *. simpl. rewrite lookup_total_insert_eq, Hcs, u32_small; [done|]. unfold hsize in *. lia.
    + destruct q as [a n]. simpl in *. exists n, (c :: L). destruct (Hlk' c.1 (c :: L)) as [H1 H2]; [done..|].
      split_and!; try done. apply Hfr'.
Qed.

Lemma hd_elem {A} (e : A) L : hd e L ∈ L ++ [e].
Proof. destruct L; simpl; by left. Qed.

Lemma find_low s bp L e n : linked (a_ptr s) L e → StronglySorted Z.lt (L ++ [e]) → (∀ a, a ∈ L ++ [e] → a < bp) →
  free_find (length L + n) s bp (hd e L) = free_find n s bp e.
Proof.
  induction L as [|a L IH]; intros Hl Hs Hb; [done|]. destruct Hl as [Ha Hl].
  cbn [app] in Hs. apply StronglySorted_inv in Hs as [Hs Hall]. rewrite Forall_forall in Hall.
  specialize (Hall _ (hd_elem e L)). pose proof (Hb (hd e L) ltac:(right; apply hd_elem)) as Hy.
  cbn [length hd Nat.add free_find]. unfold ptr. rewrite Ha. rewrite <- (IH Hl Hs) by (intros x Hx; apply Hb; by right).
  destruct (bp <? hd e L) eqn:E1; [lia|]. destruct (hd e L <=? a) eqn:E2; [lia|]. by rewrite andb_false_r.
Qed.

Lemma find_high s bp L e n : linked (a_ptr s) L e → StronglySorted Z.lt L → (∀ a, a ∈ L → bp < a) → e < bp →
  free_find (length L + n) s bp (hd e L) = free_find n s bp e.
Proof.
  induction L as [|a L IH]; intros Hl Hs Hb He; [done|]. destruct Hl as [Ha Hl]. apply StronglySorted_inv in Hs as [Hs Hall].
  pose proof (Hb a ltac:(by left)) as Hba. cbn [length hd Nat.add free_find]. unfold ptr. rewrite Ha.
  rewrite <- (IH Hl Hs) by (try done; intros x Hx; apply Hb; by right).
  destruct (a <? bp) eqn:E1; [lia|]. cbn [andb orb]. destruct ((hd e L <=? a) && (bp <? hd e L)) eqn:E2; [|done].
  destruct L as [|y L]; simpl in E2; [lia|]. apply Forall_inv in Hall. lia.
Qed.

Lemma find_here s bp p L e n : linked (a_ptr s) (p :: L) e → p < bp → (∀ a, a ∈ L → bp < a) → e ≤ p →
  free_find (S n) s bp p = Some p.
Proof.
  intros [Hp Hl] Hlt Hb He. cbn [free_find]. unfold ptr. rewrite Hp. destruct L as [|y L]; simpl.
  - destruct (_ && _); [done|]. destruct (e <=? p) eqn:E1; [|lia]. destruct (p <? bp) eqn:E2; [done|lia].
  - pose proof (Hb y ltac:(by left)). destruct (p <? bp) eqn:E1; [|lia]. by destruct (bp <? y) eqn:E2; [|lia].
Qed.

(** From any header of the ring, the loop finds the place in one round. *)
Lemma find_spec base s bp N1 p N2 fp fuel : linked (a_ptr s) (N1 ++ p :: N2) base → hd p N1 = base →
  StronglySorted Z.lt (N1 ++ p :: N2) → p < bp → (∀ a, a ∈ N2 → bp < a) → fp ∈ N1 ++ p :: N2 →
  (length (N1 ++ p :: N2) < fuel)%nat → free_find fuel s bp fp = Some p.
Proof.
  intros Hl Hhd Hs Hp Hhi Hfp Hfuel. rewrite length_app in Hfuel. cbn [length] in Hfuel.
  apply StronglySorted_app in Hs as (Hs12 & Hs1 & Hs2). pose proof (StronglySorted_inv Hs2) as [Hs3 _].
  assert (Hbase : base ≤ p) by (destruct N1 as [|x N1]; simpl in Hhd; subst; [lia|]; apply Z.lt_le_incl, Hs12; by left).
  assert (Hlow : ∀ a, a ∈ N1 → a < bp) by (intros a Ha; specialize (Hs12 a p Ha (list_elem_of_here _ _)); lia).
  apply linked_app in Hl as [Hl1 Hl2]. cbn [hd] in Hl1.
  assert (Hat : ∀ n, free_find (S n) s bp p = Some p) by (intros n; by apply (find_here s bp p N2 base)).
  assert (Hfrom : ∀ X fp Y n, N1 = X ++ fp :: Y → (length N1 < n)%nat → free_find n s bp fp = Some p).
  { intros X f Y n -> Hn. apply linked_app in Hl1 as [_ HY]. rewrite length_app in Hn. cbn [length] in Hn.
    replace n with (length (f :: Y) + S (n - length (f :: Y) - 1))%nat by (simpl; lia).
    etrans; [refine (find_low s bp (f :: Y) p _ HY _ _)|apply Hat].
    - apply StronglySorted_app in Hs1 as (_ & _ & Hs1). apply StronglySorted_app. split_and!; [|done|repeat constructor].
      intros a b Ha ->%list_elem_of_singleton. apply Hs12; [|by left]. apply elem_of_app. by right.
    - intros a [Ha| ->%list_elem_of_singleton]%elem_of_app; [|done]. apply Hlow, elem_of_app. by right. }
  apply elem_of_app in Hfp as [Hfp|[->|Hfp]%elem_of_cons].
  - apply list_elem_of_split in Hfp as (X & Y & ->). apply (Hfrom X fp Y); [done|lia].
  - destruct fuel; [lia|]. apply Hat.
  - apply list_elem_of_split in Hfp as (X & Y & ->). rewrite length_app in Hfuel. cbn [length] in Hfuel.
    destruct Hl2 as [_ Hl2]. apply linked_app in Hl2 as [_ HY].
    replace fuel with (length (fp :: Y) + S (fuel - length (fp :: Y) - 1))%nat by (simpl; lia).
    etrans; [refine (find_high s bp (fp :: Y) base _ HY _ _ _)|]; [| |lia|].
    + by apply StronglySorted_app in Hs3 as (_ & _ & ?).
    + intros a Ha. apply Hhi, elem_of_app. by right.
    + destruct N1 as [|x N1]; simpl in Hhd; subst; [apply Hat|]. apply (Hfrom [] base N1); [done|]. simpl in *. lia.
Qed.

Lemma gapped_sorted L : gapped L → (∀ c, c ∈ L → 0 ≤ c.2) → StronglySorted Z.lt (L.*1).
Proof.
  induction L as [|b L IH]; intros Hg Hp; [constructor|]. destruct Hg as [Hb Hg]. constructor; [apply IH; [done|]; intros c Hc; apply Hp; by right|].
  apply Forall_forall. intros a (c & -> & Hc)%list_elem_of_fmap. specialize (Hb c Hc). specialize (Hp b (list_elem_of_here _ _)).
  unfold before, hsize in Hb. lia.
Qed.

(** The place of a new address in an ascending list. *)
Lemma place L c b : StronglySorted Z.lt ((c :: L).*1) → c.1 < b → (∀ d, d ∈ L → d.1 ≠ b) →
  ∃ R1 p F2, c :: L = R1 ++ p :: F2 ∧ p.1 < b ∧ ∀ d : Z * Z, d ∈ F2 → b < d.1.
Proof.
  revert c. induction L as [|d L IH]; intros c Hs Hc Hne.
  { exists [], c, []. split_and!; [done..|]. intros ? []%not_elem_of_nil. }
  apply StronglySorted_inv in Hs as [Hs Hall]. destruct (decide (d.1 < b)) as [Hd|Hd].
  - destruct (IH d Hs Hd) as (R1 & p & F2 & HR & Hp & HF); [intros e He; apply Hne; by right|].
    exists (c :: R1), p, F2. by rewrite HR.
  - exists [], c, (d :: L). split_and!; [done..|]. pose proof (Hne d (list_elem_of_here _ _)).
    intros e [->|He]%elem_of_cons; [lia|]. apply StronglySorted_inv in Hs as [_ Hs]. rewrite Forall_forall in Hs.
    specialize (Hs e.1 (list_elem_of_fmap_2 _ _ _ He)). lia.
Qed.

(** A property of blocks that joining keeps holds of what insertion makes. *)
Lemma join_all (P : Z * Z → Prop) b L : (∀ c d, P c → P d → c.1 + hsize * c.2 = d.1 → P (c.1, c.2 + d.2)) →
  P b → (∀ c, c ∈ L → P c) → ∀ d, d ∈ join b L → P d.
Proof.
  intros HP Hb HL d. destruct L as [|c L]; simpl; [by intros ->%list_elem_of_singleton|].
  pose proof (HL c (list_elem_of_here _ _)) as Hc. destruct (_ =? _) eqn:E.
  - intros [->|Hd]%elem_of_cons; [apply HP; [done..|lia]|apply HL; by right].
  - intros [->|Hd]%elem_of_cons; [done|by apply HL].
Qed.

Lemma insert_all (P : Z * Z → Prop) b L : (∀ c d, P c → P d → c.1 + hsize * c.2 = d.1 → P (c.1, c.2 + d.2)) →
  P b → (∀ c, c ∈ L → P c) → ∀ d, d ∈ insert_block b L → P d.
Proof.
  intros HP Hb. induction L as [|c L IH]; intros HL d; [by intros ->%list_elem_of_singleton|]. cbn [insert_block].
  destruct (_ <? _); apply join_all; try done; [apply HL; by left|]. apply IH. intros e He. apply HL. by right.
Qed.

(** The two writes of free(), once the place is known: [R] is the ring with the
    static header as a block of no units. *)
Lemma free_links base s R1 p F2 bp n : let s' := free_down bp p.1 (free_up bp p.1 s) in
  linked (a_ptr s) ((R1 ++ p :: F2).*1) base → (∀ c, c ∈ R1 ++ p :: F2 → size_of s c.1 = c.2 ∧ 0 ≤ c.1 ∧ 0 ≤ c.2) →
  NoDup (bp :: (R1 ++ p :: F2).*1) →
  (∀ c, c ∈ F2 → 0 < c.2 ∧ bp < c.1 ∧ c.1 + hsize * c.2 < 2 ^ 31) → size_of s bp = n → 0 < n → bp + hsize * n < 2 ^ 31 →
  p.1 < bp → p.1 + hsize * p.2 < 2 ^ 31 → base < bp →
  linked (a_ptr s') ((R1 ++ join p (join (bp, n) F2)).*1) base ∧
  (∀ d, d ∈ R1 ++ join p (join (bp, n) F2) → size_of s' d.1 = d.2) ∧
  (∀ a, a ≠ bp → a ≠ p.1 → size_of s' a = size_of s a) ∧
  p.1 ∈ (R1 ++ join p (join (bp, n) F2)).*1 ∧ a_brk s' = a_brk s ∧ a_grants s' = a_grants s.
Proof.
  intros s' Hl Hsz Hnd HF2 Hbs Hn Hbe Hpb Hpe Hbase. rewrite fmap_app, linked_app in Hl. destruct Hl as [Hl1 [Hp Hl2]].
  assert (Hin : ∀ c, c ∈ F2 → c ∈ R1 ++ p :: F2) by (intros c Hc; apply elem_of_app; right; by right).
  assert (Hpin : p ∈ R1 ++ p :: F2) by (apply elem_of_app; right; by left).
  assert (Hp0 : 0 ≤ p.1 ∧ 0 ≤ p.2) by apply (Hsz p Hpin).
  destruct (attach_spec base s (bp, n) F2) as (n' & F' & HJ & Hs1 & Hl1' & Hsub1 & Hfr1 & Hf1 & Hb1 & Hg1);
    simpl; [done| |done|lia..|]. { intros c Hc. destruct (HF2 c Hc) as (? & ? & ?). split_and!; try done. by apply Hsz, Hin. }
  assert (HJb : ∀ d, d ∈ join (bp, n) F2 → 0 < d.2 ∧ bp ≤ d.1 ∧ d.1 + hsize * d.2 < 2 ^ 31).
  { apply (join_all (λ d, 0 < d.2 ∧ bp ≤ d.1 ∧ d.1 + hsize * d.2 < 2 ^ 31)); unfold hsize in *; simpl.
    - intros c d (? & ? & ?) (? & ? & ?) ?. lia.
    - lia.
    - intros c Hc. destruct (HF2 c Hc) as (? & ? & ?). lia. }
  change (hd base F2.*1) with (hd base (list_fmap _ _ fst F2)) in *. cbn [fst] in *. rewrite <- Hp in *.
  set (s1 := attach bp (a_ptr s !!! p.1) s) in *. change (free_up bp p.1 s) with s1 in s'.
  destruct (attach_spec base s1 p ((bp, n') :: F')) as (m & F3 & HJ' & Hs2 & Hl2' & Hsub2 & Hfr2 & Hf2 & Hb2 & Hg2);
    [done| |by rewrite (proj2 (Hfr1 p.1 ltac:(lia))); apply Hsz|lia..|done|].
  { rewrite <- HJ. intros c Hc. destruct (HJb c Hc) as (? & ? & ?). split_and!; try done; [|lia].
    rewrite HJ in Hc. apply elem_of_cons in Hc as [->|Hc]; [done|]. destruct (HF2 c (Hsub1 c Hc)) as (? & ? & ?).
    rewrite (proj2 (Hfr1 c.1 ltac:(lia))). by apply Hsz, Hin, Hsub1. }
  rewrite HJ, HJ'. cbn [fst fmap list_fmap hd] in *. change (attach p.1 bp s1) with s' in *.
  assert (Hne : ∀ d, d ∈ R1 → d.1 ≠ bp ∧ d.1 ≠ p.1).
  { intros d Hd. apply NoDup_cons in Hnd as [Hnb Hnd]. rewrite fmap_app in *. apply NoDup_app in Hnd as (_ & Hd1 & _).
    split; intros Heq.
    - apply Hnb, elem_of_app. left. rewrite <- Heq. by apply list_elem_of_fmap_2.
    - apply (Hd1 d.1); [by apply list_elem_of_fmap_2|]. rewrite Heq. by left. }
  assert (Hfr : ∀ a, a ≠ bp → a ≠ p.1 → ptr s' a = ptr s a ∧ size_of s' a = size_of s a).
  { intros a Ha Ha'. destruct (Hfr1 a Ha) as [<- <-]. by apply Hfr2. }
  split_and!; [| |by apply Hfr| |congruence..].
  - rewrite fmap_app. apply linked_app. split; [|exact Hl2']. eapply linked_ext, Hl1.
    intros a (d & -> & Hd)%list_elem_of_fmap. by apply Hfr; apply Hne.
  - intros d [Hd|[->|Hd%Hsub2]%elem_of_cons]%elem_of_app; [|done|].
    + rewrite (proj2 (Hfr d.1 (proj1 (Hne d Hd)) (proj2 (Hne d Hd)))). apply Hsz, elem_of_app. by left.
    + apply elem_of_cons in Hd as [->|Hd]; [cbn [fst snd]; rewrite (proj2 (Hfr2 bp ltac:(lia))); done|].
      destruct (HF2 d (Hsub1 d Hd)) as (_ & Hlt & _). rewrite (proj2 (Hfr d.1 ltac:(lia) ltac:(lia))). by apply Hsz, Hin, Hsub1.
  - rewrite fmap_app. apply elem_of_app. right. by left.
Qed.

Lemma sorted_nodup L : StronglySorted Z.lt L → NoDup L.
Proof.
  induction 1 as [|a L Hs IH Hall]; constructor; [|done]. intros Hin. rewrite Forall_forall in Hall. specialize (Hall a Hin). lia.
Qed.

Lemma sorted_fresh N1 p N2 b : StronglySorted Z.lt (N1 ++ p :: N2) → p < b → (∀ a, a ∈ N2 → b < a) → NoDup (b :: N1 ++ p :: N2).
Proof.
  intros Hs Hp Hb. apply NoDup_cons. split.
  - apply StronglySorted_app in Hs as (H12 & _ & _). intros [Hin|[->|Hin]%elem_of_cons]%elem_of_app; [|lia|].
    + specialize (H12 b p Hin (list_elem_of_here _ _)). lia.
    + specialize (Hb b Hin). lia.
  - by apply sorted_nodup.
Qed.

(** A free block and a live one have different addresses. *)
Lemma headers_differ L1 L2 c d : (∀ x, cover (L1 ++ L2) x ≤ 1) → 0 < c.2 → 0 < d.2 → c ∈ L1 → d ∈ L2 → c.1 ≠ d.1.
Proof.
  intros Hx Hc Hd Hin1 Hin2 Heq. specialize (Hx c.1). rewrite cover_app in Hx.
  pose proof (cover_in L1 c c.1 Hin1). pose proof (cover_in L2 d c.1 Hin2). unfold hsize in *. lia.
Qed.

Section spec.
Context (base : Z).

(** The static header counts as a block of no units. *)
Lemma heap_ring s F A : heap base s F A → gapped ((base, 0) :: F) ∧
  (∀ c, c ∈ (base, 0) :: F → size_of s c.1 = c.2 ∧ 0 ≤ c.1 ∧ 0 ≤ c.2 ∧ base ≤ c.1 ∧ c.1 + hsize * c.2 ≤ a_brk s) ∧
  StronglySorted Z.lt (base :: F.*1).
Proof.
  intros [_ Hg Hb _ [Hb0 Hbs] _ Hbrk].
  assert (HF : ∀ c, c ∈ F → size_of s c.1 = c.2 ∧ 0 < c.2 ∧ base + hsize ≤ c.1 ∧ c.1 + hsize * c.2 ≤ a_brk s)
    by (intros c Hc; apply Hb, elem_of_app; by left).
  assert (HR : ∀ c, c ∈ (base, 0) :: F → size_of s c.1 = c.2 ∧ 0 ≤ c.1 ∧ 0 ≤ c.2 ∧ base ≤ c.1 ∧ c.1 + hsize * c.2 ≤ a_brk s).
  { unfold hsize in *. intros c [->|Hc]%elem_of_cons; [simpl; lia|]. destruct (HF c Hc) as (? & ? & ? & ?). lia. }
  assert (HgR : gapped ((base, 0) :: F)).
  { split; [|done]. intros c Hc. destruct (HF c Hc) as (_ & _ & ? & _). unfold before, hsize in *. simpl. lia. }
  split_and!; [done..|]. apply (gapped_sorted ((base, 0) :: F)); [done|]. intros c Hc. by apply HR.
Qed.

Lemma freep_pos s F A : heap base s F A → 0 < a_freep s.
Proof.
  intros Hh. destruct (heap_ring _ _ _ Hh) as (_ & HR & _). destruct Hh as [_ _ _ _ [Hb0 _] Hin _].
  change (base :: F.*1) with (((base, 0) :: F).*1) in Hin. apply list_elem_of_fmap in Hin as (c & -> & Hc).
  destruct (HR c Hc) as (_ & _ & _ & ? & _). lia.
Qed.

(** A live block and the ring: the ring splits around it. *)
Lemma heap_place s F b n A : heap base s F ((b, n) :: A) →
  ∃ R1 p F2, (base, 0) :: F = R1 ++ p :: F2 ∧ p.1 + hsize * p.2 ≤ b ∧ p.1 < b ∧
    ∀ c, c ∈ F2 → c ∈ F ∧ 0 < c.2 ∧ b < c.1 ∧ b + hsize * n ≤ c.1.
Proof.
  intros Hh. destruct (heap_ring _ _ _ Hh) as (HgR & HR & HsR). destruct Hh as [_ _ Hb Hd [Hb0 _] _ _].
  destruct (Hb (b, n)) as (_ & Hn & Hlo & _); [apply elem_of_app; right; by left|]. cbn [fst snd] in *.
  assert (HF : ∀ c, c ∈ F → 0 < c.2 ∧ (b + hsize * n ≤ c.1 ∨ c.1 + hsize * c.2 ≤ b)).
  { intros c Hc. assert (Hc' : c ∈ F ++ (b, n) :: A) by (apply elem_of_app; by left). destruct (Hb c Hc') as (_ & Hc2 & _). split; [done|].
    apply (apart (b, n) (F ++ A) c); [|done|done|apply elem_of_app; by left].
    intros x. specialize (Hd x). rewrite cover_app in Hd. simpl in *. rewrite cover_app. lia. }
  destruct (place F (base, 0) b) as (R1 & p & F2 & HRe & Hpb & HF2); [done|unfold hsize in *; simpl; lia| |].
  { intros d Hd'. destruct (HF d Hd') as [? [?|?]]; unfold hsize in *; lia. }
  exists R1, p, F2. split_and!; [done| |done|].
  - assert (Hp : p ∈ (base, 0) :: F) by (rewrite HRe; apply elem_of_app; right; by left).
    apply elem_of_cons in Hp as [->|Hp]; [unfold hsize in *; simpl; lia|]. destruct (HF p Hp) as [? [?|?]]; unfold hsize in *; lia.
  - intros c Hc. assert (HcF : c ∈ F).
    { destruct R1 as [|r R1]; simplify_list_eq; [done|]. apply elem_of_app. right. by right. }
    specialize (HF2 c Hc). destruct (HF c HcF) as [? [?|?]]; split_and!; unfold hsize in *; try done; lia.
Qed.

Lemma insert_base b L : base < b.1 → (∀ c, c ∈ L → base < c.1) → insert_block b ((base, 0) :: L) = (base, 0) :: insert_block b L.
Proof.
  intros Hb HL. cbn [insert_block fst]. destruct (_ <? _) eqn:E; [lia|].
  pose proof (insert_all (λ c, base < c.1) b L ltac:(done) Hb HL) as Hall. destruct (insert_block b L) as [|c L']; [done|].
  apply join_before. specialize (Hall c (list_elem_of_here _ _)). unfold before, hsize. simpl. lia.
Qed.

(** The ring of the insertion, seen as a list of blocks, makes a heap again. *)
Lemma heap_insert s s' F b n A p : heap base s F ((b, n) :: A) → p ∈ (base, 0) :: F →
  linked (a_ptr s') (((base, 0) :: insert_block (b, n) F).*1) base → gapped (insert_block (b, n) F) →
  (∀ d, d ∈ (base, 0) :: insert_block (b, n) F → size_of s' d.1 = d.2) →
  (∀ a, a ≠ b → a ≠ p.1 → size_of s' a = size_of s a) → p.1 ∈ ((base, 0) :: insert_block (b, n) F).*1 →
  a_brk s' = a_brk s → heap base (set_freep p.1 s') (insert_block (b, n) F) A.
Proof.
  intros [_ _ Hb Hd [Hb0 Hbs] _ Hbrk] Hp Hl Hg HS Hfr Hp' Hbrk'.
  assert (Hbn : (b, n) ∈ F ++ (b, n) :: A) by (apply elem_of_app; right; by left).
  assert (HF : ∀ c, c ∈ F → c ∈ F ++ (b, n) :: A) by (intros c Hc; apply elem_of_app; by left).
  pose proof (Hb _ Hbn) as (_ & Hn & Hlo & Hhi). cbn [fst snd] in *.
  constructor; cbn [set_freep a_ptr a_freep a_brk]; rewrite ?Hbrk'; try done.
  - intros d [Hd'|Hd']%elem_of_app.
    + split; [apply HS; by right|]. revert d Hd'.
      apply (insert_all (λ d, 0 < d.2 ∧ base + hsize ≤ d.1 ∧ d.1 + hsize * d.2 ≤ a_brk s)); [unfold hsize; simpl; lia|done|].
      intros c Hc. by apply Hb, HF.
    + destruct (Hb d) as (? & ? & ? & ?); [apply elem_of_app; right; by right|]. split; [|done]. etrans; [|done]. apply Hfr; intros Heq.
      * apply (headers_differ (F ++ [(b, n)]) A (b, n) d); rewrite <- ?app_assoc; try done. apply elem_of_app. right. by left.
      * apply elem_of_cons in Hp as [->|HpF]; [unfold hsize in *; simpl in *; lia|].
        apply (headers_differ F ((b, n) :: A) p d); try done; [by apply Hb, HF|by right].
  - intros x. rewrite cover_app, insert_cover; [|simpl; lia|intros c Hc; destruct (Hb c (HF c Hc)) as (_ & ? & _); lia].
    specialize (Hd x). rewrite cover_app in Hd. simpl in *. lia.
  - split; [done|]. apply (HS (base, 0)). by left.
Qed.

Lemma free_spec s F b n A fuel : heap base s F ((b, n) :: A) → (S (length F) < fuel)%nat →
  ∃ s', free fuel (b + hsize) s = Some s' ∧ heap base s' (insert_block (b, n) F) A ∧ a_brk s' = a_brk s ∧ a_grants s' = a_grants s.
Proof.
  intros Hh Hfuel. destruct (heap_place _ _ _ _ _ Hh) as (R1 & p & F2 & HRe & Hpe & Hpb & HF2).
  destruct (heap_ring _ _ _ Hh) as (HgR & HR & HsR). pose proof Hh as [Hl Hg Hb _ [Hb0 _] Hfp Hbrk].
  destruct (Hb (b, n)) as (Hsb & Hn & Hlo & Hhi); [apply elem_of_app; right; by left|]. cbn [fst snd] in *.
  assert (HF : ∀ c, c ∈ F → base + hsize ≤ c.1 ∧ c.1 + hsize * c.2 ≤ a_brk s) by (intros c Hc; apply Hb, elem_of_app; by left).
  assert (HpR : p ∈ (base, 0) :: F) by (rewrite HRe; apply elem_of_app; right; by left).
  assert (Hfmap : base :: F.*1 = R1.*1 ++ p.1 :: F2.*1) by (change (base :: F.*1) with (((base, 0) :: F).*1); by rewrite HRe, fmap_app).
  assert (HN2 : ∀ a, a ∈ F2.*1 → b < a) by (intros a (c & -> & Hc)%list_elem_of_fmap; by apply HF2).
  assert (Hfind : free_find fuel s b (a_freep s) = Some p.1).
  { apply (find_spec base s b (R1.*1) p.1 (F2.*1)); rewrite <- ?Hfmap; try done; [destruct R1; by simplify_list_eq|].
    simpl. rewrite length_fmap. lia. }
  unfold free. rewrite (u64_small (b + hsize - hsize)) by (unfold hsize in *; lia).
  replace (b + hsize - hsize) with b by lia. rewrite Hfind. cbn [mbind option_bind]. eexists. split; [done|].
  assert (Hins : R1 ++ join p (join (b, n) F2) = (base, 0) :: insert_block (b, n) F).
  { rewrite <- (insert_split (b, n) R1 p F2); rewrite <- ?HRe; [|done| |done|intros c Hc; by apply HF2].
    - apply insert_base; [unfold hsize in *; simpl; lia|]. intros c Hc. specialize (HF c Hc). unfold hsize in *. lia.
    - intros c Hc. apply HR. rewrite HRe. apply elem_of_app. by left. }
  destruct (free_links base s R1 p F2 b n) as (HL' & HS' & HF' & Hp' & Hbrk' & Hgr'); try done; rewrite <- ?HRe; try done.
  1: intros c Hc; by destruct (HR c Hc) as (? & ? & ? & _).
  1: { change (((base, 0) :: F).*1) with (base :: F.*1). rewrite Hfmap. apply sorted_fresh; [by rewrite <- Hfmap|done|done]. }
  1: { intros c Hc. destruct (HF2 c Hc) as (HcF & ? & ? & _). specialize (HF c HcF). lia. }
  1-3: unfold hsize in *; lia.
  assert (Hg' : gapped (R1 ++ join p (join (b, n) F2))).
  { apply gapped_insert; [by rewrite <- HRe| |by apply HR|done|done].
    intros c Hc. destruct (HF2 c Hc) as (_ & ? & _ & ?). split; [lia|done]. }
  rewrite Hins in *. split; [|done]. apply (heap_insert s); try done. apply Hg'.
Qed.

(** ** malloc() *)

(** The free list without [nu] units of the block at [a]. *)
Definition cut (a m nu : Z) : list (Z * Z) := if m =? nu then [] else [(a, m - nu)].

Lemma cut_cover a m nu x : 0 ≤ nu ≤ m → cover (cut a m nu) x + cover [(a + hsize * (m - nu), nu)] x = cover [(a, m)] x.
Proof.
  intros Hnu. unfold cut. rewrite (cover_split a m (m - nu)) by lia. replace (m - (m - nu)) with nu by lia.
  destruct (_ =? _) eqn:E; simpl; [|lia]. rewrite (decide_False (P := a ≤ x < a + hsize * (m - nu))); [lia|].
  unfold hsize. lia.
Qed.

(** No header of another block lies in a free block. *)
Lemma heap_inside s F1 a m F2 A d x : heap base s (F1 ++ (a, m) :: F2) A → d ∈ F1 ++ F2 ++ A → a ≤ x < a + hsize * m → d.1 ≠ x.
Proof.
  intros [_ _ Hb Hd _ _ _] Hin Hx Heq. assert (Hd2 : 0 < d.2).
  { apply Hb. rewrite !elem_of_app, elem_of_cons in *. tauto. }
  specialize (Hd x). pose proof (cover_in (F1 ++ F2 ++ A) d x Hin) as Hc. unfold hsize in *. specialize (Hc ltac:(lia)).
  rewrite !cover_app in Hc. rewrite !cover_app in Hd. cbn [cover fst snd] in Hd. unfold hsize in Hd. rewrite decide_True in Hd by done. lia.
Qed.

(** The block that follows a header in the ring. *)
Lemma ring_next s F A prevp a : heap base s F A → prevp ∈ base :: F.*1 → ptr s prevp = a → a ≠ base →
  ∃ R1 q F1 m F2, F = F1 ++ (a, m) :: F2 ∧ (base, 0) :: F1 = R1 ++ [q] ∧ q.1 = prevp.
Proof.
  intros [Hl _ _ _ _ _ _] Hin Hp Ha. change (base :: F.*1) with (((base, 0) :: F).*1) in *.
  apply list_elem_of_fmap in Hin as (q & Hq & (R1 & R2 & HR)%list_elem_of_split). rewrite HR, fmap_app in Hl.
  apply linked_app in Hl as [_ [Hnx _]]. rewrite <- Hq in Hnx. unfold ptr in Hp. rewrite Hp in Hnx.
  destruct R2 as [|[c m] F2]; [done|]. cbn in Hnx. subst c. destruct R1 as [|r R1]; simplify_list_eq.
  - exists [], (base, 0), [], m, F2. done.
  - exists ((base, 0) :: R1), q, (R1 ++ [q]), m, F2. by simplify_list_eq.
Qed.

Lemma gapped_cut F1 a m F2 nu : gapped (F1 ++ (a, m) :: F2) → 0 < nu ≤ m → gapped (F1 ++ cut a m nu ++ F2).
Proof.
  intros (H1 & [Ha H2] & H12)%gapped_app Hnu. unfold cut. destruct (_ =? _) eqn:E; cbn [app].
  - apply gapped_app. split_and!; try done. intros b c Hb Hc. apply H12; [done|by right].
  - apply gapped_app. split_and!; try done.
    + split; [|done]. intros c Hc. specialize (Ha c Hc). unfold before, hsize in *. simpl in *. lia.
    + intros b c Hb [->|Hc]%elem_of_cons; [exact (H12 b (a, m) Hb (list_elem_of_here _ _))|]. apply H12; [done|by right].
Qed.

(** Exact fit: the block leaves the ring. *)
Lemma take_exact s F1 a m F2 A R1 q : heap base s (F1 ++ (a, m) :: F2) A → (base, 0) :: F1 = R1 ++ [q] →
  heap base (set_freep q.1 (set_ptr q.1 (ptr s a) s)) (F1 ++ F2) ((a, m) :: A).
Proof.
  intros Hh HR1. destruct (heap_ring _ _ _ Hh) as (_ & _ & Hs). destruct Hh as [Hl Hg Hb Hd Hbs _ Hbrk].
  assert (HR : ∀ X : list (Z * Z), base :: (F1 ++ X).*1 = R1.*1 ++ q.1 :: X.*1).
  { intros X. change (base :: (F1 ++ X).*1) with ((((base, 0) :: F1) ++ X).*1). by rewrite HR1, <- app_assoc, fmap_app. }
  constructor; cbn [set_freep set_ptr a_ptr a_freep a_brk]; try done.
  - rewrite HR in *. apply linked_app in Hl as [Hl1 [Hq [Hnx Hl2]]]. apply StronglySorted_app in Hs as (Hs12 & _ & [_ Hs]%StronglySorted_inv).
    rewrite Forall_forall in Hs. apply linked_app. split; [|split; [by rewrite lookup_total_insert_eq|]].
    + eapply linked_ext, Hl1. intros x Hx. rewrite lookup_total_insert_ne; [done|].
      specialize (Hs12 x q.1 Hx (list_elem_of_here _ _)). lia.
    + eapply linked_ext, Hl2. intros x Hx. rewrite lookup_total_insert_ne; [done|]. specialize (Hs x ltac:(by right)). lia.
  - rewrite gapped_app in *. destruct Hg as (? & [? ?] & H12). split_and!; try done. intros b c Hb' Hc. apply H12; [done|by right].
  - intros b Hin. apply Hb. rewrite !elem_of_app, !elem_of_cons in *. tauto.
  - intros x. specialize (Hd x). rewrite !cover_app in *. simpl in *. lia.
  - rewrite HR. apply elem_of_app. right. by left.
Qed.

(** A larger block keeps its place and gives its upper end. *)
Lemma take_part s F1 a m F2 A prevp nu : let b := a + hsize * (m - nu) in
  heap base s (F1 ++ (a, m) :: F2) A → 0 < nu < m → prevp ∈ base :: (F1 ++ (a, m) :: F2).*1 →
  heap base (set_freep prevp (set_size b nu (set_size a (m - nu) s))) (F1 ++ (a, m - nu) :: F2) ((b, nu) :: A).
Proof.
  intros b Hh Hnu Hin. pose proof Hh as [Hl Hg Hb Hd [Hb0 Hbs] _ Hbrk].
  destruct (Hb (a, m)) as (Hm & Hm0 & Hlo & Hhi); [rewrite !elem_of_app, elem_of_cons; tauto|]. cbn [fst snd] in *.
  assert (Hab : a < b < a + hsize * m) by (unfold b, hsize; lia).
  constructor; cbn [set_freep set_size a_ptr a_freep a_brk]; try done.
  - by rewrite fmap_app in *.
  - pose proof (gapped_cut F1 a m F2 nu Hg ltac:(lia)) as Hg'. unfold cut in Hg'. destruct (_ =? _) eqn:E; [lia|]. exact Hg'.
  - assert (Hoth : ∀ d, d ∈ F1 ++ F2 ++ A → size_of (set_freep prevp (set_size b nu (set_size a (m - nu) s))) d.1 = d.2 ∧
              0 < d.2 ∧ base + hsize ≤ d.1 ∧ d.1 + hsize * d.2 ≤ a_brk s).
    { intros d Hin'. destruct (Hb d) as (Hds & ? & ? & ?); [rewrite !elem_of_app, elem_of_cons in *; tauto|]. split; [|done].
      pose proof (heap_inside s F1 a m F2 A d a Hh Hin' ltac:(lia)). pose proof (heap_inside s F1 a m F2 A d b Hh Hin' ltac:(lia)).
      unfold size_of in *. simpl. by rewrite !lookup_total_insert_ne by congruence. }
    intros d. rewrite !elem_of_app, !elem_of_cons. intros [[Hd'|[->|Hd']]|[->|Hd']].
    + apply Hoth. rewrite !elem_of_app. tauto.
    + unfold size_of. simpl. rewrite lookup_total_insert_ne, lookup_total_insert_eq by lia. unfold hsize in *. lia.
    + apply Hoth. rewrite !elem_of_app. tauto.
    + unfold size_of. simpl. rewrite lookup_total_insert_eq. unfold b, hsize in *. lia.
    + apply Hoth. rewrite !elem_of_app. tauto.
  - intros x. specialize (Hd x). pose proof (cut_cover a m nu x ltac:(lia)) as Hc. unfold cut in Hc.
    destruct (_ =? _) eqn:E; [lia|]. rewrite !cover_app in *. unfold b. simpl in *. lia.
  - split; [done|]. unfold size_of in *. simpl. unfold hsize in *. by rewrite !lookup_total_insert_ne by lia.
  - by rewrite fmap_app in *.
Qed.

Lemma take_spec s F A prevp a nu : heap base s F A → prevp ∈ base :: F.*1 → ptr s prevp = a → 0 < nu ≤ size_of s a →
  ∃ F1 m F2 s', F = F1 ++ (a, m) :: F2 ∧ nu ≤ m ∧ malloc_take nu prevp a s = (a + hsize * (m - nu) + hsize, s') ∧
    heap base s' (F1 ++ cut a m nu ++ F2) ((a + hsize * (m - nu), nu) :: A) ∧ a_brk s' = a_brk s ∧ a_grants s' = a_grants s.
Proof.
  intros Hh Hin Hp Hnu. assert (Ha : a ≠ base) by (intros ->; destruct Hh as [_ _ _ _ [_ Hb] _ _]; lia).
  destruct (ring_next s F A prevp a Hh Hin Hp Ha) as (R1 & q & F1 & m & F2 & -> & HR1 & Hq). pose proof Hh as [_ _ Hb _ [Hb0 _] _ Hbrk].
  destruct (Hb (a, m)) as (Hm & Hm0 & Hlo & Hhi); [rewrite !elem_of_app, elem_of_cons; tauto|]. cbn [fst snd] in *.
  exists F1, m, F2. unfold malloc_take, cut. rewrite Hm in Hnu |- *. destruct (m =? nu) eqn:E.
  - eexists. split; [done|]. split; [lia|]. replace nu with m in * by lia. replace (a + hsize * (m - m)) with a by lia.
    rewrite plus_small by (unfold hsize in *; lia). split; [done|]. split; [|done]. subst prevp. by eapply take_exact.
  - assert (Hsz : size_of (set_size a (u32 (m - nu)) s) a = m - nu).
    { unfold size_of. simpl. rewrite lookup_total_insert_eq. apply u32_small. unfold hsize in *. lia. }
    eexists. split; [done|]. split; [lia|]. cbv zeta. rewrite Hsz. rewrite (u32_small (m - nu)) by (unfold hsize in *; lia).
    rewrite (plus_small a), (plus_small (a + hsize * (m - nu))) by (unfold hsize in *; lia).
    split; [f_equal; lia|]. split; [|done]. apply take_part; [done|lia|done].
Qed.

(** One walk of malloc() along [L]: it takes the first block that is large
    enough, or arrives at the end. *)
Lemma scan s nu L e prev n (R : list Z) : linked (a_ptr s) (prev :: L) e → (∀ a, a ∈ L → a ≠ a_freep s ∧ a ∈ R) → prev ∈ R →
  (∃ prev' a, prev' ∈ R ∧ a ∈ L ∧ ptr s prev' = a ∧ nu ≤ size_of s a ∧
     malloc_loop (length L + n) nu prev (hd e L) s = Some (malloc_take nu prev' a s)) ∨
  (∀ a, a ∈ L → size_of s a < nu) ∧ ∃ prev', prev' ∈ R ∧ ptr s prev' = e ∧
     malloc_loop (length L + n) nu prev (hd e L) s = malloc_loop n nu prev' e s.
Proof.
  revert prev. induction L as [|a L IH]; intros prev [Hp Hl] HL HR.
  { right. split; [intros ? []%not_elem_of_nil|]. by exists prev. }
  destruct (HL a (list_elem_of_here _ _)) as [Hne Ha]. cbn [length Nat.add hd malloc_loop] in *.
  destruct (nu <=? size_of s a) eqn:E1; [left; exists prev, a; split_and!; try done; [by left|lia]|].
  destruct (a =? a_freep s) eqn:E2; [lia|]. destruct Hl as [Hnx Hl].
  destruct (IH a (conj Hnx Hl) ltac:(intros b Hb; apply HL; by right) Ha) as [(pr & b & H1 & H2 & H3 & H4 & H5)|[Hsm (pr & H1 & H2 & H3)]].
  - left. exists pr, b. split_and!; try done; [by right|]. unfold ptr. by rewrite Hnx.
  - right. split; [intros b [->|Hb]%elem_of_cons; [lia|by apply Hsm]|]. exists pr. split_and!; try done. unfold ptr at 1. by rewrite Hnx.
Qed.

(** The ring from the header where the search starts. *)
Lemma rotate s F A : heap base s F A → ∃ L, linked (a_ptr s) (a_freep s :: L) (a_freep s) ∧ length L = length F ∧
  (∀ a, a ∈ base :: F.*1 ↔ a = a_freep s ∨ a ∈ L) ∧ a_freep s ∉ L.
Proof.
  intros Hh. destruct (heap_ring _ _ _ Hh) as (_ & _ & Hs). destruct Hh as [Hl _ _ _ _ Hfp _]. set (fp := a_freep s) in *.
  assert (Hlen : length (base :: F.*1) = S (length F)) by (simpl; by rewrite length_fmap).
  apply list_elem_of_split in Hfp as (X & Y & HXY). rewrite HXY in *. rewrite length_app in Hlen. cbn [length] in Hlen.
  exists (Y ++ X). apply linked_app in Hl as [HX [Hf HY]].
  apply sorted_nodup in Hs. apply NoDup_app in Hs as (_ & HnX & [HnY _]%NoDup_cons). split_and!.
  - change (fp :: Y ++ X) with ((fp :: Y) ++ X). apply linked_app. destruct X as [|x X]; simplify_list_eq; [done|]. done.
  - rewrite length_app. lia.
  - intros a. rewrite !elem_of_app, elem_of_cons. tauto.
  - intros [Hy|Hx]%elem_of_app; [done|]. apply (HnX fp Hx). by left.
Qed.

(** One round: a block that is large enough is taken, or there is none and malloc()
    asks for more memory. *)
Lemma round s F A nu n : heap base s F A → 
  (∃ prev a, prev ∈ base :: F.*1 ∧ ptr s prev = a ∧ nu ≤ size_of s a ∧
     malloc_loop (length F + S n) nu (a_freep s) (ptr s (a_freep s)) s = Some (malloc_take nu prev a s)) ∨
  (∀ b, b ∈ F → b.2 < nu) ∧ malloc_loop (length F + S n) nu (a_freep s) (ptr s (a_freep s)) s =
     ('(p, s) ← morecore n nu s; if p =? 0 then Some (0, s) else malloc_loop n nu p (ptr s p) s).
Proof.
  intros Hh. destruct (rotate s F A Hh) as (L & Hl & Hlen & HR & Hfp). destruct Hh as [_ _ Hb _ _ Hin _].
  rewrite <- Hlen. replace (ptr s (a_freep s)) with (hd (a_freep s) L) by (symmetry; apply Hl).
  destruct (scan s nu L (a_freep s) (a_freep s) (S n) (base :: F.*1) Hl) as [(pr & a & H1 & H2 & H3 & H4 & ->)|[Hsm (pr & H1 & H2 & ->)]].
  - intros a Ha. split; [by intros ->|]. apply HR. by right.
  - done.
  - left. by exists pr, a.
  - cbn [malloc_loop]. destruct (nu <=? size_of s (a_freep s)) eqn:E.
    + left. exists pr, (a_freep s). split_and!; try done. lia.
    + right. rewrite Z.eqb_refl. split; [|done]. intros b HbF. destruct (Hb b) as (<- & _); [apply elem_of_app; by left|].
      assert (b.1 ∈ base :: F.*1) as [->|HbL]%HR by (right; by apply list_elem_of_fmap_2); [lia|by apply Hsm].
Qed.

(** *** morecore() *)
Lemma heap_grown s F A nu g : heap base s F A → 0 < nu → a_brk s + hsize * nu < 2 ^ 31 →
  heap base (set_size (a_brk s) nu (set_brk (a_brk s + hsize * nu) g s)) F ((a_brk s, nu) :: A).
Proof.
  intros [Hl Hg Hb Hd [Hb0 Hbs] Hfp Hbrk] Hnu Hlim. constructor; cbn [set_size set_brk a_ptr a_freep a_brk]; try done.
  - intros b. rewrite elem_of_app, elem_of_cons. intros Hin. destruct (decide (b = (a_brk s, nu))) as [->|Hne].
    + unfold size_of. simpl. rewrite lookup_total_insert_eq. unfold hsize in *. lia.
    + destruct (Hb b) as (Hs & ? & ? & ?); [rewrite elem_of_app; tauto|]. unfold size_of in *. simpl.
      unfold hsize in *. rewrite lookup_total_insert_ne by lia. lia.
  - intros x. specialize (Hd x). rewrite cover_app in *. simpl. case_decide as Hx; [|lia].
    assert (Hz : cover (F ++ A) x = 0); [|rewrite cover_app in Hz; lia].
    apply cover_out. intros b Hin. destruct (Hb b Hin) as (_ & _ & _ & ?). unfold hsize in *. lia.
  - split; [done|]. unfold size_of in *. simpl. unfold hsize in *. by rewrite lookup_total_insert_ne by lia.
  - unfold hsize in *. lia.
Qed.

Lemma heap_grants s F A g : heap base s F A → heap base (set_brk (a_brk s) g s) F A.
Proof. intros []. by constructor. Qed.

(** The units morecore() asks for. *)
Definition core_units (nu : Z) : Z := if nu <? 4096 then 4096 else nu.

Lemma morecore_spec s F A nu fuel : heap base s F A → 0 < nu → a_brk s + hsize * core_units nu < 2 ^ 31 → (S (length F) < fuel)%nat →
  match a_grants s with
  | true :: g => ∃ s', morecore fuel nu s = Some (a_freep s', s') ∧ heap base s' (insert_block (a_brk s, core_units nu) F) A ∧
      a_brk s' = a_brk s + hsize * core_units nu ∧ a_grants s' = g
  | _ => morecore fuel nu s = Some (0, set_brk (a_brk s) (tail (a_grants s)) s)
  end.
Proof.
  intros Hh Hnu Hlim Hfuel. pose proof Hh as [_ _ _ _ [Hb0 _] _ Hbrk]. unfold morecore. fold (core_units nu).
  assert (Hcu : 0 < core_units nu) by (unfold core_units; destruct (_ <? _) eqn:E; lia). set (k := core_units nu) in *. clearbody k.
  unfold sbrk, hsize in *. rewrite s32_small by lia. destruct (k * 16 <=? 0) eqn:E; [lia|].
  rewrite (s32_small (a_brk s)), (u64_small (a_brk s)), (u32_small (a_brk s + k * 16)) by lia.
  destruct (a_grants s) as [|[] g]; [done| |done]. destruct (a_brk s =? u64 (-1)) eqn:E'; [change (u64 (-1)) with (2 ^ 64 - 1) in E'; lia|].
  rewrite plus_small by (unfold hsize; lia).
  pose proof (heap_grown s F A k g Hh Hcu Hlim) as Hg. unfold hsize in *. rewrite (Z.mul_comm k 16).
  destruct (free_spec _ F (a_brk s) k A fuel Hg Hfuel) as (s' & Hrun & Hh' & Hbr' & Hgr'). unfold hsize in Hrun.
  exists s'. replace (a_brk s + 16 * 1) with (a_brk s + 16) by lia. rewrite Hrun. split_and!; try done.
Qed.

Lemma join_length b L : (length (join b L) ≤ S (length L))%nat.
Proof. destruct L as [|c L]; simpl; [lia|]. destruct (_ =? _); simpl; lia. Qed.

Lemma insert_length b L : (length (insert_block b L) ≤ S (length L))%nat.
Proof.
  induction L as [|c L IH]; [done|]. cbn [insert_block]. destruct (_ <? _); [apply join_length|].
  pose proof (join_length c (insert_block b L)) as Hj. revert IH Hj. destruct (insert_block b L) as [|d L'] eqn:E; simpl; [lia|].
  destruct (_ =? _); simpl; lia.
Qed.

Lemma join_has b L : (∀ c, c ∈ L → 0 < c.2) → ∃ c, c ∈ join b L ∧ b.2 ≤ c.2.
Proof.
  intros HL. destruct L as [|c L]; simpl; [exists b; split; [by left|lia]|]. specialize (HL c (list_elem_of_here _ _)).
  destruct (_ =? _); eexists; (split; [by left|]); simpl; lia.
Qed.

(** A freed block is in one that is at least as large. *)
Lemma insert_has b L : (∀ c, c ∈ L → 0 < c.2) → 0 < b.2 → ∃ c, c ∈ insert_block b L ∧ b.2 ≤ c.2.
Proof.
  intros HL Hb. induction L as [|d L IH]; [exists b; split; [by left|lia]|]. cbn [insert_block].
  assert (HL' : ∀ c, c ∈ L → 0 < c.2) by (intros c Hc; apply HL; by right). specialize (HL d (list_elem_of_here _ _)) as Hd.
  destruct (_ <? _); [by apply join_has|]. destruct (IH HL') as (c & Hc & Hle). destruct (insert_block b L) as [|e L']; [by apply not_elem_of_nil in Hc|].
  cbn [join]. destruct (_ =? _); apply elem_of_cons in Hc as [->|Hc].
  - exists (d.1, d.2 + e.2). split; [by left|]. simpl. lia.
  - exists c. split; [by right|done].
  - exists e. split; [right; by left|done].
  - exists c. split; [right; by right|done].
Qed.

(** Giving back what was cut off restores the list. *)
Lemma insert_cut F1 a m F2 nu : gapped (F1 ++ (a, m) :: F2) → (∀ c, c ∈ F1 ++ (a, m) :: F2 → 0 < c.2) → 0 < nu ≤ m →
  insert_block (a + hsize * (m - nu), nu) (F1 ++ cut a m nu ++ F2) = F1 ++ (a, m) :: F2.
Proof.
  intros Hg Hp Hnu. pose proof (gapped_cut F1 a m F2 nu Hg Hnu) as Hg'. apply gapped_app in Hg as (_ & [Ha _] & H12).
  assert (Hp1 : ∀ c, c ∈ F1 → 0 ≤ c.2) by (intros c Hc; specialize (Hp c); rewrite elem_of_app in Hp; specialize (Hp (or_introl Hc)); lia).
  assert (HjF : join (a + hsize * (m - nu), nu) F2 = (a + hsize * (m - nu), nu) :: F2).
  { destruct F2 as [|c F2]; [done|]. apply join_before. specialize (Ha c (list_elem_of_here _ _)). unfold before, hsize in *. simpl in *. lia. }
  assert (Hlt : ∀ c, c ∈ F2 → a + hsize * (m - nu) < c.1) by (intros c Hc; specialize (Ha c Hc); unfold before, hsize in *; simpl in *; lia).
  unfold cut in *. destruct (m =? nu) eqn:E; cbn [app] in *.
  - replace nu with m in * by lia. replace (a + hsize * (m - m)) with a in * by (unfold hsize; lia).
    destruct F1 as [|p F1 _] using rev_ind.
    { cbn [app]. destruct F2 as [|c F2]; [done|]. cbn [insert_block]. specialize (Hlt c (list_elem_of_here _ _)).
      cbn [fst]. by destruct (a <? c.1) eqn:E'; [|lia]. }
    rewrite <- app_assoc in *. cbn [app] in *. assert (Hpa : before p (a, m)) by (apply H12; [apply elem_of_app; right|]; by left).
    assert (0 ≤ p.2) by (apply Hp1, elem_of_app; right; by left).
    rewrite <- app_assoc, insert_split; [by rewrite HjF, join_before|done| | |done].
    + intros c Hc. apply Hp1, elem_of_app. by left.
    + unfold before, hsize in *. simpl in *. lia.
  - rewrite insert_split; [|done|done|unfold hsize; simpl; lia|done]. rewrite HjF. cbn [join fst snd]. rewrite Z.eqb_refl.
    do 3 f_equal. lia.
Qed.

Lemma units_for_spec nbytes : 0 ≤ nbytes < 2 ^ 32 → 0 < units_for nbytes ∧ nbytes ≤ hsize * (units_for nbytes - 1) < nbytes + hsize.
Proof. intros Hn. unfold units_for, hsize. rewrite u32_small; Z.div_mod_to_equations; lia. Qed.

(** What a successful malloc() leaves: [F0] is the free list it took from. *)
Definition gave (s' : arena) (F0 A : list (Z * Z)) (nu ap : Z) : Prop :=
  ∃ F', heap base s' F' ((ap - hsize, nu) :: A) ∧ insert_block (ap - hsize, nu) F' = F0 ∧ 
    units F' + nu = units F0 ∧ ∀ x, cover F' x + cover [(ap - hsize, nu)] x = cover F0 x.

Lemma take_gave s F A prev a nu : heap base s F A → prev ∈ base :: F.*1 → ptr s prev = a → 0 < nu ≤ size_of s a →
  ∃ ap s', malloc_take nu prev a s = (ap, s') ∧ gave s' F A nu ap ∧ a_brk s' = a_brk s ∧ ∃ b, b ∈ F ∧ nu ≤ b.2.
Proof.
  intros Hh Hin Hp Hnu. destruct (take_spec s F A prev a nu Hh Hin Hp Hnu) as (F1 & m & F2 & s' & -> & Hm & Hrun & Hh' & Hbrk & Hgr).
  exists (a + hsize * (m - nu) + hsize), s'. split_and!; try done; [|exists (a, m); split; [apply elem_of_app; right; by left|done]].
  exists (F1 ++ cut a m nu ++ F2).
  replace (a + hsize * (m - nu) + hsize - hsize) with (a + hsize * (m - nu)) by lia. destruct Hh as [_ Hg Hb _ _ _ _]. split_and!.
  - done.
  - apply insert_cut; [done| |lia]. intros c Hc. apply Hb, elem_of_app. by left.
  - rewrite !units_app. simpl. unfold cut. destruct (_ =? _) eqn:E; simpl; lia.
  - intros x. rewrite !cover_app. pose proof (cut_cover a m nu x ltac:(lia)). simpl in *. lia.
Qed.

(** malloc() on an initialised heap. *)
Lemma malloc_loop_spec s F A nu fuel : heap base s F A → 0 < nu → a_brk s + hsize * core_units nu < 2 ^ 31 → (2 * length F + 3 ≤ fuel)%nat →
  ∃ ap s', malloc_loop fuel nu (a_freep s) (ptr s (a_freep s)) s = Some (ap, s') ∧
    ((∃ b, b ∈ F ∧ nu ≤ b.2) ∧ gave s' F A nu ap ∧ a_brk s' = a_brk s ∨
     (∀ b, b ∈ F → b.2 < nu) ∧ hd false (a_grants s) = true ∧
       gave s' (insert_block (a_brk s, core_units nu) F) A nu ap ∧ a_brk s' = a_brk s + hsize * core_units nu ∨
     (∀ b, b ∈ F → b.2 < nu) ∧ hd false (a_grants s) = false ∧ ap = 0 ∧ heap base s' F A ∧ a_brk s' = a_brk s).
Proof.
  intros Hh Hnu Hlim Hfuel. set (n := (fuel - length F - 1)%nat). replace fuel with (length F + S n)%nat by lia.
  assert (Hcu : nu ≤ core_units nu) by (unfold core_units; destruct (_ <? _) eqn:E; lia).
  assert (Hpos : ∀ c, c ∈ F → 0 < c.2) by (intros c Hc; apply Hh, elem_of_app; by left).
  destruct (round s F A nu n Hh) as [(prev & a & H1 & H2 & H3 & ->)|[Hnone ->]].
  { destruct (take_gave s F A prev a nu Hh H1 H2 ltac:(lia)) as (ap & s' & -> & Hgave & Hbr & Hfit). exists ap, s'. split; [done|]. by left. }
  pose proof (morecore_spec s F A nu n Hh Hnu Hlim ltac:(lia)) as Hm. destruct (a_grants s) as [|[] g].
  1, 3: rewrite Hm; cbn; eexists _, _; split; [done|]; right; right; split_and!; try done; by apply heap_grants.
  destruct Hm as (s1 & -> & Hh1 & Hb1 & Hg1). cbn [mbind option_bind]. set (F1 := insert_block (a_brk s, core_units nu) F) in *.
  pose proof (freep_pos _ _ _ Hh1) as Hfp.
  destruct (_ =? 0) eqn:E; [lia|]. pose proof (insert_length (a_brk s, core_units nu) F) as Hlen. fold F1 in Hlen.
  replace n with (length F1 + S (n - length F1 - 1))%nat by lia.
  destruct (round s1 F1 A nu (n - length F1 - 1) Hh1) as [(prev & a & H1 & H2 & H3 & ->)|[Hnone' _]].
  - destruct (take_gave s1 F1 A prev a nu Hh1 H1 H2 ltac:(lia)) as (ap & s' & -> & Hgave & Hbr & _). exists ap, s'. split; [done|].
    right. left. split_and!; try done. by rewrite Hbr.
  - exfalso. destruct (insert_has (a_brk s, core_units nu) F Hpos ltac:(simpl; lia)) as (c & Hc & Hle).
    specialize (Hnone' c Hc). simpl in Hle. lia.
Qed.

(** The first malloc() makes the empty heap. *)
Lemma heap_first s : 0 < base → base + hsize ≤ a_brk s < 2 ^ 31 →
  heap base (set_size base 0 (set_freep base (set_ptr base base s))) [] [].
Proof.
  intros Hb Hbrk. constructor; simpl; try done.
  - by rewrite lookup_total_insert_eq.
  - intros ? []%not_elem_of_nil.
  - unfold size_of. simpl. by rewrite lookup_total_insert_eq.
  - by left.
Qed.

Lemma heap_perm s F A A' : A ≡ₚ A' → heap base s F A → heap base s F A'.
Proof.
  intros HA [H1 H2 Hb Hd H5 H6 H7]. constructor; try done.
  - intros b Hin. apply Hb. by rewrite HA.
  - intros x. specialize (Hd x). rewrite cover_app in *. replace (cover A' x) with (cover A x); [done|].
    clear -HA. induction HA; simpl; lia.
Qed.
End spec.
