(* ===== verification/Grep.v ===== *)
(** * user/grep.c

    The regular-expression matcher, and the loop that cuts the input into lines.
    A pattern and a text are C strings: lists of bytes that end where the list
    ends. *)

From Stdlib Require Import ZArith Lia.
From stdpp Require Import base numbers gmap strings countable tactics list.
From S2P Require Import Prelude Machine User Ulib.

Definition chSTAR : Z := 42.
Definition chDOT : Z := 46.
Definition chDOLLAR : Z := 36.
Definition chCARET : Z := 94.

(** [here] is matchhere() of the pattern after the star. *)
Fixpoint matchstar (here : list Z → bool) (c : Z) (text : list Z) : bool :=
  here text ||
  match text with
  | [] => false
  | x :: text => ((x =? c) || (c =? chDOT)) && matchstar here c text
  end.

Fixpoint matchhere (re text : list Z) : bool :=
  match re with
  | [] => true
  | c :: re1 =>
      let one := match text with
        | [] => false
        | x :: text => ((c =? chDOT) || (c =? x)) && matchhere re1 text
        end in
      match re1 with
      | [] => if c =? chDOLLAR then (match text with [] => true | _ => false end) else one
      | d :: re2 => if d =? chSTAR then matchstar (matchhere re2) c text else one
      end
  end.

(** The do-while loop of match(). *)
Fixpoint match_any (here : list Z → bool) (text : list Z) : bool :=
  here text || match text with [] => false | _ :: text => match_any here text end.

Definition match_ (re text : list Z) : bool :=
  match re with
  | c :: re1 => if c =? chCARET then matchhere re1 text else match_any (matchhere re) text
  | [] => match_any (matchhere []) text
  end.

(** The inner loop of grep(): the lines of [buf] from [p] on; the result is the
    buffer and where the rest begins. Every round moves [p], so as many rounds
    as there are bytes are enough. *)
Fixpoint grep_lines (n : nat) (pattern buf : list Z) (p : nat) : U (list Z * nat) :=
  match n with
  | O => λ _, Starved
  | S n =>
      match strchr (drop p buf) 10 with
      | None => mret (buf, p)
      | Some k =>
          let q := (p + k)%nat in
          let cut := <[q := 0]> buf in
          if match_ pattern (cstr (drop p cut)) then
            let back := <[q := 10]> cut in
            u_write 1 (take (q + 1 - p) (drop p back));;
            grep_lines n pattern back (q + 1)
          else grep_lines n pattern cut (q + 1)
      end
  end.

(** memmove(buf, p, m) inside the buffer. *)
Definition move_front (buf : list Z) (p m : nat) : list Z := take m (drop p buf) ++ drop m buf.

Definition GREP_BUF : nat := 1024.

Definition grep_round (pattern : list Z) (fd : Z) (st : list Z * nat) : U (list Z * nat + list Z) :=
  let '(buf, m) := st in
  r ← u_read fd (Z.of_nat (GREP_BUF - m - 1));
  match r with
  | Some (b :: bs) =>
      let m := (m + length (b :: bs))%nat in
      let buf := <[m := 0]> (take (m - length (b :: bs)) buf ++ (b :: bs) ++ drop m buf) in
      '(buf, p) ← grep_lines (S GREP_BUF) pattern buf 0;
      mret (inl (move_front buf p (m - p), (m - p)%nat))
  | _ => mret (inr buf)
  end.

(** Every read but the last delivers a byte, so the bytes that are left bound
    the number of rounds. *)
Definition reads_left (fd : Z) (w : world) : nat :=
  S (length (stream_bytes (default [] (w_fds w !! fd)))).

Definition grep (pattern : list Z) (buf : list Z) (fd : Z) : U (list Z) := λ w,
  uloop (reads_left fd w) (grep_round pattern fd) (buf, 0%nat) w.

(** main(): [buf] is the global array, all zero when the program starts. *)
Fixpoint grep_files (pattern : list Z) (buf : list Z) (files : list (list Z)) : U unit :=
  match files with
  | [] => uexit 0
  | f :: files =>
      fd ← u_open f;
      if fd <? 0 then
        Ulib.printf "grep: cannot open %s" [AStr (Some f)];; putc 1 10;; uexit 1
      else
        buf ← grep pattern buf fd;
        u_close fd;;
        grep_files pattern buf files
  end.

Definition grep_main (argv : list (list Z)) : U unit :=
  let buf := replicate GREP_BUF 0 in
  match argv with
  | _ :: pattern :: [] => grep pattern buf 0;; uexit 0
  | _ :: pattern :: files => grep_files pattern buf files
  | _ => fprintf 2 "usage: grep pattern [file ...]" [];; putc 2 10;; uexit 1
  end.

(** ** What a pattern means *)

(** A pattern is a sequence of items, perhaps tied to the start or to the end of
    the text. *)
Inductive item := One (c : Z) | Star (c : Z).

Record pattern := mkPattern { from_start : bool; items : list item; to_end : bool }.

Fixpoint parse_items (re : list Z) : list item * bool :=
  match re with
  | [] => ([], false)
  | c :: re1 =>
      let one := let '(its, e) := parse_items re1 in (One c :: its, e) in
      match re1 with
      | [] => if c =? chDOLLAR then ([], true) else one
      | d :: re2 => if d =? chSTAR then let '(its, e) := parse_items re2 in (Star c :: its, e) else one
      end
  end.

Definition parse_pattern (re : list Z) : pattern :=
  match re with
  | c :: re1 => if c =? chCARET then let '(its, e) := parse_items re1 in mkPattern true its e
                else let '(its, e) := parse_items re in mkPattern false its e
  | [] => mkPattern false [] false
  end.

(** A pattern character stands for itself, a dot for any character. *)
Definition accepts (c x : Z) : Prop := c = chDOT ∨ c = x.

Inductive lang : list item → list Z → Prop :=
  | lang_nil : lang [] []
  | lang_one c p x w : accepts c x → lang p w → lang (One c :: p) (x :: w)
  | lang_star c p u w : Forall (accepts c) u → lang p w → lang (Star c :: p) (u ++ w).

(** [text] contains, where the pattern allows, a word of the pattern's language. *)
Definition contains (p : pattern) (text : list Z) : Prop :=
  ∃ a w b, text = a ++ w ++ b ∧ lang (items p) w ∧ (from_start p = true → a = []) ∧ (to_end p = true → b = []).

(** A prefix of the text is a word of the language, up to the end if [e]. *)
Definition begins (its : list item) (e : bool) (text : list Z) : Prop :=
  ∃ w b, text = w ++ b ∧ lang its w ∧ (e = true → b = []).

Lemma begins_nil e text : begins [] e text ↔ (e = true → text = []).
Proof.
  split.
  - intros (w & b & -> & Hl & He). inversion Hl; subst. done.
  - intros He. exists [], text. split; [done|]. split; [constructor|done].
Qed.

Lemma begins_one c its e text :
  begins (One c :: its) e text ↔ ∃ x t, text = x :: t ∧ accepts c x ∧ begins its e t.
Proof.
  split.
  - intros (w & b & -> & Hl & He). inversion Hl; subst. eexists _, _. split; [done|]. split; [done|]. by eexists _, _.
  - intros (x & t & -> & Ha & w & b & -> & Hl & He). exists (x :: w), b. split; [done|]. split; [by constructor|done].
Qed.

Lemma begins_star c its e text :
  begins (Star c :: its) e text ↔ ∃ u t, text = u ++ t ∧ Forall (accepts c) u ∧ begins its e t.
Proof.
  split.
  - intros (w & b & -> & Hl & He). inversion Hl; subst. eexists _, _. split; [by rewrite <- app_assoc|]. split; [done|].
    by eexists _, _.
  - intros (u & t & -> & Hu & w & b & -> & Hl & He). exists (u ++ w), b. split; [by rewrite app_assoc|].
    split; [by constructor|done].
Qed.

Lemma matchstar_spec here c text :
  matchstar here c text = true ↔ ∃ u t, text = u ++ t ∧ Forall (accepts c) u ∧ here t = true.
Proof.
  induction text as [|x text IH]; simpl; rewrite orb_true_iff.
  - split.
    + intros [Hh|]; [|done]. by exists [], [].
    + intros (u & t & He & _ & Hh). symmetry in He. apply app_eq_nil in He as [-> ->]. by left.
  - rewrite andb_true_iff, IH, orb_true_iff, !Z.eqb_eq. split.
    + intros [Hh|[Hx (u & t & -> & Hu & Hh)]]; [by exists [], (x :: text)|].
      exists (x :: u), t. split; [done|]. split; [|done]. constructor; [|done]. unfold accepts. destruct Hx; auto.
    + intros (u & t & He & Hu & Hh). destruct u as [|y u]; simpl in He; [subst; by left|].
      injection He as -> ->. apply Forall_cons in Hu as [Hy Hu]. right. split; [destruct Hy; auto|by exists u, t].
Qed.

Lemma matchhere_spec re text :
  matchhere re text = true ↔ begins (parse_items re).1 (parse_items re).2 text.
Proof.
  remember (length re) as n eqn:Hn. revert re Hn text.
  induction (lt_wf n) as [n _ IH]. intros re -> text. destruct re as [|c re1]; [by rewrite begins_nil|].
  assert (Hone : match text with [] => false | x :: t => ((c =? chDOT) || (c =? x)) && matchhere re1 t end = true ↔
    begins (One c :: (parse_items re1).1) (parse_items re1).2 text).
  { rewrite begins_one. destruct text as [|x t].
    - split; [done|]. by intros (? & ? & ? & _).
    - rewrite andb_true_iff, orb_true_iff, !Z.eqb_eq, (IH (length re1)) by (simpl; lia). split.
      + intros [Ha Hb]. by exists x, t.
      + intros (y & t' & He & Ha & Hb). by injection He as -> ->. }
  cbn [matchhere parse_items]. destruct re1 as [|d re2].
  - destruct (Z.eqb_spec c chDOLLAR).
    + rewrite begins_nil. simpl. destruct text; [done|]. split; [done|]. intros Hc. by specialize (Hc eq_refl).
    + rewrite Hone. by destruct (parse_items []).
  - destruct (Z.eqb_spec d chSTAR) as [_|_].
    + rewrite matchstar_spec. pose proof (IH (length re2) ltac:(simpl; lia) re2 eq_refl) as IH2.
      destruct (parse_items re2) as [its e]. simpl in *. rewrite begins_star.
      split; intros (u & t & -> & Hu & Hh); exists u, t; (split; [done|]); (split; [done|]); by apply IH2.
    + rewrite Hone. by destruct (parse_items (d :: re2)).
Qed.

Lemma match_any_spec here text :
  match_any here text = true ↔ ∃ a t, text = a ++ t ∧ here t = true.
Proof.
  induction text as [|x text IH]; simpl; rewrite orb_true_iff.
  - split; [intros [Hh|]; [by exists [], []|done]|]. intros (a & t & He & Hh). symmetry in He.
    apply app_eq_nil in He as [-> ->]. by left.
  - rewrite IH. split.
    + intros [Hh|(a & t & -> & Hh)]; [by exists [], (x :: text)|by exists (x :: a), t].
    + intros (a & t & He & Hh). destruct a as [|y a]; simpl in He; [subst; by left|].
      injection He as -> ->. right. by exists a, t.
Qed.

Lemma match_spec re text : match_ re text = true ↔ contains (parse_pattern re) text.
Proof.
  assert (Hany : match_any (matchhere re) text = true ↔
    contains (mkPattern false (parse_items re).1 (parse_items re).2) text).
  { rewrite match_any_spec. split.
    - intros (a & t & -> & (w & b & -> & Hl & He)%matchhere_spec). by exists a, w, b.
    - intros (a & w & b & -> & Hl & _ & He). exists a, (w ++ b). split; [done|]. apply matchhere_spec. by exists w, b. }
  unfold match_, parse_pattern. destruct re as [|c re1]; [done|].
  destruct (Z.eqb_spec c chCARET) as [_|_].
  - rewrite matchhere_spec. destruct (parse_items re1) as [its e] eqn:Hp. simpl. split.
    + intros (w & b & -> & Hl & He). exists [], w, b. done.
    + intros (a & w & b & -> & Hl & Hs & He). rewrite (Hs eq_refl). by exists w, b.
  - rewrite Hany. by destruct (parse_items (c :: re1)).
Qed.

(** ** Lines *)

(** The complete lines of a text, without their newlines, and what follows the
    last newline. *)
Fixpoint lines (s : list Z) : list (list Z) * list Z :=
  match s with
  | [] => ([], [])
  | c :: s =>
      let '(ls, r) := lines s in
      if c =? 10 then ([] :: ls, r)
      else match ls with
           | [] => ([], c :: r)
           | l :: ls => ((c :: l) :: ls, r)
           end
  end.

(** The writes for the lines that match. *)
Definition hits (re : list Z) (ls : list (list Z)) : list (Z * list Z) :=
  (λ l, (1, l ++ [10])) <$> filter (λ l, match_ re l = true) ls.

Lemma lines_nil s r : lines s = ([], r) → r = s ∧ 10 ∉ s.
Proof.
  revert r. induction s as [|c s IH]; intros r; simpl.
  - intros [= <-]. split; [done|apply not_elem_of_nil].
  - destruct (lines s) as [ls r0] eqn:Hs. destruct (Z.eqb_spec c 10); [done|]. destruct ls; [|done].
    intros [= <-]. destruct (IH r0 eq_refl) as [-> Hn]. split; [done|]. apply not_elem_of_cons. done.
Qed.

Lemma lines_cons s l ls r : lines s = (l :: ls, r) → ∃ s', s = l ++ 10 :: s' ∧ 10 ∉ l ∧ lines s' = (ls, r).
Proof.
  revert l. induction s as [|c s IH]; intros l; simpl; [done|].
  destruct (lines s) as [ls0 r0] eqn:Hs. destruct (Z.eqb_spec c 10) as [->|Hc].
  - intros [= <- <- <-]. exists s. split; [done|]. split; [apply not_elem_of_nil|done].
  - destruct ls0 as [|l0 ls0]; [done|]. intros [= <- <- <-]. destruct (IH l0 eq_refl) as (s' & -> & Hl & Hls).
    exists s'. split; [done|]. split; [|done]. apply not_elem_of_cons. done.
Qed.

Lemma lines_app a b : lines (a ++ b) = ((lines a).1 ++ (lines ((lines a).2 ++ b)).1, (lines ((lines a).2 ++ b)).2).
Proof.
  induction a as [|c a IH]; simpl; [by destruct (lines b)|]. rewrite IH. destruct (lines a) as [ls r]. simpl.
  destruct (Z.eqb_spec c 10) as [->|Hc].
  - simpl. by destruct (lines (r ++ b)).
  - destruct ls as [|l ls]; simpl.
    + rewrite (proj2 (Z.eqb_neq c 10)) by done. destruct (lines (r ++ b)) as [[|l' ls'] r']; done.
    + by destruct (lines (r ++ b)).
Qed.

(** A text without newline starts the first line, or the rest. *)
Lemma lines_start a b n : 10 ∉ a →
  Forall (λ l, (length l ≤ n)%nat) (lines (a ++ b)).1 → (length (lines (a ++ b)).2 ≤ n)%nat → (length a ≤ n)%nat.
Proof.
  intros Ha Hl Hr. destruct (lines (a ++ b)) as [[|l ls] r] eqn:He; simpl in *.
  - apply lines_nil in He as [-> _]. rewrite length_app in Hr. lia.
  - apply lines_cons in He as (s' & He & Hn & _). apply Forall_cons in Hl as [Hl _].
    assert (Hle : (length a ≤ length l)%nat); [|lia]. apply Nat.nlt_ge. intros Hlt.
    apply Ha. apply list_elem_of_lookup. exists (length l). rewrite <- (lookup_app_l a b) by done.
    rewrite He. by rewrite list_lookup_middle.
Qed.

(** ** The inner loop *)
Section lines_loop.
Context (re : list Z).

Lemma line_write (pre l s tl : list Z) :
  let buf := pre ++ (l ++ 10 :: s) ++ 0 :: tl in let q := (length pre + length l)%nat in
  (∀ c, c ∈ l → c ≠ 0) →
  cstr (drop (length pre) (<[q := 0]> buf)) = l ∧
  <[q := 10]> (<[q := 0]> buf) = buf ∧ take (q + 1 - length pre) (drop (length pre) buf) = l ++ [10] ∧
  ∃ x, <[q := 0]> buf = (pre ++ l ++ [x]) ++ s ++ 0 :: tl ∧ length (pre ++ l ++ [x]) = (q + 1)%nat.
Proof.
  intros buf q Hl. assert (Hbuf : buf = (pre ++ l) ++ 10 :: s ++ 0 :: tl).
  { unfold buf. by rewrite <- !app_assoc. }
  assert (Hq : ∀ v, <[q := v]> buf = (pre ++ l) ++ v :: s ++ 0 :: tl).
  { intros v. rewrite Hbuf. rewrite (insert_app_r_alt (pre ++ l)) by (rewrite length_app; lia).
    rewrite length_app. replace (q - _)%nat with 0%nat by lia. done. }
  split; [|split; [|split]].
  - rewrite Hq, <- app_assoc, drop_app_length. by apply cstr_app.
  - rewrite list_insert_insert_eq. by rewrite Hq.
  - unfold buf. rewrite drop_app_length, <- app_assoc. replace (q + 1 - length pre)%nat with (length (l ++ [10])) by (rewrite length_app; simpl; lia).
    change (l ++ (10 :: s) ++ 0 :: tl) with (l ++ [10] ++ s ++ 0 :: tl). rewrite app_assoc. by rewrite take_app_length.
  - exists 0. rewrite Hq. split; [by rewrite <- !app_assoc|]. rewrite !length_app. simpl. lia.
Qed.

Lemma grep_lines_spec ls : ∀ n pre data tl r w,
  lines data = (ls, r) → (length ls < n)%nat → (∀ c, c ∈ data → c ≠ 0) → 1 ∉ w_bad w →
  ∃ pre', grep_lines n re (pre ++ data ++ 0 :: tl) (length pre) w =
      Done (pre' ++ r ++ 0 :: tl, length pre') (set_w_out (w_out w ++ hits re ls) w) ∧
    length (pre' ++ r) = length (pre ++ data).
Proof.
  induction ls as [|l ls IH]; intros n pre data tl r w Hls Hn Hnul Hbad; (destruct n as [|n]; [simpl in *; lia|]); cbn [grep_lines].
  - apply lines_nil in Hls as [-> Hnl]. exists pre. rewrite drop_app_length. unfold strchr.
    rewrite strchr_from_none by (by rewrite cstr_app). split; [|done]. unfold mret, U_ret, hits. simpl.
    rewrite app_nil_r. by destruct w.
  - apply lines_cons in Hls as (s & -> & Hnl & Hls).
    assert (Hl0 : ∀ c, c ∈ l → c ≠ 0) by (intros c Hc; apply Hnul, elem_of_app; by left).
    destruct (line_write pre l s tl Hl0) as (Hcut & Hback & Hout & x & Hcut2 & Hlen).
    assert (Hchr : strchr (drop (length pre) (pre ++ (l ++ 10 :: s) ++ 0 :: tl)) 10 = Some (length l)).
    { rewrite drop_app_length, <- app_assoc. unfold strchr. simpl app. by rewrite strchr_from_app. }
    rewrite Hchr, Hcut, Hback.
    assert (Hs0 : ∀ c, c ∈ s → c ≠ 0) by (intros c Hc; apply Hnul, elem_of_app; right; by apply list_elem_of_further).
    unfold hits. rewrite filter_cons. destruct (match_ re l) eqn:Hm.
    + rewrite decide_True by done. rewrite Hout. set (w1 := set_w_out (w_out w ++ [(1, l ++ [10])]) w).
      erewrite ubind_done; [|unfold u_write; rewrite decide_False by done; reflexivity]. fold w1.
      destruct (IH n (pre ++ l ++ [10]) s tl r w1 Hls ltac:(simpl in Hn; lia) Hs0 Hbad) as (pre' & Hrun & Hlen').
      exists pre'. split; [|rewrite Hlen', !length_app; simpl; lia].
      replace (pre ++ (l ++ 10 :: s) ++ 0 :: tl) with ((pre ++ l ++ [10]) ++ s ++ 0 :: tl) by (by rewrite <- !app_assoc).
      replace (length pre + length l + 1)%nat with (length (pre ++ l ++ [10])) by (rewrite !length_app; simpl; lia).
      rewrite Hrun. unfold w1, set_w_out. simpl. by rewrite <- app_assoc.
    + rewrite decide_False by (by rewrite Hm || done). rewrite Hcut2, <- Hlen.
      destruct (IH n (pre ++ l ++ [x]) s tl r w Hls ltac:(simpl in Hn; lia) Hs0 Hbad) as (pre' & Hrun & Hlen').
      exists pre'. split; [done|]. rewrite Hlen', !length_app. simpl. lia.
Qed.
End lines_loop.

(** ** The whole of grep() *)
Lemma reads_left_eq fd w st : w_fds w !! fd = Some st → reads_left fd w = S (length (stream_bytes st)).
Proof. intros Hfd. unfold reads_left. unfold stream in *. by rewrite Hfd. Qed.

Lemma lines_length s : (length (lines s).1 + length (lines s).2 ≤ length s)%nat.
Proof.
  induction s as [|c s IH]; simpl; [lia|]. destruct (lines s) as [ls r]. simpl in *.
  destruct (c =? 10); simpl; [lia|]. destruct ls; simpl in *; lia.
Qed.

Lemma lines_rest_clean s : 10 ∉ (lines s).2 ∧ (∀ c, c ∈ (lines s).2 → c ∈ s).
Proof.
  induction s as [|c s [IH1 IH2]]; simpl; [by split; [apply not_elem_of_nil|]|]. destruct (lines s) as [ls r]. simpl in *.
  destruct (Z.eqb_spec c 10) as [->|Hc]; simpl.
  - split; [done|]. intros x Hx. apply elem_of_cons. auto.
  - destruct ls; simpl; [|split; [done|intros x Hx; apply elem_of_cons; auto]]. split.
    + apply not_elem_of_cons. done.
    + intros x [->|Hx]%elem_of_cons; apply elem_of_cons; auto.
Qed.

(** The lines of the input fit in the buffer, with the byte grep() keeps free. *)
Definition fits (s : list Z) : Prop :=
  Forall (λ l, (length l ≤ GREP_BUF - 2)%nat) (lines s).1 ∧ (length (lines s).2 ≤ GREP_BUF - 2)%nat.

(** The buffer after a read of [bs] behind [pend]. *)
Lemma read_buffer (pend bs rest : list Z) :
  let m := (length pend + length bs)%nat in
  (m < length (pend ++ rest))%nat →
  <[m := 0]> (take (m - length bs) (pend ++ rest) ++ bs ++ drop m (pend ++ rest)) =
    [] ++ (pend ++ bs) ++ 0 :: drop (S m) (pend ++ rest).
Proof.
  intros m Hm. replace (m - length bs)%nat with (length pend) by lia. rewrite take_app_length.
  destruct (drop m (pend ++ rest)) as [|x d] eqn:Hd.
  { apply (f_equal length) in Hd. rewrite length_drop in Hd. simpl in Hd. lia. }
  assert (Hd' : drop (S m) (pend ++ rest) = d) by (replace (S m) with (m + 1)%nat by lia; by rewrite <- drop_drop, Hd).
  rewrite Hd', (app_assoc pend bs). simpl. rewrite (insert_app_r_alt (pend ++ bs)) by (rewrite length_app; lia).
  rewrite length_app. by replace (m - _)%nat with 0%nat by lia.
Qed.

(** One round: the lines that are complete are dealt with, the rest moves to the
    front. *)
Lemma grep_round_read re fd pend rest b bs w w1 :
  let bs := b :: bs in let '(ls, r) := lines (pend ++ bs) in
  u_read fd (Z.of_nat (GREP_BUF - length pend - 1)) w = Done (Some bs) w1 → 1 ∉ w_bad w1 →
  length (pend ++ rest) = GREP_BUF → (length pend + length bs < GREP_BUF)%nat → (∀ c, c ∈ pend ++ bs → c ≠ 0) →
  ∃ rest', grep_round re fd (pend ++ rest, length pend) w =
      Done (inl (r ++ rest', length r)) (set_w_out (w_out w1 ++ hits re ls) w1) ∧
    length (r ++ rest') = GREP_BUF.
Proof.
  intros bs'. destruct (lines (pend ++ bs')) as [ls r] eqn:Hlines. intros Hread Hbad Hbuf Hmlt Hnul.
  set (m := (length pend + length bs')%nat) in *.
  pose proof (lines_length (pend ++ bs')) as Hlen. rewrite Hlines, length_app in Hlen. simpl fst in Hlen. simpl snd in Hlen.
  fold m in Hlen.
  destruct (grep_lines_spec re ls (S GREP_BUF) [] (pend ++ bs') (drop (S m) (pend ++ rest)) r w1) as (pre' & Hgl & Hpl);
    [done|lia|done|done|].
  assert (Hpr : (length pre' + length r = m)%nat) by (rewrite !length_app in Hpl; simpl in Hpl; unfold m, bs'; simpl; lia).
  assert (Hmp : (m - length pre' = length r)%nat) by lia.
  set (buf2 := pre' ++ r ++ 0 :: drop (S m) (pend ++ rest)) in *. exists (drop (length r) buf2). split.
  - unfold grep_round. rewrite (ubind_done _ _ _ _ _ Hread). unfold bs' at 1. fold bs'. fold m.
    pose proof (read_buffer pend bs' rest ltac:(fold m; lia)) as Hrb. cbv zeta in Hrb. fold m in Hrb. rewrite Hrb.
    rewrite (ubind_done _ _ _ _ _ Hgl), Hmp. unfold move_front, buf2. rewrite drop_app_length. by rewrite take_app_length.
  - rewrite length_app, length_drop. unfold buf2. rewrite !length_app. simpl length. rewrite length_drop, Hbuf. lia.
Qed.

Lemma grep_loop re fd n : ∀ pend rest st w,
  w_fds w !! fd = Some st → healthy st → (length (stream_bytes st) < n)%nat → 1 ∉ w_bad w →
  length (pend ++ rest) = GREP_BUF → 10 ∉ pend → (∀ c, c ∈ pend ++ stream_bytes st → c ≠ 0) →
  fits (pend ++ stream_bytes st) →
  ∃ buf w', uloop n (grep_round re fd) (pend ++ rest, length pend) w = Done buf w' ∧
    w_out w' = w_out w ++ hits re (lines (pend ++ stream_bytes st)).1 ∧ w_bad w' = w_bad w ∧ w_files w' = w_files w.
Proof.
  induction n as [|n IH]; intros pend rest st w Hfd Hst Hn Hbad Hbuf Hpend Hnul [Hfl Hfr]; [lia|].
  assert (Hm : (length pend ≤ GREP_BUF - 2)%nat) by (by apply (lines_start pend (stream_bytes st))).
  assert (Hroom : 0 < Z.of_nat (GREP_BUF - length pend - 1)) by (unfold GREP_BUF in *; lia).
  destruct (take_stream_healthy st _ Hst Hroom) as (bs & st' & Htake & Hst' & Hbytes & Hle & Hend).
  rewrite uloop_S. set (w1 := set_w_fds (<[fd := st']> (w_fds w)) w).
  assert (Hread : u_read fd (Z.of_nat (GREP_BUF - length pend - 1)) w = Done (Some bs) w1).
  { unfold u_read. by rewrite Hfd, Htake. }
  destruct bs as [|b bs].
  { exists (pend ++ rest), w1. split; [|split; [|done]].
    - erewrite ubind_done; [|unfold grep_round; rewrite (ubind_done _ _ _ _ _ Hread); reflexivity]. done.
    - rewrite (Hend eq_refl), app_nil_r. destruct (lines pend) as [[|l ls] r] eqn:Hlp; simpl.
      + unfold hits. simpl. by rewrite app_nil_r.
      + apply lines_cons in Hlp as (? & -> & _). destruct Hpend. apply elem_of_app. right. apply list_elem_of_here. }
  rewrite Hbytes, app_assoc in Hnul, Hfl, Hfr |- *.
  pose proof (grep_round_read re fd pend rest b bs w w1) as Hround. cbv zeta in Hround.
  pose proof (lines_app (pend ++ b :: bs) (stream_bytes st')) as Happ.
  destruct (lines_rest_clean (pend ++ b :: bs)) as [Hr10 Hrin].
  destruct (lines (pend ++ b :: bs)) as [ls r]. cbn [fst snd] in Happ, Hr10, Hrin.
  destruct Hround as (rest' & Hround & Hlen); [done|done|done|unfold GREP_BUF in *; lia| |].
  { intros c Hc. apply Hnul, elem_of_app. by left. }
  rewrite (ubind_done _ _ _ _ _ Hround).
  destruct (IH r rest' st' (set_w_out (w_out w1 ++ hits re ls) w1)) as (buf' & w' & Hrun & Hout & Hb' & Hf');
    [apply lookup_insert_eq|done| |done|done|done| | |].
  - rewrite Hbytes, length_app in Hn. simpl in Hn. lia.
  - intros c [Hc|Hc]%elem_of_app; apply Hnul, elem_of_app; auto.
  - rewrite Happ in Hfl, Hfr. apply Forall_app in Hfl as [_ Hfl]. by split.
  - exists buf', w'. split; [exact Hrun|]. split; [|done]. rewrite Hout, Happ. unfold hits. simpl.
    by rewrite filter_app, fmap_app, app_assoc.
Qed.
