(* ===== verification/Progs.v ===== *)
(** * The small programs: cat, wc, echo, kill, ln, mkdir, rm, trace, ls, init *)

From Stdlib Require Import ZArith Lia.
From stdpp Require Import base numbers gmap strings countable tactics list.
From S2P Require Import Prelude Machine User Ulib Grep.

(** A message that ends in a newline. *)
Definition complain (fd : Z) (fmt : string) (ap : list varg) : U unit := fprintf fd fmt ap;; putc fd 10.

(** ** user/cat.c *)
Definition CAT_BUF : Z := 512.

Definition cat_round (fd : Z) (_ : unit) : U (unit + unit) :=
  r ← u_read fd CAT_BUF;
  match r with
  | Some [] => mret (inr tt)
  | Some bs =>
      n ← u_write 1 bs;
      if n =? Z.of_nat (length bs) then mret (inl tt)
      else complain 2 "cat: write error" [];; uexit 1
  | None => complain 2 "cat: read error" [];; uexit 1
  end.

Definition cat (fd : Z) : U unit := λ w, uloop (reads_left fd w) (cat_round fd) tt w.

Fixpoint cat_files (files : list (list Z)) : U unit :=
  match files with
  | [] => uexit 0
  | f :: files =>
      fd ← u_open f;
      if fd <? 0 then complain 2 "cat: cannot open %s" [AStr (Some f)];; uexit 1
      else cat fd;; u_close fd;; cat_files files
  end.

Definition cat_main (argv : list (list Z)) : U unit :=
  match argv with
  | _ :: f :: files => cat_files (f :: files)
  | _ => cat 0;; uexit 0
  end.

(** ** user/wc.c *)
Record counts := mkCounts { wc_l : Z; wc_w : Z; wc_c : Z; wc_in : bool }.

(** [strchr(" \r\t\n\v", c)] *)
Definition wc_space (c : Z) : bool := match strchr [32; 13; 9; 10; 11] c with Some _ => true | None => false end.

(** The body of the inner loop. *)
Definition wc_byte (n : counts) (c : Z) : counts :=
  let l := if c =? 10 then s32 (wc_l n + 1) else wc_l n in
  if wc_space c then mkCounts l (wc_w n) (s32 (wc_c n + 1)) false
  else if wc_in n then mkCounts l (wc_w n) (s32 (wc_c n + 1)) true
  else mkCounts l (s32 (wc_w n + 1)) (s32 (wc_c n + 1)) true.

Definition wc_round (fd : Z) (n : counts) : U (counts + counts) :=
  r ← u_read fd 512;
  match r with
  | Some [] => mret (inr n)
  | Some bs => mret (inl (foldl wc_byte n bs))
  | None => printf "wc: read error" [];; putc 1 10;; uexit 1
  end.

Definition wc (fd : Z) (name : list Z) : U unit := λ w,
  (n ← uloop (reads_left fd w) (wc_round fd) (mkCounts 0 0 0 false);
   printf "%d %d %d %s" [AWord (wc_l n); AWord (wc_w n); AWord (wc_c n); AStr (Some name)];; putc 1 10) w.

Fixpoint wc_files (files : list (list Z)) : U unit :=
  match files with
  | [] => uexit 0
  | f :: files =>
      fd ← u_open f;
      if fd <? 0 then printf "wc: cannot open %s" [AStr (Some f)];; putc 1 10;; uexit 1
      else wc fd f;; u_close fd;; wc_files files
  end.

Definition wc_main (argv : list (list Z)) : U unit :=
  match argv with
  | _ :: f :: files => wc_files (f :: files)
  | _ => wc 0 [];; uexit 0
  end.

(** ** user/echo.c *)
Fixpoint echo_args (args : list (list Z)) : U unit :=
  match args with
  | [] => uexit 0
  | a :: args =>
      u_write 1 (cstr a);;
      u_write 1 [match args with [] => 10 | _ => 32 end];;
      echo_args args
  end.
Definition echo_main (argv : list (list Z)) : U unit := echo_args (tail argv).

(** ** user/kill.c, ln.c, mkdir.c, rm.c *)
Fixpoint each (f : list Z → U bool) (args : list (list Z)) : U unit :=
  match args with
  | [] => mret tt
  | a :: args => go ← f a; if (go : bool) then each f args else mret tt
  end.

Definition kill_main (argv : list (list Z)) : U unit :=
  if (length argv <? 2)%nat then complain 2 "usage: kill pid..." [];; uexit 1
  else each (λ a, u_other (CKill (atoi a));; mret true) (tail argv);; uexit 0.

Definition ln_main (argv : list (list Z)) : U unit :=
  match argv with
  | [_; old; new] =>
      r ← u_other (CLink old new);
      (if r <? 0 then complain 2 "link %s %s: failed" [AStr (Some old); AStr (Some new)] else mret tt);;
      uexit 0
  | _ => complain 2 "Usage: ln old new" [];; uexit 1
  end.

Definition mkdir_main (argv : list (list Z)) : U unit :=
  if (length argv <? 2)%nat then complain 2 "Usage: mkdir files..." [];; uexit 1
  else
    each (λ a,
      r ← u_other (CMkdir a);
      if r <? 0 then complain 2 "mkdir: %s failed to create" [AStr (Some a)];; mret false
      else mret true) (tail argv);;
    uexit 0.

Definition rm_main (argv : list (list Z)) : U unit :=
  if (length argv <? 2)%nat then complain 2 "Usage: rm files..." [];; uexit 1
  else
    each (λ a,
      r ← u_other (CUnlink a);
      if r <? 0 then complain 2 "rm: %s failed to delete" [AStr (Some a)];; mret false
      else mret true) (tail argv);;
    uexit 0.

(** ** user/trace.c *)

(** An array of pointers to strings; the string an entry points to, or null. *)
Fixpoint null_terminated (a : list (option (list Z))) : list (list Z) :=
  match a with
  | Some s :: a => s :: null_terminated a
  | _ => []
  end.

(** [nargv] is the array as it is on the stack when main() starts: the code sets
    its first entries only. *)
Definition trace_main (nargv : list (option (list Z))) (argv : list (list Z)) : U unit :=
  match argv with
  | a0 :: mask :: cmd :: rest =>
      if is_digit (nthZ mask 0) then
        r ← u_other (CTrace (atoi mask));
        if r <? 0 then complain 2 "%s: trace failed" [AStr (Some a0)];; uexit 1
        else
          let args := take (MAXARG - 2) (cmd :: rest) in
          let nargv := (Some <$> args) ++ drop (length args) nargv in
          u_other (CExec (default [] (mjoin (head nargv))) (null_terminated nargv));;
          uexit 0
      else complain 2 "Usage: %s mask command" [AStr (Some a0)];; uexit 1
  | a0 :: _ => complain 2 "Usage: %s mask command" [AStr (Some a0)];; uexit 1
  | [] => complain 2 "Usage: %s mask command" [AStr None];; uexit 1
  end.

(** ** user/ls.c *)

(** The loop of fmtname() from [path + i] down, and its p++: the index after the
    last slash. *)
Fixpoint after_slash (s : list Z) (i : nat) : nat :=
  if nth i s 0 =? 47 then S i
  else match i with O => O | S j => after_slash s j end.

Definition fmtname (path : list Z) : list Z :=
  let s := cstr path in
  let p := drop (after_slash s (length s)) s in
  if (Z.to_nat DIRSIZ <=? length p)%nat then p
  else p ++ replicate (Z.to_nat DIRSIZ - length p) 32.

(** struct dirent in the 16 bytes of it. *)
Definition dirent_inum (de : list Z) : Z := nthZ de 0 + 256 * nthZ de 1.
Definition dirent_name (de : list Z) : list Z := take (Z.to_nat DIRSIZ) (drop 2 de).

Definition ls_entry (path de : list Z) : U unit :=
  if dirent_inum de =? 0 then mret tt
  else
    let buf := cstr path ++ 47 :: cstr (dirent_name de) in
    r ← stat buf;
    match r with
    | None => printf "ls: cannot stat %s" [AStr (Some buf)];; putc 1 10
    | Some st =>
        printf "%s %d %d %d" [AStr (Some (fmtname buf)); AWord (st_type st); AWord (st_ino st); AWord (st_size st)];;
        putc 1 10
    end.

Definition ls_round (fd : Z) (path : list Z) (_ : unit) : U (unit + unit) :=
  r ← u_read fd 16;
  match r with
  | Some de => if (length de =? 16)%nat then ls_entry path de;; mret (inl tt) else mret (inr tt)
  | None => mret (inr tt)
  end.

Definition LS_BUF : Z := 512.

Definition ls (path : list Z) : U unit :=
  fd ← u_open path;
  if fd <? 0 then complain 2 "ls: cannot open %s" [AStr (Some path)]
  else
    r ← u_fstat fd;
    match r with
    | None => complain 2 "ls: cannot stat %s" [AStr (Some path)];; u_close fd
    | Some st =>
        (if st_type st =? T_FILE then
           printf "%s %d %d %l" [AStr (Some (fmtname path)); AWord (st_type st); AWord (st_ino st); AWord (st_size st)];;
           putc 1 10
         else if st_type st =? T_DIR then
           if LS_BUF <? Ulib.strlen path + 1 + DIRSIZ + 1 then printf "ls: path too long" [];; putc 1 10
           else λ w, uloop (reads_left fd w) (ls_round fd path) tt w
         else mret tt);;
        u_close fd
    end.

Definition ls_main (argv : list (list Z)) : U unit :=
  match argv with
  | _ :: a :: args => each (λ a, ls a;; mret true) (a :: args);; uexit 0
  | _ => ls [46];; uexit 0
  end.

(** ** user/init.c

    fork() answers the pid of the child in the parent and 0 in the child, so the
    answers say whose run it is; exec() returns only when it fails. [n] bounds
    both loops, which have no end of their own. *)
Definition CONSOLE_MAJOR : Z := 1.

Definition init_wait (pid : Z) (_ : unit) : U (unit + unit) :=
  wpid ← u_other CWait;
  if wpid =? pid then mret (inr tt)
  else if wpid <? 0 then printf "init: wait returned an error" [];; putc 1 10;; uexit 1
  else mret (inl tt).

Definition init_round (n : nat) (_ : unit) : U (unit + unit) :=
  printf "init: starting sh" [];; putc 1 10;;
  pid ← u_other CFork;
  if pid <? 0 then printf "init: fork failed" [];; putc 1 10;; uexit 1
  else if pid =? 0 then
    u_other (CExec (bytes_of "sh") [bytes_of "sh"]);;
    printf "init: exec sh failed" [];; putc 1 10;; uexit 1
  else
    uloop n (init_wait pid) tt;;
    mret (inl tt).

Definition init_main (n : nat) : U unit :=
  fd ← u_other (COpen (bytes_of "console") O_RDWR);
  (if fd <? 0 then
     u_other (CMknod (bytes_of "console") CONSOLE_MAJOR 0);;
     u_other (COpen (bytes_of "console") O_RDWR);;
     mret tt
   else mret tt);;
  u_other (CDup 0);;
  u_other (CDup 0);;
  uloop n (init_round n) tt.

(** ** Output *)

(** [cs] sent to [fd] character by character. *)
Definition emit (fd : Z) (cs : list Z) (w : world) : world :=
  set_w_out (w_out w ++ ((λ c, (fd, [c])) <$> cs)) w.

Lemma emit_app fd a b w : emit fd b (emit fd a w) = emit fd (a ++ b) w.
Proof. unfold emit, set_w_out. simpl. by rewrite fmap_app, app_assoc. Qed.

Lemma written_emit fd cs w : written fd (emit fd cs w) = written fd w ++ cs.
Proof.
  unfold emit. rewrite written_app. f_equal. induction cs as [|c cs IH]; [done|].
  rewrite !fmap_cons. cbn [concat fst snd]. rewrite decide_True by done. by rewrite IH.
Qed.

Definition byte_list (cs : list Z) : Prop := Forall (λ c, 0 ≤ c < 2 ^ 8) cs.

Lemma putc_emit fd c w : fd ∉ w_bad w → 0 ≤ c < 2 ^ 8 → putc fd c w = Done tt (emit fd [c] w).
Proof.
  intros Hb Hc. unfold putc. erewrite ubind_done; [|unfold u_write; by rewrite decide_False by done].
  by rewrite u8_small.
Qed.

Lemma put_chars_emit fd cs w : fd ∉ w_bad w → byte_list cs → put_chars fd cs w = Done tt (emit fd cs w).
Proof.
  revert w. induction cs as [|c cs IH]; intros w Hb Hcs; simpl.
  - unfold emit. simpl. rewrite app_nil_r. by destruct w.
  - apply Forall_cons in Hcs as [Hc Hcs]. rewrite (ubind_done _ _ _ _ _ (putc_emit fd c w Hb Hc)).
    rewrite IH by done. by rewrite emit_app.
Qed.

Lemma digits_bytes i : 0 ≤ nthZ digits i < 2 ^ 8.
Proof.
  unfold nthZ. destruct (nth_in_or_default (Z.to_nat i) digits 0) as [Hin|Hnil]; [|rewrite Hnil; lia].
  assert (Hall : forallb (λ c, (0 <=? c) && (c <? 2 ^ 8)) digits = true) by (vm_compute; reflexivity).
  rewrite forallb_forall in Hall. apply Hall in Hin. lia.
Qed.

Lemma digit_loop_bytes n x base : byte_list (digit_loop n x base).
Proof.
  revert x. induction n as [|n IH]; intros x; simpl; [constructor|]. constructor; [apply digits_bytes|].
  case_match; [constructor|apply IH].
Qed.

Lemma int_chars_bytes x base sgn : byte_list (int_chars x base sgn).
Proof.
  unfold int_chars, byte_list. apply Forall_reverse, Forall_app. split; [apply digit_loop_bytes|].
  case_match; [|constructor]. constructor; [lia|constructor].
Qed.

(** ** cat copies *)
Lemma cat_loop fd n : ∀ st w,
  w_fds w !! fd = Some st → healthy st → (length (stream_bytes st) < n)%nat → 1 ∉ w_bad w →
  ∃ w', uloop n (cat_round fd) tt w = Done tt w' ∧ written 1 w' = written 1 w ++ stream_bytes st ∧
    w_fds w' !! fd = Some [] ∧ w_bad w' = w_bad w.
Proof.
  induction n as [|n IH]; intros st w Hfd Hst Hn Hbad; [lia|].
  destruct (take_stream_healthy st CAT_BUF Hst ltac:(done)) as (bs & st' & Htake & Hst' & Hbytes & _ & Hend).
  rewrite uloop_S. set (w1 := set_w_fds (<[fd := st']> (w_fds w)) w).
  assert (Hread : u_read fd CAT_BUF w = Done (Some bs) w1) by (unfold u_read; by rewrite Hfd, Htake).
  destruct bs as [|b bs].
  - exists w1. split; [|split; [|split; [|done]]].
    + erewrite ubind_done; [|unfold cat_round; rewrite (ubind_done _ _ _ _ _ Hread); reflexivity]. done.
    + by rewrite (Hend eq_refl), app_nil_r.
    + simpl. rewrite lookup_insert_eq. f_equal. rewrite (Hend eq_refl) in Hbytes.
      destruct st' as [|x st']; [done|]. exfalso. destruct (Hst' x (list_elem_of_here _ _)) as (bs & -> & Hne).
      unfold stream_bytes in Hbytes. simpl in Hbytes. symmetry in Hbytes. by apply app_eq_nil in Hbytes as [-> _].
  - set (bs' := b :: bs) in *. set (w2 := set_w_out (w_out w1 ++ [(1, bs')]) w1).
    assert (Hround : cat_round fd tt w = Done (inl tt) w2).
    { unfold cat_round. rewrite (ubind_done _ _ _ _ _ Hread). unfold bs' at 1. fold bs'.
      erewrite ubind_done; [|unfold u_write; by rewrite decide_False by done]. by rewrite Z.eqb_refl. }
    rewrite (ubind_done _ _ _ _ _ Hround).
    destruct (IH st' w2) as (w' & Hrun & Hout & Hfd' & Hb'); [apply lookup_insert_eq|done| |done|].
    + rewrite Hbytes, length_app in Hn. unfold bs' in Hn. simpl in Hn. lia.
    + exists w'. split; [done|]. split; [|done]. rewrite Hout. unfold w2. rewrite written_app. simpl.
      rewrite app_nil_r, Hbytes. by rewrite app_assoc.
Qed.

(** ** wc counts *)

(** A word starts at [i]: a character that is not a space, at the beginning or
    after a space. *)
Definition word_start (s : list Z) (i : nat) : bool :=
  negb (wc_space (s !!! i)) && ((i =? 0)%nat || wc_space (s !!! pred i)).
Definition words (s : list Z) : Z := count (word_start s) (seq 0 (length s)).
Definition newlines (s : list Z) : Z := count (λ c, c =? 10) s.
Definition in_word (s : list Z) : bool := match last s with Some c => negb (wc_space c) | None => false end.

Lemma words_snoc s c : words (s ++ [c]) = words s + (if wc_space c || in_word s then 0 else 1).
Proof.
  unfold words. rewrite length_app, Nat.add_comm. simpl length. rewrite Nat.add_1_l, seq_S, count_app. f_equal.
  - apply count_ext. intros i [_ Hi]%elem_of_seq. unfold word_start.
    rewrite !list_lookup_total_alt, !lookup_app_l by lia. done.
  - rewrite count_cons. unfold count. simpl. rewrite Z.add_0_r. unfold word_start.
    rewrite (list_lookup_total_alt (s ++ [c])), list_lookup_middle by done. simpl. unfold in_word.
    destruct (wc_space c); simpl; [done|].
    rewrite last_lookup. destruct (length s) as [|k] eqn:Hs; simpl.
    + by apply nil_length_inv in Hs as ->.
    + rewrite list_lookup_total_alt, lookup_app_l by lia.
      destruct (lookup_lt_is_Some_2 s k ltac:(lia)) as [x ->]. simpl. by destruct (wc_space x).
Qed.

Definition wc_counts (s : list Z) : counts :=
  mkCounts (newlines s) (words s) (Z.of_nat (length s)) (in_word s).

Lemma wc_fold s : Z.of_nat (length s) < 2 ^ 31 → foldl wc_byte (mkCounts 0 0 0 false) s = wc_counts s.
Proof.
  induction s as [|c s IH] using rev_ind; intros Hlen; [done|]. rewrite length_app in Hlen. simpl length in Hlen.
  rewrite foldl_app, IH by lia. unfold wc_counts. rewrite words_snoc, length_app. unfold newlines. rewrite count_app, count_cons.
  change (count (λ c, c =? 10) []) with 0. pose proof (count_le (λ c, c =? 10) s). assert (Hw : 0 ≤ words s ≤ Z.of_nat (length s)).
  { pose proof (count_le (word_start s) (seq 0 (length s))) as Hc. rewrite length_seq in Hc. done. }
  assert (Hin : in_word (s ++ [c]) = negb (wc_space c)) by (unfold in_word; by rewrite last_snoc).
  rewrite Hin. simpl foldl. unfold wc_byte. cbn [wc_l wc_w wc_c wc_in].
  rewrite !(s32_small (_ + 1)) by lia. rewrite Nat2Z.inj_add.
  destruct (c =? 10), (wc_space c); simpl; try destruct (in_word s); f_equal; lia.
Qed.

Lemma wc_loop fd n : ∀ st w acc,
  w_fds w !! fd = Some st → healthy st → (length (stream_bytes st) < n)%nat →
  ∃ st', uloop n (wc_round fd) acc w = Done (foldl wc_byte acc (stream_bytes st)) (set_w_fds (<[fd := st']> (w_fds w)) w).
Proof.
  induction n as [|n IH]; intros st w acc Hfd Hst Hn; [lia|].
  destruct (take_stream_healthy st 512 Hst ltac:(done)) as (bs & st' & Htake & Hst' & Hbytes & _ & Hend).
  rewrite uloop_S. set (w1 := set_w_fds (<[fd := st']> (w_fds w)) w).
  assert (Hread : u_read fd 512 w = Done (Some bs) w1) by (unfold u_read; by rewrite Hfd, Htake).
  destruct bs as [|b bs].
  - exists st'. erewrite ubind_done; [|unfold wc_round; rewrite (ubind_done _ _ _ _ _ Hread); reflexivity].
    by rewrite (Hend eq_refl).
  - assert (Hround : wc_round fd acc w = Done (inl (foldl wc_byte acc (b :: bs))) w1).
    { unfold wc_round. by rewrite (ubind_done _ _ _ _ _ Hread). }
    rewrite (ubind_done _ _ _ _ _ Hround).
    destruct (IH st' w1 (foldl wc_byte acc (b :: bs))) as [st2 Hrun]; [apply lookup_insert_eq|done| |].
    + rewrite Hbytes, length_app in Hn. simpl in Hn. lia.
    + exists st2. rewrite Hrun, Hbytes, foldl_app. f_equal. unfold w1, set_w_fds. simpl. by rewrite insert_insert_eq.
Qed.

(** The line wc() prints. *)
Definition wc_line (n : counts) (name : list Z) : list Z :=
  int_chars (wc_l n) 10 true ++ 32 :: int_chars (wc_w n) 10 true ++ 32 :: int_chars (wc_c n) 10 true ++ 32 :: cstr name ++ [10].

Lemma printint_emit fd x base sgn w : fd ∉ w_bad w → printint fd x base sgn w = Done tt (emit fd (int_chars x base sgn) w).
Proof. intros Hb. apply put_chars_emit; [done|apply int_chars_bytes]. Qed.

Lemma wc_print n name w : 1 ∉ w_bad w → byte_list (cstr name) →
  - 2 ^ 31 ≤ wc_l n < 2 ^ 31 → - 2 ^ 31 ≤ wc_w n < 2 ^ 31 → - 2 ^ 31 ≤ wc_c n < 2 ^ 31 →
  (printf "%d %d %d %s" [AWord (wc_l n); AWord (wc_w n); AWord (wc_c n); AStr (Some name)];; putc 1 10) w =
    Done tt (emit 1 (wc_line n name) w).
Proof.
  intros Hb Hname Hl Hw Hc. unfold printf, vprintf. change (bytes_of "%d %d %d %s") with [37; 100; 32; 37; 100; 32; 37; 100; 32; 37; 115].
  cbn [vprintf_from negb Z.eqb Pos.eqb arg_word tail arg_chars]. rewrite !s32_small by done.
  assert (Hsp : ∀ w, 1 ∉ w_bad w → putc 1 32 w = Done tt (emit 1 [32] w)) by (intros; by apply putc_emit).
  erewrite ubind_done; [|erewrite ubind_done; [|by apply printint_emit]; erewrite ubind_done; [|by apply Hsp];
    erewrite ubind_done; [|by apply printint_emit]; erewrite ubind_done; [|by apply Hsp];
    erewrite ubind_done; [|by apply printint_emit]; erewrite ubind_done; [|by apply Hsp];
    erewrite ubind_done; [|by apply put_chars_emit]; reflexivity].
  rewrite putc_emit by done. rewrite !emit_app. unfold wc_line.
  reflexivity.
Qed.

Lemma wc_spec fd name st w :
  w_fds w !! fd = Some st → healthy st → 1 ∉ w_bad w → byte_list (cstr name) →
  Z.of_nat (length (stream_bytes st)) < 2 ^ 31 →
  ∃ w', wc fd name w = Done tt w' ∧ written 1 w' = written 1 w ++ wc_line (wc_counts (stream_bytes st)) name.
Proof.
  intros Hfd Hst Hb Hname Hlen. set (s := stream_bytes st) in *. unfold wc.
  destruct (wc_loop fd (reads_left fd w) st w (mkCounts 0 0 0 false) Hfd Hst) as [st' Hrun].
  { rewrite (reads_left_eq fd w st Hfd). lia. }
  fold s in Hrun. rewrite wc_fold in Hrun by done.
  rewrite (ubind_done _ _ _ _ _ Hrun). eexists. split.
  - pose proof (count_le (λ c, c =? 10) s). pose proof (count_le (word_start s) (seq 0 (length s))) as Hc.
    rewrite length_seq in Hc. apply wc_print; [done|done|..]; unfold wc_counts, newlines, words; simpl; lia.
  - rewrite written_emit. done.
Qed.

(** ** ls *)

(** [m] returns and does nothing but write. *)
Definition only_writes (m : U unit) : Prop := ∀ w, ∃ o, m w = Done tt (set_w_out o w).

Lemma only_writes_ret : only_writes (mret tt).
Proof. intros w. exists (w_out w). by destruct w. Qed.

Lemma only_writes_bind m f : only_writes m → only_writes (f tt) → only_writes (m ≫= f).
Proof.
  intros Hm Hf w. destruct (Hm w) as [o Ho]. rewrite (ubind_done _ _ _ _ _ Ho).
  destruct (Hf (set_w_out o w)) as [o' Ho']. exists o'. rewrite Ho'. by destruct w.
Qed.

Lemma only_writes_putc fd c : only_writes (putc fd c).
Proof.
  intros w. unfold putc, mbind, U_bind, u_write. case_decide; eexists; [|done].
  instantiate (1 := w_out w). by destruct w.
Qed.

Lemma only_writes_put_chars fd cs : only_writes (put_chars fd cs).
Proof. induction cs as [|c cs IH]; [apply only_writes_ret|]. apply only_writes_bind; [apply only_writes_putc|exact IH]. Qed.

Create HintDb uwrites.
#[export] Hint Resolve only_writes_ret only_writes_bind only_writes_putc only_writes_put_chars : uwrites.

Lemma only_writes_vprintf fd fmt : ∀ pct ap, only_writes (vprintf_from fd pct fmt ap).
Proof.
  induction fmt as [|c fmt IH]; intros pct ap; cbn [vprintf_from]; [auto with uwrites|].
  unfold printint, printptr. repeat case_match; eauto 6 with uwrites.
Qed.
#[export] Hint Resolve only_writes_vprintf : uwrites.

Lemma lowest_fd_free fds fd : lowest_fd fds = Some fd → fds !! fd = None ∧ 0 ≤ fd.
Proof.
  unfold lowest_fd. destruct (list_find _ _) as [[i fd']|] eqn:Hf; [|done]. simpl. intros [= ->].
  apply list_find_Some in Hf as (Hl & Hn & _). split; [done|].
  apply list_elem_of_lookup_2, elem_of_seqZ in Hl. lia.
Qed.

(** stat() leaves the descriptors as they are. *)
Lemma stat_fds n w : ∃ r w', stat n w = Done r w' ∧ w_fds w' = w_fds w.
Proof.
  unfold stat, mbind, U_bind at 1. unfold u_open.
  destruct (list_find _ _) as [[? [? st]]|]; [destruct (lowest_fd (w_fds w)) as [fd|] eqn:Hl|]; [|by eexists _, _..].
  apply lowest_fd_free in Hl as [Hn Hp]. rewrite (proj2 (Z.ltb_ge _ _)) by lia.
  unfold u_fstat, u_other, u_answer, u_close, mbind, U_bind, mret, U_ret.
  destruct (_ <? 0); eexists _, _; (split; [reflexivity|]); simpl; by apply delete_insert_id.
Qed.

Lemma ls_entry_fds path de w : ∃ w', ls_entry path de w = Done tt w' ∧ w_fds w' = w_fds w.
Proof.
  unfold ls_entry. case_match; [by eexists|]. set (buf := _ ++ _ :: _).
  destruct (stat_fds buf w) as (r & w1 & Hs & Hf). rewrite (ubind_done _ _ _ _ _ Hs), <- Hf.
  assert (Hq : ∀ fmt ap, ∃ w', (printf fmt ap;; putc 1 10) w1 = Done tt w' ∧ w_fds w' = w_fds w1).
  { intros fmt ap. unfold printf, vprintf.
    destruct (only_writes_bind _ (λ _, putc 1 10) (only_writes_vprintf 1 (bytes_of fmt) false ap) (only_writes_putc 1 10) w1)
      as [o Ho]. eexists. split; [exact Ho|]. by destruct w1. }
  destruct r; apply Hq.
Qed.

(** A read of 16 bytes that gets them takes them off the stream. *)
Lemma take_stream_16 st de st' : take_stream st 16 = (Some de, st') → length de = 16%nat →
  stream_bytes st = de ++ stream_bytes st'.
Proof.
  destruct st as [|[bs|] st]; cbn [take_stream]; [intros [= <- <-]; done| |done]. intros [= <- <-] Hl.
  unfold stream_bytes at 1. simpl. fold (stream_bytes st). rewrite length_take in Hl.
  case_decide as Hd.
  - rewrite <- (take_drop (Z.to_nat 16) bs) at 1. by rewrite Hd, app_nil_r.
  - unfold stream_bytes. simpl. by rewrite app_assoc, take_drop.
Qed.

(** The loop over a directory ends. *)
Lemma ls_loop_ends fd path n : ∀ st w, w_fds w !! fd = Some st → (length (stream_bytes st) < n)%nat →
  ∃ w', uloop n (ls_round fd path) tt w = Done tt w'.
Proof.
  induction n as [|n IH]; intros st w Hfd Hn; [lia|]. rewrite uloop_S.
  destruct (take_stream st 16) as [r st'] eqn:Ht. set (w1 := set_w_fds (<[fd := st']> (w_fds w)) w).
  assert (Hread : u_read fd 16 w = Done r w1) by (unfold u_read; by rewrite Hfd, Ht).
  assert (Hround : ∃ x w2, ls_round fd path tt w = Done x w2 ∧
    (x = inl tt → w_fds w2 !! fd = Some st' ∧ (length (stream_bytes st') < n)%nat)).
  { unfold ls_round. rewrite (ubind_done _ _ _ _ _ Hread). destruct r as [de|]; [|by eexists _, _].
    destruct (Nat.eqb_spec (length de) 16) as [Hl|]; [|by eexists _, _].
    destruct (ls_entry_fds path de w1) as (w2 & He & Hf). rewrite (ubind_done _ _ _ _ _ He).
    eexists _, w2. split; [reflexivity|]. intros _. rewrite Hf. split; [apply lookup_insert_eq|].
    rewrite (take_stream_16 st de st' Ht Hl), length_app in Hn. lia. }
  destruct Hround as ([[]|[]] & w2 & Hr & Hnext); rewrite (ubind_done _ _ _ _ _ Hr); [|by eexists].
  destruct (Hnext eq_refl). by apply (IH st').
Qed.

(** ls() always comes back. *)
Lemma ls_ends path w : ∃ w', ls path w = Done tt w'.
Proof.
  unfold ls, complain, printf, fprintf, vprintf.
  assert (Hq : ∀ m w, only_writes m → ∃ w', m w = Done tt w') by (intros m w0 Hm; destruct (Hm w0); eauto).
  destruct (u_open path w) as [fd w1| |] eqn:Ho; [|unfold u_open in Ho; repeat case_match; done..].
  rewrite (ubind_done _ _ _ _ _ Ho). destruct (Z.ltb_spec fd 0); [apply Hq; auto with uwrites|].
  assert (Hfd : is_Some (w_fds w1 !! fd)).
  { unfold u_open in Ho. repeat case_match; simplify_eq; try lia. simpl. rewrite lookup_insert_eq. by eexists. }
  assert (Hst : ∃ r w2, u_fstat fd w1 = Done r w2 ∧ w_fds w2 = w_fds w1).
  { unfold u_fstat, u_other, u_answer, mbind, U_bind, mret, U_ret. destruct (_ <? 0); by eexists _, _. }
  destruct Hst as (r & w2 & Hs & Hf). rewrite (ubind_done _ _ _ _ _ Hs).
  assert (Hclose : ∀ m, (∃ w3, m w2 = Done tt w3) → ∃ w', (m;; u_close fd) w2 = Done tt w').
  { intros m [w3 Hm]. rewrite (ubind_done _ _ _ _ _ Hm). by eexists. }
  destruct r as [st|]; apply Hclose; [|apply Hq; auto with uwrites].
  destruct (_ =? T_FILE); [apply Hq; auto with uwrites|]. destruct (_ =? T_DIR); [|by eexists].
  destruct (_ <? _); [apply Hq; auto with uwrites|]. rewrite <- Hf in Hfd. destruct Hfd as [str Hfd].
  apply (ls_loop_ends fd path _ str); [done|]. rewrite (reads_left_eq fd w2 str Hfd). lia.
Qed.

Lemma after_slash_spec s i : let k := after_slash s i in
  (k ≤ S i)%nat ∧ (k = 0%nat ∨ nth (pred k) s 0 = 47) ∧ ∀ j, (k ≤ j ≤ i)%nat → nth j s 0 ≠ 47.
Proof.
  induction i as [|i IH]; cbn [after_slash];
    [destruct (Z.eqb_spec (nth 0 s 0) 47) as [He|Hne]|destruct (Z.eqb_spec (nth (S i) s 0) 47) as [He|Hne]].
  - split; [lia|]. split; [by right|]. lia.
  - split; [lia|]. split; [by left|]. intros j Hj. by assert (j = 0%nat) as -> by lia.
  - split; [lia|]. split; [by right|]. lia.
  - destruct IH as (Hk & Hp & Hj). split; [lia|]. split; [done|]. intros j Hr.
    destruct (decide (j = S i)) as [->|]; [done|]. apply Hj. lia.
Qed.

(** fmtname(): what follows the last slash, padded with blanks to DIRSIZ. *)
Lemma fmtname_spec path : ∃ pre p, cstr path = pre ++ p ∧ 47 ∉ p ∧ (pre = [] ∨ last pre = Some 47) ∧
  fmtname path = p ++ replicate (Z.to_nat DIRSIZ - length p) 32.
Proof.
  set (s := cstr path). destruct (after_slash_spec s (length s)) as (Hk & Hp & Hj).
  unfold fmtname. fold s. set (k := after_slash s (length s)) in *.
  exists (take k s), (drop k s). split; [by rewrite take_drop|]. split; [|split].
  - intros (j & Hl)%list_elem_of_lookup. rewrite lookup_drop in Hl. pose proof (lookup_lt_Some _ _ _ Hl).
    apply (Hj (k + j)%nat); [lia|]. by apply nth_lookup_Some with (d := 0) in Hl.
  - destruct Hp as [-> | Hp]; [by left|]. destruct k as [|k']; [by left|]. right. simpl pred in Hp.
    assert (Hlt : (k' < length s)%nat).
    { destruct (decide (k' < length s)%nat); [done|]. rewrite nth_overflow in Hp by lia. done. }
    destruct (lookup_lt_is_Some_2 s k' Hlt) as [c Hc]. rewrite (take_S_r _ _ _ Hc), last_snoc. f_equal.
    apply nth_lookup_Some with (d := 0) in Hc. congruence.
  - destruct (Nat.leb_spec (Z.to_nat DIRSIZ) (length (drop k s))) as [Hle|]; [|done].
    replace (Z.to_nat DIRSIZ - length (drop k s))%nat with 0%nat by lia. by rewrite app_nil_r.
Qed.

(** ** init *)
Lemma vprintf_plain fd fmt ap w : fd ∉ w_bad w → Forall (λ c, 0 < c < 2 ^ 8 ∧ c ≠ 37) fmt →
  vprintf fd fmt ap w = Done tt (emit fd fmt w).
Proof.
  unfold vprintf. revert w. induction fmt as [|c fmt IH]; intros w Hb Hf; cbn [vprintf_from].
  - unfold emit. simpl. rewrite app_nil_r. by destruct w.
  - apply Forall_cons in Hf as [[Hc Hn] Hf]. rewrite !(proj2 (Z.eqb_neq _ _)) by lia. cbn [negb].
    rewrite (ubind_done _ _ _ _ _ (putc_emit fd c w Hb ltac:(lia))), IH by done. by rewrite emit_app.
Qed.

(** A line of text without conversions. *)
Lemma say_line fmt w : 1 ∉ w_bad w → forallb (λ c, (0 <? c) && (c <? 2 ^ 8) && negb (c =? 37)) (bytes_of fmt) = true →
  (printf fmt [];; putc 1 10) w = Done tt (emit 1 (bytes_of fmt ++ [10]) w).
Proof.
  intros Hb Hf. erewrite ubind_done; [|unfold printf; apply vprintf_plain; [done|]].
  - rewrite putc_emit by done. by rewrite emit_app.
  - apply Forall_forall. intros c Hc%list_elem_of_In. rewrite forallb_forall in Hf. apply Hf in Hc. lia.
Qed.

(** The world after calls [cs] that took the answers before [ans]. *)
Definition called (cs : list call) (ans : list Z) (w : world) : world :=
  mkWorld (w_fds w) (w_files w) (w_bad w) (w_out w) ans (w_calls w ++ cs).

Lemma u_other_eq c a ans w : w_answers w = a :: ans → u_other c w = Done a (called [c] ans w).
Proof. intros Ha. unfold u_other. by rewrite Ha. Qed.

Lemma called_called c1 c2 a1 a2 w : called c2 a2 (called c1 a1 w) = called (c1 ++ c2) a2 w.
Proof. unfold called. simpl. by rewrite app_assoc. Qed.

Lemma init_wait_run pid ans : ∀ os n w, Forall (λ x, 0 ≤ x ∧ x ≠ pid) os → w_answers w = os ++ pid :: ans →
  (length os < n)%nat → uloop n (init_wait pid) tt w = Done tt (called (replicate (S (length os)) CWait) ans w).
Proof.
  induction os as [|o os IH]; intros [|n] w Hos Hans Hn; simpl in Hn; try lia; rewrite uloop_S.
  - erewrite ubind_done; [|unfold init_wait; rewrite (ubind_done _ _ _ _ _ (u_other_eq CWait _ _ _ Hans)), Z.eqb_refl; reflexivity].
    done.
  - apply Forall_cons in Hos as [[H0 Hne] Hos].
    erewrite ubind_done; [|unfold init_wait; rewrite (ubind_done _ _ _ _ _ (u_other_eq CWait _ _ _ Hans));
      rewrite (proj2 (Z.eqb_neq _ _) Hne), (proj2 (Z.ltb_ge _ _) H0); reflexivity].
    rewrite (IH n); [|done|done|lia]. by rewrite called_called.
Qed.

(** A run of a shell: its pid, and the other children that wait() reports before
    the shell itself exits. *)
Definition shell_answers (r : Z * list Z) : list Z := r.1 :: r.2 ++ [r.1].
Definition shell_calls (r : Z * list Z) : list call := CFork :: replicate (S (length r.2)) CWait.
Definition STARTING : list Z := bytes_of "init: starting sh" ++ [10].

Lemma init_round_run n pid os ans w :
  1 ∉ w_bad w → 0 < pid → Forall (λ x, 0 ≤ x ∧ x ≠ pid) os → (length os < n)%nat →
  w_answers w = shell_answers (pid, os) ++ ans →
  init_round n tt w = Done (inl tt) (called (shell_calls (pid, os)) ans (emit 1 STARTING w)).
Proof.
  intros Hb Hp Hos Hn Hans. unfold init_round.
  assert (Hassoc : ∀ (m1 m2 : U unit) (k : U (unit + unit)) w, (m1;; m2;; k) w = ((m1;; m2);; k) w).
  { intros m1 m2 k w0. unfold mbind, U_bind. by destruct (m1 w0). }
  rewrite Hassoc, (ubind_done _ _ _ _ _ (say_line "init: starting sh" w Hb eq_refl)).
  assert (Ha : w_answers (emit 1 STARTING w) = pid :: os ++ pid :: ans).
  { unfold shell_answers in Hans. simpl in *. by rewrite Hans, <- app_assoc. }
  rewrite (ubind_done _ _ _ _ _ (u_other_eq CFork _ _ _ Ha)).
  rewrite (proj2 (Z.ltb_ge _ _)), (proj2 (Z.eqb_neq _ _)) by lia.
  erewrite ubind_done; [|by apply (init_wait_run pid ans os)]. by rewrite called_called.
Qed.

(** init keeps one shell running: it starts the next one exactly when wait()
    reports the pid of the last, and reaps the children it inherits meanwhile. *)
Lemma init_restarts n m : ∀ (rounds : list (Z * list Z)) w,
  1 ∉ w_bad w → Forall (λ r, 0 < r.1 ∧ Forall (λ x, 0 ≤ x ∧ x ≠ r.1) r.2 ∧ (length r.2 < n)%nat) rounds →
  (length rounds < m)%nat → w_answers w = concat (shell_answers <$> rounds) →
  ∃ w', uloop m (init_round n) tt w = Exited 1 w' ∧
    w_calls w' = w_calls w ++ concat (shell_calls <$> rounds) ++ [CFork] ∧
    written 1 w' = written 1 w ++ concat (replicate (S (length rounds)) STARTING) ++ bytes_of "init: fork failed" ++ [10].
Proof.
  induction m as [|m IH]; intros rounds w Hb Hr Hm Hans; [lia|]. rewrite uloop_S.
  destruct rounds as [|[pid os] rounds].
  - assert (Hround : init_round n tt w =
      Exited 1 (emit 1 (bytes_of "init: fork failed" ++ [10]) (called [CFork] [] (emit 1 STARTING w)))).
    { unfold init_round.
      assert (Hassoc : ∀ {A} (m1 m2 : U unit) (k : U A) w, (m1;; m2;; k) w = ((m1;; m2);; k) w).
      { intros A m1 m2 k w0. unfold mbind, U_bind. by destruct (m1 w0). }
      rewrite Hassoc, (ubind_done _ _ _ _ _ (say_line "init: starting sh" w Hb eq_refl)).
      assert (Hfork : u_other CFork (emit 1 STARTING w) = Done (-1) (called [CFork] [] (emit 1 STARTING w)))
        by (unfold u_other; simpl w_answers; by rewrite Hans).
      rewrite (ubind_done _ _ _ _ _ Hfork). change (-1 <? 0) with true. cbv iota.
      rewrite Hassoc. erewrite ubind_done; [|apply say_line; done]. done. }
    unfold mbind, U_bind. rewrite Hround. eexists. split; [reflexivity|]. split; [done|].
    rewrite written_emit. change (written 1 (called [CFork] [] (emit 1 STARTING w))) with (written 1 (emit 1 STARTING w)).
    rewrite written_emit. cbn [length replicate concat]. by rewrite app_nil_r, <- app_assoc.
  - apply Forall_cons in Hr as [(Hp & Hos & Hl) Hr]. simpl in Hp, Hos, Hl, Hm, Hans.
    rewrite (ubind_done _ _ _ _ _ (init_round_run n pid os _ w Hb Hp Hos Hl Hans)).
    destruct (IH rounds (called (shell_calls (pid, os)) (concat (shell_answers <$> rounds)) (emit 1 STARTING w)))
      as (w' & Hrun & Hc & Hw); [done|done|lia|done|].
    exists w'. split; [done|]. split.
    + rewrite Hc. cbn [w_calls called fmap list_fmap concat]. by rewrite <- !app_assoc.
    + rewrite Hw. change (written 1 (called ?a ?b ?c)) with (written 1 c). rewrite written_emit.
      cbn [length replicate concat]. by rewrite <- !app_assoc.
Qed.
