(* ===== verification/Sh.v ===== *)
(** * user/sh.c: the parser

    Pointers into the command line are indices; the line is the list of its
    bytes before the terminator, which reads as the zero byte after its end
    ([es] is its length). A parsed command refers to its words by the index of
    their first byte and of the byte after the last; nulterminate() then cuts the
    words by writing zero bytes. panic() of the shell is [Bad]. *)

From Stdlib Require Import ZArith Lia.
From stdpp Require Import base numbers gmap strings countable tactics list.
From S2P Require Import Prelude Machine User Ulib.

Definition MAXARGS : nat := 10.

(** struct execcmd, redircmd, pipecmd, listcmd, backcmd *)
Inductive cmd :=
  | EXEC (argv : list (nat * nat))
  | REDIR (c : cmd) (file efile : nat) (mode fd : Z)
  | PIPE (left right : cmd)
  | LIST (left right : cmd)
  | BACK (c : cmd).

(** The constructors; malloc() is taken to succeed, as the code does. *)
Definition execcmd : cmd := EXEC [].
Definition redircmd (c : cmd) (file efile : nat) (mode fd : Z) : cmd := REDIR c file efile mode fd.
Definition pipecmd (left right : cmd) : cmd := PIPE left right.
Definition listcmd (left right : cmd) : cmd := LIST left right.
Definition backcmd (c : cmd) : cmd := BACK c.

Inductive pres (A : Type) :=
  | Got (a : A) (s : nat)        (* a result, and where the parser is *)
  | Bad (msg : string)           (* panic(msg) *)
  | Starve.                      (* out of fuel *)
Arguments Got {A} a s.
Arguments Bad {A} msg.
Arguments Starve {A}.

Definition whitespace : list Z := [32; 9; 13; 10; 11].
Definition symbols : list Z := bytes_of "<|>&;()".

Definition in_set (toks : list Z) (c : Z) : bool := match strchr toks c with Some _ => true | None => false end.
Definition is_ws (c : Z) : bool := in_set whitespace c.
Definition is_sym (c : Z) : bool := in_set symbols c.

Section parser.
Context (buf : list Z).

Definition chr (s : nat) : Z := nth s buf 0.

(** [while(s < es && strchr(whitespace, *s)) s++;] *)
Fixpoint skip_ws (n : nat) (s : nat) : nat :=
  match n with
  | O => s
  | S n => if (s <? length buf)%nat && is_ws (chr s) then skip_ws n (S s) else s
  end.
Definition skip (s : nat) : nat := skip_ws (length buf - s) s.

(** [while(s < es && !strchr(whitespace, *s) && !strchr(symbols, *s)) s++;] *)
Fixpoint skip_word (n : nat) (s : nat) : nat :=
  match n with
  | O => s
  | S n => if (s <? length buf)%nat && negb (is_ws (chr s)) && negb (is_sym (chr s)) then skip_word n (S s) else s
  end.

(** The token's kind, its first byte, the byte after it, and where to go on. *)
Definition gettoken (s : nat) : Z * nat * nat * nat :=
  let q := skip s in
  let c := chr q in
  let '(ret, eq) :=
    if c =? 0 then (c, q)
    else if (c =? 124) || (c =? 40) || (c =? 41) || (c =? 59) || (c =? 38) || (c =? 60) then (c, S q)
    else if c =? 62 then
      if chr (S q) =? 62 then (43, S (S q)) else (c, S q)
    else (97, skip_word (length buf - q) q) in
  (ret, q, eq, skip eq).

(** Whether the next byte is one of [toks], and where it is. *)
Definition peek (s : nat) (toks : string) : bool * nat :=
  let s := skip s in
  (negb (chr s =? 0) && in_set (bytes_of toks) (chr s), s).

Definition REDIR_OUT : Z := Z.lor (Z.lor O_WRONLY O_CREATE) O_TRUNC.
Definition REDIR_APPEND : Z := Z.lor O_WRONLY O_CREATE.

Fixpoint parseredirs (m : nat) (c : cmd) (s : nat) : pres cmd :=
  match m with
  | O => Starve
  | S m =>
      let '(more, s) := peek s "<>" in
      if negb more then Got c s
      else
        let '(tok, _, _, s) := gettoken s in
        let '(tok2, q, eq, s) := gettoken s in
        if negb (tok2 =? 97) then Bad "missing file for redirection"
        else if tok =? 60 then parseredirs m (redircmd c q eq O_RDONLY 0) s
        else if tok =? 62 then parseredirs m (redircmd c q eq REDIR_OUT 1) s
        else parseredirs m (redircmd c q eq REDIR_APPEND 1) s
  end.

(** Storing the arguments in the execcmd at the bottom of the redirections. *)
Fixpoint set_argv (argv : list (nat * nat)) (c : cmd) : cmd :=
  match c with
  | EXEC _ => EXEC argv
  | REDIR c f ef mode fd => REDIR (set_argv argv c) f ef mode fd
  | _ => c
  end.

(** The loop of parseexec(); [m] bounds the rounds, [loops] those of the
    redirections. *)
Fixpoint parseargs (loops m : nat) (ret : cmd) (argv : list (nat * nat)) (s : nat) : pres cmd :=
  match m with
  | O => Starve
  | S m =>
      let '(stop, s) := peek s "|)&;" in
      if stop then Got (set_argv argv ret) s
      else
        let '(tok, q, eq, s) := gettoken s in
        if tok =? 0 then Got (set_argv argv ret) s
        else if negb (tok =? 97) then Bad "syntax"
        else
          let argv := argv ++ [(q, eq)] in
          if (MAXARGS <=? length argv)%nat then Bad "too many args"
          else match parseredirs loops ret s with
               | Got ret s => parseargs loops m ret argv s
               | Bad e => Bad e
               | Starve => Starve
               end
  end.

(** A byte of the line is consumed by every round of a loop. *)
Definition rounds : nat := S (S (length buf)).

(** The loop of parseline() over "&". *)
Fixpoint parseback (m : nat) (c : cmd) (s : nat) : pres cmd :=
  match m with
  | O => Starve
  | S m =>
      let '(more, s) := peek s "&" in
      if more then let '(_, _, _, s) := gettoken s in parseback m (backcmd c) s
      else Got c s
  end.

Fixpoint parseline (n : nat) (s : nat) : pres cmd :=
  match n with
  | O => Starve
  | S n =>
      match parsepipe n s with
      | Got c s =>
          match parseback rounds c s with
          | Got c s =>
              let '(more, s) := peek s ";" in
              if more then
                let '(_, _, _, s) := gettoken s in
                match parseline n s with
                | Got c2 s => Got (listcmd c c2) s
                | r => r
                end
              else Got c s
          | r => r
          end
      | r => r
      end
  end
with parsepipe (n : nat) (s : nat) : pres cmd :=
  match n with
  | O => Starve
  | S n =>
      match parseexec n s with
      | Got c s =>
          let '(more, s) := peek s "|" in
          if more then
            let '(_, _, _, s) := gettoken s in
            match parsepipe n s with
            | Got c2 s => Got (pipecmd c c2) s
            | r => r
            end
          else Got c s
      | r => r
      end
  end
with parseexec (n : nat) (s : nat) : pres cmd :=
  match n with
  | O => Starve
  | S n =>
      let '(block, s) := peek s "(" in
      if block then parseblock n s
      else
        match parseredirs rounds execcmd s with
        | Got ret s => parseargs rounds rounds ret [] s
        | r => r
        end
  end
with parseblock (n : nat) (s : nat) : pres cmd :=
  match n with
  | O => Starve
  | S n =>
      let '(block, s) := peek s "(" in
      if negb block then Bad "parseblock"
      else
        let '(_, _, _, s) := gettoken s in
        match parseline n s with
        | Got c s =>
            let '(closed, s) := peek s ")" in
            if negb closed then Bad "syntax - missing )"
            else
              let '(_, _, _, s) := gettoken s in
              parseredirs rounds c s
        | r => r
        end
  end.
End parser.

(** The zero bytes are written where words end. *)
Fixpoint nulterminate (c : cmd) (buf : list Z) : list Z :=
  match c with
  | EXEC argv => foldl (λ buf a, <[a.2 := 0]> buf) buf argv
  | REDIR c _ ef _ _ => <[ef := 0]> (nulterminate c buf)
  | PIPE l r => nulterminate r (nulterminate l buf)
  | LIST l r => nulterminate r (nulterminate l buf)
  | BACK c => nulterminate c buf
  end.

(** Every call of the parser but four in a row consumes a byte. *)
Definition parse_fuel (buf : list Z) : nat := (4 * length buf + 4)%nat.

Definition parsecmd (buf : list Z) : pres (cmd * list Z) :=
  match parseline buf (parse_fuel buf) 0 with
  | Got c s =>
      let '(_, s) := peek buf s EmptyString in
      if (s =? length buf)%nat then Got (c, nulterminate c buf) s else Bad "syntax"
  | Bad e => Bad e
  | Starve => Starve
  end.
