(* ===== verification/ShTheory.v ===== *)
(** * The parser of the shell: reading back what is printed

    The state of the parser is described by the text that is left once white
    space is skipped; every function of user/sh.c depends on that text only, up to
    positions. *)

From Stdlib Require Import ZArith Lia.
From stdpp Require Import base numbers gmap strings countable tactics list.
From S2P Require Import Prelude Machine User Ulib Sh.

(** ** Commands and their text *)

(** A command with its words. *)
Inductive ast :=
  | AExec (ws : list (list Z))
  | ARedir (a : ast) (file : list Z) (mode fd : Z)
  | APipe (l r : ast)
  | AList (l r : ast)
  | ABack (a : ast).

Definition word_char (c : Z) : bool := negb (c =? 0) && negb (is_ws c) && negb (is_sym c).
Definition word (w : list Z) : Prop := w ≠ [] ∧ Forall (λ c, word_char c = true) w.

(** The redirections of the shell: the file, the mode of open() and the
    descriptor it replaces. *)
Notation redir := (list Z * Z * Z)%type.
Definition redir_op (mode : Z) : list Z :=
  if mode =? O_RDONLY then [60] else if mode =? REDIR_OUT then [62] else [62; 62].
Definition redir_ok (r : redir) : Prop :=
  word r.1.1 ∧ (r.1.2 = O_RDONLY ∧ r.2 = 0 ∨ r.1.2 = REDIR_OUT ∧ r.2 = 1 ∨ r.1.2 = REDIR_APPEND ∧ r.2 = 1).

Fixpoint wf (a : ast) : Prop :=
  match a with
  | AExec ws => Forall word ws ∧ (length ws < MAXARGS)%nat
  | ARedir a f mode fd => wf a ∧ redir_ok (f, mode, fd)
  | APipe l r | AList l r => wf l ∧ wf r
  | ABack a => wf a
  end.

Section print.
Context (sp : list Z).

Definition redir_text (r : redir) : list Z := redir_op r.1.2 ++ sp ++ r.1.1 ++ sp.
Definition words_text (ws : list (list Z)) : list Z := concat ((λ w, w ++ sp) <$> ws).
Definition redirs_text (rs : list redir) : list Z := concat (redir_text <$> rs).

(** Every token is followed by [sp]. [print true] gives a text that can stand on
    one side of an operator: what is not a simple command goes in parentheses. *)
Fixpoint print (side : bool) (a : ast) : list Z :=
  match a with
  | AExec ws => words_text ws
  | ARedir a f mode fd => print true a ++ redir_text (f, mode, fd)
  | _ =>
      let t := match a with
        | APipe l r => print true l ++ [124] ++ sp ++ print true r
        | AList l r => print true l ++ [59] ++ sp ++ print true r
        | ABack a => print true a ++ [38] ++ sp
        | _ => []
        end in
      if side then [40] ++ sp ++ t ++ [41] ++ sp else t
  end.
End print.

(** ** What is left of the line *)
Fixpoint dropws (l : list Z) : list Z :=
  match l with
  | c :: l' => if is_ws c then dropws l' else l
  | [] => []
  end.

Lemma dropws_idem l : dropws (dropws l) = dropws l.
Proof. induction l as [|c l IH]; [done|]. simpl. destruct (is_ws c) eqn:Hc; [done|]. simpl. by rewrite Hc. Qed.

Lemma dropws_length l : (length (dropws l) ≤ length l)%nat.
Proof. induction l as [|c l IH]; [done|]. simpl. destruct (is_ws c); simpl; lia. Qed.

Lemma dropws_sp sp l : Forall (λ c, is_ws c = true) sp → dropws (sp ++ l) = dropws l.
Proof. induction 1 as [|c sp Hc _ IH]; [done|]. simpl. by rewrite Hc. Qed.

Lemma in_set_spec (toks : list Z) c : in_set toks c = true ↔ c ∈ cstr toks ∧ c ≠ 0.
Proof.
  unfold in_set. rewrite <- is_space_strchr. destruct (strchr toks c); [split; [by eexists|done]|].
  split; [done|by intros []].
Qed.

Lemma nth_drop (l : list Z) s : nth s l 0 = hd 0 (drop s l).
Proof. revert s. induction l as [|c l IH]; intros [|s]; simpl; try done. Qed.

Section line.
Context (buf : list Z) (Hnul : ∀ c, c ∈ buf → c ≠ 0).

(** The parser at [s] has the text [t] in front of it. *)
Definition at_ (s : nat) (t : list Z) : Prop := (s ≤ length buf)%nat ∧ dropws (drop s buf) = t.

Lemma chr_drop s : chr buf s = hd 0 (drop s buf).
Proof. apply nth_drop. Qed.

Lemma drop_cons s c r : drop s buf = c :: r → (s < length buf)%nat ∧ drop (S s) buf = r ∧ chr buf s = c ∧ c ≠ 0.
Proof.
  intros Hd. assert (Hlt : (s < length buf)%nat).
  { apply (f_equal length) in Hd. rewrite length_drop in Hd. simpl in Hd. lia. }
  split; [done|]. split; [replace (S s) with (s + 1)%nat by lia; by rewrite <- drop_drop, Hd|].
  split; [by rewrite chr_drop, Hd|]. apply Hnul. apply (list_elem_of_lookup_2 _ s).
  rewrite <- (Nat.add_0_r s), <- lookup_drop, Hd. done.
Qed.

Lemma skip_ws_spec n s : (length buf - s ≤ n)%nat → (s ≤ length buf)%nat →
  (skip_ws buf n s ≤ length buf)%nat ∧ drop (skip_ws buf n s) buf = dropws (drop s buf).
Proof.
  revert s. induction n as [|n IH]; intros s Hn Hs; simpl.
  - assert (s = length buf) as -> by lia. by rewrite drop_all.
  - destruct (drop s buf) as [|c r] eqn:Hd.
    + assert (length buf ≤ s)%nat by (apply (f_equal length) in Hd; rewrite length_drop in Hd; simpl in Hd; lia).
      rewrite (proj2 (Nat.ltb_ge _ _)) by done. done.
    + destruct (drop_cons s c r Hd) as (Hlt & Hd' & Hc & _). rewrite (proj2 (Nat.ltb_lt _ _)), Hc by done. simpl.
      destruct (is_ws c); [|done]. rewrite <- Hd'. apply IH; lia.
Qed.

Lemma skip_at s t : at_ s t → (skip buf s ≤ length buf)%nat ∧ drop (skip buf s) buf = t ∧ dropws t = t.
Proof.
  intros [Hs Ht]. destruct (skip_ws_spec (length buf - s) s ltac:(lia) Hs) as [H1 H2].
  split; [done|]. split; [by rewrite <- Ht|]. rewrite <- Ht. apply dropws_idem.
Qed.

Lemma at_drop s t : (s ≤ length buf)%nat → drop s buf = t → at_ s (dropws t).
Proof. intros Hs Hd. split; [done|]. by rewrite Hd. Qed.

Lemma at_skip s t : at_ s t → at_ (skip buf s) t.
Proof. intros Ha. destruct (skip_at s t Ha) as (Hs & Hd & Hi). split; [done|]. by rewrite Hd. Qed.

(** After a step over the token. *)
Lemma at_next s r : (s ≤ length buf)%nat → drop s buf = r → at_ (skip buf s) (dropws r).
Proof. intros Hs Hd. by apply at_skip, at_drop. Qed.

Lemma peek_at s t toks : at_ s t →
  ∃ s', peek buf s toks = (match t with [] => false | c :: _ => in_set (bytes_of toks) c end, s') ∧ at_ s' t.
Proof.
  intros Ha. exists (skip buf s). split; [|by apply at_skip]. destruct (skip_at s t Ha) as (Hs & Hd & _). unfold peek.
  f_equal. destruct t as [|c r].
  - by rewrite chr_drop, Hd.
  - destruct (drop_cons _ _ _ Hd) as (_ & _ & -> & Hc). by rewrite (proj2 (Z.eqb_neq c 0)).
Qed.

Definition one_byte (c : Z) : bool := (c =? 124) || (c =? 40) || (c =? 41) || (c =? 59) || (c =? 38) || (c =? 60).

Lemma token_one s c r : at_ s (c :: r) → one_byte c = true →
  ∃ q eq s', gettoken buf s = (c, q, eq, s') ∧ at_ s' (dropws r).
Proof.
  intros Ha Hc. destruct (skip_at _ _ Ha) as (Hs & Hd & _). destruct (drop_cons _ _ _ Hd) as (Hlt & Hd' & Hch & Hc0).
  eexists _, _, _. split.
  - unfold gettoken. rewrite Hch, (proj2 (Z.eqb_neq c 0)) by done. unfold one_byte in Hc. rewrite Hc. reflexivity.
  - apply at_next; [lia|done].
Qed.

Lemma token_out s r : at_ s (62 :: r) → hd 0 r ≠ 62 →
  ∃ q eq s', gettoken buf s = (62, q, eq, s') ∧ at_ s' (dropws r).
Proof.
  intros Ha Hr. destruct (skip_at _ _ Ha) as (Hs & Hd & _). destruct (drop_cons _ _ _ Hd) as (Hlt & Hd' & Hch & _).
  eexists _, _, _. split.
  - unfold gettoken. rewrite Hch. simpl. rewrite chr_drop, Hd', (proj2 (Z.eqb_neq _ _)) by done. reflexivity.
  - apply at_next; [lia|done].
Qed.

Lemma token_append s r : at_ s (62 :: 62 :: r) →
  ∃ q eq s', gettoken buf s = (43, q, eq, s') ∧ at_ s' (dropws r).
Proof.
  intros Ha. destruct (skip_at _ _ Ha) as (Hs & Hd & _). destruct (drop_cons _ _ _ Hd) as (Hlt & Hd' & Hch & _).
  destruct (drop_cons _ _ _ Hd') as (Hlt' & Hd2 & _). eexists _, _, _. split.
  - unfold gettoken. rewrite Hch. simpl. rewrite chr_drop, Hd'. reflexivity.
  - apply at_next; [lia|done].
Qed.

Lemma token_end s : at_ s [] → ∃ q eq s', gettoken buf s = (0, q, eq, s') ∧ at_ s' [].
Proof.
  intros Ha. destruct (skip_at _ _ Ha) as (Hs & Hd & _). eexists _, _, _. split.
  - unfold gettoken. rewrite chr_drop, Hd. reflexivity.
  - by apply (at_next _ []).
Qed.

(** What follows a word does not continue it. *)
Definition word_ends (r : list Z) : Prop := match r with [] => True | c :: _ => word_char c = false end.

(** [q], [eq] delimit the word [w] in the line. *)
Definition spans (p : nat * nat) (w : list Z) : Prop :=
  ∃ r, drop p.1 buf = w ++ r ∧ p.2 = (p.1 + length w)%nat ∧ word_ends r ∧ word w.

Lemma skip_word_spec n s w r : (length w < n ∨ length buf - s ≤ n)%nat → drop s buf = w ++ r →
  Forall (λ c, word_char c = true) w → word_ends r → skip_word buf n s = (s + length w)%nat.
Proof.
  revert s w. induction n as [|n IH]; intros s w Hn Hd Hw Hr; simpl.
  - destruct w as [|c w]; [simpl; lia|]. apply drop_cons in Hd as (? & _). simpl in Hn. lia.
  - destruct w as [|c w]; simpl in Hd.
    + rewrite Nat.add_0_r. destruct r as [|c r].
      * rewrite (proj2 (Nat.ltb_ge s _)); [done|]. apply (f_equal length) in Hd. rewrite length_drop in Hd. simpl in Hd. lia.
      * destruct (drop_cons _ _ _ Hd) as (Hlt & _ & Hc & Hc0). rewrite Hc. simpl in Hr. unfold word_char in Hr.
        rewrite (proj2 (Z.eqb_neq c 0)) in Hr by done. simpl in Hr. rewrite <- andb_assoc, Hr. by rewrite andb_false_r.
    + destruct (drop_cons _ _ _ Hd) as (Hlt & Hd' & Hc & _). apply Forall_cons in Hw as [Hwc Hw].
      unfold word_char in Hwc. apply andb_prop in Hwc as [[_ Hws]%andb_prop Hsy].
      rewrite (proj2 (Nat.ltb_lt _ _)), Hc, Hws, Hsy by done. simpl.
      rewrite (IH (S s) w); [simpl; lia|simpl in Hn; lia|done|done|done].
Qed.

Lemma word_char_plain c : word_char c = true →
  (c =? 0) = false ∧ is_ws c = false ∧ one_byte c = false ∧ (c =? 62) = false.
Proof.
  unfold word_char. intros [[H0%negb_true_iff Hws%negb_true_iff]%andb_prop Hs%negb_true_iff]%andb_prop.
  split; [done|]. split; [done|]. apply Z.eqb_neq in H0.
  assert (Hn : c ∉ symbols).
  { intros Hin. assert (is_sym c = true); [|congruence]. apply in_set_spec. split; [|done]. exact Hin. }
  change symbols with [60; 124; 62; 38; 59; 40; 41] in Hn. rewrite !not_elem_of_cons in Hn.
  destruct Hn as (? & ? & ? & ? & ? & ? & ? & _). unfold one_byte. rewrite !(proj2 (Z.eqb_neq c _)) by done. done.
Qed.

Lemma token_word s w r : at_ s (w ++ r) → word w → word_ends r →
  ∃ p s', gettoken buf s = (97, p.1, p.2, s') ∧ at_ s' (dropws r) ∧ spans p w.
Proof.
  intros Ha [Hne Hw] Hr. destruct (skip_at _ _ Ha) as (Hs & Hd & _). set (q := skip buf s) in *.
  exists (q, q + length w)%nat, (skip buf (q + length w)). split; [|split].
  - unfold gettoken. fold q. destruct w as [|c w]; [done|]. simpl in Hd. destruct (drop_cons _ _ _ Hd) as (_ & _ & Hc & _).
    rewrite Hc. pose proof Hw as [Hcw _]%Forall_cons. destruct (word_char_plain c Hcw) as (H0 & _ & H1 & H2).
    unfold one_byte in H1. rewrite H0, H1, H2. rewrite (skip_word_spec _ _ (c :: w) r) by (done || lia). done.
  - apply at_next; [|by rewrite <- drop_drop, Hd, drop_app_length].
    apply (f_equal length) in Hd. rewrite length_drop, length_app in Hd. lia.
  - by exists r.
Qed.

(** ** Redirections *)

(** A parsed redirection: where its file name is, the mode and the descriptor. *)
Notation pred := (nat * nat * Z * Z)%type.
Definition wrap_cmd (c : cmd) (ps : list pred) : cmd :=
  foldl (λ c p, REDIR c p.1.1.1 p.1.1.2 p.1.2 p.2) c ps.
Definition wrap (a : ast) (rs : list redir) : ast := foldl (λ a r, ARedir a r.1.1 r.1.2 r.2) a rs.

Definition rspans (p : pred) (r : redir) : Prop := spans p.1.1 r.1.1 ∧ p.1.2 = r.1.2 ∧ p.2 = r.2.

Context (sp : list Z) (Hsp : Forall (λ c, is_ws c = true) sp) (Hne : sp ≠ []).

(** The text does not go on with one of [toks]. *)
Definition not_next (toks : string) (t : list Z) : Prop :=
  match dropws t with [] => True | c :: _ => in_set (bytes_of toks) c = false end.

Lemma sp_ends l : word_ends (sp ++ l) ∧ hd 0 (sp ++ l) ≠ 62.
Proof.
  destruct sp as [|c sp']; [done|]. apply Forall_cons in Hsp as [Hc _]. simpl. split.
  - unfold word_char. rewrite Hc. by rewrite andb_false_r.
  - by intros ->.
Qed.

Lemma word_dropws w l : word w → dropws (w ++ l) = w ++ l.
Proof.
  intros [Hn Hw]. destruct w as [|c w]; [done|]. apply Forall_cons in Hw as [Hc _].
  destruct (word_char_plain c Hc) as (_ & Hws & _). simpl. by rewrite Hws.
Qed.

(** The operator of a redirection, and its token. *)
Lemma token_redir s r l : redir_ok r → at_ s (redir_op r.1.2 ++ sp ++ l) →
  (∃ c t, redir_op r.1.2 ++ sp ++ l = c :: t ∧ in_set (bytes_of "<>") c = true) ∧
  ∃ tok q eq s', gettoken buf s = (tok, q, eq, s') ∧ at_ s' (dropws l) ∧
    (if tok =? 60 then r.1.2 = O_RDONLY ∧ r.2 = 0
     else if tok =? 62 then r.1.2 = REDIR_OUT ∧ r.2 = 1 else r.1.2 = REDIR_APPEND ∧ r.2 = 1).
Proof.
  intros [_ Hr] Ha. rewrite <- (dropws_sp sp l Hsp). destruct Hr as [[Hm Hf]|[[Hm Hf]|[Hm Hf]]]; rewrite Hm in *.
  - split; [by eexists _, _|]. destruct (token_one s 60 (sp ++ l) Ha eq_refl) as (q & eq & s' & Ht & Ha').
    by exists 60, q, eq, s'.
  - split; [by eexists _, _|]. destruct (token_out s (sp ++ l) Ha (proj2 (sp_ends l))) as (q & eq & s' & Ht & Ha').
    by exists 62, q, eq, s'.
  - split; [by eexists _, _|]. destruct (token_append s (sp ++ l) Ha) as (q & eq & s' & Ht & Ha').
    by exists 43, q, eq, s'.
Qed.

Lemma redir_dropws r l : redir_ok r → dropws (redir_op r.1.2 ++ l) = redir_op r.1.2 ++ l.
Proof. intros [_ Hr]. destruct Hr as [[-> _]|[[-> _]|[-> _]]]; done. Qed.

Lemma parseredirs_ok rs : ∀ m c s rest,
  Forall redir_ok rs → not_next "<>" rest → at_ s (dropws (redirs_text sp rs ++ rest)) →
  (length (dropws (redirs_text sp rs ++ rest)) < m)%nat →
  ∃ ps s', parseredirs buf m c s = Got (wrap_cmd c ps) s' ∧ at_ s' (dropws rest) ∧ Forall2 rspans ps rs.
Proof.
  induction rs as [|r rs IH]; intros m c s rest Hok Hnext Ha Hm; (destruct m as [|m]; [lia|]); cbn [parseredirs].
  - simpl in Ha. destruct (peek_at s _ "<>" Ha) as (s' & -> & Ha'). unfold not_next in Hnext.
    exists [], s'. split; [|done]. destruct (dropws rest); [done|]. by rewrite Hnext.
  - apply Forall_cons in Hok as [Hr Hok]. change (redirs_text sp (r :: rs)) with (redir_text sp r ++ redirs_text sp rs) in *.
    set (l := (r.1.1 ++ sp) ++ redirs_text sp rs ++ rest).
    assert (Htext : (redir_text sp r ++ redirs_text sp rs) ++ rest = redir_op r.1.2 ++ sp ++ l).
    { unfold l, redir_text. by rewrite <- !app_assoc. }
    rewrite Htext, (redir_dropws r _ Hr) in *.
    destruct (peek_at s _ "<>" Ha) as (s1 & Hpk & Ha1).
    destruct (token_redir s1 r l Hr Ha1) as [(c0 & t0 & Heq & Hc0) (tok & q & eq & s2 & Htok & Ha2 & Hkind)].
    rewrite Hpk, Heq, Hc0. cbn [negb]. rewrite Htok.
    destruct Hr as [Hw _]. unfold l in Ha2. rewrite <- app_assoc, (word_dropws _ _ Hw) in Ha2.
    destruct (token_word s2 r.1.1 (sp ++ redirs_text sp rs ++ rest) Ha2 Hw (proj1 (sp_ends _)))
      as (p & s3 & Htok2 & Ha3 & Hspan). rewrite Htok2. cbn [negb Z.eqb Pos.eqb].
    rewrite (dropws_sp sp _ Hsp) in Ha3.
    assert (Hm' : (length (dropws (redirs_text sp rs ++ rest)) < m)%nat).
    { pose proof (dropws_length (redirs_text sp rs ++ rest)). rewrite Heq in Hm. apply (f_equal length) in Heq.
      unfold l in Heq. rewrite !length_app in Heq. simpl in Heq. rewrite !length_app in *. simpl in Hm.
      destruct (redir_op r.1.2) eqn:Ho; [by unfold redir_op in Ho; repeat case_match|]. simpl in Heq.
      destruct sp; [done|]. simpl in Heq. lia. }
    destruct (tok =? 60); [|destruct (tok =? 62)]; destruct Hkind as [Hmode Hfd];
      (edestruct (IH m) as (ps & s' & Hrun & Ha' & Hps); [done|done|exact Ha3|done|];
       exists ((p, r.1.2, r.2) :: ps), s'; split; [|split; [done|by constructor]];
       rewrite Hrun; unfold wrap_cmd; simpl; by rewrite Hmode, Hfd).
Qed.

(** ** Simple commands *)

(** A simple command ends here. *)
Definition stops (rest : list Z) : Prop :=
  match dropws rest with [] => True | c :: _ => in_set (bytes_of "|)&;") c = true end.

Lemma stops_not_next rest toks : stops rest →
  (∀ c, in_set (bytes_of "|)&;") c = true → in_set (bytes_of toks) c = false) → not_next toks rest.
Proof. unfold stops, not_next. destruct (dropws rest); [done|]. auto. Qed.

Lemma stop_chars c : in_set (bytes_of "|)&;") c = true → c = 124 ∨ c = 41 ∨ c = 38 ∨ c = 59.
Proof.
  intros [Hin _]%in_set_spec. change (cstr (bytes_of "|)&;")) with [124; 41; 38; 59] in Hin.
  rewrite !elem_of_cons, elem_of_nil in Hin. tauto.
Qed.

Lemma stops_redir rest : stops rest → not_next "<>" rest.
Proof. intros Hs. apply stops_not_next; [done|]. intros c Hc. apply stop_chars in Hc. by destruct_or! Hc; subst. Qed.

(** A word stops nothing and starts no redirection or block. *)
Lemma word_not_in toks c : word_char c = true → (∀ x, x ∈ cstr toks → x ∈ symbols) → in_set toks c = false.
Proof.
  intros Hc Hs. destruct (in_set toks c) eqn:Hin; [|done]. apply in_set_spec in Hin as [Hin H0].
  unfold word_char in Hc. assert (Hy : is_sym c = true); [|rewrite Hy in Hc; by rewrite andb_false_r in Hc].
  apply in_set_spec. split; [|done]. by apply Hs.
Qed.

Lemma words_not_next ws l toks : Forall word ws → ws ≠ [] → (∀ x, x ∈ cstr (bytes_of toks) → x ∈ symbols) →
  not_next toks (words_text sp ws ++ l).
Proof.
  intros Hws Hn Hs. destruct ws as [|w ws]; [done|]. apply Forall_cons in Hws as [Hw _].
  change (words_text sp (w :: ws)) with ((w ++ sp) ++ words_text sp ws). unfold not_next.
  rewrite <- !app_assoc, (word_dropws w) by done. destruct Hw as [Hnw Hw]. destruct w as [|c w]; [done|].
  apply Forall_cons in Hw as [Hc _]. simpl. by apply word_not_in.
Qed.

Lemma sub_symbols l : forallb (λ x, bool_decide (x ∈ symbols)) l = true → ∀ x, x ∈ l → x ∈ symbols.
Proof. intros Hf x Hx. rewrite forallb_forall in Hf. apply list_elem_of_In, Hf, bool_decide_eq_true in Hx. done. Qed.

Lemma set_argv_wrap argv c ps : set_argv argv (wrap_cmd c ps) = wrap_cmd (set_argv argv c) ps.
Proof. revert c. induction ps as [|p ps IH]; intros c; [done|]. simpl. by rewrite IH. Qed.

(** The redirections after the last word, or none after another. *)
Definition tail_redirs (ws : list (list Z)) (rs : list redir) : list redir := match ws with [] => rs | _ => [] end.

Lemma parseargs_ok ws : ∀ loops m ret argv s rs rest,
  Forall word ws → Forall redir_ok rs → stops rest → (length argv + length ws < MAXARGS)%nat → (ws = [] → rs = []) →
  at_ s (dropws (words_text sp ws ++ redirs_text sp rs ++ rest)) →
  (length (dropws (words_text sp ws ++ redirs_text sp rs ++ rest)) < m)%nat → (S (length buf) < loops)%nat →
  ∃ args ps s', parseargs buf loops m ret argv s = Got (set_argv (argv ++ args) (wrap_cmd ret ps)) s' ∧
    at_ s' (dropws rest) ∧ Forall2 spans args ws ∧ Forall2 rspans ps rs.
Proof.
  induction ws as [|w ws IH]; intros loops m ret argv s rs rest Hws Hrs Hstop Hargc Hlast Ha Hm Hloops;
    (destruct m as [|m]; [lia|]); cbn [parseargs].
  - rewrite (Hlast eq_refl) in *. simpl in Ha. destruct (peek_at s _ "|)&;" Ha) as (s1 & -> & Ha1).
    unfold stops in Hstop. destruct (dropws rest) as [|c r] eqn:Hd.
    + destruct (token_end s1 Ha1) as (q & eq & s2 & -> & Ha2). exists [], [], s2. rewrite app_nil_r. done.
    + rewrite Hstop. exists [], [], s1. rewrite app_nil_r. done.
  - apply Forall_cons in Hws as [Hw Hws]. set (l := words_text sp ws ++ redirs_text sp rs ++ rest) in *.
    assert (Htext : words_text sp (w :: ws) ++ redirs_text sp rs ++ rest = w ++ sp ++ l).
    { change (words_text sp (w :: ws)) with ((w ++ sp) ++ words_text sp ws). unfold l. by rewrite <- !app_assoc. }
    rewrite Htext, (word_dropws w) in Ha, Hm by done.
    destruct (peek_at s _ "|)&;" Ha) as (s1 & -> & Ha1).
    assert (Hnot : match w ++ sp ++ l with [] => false | c :: _ => in_set (bytes_of "|)&;") c end = false).
    { destruct Hw as [Hnw Hw]. destruct w as [|c w]; [done|]. apply Forall_cons in Hw as [Hc _]. simpl.
      apply word_not_in; [done|]. apply sub_symbols. reflexivity. }
    rewrite Hnot. destruct (token_word s1 w (sp ++ l) Ha1 Hw (proj1 (sp_ends l))) as (p & s2 & -> & Ha2 & Hspan).
    rewrite (dropws_sp sp _ Hsp) in Ha2. cbn [negb Z.eqb Pos.eqb].
    rewrite (proj2 (Nat.leb_gt _ _)) by (rewrite length_app; simpl in *; lia).
    assert (Hl : l = redirs_text sp (tail_redirs ws rs) ++ (words_text sp ws ++ redirs_text sp (match ws with [] => [] | _ => rs end) ++ rest)).
    { unfold l, tail_redirs. by destruct ws. }
    destruct (parseredirs_ok (tail_redirs ws rs) loops ret s2
      (words_text sp ws ++ redirs_text sp (match ws with [] => [] | _ => rs end) ++ rest)) as (ps & s3 & Hr & Ha3 & Hps).
    + unfold tail_redirs. destruct ws; [done|constructor].
    + destruct ws; [by apply stops_redir|]. apply words_not_next; [done|done|]. apply sub_symbols. reflexivity.
    + by rewrite <- Hl.
    + rewrite <- Hl. destruct Ha2 as [_ Ha2]. rewrite <- Ha2. pose proof (dropws_length (drop s2 buf)).
      rewrite length_drop in *. lia.
    + rewrite Hr. edestruct (IH loops m (wrap_cmd ret ps) (argv ++ [(p.1, p.2)]) s3 (match ws with [] => [] | _ => rs end) rest)
        as (args & ps' & s' & Hrun & Ha' & Hsp' & Hps'); [done|by destruct ws|done| |by intros ->|exact Ha3| |done|].
      { rewrite length_app. simpl in *. lia. }
      { pose proof (dropws_length (words_text sp ws ++ redirs_text sp (match ws with [] => [] | _ => rs end) ++ rest)).
        assert (length l = length (redirs_text sp (tail_redirs ws rs)) + length (words_text sp ws ++ redirs_text sp (match ws with [] => [] | _ => rs end) ++ rest))%nat
          by (rewrite Hl at 1; by rewrite length_app).
        rewrite !length_app in Hm. destruct Hw as [Hnw _]. destruct w; [done|]. simpl in Hm. lia. }
      exists (p :: args), (ps ++ ps'), s'. split; [|split; [done|split; [by constructor|]]].
      * rewrite Hrun. unfold wrap_cmd. rewrite foldl_app, <- app_assoc. by destruct p.
      * destruct ws; simpl in *; [|by inversion Hps; subst]. inversion Hps'; subst. by rewrite app_nil_r.
Qed.

(** ** Whole commands *)

(** The parsed command [t] stands for [a]: the same shape, and its indices
    delimit the words of [a]. *)
Fixpoint denotes (t : cmd) (a : ast) : Prop :=
  match t, a with
  | EXEC argv, AExec ws => Forall2 spans argv ws
  | REDIR t f ef mode fd, ARedir a w mode' fd' => denotes t a ∧ spans (f, ef) w ∧ mode = mode' ∧ fd = fd'
  | PIPE l r, APipe l' r' => denotes l l' ∧ denotes r r'
  | LIST l r, AList l' r' => denotes l l' ∧ denotes r r'
  | BACK t, ABack a => denotes t a
  | _, _ => False
  end.

Lemma denotes_wrap ps rs : Forall2 rspans ps rs → ∀ t a, denotes t a → denotes (wrap_cmd t ps) (wrap a rs).
Proof.
  induction 1 as [|[[[f ef] mode] fd] [[w mode'] fd'] ps rs (Hsp' & Hm & Hf) _ IH]; intros t a Hd; [done|].
  apply IH. simpl in *. done.
Qed.

(** A line ends here: at the end of the text or of the block. *)
Definition closes (rest : list Z) : Prop := match dropws rest with [] => True | c :: _ => c = 41 end.

Lemma closes_stops rest : closes rest → stops rest ∧ not_next "|" rest ∧ not_next "&" rest ∧ not_next ";" rest.
Proof. unfold closes, stops, not_next. destruct (dropws rest); [done|]. by intros ->. Qed.

Lemma dropws_cons_length x c y : is_ws c = false → (S (length y) ≤ length (dropws (x ++ c :: y)))%nat.
Proof.
  intros Hc. induction x as [|d x IH]; simpl; [by rewrite Hc|]. destruct (is_ws d); [done|]. simpl. rewrite length_app. simpl. lia.
Qed.

Definition exec_parses (a : ast) : Prop := ∀ rs rest n s,
  let txt := dropws (print sp true a ++ redirs_text sp rs ++ rest) in
  Forall redir_ok rs → stops rest → at_ s txt → (4 * length txt + 2 ≤ n)%nat →
  ∃ t s', parseexec buf n s = Got t s' ∧ at_ s' (dropws rest) ∧ denotes t (wrap a rs).

Definition line_parses (p : list Z) (a : ast) : Prop := ∀ rest n s,
  let txt := dropws (p ++ rest) in
  closes rest → at_ s txt → (4 * length txt + 4 ≤ n)%nat →
  ∃ t s', parseline buf n s = Got t s' ∧ at_ s' (dropws rest) ∧ denotes t a.

Lemma at_length s t : at_ s t → (length t ≤ length buf)%nat.
Proof. intros [_ <-]. pose proof (dropws_length (drop s buf)). rewrite length_drop in *. lia. Qed.

Lemma exec_words ws : wf (AExec ws) → exec_parses (AExec ws).
Proof.
  intros [Hws Hargc] rs rest n s txt Hrs Hstop Ha Hn. destruct n as [|n]; [lia|]. cbn [parseexec execcmd].
  destruct (peek_at s txt "(" Ha) as (s1 & -> & Ha1).
  set (rs1 := tail_redirs ws rs). set (rs2 := match ws with [] => [] | _ => rs end).
  assert (Htxt : txt = dropws (redirs_text sp rs1 ++ words_text sp ws ++ redirs_text sp rs2 ++ rest)).
  { unfold txt, rs1, rs2. by destruct ws. }
  assert (Hopen : match txt with [] => false | c :: _ => in_set (bytes_of "(") c end = false).
  { destruct ws as [|w ws].
    - unfold txt. simpl. destruct rs as [|r rs'].
      + simpl. unfold stops in Hstop. destruct (dropws rest); [done|]. apply stop_chars in Hstop. by destruct_or! Hstop; subst.
      + apply Forall_cons in Hrs as [Hr _]. change (redirs_text sp (r :: rs')) with (redir_text sp r ++ redirs_text sp rs').
        unfold redir_text. rewrite <- !app_assoc, (redir_dropws r _ Hr). destruct Hr as [_ [[-> _]|[[-> _]|[-> _]]]]; done.
    - assert (Hnn : not_next "(" (words_text sp (w :: ws) ++ redirs_text sp rs ++ rest)).
      { apply words_not_next; [done|done|]. apply sub_symbols. reflexivity. }
      unfold not_next in Hnn. unfold txt. cbn [print]. by destruct (dropws _). }
  rewrite Hopen. pose proof (at_length _ _ Ha1) as Hlen. rewrite Htxt in Ha1, Hlen.
  destruct (parseredirs_ok rs1 (rounds buf) execcmd s1 (words_text sp ws ++ redirs_text sp rs2 ++ rest))
    as (ps & s2 & -> & Ha2 & Hps); [| |done|unfold rounds; lia|].
  { unfold rs1, tail_redirs. destruct ws; [done|constructor]. }
  { unfold rs2. destruct ws; [by apply stops_redir|]. apply words_not_next; [done|done|]. apply sub_symbols. reflexivity. }
  pose proof (at_length _ _ Ha2) as Hlen2.
  destruct (parseargs_ok ws (rounds buf) (rounds buf) (wrap_cmd execcmd ps) [] s2 rs2 rest)
    as (args & ps' & s' & -> & Ha' & Hargs & Hps');
    [done|unfold rs2; by destruct ws|done|done|by unfold rs2; intros ->|done|unfold rounds; lia|unfold rounds; lia|].
  eexists _, s'. split; [reflexivity|]. split; [done|]. unfold wrap_cmd. rewrite <- foldl_app. fold (wrap_cmd (EXEC []) (ps ++ ps')).
  rewrite set_argv_wrap. apply denotes_wrap; [|done].
  unfold rs1, rs2, tail_redirs in *. destruct ws; [inversion Hps'; subst; by rewrite app_nil_r|]. inversion Hps; subst. done.
Qed.

(** A check for a token that is not there. *)
Lemma peek_no s rest toks : at_ s (dropws rest) → not_next toks rest →
  ∃ s', peek buf s toks = (false, s') ∧ at_ s' (dropws rest).
Proof.
  intros Ha Hn. destruct (peek_at s _ toks Ha) as (s' & -> & Ha'). exists s'. split; [|done].
  unfold not_next in Hn. f_equal. by destruct (dropws rest).
Qed.

(** An operator: the check for it succeeds, and taking it leaves what follows. *)
Lemma take_op s c rest toks : at_ s (dropws (c :: sp ++ rest)) → one_byte c = true → in_set (bytes_of toks) c = true →
  ∃ s1 q eq s2, peek buf s toks = (true, s1) ∧ gettoken buf s1 = (c, q, eq, s2) ∧ at_ s2 (dropws rest).
Proof.
  intros Ha H1 Hin. assert (Hws : is_ws c = false).
  { unfold one_byte in H1. destruct (is_ws c) eqn:Hw; [|done]. apply in_set_spec in Hw as [Hw _].
    change (cstr whitespace) with [32; 9; 13; 10; 11] in Hw. rewrite !elem_of_cons, elem_of_nil in Hw.
    destruct_or! Hw; by subst. }
  simpl in Ha. rewrite Hws in Ha. destruct (peek_at s _ toks Ha) as (s1 & Hpk & Ha1).
  destruct (token_one s1 c (sp ++ rest) Ha1 H1) as (q & eq & s2 & Htok & Ha2). rewrite (dropws_sp sp _ Hsp) in Ha2.
  exists s1, q, eq, s2. rewrite Hpk, Hin. done.
Qed.

Lemma op_stops c rest : in_set (bytes_of "|)&;") c = true → stops (c :: rest).
Proof. intros Hc. unfold stops. simpl. pose proof (stop_chars c Hc) as Hs. by destruct_or! Hs; subst. Qed.

(** A simple command not followed by a pipe. *)
Lemma pipe_simple a : exec_parses a → ∀ rest n s,
  let txt := dropws (print sp true a ++ rest) in
  stops rest → not_next "|" rest → at_ s txt → (4 * length txt + 3 ≤ n)%nat →
  ∃ t s', parsepipe buf n s = Got t s' ∧ at_ s' (dropws rest) ∧ denotes t a.
Proof.
  intros He rest n s txt Hstop Hnp Ha Hn. destruct n as [|n]; [lia|]. cbn [parsepipe].
  destruct (He [] rest n s) as (t & s1 & -> & Ha1 & Hd); [constructor|done|done|unfold txt in Hn; simpl; lia|].
  destruct (peek_no s1 rest "|" Ha1 Hnp) as (s2 & -> & Ha2). by exists t, s2.
Qed.

(** The end of parseline() for a command after which the line ends. *)
Lemma line_end c s rest : closes rest → at_ s (dropws rest) →
  ∃ s1 s2, parseback buf (rounds buf) c s = Got c s1 ∧ peek buf s1 ";" = (false, s2) ∧ at_ s2 (dropws rest).
Proof.
  intros (_ & _ & Hamp & Hsemi)%closes_stops Ha. unfold rounds. cbn [parseback].
  destruct (peek_no s rest "&" Ha Hamp) as (s1 & -> & Ha1). destruct (peek_no s1 rest ";" Ha1 Hsemi) as (s2 & Hpk & Ha2).
  by exists s1, s2.
Qed.

Lemma line_simple a : exec_parses a → line_parses (print sp true a) a.
Proof.
  intros He rest n s txt Hc Ha Hn. destruct n as [|n]; [lia|]. cbn [parseline].
  destruct (closes_stops rest Hc) as (Hstop & Hnp & _).
  destruct (pipe_simple a He rest n s Hstop Hnp Ha ltac:(unfold txt in Hn; lia)) as (t & s1 & -> & Ha1 & Hd).
  destruct (line_end t s1 rest Hc Ha1) as (s2 & s3 & -> & -> & Ha3). by exists t, s3.
Qed.

Lemma line_pipe l r : exec_parses l → exec_parses r →
  line_parses (print sp true l ++ [124] ++ sp ++ print sp true r) (APipe l r).
Proof.
  intros Hl Hr rest n s txt Hc Ha Hn. set (rest1 := 124 :: sp ++ print sp true r ++ rest).
  assert (Htxt : txt = dropws (print sp true l ++ rest1)) by (unfold txt, rest1; by rewrite <- !app_assoc).
  pose proof (dropws_cons_length (print sp true l) 124 (sp ++ print sp true r ++ rest) eq_refl) as Hlen.
  fold rest1 in Hlen. rewrite <- Htxt, length_app in Hlen.
  pose proof (dropws_length (print sp true r ++ rest)) as Hlen2.
  destruct n as [|[|n]]; [lia|lia|]. cbn [parseline parsepipe].
  destruct (Hl [] rest1 n s) as (tl & s1 & -> & Ha1 & Hdl); [constructor|by apply op_stops|by rewrite Htxt in Ha|simpl; rewrite <- Htxt; lia|].
  destruct (take_op s1 124 (print sp true r ++ rest) "|" Ha1 eq_refl eq_refl) as (s2 & q & eq & s3 & -> & -> & Ha3).
  destruct (closes_stops rest Hc) as (Hstop & Hnp & _).
  destruct (pipe_simple r Hr rest n s3 Hstop Hnp Ha3 ltac:(lia)) as (tr & s4 & -> & Ha4 & Hdr).
  destruct (line_end (pipecmd tl tr) s4 rest Hc Ha4) as (s5 & s6 & -> & -> & Ha6). by exists (PIPE tl tr), s6.
Qed.

Lemma line_list l r : exec_parses l → exec_parses r →
  line_parses (print sp true l ++ [59] ++ sp ++ print sp true r) (AList l r).
Proof.
  intros Hl Hr rest n s txt Hc Ha Hn. set (rest1 := 59 :: sp ++ print sp true r ++ rest).
  assert (Htxt : txt = dropws (print sp true l ++ rest1)) by (unfold txt, rest1; by rewrite <- !app_assoc).
  pose proof (dropws_cons_length (print sp true l) 59 (sp ++ print sp true r ++ rest) eq_refl) as Hlen.
  fold rest1 in Hlen. rewrite <- Htxt, length_app in Hlen.
  pose proof (dropws_length (print sp true r ++ rest)) as Hlen2.
  destruct n as [|n]; [lia|]. cbn [parseline].
  destruct (pipe_simple l Hl rest1 n s) as (tl & s1 & -> & Ha1 & Hdl); [by apply op_stops|done|by rewrite Htxt in Ha|rewrite <- Htxt; lia|].
  unfold rounds. cbn [parseback]. destruct (peek_no s1 rest1 "&" Ha1 eq_refl) as (s2 & -> & Ha2).
  destruct (take_op s2 59 (print sp true r ++ rest) ";" Ha2 eq_refl eq_refl) as (s3 & q & eq & s4 & -> & -> & Ha4).
  destruct (line_simple r Hr rest n s4 Hc Ha4 ltac:(lia)) as (tr & s5 & -> & Ha5 & Hdr).
  by exists (LIST tl tr), s5.
Qed.

Lemma line_back a : exec_parses a → line_parses (print sp true a ++ [38] ++ sp) (ABack a).
Proof.
  intros He rest n s txt Hc Ha Hn. set (rest1 := 38 :: sp ++ rest).
  assert (Htxt : txt = dropws (print sp true a ++ rest1)) by (unfold txt, rest1; by rewrite <- !app_assoc).
  destruct n as [|n]; [lia|]. cbn [parseline].
  destruct (pipe_simple a He rest1 n s) as (t & s1 & -> & Ha1 & Hd); [by apply op_stops|done|by rewrite Htxt in Ha|rewrite <- Htxt; lia|].
  unfold rounds. cbn [parseback].
  destruct (take_op s1 38 rest "&" Ha1 eq_refl eq_refl) as (s2 & q & eq & s3 & -> & -> & Ha3).
  destruct (closes_stops rest Hc) as (_ & _ & Hamp & Hsemi).
  destruct (peek_no s3 rest "&" Ha3 Hamp) as (s4 & -> & Ha4). destruct (peek_no s4 rest ";" Ha4 Hsemi) as (s5 & -> & Ha5).
  by exists (BACK t), s5.
Qed.

(** A command in parentheses. *)
Lemma exec_block p a : line_parses p a → print sp true a = [40] ++ sp ++ p ++ [41] ++ sp → exec_parses a.
Proof.
  intros Hl Hp rs rest n s txt Hrs Hstop Ha Hn. set (rest2 := redirs_text sp rs ++ rest). set (rest1 := 41 :: sp ++ rest2).
  assert (Htxt : txt = dropws (40 :: sp ++ p ++ rest1)).
  { unfold txt, rest1, rest2. rewrite Hp. by rewrite <- !app_assoc. }
  assert (Hlen : (S (length (dropws (p ++ rest1))) ≤ length txt)%nat).
  { rewrite Htxt. simpl. rewrite !length_app. pose proof (dropws_length (p ++ rest1)). rewrite length_app in *. lia. }
  destruct n as [|[|n]]; [lia|lia|]. cbn [parseexec parseblock].
  rewrite Htxt in Ha. destruct (take_op s 40 (p ++ rest1) "(" Ha eq_refl eq_refl) as (s1 & q & eq & s2 & Hpk1 & Htok1 & Ha2).
  rewrite Hpk1. assert (Ha1 : at_ s1 (dropws (40 :: sp ++ p ++ rest1))).
  { destruct (peek_at s _ "(" Ha) as (s1' & Hpk1' & Ha1). rewrite Hpk1 in Hpk1'. by simplify_eq. }
  destruct (take_op s1 40 (p ++ rest1) "(" Ha1 eq_refl eq_refl) as (s1' & q' & eq' & s2' & -> & -> & Ha2').
  cbn [negb]. destruct (Hl rest1 n s2') as (t & s3 & -> & Ha3 & Hd); [done|done|lia|].
  destruct (take_op s3 41 rest2 ")" Ha3 eq_refl eq_refl) as (s4 & q4 & eq4 & s5 & -> & -> & Ha5). cbn [negb].
  pose proof (at_length _ _ Ha5) as Hlen5.
  destruct (parseredirs_ok rs (rounds buf) t s5 rest) as (ps & s6 & -> & Ha6 & Hps);
    [done|by apply stops_redir|done|unfold rounds; unfold rest2 in Hlen5; lia|].
  eexists _, s6. split; [reflexivity|]. split; [done|]. by apply denotes_wrap.
Qed.

Lemma parse_print a : wf a → exec_parses a ∧ line_parses (print sp false a) a.
Proof.
  induction a as [ws|a IH f mode fd|l IHl r IHr|l IHl r IHr|a IH]; intros Hwf.
  - pose proof (exec_words ws Hwf) as He. split; [done|]. by apply (line_simple (AExec ws)).
  - destruct Hwf as [Ha Hr]. assert (He : exec_parses (ARedir a f mode fd)).
    { intros rs rest n s txt Hrs Hstop Hat Hn.
      assert (Htxt : txt = dropws (print sp true a ++ redirs_text sp ((f, mode, fd) :: rs) ++ rest)).
      { unfold txt. cbn [print]. change (redirs_text sp ((f, mode, fd) :: rs)) with (redir_text sp (f, mode, fd) ++ redirs_text sp rs).
        by rewrite <- !app_assoc. }
      destruct (proj1 (IH Ha) ((f, mode, fd) :: rs) rest n s) as (t & s' & Hrun & Ha' & Hd);
        [by constructor|done|by rewrite <- Htxt|by rewrite <- Htxt|]. by exists t, s'. }
    split; [done|]. by apply (line_simple (ARedir a f mode fd)).
  - destruct Hwf as [Hl Hr]. pose proof (line_pipe l r (proj1 (IHl Hl)) (proj1 (IHr Hr))) as Hline.
    split; [|done]. by apply (exec_block _ _ Hline).
  - destruct Hwf as [Hl Hr]. pose proof (line_list l r (proj1 (IHl Hl)) (proj1 (IHr Hr))) as Hline.
    split; [|done]. by apply (exec_block _ _ Hline).
  - pose proof (line_back a (proj1 (IH Hwf))) as Hline. split; [|done]. by apply (exec_block _ _ Hline).
Qed.
End line.

(** ** Cutting the words *)

(** The command as runcmd() sees it: every word is the C string at its index. *)
Fixpoint extract (buf : list Z) (t : cmd) : ast :=
  match t with
  | EXEC argv => AExec ((λ p, cstr (drop p.1 buf)) <$> argv)
  | REDIR t f _ mode fd => ARedir (extract buf t) (cstr (drop f buf)) mode fd
  | PIPE l r => APipe (extract buf l) (extract buf r)
  | LIST l r => AList (extract buf l) (extract buf r)
  | BACK t => ABack (extract buf t)
  end.

(** Where nulterminate() writes. *)
Fixpoint cuts (t : cmd) : list nat :=
  match t with
  | EXEC argv => argv.*2
  | REDIR t _ ef _ _ => cuts t ++ [ef]
  | PIPE l r | LIST l r => cuts l ++ cuts r
  | BACK t => cuts t
  end.

Definition zero_at (b : list Z) (l : list nat) : list Z := foldl (λ b i, <[i := 0]> b) b l.

Lemma nulterminate_cuts t b : nulterminate t b = zero_at b (cuts t).
Proof.
  unfold zero_at. revert b. induction t as [argv|t IH f ef m fd|l IHl r IHr|l IHl r IHr|t IH]; intros b; simpl.
  - revert b. induction argv as [|p argv IH]; intros b; [done|]. simpl. apply IH.
  - by rewrite foldl_app, IH.
  - by rewrite foldl_app, IHl, IHr.
  - by rewrite foldl_app, IHl, IHr.
  - apply IH.
Qed.

Lemma zero_at_lookup b l i : zero_at b l !! i = if decide (i ∈ l) then (λ _, 0) <$> b !! i else b !! i.
Proof.
  revert b. induction l as [|j l IH]; intros b; [done|]. unfold zero_at in *. simpl. rewrite IH.
  destruct (decide (i = j)) as [->|Hne].
  - rewrite (decide_True (P := j ∈ j :: l)) by apply list_elem_of_here.
    destruct (decide (j < length b)%nat) as [Hlt|Hge].
    + rewrite list_lookup_insert_eq by done. destruct (lookup_lt_is_Some_2 b j Hlt) as [x ->]. by case_decide.
    + rewrite list_insert_ge by lia. rewrite (lookup_ge_None_2 b j) by lia. by case_decide.
  - rewrite list_lookup_insert_ne by done.
    destruct (decide (i ∈ l)); [rewrite decide_True by (by apply list_elem_of_further)|rewrite decide_False]; try done.
    by rewrite not_elem_of_cons.
Qed.

Lemma length_zero_at b l : length (zero_at b l) = length b.
Proof. unfold zero_at. revert b. induction l as [|i l IH]; intros b; [done|]. simpl. by rewrite IH, length_insert. Qed.

Section cut.
Context (buf : list Z).

Lemma spans_lookup p w k : spans buf p w → (k < length w)%nat → buf !! (p.1 + k)%nat = w !! k.
Proof. intros (r & Hd & _) Hk. rewrite <- lookup_drop, Hd. by apply lookup_app_l. Qed.

(** A cut is never inside a word. *)
Lemma cut_outside p w : spans buf p w → match buf !! p.2 with Some c => word_char c = false | None => True end.
Proof.
  intros (r & Hd & -> & Hr & _). rewrite <- lookup_drop, Hd, lookup_app_r, Nat.sub_diag by done. by destruct r.
Qed.

Lemma denotes_cuts t a i : denotes buf t a → i ∈ cuts t → match buf !! i with Some c => word_char c = false | None => True end.
Proof.
  revert a. induction t as [argv|t IH f ef m fd|l IHl r IHr|l IHl r IHr|t IH]; intros [ws|a w m' fd'|l' r'|l' r'|a] Hd Hi;
    simpl in Hd; try done.
  - simpl in Hi. apply list_elem_of_fmap in Hi as (p & -> & Hp). apply list_elem_of_lookup in Hp as [k Hk].
    destruct (Forall2_lookup_l _ _ _ _ _ Hd Hk) as (w & _ & Hs). by apply (cut_outside p w).
  - destruct Hd as (Hd & Hs & _). simpl in Hi. apply elem_of_app in Hi as [Hi| ->%list_elem_of_singleton]; [by eapply IH|].
    by apply (cut_outside (f, ef) w).
  - destruct Hd as [Hl Hr]. simpl in Hi. apply elem_of_app in Hi as [Hi|Hi]; [by eapply IHl|by eapply IHr].
  - destruct Hd as [Hl Hr]. simpl in Hi. apply elem_of_app in Hi as [Hi|Hi]; [by eapply IHl|by eapply IHr].
  - by eapply IH.
Qed.

(** A buffer in which the words are whole and their ends are zero. *)
Definition cut_ok (b : list Z) (l : list nat) : Prop :=
  (∀ i c, buf !! i = Some c → word_char c = true → b !! i = Some c) ∧
  (∀ i, i ∈ l → b !! i = None ∨ b !! i = Some 0).

Lemma cut_word b l p w : cut_ok b l → spans buf p w → p.2 ∈ l → cstr (drop p.1 b) = w.
Proof.
  intros [Hw Hz] Hs Hin. pose proof Hs as (r & _ & Hp & _ & [_ Hch]).
  assert (Htake : take (length w) (drop p.1 b) = w).
  { apply list_eq. intros k. destruct (decide (k < length w)%nat) as [Hk|Hk].
    - rewrite lookup_take_lt, lookup_drop by done. destruct (lookup_lt_is_Some_2 w k Hk) as [c Hc]. rewrite Hc.
      apply Hw; [by rewrite (spans_lookup p w k Hs Hk)|]. rewrite Forall_lookup in Hch. by apply (Hch k).
    - rewrite lookup_take_ge by lia. symmetry. apply lookup_ge_None_2. lia. }
  assert (Hnz : ∀ c, c ∈ w → c ≠ 0).
  { intros c Hc ->. rewrite Forall_forall in Hch. by apply Hch in Hc. }
  rewrite <- (take_drop (length w) (drop p.1 b)), Htake, drop_drop. destruct (drop (p.1 + length w) b) as [|c d] eqn:Hd.
  - rewrite app_nil_r. by apply cstr_nul.
  - specialize (Hz p.2 Hin). rewrite Hp, <- (Nat.add_0_r (p.1 + length w)), <- lookup_drop, Hd in Hz.
    destruct Hz as [|[= ->]]; [done|]. by apply cstr_app.
Qed.

Lemma extract_cut b l t a : cut_ok b l → (∀ i, i ∈ cuts t → i ∈ l) → denotes buf t a → extract b t = a.
Proof.
  intros Hok. revert a. induction t as [argv|t IH f ef m fd|lt IHl r IHr|lt IHl r IHr|t IH];
    intros [ws|a w m' fd'|l' r'|l' r'|a] Hin Hd; simpl in Hd; try done; simpl; simpl in Hin.
  - f_equal. apply list_eq. intros k. rewrite list_lookup_fmap. destruct (argv !! k) as [p|] eqn:Hk.
    + destruct (Forall2_lookup_l _ _ _ _ _ Hd Hk) as (w & Hwk & Hs). rewrite Hwk. simpl. f_equal.
      apply (cut_word b l); [done|done|]. apply Hin, list_elem_of_fmap. exists p. split; [done|by eapply list_elem_of_lookup_2].
    + simpl. symmetry. apply lookup_ge_None_2. rewrite <- (Forall2_length _ _ _ Hd). by apply lookup_ge_None_1.
  - destruct Hd as (Hd & Hs & -> & ->). rewrite (IH a); [|intros i Hi; apply Hin, elem_of_app; by left|done].
    f_equal. apply (cut_word b l (f, ef)); [done|done|]. apply Hin, elem_of_app. right. apply list_elem_of_here.
  - destruct Hd as [Hl Hr]. rewrite (IHl l'), (IHr r'); try done; intros i Hi; apply Hin, elem_of_app; auto.
  - destruct Hd as [Hl Hr]. rewrite (IHl l'), (IHr r'); try done; intros i Hi; apply Hin, elem_of_app; auto.
  - f_equal. by apply IH.
Qed.

Lemma nulterminate_ok t a : denotes buf t a → extract (nulterminate t buf) t = a.
Proof.
  intros Hd. apply (extract_cut _ (cuts t)); [|done|done]. rewrite nulterminate_cuts. split.
  - intros i c Hi Hc. rewrite zero_at_lookup, decide_False; [done|]. intros Hin.
    pose proof (denotes_cuts t a i Hd Hin) as Hno. rewrite Hi in Hno. congruence.
  - intros i Hi. rewrite zero_at_lookup, decide_True by done. destruct (buf !! i); [by right|by left].
Qed.
End cut.

(** A printed command has no zero byte. *)
Lemma print_nonzero sp a : Forall (λ c, is_ws c = true) sp → wf a → ∀ side, Forall (λ c, c ≠ 0) (print sp side a).
Proof.
  intros Hsp. assert (Hs : Forall (λ c, c ≠ 0) sp) by (eapply Forall_impl; [exact Hsp|]; by intros c Hc ->).
  assert (Hw : ∀ w, word w → Forall (λ c, c ≠ 0) w) by (intros w [_ Hw]; eapply Forall_impl; [exact Hw|]; by intros c Hc ->).
  induction a as [ws|a IH f mode fd|l IHl r IHr|l IHl r IHr|a IH]; intros Hwf side.
  - destruct Hwf as [Hws _]. simpl. unfold words_text. induction Hws as [|w ws Hw' _ IH]; [constructor|]. simpl.
    rewrite !Forall_app. auto.
  - destruct Hwf as [Ha [Hf _]]. simpl. unfold redir_text. rewrite !Forall_app. simpl.
    split; [by apply IH|]. split; [|auto]. unfold redir_op. repeat case_match; by repeat constructor.
  - destruct Hwf as [Hl Hr]. specialize (IHl Hl true). specialize (IHr Hr true).
    destruct side; simpl; repeat (rewrite Forall_app || rewrite Forall_cons); repeat split; done || lia.
  - destruct Hwf as [Hl Hr]. specialize (IHl Hl true). specialize (IHr Hr true).
    destruct side; simpl; repeat (rewrite Forall_app || rewrite Forall_cons); repeat split; done || lia.
  - specialize (IH Hwf true).
    destruct side; simpl; repeat (rewrite Forall_app || rewrite Forall_cons); repeat split; done || lia.
Qed.

(** The whole of parsecmd() on a printed command. *)
Lemma parsecmd_print sp a :
  Forall (λ c, is_ws c = true) sp → sp ≠ [] → wf a →
  let buf := print sp false a in
  ∃ t b s, parsecmd buf = Got (t, b) s ∧ extract b t = a.
Proof.
  intros Hsp Hne Hwf buf. assert (Hnul : ∀ c, c ∈ buf → c ≠ 0) by (apply Forall_forall; by apply print_nonzero).
  destruct (proj2 (parse_print buf Hnul sp Hsp Hne a Hwf) [] (parse_fuel buf) 0%nat) as (t & s & Hrun & Ha & Hd).
  - done.
  - split; [lia|]. simpl. by rewrite app_nil_r.
  - rewrite app_nil_r. fold buf. pose proof (dropws_length buf). unfold parse_fuel. lia.
  - destruct (peek_at buf Hnul s _ EmptyString Ha) as (s1 & Hpk & Ha1).
    exists t, (nulterminate t buf), (length buf). unfold parsecmd. rewrite Hrun.
    assert (Hs1 : snd (peek buf s EmptyString) = length buf).
    { destruct (skip_at buf Hnul s _ Ha) as (Hle & Hdr & _). simpl. apply (f_equal length) in Hdr.
      rewrite length_drop in Hdr. simpl in Hdr. lia. }
    rewrite Hpk in Hs1 |- *. simpl in Hs1. subst s1. rewrite Nat.eqb_refl. split; [done|]. by apply nulterminate_ok.
Qed.

(** ** The parser on any line: it ends, and stays inside the line *)
Section total.
Context (buf : list Z) (Hnul : ∀ c, c ∈ buf → c ≠ 0).

(** A word's indices are in the line, its end perhaps the terminator. *)
Definition in_line (p : nat * nat) : Prop := (p.1 ≤ p.2 ≤ length buf)%nat.

Fixpoint inside (c : cmd) : Prop :=
  match c with
  | EXEC argv => Forall in_line argv ∧ (length argv < MAXARGS)%nat
  | REDIR c f ef _ _ => inside c ∧ in_line (f, ef)
  | PIPE l r | LIST l r => inside l ∧ inside r
  | BACK c => inside c
  end.

(** A result inside the line with at most [n] bytes left, or a complaint. *)
Definition fine (n : nat) (r : pres cmd) : Prop :=
  match r with
  | Got c s => inside c ∧ ∃ t, at_ buf s t ∧ (length t ≤ n)%nat
  | Bad _ => True
  | Starve => False
  end.

Lemma fine_le n m r : (n ≤ m)%nat → fine n r → fine m r.
Proof. intros Hle. destruct r; simpl; try done. intros (Hi & t & Ha & Hl). split; [done|]. exists t. split; [done|lia]. Qed.

Lemma word_prefix c t : word_char c = true → ∃ w r, c :: t = w ++ r ∧ word w ∧ word_ends r.
Proof.
  intros Hc. assert (Hex : ∃ w r, t = w ++ r ∧ Forall (λ c, word_char c = true) w ∧ word_ends r).
  { clear Hc. induction t as [|d t (w & r & -> & Hw & Hr)]; [by exists [], []|].
    destruct (word_char d) eqn:Hd; [exists (d :: w), r|exists [], (d :: w ++ r)]; split; try done; split; try done. by constructor. }
  destruct Hex as (w & r & -> & Hw & Hr). exists (c :: w), r. split; [done|]. split; [|done]. split; [done|by constructor].
Qed.

Lemma plain_word_char c : c ≠ 0 → is_ws c = false → one_byte c = false → c ≠ 62 → word_char c = true.
Proof.
  intros H0 Hws H1 H62. unfold word_char. rewrite (proj2 (Z.eqb_neq c 0)), Hws by done. simpl.
  destruct (is_sym c) eqn:Hs; [|done]. apply in_set_spec in Hs as [Hs _].
  change (cstr symbols) with [60; 124; 62; 38; 59; 40; 41] in Hs. rewrite !elem_of_cons, elem_of_nil in Hs.
  destruct_or! Hs; by subst.
Qed.

(** A token makes progress, unless the line is at its end. *)
Lemma token_progress s t : at_ buf s t → ∃ tok q eq s' t',
  gettoken buf s = (tok, q, eq, s') ∧ at_ buf s' t' ∧ (tok = 97 → in_line (q, eq)) ∧
  (t = [] ∧ tok = 0 ∧ t' = [] ∨ t ≠ [] ∧ tok ≠ 0 ∧ (length t' < length t)%nat).
Proof.
  intros Ha. destruct t as [|c t].
  { destruct (token_end buf Hnul s Ha) as (q & eq & s' & Ht & Ha'). exists 0, q, eq, s', []. do 3 (split; [done|]). by left. }
  pose proof (dropws_length t) as Hlen.
  destruct (skip_at buf Hnul _ _ Ha) as (_ & Hd & Hdw). destruct (drop_cons buf Hnul _ _ _ Hd) as (_ & _ & _ & Hc0).
  assert (Hws : is_ws c = false).
  { destruct (is_ws c) eqn:Hw; [|done]. simpl in Hdw. rewrite Hw in Hdw. apply (f_equal length) in Hdw. simpl in Hdw. lia. }
  assert (Hgo : ∀ tok q eq s' r, gettoken buf s = (tok, q, eq, s') → at_ buf s' (dropws r) → (tok = 97 → in_line (q, eq)) →
    tok ≠ 0 → (length r < length (c :: t))%nat → ∃ tok q eq s' t', gettoken buf s = (tok, q, eq, s') ∧ at_ buf s' t' ∧
      (tok = 97 → in_line (q, eq)) ∧ (c :: t = [] ∧ tok = 0 ∧ t' = [] ∨ c :: t ≠ [] ∧ tok ≠ 0 ∧ (length t' < length (c :: t))%nat)).
  { intros tok q eq s' r Ht Ha' Hl H0 Hlt. exists tok, q, eq, s', (dropws r). do 3 (split; [done|]). right.
    pose proof (dropws_length r). split; [done|]. split; [done|lia]. }
  destruct (one_byte c) eqn:H1.
  { destruct (token_one buf Hnul s c t Ha H1) as (q & eq & s' & Ht & Ha').
    apply (Hgo c q eq s' t Ht Ha'); [by intros ->|done|simpl; lia]. }
  destruct (Z.eqb_spec c 62) as [->|H62].
  { destruct (Z.eqb_spec (hd 0 t) 62) as [H2|H2].
    - destruct t as [|d t]; [done|]. simpl in H2. subst d. destruct (token_append buf Hnul s t Ha) as (q & eq & s' & Ht & Ha').
      apply (Hgo 43 q eq s' t Ht Ha'); [done|done|simpl; lia].
    - destruct (token_out buf Hnul s t Ha H2) as (q & eq & s' & Ht & Ha'). apply (Hgo 62 q eq s' t Ht Ha'); [done|done|simpl; lia]. }
  destruct (word_prefix c t (plain_word_char c Hc0 Hws H1 H62)) as (w & r & Heq & Hw & Hr). rewrite Heq in Ha.
  destruct (token_word buf Hnul s w r Ha Hw Hr) as (p & s' & Ht & Ha' & (r' & Hdr & Hp & _)).
  apply (Hgo 97 p.1 p.2 s' r Ht Ha'); [|done|].
  - intros _. unfold in_line. simpl. rewrite Hp. apply (f_equal length) in Hdr. rewrite length_drop, length_app in Hdr.
    destruct Hw as [Hw _]. destruct w; [done|]. simpl in *. lia.
  - rewrite Heq, length_app. destruct Hw as [Hw _]. destruct w; [done|]. simpl. lia.
Qed.

Lemma peek_any s t toks : at_ buf s t → ∃ b s', peek buf s toks = (b, s') ∧ at_ buf s' t ∧ (b = true → t ≠ []).
Proof.
  intros Ha. destruct (peek_at buf Hnul s t toks Ha) as (s' & Hp & Ha'). eexists _, s'. split; [exact Hp|].
  split; [done|]. by destruct t.
Qed.

Lemma parseredirs_fine m : ∀ c s t, inside c → at_ buf s t → (length t < m)%nat → fine (length t) (parseredirs buf m c s).
Proof.
  induction m as [|m IH]; intros c s t Hc Ha Hm; [lia|]. cbn [parseredirs].
  destruct (peek_any s t "<>" Ha) as (b & s1 & -> & Ha1 & Hb). destruct b; cbn [negb].
  2:{ simpl. split; [done|]. by exists t. }
  destruct (token_progress s1 t Ha1) as (tok & q & eq & s2 & t2 & -> & Ha2 & _ & [[-> _]|(_ & _ & Hlt)]); [by destruct (Hb eq_refl)|].
  destruct (token_progress s2 t2 Ha2) as (tok2 & q2 & eq2 & s3 & t3 & -> & Ha3 & Hin & Hlt3).
  assert (Hle3 : (length t3 ≤ length t2)%nat) by (destruct Hlt3 as [(-> & _ & ->)|(_ & _ & ?)]; lia).
  destruct (Z.eqb_spec tok2 97) as [E|E]; cbn [negb]; [|done].
  repeat case_match; (apply (fine_le (length t3)); [lia|]; apply IH; [split; [done|by apply Hin]|done|lia]).
Qed.

Lemma set_argv_inside argv c : inside c → Forall in_line argv → (length argv < MAXARGS)%nat → inside (set_argv argv c).
Proof. intros Hc Ha Hl. induction c; simpl in *; try done; destruct Hc; auto. Qed.

Lemma parseargs_fine loops m : ∀ ret argv s t, inside ret → Forall in_line argv → (length argv < MAXARGS)%nat →
  at_ buf s t → (length t < m)%nat → (length buf < loops)%nat → fine (length t) (parseargs buf loops m ret argv s).
Proof.
  induction m as [|m IH]; intros ret argv s t Hret Hargv Hn Ha Hm Hl; [lia|]. cbn [parseargs].
  destruct (peek_any s t "|)&;" Ha) as (b & s1 & -> & Ha1 & _). destruct b.
  { simpl. split; [by apply set_argv_inside|]. by exists t. }
  destruct (token_progress s1 t Ha1) as (tok & q & eq & s2 & t2 & -> & Ha2 & Hin & Hlt).
  destruct (Z.eqb_spec tok 0) as [E|E].
  { simpl. split; [by apply set_argv_inside|]. exists t2. split; [done|]. destruct Hlt as [(-> & _ & ->)|(_ & _ & ?)]; lia. }
  destruct Hlt as [(_ & ? & _)|(_ & _ & Hlt)]; [done|].
  destruct (Z.eqb_spec tok 97) as [E'|E']; cbn [negb]; [|done].
  destruct (Nat.leb_spec MAXARGS (length (argv ++ [(q, eq)]))) as [|Hargc]; [done|].
  pose proof (at_length buf s2 t2 Ha2) as Hlen. pose proof (parseredirs_fine loops ret s2 t2 Hret Ha2 ltac:(lia)) as Hr.
  destruct (parseredirs buf loops ret s2) as [ret' s3| |]; try done. destruct Hr as (Hi & t3 & Ha3 & Hl3).
  apply (fine_le (length t3)); [lia|]. apply IH; try done; [|lia].
  apply Forall_app. split; [done|]. constructor; [by apply Hin|constructor].
Qed.

Lemma parseback_fine m : ∀ c s t, inside c → at_ buf s t → (length t < m)%nat → fine (length t) (parseback buf m c s).
Proof.
  induction m as [|m IH]; intros c s t Hc Ha Hm; [lia|]. cbn [parseback].
  destruct (peek_any s t "&" Ha) as (b & s1 & -> & Ha1 & Hb). destruct b.
  2:{ simpl. split; [done|]. by exists t. }
  destruct (token_progress s1 t Ha1) as (tok & q & eq & s2 & t2 & -> & Ha2 & _ & [[-> _]|(_ & _ & Hlt)]); [by destruct (Hb eq_refl)|].
  apply (fine_le (length t2)); [lia|]. apply IH; [done|done|lia].
Qed.

(** The four functions call each other with a byte less, or in this order. *)
Lemma parse_fine n : ∀ s t, at_ buf s t →
  ((4 * length t + 4 ≤ n)%nat → fine (length t) (parseline buf n s)) ∧
  ((4 * length t + 3 ≤ n)%nat → fine (length t) (parsepipe buf n s)) ∧
  ((4 * length t + 2 ≤ n)%nat → fine (length t) (parseexec buf n s)) ∧
  ((4 * length t + 1 ≤ n)%nat → fine (length t) (parseblock buf n s)).
Proof.
  induction n as [|n IH]; intros s t Ha; [repeat split; lia|].
  pose proof (at_length buf s t Ha) as Hlen.
  split; [|split; [|split]]; intros Hn; cbn [parseline parsepipe parseexec parseblock].
  - pose proof (proj1 (proj2 (IH s t Ha)) ltac:(lia)) as Hp. destruct (parsepipe buf n s) as [c s1| |]; try done.
    destruct Hp as (Hc & t1 & Ha1 & Hl1). pose proof (parseback_fine (rounds buf) c s1 t1 Hc Ha1 ltac:(unfold rounds; lia)) as Hb.
    destruct (parseback buf (rounds buf) c s1) as [c2 s2| |]; try done. destruct Hb as (Hc2 & t2 & Ha2 & Hl2).
    destruct (peek_any s2 t2 ";" Ha2) as (b & s3 & -> & Ha3 & Hb). destruct b; [|simpl; split; [done|]; exists t2; split; [done|lia]].
    destruct (token_progress s3 t2 Ha3) as (tok & q & eq & s4 & t4 & -> & Ha4 & _ & [[-> _]|(_ & _ & Hlt)]); [by destruct (Hb eq_refl)|].
    pose proof (proj1 (IH s4 t4 Ha4) ltac:(lia)) as Hr. destruct (parseline buf n s4) as [c5 s5| |]; try done.
    destruct Hr as (Hc5 & t5 & Ha5 & Hl5). split; [done|]. exists t5. split; [done|lia].
  - pose proof (proj1 (proj2 (proj2 (IH s t Ha))) ltac:(lia)) as Hp. destruct (parseexec buf n s) as [c s1| |]; try done.
    destruct Hp as (Hc & t1 & Ha1 & Hl1).
    destruct (peek_any s1 t1 "|" Ha1) as (b & s3 & -> & Ha3 & Hb). destruct b; [|simpl; split; [done|]; exists t1; split; [done|lia]].
    destruct (token_progress s3 t1 Ha3) as (tok & q & eq & s4 & t4 & -> & Ha4 & _ & [[-> _]|(_ & _ & Hlt)]); [by destruct (Hb eq_refl)|].
    pose proof (proj1 (proj2 (IH s4 t4 Ha4)) ltac:(lia)) as Hr. destruct (parsepipe buf n s4) as [c5 s5| |]; try done.
    destruct Hr as (Hc5 & t5 & Ha5 & Hl5). split; [done|]. exists t5. split; [done|lia].
  - destruct (peek_any s t "(" Ha) as (b & s1 & -> & Ha1 & Hb). destruct b; [apply (IH s1 t Ha1); lia|].
    pose proof (parseredirs_fine (rounds buf) execcmd s1 t) as Hr. 
    destruct (parseredirs buf (rounds buf) execcmd s1) as [ret s2| |];
      (specialize (Hr ltac:(split; [constructor|unfold MAXARGS; simpl; lia]) Ha1 ltac:(unfold rounds; lia))); try done.
    destruct Hr as (Hret & t2 & Ha2 & Hl2). apply (fine_le (length t2)); [done|].
    apply parseargs_fine; [done|constructor|unfold MAXARGS; simpl; lia|done|unfold rounds; lia|unfold rounds; lia].
  - destruct (peek_any s t "(" Ha) as (b & s1 & -> & Ha1 & Hb). destruct b; cbn [negb]; [|done].
    destruct (token_progress s1 t Ha1) as (tok & q & eq & s2 & t2 & -> & Ha2 & _ & [[-> _]|(_ & _ & Hlt)]); [by destruct (Hb eq_refl)|].
    pose proof (proj1 (IH s2 t2 Ha2) ltac:(lia)) as Hr. destruct (parseline buf n s2) as [c3 s3| |]; try done.
    destruct Hr as (Hc3 & t3 & Ha3 & Hl3).
    destruct (peek_any s3 t3 ")" Ha3) as (b' & s4 & -> & Ha4 & Hb'). destruct b'; cbn [negb]; [|done].
    destruct (token_progress s4 t3 Ha4) as (tok' & q' & eq' & s5 & t5 & -> & Ha5 & _ & [[-> _]|(_ & _ & Hlt')]); [by destruct (Hb' eq_refl)|].
    apply (fine_le (length t5)); [lia|]. apply parseredirs_fine; [done|done|unfold rounds; lia].
Qed.

Lemma parsecmd_total : (∃ c b s, parsecmd buf = Got (c, b) s ∧ inside c) ∨ (∃ e, parsecmd buf = Bad e).
Proof.
  assert (Ha : at_ buf 0 (dropws buf)) by (by split; [lia|]).
  pose proof (dropws_length buf) as Hlen. unfold parsecmd.
  pose proof (proj1 (parse_fine (parse_fuel buf) 0%nat _ Ha) ltac:(unfold parse_fuel; lia)) as Hf.
  destruct (parseline buf (parse_fuel buf) 0) as [c s|e|]; [|by right; eexists|done].
  destruct Hf as (Hc & _). destruct (peek buf s EmptyString) as [b s']. case_match; [left|right]; eauto.
Qed.
End total.
