(* ===== verification/ShRun.v ===== *)
(** * user/sh.c: running commands, and the main loop

    runcmd() never returns: it forks, moves descriptors and ends in exec() or
    exit(). Its result is the tree of processes it starts, each with the
    descriptors it has whenever it runs a program, waits for a child or exits. *)

From Stdlib Require Import ZArith Lia.
From stdpp Require Import base numbers gmap strings countable tactics list.
From S2P Require Import Prelude Machine User Ulib Sh ShTheory.

(** Where a process is in the tree: the turns from the root, the last one first. *)
Notation place := (list nat).

(** What a descriptor refers to. A pipe is named by the place of its pipeline. *)
Inductive dest :=
  | Inherited (n : Z)                  (* open when the shell was started *)
  | OpenFile (path : list Z) (mode : Z)
  | ReadEnd (k : place)
  | WriteEnd (k : place).

Notation table := (gmap Z dest).

(** The lowest free descriptor, as the kernel gives it. *)
Definition free_fd (t : table) : option Z := snd <$> list_find (λ fd, t !! fd = None) (seqZ 0 (Z.of_nat NOFILE)).

Inductive tree :=
  | Runs (path : list Z) (argv : list (list Z)) (t : table)   (* exec() succeeds *)
  | Exits (code : Z) (said : list Z) (t : table)              (* after writing [said] to descriptor 2 *)
  | Forks (child : tree) (parent : tree)
  | Waits (t : table) (next : tree).                          (* in wait(0) *)

Section run.
(** Which files open() and exec() accept, and which fork()s succeed. *)
Context (can_open : list Z → Z → bool) (can_exec : list Z → bool) (can_fork : place → bool).

Definition t_dup (fd : Z) (t : table) : table :=
  match t !! fd, free_fd t with
  | Some d, Some n => <[n := d]> t
  | _, _ => t
  end.

(** open(): the new table, or failure. *)
Definition t_open (path : list Z) (mode : Z) (t : table) : option table :=
  if can_open path mode then (λ n, <[n := OpenFile path mode]> t) <$> free_fd t else None.

(** pipe(): the two descriptors, and the new table. *)
Definition t_pipe (k : place) (t : table) : option (Z * Z * table) :=
  match free_fd t with
  | Some p0 =>
      let t := <[p0 := ReadEnd k]> t in
      match free_fd t with
      | Some p1 => Some (p0, p1, <[p1 := WriteEnd k]> t)
      | None => None
      end
  | None => None
  end.

(** panic(s) *)
Definition panics (msg : string) (t : table) : tree := Exits 1 (bytes_of msg ++ [10]) t.

(** fork1() at place [k]: fork(), or panic("fork"). *)
Definition fork1 (k : place) (t : table) (child parent : tree) : tree :=
  if can_fork k then Forks child parent else panics "fork" t.

(** [k] is the place of this process. *)
Fixpoint runcmd (a : ast) (k : place) (t : table) : tree :=
  match a with
  | AExec [] => Exits 1 [] t
  | AExec (path :: args) =>
      if can_exec path then Runs path (path :: args) t
      else Exits 0 (bytes_of "exec " ++ path ++ bytes_of " failed" ++ [10]) t
  | ARedir a file mode fd =>
      let t := delete fd t in
      match t_open file mode t with
      | None => Exits 1 (bytes_of "open " ++ file ++ bytes_of " failed" ++ [10]) t
      | Some t => runcmd a k t
      end
  | AList l r =>
      fork1 (0%nat :: k) t
        (runcmd l (0%nat :: k) t)
        (Waits t (runcmd r (1%nat :: k) t))
  | APipe l r =>
      match t_pipe k t with
      | None => panics "pipe" t
      | Some (p0, p1, t) =>
          fork1 (0%nat :: k) t
            (runcmd l (0%nat :: k) (delete p1 (delete p0 (t_dup p1 (delete 1 t)))))
            (fork1 (1%nat :: k) t
              (runcmd r (1%nat :: k) (delete p1 (delete p0 (t_dup p0 (delete 0 t)))))
              (let t := delete p1 (delete p0 t) in
               Waits t (Waits t (Exits 0 [] t))))
      end
  | ABack a => fork1 (0%nat :: k) t (runcmd a (0%nat :: k) t) (Exits 0 [] t)
  end.
End run.

(** The descriptors of the processes that live on: in a program, or waiting. *)
Fixpoint tables (tr : tree) : list table :=
  match tr with
  | Runs _ _ t => [t]
  | Exits _ _ _ => []
  | Forks c p => tables c ++ tables p
  | Waits t next => t :: tables next
  end.

(** Some of these processes has [d] open. *)
Definition keeps (tr : tree) (d : dest) : Prop := ∃ t fd, t ∈ tables tr ∧ t !! fd = Some d.

(** ** getcmd() and main() *)
Definition SH_BUF : nat := 100.

Definition getcmd (buf : list Z) : U (bool * list Z) :=
  fprintf 2 "$ " [];;
  buf ← gets (memset buf 0 SH_BUF) (Z.of_nat SH_BUF);
  mret (negb (nthZ buf 0 =? 0), buf).

(** One round of the loop: cd is done by the shell itself, anything else by a
    child that runs [runcmd(parsecmd(buf))] and is waited for. [CSpawn] is the
    fork() of that child. *)
Definition sh_round (buf : list Z) : U (list Z + unit) :=
  '(more, buf) ← getcmd buf;
  if negb more then mret (inr tt)
  else if (nthZ buf 0 =? 99) && (nthZ buf 1 =? 100) && (nthZ buf 2 =? 32) then
    let buf := updZ buf (strlen buf - 1) 0 in
    r ← u_other (CChdir (cstr (drop 3 buf)));
    (if r <? 0 then fprintf 2 "cannot cd %s" [AStr (Some (drop 3 buf))];; putc 2 10 else mret tt);;
    mret (inl buf)
  else
    pid ← u_other (CSpawn (cstr buf));
    if pid =? -1 then fprintf 2 "fork" [];; putc 2 10;; uexit 1
    else
      u_other CWait;;
      mret (inl buf).

(** [while((fd = open("console", O_RDWR)) >= 0)]: three descriptors are open. *)
Definition open_std (_ : unit) : U (unit + unit) :=
  fd ← u_other (COpen (bytes_of "console") O_RDWR);
  if fd <? 0 then mret (inr tt)
  else if 3 <=? fd then u_close fd;; mret (inr tt)
  else mret (inl tt).

Definition sh_main (n : nat) : U unit :=
  uloop n open_std tt;;
  uloop n sh_round (replicate SH_BUF 0);;
  uexit 0.

(** ** Descriptors *)

Lemma free_fd_spec (t : table) n : free_fd t = Some n →
  t !! n = None ∧ 0 ≤ n < Z.of_nat NOFILE ∧ ∀ j, 0 ≤ j < n → t !! j ≠ None.
Proof.
  unfold free_fd. intros Hf. apply fmap_Some in Hf as ([i x] & Hf & ->). simpl.
  apply list_find_Some in Hf as (Hx & Hnone & Hbefore). apply lookup_seqZ in Hx as [-> Hi].
  split; [done|]. split; [lia|]. intros j Hj. apply (Hbefore (Z.to_nat j)); [|lia].
  apply lookup_seqZ. lia.
Qed.

Lemma free_fd_lowest (t : table) n : t !! n = None → 0 ≤ n < Z.of_nat NOFILE → (∀ j, 0 ≤ j < n → t !! j ≠ None) →
  free_fd t = Some n.
Proof.
  intros Hn Hr Hj. unfold free_fd.
  rewrite (proj2 (list_find_Some _ _ (Z.to_nat n) n)); [done|]. split; [apply lookup_seqZ; lia|]. split; [done|].
  intros j y [-> Hjr]%lookup_seqZ Hlt. apply Hj. lia.
Qed.

Lemma free_fd_exists (t : table) n : t !! n = None → 0 ≤ n < Z.of_nat NOFILE → ∃ m, free_fd t = Some m ∧ m ≤ n.
Proof.
  intros Hn Hr. unfold free_fd.
  destruct (list_find (λ fd, t !! fd = None) (seqZ 0 (Z.of_nat NOFILE))) as [[i x]|] eqn:Hf.
  - exists x. split; [done|]. apply list_find_Some in Hf as (Hx & _ & Hb). apply lookup_seqZ in Hx as [-> Hi].
    apply Z.nlt_ge. intros Hlt. apply (Hb (Z.to_nat n) n); [apply lookup_seqZ; lia|lia|done].
  - apply list_find_None in Hf. rewrite Forall_forall in Hf. destruct (Hf n); [|done]. apply elem_of_seqZ. lia.
Qed.

(** The standard descriptors are open. *)
Definition std_open (t : table) : Prop := ∀ j, 0 ≤ j < 3 → t !! j ≠ None.

Lemma std_free (t : table) n : std_open t → free_fd t = Some n → 3 ≤ n.
Proof.
  intros Hs (Hn & Hr & _)%free_fd_spec. apply Z.nlt_ge. intros Hlt. apply (Hs n); [lia|done].
Qed.

(** dup() of [fd] right after close(n), for a standard [n]: [fd] now also is [n]. *)
Lemma dup_over (t : table) n fd d : std_open t → 0 ≤ n < 3 → fd ≠ n → t !! fd = Some d →
  t_dup fd (delete n t) = <[n := d]> t.
Proof.
  intros Hs Hn Hne Hd. unfold t_dup. rewrite lookup_delete_ne by done. rewrite Hd.
  rewrite (free_fd_lowest _ n); [by rewrite insert_delete_eq|apply lookup_delete_eq|unfold NOFILE; lia|].
  intros j Hj. rewrite lookup_delete_ne by lia. apply Hs. lia.
Qed.

Lemma open_over can_open (t : table) n path mode : std_open t → 0 ≤ n < 3 → can_open path mode = true →
  t_open can_open path mode (delete n t) = Some (<[n := OpenFile path mode]> t).
Proof.
  intros Hs Hn Hc. unfold t_open. rewrite Hc, (free_fd_lowest _ n); simpl; [by rewrite insert_delete_eq|apply lookup_delete_eq|unfold NOFILE; lia|].
  intros j Hj. rewrite lookup_delete_ne by lia. apply Hs. lia.
Qed.

(** Two free descriptors are enough for pipe(). *)
Lemma pipe_spec k (t : table) n m : std_open t → t !! n = None → t !! m = None → 0 ≤ n < m → m < Z.of_nat NOFILE →
  ∃ p0 p1 t', t_pipe k t = Some (p0, p1, t') ∧ t' = <[p1 := WriteEnd k]> (<[p0 := ReadEnd k]> t) ∧
    3 ≤ p0 ∧ 3 ≤ p1 ∧ p0 ≠ p1 ∧ t !! p0 = None ∧ t !! p1 = None.
Proof.
  intros Hs Hn Hm Hnm Hmr. destruct (free_fd_exists t n Hn ltac:(lia)) as (p0 & Hp0 & Hle).
  pose proof (std_free t p0 Hs Hp0) as H3. destruct (free_fd_spec t p0 Hp0) as (Hf0 & Hr0 & _).
  set (t1 := <[p0 := ReadEnd k]> t).
  destruct (free_fd_exists t1 m) as (p1 & Hp1 & Hle1); [unfold t1; rewrite lookup_insert_ne by lia; done|lia|].
  assert (Hs1 : std_open t1) by (intros j Hj; unfold t1; rewrite lookup_insert_ne by lia; by apply Hs).
  pose proof (std_free t1 p1 Hs1 Hp1) as H31. destruct (free_fd_spec t1 p1 Hp1) as (Hf1 & _ & _). unfold t1 in Hf1.
  assert (Hne : p0 ≠ p1) by (intros ->; by rewrite lookup_insert_eq in Hf1).
  exists p0, p1, (<[p1 := WriteEnd k]> t1). split; [unfold t_pipe; rewrite Hp0; fold t1; by rewrite Hp1|]. split; [done|].
  rewrite lookup_insert_ne in Hf1 by done. done.
Qed.

Section theory.
Context (can_open : list Z → Z → bool) (can_exec : list Z → bool) (can_fork : place → bool).
Notation runs := (runcmd can_open can_exec can_fork).

(** Closing both ends after dup() leaves the table of the shell with one change;
    closing them without dup(), the table itself. *)
Lemma runcmd_pipe l r k (t : table) n m :
  std_open t → t !! n = None → t !! m = None → 0 ≤ n < m → m < Z.of_nat NOFILE →
  ∃ t', runs (APipe l r) k t =
    fork1 can_fork (0%nat :: k) t' (runs l (0%nat :: k) (<[1 := WriteEnd k]> t))
      (fork1 can_fork (1%nat :: k) t' (runs r (1%nat :: k) (<[0 := ReadEnd k]> t)) (Waits t (Waits t (Exits 0 [] t)))).
Proof.
  intros Hs Hn Hm Hnm Hmr. destruct (pipe_spec k t n m Hs Hn Hm Hnm Hmr) as (p0 & p1 & t' & Hp & Ht' & H0 & H1 & Hne & Hf0 & Hf1).
  exists t'. cbn [runcmd]. rewrite Hp.
  assert (Hs' : std_open t') by (intros j Hj; subst t'; rewrite !lookup_insert_ne by lia; by apply Hs).
  rewrite (dup_over t' 1 p1 (WriteEnd k)), (dup_over t' 0 p0 (ReadEnd k)) by
    (done || lia || (subst t'; rewrite ?lookup_insert_eq; try done; rewrite lookup_insert_ne by done; by rewrite lookup_insert_eq)).
  assert (Hback : delete p1 (delete p0 t') = t).
  { subst t'. rewrite delete_insert_ne by done. rewrite !delete_insert_eq. rewrite (delete_id t p0), delete_id; done. }
  assert (Hclean : ∀ (x : Z) d, 0 ≤ x < 3 → delete p1 (delete p0 (<[x := d]> t')) = <[x := d]> t).
  { intros x d Hx. rewrite !delete_insert_ne by lia. by rewrite Hback. }
  cbv zeta. by rewrite Hback, !Hclean by lia.
Qed.

(** A command whose redirections are of the standard descriptors. *)
Fixpoint std_redirs (a : ast) : Prop :=
  match a with
  | AExec _ => True
  | ARedir a _ _ fd => 0 ≤ fd < 3 ∧ std_redirs a
  | APipe l r | AList l r => std_redirs l ∧ std_redirs r
  | ABack a => std_redirs a
  end.

Lemma wf_std_redirs a : wf a → std_redirs a.
Proof. induction a; simpl; try naive_solver. intros [? [_ Hr]]. simpl in Hr. split; [lia|auto]. Qed.

Lemma fork1_tables k t c p tb : tb ∈ tables (fork1 can_fork k t c p) → tb ∈ tables c ∨ tb ∈ tables p.
Proof. unfold fork1. destruct (can_fork k); simpl; [by rewrite elem_of_app|by intros ?%elem_of_nil]. Qed.

Lemma std_insert (t : table) x d : std_open t → std_open (<[x := d]> t).
Proof. intros Hs j Hj. destruct (decide (j = x)) as [->|]; [by rewrite lookup_insert_eq|]. rewrite lookup_insert_ne by done. by apply Hs. Qed.

(** [tb] has the descriptors of [t] from 3 on, and of the pipes only ends that [t]
    has, or of pipes made at place [k] or below. *)
Definition inherits (k : place) (t tb : table) : Prop :=
  (∀ fd, 3 ≤ fd → tb !! fd = t !! fd) ∧
  (∀ fd j, tb !! fd = Some (WriteEnd j) ∨ tb !! fd = Some (ReadEnd j) → k `suffix_of` j ∨ ∃ fd', t !! fd' = tb !! fd).

Lemma inherits_refl k t : inherits k t t.
Proof. split; eauto. Qed.

Lemma inherits_below k i t tb : inherits (i :: k) t tb → inherits k t tb.
Proof.
  intros [H1 H2]. split; [done|]. intros fd j Hj. destruct (H2 fd j Hj) as [?|?]; [left|by right]. by eapply suffix_cons_l.
Qed.

Lemma inherits_insert k t tb x d : 0 ≤ x < 3 → (∀ j, d = WriteEnd j ∨ d = ReadEnd j → k `suffix_of` j) →
  inherits k (<[x := d]> t) tb → inherits k t tb.
Proof.
  intros Hx Hd [H1 H2]. split.
  - intros fd Hfd. by rewrite H1, lookup_insert_ne by lia.
  - intros fd j Hj. destruct (H2 fd j Hj) as [?|[fd' Hfd']]; [by left|]. destruct (decide (fd' = x)) as [->|].
    + rewrite lookup_insert_eq in Hfd'. left. apply Hd. rewrite <- Hfd' in Hj. naive_solver.
    + rewrite lookup_insert_ne in Hfd' by done. eauto.
Qed.

Lemma runcmd_inherits a : ∀ k (t : table) n m tb, std_redirs a →
  std_open t → t !! n = None → t !! m = None → 0 ≤ n < m → m < Z.of_nat NOFILE →
  tb ∈ tables (runs a k t) → inherits k t tb.
Proof.
  assert (Hfree : ∀ (t : table) x d n, std_open t → t !! n = None → 0 ≤ x < 3 → (<[x := d]> t) !! n = None).
  { intros t x d n Hs Hn Hx. rewrite lookup_insert_ne; [done|]. intros ->. by apply (Hs n). }
  induction a as [ws|a IH file mode fd|l IHl r IHr|l IHl r IHr|a IH]; intros k t n m tb Hr Hs Hn Hm Hnm Hmr Htb.
  - cbn [runcmd] in Htb. destruct ws as [|w ws]; [by apply elem_of_nil in Htb|]. destruct (can_exec w); [|by apply elem_of_nil in Htb].
    apply list_elem_of_singleton in Htb as ->. apply inherits_refl.
  - destruct Hr as [Hfd Hr]. cbn [runcmd] in Htb. destruct (can_open file mode) eqn:Hc.
    + rewrite open_over in Htb by done. apply (inherits_insert k t tb fd (OpenFile file mode)); [done|naive_solver|].
      eapply (IH k _ n m); eauto using std_insert.
    + unfold t_open in Htb. rewrite Hc in Htb. by apply elem_of_nil in Htb.
  - destruct Hr as [Hl Hr]. destruct (runcmd_pipe l r k t n m Hs Hn Hm Hnm Hmr) as [t' Hrun]. rewrite Hrun in Htb.
    apply fork1_tables in Htb as [Htb|Htb]; [|apply fork1_tables in Htb as [Htb|Htb]].
    + apply (inherits_insert k t tb 1 (WriteEnd k)); [lia|naive_solver|]. eapply inherits_below, (IHl _ _ n m); eauto using std_insert with lia.
    + apply (inherits_insert k t tb 0 (ReadEnd k)); [lia|naive_solver|]. eapply inherits_below, (IHr _ _ n m); eauto using std_insert with lia.
    + simpl in Htb. rewrite !elem_of_cons, elem_of_nil in Htb. destruct Htb as [->|[->|[]]]; apply inherits_refl.
  - destruct Hr as [Hl Hr]. cbn [runcmd] in Htb. apply fork1_tables in Htb as [Htb|Htb]; [|simpl in Htb; apply elem_of_cons in Htb as [->|Htb]].
    + eapply inherits_below, (IHl _ _ n m); eauto.
    + apply inherits_refl.
    + eapply inherits_below, (IHr _ _ n m); eauto.
  - cbn [runcmd] in Htb. apply fork1_tables in Htb as [Htb|Htb]; [|by apply elem_of_nil in Htb]. eapply inherits_below, (IH _ _ n m); eauto.
Qed.

(** The ends of a new pipe: the read end is not on the left, the write end not on the
    right. *)
Lemma pipe_ends a k i (t : table) x d e n m : std_redirs a → std_open t → t !! n = None → t !! m = None → 0 ≤ n < m → m < Z.of_nat NOFILE →
  0 ≤ x < 3 → d = WriteEnd k ∧ e = ReadEnd k ∨ d = ReadEnd k ∧ e = WriteEnd k → (∀ fd, t !! fd ≠ Some e) →
  ¬ keeps (runs a (i :: k) (<[x := d]> t)) e.
Proof.
  intros Hr Hs Hn Hm Hnm Hmr Hx Hde Ht (tb & fd & Htb & Hfd).
  assert (Hne : ∀ y, t !! y = None → (<[x := d]> t) !! y = None) by (intros y Hy; rewrite lookup_insert_ne; [done|]; intros ->; by apply (Hs y)).
  destruct (runcmd_inherits a (i :: k) (<[x := d]> t) n m tb Hr (std_insert _ _ _ Hs) (Hne n Hn) (Hne m Hm) Hnm Hmr Htb) as [_ Hi].
  assert (Hj : tb !! fd = Some (WriteEnd k) ∨ tb !! fd = Some (ReadEnd k)) by (rewrite Hfd; naive_solver).
  destruct (Hi fd k Hj) as [Hsuf|[fd' Hfd']].
  - apply suffix_length in Hsuf. simpl in Hsuf. lia.
  - rewrite Hfd in Hfd'. destruct (decide (fd' = x)) as [->|]; [rewrite lookup_insert_eq in Hfd'; naive_solver|].
    rewrite lookup_insert_ne in Hfd' by done. by apply (Ht fd').
Qed.
End theory.
