(* ===== verification/Riscv.v ===== *)
(** * The hart: registers, privilege, address translation, instructions

    What the assembly files and kernel/start.c need of the RISC-V architecture.
    A hart has its general registers, its control registers, a privilege mode, a
    program counter, and the physical memory it shares with the C code (the [mem]
    of [kstate]). [translate] reads Sv39 page tables in that memory; [execute] runs one
    instruction and answers [None] when it raises an exception.

    Left out: the TLB (sfence.vma has nothing to do, because translation always
    reads the current tables), the accessed and dirty bits, and MPRV. *)

From Stdlib Require Import ZArith Lia.
From stdpp Require Import base numbers gmap strings countable tactics list.
From S2P Require Import Prelude Machine CString State.

(** ** Registers *)
Inductive reg :=
| zero | ra | sp | gp | tp | t0 | t1 | t2 | s0 | s1
| a0 | a1 | a2 | a3 | a4 | a5 | a6 | a7
| s2 | s3 | s4 | s5 | s6 | s7 | s8 | s9 | s10 | s11
| t3 | t4 | t5 | t6.

Inductive csrname :=
| sstatus | sie | sip | sepc | scause | stval | stvec | satp | sscratch
| mstatus | mie | mip | mepc | mcause | mtval | mtvec | mscratch | mhartid
| medeleg | mideleg | pmpaddr0 | pmpcfg0 | mcounteren | time.

Inductive mode := User | Supervisor | Machine_.

#[global] Instance reg_eq_dec : EqDecision reg.
Proof. solve_decision. Defined.
#[global] Instance csrname_eq_dec : EqDecision csrname.
Proof. solve_decision. Defined.
#[global] Instance mode_eq_dec : EqDecision mode.
Proof. solve_decision. Defined.

Record hart := mkHart {
  h_reg : reg → Z;
  h_csr : csrname → Z;
  h_mode : mode;
  h_pc : Z;
  h_mem : gmap Z Z;
}.

Definition upd {K : Type} `{EqDecision K} (f : K → Z) (k : K) (v : Z) : K → Z :=
  λ k', if decide (k' = k) then v else f k'.

Definition get_reg (h : hart) (r : reg) : Z := if decide (r = zero) then 0 else h_reg h r.
Definition set_reg (r : reg) (v : Z) (h : hart) : hart := mkHart (upd (h_reg h) r v) (h_csr h) (h_mode h) (h_pc h) (h_mem h).
Definition set_hcsr (c : csrname) (v : Z) (h : hart) : hart := mkHart (h_reg h) (upd (h_csr h) c v) (h_mode h) (h_pc h) (h_mem h).
Definition set_mode (x : mode) (h : hart) : hart := mkHart (h_reg h) (h_csr h) x (h_pc h) (h_mem h).
Definition set_pc (x : Z) (h : hart) : hart := mkHart (h_reg h) (h_csr h) (h_mode h) x (h_mem h).
Definition set_hmem (x : gmap Z Z) (h : hart) : hart := mkHart (h_reg h) (h_csr h) (h_mode h) (h_pc h) x.

(** ** Control registers

    sstatus shows the supervisor fields of mstatus; sie and sip show the interrupts
    that mideleg delegates, of which software can set and clear only the
    software interrupt in sip. Interrupts of machine mode cannot be delegated. An
    exception address is even. satp ignores a write that asks for a mode other
    than Bare and Sv39. *)
Definition SSTATUS_FIELDS : Z := 0x80000003000de762.
Definition DELEGABLE : Z := 0x222.

Definition merge (mask old new : Z) : Z := Z.lor (Z.ldiff old mask) (Z.land new mask).

Definition csr_read (h : hart) (c : csrname) : Z :=
  match c with
  | sstatus => Z.land (h_csr h mstatus) SSTATUS_FIELDS
  | sie => Z.land (h_csr h mie) (h_csr h mideleg)
  | sip => Z.land (h_csr h mip) (h_csr h mideleg)
  | _ => h_csr h c
  end.

Definition csr_write (c : csrname) (v : Z) (h : hart) : hart :=
  match c with
  | sstatus => set_hcsr mstatus (merge SSTATUS_FIELDS (h_csr h mstatus) v) h
  | sie => set_hcsr mie (merge (h_csr h mideleg) (h_csr h mie) v) h
  | sip => set_hcsr mip (merge (Z.land (h_csr h mideleg) 2) (h_csr h mip) v) h
  | sepc | mepc => set_hcsr c (Z.ldiff v 1) h
  | mideleg => set_hcsr c (Z.land v DELEGABLE) h
  | satp => if (Z.shiftr v 60 =? 0) || (Z.shiftr v 60 =? 8) then set_hcsr c v h else h
  | _ => set_hcsr c v h
  end.

(** The lowest mode that may access a register. *)
Definition csr_mode (c : csrname) : mode :=
  match c with
  | time => User
  | sstatus | sie | sip | sepc | scause | stval | stvec | satp | sscratch => Supervisor
  | _ => Machine_
  end.

Definition mode_rank (m : mode) : Z :=
  match m with User => 0 | Supervisor => 1 | Machine_ => 3 end.
Definition may_read (h : hart) (c : csrname) : bool := mode_rank (csr_mode c) <=? mode_rank (h_mode h).
Definition may_write (h : hart) (c : csrname) : bool :=
  may_read h c && negb (bool_decide (c = mhartid ∨ c = time)).

(** ** Address translation *)
Inductive access := Fetch | Load | Store.

#[global] Instance access_eq_dec : EqDecision access.
Proof. solve_decision. Defined.

Definition bit (v k : Z) : bool := Z.testbit v k.
Definition pte_ppn (v : Z) : Z := Z.shiftr v 10 mod 2 ^ 44.

(** The Sv39 walk: the leaf entry of [va] and the level it was found at. An entry
    that is writable and not readable is reserved. *)
Fixpoint hw_walk (m : gmap Z Z) (va : Z) (levels : list Z) (table : Z) : option (Z * Z) :=
  match levels with
  | [] => None
  | l :: levels =>
      let v := load64 m (table + 8 * PX l va) in
      if negb (bit v 0) || (bit v 2 && negb (bit v 1)) then None
      else if bit v 1 || bit v 3 then Some (v, l)
      else hw_walk m va levels (pte_ppn v * PGSIZE)
  end.

(** Bits 18 (SUM) and 19 (MXR) of mstatus: supervisor loads and stores on user
    pages, loads from executable pages. *)
Definition allowed (h : hart) (acc : access) (v : Z) : bool :=
  (match acc with
   | Fetch => bit v 3
   | Load => bit v 1 || (bit (h_csr h mstatus) 19 && bit v 3)
   | Store => bit v 2
   end) &&
  (match h_mode h with
   | User => bit v 4
   | Supervisor => negb (bit v 4) || (bit (h_csr h mstatus) 18 && negb (bool_decide (acc = Fetch)))
   | Machine_ => true
   end).

Definition canonical (va : Z) : bool := (va <? 2 ^ 38) || (2 ^ 64 - 2 ^ 38 <=? va).

Definition satp_root (v : Z) : Z := v mod 2 ^ 44 * PGSIZE.

(** The address that the entry [v] of level [l] gives to [va]. *)
Definition resolve (h : hart) (acc : access) (va : Z) (e : Z * Z) : option Z :=
  let '(v, l) := e in
  let page := pte_ppn v * PGSIZE in
  let size := 2 ^ (12 + 9 * l) in
  if allowed h acc v && (page mod size =? 0) then Some (page + va mod size) else None.

Definition translate (h : hart) (acc : access) (va : Z) : option Z :=
  if bool_decide (h_mode h = Machine_) || (Z.shiftr (h_csr h satp) 60 =? 0) then Some va
  else if canonical va then hw_walk (h_mem h) va [2; 1; 0] (satp_root (h_csr h satp)) ≫= resolve h acc va
  else None.

(** ** Instructions

    Those of the assembly files, pseudo-instructions of the assembler included;
    symbols are addresses. *)
Inductive instr :=
| Sd (rs : reg) (off : Z) (rb : reg)
| Ld (rd : reg) (off : Z) (rb : reg)
| Addi (rd rs : reg) (imm : Z)
| Add (rd rs1 rs2 : reg)
| Mul (rd rs1 rs2 : reg)
| Li (rd : reg) (imm : Z)
| La (rd : reg) (sym : Z)
| Csrrw (rd : reg) (c : csrname) (rs : reg)
| Csrr (rd : reg) (c : csrname)
| Csrw (c : csrname) (rs : reg)
| Sfence_vma
| Jr (rs : reg)
| Ret
| Call (sym : Z)
| J (sym : Z)
| Sret
| Mret.

Definition set_bit (v k : Z) (b : bool) : Z := if b then Z.setbit v k else Z.clearbit v k.

(** sret: to the mode and interrupt state that the trap had saved. *)
Definition sret (h : hart) : hart :=
  let st := h_csr h mstatus in
  let h1 := set_hcsr mstatus (set_bit (set_bit (set_bit st 1 (bit st 5)) 5 true) 8 false) h in
  set_pc (h_csr h sepc) (set_mode (if bit st 8 then Supervisor else User) h1).

(** mret: the field MPP is bits 11 and 12. *)
Definition mpp (st : Z) : mode := if negb (bit st 11) then User else if bit st 12 then Machine_ else Supervisor.
Definition mret_ (h : hart) : hart :=
  let st := h_csr h mstatus in
  let h1 := set_hcsr mstatus (set_bit (set_bit (set_bit (set_bit st 3 (bit st 7)) 7 true) 11 false) 12 false) h in
  set_pc (h_csr h mepc) (set_mode (mpp st) h1).

Definition guard_ (b : bool) (h : hart) : option hart := if b then Some h else None.

(** What an instruction that goes on to the next one does, besides moving the
    program counter; [None] for a jump, and when an exception is raised. *)
Definition effect (i : instr) (h : hart) : option hart :=
  let x := get_reg h in
  match i with
  | Sd rs off rb =>
      let va := u64 (x rb + off) in
      if negb (va mod 8 =? 0) then None
      else pa ← translate h Store va; Some (set_hmem (store64 (h_mem h) pa (x rs)) h)
  | Ld rd off rb =>
      let va := u64 (x rb + off) in
      if negb (va mod 8 =? 0) then None
      else pa ← translate h Load va; Some (set_reg rd (load64 (h_mem h) pa) h)
  | Addi rd rs imm => Some (set_reg rd (u64 (x rs + imm)) h)
  | Add rd rs1 rs2 => Some (set_reg rd (u64 (x rs1 + x rs2)) h)
  | Mul rd rs1 rs2 => Some (set_reg rd (u64 (x rs1 * x rs2)) h)
  | Li rd imm => Some (set_reg rd (u64 imm) h)
  | La rd sym => Some (set_reg rd (u64 sym) h)
  | Csrrw rd c rs => guard_ (may_write h c) (set_reg rd (csr_read h c) (csr_write c (x rs) h))
  | Csrr rd c => guard_ (may_read h c) (set_reg rd (csr_read h c) h)
  | Csrw c rs => guard_ (may_write h c) (csr_write c (x rs) h)
  | Sfence_vma => guard_ (negb (bool_decide (h_mode h = User))) h
  | Jr _ | Ret | Call _ | J _ | Sret | Mret => None
  end.

(** [w] is the size of the instruction in bytes. *)
Definition execute (i : instr) (w : Z) (h : hart) : option hart :=
  let next := u64 (h_pc h + w) in
  match i with
  | Jr rs => Some (set_pc (get_reg h rs) h)
  | Ret => Some (set_pc (get_reg h ra) h)
  | Call sym => Some (set_pc (u64 sym) (set_reg ra next h))
  | J sym => Some (set_pc (u64 sym) h)
  | Sret => guard_ (mode_rank Supervisor <=? mode_rank (h_mode h)) (sret h)
  | Mret => guard_ (mode_rank Machine_ <=? mode_rank (h_mode h)) (mret_ h)
  | _ => h' ← effect i h; Some (set_pc next h')
  end.

(** ** Traps

    [cause] is the value of the cause register: bit 63 is set for an interrupt. A
    trap from a mode below machine mode goes to supervisor mode when it is
    delegated. *)
Definition delegated (h : hart) (cause : Z) : bool :=
  negb (bool_decide (h_mode h = Machine_)) &&
  (if bit cause 63 then bit (h_csr h mideleg) (cause mod 64) else bit (h_csr h medeleg) (cause mod 64)).

Definition trap_s (cause tval : Z) (h : hart) : hart :=
  let st := h_csr h mstatus in
  let st' := set_bit (set_bit (set_bit st 5 (bit st 1)) 1 false) 8 (bool_decide (h_mode h = Supervisor)) in
  set_pc (Z.ldiff (h_csr h stvec) 3) (set_mode Supervisor
    (set_hcsr mstatus st' (set_hcsr stval tval (set_hcsr scause cause (set_hcsr sepc (h_pc h) h))))).

Definition trap_m (cause tval : Z) (h : hart) : hart :=
  let st := h_csr h mstatus in
  let st1 := set_bit (set_bit st 7 (bit st 3)) 3 false in
  let st' := set_bit (set_bit st1 11 (negb (bool_decide (h_mode h = User)))) 12 (bool_decide (h_mode h = Machine_)) in
  set_pc (Z.ldiff (h_csr h mtvec) 3) (set_mode Machine_
    (set_hcsr mstatus st' (set_hcsr mtval tval (set_hcsr mcause cause (set_hcsr mepc (h_pc h) h))))).

Definition trap (cause tval : Z) (h : hart) : hart :=
  if delegated h cause then trap_s cause tval h else trap_m cause tval h.

(** ** Running code

    Where the linker put which instruction, and its size; kernel text is never
    written. *)
Class Text := { code : Z → option (instr * Z) }.

Section run.
Context `{Text}.

Definition step (h : hart) : option hart :=
  pa ← translate h Fetch (h_pc h);
  '(i, w) ← code pa;
  execute i w h.

Fixpoint steps (n : nat) (h : hart) : option hart :=
  match n with
  | O => Some h
  | S n => h' ← step h; steps n h'
  end.

(** The instructions [l] lie one after the other from the physical address
    [pa], and take at most 8 bytes each. *)
Fixpoint placed (pa : Z) (l : list instr) : Prop :=
  match l with
  | [] => True
  | i :: l => ∃ w, code pa = Some (i, w) ∧ 2 ≤ w ≤ 8 ∧ placed (pa + w) l
  end.
End run.

#[global] Arguments translate : simpl never.
#[global] Arguments csr_read : simpl never.
#[global] Arguments csr_write : simpl never.
#[global] Arguments may_read : simpl never.
#[global] Arguments may_write : simpl never.
#[global] Arguments get_reg : simpl never.
#[global] Arguments set_reg : simpl never.
#[global] Arguments set_hcsr : simpl never.
#[global] Arguments merge : simpl never.
#[global] Arguments bit : simpl never.
#[global] Arguments set_bit : simpl never.
#[global] Arguments Z.modulo : simpl never.
#[global] Arguments Z.shiftr : simpl never.
#[global] Arguments resolve : simpl never.
#[global] Arguments PGSIZE : simpl never.
