(* ===== verification/RiscvTheory.v ===== *)
(** * Running straight-line code

    [runs]: a block of instructions goes through, fetched from a range of virtual
    addresses that translates to the place where the linker put it. Blocks that
    save registers to an area of memory and load them back. *)

From Stdlib Require Import ZArith Lia.
From stdpp Require Import base numbers gmap strings countable tactics list.
From S2P Require Import Prelude Machine CString State Riscv.

(** The virtual addresses from [va] are the physical ones from [pa]. *)
Definition fetchable (h : hart) (va pa n : Z) : Prop :=
  ∀ o, 0 ≤ o < n → translate h Fetch (va + o) = Some (pa + o).

(** Words in an area of [n] bytes at the virtual address [va] can be read and
    written, at the physical address [pa]. *)
Definition area (h : hart) (va pa n : Z) : Prop :=
  va mod 8 = 0 ∧ 0 ≤ va ∧ va + n ≤ 2 ^ 64 ∧
  ∀ o, 0 ≤ o < n → translate h Load (va + o) = Some (pa + o) ∧ translate h Store (va + o) = Some (pa + o).

(** Translation does not depend on what these bytes hold. *)
Definition frozen (h : hart) (pa n : Z) : Prop :=
  ∀ m', (∀ a, ¬ (pa ≤ a < pa + n) → load8 m' a = load8 (h_mem h) a) →
    ∀ acc va, translate (set_hmem m' h) acc va = translate h acc va.

Inductive runs (va pa n : Z) : list instr → hart → hart → Prop :=
| runs_nil h : runs va pa n [] h h
| runs_cons i l h h1 h2 :
    fetchable h va pa n → effect i h = Some h1 → runs va pa n l h1 h2 → runs va pa n (i :: l) h h2.

(** Saving and loading a table of registers. *)
Definition saves (rb : reg) (tbl : list (reg * Z)) : list instr := (λ e, Sd e.1 e.2 rb) <$> tbl.
Definition loads (rb : reg) (tbl : list (reg * Z)) : list instr := (λ e, Ld e.1 e.2 rb) <$> tbl.

Definition save_mem (x : reg → Z) (pa : Z) (tbl : list (reg * Z)) (m : gmap Z Z) : gmap Z Z :=
  foldl (λ m e, store64 m (pa + e.2) (x e.1)) m tbl.
Definition load_regs (m : gmap Z Z) (pa : Z) (tbl : list (reg * Z)) (h : hart) : hart :=
  foldl (λ h e, set_reg e.1 (load64 m (pa + e.2)) h) h tbl.

(** A table: words at distinct places of an area of [n] bytes. *)
Definition table_ok (n : Z) (tbl : list (reg * Z)) : Prop :=
  NoDup tbl.*2 ∧ Forall (λ e : reg * Z, 0 ≤ e.2 ∧ e.2 + 8 ≤ n ∧ e.2 mod 8 = 0) tbl.

(** ** Registers and the parts of a hart *)
Lemma get_set_reg r v h r' :
  get_reg (set_reg r v h) r' = if decide (r' = zero) then 0 else if decide (r' = r) then v else get_reg h r'.
Proof. unfold get_reg, set_reg, upd. simpl. by destruct (decide (r' = zero)). Qed.

Lemma get_set_reg_ne r v h r' : r' ≠ r → get_reg (set_reg r v h) r' = get_reg h r'.
Proof. intros. rewrite get_set_reg. unfold get_reg. repeat case_decide; done. Qed.

Lemma get_set_reg_eq r v h : r ≠ zero → get_reg (set_reg r v h) r = v.
Proof. intros. rewrite get_set_reg. by rewrite decide_False, decide_True. Qed.

Lemma bit_set_eq v k b : 0 ≤ k → bit (set_bit v k b) k = b.
Proof. intros. unfold bit, set_bit. destruct b; [by apply Z.setbit_eq|apply Z.clearbit_eq]. Qed.

Lemma bit_set_ne v k b j : 0 ≤ k → j ≠ k → bit (set_bit v k b) j = bit v j.
Proof. intros. unfold bit, set_bit. destruct b; [by apply Z.setbit_neq|by apply Z.clearbit_neq]. Qed.

(** Translation looks at the mode, satp, mstatus and memory. *)
Lemma translate_ext h h' acc va :
  h_mode h' = h_mode h → h_csr h' satp = h_csr h satp → h_csr h' mstatus = h_csr h mstatus → h_mem h' = h_mem h →
  translate h' acc va = translate h acc va.
Proof.
  intros Hm Hs Ht He. unfold translate. rewrite Hm, Hs, He. destruct (_ || _); [done|]. destruct (canonical va); [|done].
  destruct (hw_walk _ _ _ _) as [[v l]|]; [|done]. simpl. unfold resolve, allowed. by rewrite Hm, Ht.
Qed.

Lemma translate_set_reg r v h acc va : translate (set_reg r v h) acc va = translate h acc va.
Proof. by apply translate_ext. Qed.

Lemma translate_set_pc x h acc va : translate (set_pc x h) acc va = translate h acc va.
Proof. by apply translate_ext. Qed.

Lemma fetchable_ext h h' va pa n :
  (∀ acc v, translate h' acc v = translate h acc v) → fetchable h va pa n → fetchable h' va pa n.
Proof. intros He Hf o Ho. rewrite He. by apply Hf. Qed.

Lemma area_ext h h' va pa n :
  (∀ acc v, translate h' acc v = translate h acc v) → area h va pa n → area h' va pa n.
Proof. intros He (H1 & H2 & H3 & H4). split_and!; try done. intros o Ho. rewrite !He. by apply H4. Qed.

Lemma frozen_ext h h' pa n :
  h_mode h' = h_mode h → h_csr h' satp = h_csr h satp → h_csr h' mstatus = h_csr h mstatus → h_mem h' = h_mem h →
  frozen h pa n → frozen h' pa n.
Proof.
  intros Hm Hs Ht He Hf m' Ho acc va. rewrite (translate_ext h h') by done.
  rewrite <- (Hf m') by (by rewrite <- He). by apply translate_ext.
Qed.

(** ** From a block to steps *)
Lemma csr_write_pc c v x h : csr_write c v (set_pc x h) = set_pc x (csr_write c v h).
Proof. destruct c; try reflexivity. unfold csr_write. by destruct (_ || _). Qed.

Lemma effect_pc i x h : effect i (set_pc x h) = set_pc x <$> effect i h.
Proof.
  destruct i; try reflexivity; unfold effect; rewrite ?csr_write_pc, ?translate_set_pc.
  - change (get_reg (set_pc x h)) with (get_reg h). destruct (negb _); [reflexivity|]. by destruct (translate h Store _).
  - change (get_reg (set_pc x h)) with (get_reg h). destruct (negb _); [reflexivity|]. by destruct (translate h Load _).
  - change (may_write (set_pc x h) c) with (may_write h c). by destruct (may_write h c).
  - change (may_read (set_pc x h) c) with (may_read h c). by destruct (may_read h c).
  - change (may_write (set_pc x h) c) with (may_write h c). by destruct (may_write h c).
  - change (h_mode (set_pc x h)) with (h_mode h). by destruct (negb _).
Qed.

Section steps.
Context `{Text}.

Lemma step_effect i w h h' pa :
  translate h Fetch (h_pc h) = Some pa → code pa = Some (i, w) → effect i h = Some h' →
  step h = Some (set_pc (u64 (h_pc h + w)) h').
Proof.
  intros Ht Hc He. unfold step. rewrite Ht. simpl. rewrite Hc. simpl. unfold execute.
  destruct i; try (by rewrite He); done.
Qed.

Lemma runs_pc va pa n l h h' x : runs va pa n l h h' → runs va pa n l (set_pc x h) (set_pc x h').
Proof.
  induction 1 as [h|i l h h1 h2 Hf He Hr IH]; [constructor|].
  econstructor; [|rewrite effect_pc, He; done|exact IH].
  eapply fetchable_ext; [|exact Hf]. intros. apply translate_set_pc.
Qed.

Lemma steps_app n1 n2 h h' : steps n1 h = Some h' → steps (n1 + n2) h = steps n2 h'.
Proof.
  revert h. induction n1 as [|n1 IH]; intros h; simpl; [by intros [= ->]|].
  destruct (step h) as [h1|]; simpl; [apply IH|done].
Qed.

(** The block runs, and leaves the program counter behind it. *)
Lemma runs_steps va pa n l rest h h' o :
  runs va pa n l h h' → placed (pa + o) (l ++ rest) → h_pc h = va + o → 0 ≤ va → va + n < 2 ^ 64 →
  0 ≤ o → o + 8 * Z.of_nat (length l) ≤ n →
  ∃ o', o ≤ o' ≤ o + 8 * Z.of_nat (length l) ∧ placed (pa + o') rest ∧
    steps (length l) h = Some (set_pc (va + o') h').
Proof.
  revert h h' o. induction l as [|i l IH]; intros h h' o Hr Hp Hpc Hva Hn Ho Hlen; inversion Hr as [|? ? ? h1 ? Hf He Hr1]; subst.
  - exists o. split; [simpl; lia|]. split; [done|]. simpl. rewrite <- Hpc. by destruct h'.
  - simpl in Hp, Hlen. destruct Hp as (w & Hc & Hw & Hp). rewrite <- Z.add_assoc in Hp.
    apply (runs_pc _ _ _ _ _ _ (va + (o + w))) in Hr1.
    destruct (IH _ _ (o + w) Hr1 Hp) as (o' & Ho' & Hp2 & Hs); try done; try lia.
    exists o'. split; [simpl; lia|]. split; [done|]. simpl.
    rewrite (step_effect i w h h1 (pa + o)); [|rewrite Hpc; apply Hf; lia|done|done]. simpl.
    rewrite Hpc, u64_small by lia. by rewrite <- Z.add_assoc.
Qed.
End steps.

(** ** Saving registers *)
Lemma table_ok_tail n e tbl : table_ok n (e :: tbl) → table_ok n tbl.
Proof. intros [Hn Hf]. apply NoDup_cons in Hn as [_ Hn]. by apply Forall_cons in Hf as [_ Hf]. Qed.

Lemma table_ok_in n tbl r o : table_ok n tbl → (r, o) ∈ tbl → 0 ≤ o ∧ o + 8 ≤ n ∧ o mod 8 = 0.
Proof. intros [_ Hf] Hin. exact (proj1 (Forall_forall _ _) Hf _ Hin). Qed.

(** The address of a word of the area, as an instruction computes it. *)
Lemma area_word h va pa n o : area h va pa n → 0 ≤ o → o + 8 ≤ n → o mod 8 = 0 →
  (u64 (va + o) mod 8 =? 0) = true ∧ u64 (va + o) = va + o.
Proof.
  intros (Ha & H0 & Hn & _) Ho Hle Hm. rewrite u64_small by lia. split; [|done].
  apply Z.eqb_eq. Z.div_mod_to_equations. lia.
Qed.

Lemma frozen_store h pa n o v : frozen h pa n → 0 ≤ o → o + 8 ≤ n →
  frozen (set_hmem (store64 (h_mem h) (pa + o) v) h) pa n ∧
  ∀ acc va, translate (set_hmem (store64 (h_mem h) (pa + o) v) h) acc va = translate h acc va.
Proof.
  intros Hf Ho Hle.
  assert (Hout : ∀ a, ¬ (pa ≤ a < pa + n) → load8 (store64 (h_mem h) (pa + o) v) a = load8 (h_mem h) a)
    by (intros a Ha; apply load8_store64_ne; lia).
  split; [|by apply Hf]. intros m' Hm acc va. simpl in *.
  rewrite (Hf _ Hout). change (set_hmem m' (set_hmem _ h)) with (set_hmem m' h).
  apply Hf. intros a Ha. by rewrite Hm, Hout.
Qed.

Lemma save_runs va pa n rb ba bn tbl h :
  fetchable h va pa n → area h (get_reg h rb) ba bn → frozen h ba bn → table_ok bn tbl →
  runs va pa n (saves rb tbl) h (set_hmem (save_mem (get_reg h) ba tbl (h_mem h)) h).
Proof.
  revert h. induction tbl as [|[r o] tbl IH]; intros h Hf Ha Hz Ht.
  - simpl. replace (set_hmem (h_mem h) h) with h by (by destruct h). constructor.
  - destruct (table_ok_in _ _ r o Ht ltac:(left)) as (Ho & Hle & Hm).
    destruct (area_word _ _ _ _ _ Ha Ho Hle Hm) as [Hal Hu].
    destruct (frozen_store h ba bn o (get_reg h r) Hz Ho Hle) as [Hz' He].
    set (h1 := set_hmem (store64 (h_mem h) (ba + o) (get_reg h r)) h) in *.
    refine (runs_cons va pa n (Sd r o rb) (saves rb tbl) h h1 _ Hf _ (IH h1 _ _ Hz' _));
      [|by eapply fetchable_ext|by eapply area_ext|by eapply table_ok_tail].
    simpl. rewrite Hal, Hu. simpl. destruct Ha as (_ & _ & _ & Ha). rewrite (proj2 (Ha o ltac:(lia))). done.
Qed.

Lemma save_mem_cons x pa r o tbl m : save_mem x pa ((r, o) :: tbl) m = save_mem x pa tbl (store64 m (pa + o) (x r)).
Proof. done. Qed.

Lemma save_mem_outside x pa n tbl m a : table_ok n tbl → ¬ (pa ≤ a < pa + n) → load8 (save_mem x pa tbl m) a = load8 m a.
Proof.
  revert m. induction tbl as [|[r o] tbl IH]; intros m Ht Ha; [done|].
  rewrite save_mem_cons, IH by (done || by eapply table_ok_tail). destruct (table_ok_in _ _ r o Ht ltac:(left)).
  apply load8_store64_ne. lia.
Qed.

Lemma save_mem_other x pa n tbl m o : table_ok n tbl → o mod 8 = 0 → o ∉ tbl.*2 →
  load64 (save_mem x pa tbl m) (pa + o) = load64 m (pa + o).
Proof.
  revert m. induction tbl as [|[r o'] tbl IH]; intros m Ht Hm Hn; [done|]. simpl in Hn. rewrite save_mem_cons.
  apply not_elem_of_cons in Hn as [Hne Hn]. rewrite IH by (done || by eapply table_ok_tail).
  destruct (table_ok_in _ _ r o' Ht ltac:(left)) as (_ & _ & Hm'). apply load64_store64_ne.
  Z.div_mod_to_equations. lia.
Qed.

Lemma save_mem_in x pa n tbl m r o : table_ok n tbl → (r, o) ∈ tbl → 0 ≤ x r < 2 ^ 64 →
  load64 (save_mem x pa tbl m) (pa + o) = x r.
Proof.
  revert m. induction tbl as [|[r' o'] tbl IH]; intros m Ht Hin Hx; [by apply elem_of_nil in Hin|].
  pose proof (table_ok_tail _ _ _ Ht) as Ht'. destruct (table_ok_in _ _ _ _ Ht Hin) as (_ & _ & Hm).
  apply elem_of_cons in Hin as [[= <- <-]|Hin]; rewrite save_mem_cons.
  - destruct Ht as [Hnd _]. apply NoDup_cons in Hnd as [Hnd _].
    rewrite (save_mem_other x pa n tbl) by done. by apply load64_store64.
  - by apply IH.
Qed.

(** ** Loading registers *)
Lemma load_runs va pa n rb ba bn tbl h :
  fetchable h va pa n → area h (get_reg h rb) ba bn → table_ok bn tbl →
  (∀ o, (rb, o) ∈ tbl → load64 (h_mem h) (ba + o) = get_reg h rb) →
  runs va pa n (loads rb tbl) h (load_regs (h_mem h) ba tbl h).
Proof.
  revert h. induction tbl as [|[r o] tbl IH]; intros h Hf Ha Ht Hrb; [constructor|].
  destruct (table_ok_in _ _ r o Ht ltac:(left)) as (Ho & Hle & Hm).
  destruct (area_word _ _ _ _ _ Ha Ho Hle Hm) as [Hal Hu].
  set (h1 := set_reg r (load64 (h_mem h) (ba + o)) h).
  assert (Hsame : get_reg h1 rb = get_reg h rb).
  { unfold h1. rewrite get_set_reg. unfold get_reg at 1. destruct (decide (rb = zero)) as [->|]; [done|].
    destruct (decide (rb = r)) as [->|]; [|unfold get_reg; by rewrite decide_False]. apply Hrb. left. }
  refine (runs_cons va pa n (Ld r o rb) (loads rb tbl) h h1 _ Hf _ (IH h1 _ _ _ _)).
  - simpl. rewrite Hal, Hu. simpl. destruct Ha as (_ & _ & _ & Ha). by rewrite (proj1 (Ha o ltac:(lia))).
  - eapply fetchable_ext; [|exact Hf]. intros. apply translate_set_reg.
  - rewrite Hsame. eapply area_ext; [|exact Ha]. intros. apply translate_set_reg.
  - by eapply table_ok_tail.
  - intros o' Hin. rewrite Hsame. apply Hrb. by right.
Qed.

Lemma load_regs_parts m pa tbl h : let h' := load_regs m pa tbl h in
  h_csr h' = h_csr h ∧ h_mode h' = h_mode h ∧ h_pc h' = h_pc h ∧ h_mem h' = h_mem h.
Proof. revert h. induction tbl as [|[r o] tbl IH]; intros h; [done|]. apply (IH (set_reg r _ h)). Qed.

Lemma runs_app va pa n l1 l2 h h1 h2 : runs va pa n l1 h h1 → runs va pa n l2 h1 h2 → runs va pa n (l1 ++ l2) h h2.
Proof. induction 1; intros; [done|]. econstructor; eauto. Qed.
