(* ===== verification/Sv39.v ===== *)
(** * What the hart sees of a page table

    A page table that walk() and mappages() built ([pt_rep], [leaf]) read by the
    hardware: the translation of an address is the one its leaf entry says, and it
    depends on the tables only. *)

From Stdlib Require Import ZArith Lia.
From stdpp Require Import base numbers gmap strings countable tactics list.
From S2P Require Import Prelude Machine CString State Spinlock Kalloc Vm VmTheory VmMap VmUser Riscv RiscvTheory.

(** What the walk answers for a leaf entry. *)
Definition hw_leaf (v : Z) : option (Z * Z) :=
  if negb (bit v 0) || (bit v 2 && negb (bit v 1)) then None
  else if bit v 1 || bit v 3 then Some (v, 0) else None.

Section sv39.
Context `{EnvOk}.

(** The hart translates through the page table at [root]. *)
Record paged (h : hart) (root : Z) (T : gmap (list Z) Z) : Prop := {
  pg_mode : h_mode h ≠ Machine_;
  pg_satp : h_csr h satp = MAKE_SATP root;
  pg_rep : pt_rep (h_mem h) root T;
}.

(** The virtual page [vp] is the physical page [pp], with permissions [perm]. *)
Definition maps (m : gmap Z Z) (T : gmap (list Z) Z) (vp pp perm : Z) : Prop :=
  leaf m T vp = new_pte pp perm ∧ vp mod PGSIZE = 0 ∧ 0 ≤ vp < MAXVA ∧ pp mod PGSIZE = 0 ∧ 0 ≤ pp < 2 ^ 56.

(** No table lies in these bytes. *)
Definition clear_of (T : gmap (list Z) Z) (pa n : Z) : Prop :=
  ∀ p, is_table T p → p + PGSIZE ≤ pa ∨ pa + n ≤ p.

(** ** Bits of entries *)
Lemma pack_bit pa f k : 0 ≤ pa < 2 ^ 56 → 0 ≤ k < 10 → bit (Z.lor (PA2PTE pa) f) k = bit f k.
Proof.
  intros Hpa Hk. unfold bit. rewrite Z.lor_spec, PA2PTE_eq by done.
  change 1024 with (2 ^ 10). rewrite <- Z.shiftl_mul_pow2, Z.shiftl_spec_low by lia. done.
Qed.

Lemma pack_ppn pa f : 0 ≤ pa < 2 ^ 56 → pa mod PGSIZE = 0 → 0 ≤ f < 1024 → pte_ppn (Z.lor (PA2PTE pa) f) * PGSIZE = pa.
Proof.
  intros Hpa Hal Hf. unfold pte_ppn. rewrite pte_pack_eq, Z.shiftr_div_pow2 by (done || lia).
  unfold PGSIZE in *. revert Hpa Hal Hf. pow2. intros. Z.div_mod_to_equations. lia.
Qed.

Lemma land_bit0 v : Z.land v PTE_V = 0 → bit v 0 = false.
Proof.
  intros Hl. unfold bit. destruct (Z.testbit v 0) eqn:Hb; [|done].
  assert (Z.testbit (Z.land v PTE_V) 0 = true) as Ht by (by rewrite Z.land_spec, Hb). by rewrite Hl in Ht.
Qed.

Lemma satp_fields root : page_ok root → Z.shiftr (MAKE_SATP root) 60 = 8 ∧ satp_root (MAKE_SATP root) = root.
Proof.
  intros Hr. pose proof (page_ok_bounds root Hr) as (Hb0 & Hb1 & Hb2). destruct Hr as [Hal _].
  assert (He : MAKE_SATP root = 2 ^ 63 + root / PGSIZE).
  { unfold MAKE_SATP, SATP_SV39. rewrite Z.shiftr_div_pow2 by lia. change (2 ^ 12) with PGSIZE.
    change (Z.shiftl 8 60) with (Z.shiftl (2 ^ 3) 60).
    assert (Hd : Z.land (Z.shiftl (2 ^ 3) 60) (root / PGSIZE) = 0).
    { apply Z.bits_inj'. intros n Hn. rewrite Z.land_spec, Z.bits_0.
      destruct (Z.ltb_spec n 60).
      - by rewrite Z.shiftl_spec_low by lia.
      - rewrite <- (Z.mod_small (root / PGSIZE) (2 ^ 60)) by (unfold PGSIZE; revert Hb2; pow2; intros; Z.div_mod_to_equations; lia).
        rewrite Z.mod_pow2_bits_high by lia. apply andb_false_r. }
    rewrite <- Z.lxor_lor, <- Z.add_nocarry_lxor by done. done. }
  rewrite He. unfold satp_root. rewrite Z.shiftr_div_pow2 by lia. unfold PGSIZE in *. revert Hb2. pow2. intros.
  split; Z.div_mod_to_equations; lia.
Qed.

(** ** The walk *)
Lemma hw_level m root T path p va l ls : pt_rep m root T → T !! path = Some p → (length path < 2)%nat →
  hw_walk m va (l :: ls) p = match T !! (path ++ [PX l va]) with Some q => hw_walk m va ls q | None => None end.
Proof.
  intros Hr Hp Hl. pose proof (rep_entry _ _ _ Hr path p (PX l va) Hp Hl (PX_range l va)) as He.
  simpl. destruct (T !! (path ++ [PX l va])) as [q|] eqn:Hq.
  - assert (Hq' : page_ok q) by by eapply rep_ok. pose proof (page_ok_bounds q Hq') as (? & ? & ?). destruct Hq' as [Hal _].
    rewrite He, !pack_bit by lia. rewrite pack_ppn by (done || lia). done.
  - by rewrite (land_bit0 _ He).
Qed.

Lemma hw_walk_eq m root T va : pt_rep m root T → hw_walk m va [2; 1; 0] root = hw_leaf (leaf m T va).
Proof.
  intros Hr. rewrite (hw_level m root T [] root) by (done || apply Hr || (simpl; lia)). simpl app.
  destruct (T !! [PX 2 va]) as [p1|] eqn:Ht1.
  - rewrite (hw_level m root T [PX 2 va] p1) by (done || (simpl; lia)). simpl app. unfold leaf.
    destruct (T !! [PX 2 va; PX 1 va]) as [p0|]; [|done]. simpl. unfold hw_leaf. repeat case_match; done.
  - unfold leaf. destruct (T !! [PX 2 va; PX 1 va]) as [p0|] eqn:Ht0; [|done].
    destruct (rep_prefix _ _ _ Hr [PX 2 va] _ p0 Ht0) as [[x Hx] _]. congruence.
Qed.

Lemma paged_root h root T : paged h root T → page_ok root.
Proof. intros Hp. eapply rep_ok; [apply Hp|]. eapply rep_root, Hp. Qed.

Lemma translate_eq h root T acc va : paged h root T →
  translate h acc va = if canonical va then hw_leaf (leaf (h_mem h) T va) ≫= resolve h acc va else None.
Proof.
  intros Hp. destruct (satp_fields root) as [Hf Hro]; [by eapply paged_root|]. destruct Hp as [Hm Hs Hr].
  unfold translate. rewrite Hs, Hf, Hro, bool_decide_false by done. by rewrite (hw_walk_eq _ _ T).
Qed.

(** ** Pages *)
Lemma maps_translate h root T vp pp perm acc o : paged h root T → maps (h_mem h) T vp pp perm → 0 ≤ o < PGSIZE →
  0 ≤ perm < 1024 → bit perm 1 = true → allowed h acc (Z.lor perm PTE_V) = true →
  translate h acc (vp + o) = Some (pp + o).
Proof.
  intros Hp (Hl & Hv & Hvr & Hpa & Hpr) Ho Hperm Hr Hal. rewrite (translate_eq h root T) by done.
  assert (Hdiv : (vp + o) / PGSIZE = vp / PGSIZE) by (unfold PGSIZE in *; Z.div_mod_to_equations; lia).
  assert (Hmod : (vp + o) mod PGSIZE = o) by (unfold PGSIZE in *; Z.div_mod_to_equations; lia).
  unfold canonical. rewrite (proj2 (Z.ltb_lt (vp + o) (2 ^ 38))).
  2: { unfold MAXVA in Hvr. change (Z.shiftl 1 (9 + 9 + 9 + 12 - 1)) with (2 ^ 38) in Hvr. revert Hvr.
       unfold PGSIZE in *. pow2. intros. Z.div_mod_to_equations. lia. }
  simpl. rewrite (leaf_vpn _ _ _ vp) by done. rewrite Hl, new_pte_pack.
  pose proof (flags_range perm Hperm) as Hfl. set (f := Z.lor perm PTE_V) in *.
  assert (Hb0 : bit f 0 = true) by (unfold f, bit; rewrite Z.lor_spec; apply orb_true_r).
  assert (Hb1 : bit f 1 = true) by (unfold f, bit in *; rewrite Z.lor_spec; by rewrite Hr).
  unfold hw_leaf. rewrite !pack_bit by lia. rewrite Hb0, Hb1. cbn [negb]. rewrite andb_false_r. cbn [orb mbind option_bind]. unfold resolve.
  rewrite pack_ppn by done. change (2 ^ (12 + 9 * 0)) with PGSIZE. rewrite Hpa, Hmod.
  assert (allowed h acc (Z.lor (PA2PTE pp) f) = true) as ->; [|done].
  revert Hal. unfold allowed. by rewrite !pack_bit by lia.
Qed.

Lemma paged_ext h h' root T : h_mode h' ≠ Machine_ → h_csr h' satp = h_csr h satp → h_mem h' = h_mem h →
  paged h root T → paged h' root T.
Proof. intros Hm Hs He [? ? ?]. split; [done|congruence|congruence]. Qed.

Lemma clear_same T pa n m m' p : clear_of T pa n → is_table T p →
  (∀ a, ¬ (pa ≤ a < pa + n) → load8 m' a = load8 m a) → same_page p m m'.
Proof. intros Hc Hp Hm a Ha. apply Hm. destruct (Hc p Hp); lia. Qed.

Lemma rep_same m m' root T : pt_rep m root T → (∀ p, is_table T p → same_page p m m') → pt_rep m' root T.
Proof.
  intros [Hroot Hok Hlen Hinj Hent Hpre Hlow] Hs. split; try done.
  intros path p i Hp Hl Hi. rewrite (same_page_load64 p i m m' Hi); [by apply Hent|]. apply Hs. by eexists.
Qed.

Lemma paged_same h root T pa n m' : paged h root T → clear_of T pa n →
  (∀ a, ¬ (pa ≤ a < pa + n) → load8 m' a = load8 (h_mem h) a) →
  paged (set_hmem m' h) root T ∧ ∀ va, leaf m' T va = leaf (h_mem h) T va.
Proof.
  intros [Hm Hs Hr] Hc He. assert (Hsame : ∀ p, is_table T p → same_page p (h_mem h) m') by (intros; by eapply clear_same).
  split; [split; try done; by eapply rep_same|]. intros va. by eapply leaf_same_tables.
Qed.

Lemma paged_frozen h root T pa n : paged h root T → clear_of T pa n → frozen h pa n.
Proof.
  intros Hp Hc m' Hm acc va. destruct (paged_same h root T pa n m' Hp Hc Hm) as [Hp' Hl].
  rewrite (translate_eq _ _ _ _ _ Hp), (translate_eq _ _ _ _ _ Hp'). simpl. by rewrite Hl.
Qed.

Lemma maps_area h root T vp pp o n : paged h root T → h_mode h = Supervisor →
  maps (h_mem h) T vp pp (Z.lor PTE_R PTE_W) → 0 ≤ o → o mod 8 = 0 → o + n ≤ PGSIZE → area h (vp + o) (pp + o) n.
Proof.
  intros Hp Hm Hmap Ho Hal Hn. pose proof Hmap as (_ & Hv & Hvr & _). split_and!.
  - unfold PGSIZE in *. Z.div_mod_to_equations. lia.
  - lia.
  - unfold MAXVA in Hvr. change (Z.shiftl 1 (9 + 9 + 9 + 12 - 1)) with (2 ^ 38) in Hvr. revert Hvr. unfold PGSIZE in *. pow2. lia.
  - intros k Hk. rewrite <- !Z.add_assoc. split; (apply (maps_translate h root T vp pp (Z.lor PTE_R PTE_W)); try done; try lia).
    all: unfold allowed; by rewrite Hm.
Qed.

Lemma maps_fetch h root T vp pp o n : paged h root T → h_mode h = Supervisor →
  maps (h_mem h) T vp pp (Z.lor PTE_R PTE_X) → 0 ≤ o → o + n ≤ PGSIZE → fetchable h (vp + o) (pp + o) n.
Proof.
  intros Hp Hm Hmap Ho Hn k Hk. rewrite <- !Z.add_assoc. apply (maps_translate h root T vp pp (Z.lor PTE_R PTE_X)); try done; try lia.
  unfold allowed. by rewrite Hm.
Qed.
End sv39.
