(* ===== verification/VmKernel.v ===== *)
(** * The kernel's own page table: kvmmap(), kvmmake(), proc_mapstacks()

    [ktable root l s T fl]: the table at [root] maps exactly the regions [l].
    kvmmake() maps the devices, the kernel text, the rest of memory, the
    trampoline and a stack for every process; the tables for that and the
    stacks are at most 136 pages, so it cannot fail on a machine that has more. *)

From Stdlib Require Import ZArith Lia.
From stdpp Require Import base numbers gmap strings countable tactics list.
From S2P Require Import Prelude Machine CString State Spinlock Kalloc Vm VmTheory VmMap VmUser VmAlloc VmLoops Sched VmFree Riscv RiscvTheory Sv39.

(** First virtual page, number of pages, physical address, permissions. *)
Definition region : Type := Z * Z * Z * Z.

Fixpoint entry (l : list region) (vpn : Z) : Z :=
  match l with
  | [] => 0
  | (v, n, pa, perm) :: l =>
      if decide (v ≤ vpn < v + n) then new_pte (pa + (vpn - v) * PGSIZE) perm else entry l vpn
  end.

(** The tables that the addresses of the kernel map need. *)
Definition kpath (path : list Z) : Prop :=
  match path with
  | [] => True
  | [i2] => i2 = 0 ∨ i2 = 2 ∨ i2 = 255
  | [i2; i1] => (i2 = 0 ∧ (i1 = 128 ∨ i1 = 96 ∨ i1 = 97)) ∨ (i2 = 2 ∧ 0 ≤ i1 < 64) ∨ (i2 = 255 ∧ i1 = 511)
  | _ => False
  end.

Definition KTABLES : nat := 72.
#[global] Arguments KTABLES : simpl never.

Definition kpaths : list (list Z) :=
  [[]; [0]; [2]; [255]; [0; 128]; [0; 96]; [0; 97]; [255; 511]] ++ ((λ i, [2; i]) <$> seqZ 0 64).

Definition kpages (vpn : Z) : Prop :=
  0xc000 ≤ vpn < 0xc400 ∨ 0x10000 ≤ vpn < 0x10002 ∨ 0x80000 ≤ vpn < 0x88000 ∨ VPNS - 512 ≤ vpn < VPNS.

Section ktable.
Context `{EnvOk}.

Record ktable (root : Z) (l : list region) (s : kstate) (T : gmap (list Z) Z) (fl : list Z) : Prop := {
  kt_ok : vm_ok s root T fl;
  kt_leaf : ∀ vpn, 0 ≤ vpn < VPNS → leaf (mem s) T (vpn * PGSIZE) = entry l vpn;
  kt_keys : ∀ path, is_Some (T !! path) → kpath path;
}.

Lemma kpath_in path : kpath path → path ∈ kpaths.
Proof.
  unfold kpaths. rewrite elem_of_app, list_elem_of_fmap. destruct path as [|i2 [|i1 [|]]]; simpl; [..|done].
  - intros _. left. by left.
  - intros [-> | [-> | ->]]; left; set_solver.
  - intros [[-> [-> | [-> | ->]]]|[[-> Hi]|[-> ->]]]; [left; set_solver..| |left; set_solver].
    right. exists i1. split; [done|]. apply elem_of_seqZ. lia.
Qed.

Lemma ktables_size (T : gmap (list Z) Z) :
  (∀ path, is_Some (T !! path) → kpath path) → (size T ≤ KTABLES)%nat.
Proof.
  intros HT. rewrite <- (size_dom (D := gset (list Z))).
  assert (Hsub : dom T ⊆ (list_to_set kpaths : gset (list Z))).
  { intros path Hp%elem_of_dom%HT%kpath_in. by apply elem_of_list_to_set. }
  apply subseteq_size in Hsub. etrans; [exact Hsub|].
  apply Nat.eq_le_incl. vm_compute. reflexivity.
Qed.

Lemma kpages_path vpn : kpages vpn →
  kpath [PX 2 (vpn * PGSIZE)] ∧ kpath [PX 2 (vpn * PGSIZE); PX 1 (vpn * PGSIZE)].
Proof.
  unfold kpages, VPNS. change (MAXVA / PGSIZE) with 67108864. intros Hv.
  rewrite !PX_eq by lia. change (2 ^ (12 + 9 * 2)) with 1073741824. change (2 ^ (12 + 9 * 1)) with 2097152.
  unfold PGSIZE, kpath. Z.div_mod_to_equations. lia.
Qed.

(** ** mappages() over a region *)
Lemma entry_grow v k pa perm l vpn : 0 ≤ k →
  entry ((v, k + 1, pa, perm) :: l) vpn =
  if decide (vpn = v + k) then new_pte (pa + k * PGSIZE) perm else entry ((v, k, pa, perm) :: l) vpn.
Proof.
  intros Hk. simpl. repeat case_decide; try lia; try done. do 2 f_equal. lia.
Qed.

(** [same_rest]: the step took pages from the free list only for tables, and
    wrote nothing but tables. *)
Record kext (s : kstate) (T : gmap (list Z) Z) (fl : list Z) (s' : kstate) (T' : gmap (list Z) Z) (fl' : list Z) : Prop := {
  ke_frame : mframe s s';
  ke_used : ∃ used, fl = used ++ fl' ∧ ∀ p, is_table T' p ↔ is_table T p ∨ p ∈ used;
  ke_size : (length fl + size T = length fl' + size T')%nat;
}.

Lemma kext_refl s T fl : kext s T fl s T fl.
Proof. split; [apply mframe_refl| |done]. exists []. split; [done|]. intros p. rewrite elem_of_nil. tauto. Qed.

Lemma kext_trans s T fl s1 T1 fl1 s2 T2 fl2 : kext s T fl s1 T1 fl1 → kext s1 T1 fl1 s2 T2 fl2 → kext s T fl s2 T2 fl2.
Proof.
  intros [F1 (u1 & -> & U1) S1] [F2 (u2 & -> & U2) S2]. split; [by eapply mframe_trans| |lia].
  exists (u1 ++ u2). split; [by rewrite (assoc_L (++))|]. intros p. rewrite U2, U1, elem_of_app. tauto.
Qed.

Lemma mappages_step root l s T fl v k pa perm last :
  lock_free LkKmem s → ktable root ((v, k, pa, perm) :: l) s T fl → 0 ≤ v → 0 ≤ k → v + k < VPNS →
  kpages (v + k) → Z.land (entry l (v + k)) PTE_V = 0 → 0 ≤ pa → pa + k * PGSIZE < 2 ^ 56 → 0 ≤ perm < 1024 →
  (KTABLES < length fl + size T)%nat →
  ∃ s' T' fl', mappages_body root perm (last * PGSIZE) ((v + k) * PGSIZE, pa + k * PGSIZE) s =
      Ok (if v + k =? last then inr 0 else inl ((v + (k + 1)) * PGSIZE, pa + (k + 1) * PGSIZE)) s' ∧
    ktable root ((v, k + 1, pa, perm) :: l) s' T' fl' ∧ kext s T fl s' T' fl'.
Proof.
  intros Hlk [Hok Hleaf Hkeys] Hv Hk Hvk Hpg Hinv Hpa Hpk Hperm Hroom.
  destruct (vpn_va (v + k) ltac:(lia)) as [Hva Hvpn].
  destruct (mappages_round root ((v + k) * PGSIZE) (last * PGSIZE) (pa + k * PGSIZE) perm s T fl Hlk Hok Hva)
    as (s1 & T' & fl' & Hx & Hnt & Hr).
  { rewrite Hleaf by lia. simpl. by rewrite decide_False by lia. }
  assert (Hkeys' : ∀ path, is_Some (T' !! path) → kpath path).
  { destruct (kpages_path _ Hpg) as [K1 K2]. intros path [?|[-> | ->]]%Hnt; [by apply Hkeys|done|done]. }
  pose proof (ext_size _ _ _ _ _ _ _ Hx) as Hsz. pose proof (ktables_size T' Hkeys') as Hle.
  destruct Hr as [[-> _]|(p & Hp & Hrun)]; [simpl in Hsz; lia|].
  assert (HPG : 0 < PGSIZE) by done.
  assert (Hv64 : 0 ≤ new_pte (pa + k * PGSIZE) perm < 2 ^ 64) by (apply new_pte_range; nia).
  destruct (leaf_store root s1 T' fl' _ p _ (ext_ok _ _ _ _ _ _ _ Hx) Hva Hp Hv64) as [Hok2 Hleaf2].
  eexists _, T', fl'. split; [|split; [split; [exact Hok2| |done]|split; [|apply Hx|apply Hx]]].
  - rewrite Hrun. f_equal. destruct (Z.eqb_spec (v + k) last) as [<-|Hne]; [by rewrite Z.eqb_refl|].
    rewrite (proj2 (Z.eqb_neq _ _)) by (unfold PGSIZE in *; lia).
    rewrite next_page by lia. do 3 f_equal; [lia|]. rewrite u64_small; [lia|]. unfold PGSIZE in *. pow2. lia.
  - intros vpn Hvn. destruct (vpn_va vpn Hvn) as [Hva2 Hvpn2]. simpl mem. rewrite Hleaf2, Hvpn, Hvpn2 by done.
    rewrite entry_grow by done. case_decide; [done|].
    rewrite (ext_leaf _ _ _ _ _ _ _ Hx). by apply Hleaf.
  - eapply mframe_trans; [eapply (ext_frame _ _ _ _ _ _ _ Hx)|]. unfold mframe. destruct s1; kred; reflexivity.
Qed.

(** A region that can be added to the regions [l]. *)
Record fits (l : list region) (v n pa perm : Z) : Prop := {
  ft_v : 0 ≤ v ∧ 0 < n ∧ v + n ≤ VPNS;
  ft_pages : ∀ vpn, v ≤ vpn < v + n → kpages vpn ∧ Z.land (entry l vpn) PTE_V = 0;
  ft_pa : 0 ≤ pa ∧ pa + n * PGSIZE ≤ 2 ^ 56;
  ft_perm : 0 ≤ perm < 1024;
}.

Lemma mappages_loop root l v n pa perm m : fits l v n pa perm → ∀ k s T fl,
  lock_free LkKmem s → ktable root ((v, k, pa, perm) :: l) s T fl → 0 ≤ k → k + Z.of_nat m + 1 = n →
  (KTABLES < length fl + size T)%nat →
  ∃ s' T' fl', loop (S m) (mappages_body root perm ((v + n - 1) * PGSIZE)) ((v + k) * PGSIZE, pa + k * PGSIZE) s = Ok 0 s' ∧
    ktable root ((v, n, pa, perm) :: l) s' T' fl' ∧ kext s T fl s' T' fl'.
Proof.
  intros [(Hv & Hn & Hvn) Hpg [Hpa0 Hpa1] Hperm]. induction m as [|m IH]; intros k s T fl Hlk Hkt Hk Hkm Hroom.
  - destruct (Hpg (v + k) ltac:(lia)) as [Hkp Hinv].
    destruct (mappages_step root l s T fl v k pa perm (v + n - 1)) as (s' & T' & fl' & Hrun & Hkt' & Hx); try done; try lia.
    { unfold PGSIZE in *. lia. }
    exists s', T', fl'. rewrite loop_S, (bind_ok _ _ _ _ _ Hrun), (proj2 (Z.eqb_eq _ _)) by lia.
    split; [done|]. by replace (k + 1) with n in Hkt' by lia.
  - destruct (Hpg (v + k) ltac:(lia)) as [Hkp Hinv].
    destruct (mappages_step root l s T fl v k pa perm (v + n - 1)) as (s1 & T1 & fl1 & Hrun & Hkt1 & Hx1); try done; try lia.
    { unfold PGSIZE in *. lia. }
    destruct (IH (k + 1) s1 T1 fl1) as (s' & T' & fl' & Hrun' & Hkt' & Hx'); try done; try lia.
    { eapply mframe_lock; [apply Hx1|done]. } { pose proof (ke_size _ _ _ _ _ _ Hx1). lia. }
    exists s', T', fl'. rewrite loop_S, (bind_ok _ _ _ _ _ Hrun), (proj2 (Z.eqb_neq _ _)) by lia.
    split; [exact Hrun'|]. split; [done|by eapply kext_trans].
Qed.

Lemma ktable_ext root l l' s T fl : (∀ vpn, entry l' vpn = entry l vpn) → ktable root l s T fl → ktable root l' s T fl.
Proof. intros He [Hok Hl Hk]. split; [done| |done]. intros. rewrite He. by apply Hl. Qed.

Lemma kvmmap_region root l s T fl va sz v n pa perm :
  va = v * PGSIZE → sz = n * PGSIZE → fits l v n pa perm → lock_free LkKmem s → ktable root l s T fl →
  (KTABLES < length fl + size T)%nat →
  ∃ s' T' fl', kvmmap root va pa sz perm s = Ok tt s' ∧ lock_free LkKmem s' ∧
    ktable root ((v, n, pa, perm) :: l) s' T' fl' ∧ kext s T fl s' T' fl'.
Proof.
  intros -> -> Hfit Hlk Hkt Hroom. pose proof Hfit as [(Hv & Hn & Hvn) _ _ _].
  destruct (mappages_loop root l v n pa perm (Z.to_nat (n - 1)) Hfit 0 s T fl) as (s' & T' & fl' & Hrun & Hkt' & Hx);
    [done| |lia|lia|done|].
  { eapply ktable_ext; [|done]. intros vpn. simpl. by rewrite decide_False by lia. }
  exists s', T', fl'. split; [|split; [eapply mframe_lock; [apply Hx|done]|done]].
  unfold VPNS in Hvn. change (MAXVA / PGSIZE) with 67108864 in Hvn. unfold kvmmap, mappages.
  assert (Hm1 : u64 (v * PGSIZE + n * PGSIZE - 1) = (v + n - 1) * PGSIZE + 4095)
    by (rewrite u64_small; unfold PGSIZE; pow2; lia).
  assert (Ha : PGROUNDDOWN (v * PGSIZE) = v * PGSIZE)
    by (rewrite PGROUNDDOWN_eq by (unfold PGSIZE; pow2; lia); rewrite (proj1 (page_addr v)); lia).
  assert (Hl : PGROUNDDOWN ((v + n - 1) * PGSIZE + 4095) = (v + n - 1) * PGSIZE).
  { rewrite PGROUNDDOWN_eq by (unfold PGSIZE; pow2; lia). unfold PGSIZE. Z.div_mod_to_equations. lia. }
  assert (Hc : Z.to_nat (u64 ((v + n - 1) * PGSIZE - v * PGSIZE) / PGSIZE) = Z.to_nat (n - 1)).
  { rewrite u64_small by (unfold PGSIZE; pow2; lia). f_equal. replace (_ - _) with ((n - 1) * PGSIZE) by lia.
    apply page_addr. }
  rewrite (proj2 (Z.eqb_neq _ _)) by (unfold PGSIZE; lia). rewrite Ha, Hm1, Hl, Hc.
  rewrite Z.add_0_r in Hrun. replace (pa + 0 * PGSIZE) with pa in Hrun by lia.
  by rewrite (bind_ok _ _ _ _ _ Hrun).
Qed.

(** ** The regions of kvmmake() *)
Definition RW : Z := Z.lor PTE_R PTE_W.
Definition RX : Z := Z.lor PTE_R PTE_X.

Definition base : list region :=
  [(VPNS - 1, 1, trampoline, RX);
   (etext / PGSIZE, (PHYSTOP - etext) / PGSIZE, etext, RW);
   (KERNBASE / PGSIZE, (etext - KERNBASE) / PGSIZE, KERNBASE, RX);
   (PLIC / PGSIZE, 1024, PLIC, RW); (VIRTIO0 / PGSIZE, 1, VIRTIO0, RW); (UART0 / PGSIZE, 1, UART0, RW)].

(** The stacks mapped so far, the last one first. *)
Fixpoint stacks (st : list Z) : list region :=
  match st with
  | [] => base
  | p :: st => (KSTACK (Z.of_nat (length st)) / PGSIZE, 1, p, RW) :: stacks st
  end.

(** Where the linker put the end of the kernel text. *)
Record text_ok : Prop := {
  tx_align : etext mod PGSIZE = 0;
  tx_range : KERNBASE < etext < PHYSTOP;
}.

Lemma kstack_vpn i : KSTACK i / PGSIZE = VPNS - 3 - 2 * i ∧ KSTACK i = (VPNS - 3 - 2 * i) * PGSIZE.
Proof.
  assert (Hk : KSTACK i = (VPNS - 3 - 2 * i) * PGSIZE).
  { unfold KSTACK, TRAMPOLINE, VPNS. change (MAXVA / PGSIZE) with 67108864. change MAXVA with (67108864 * PGSIZE). lia. }
  split; [|done]. rewrite Hk. apply page_addr.
Qed.

Ltac consts := unfold VPNS, PHYSTOP, KERNBASE, PLIC, VIRTIO0, UART0, PGSIZE in *;
  change (MAXVA / 4096) with 67108864 in *.

Lemma base_fits : text_ok → ∀ l1 v n pa perm l2, base = l1 ++ (v, n, pa, perm) :: l2 → fits l2 v n pa perm.
Proof.
  intros [Hal Hr] l1 v n pa perm l2 Hb. pose proof env_tramp_range. pose proof env_end. unfold base in Hb.
  repeat (destruct l1 as [|? l1]; [injection Hb as <- <- <- <- <-|injection Hb as <- Hb]);
    [..|by destruct l1]; (split; [| |consts; pow2; Z.div_mod_to_equations; lia|done]).
  all: try (consts; Z.div_mod_to_equations; lia).
  all: intros vpn Hv; (split; [unfold kpages; consts; Z.div_mod_to_equations; lia|]).
  all: simpl; repeat case_decide; try done; exfalso; consts; Z.div_mod_to_equations; lia.
Qed.

Lemma entry_stacks st vpn : (∀ i, (i < length st)%nat → vpn ≠ VPNS - 3 - 2 * Z.of_nat i) →
  entry (stacks st) vpn = entry base vpn.
Proof.
  induction st as [|p st IH]; intros Hn; [done|]. cbn [stacks entry].
  rewrite (proj1 (kstack_vpn _)). rewrite decide_False.
  - apply IH. intros i Hi. apply Hn. simpl. lia.
  - specialize (Hn (length st) ltac:(simpl; lia)). lia.
Qed.

Lemma entry_stack st i : (i < length st)%nat →
  entry (stacks st) (VPNS - 3 - 2 * Z.of_nat i) = new_pte (reverse st !!! i) RW.
Proof.
  induction st as [|p st IH]; simpl length; intros Hi; [lia|]. cbn [stacks entry].
  rewrite (proj1 (kstack_vpn _)), reverse_cons. destruct (decide (i = length st)) as [->|Hne].
  - rewrite decide_True by lia. rewrite lookup_total_app_r by (rewrite length_reverse; lia).
    rewrite length_reverse, Nat.sub_diag. simpl. f_equal. lia.
  - rewrite decide_False, lookup_total_app_l by (rewrite ?length_reverse; lia). apply IH. lia.
Qed.

(** No region of [base] reaches the addresses of the stacks. *)
Lemma entry_base_top vpn : text_ok → VPNS - 512 ≤ vpn < VPNS - 1 → entry base vpn = 0.
Proof.
  intros [Hal Hr] Hv. unfold base. simpl. repeat case_decide; try done; exfalso; consts; Z.div_mod_to_equations; lia.
Qed.

Lemma stack_fits st p : text_ok → (length st < 64)%nat → page_ok p →
  fits (stacks st) (KSTACK (Z.of_nat (length st)) / PGSIZE) 1 p RW.
Proof.
  intros Ht Hl Hp. apply page_ok_bounds in Hp. rewrite (proj1 (kstack_vpn _)). split; [| |unfold PHYSTOP, KERNBASE, PGSIZE in *; pow2; lia|done].
  - consts. lia.
  - intros vpn Hv. assert (vpn = VPNS - 3 - 2 * Z.of_nat (length st)) as -> by lia. split; [unfold kpages; lia|].
    rewrite entry_stacks by (intros; lia). rewrite entry_base_top by (done || consts; lia). done.
Qed.

(** The state of proc_mapstacks(): the stacks [st] are mapped, of the [c] pages
    the boot started with the rest are tables or free. *)
Record mapping (root : Z) (s0 : kstate) (c : nat) (st : list Z) (s : kstate) (T : gmap (list Z) Z) (fl : list Z) : Prop := {
  mp_lock : lock_free LkKmem s;
  mp_table : ktable root (stacks st) s T fl;
  mp_count : (length fl + size T + length st = c)%nat;
  mp_frame : mframe s0 s;
  mp_stack : NoDup st ∧ ∀ p, p ∈ st → page_ok p ∧ p ∉ fl ∧ ¬ is_table T p;
}.

Lemma vm_ok_take s root T p fl : lock_free LkKmem s → vm_ok s root T (p :: fl) →
  ∃ s1, kalloc s = Ok p s1 ∧ vm_ok s1 root T fl ∧ page_ok p ∧ p ∉ fl ∧ ¬ is_table T p ∧ mframe s s1 ∧
    ∀ va, leaf (mem s1) T va = leaf (mem s) T va.
Proof.
  intros Hlk Hok. assert (Hu : uspace s root T (p :: fl) ∅) by (split; [done|by intros; simplify_map_eq..]).
  destruct (uspace_kalloc s root T p fl ∅ Hlk Hu) as (Hrun & Hu' & Hf). eexists. split; [exact Hrun|].
  split; [apply Hu'|]. split; [apply Hf|]. split; [apply Hf|]. split; [apply Hf|]. split.
  - unfold mframe. destruct s; kred; reflexivity.
  - intros va. eapply leaf_same_tables; [apply Hok|]. intros q [path Hq]. cbn [mem set_freelist set_mem].
    apply (same_outside_page p); [apply Hf|by eapply rep_ok; [apply Hok|]| |apply same_outside_memset].
    intros ->. apply Hf. by eexists.
Qed.

Lemma kext_fresh s T fl s' T' fl' p : kext s T fl s' T' fl' → p ∉ fl → ¬ is_table T p → p ∉ fl' ∧ ¬ is_table T' p.
Proof.
  intros [_ (used & -> & Hu) _] Hn Ht. rewrite elem_of_app in Hn. rewrite Hu. tauto.
Qed.

Lemma mapstack_step root s0 c st s T fl :
  text_ok → (length st < 64)%nat → (KTABLES + 64 < c)%nat → mapping root s0 c st s T fl →
  ∃ p s' T' fl', (pa ← kalloc;
      if pa =? 0 then panic "kalloc"
      else kvmmap root (KSTACK (Z.of_nat (length st))) pa PGSIZE (Z.lor PTE_R PTE_W);; mret (None : option unit)) s = Ok None s' ∧
    mapping root s0 c (p :: st) s' T' fl'.
Proof.
  intros Ht Hl Hc [Hlk [Hok Hleaf Hkeys] Hcnt Hfr [Hnd Hst]].
  pose proof (ktables_size T Hkeys). destruct fl as [|p fl]; [simpl in Hcnt; lia|].
  destruct (vm_ok_take s root T p fl Hlk Hok) as (s1 & Hrun & Hok1 & Hp & Hpf & Hpt & Hf1 & Hl1).
  assert (Hkt1 : ktable root (stacks st) s1 T fl) by (split; [done| |done]; intros; rewrite Hl1; by apply Hleaf).
  destruct (kvmmap_region root (stacks st) s1 T fl (KSTACK (Z.of_nat (length st))) PGSIZE
    (KSTACK (Z.of_nat (length st)) / PGSIZE) 1 p RW)
    as (s2 & T2 & fl2 & Hrun2 & Hlk2 & Hkt2 & Hx2); [|lia|by apply stack_fits|by eapply mframe_lock|done| |].
  { rewrite (proj1 (kstack_vpn _)). apply kstack_vpn. } { simpl in Hcnt. lia. }
  exists p, s2, T2, fl2. split.
  { rewrite (bind_ok _ _ _ _ _ Hrun), (proj2 (Z.eqb_neq _ _)) by (apply page_ok_bounds in Hp; lia).
    rewrite (bind_ok _ _ _ _ _ Hrun2). done. }
  split; [done|done| | |].
  - pose proof (ke_size _ _ _ _ _ _ Hx2). simpl in *. lia.
  - eapply mframe_trans; [|apply Hx2]. by eapply mframe_trans.
  - split.
    + apply NoDup_cons. split; [|done]. intros Hin. destruct (Hst p Hin) as (_ & Hno & _). apply Hno. by left.
    + intros q [->|Hq]%elem_of_cons; [split; [done|]; by eapply kext_fresh|].
      destruct (Hst q Hq) as (? & Hqf & ?). apply not_elem_of_cons in Hqf as [_ Hqf]. split; [done|]. by eapply kext_fresh.
Qed.

Lemma proc_mapstacks_spec root s0 c s T fl :
  text_ok → (KTABLES + 64 < c)%nat → mapping root s0 c [] s T fl →
  ∃ st s' T' fl', proc_mapstacks root s = Ok tt s' ∧ length st = 64%nat ∧ mapping root s0 c st s' T' fl'.
Proof.
  intros Ht Hc Hm. unfold proc_mapstacks.
  set (body := λ i : Z, _).
  destruct (for_each_seqZ (λ k s, ∃ st T fl, Z.of_nat (length st) = k ∧ mapping root s0 c st s T fl) body (Z.of_nat NPROC) s)
    as (s' & Hrun & st & T' & fl' & Hlen & Hm').
  - lia.
  - by exists [], T, fl.
  - intros k s1 Hk (st & T1 & fl1 & <- & Hm1). change (Z.of_nat NPROC) with 64 in Hk.
    destruct (mapstack_step root s0 c st s1 T1 fl1 Ht ltac:(lia) Hc Hm1) as (p & s2 & T2 & fl2 & Hrun2 & Hm2).
    exists s2. split; [exact Hrun2|]. exists (p :: st), T2, fl2. split; [simpl; lia|done].
  - exists st, s', T', fl'. rewrite (bind_ok _ _ _ _ _ Hrun). split; [done|].
    change (Z.of_nat NPROC) with 64 in Hlen. split; [lia|done].
Qed.

(** ** kvmmake() *)
Record based (s0 : kstate) (c : nat) (root : Z) (l : list region) (s : kstate) (T : gmap (list Z) Z) (fl : list Z) : Prop := {
  bs_lock : lock_free LkKmem s;
  bs_table : ktable root l s T fl;
  bs_count : (length fl + size T = c)%nat;
  bs_frame : mframe s0 s;
}.

Lemma base_step s0 c root l1 v n pa perm l2 s T fl va sz :
  text_ok → (KTABLES < c)%nat → base = l1 ++ (v, n, pa, perm) :: l2 → va = v * PGSIZE → sz = n * PGSIZE →
  based s0 c root l2 s T fl →
  ∃ s' T' fl', kvmmap root va pa sz perm s = Ok tt s' ∧ based s0 c root ((v, n, pa, perm) :: l2) s' T' fl'.
Proof.
  intros Ht Hc Hb Hva Hsz [Hlk Hkt Hcnt Hf].
  destruct (kvmmap_region root l2 s T fl va sz v n pa perm) as (s' & T' & fl' & Hrun & Hlk' & Hkt' & Hx); try done.
  - by eapply base_fits.
  - lia.
  - exists s', T', fl'. split; [done|]. split; [done|done| |eapply mframe_trans; [done|apply Hx]].
    pose proof (ke_size _ _ _ _ _ _ Hx). lia.
Qed.

Lemma kvm_root s r fl : lock_free LkKmem s → kmem_ok s (r :: fl) →
  ∃ s1, kalloc s = Ok r s1 ∧
    based s (S (length fl)) r [] (set_mem (memset (mem s1) r 0 PGBYTES) s1) {[ [] := r ]} fl.
Proof.
  intros Hlk Hk. destruct (new_root s r fl Hlk Hk) as (s1 & Hrun & _ & [Hf _] & Hu). exists s1. split; [done|].
  split; [by eapply mframe_lock| |rewrite map_size_singleton; lia|done].
  split; [apply Hu| |].
  - intros vpn _. unfold leaf. by rewrite lookup_singleton_ne.
  - by intros path [p [<- _]%lookup_singleton_Some].
Qed.

Lemma kvmmake_spec s fl :
  text_ok → lock_free LkKmem s → kmem_ok s fl → (KTABLES + 64 < length fl)%nat →
  ∃ root s' T fl' st, kvmmake s = Ok root s' ∧ length st = 64%nat ∧ mapping root s (length fl) st s' T fl'.
Proof.
  intros Ht Hlk Hk Hlen. destruct fl as [|r fl]; [simpl in Hlen; lia|]. simpl length in *.
  pose proof Ht as [Hal Hr]. destruct (kvm_root s r fl Hlk Hk) as (s1 & Hrun & B0). unfold kvmmake.
  rewrite (bind_ok _ _ _ _ _ Hrun). unfold zero_page. rewrite bind_modify.
  assert (Hc : (KTABLES < S (length fl))%nat) by lia.
  assert (Et : etext - KERNBASE = (etext - KERNBASE) / PGSIZE * PGSIZE) by (consts; Z.div_mod_to_equations; lia).
  assert (Ed : etext = etext / PGSIZE * PGSIZE) by (consts; Z.div_mod_to_equations; lia).
  assert (Ep : PHYSTOP - etext = (PHYSTOP - etext) / PGSIZE * PGSIZE) by (consts; Z.div_mod_to_equations; lia).
  destruct (base_step _ _ _ (take 5 base) _ _ _ _ _ _ _ _ UART0 PGSIZE Ht Hc eq_refl ltac:(done) ltac:(done) B0)
    as (s2 & T2 & fl2 & Hrun2 & B2). rewrite (bind_ok _ _ _ _ _ Hrun2).
  destruct (base_step _ _ _ (take 4 base) _ _ _ _ _ _ _ _ VIRTIO0 PGSIZE Ht Hc eq_refl ltac:(done) ltac:(done) B2)
    as (s3 & T3 & fl3 & Hrun3 & B3). rewrite (bind_ok _ _ _ _ _ Hrun3).
  destruct (base_step _ _ _ (take 3 base) _ _ _ _ _ _ _ _ PLIC 0x400000 Ht Hc eq_refl ltac:(done) ltac:(done) B3)
    as (s4 & T4 & fl4 & Hrun4 & B4). rewrite (bind_ok _ _ _ _ _ Hrun4).
  destruct (base_step _ _ _ (take 2 base) _ _ _ _ _ _ _ _ KERNBASE (etext - KERNBASE) Ht Hc eq_refl ltac:(done) Et B4)
    as (s5 & T5 & fl5 & Hrun5 & B5). rewrite (bind_ok _ _ _ _ _ Hrun5).
  destruct (base_step _ _ _ (take 1 base) _ _ _ _ _ _ _ _ etext (PHYSTOP - etext) Ht Hc eq_refl Ed Ep B5)
    as (s6 & T6 & fl6 & Hrun6 & B6). rewrite (bind_ok _ _ _ _ _ Hrun6).
  destruct (base_step _ _ _ [] _ _ _ _ _ _ _ _ TRAMPOLINE PGSIZE Ht Hc eq_refl ltac:(done) ltac:(done) B6)
    as (s7 & T7 & fl7 & Hrun7 & [L7 K7 C7 F7]). rewrite (bind_ok _ _ _ _ _ Hrun7).
  destruct (proc_mapstacks_spec r s (S (length fl)) s7 T7 fl7) as (st & s8 & T8 & fl8 & Hrun8 & Hst & Hm); [done|lia| |].
  { split; [done|done|simpl; lia|done|]. split; [constructor|]. intros p []%elem_of_nil. }
  exists r, s8, T8, fl8, st. rewrite (bind_ok _ _ _ _ _ Hrun8). exact (conj eq_refl (conj Hst Hm)).
Qed.

(** The kernel's address space, page by page. *)
Definition kernel_map (stack : list Z) (va : Z) : Z :=
  if decide (UART0 ≤ va < UART0 + PGSIZE ∨ VIRTIO0 ≤ va < VIRTIO0 + PGSIZE ∨ PLIC ≤ va < PLIC + 0x400000)
  then new_pte va RW
  else if decide (KERNBASE ≤ va < etext) then new_pte va RX
  else if decide (etext ≤ va < PHYSTOP) then new_pte va RW
  else if decide (va = TRAMPOLINE) then new_pte trampoline RX
  else match list_find (λ i, va = KSTACK (Z.of_nat i)) (seq 0 64) with
       | Some (i, _) => new_pte (stack !!! i) RW
       | None => 0
       end.

Lemma base_map stack vpn : text_ok → 0 ≤ vpn < VPNS → ¬ (VPNS - 512 ≤ vpn < VPNS - 1) →
  entry base vpn = kernel_map stack (vpn * PGSIZE).
Proof.
  intros [Hal Hr] Hv Hn. unfold kernel_map, base. cbn [entry].
  assert (Hk : list_find (λ i, vpn * PGSIZE = KSTACK (Z.of_nat i)) (seq 0 64) = None).
  { apply list_find_None, Forall_forall. intros i Hi%elem_of_seq. rewrite (proj2 (kstack_vpn _)). consts. lia. }
  rewrite Hk. unfold TRAMPOLINE. change MAXVA with (VPNS * PGSIZE).
  repeat case_decide; try done; try (exfalso; consts; Z.div_mod_to_equations; lia);
    f_equal; consts; Z.div_mod_to_equations; lia.
Qed.

Lemma stacks_map st vpn : text_ok → length st = 64%nat → 0 ≤ vpn < VPNS →
  entry (stacks st) vpn = kernel_map (reverse st) (vpn * PGSIZE).
Proof.
  intros Ht Hl Hv. destruct (decide (VPNS - 512 ≤ vpn < VPNS - 1)) as [Htop|Hn].
  - unfold kernel_map. pose proof Ht as [Hal Hr]. unfold TRAMPOLINE. change MAXVA with (VPNS * PGSIZE).
    do 4 (rewrite decide_False by (consts; lia)).
    destruct (list_find _ _) as [[i j]|] eqn:Hf.
    + apply list_find_Some in Hf as (Hi & He & _). apply lookup_seq in Hi as [-> Hi]. rewrite Nat.add_0_l in He.
      rewrite (proj2 (kstack_vpn _)) in He. assert (vpn = VPNS - 3 - 2 * Z.of_nat i) as -> by (consts; lia).
      apply entry_stack. lia.
    + rewrite list_find_None, Forall_forall in Hf. rewrite entry_stacks; [by apply entry_base_top|].
      intros i Hi ->. apply (Hf i); [apply elem_of_seq; lia|]. symmetry. apply kstack_vpn.
  - rewrite <- base_map by done. apply entry_stacks. intros i Hi. consts. lia.
Qed.

(** ** What the hart may do with it *)
Lemma leaf_refused h root T va acc : paged h root T → leaf (h_mem h) T va = 0 → translate h acc va = None.
Proof. intros Hp Hl. rewrite (translate_eq h root T) by done. rewrite Hl. by destruct (canonical va). Qed.

Lemma perm_refused h root T vp pp perm acc o : paged h root T → maps (h_mem h) T vp pp perm → 0 ≤ o < PGSIZE →
  0 ≤ perm < 1024 → allowed h acc (Z.lor perm PTE_V) = false → translate h acc (vp + o) = None.
Proof.
  intros Hp (Hl & Hv & Hvr & Hpa & Hpr) Ho Hperm Hal. rewrite (translate_eq h root T) by done.
  destruct (canonical (vp + o)); [|done]. rewrite (leaf_vpn _ _ _ vp) by (unfold PGSIZE in *; Z.div_mod_to_equations; lia).
  rewrite Hl, new_pte_pack. unfold hw_leaf. repeat case_match; try done. cbn [mbind option_bind]. unfold resolve.
  assert (allowed h acc (Z.lor (PA2PTE pp) (Z.lor perm PTE_V)) = false) as ->; [|done].
  revert Hal. unfold allowed. by rewrite !pack_bit by lia.
Qed.

Lemma direct_maps m T va perm : leaf m T va = new_pte (PGROUNDDOWN va) perm → 0 ≤ va < MAXVA →
  maps m T (PGROUNDDOWN va) (PGROUNDDOWN va) perm ∧ ∃ o, 0 ≤ o < PGSIZE ∧ va = PGROUNDDOWN va + o.
Proof.
  intros Hl Hva. change MAXVA with 274877906944 in Hva.
  assert (Hd : PGROUNDDOWN va = va - va mod PGSIZE) by (apply PGROUNDDOWN_eq; pow2; lia).
  assert (Hm : (va - va mod PGSIZE) / PGSIZE = va / PGSIZE ∧ (va - va mod PGSIZE) mod PGSIZE = 0 ∧
    0 ≤ va - va mod PGSIZE ≤ va ∧ 0 ≤ va mod PGSIZE < PGSIZE) by (unfold PGSIZE; Z.div_mod_to_equations; lia).
  rewrite Hd in *. split; [|exists (va mod PGSIZE); lia]. split.
  - by rewrite (leaf_vpn _ _ _ va) by lia.
  - change MAXVA with 274877906944. pow2. lia.
Qed.

Section protection.
Variables (h : hart).

Lemma direct_translate root T va o perm acc : paged h root T → maps (h_mem h) T (PGROUNDDOWN va) (PGROUNDDOWN va) perm →
  0 ≤ o < PGSIZE → va = PGROUNDDOWN va + o → 0 ≤ perm < 1024 → bit perm 1 = true →
  allowed h acc (Z.lor perm PTE_V) = true → translate h acc va = Some va.
Proof.
  intros Hp Hm Ho He Hperm Hb Hal.
  pose proof (maps_translate h root T _ _ perm acc o Hp Hm Ho Hperm Hb Hal) as Ht. by rewrite <- He in Ht.
Qed.

Variables (root : Z) (T : gmap (list Z) Z) (stack : list Z).
Hypothesis Htext : text_ok.
Hypothesis Hpaged : paged h root T.
Hypothesis Hmode : h_mode h = Supervisor.
Hypothesis Hleaf : ∀ va, 0 ≤ va < MAXVA → leaf (h_mem h) T va = kernel_map stack (PGROUNDDOWN va).

Lemma rounddown_range va a b : a mod PGSIZE = 0 → b mod PGSIZE = 0 → 0 ≤ a → b ≤ MAXVA → a ≤ va < b →
  a ≤ PGROUNDDOWN va < b.
Proof.
  intros Ha Hb Ha0 Hbm Hva. change MAXVA with 274877906944 in Hbm. rewrite PGROUNDDOWN_eq by (pow2; lia).
  unfold PGSIZE in *. Z.div_mod_to_equations. lia.
Qed.

Lemma text_protected va : KERNBASE ≤ va < etext → translate h Fetch va = Some va ∧ translate h Store va = None.
Proof.
  pose proof Htext as [Hal Hr]. intros Hva.
  pose proof (rounddown_range va KERNBASE etext eq_refl Hal ltac:(done) ltac:(consts; change MAXVA with 274877906944; lia) Hva) as Hd.
  destruct (direct_maps (h_mem h) T va RX) as (Hm & o & Ho & He).
  - rewrite Hleaf by (consts; change MAXVA with 274877906944; lia). unfold kernel_map.
    rewrite decide_False by (consts; lia). by rewrite decide_True.
  - consts. change MAXVA with 274877906944. lia.
  - split.
    + apply (direct_translate root T va o RX Fetch); [done|done|done|done|done|done|unfold allowed; by rewrite Hmode].
    + rewrite He. eapply perm_refused; [done|done|done|done|unfold allowed; by rewrite Hmode].
Qed.

Lemma data_protected va : etext ≤ va < PHYSTOP →
  translate h Load va = Some va ∧ translate h Store va = Some va ∧ translate h Fetch va = None.
Proof.
  pose proof Htext as [Hal Hr]. intros Hva.
  pose proof (rounddown_range va etext PHYSTOP Hal eq_refl ltac:(consts; lia) ltac:(done) Hva) as Hd.
  destruct (direct_maps (h_mem h) T va RW) as (Hm & o & Ho & He).
  - rewrite Hleaf by (consts; change MAXVA with 274877906944; lia). unfold kernel_map.
    rewrite !decide_False by (consts; lia). by rewrite decide_True.
  - consts. change MAXVA with 274877906944. lia.
  - split; [|split].
    + apply (direct_translate root T va o RW Load); [done|done|done|done|done|done|unfold allowed; by rewrite Hmode].
    + apply (direct_translate root T va o RW Store); [done|done|done|done|done|done|unfold allowed; by rewrite Hmode].
    + rewrite He. eapply perm_refused; [done|done|done|done|unfold allowed; by rewrite Hmode].
Qed.

Lemma guard_refused va i acc : 0 ≤ i < 64 → KSTACK i - PGSIZE ≤ va < KSTACK i → translate h acc va = None.
Proof.
  pose proof Htext as [Hal Hr]. intros Hi Hva. rewrite (proj2 (kstack_vpn i)) in Hva. eapply leaf_refused; [done|].
  assert (Hd : PGROUNDDOWN va = (VPNS - 4 - 2 * i) * PGSIZE).
  { rewrite PGROUNDDOWN_eq by (consts; pow2; lia). consts. Z.div_mod_to_equations. lia. }
  rewrite Hleaf by (change MAXVA with (VPNS * PGSIZE); consts; lia). rewrite Hd. unfold kernel_map, TRAMPOLINE.
  change MAXVA with (VPNS * PGSIZE). rewrite !decide_False by (consts; lia).
  destruct (list_find _ _) as [[j k]|] eqn:Hf; [|done]. apply list_find_Some in Hf as (_ & He & _).
  rewrite (proj2 (kstack_vpn _)) in He. consts. lia.
Qed.
End protection.
End ktable.
