(* ===== verification/Asm.v ===== *)
(** * The assembly files, kernel/start.c and the accessors of kernel/riscv.h

    The routines of swtch.S, trampoline.S, kernelvec.S and entry.S as the lists
    of their instructions, and the C code that runs in machine mode as functions
    on the hart: there memory is physical. *)

From Stdlib Require Import ZArith Lia.
From stdpp Require Import base numbers gmap strings countable tactics list.
From S2P Require Import Prelude Machine CString State Riscv.

(** Addresses that the linker decides, besides those of [Env]. *)
Class Boot := {
  stack0 : Z;
  timer_scratch : Z;
  timervec : Z;
  swtch_addr : Z;
  start_addr : Z;
  main_addr : Z;
  kerneltrap_addr : Z;
}.

(** ** kernel/swtch.S *)
Definition swtch_code : list instr :=
  [Sd ra 0 a0; Sd sp 8 a0;
   Sd s0 16 a0; Sd s1 24 a0; Sd s2 32 a0; Sd s3 40 a0; Sd s4 48 a0; Sd s5 56 a0;
   Sd s6 64 a0; Sd s7 72 a0; Sd s8 80 a0; Sd s9 88 a0; Sd s10 96 a0; Sd s11 104 a0;
   Ld ra 0 a1; Ld sp 8 a1;
   Ld s0 16 a1; Ld s1 24 a1; Ld s2 32 a1; Ld s3 40 a1; Ld s4 48 a1; Ld s5 56 a1;
   Ld s6 64 a1; Ld s7 72 a1; Ld s8 80 a1; Ld s9 88 a1; Ld s10 96 a1; Ld s11 104 a1;
   Ret].

(** ** kernel/trampoline.S *)
Definition uservec_code : list instr :=
  [Csrrw a0 sscratch a0;
   Sd ra 40 a0; Sd sp 48 a0; Sd gp 56 a0; Sd tp 64 a0; Sd t0 72 a0; Sd t1 80 a0; Sd t2 88 a0;
   Sd s0 96 a0; Sd s1 104 a0;
   Sd a1 120 a0; Sd a2 128 a0; Sd a3 136 a0; Sd a4 144 a0; Sd a5 152 a0; Sd a6 160 a0; Sd a7 168 a0;
   Sd s2 176 a0; Sd s3 184 a0; Sd s4 192 a0; Sd s5 200 a0; Sd s6 208 a0; Sd s7 216 a0; Sd s8 224 a0;
   Sd s9 232 a0; Sd s10 240 a0; Sd s11 248 a0;
   Sd t3 256 a0; Sd t4 264 a0; Sd t5 272 a0; Sd t6 280 a0;
   Csrr t0 sscratch; Sd t0 112 a0;
   Ld sp 8 a0; Ld tp 32 a0; Ld t0 16 a0; Ld t1 0 a0;
   Csrw satp t1; Sfence_vma;
   Jr t0].

Definition userret_code : list instr :=
  [Csrw satp a1; Sfence_vma;
   Ld t0 112 a0; Csrw sscratch t0;
   Ld ra 40 a0; Ld sp 48 a0; Ld gp 56 a0; Ld tp 64 a0; Ld t0 72 a0; Ld t1 80 a0; Ld t2 88 a0;
   Ld s0 96 a0; Ld s1 104 a0;
   Ld a1 120 a0; Ld a2 128 a0; Ld a3 136 a0; Ld a4 144 a0; Ld a5 152 a0; Ld a6 160 a0; Ld a7 168 a0;
   Ld s2 176 a0; Ld s3 184 a0; Ld s4 192 a0; Ld s5 200 a0; Ld s6 208 a0; Ld s7 216 a0; Ld s8 224 a0;
   Ld s9 232 a0; Ld s10 240 a0; Ld s11 248 a0;
   Ld t3 256 a0; Ld t4 264 a0; Ld t5 272 a0; Ld t6 280 a0;
   Csrrw a0 sscratch a0;
   Sret].

(** ** kernel/kernelvec.S, up to the call of kerneltrap() and after it *)
Definition kernelvec_save `{Boot} : list instr :=
  [Addi sp sp (-256);
   Sd ra 0 sp; Sd sp 8 sp; Sd gp 16 sp; Sd tp 24 sp; Sd t0 32 sp; Sd t1 40 sp; Sd t2 48 sp;
   Sd s0 56 sp; Sd s1 64 sp;
   Sd a0 72 sp; Sd a1 80 sp; Sd a2 88 sp; Sd a3 96 sp; Sd a4 104 sp; Sd a5 112 sp; Sd a6 120 sp; Sd a7 128 sp;
   Sd s2 136 sp; Sd s3 144 sp; Sd s4 152 sp; Sd s5 160 sp; Sd s6 168 sp; Sd s7 176 sp; Sd s8 184 sp;
   Sd s9 192 sp; Sd s10 200 sp; Sd s11 208 sp;
   Sd t3 216 sp; Sd t4 224 sp; Sd t5 232 sp; Sd t6 240 sp;
   Call kerneltrap_addr].

Definition kernelvec_restore : list instr :=
  [Ld ra 0 sp; Ld sp 8 sp; Ld gp 16 sp; Ld t0 32 sp; Ld t1 40 sp; Ld t2 48 sp;
   Ld s0 56 sp; Ld s1 64 sp;
   Ld a0 72 sp; Ld a1 80 sp; Ld a2 88 sp; Ld a3 96 sp; Ld a4 104 sp; Ld a5 112 sp; Ld a6 120 sp; Ld a7 128 sp;
   Ld s2 136 sp; Ld s3 144 sp; Ld s4 152 sp; Ld s5 160 sp; Ld s6 168 sp; Ld s7 176 sp; Ld s8 184 sp;
   Ld s9 192 sp; Ld s10 200 sp; Ld s11 208 sp;
   Ld t3 216 sp; Ld t4 224 sp; Ld t5 232 sp; Ld t6 240 sp;
   Addi sp sp 256;
   Sret].

Definition kernelvec_code `{Boot} : list instr := kernelvec_save ++ kernelvec_restore.

(** [a0] points to the scratch area of the hart: three saved registers, the
    address of its MTIMECMP, the interval. *)
Definition timervec_code : list instr :=
  [Csrrw a0 mscratch a0;
   Sd a1 0 a0; Sd a2 8 a0; Sd a3 16 a0;
   Ld a1 24 a0; Ld a2 32 a0; Ld a3 0 a1; Add a3 a3 a2; Sd a3 0 a1;
   Li a1 2; Csrw sip a1;
   Ld a3 16 a0; Ld a2 8 a0; Ld a1 0 a0;
   Csrrw a0 mscratch a0;
   Mret].

(** ** kernel/entry.S *)
Definition entry_code `{Boot} : list instr :=
  [La sp stack0;
   Li a0 (1024 * 4);
   Csrr a1 mhartid;
   Addi a1 a1 1;
   Mul a0 a0 a1;
   Add sp sp a0;
   Call start_addr].

(** ** kernel/riscv.h *)
Module Riscv_h.
Definition r_mhartid (h : hart) : Z := csr_read h mhartid.
Definition r_mstatus (h : hart) : Z := csr_read h mstatus.
Definition w_mstatus (x : Z) : hart → hart := csr_write mstatus x.
Definition w_mepc (x : Z) : hart → hart := csr_write mepc x.
Definition r_sstatus (h : hart) : Z := csr_read h sstatus.
Definition w_sstatus (x : Z) : hart → hart := csr_write sstatus x.
Definition r_sip (h : hart) : Z := csr_read h sip.
Definition w_sip (x : Z) : hart → hart := csr_write sip x.
Definition r_sie (h : hart) : Z := csr_read h sie.
Definition w_sie (x : Z) : hart → hart := csr_write sie x.
Definition r_mie (h : hart) : Z := csr_read h mie.
Definition w_mie (x : Z) : hart → hart := csr_write mie x.
Definition r_sepc (h : hart) : Z := csr_read h sepc.
Definition w_sepc (x : Z) : hart → hart := csr_write sepc x.
Definition r_medeleg (h : hart) : Z := csr_read h medeleg.
Definition w_medeleg (x : Z) : hart → hart := csr_write medeleg x.
Definition r_mideleg (h : hart) : Z := csr_read h mideleg.
Definition w_mideleg (x : Z) : hart → hart := csr_write mideleg x.
Definition r_stvec (h : hart) : Z := csr_read h stvec.
Definition w_stvec (x : Z) : hart → hart := csr_write stvec x.
Definition w_mtvec (x : Z) : hart → hart := csr_write mtvec x.
Definition w_pmpcfg0 (x : Z) : hart → hart := csr_write pmpcfg0 x.
Definition w_pmpaddr0 (x : Z) : hart → hart := csr_write pmpaddr0 x.
Definition r_satp (h : hart) : Z := csr_read h satp.
Definition w_satp (x : Z) : hart → hart := csr_write satp x.
Definition w_sscratch (x : Z) : hart → hart := csr_write sscratch x.
Definition w_mscratch (x : Z) : hart → hart := csr_write mscratch x.
Definition r_scause (h : hart) : Z := csr_read h scause.
Definition r_stval (h : hart) : Z := csr_read h stval.
Definition w_tp (x : Z) : hart → hart := set_reg tp x.
Definition r_tp (h : hart) : Z := get_reg h tp.
End Riscv_h.

(** ** kernel/start.c *)
Section start.
Context `{Boot}.
Import Riscv_h.

(** A 64-bit access through a pointer, in machine mode. *)
Definition rd64 (h : hart) (a : Z) : Z := load64 (h_mem h) a.
Definition wr64 (a v : Z) (h : hart) : hart := set_hmem (store64 (h_mem h) a v) h.

Definition interval : Z := 1000000.
Definition scratch_of (id : Z) : Z := timer_scratch + id * 5 * 8.

Definition timerinit (h : hart) : hart :=
  let id := s32 (r_mhartid h) in
  let h := wr64 (CLINT_MTIMECMP id) (u64 (rd64 h CLINT_MTIME + interval)) h in
  let scratch := scratch_of id in
  let h := wr64 (scratch + 3 * 8) (CLINT_MTIMECMP id) h in
  let h := wr64 (scratch + 4 * 8) interval h in
  let h := w_mscratch scratch h in
  let h := w_mtvec timervec h in
  let h := w_mstatus (Z.lor (r_mstatus h) MSTATUS_MIE) h in
  w_mie (Z.lor (r_mie h) MIE_MTIE) h.

Definition start (h : hart) : hart :=
  let x := r_mstatus h in
  let x := Z.land x (u64 (Z.lnot MSTATUS_MPP_MASK)) in
  let x := Z.lor x MSTATUS_MPP_S in
  let h := w_mstatus x h in
  let h := w_mepc main_addr h in
  let h := w_satp 0 h in
  let h := w_medeleg 0xffff h in
  let h := w_mideleg 0xffff h in
  let h := w_sie (Z.lor (Z.lor (Z.lor (r_sie h) SIE_SEIE) SIE_STIE) SIE_SSIE) h in
  let h := w_pmpaddr0 0x3fffffffffffff h in
  let h := w_pmpcfg0 0xf h in
  let h := timerinit h in
  let id := s32 (r_mhartid h) in
  let h := w_tp (u64 id) h in
  mret_ h.
End start.
