(* ===== verification/AsmTheory.v ===== *)
(** * What the assembly routines do

    Each routine of Asm.v as blocks that save and load a table of registers:
    trampoline.S here between the page table of a process and the one of the
    kernel, then kernelvec.S, timervec and swtch.S. *)

From Stdlib Require Import ZArith Lia.
From stdpp Require Import base numbers gmap strings countable tactics list.
From S2P Require Import Prelude Machine CString State Spinlock Kalloc Vm VmTheory VmMap VmUser Riscv RiscvTheory Sv39 Asm.

(** Where struct trapframe keeps a register. *)
Definition tf_slot (r : reg) : Z :=
  match r with
  | zero => 0 | ra => 40 | sp => 48 | gp => 56 | tp => 64 | t0 => 72 | t1 => 80 | t2 => 88 | s0 => 96 | s1 => 104
  | a0 => 112 | a1 => 120 | a2 => 128 | a3 => 136 | a4 => 144 | a5 => 152 | a6 => 160 | a7 => 168
  | s2 => 176 | s3 => 184 | s4 => 192 | s5 => 200 | s6 => 208 | s7 => 216 | s8 => 224 | s9 => 232 | s10 => 240
  | s11 => 248 | t3 => 256 | t4 => 264 | t5 => 272 | t6 => 280
  end.

(** The registers that uservec and userret move in one go: all but [a0]. *)
Definition tf_regs : list reg :=
  [ra; sp; gp; tp; t0; t1; t2; s0; s1; a1; a2; a3; a4; a5; a6; a7; s2; s3; s4; s5; s6; s7; s8; s9; s10; s11; t3; t4; t5; t6].
Definition tf_table : list (reg * Z) := (λ r, (r, tf_slot r)) <$> tf_regs.

(** Values fit a register. *)
Definition regs_ok (h : hart) : Prop := ∀ r, 0 ≤ get_reg h r < 2 ^ 64.

Lemma table_ok_bool n tbl :
  bool_decide (NoDup tbl.*2) && forallb (λ e : reg * Z, (0 <=? e.2) && (e.2 + 8 <=? n) && (e.2 mod 8 =? 0)) tbl = true →
  table_ok n tbl.
Proof.
  intros [Hn Hf]%andb_true_iff. apply bool_decide_eq_true in Hn. split; [done|].
  apply Forall_forall. intros e He. rewrite forallb_forall in Hf. apply list_elem_of_In in He. specialize (Hf e He).
  rewrite !andb_true_iff, !Z.leb_le, Z.eqb_eq in Hf. tauto.
Qed.

Lemma tf_table_ok : table_ok PGSIZE tf_table.
Proof. apply table_ok_bool. vm_compute. reflexivity. Qed.

Lemma tf_table_in r : r ≠ zero → r ≠ a0 → (r, tf_slot r) ∈ tf_table.
Proof.
  intros Hz Ha. unfold tf_table. apply list_elem_of_fmap. exists r. split; [done|].
  destruct r; (congruence || unfold tf_regs; solve [repeat first [apply list_elem_of_here|apply list_elem_of_further]]).
Qed.

(** ** Loaded registers *)
Lemma load_regs_other m pa tbl h r : r ∉ tbl.*1 → get_reg (load_regs m pa tbl h) r = get_reg h r.
Proof.
  revert h. induction tbl as [|[r' o] tbl IH]; intros h Hn; [done|]. apply not_elem_of_cons in Hn as [Hne Hn]. simpl in Hne.
  change (load_regs m pa ((r', o) :: tbl) h) with (load_regs m pa tbl (set_reg r' (load64 m (pa + o)) h)).
  rewrite IH by done. by apply get_set_reg_ne.
Qed.

Lemma load_regs_in m pa tbl h r o : NoDup tbl.*1 → (r, o) ∈ tbl → r ≠ zero → get_reg (load_regs m pa tbl h) r = load64 m (pa + o).
Proof.
  revert h. induction tbl as [|[r' o'] tbl IH]; intros h Hnd Hin Hz; [by apply elem_of_nil in Hin|].
  apply NoDup_cons in Hnd as [Hn Hnd]. change (load_regs m pa ((r', o') :: tbl) h) with (load_regs m pa tbl (set_reg r' (load64 m (pa + o')) h)).
  apply elem_of_cons in Hin as [[= <- <-]|Hin]; [|by apply IH].
  rewrite load_regs_other by done. by apply get_set_reg_eq.
Qed.

Lemma tf_table_regs : NoDup tf_table.*1.
Proof. apply (bool_decide_unpack _). vm_compute. reflexivity. Qed.

Section jump.
Context `{Text}.

(** A block and the jump that ends it. *)
Lemma runs_jump va pa n l j h h' o :
  runs va pa n l h h' → fetchable h' va pa n → placed (pa + o) (l ++ [j]) → h_pc h = va + o → 0 ≤ va → va + n < 2 ^ 64 →
  0 ≤ o → o + 8 * Z.of_nat (length (l ++ [j])) ≤ n →
  ∃ o' w, steps (length (l ++ [j])) h = execute j w (set_pc (va + o') h') ∧ 0 ≤ o' ∧ o' + w ≤ n ∧ 2 ≤ w.
Proof.
  intros Hr Hf Hp Hpc Hva Hn Ho. rewrite length_app. simpl. intros Hlen.
  destruct (runs_steps va pa n l [j] h h' o Hr Hp Hpc) as (o' & Ho' & (w & Hc & Hw & _) & Hs); try lia.
  exists o', w. split; [|lia]. rewrite (steps_app _ 1 _ _ Hs). simpl. unfold step. simpl h_pc.
  rewrite translate_set_pc, Hf by lia. simpl. rewrite Hc. simpl. by destruct (execute j w _).
Qed.
End jump.

(** ** Control registers *)
Lemma hcsr_eq c v h : h_csr (set_hcsr c v h) c = v.
Proof. unfold set_hcsr, upd. simpl. by rewrite decide_True. Qed.

Lemma hcsr_ne c v h c' : c' ≠ c → h_csr (set_hcsr c v h) c' = h_csr h c'.
Proof. intros. unfold set_hcsr, upd. simpl. by rewrite decide_False. Qed.

Lemma effect_csrrw_sscratch rd rs h : h_mode h = Supervisor →
  effect (Csrrw rd sscratch rs) h = Some (set_reg rd (h_csr h sscratch) (set_hcsr sscratch (get_reg h rs) h)).
Proof. intros Hm. unfold effect, may_write, may_read. by rewrite Hm. Qed.

Lemma effect_csrr_sscratch rd h : h_mode h = Supervisor →
  effect (Csrr rd sscratch) h = Some (set_reg rd (h_csr h sscratch) h).
Proof. intros Hm. unfold effect, may_read. by rewrite Hm. Qed.

Lemma effect_csrw_sscratch rs h : h_mode h = Supervisor →
  effect (Csrw sscratch rs) h = Some (set_hcsr sscratch (get_reg h rs) h).
Proof. intros Hm. unfold effect, may_write, may_read. by rewrite Hm. Qed.

Section tramp.
Context `{EnvOk} `{Text}.

Lemma effect_csrw_satp rs h root : h_mode h = Supervisor → page_ok root → get_reg h rs = MAKE_SATP root →
  effect (Csrw satp rs) h = Some (set_hcsr satp (MAKE_SATP root) h).
Proof.
  intros Hm Hr Hg. unfold effect, may_write, may_read. rewrite Hm, Hg. simpl. unfold csr_write.
  by rewrite (proj1 (satp_fields root Hr)).
Qed.

Lemma effect_sfence h : h_mode h = Supervisor → effect Sfence_vma h = Some h.
Proof. intros Hm. unfold effect. by rewrite Hm. Qed.

(** The trampoline page is where both page tables say. *)
Record tramp (h : hart) (root : Z) (T : gmap (list Z) Z) : Prop := {
  tr_mode : h_mode h = Supervisor;
  tr_paged : paged h root T;
  tr_maps : maps (h_mem h) T TRAMPOLINE trampoline (Z.lor PTE_R PTE_X);
}.

(** Besides, the trapframe page [tf] is at TRAPFRAME, and is no table. *)
Record tramp_tf (h : hart) (root : Z) (T : gmap (list Z) Z) (tf : Z) : Prop := {
  tt_tramp : tramp h root T;
  tt_maps : maps (h_mem h) T TRAPFRAME tf (Z.lor PTE_R PTE_W);
  tt_clear : clear_of T tf PGSIZE;
}.

Lemma tramp_fetch h root T : tramp h root T → fetchable h TRAMPOLINE trampoline PGSIZE.
Proof.
  intros [Hm Hp Hmap]. pose proof (maps_fetch h root T TRAMPOLINE trampoline 0 PGSIZE Hp Hm Hmap) as Hf.
  rewrite !Z.add_0_r in Hf. apply Hf; lia.
Qed.

Lemma tramp_tf_area h root T tf : tramp_tf h root T tf → area h TRAPFRAME tf PGSIZE ∧ frozen h tf PGSIZE.
Proof.
  intros [[Hm Hp _] Hmap Hc]. pose proof (maps_area h root T TRAPFRAME tf 0 PGSIZE Hp Hm Hmap) as Ha.
  rewrite !Z.add_0_r in Ha. split; [apply Ha; done || lia|]. by eapply paged_frozen.
Qed.

(** Memory in the trapframe page may change. *)
Lemma tramp_same h h' root T tf : tramp h root T → clear_of T tf PGSIZE → h_mode h' = Supervisor → h_csr h' satp = h_csr h satp →
  (∀ a, ¬ (tf ≤ a < tf + PGSIZE) → load8 (h_mem h') a = load8 (h_mem h) a) → tramp h' root T.
Proof.
  intros [Hm Hp Hmap] Hc Hm' Hs He. destruct (paged_same h root T tf PGSIZE (h_mem h') Hp Hc He) as [[? ? Hr] Hl].
  split; [done| |].
  - split; [by rewrite Hm'|by rewrite Hs; apply Hp|done].
  - destruct Hmap as (Hlf & Hrest). split; [by rewrite Hl|done].
Qed.

Lemma tramp_tf_same h h' root T tf : tramp_tf h root T tf → h_mode h' = Supervisor → h_csr h' satp = h_csr h satp →
  (∀ a, ¬ (tf ≤ a < tf + PGSIZE) → load8 (h_mem h') a = load8 (h_mem h) a) → tramp_tf h' root T tf.
Proof.
  intros [Ht Hmap Hc] Hm Hs He. destruct (paged_same h root T tf PGSIZE (h_mem h') (tr_paged _ _ _ Ht) Hc He) as [_ Hl].
  split; [by eapply tramp_same| |done]. destruct Hmap as (Hlf & Hrest). split; [by rewrite Hl|done].
Qed.

(** ** uservec *)
Definition uservec_body : list instr :=
  [Csrrw a0 sscratch a0] ++ saves a0 tf_table ++ [Csrr t0 sscratch] ++ saves a0 [(t0, 112)] ++
  loads a0 [(sp, 8); (tp, 32); (t0, 16); (t1, 0)] ++ [Csrw satp t1; Sfence_vma].

Lemma uservec_blocks : uservec_code = uservec_body ++ [Jr t0].
Proof. reflexivity. Qed.

(** The trapframe page after the user's registers are in it. *)
Definition tf_saved (h : hart) (tf : Z) : gmap Z Z :=
  store64 (save_mem (get_reg h) tf tf_table (h_mem h)) (tf + 112) (get_reg h a0).

Lemma tf_saved_outside h tf a : ¬ (tf ≤ a < tf + PGSIZE) → load8 (tf_saved h tf) a = load8 (h_mem h) a.
Proof.
  intros Ha. unfold tf_saved. rewrite load8_store64_ne by (unfold PGSIZE in Ha; lia).
  apply (save_mem_outside _ _ PGSIZE); [apply tf_table_ok|done].
Qed.

Lemma tf_saved_reg h tf r : regs_ok h → r ≠ zero → load64 (tf_saved h tf) (tf + tf_slot r) = get_reg h r.
Proof.
  intros Hr Hz. unfold tf_saved. destruct (decide (r = a0)) as [->|Ha].
  - by apply load64_store64.
  - rewrite load64_store64_ne by (destruct r; simpl; (done || lia)).
    apply (save_mem_in _ _ PGSIZE); [apply tf_table_ok|by apply tf_table_in|done].
Qed.

Lemma tf_saved_low h tf o : 0 ≤ o < 40 → o mod 8 = 0 → load64 (tf_saved h tf) (tf + o) = load64 (h_mem h) (tf + o).
Proof.
  intros Ho Hm. unfold tf_saved. rewrite load64_store64_ne by lia.
  apply (save_mem_other _ _ PGSIZE); [apply tf_table_ok|done|].
  unfold tf_table. rewrite <- list_fmap_compose. intros (r & -> & Hin)%list_elem_of_fmap. simpl in Ho.
  destruct r; simpl in Ho; try lia. apply (bool_decide_unpack (zero ∉ tf_regs)); [vm_compute; exact I|done].
Qed.

Lemma save_mem_ext x y pa tbl m : (∀ r, r ∈ tbl.*1 → x r = y r) → save_mem x pa tbl m = save_mem y pa tbl m.
Proof.
  revert m. induction tbl as [|[r o] tbl IH]; intros m He; [done|]. rewrite !save_mem_cons, IH.
  - by rewrite (He r) by left.
  - intros. apply He. by right.
Qed.
(** Up to the last load: the user's registers are saved. *)
Definition uservec_regs (h : hart) (tf : Z) : hart :=
  load_regs (tf_saved h tf) tf [(sp, 8); (tp, 32); (t0, 16); (t1, 0)]
    (set_reg t0 (get_reg h a0) (set_hmem (tf_saved h tf) (set_reg a0 TRAPFRAME (set_hcsr sscratch (get_reg h a0) h)))).

Lemma uservec_save_runs h upt TU tf : tramp_tf h upt TU tf → h_csr h sscratch = TRAPFRAME →
  runs TRAMPOLINE trampoline PGSIZE ([Csrrw a0 sscratch a0] ++ saves a0 tf_table ++ [Csrr t0 sscratch] ++ saves a0 [(t0, 112)]) h
    (set_reg t0 (get_reg h a0) (set_hmem (tf_saved h tf) (set_reg a0 TRAPFRAME (set_hcsr sscratch (get_reg h a0) h)))).
Proof.
  intros Ht Hs. assert (Hm := tr_mode _ _ _ (tt_tramp _ _ _ _ Ht)).
  set (h1 := set_reg a0 TRAPFRAME (set_hcsr sscratch (get_reg h a0) h)).
  assert (Ht1 : tramp_tf h1 upt TU tf) by by eapply tramp_tf_same.
  set (m2 := save_mem (get_reg h) tf tf_table (h_mem h)).
  assert (Hm2 : ∀ a, ¬ (tf ≤ a < tf + PGSIZE) → load8 m2 a = load8 (h_mem h) a).
  { intros a Ha. apply (save_mem_outside _ _ PGSIZE); [apply tf_table_ok|done]. }
  set (h2 := set_hmem m2 h1). assert (Ht2 : tramp_tf h2 upt TU tf) by (by eapply (tramp_tf_same h)).
  set (h3 := set_reg t0 (get_reg h a0) h2). assert (Ht3 : tramp_tf h3 upt TU tf) by (by eapply (tramp_tf_same h)).
  eapply runs_cons; [apply (tramp_fetch _ _ _ (tt_tramp _ _ _ _ Ht))|by rewrite effect_csrrw_sscratch, Hs|].
  eapply runs_app.
  - destruct (tramp_tf_area _ _ _ _ Ht1) as [Ha Hf].
    apply (save_runs TRAMPOLINE trampoline PGSIZE a0 tf PGSIZE tf_table h1); [apply (tramp_fetch _ _ _ (tt_tramp _ _ _ _ Ht1))|done|done|apply tf_table_ok].
  - assert (Hx : save_mem (get_reg h1) tf tf_table (h_mem h1) = m2).
    { apply save_mem_ext. intros r Hr. unfold h1. rewrite get_set_reg_ne; [done|]. intros ->. revert Hr. apply (bool_decide_unpack (a0 ∉ tf_table.*1)). vm_compute. exact I. }
    rewrite Hx. eapply runs_cons; [apply (tramp_fetch _ _ _ (tt_tramp _ _ _ _ Ht2))|by rewrite effect_csrr_sscratch|].
    destruct (tramp_tf_area _ _ _ _ Ht3) as [Ha Hf].
    apply (save_runs TRAMPOLINE trampoline PGSIZE a0 tf PGSIZE [(t0, 112)] h3); [apply (tramp_fetch _ _ _ (tt_tramp _ _ _ _ Ht3))|done|done|].
    apply table_ok_bool. vm_compute. reflexivity.
Qed.

Lemma uservec_runs h upt TU kpt TK tf :
  tramp_tf h upt TU tf → h_csr h sscratch = TRAPFRAME → page_ok kpt → load64 (h_mem h) (tf + 0) = MAKE_SATP kpt →
  tramp (set_hcsr satp (MAKE_SATP kpt) h) kpt TK → clear_of TK tf PGSIZE →
  let h' := set_hcsr satp (MAKE_SATP kpt) (uservec_regs h tf) in
  runs TRAMPOLINE trampoline PGSIZE uservec_body h h' ∧ tramp h' kpt TK.
Proof.
  intros Ht Hs Hk Hsatp HK HcK h'. assert (Hm := tr_mode _ _ _ (tt_tramp _ _ _ _ Ht)).
  pose proof (uservec_save_runs h upt TU tf Ht Hs) as Hr1. set (h4 := set_reg t0 _ _) in Hr1.
  assert (Ht4 : tramp_tf h4 upt TU tf) by (eapply (tramp_tf_same h); [done|done|done|]; intros a Ha; by apply tf_saved_outside).
  destruct (tramp_tf_area _ _ _ _ Ht4) as [Ha Hf].
  assert (HK' : tramp h' kpt TK).
  { eapply tramp_same; [exact HK|exact HcK|exact Hm|by unfold h'; rewrite !hcsr_eq|]. intros a Hna. exact (tf_saved_outside h tf a Hna). }
  split; [|done].
  change (runs TRAMPOLINE trampoline PGSIZE
    (([Csrrw a0 sscratch a0] ++ saves a0 tf_table ++ [Csrr t0 sscratch] ++ saves a0 [(t0, 112)]) ++
     loads a0 [(sp, 8); (tp, 32); (t0, 16); (t1, 0)] ++ [Csrw satp t1; Sfence_vma]) h h').
  eapply runs_app; [exact Hr1|]. eapply runs_app.
  - apply (load_runs TRAMPOLINE trampoline PGSIZE a0 tf PGSIZE); [apply (tramp_fetch _ _ _ (tt_tramp _ _ _ _ Ht4))|done| |].
    + apply table_ok_bool. vm_compute. reflexivity.
    + intros o Hin. exfalso. revert Hin. rewrite !elem_of_cons. intros [[=]|[[=]|[[=]|[[=]|Hin]]]]. by apply elem_of_nil in Hin.
  - fold (uservec_regs h tf). change (h_mem h4) with (tf_saved h tf).
    assert (Ht5 : tramp_tf (uservec_regs h tf) upt TU tf).
    { eapply (tramp_tf_same h4); [done|exact Hm|reflexivity|]. intros a Hna. reflexivity. }
    eapply runs_cons; [apply (tramp_fetch _ _ _ (tt_tramp _ _ _ _ Ht5))| |].
    { apply effect_csrw_satp; [apply (tr_mode _ _ _ (tt_tramp _ _ _ _ Ht5))|done|].
      rewrite <- Hsatp, <- (tf_saved_low h tf 0) by (done || lia). reflexivity. }
    eapply runs_cons; [apply (tramp_fetch _ _ _ HK')|by rewrite effect_sfence|constructor].
Qed.

(** A routine of the trampoline page runs to its jump. *)
Lemma tramp_jump l j a h h' root T root' T' :
  runs TRAMPOLINE trampoline PGSIZE l h h' → tramp h root T → tramp h' root' T' →
  placed a (l ++ [j]) → h_pc h = TRAMPOLINE + (a - trampoline) → trampoline ≤ a → a + 8 * Z.of_nat (length (l ++ [j])) ≤ trampoline + PGSIZE →
  ∃ pc w, steps (length (l ++ [j])) h = execute j w (set_pc pc h').
Proof.
  intros Hr Ht Ht' Hp Hpc Ha Hlen.
  destruct (runs_jump TRAMPOLINE trampoline PGSIZE l j h h' (a - trampoline) Hr (tramp_fetch _ _ _ Ht')) as (o' & w & Hs & _);
    [|done| | |lia|lia|by eauto].
  - by replace (trampoline + (a - trampoline)) with a by lia.
  - vm_compute. discriminate.
  - vm_compute. reflexivity.
Qed.

(** uservec: the hart enters the kernel at the address and with the stack, hart
    number and page table that the trapframe names, and the trapframe holds
    every register of the user. *)
Lemma uservec_spec h upt TU kpt TK tf :
  placed uservec uservec_code → trampoline ≤ uservec → uservec + 8 * 40 ≤ trampoline + PGSIZE →
  tramp_tf h upt TU tf → h_pc h = TRAMPOLINE + (uservec - trampoline) → h_csr h sscratch = TRAPFRAME →
  page_ok kpt → load64 (h_mem h) (tf + 0) = MAKE_SATP kpt → tramp (set_hcsr satp (MAKE_SATP kpt) h) kpt TK → clear_of TK tf PGSIZE →
  ∃ h', steps 40 h = Some h' ∧ tramp h' kpt TK ∧ h_mem h' = tf_saved h tf ∧ h_pc h' = load64 (h_mem h) (tf + 16) ∧
    get_reg h' sp = load64 (h_mem h) (tf + 8) ∧ get_reg h' tp = load64 (h_mem h) (tf + 32) ∧
    ∀ c, c ≠ satp → c ≠ sscratch → h_csr h' c = h_csr h c.
Proof.
  intros Hpl Ha Hlen Ht Hpc Hs Hk Hsatp HK HcK.
  destruct (uservec_runs h upt TU kpt TK tf Ht Hs Hk Hsatp HK HcK) as [Hr HK']. rewrite uservec_blocks in Hpl.
  destruct (tramp_jump _ _ _ _ _ _ _ _ _ Hr (tt_tramp _ _ _ _ Ht) HK' Hpl Hpc Ha Hlen) as (pc & w & Hst).
  eexists. split; [exact Hst|]. split; [|split_and!].
  - eapply tramp_same; [exact HK'|exact HcK|apply HK'|reflexivity|]. intros; reflexivity.
  - reflexivity.
  - rewrite <- (tf_saved_low h tf 16) by (done || lia). reflexivity.
  - rewrite <- (tf_saved_low h tf 8) by (done || lia). reflexivity.
  - rewrite <- (tf_saved_low h tf 32) by (done || lia). reflexivity.
  - intros c H1' H2'. change (h_csr (set_hcsr satp (MAKE_SATP kpt) (set_hcsr sscratch (get_reg h a0) h)) c = h_csr h c).
    by rewrite !hcsr_ne.
Qed.

(** ** userret *)
Definition userret_body : list instr :=
  [Csrw satp a1; Sfence_vma] ++ loads a0 [(t0, 112)] ++ [Csrw sscratch t0] ++ loads a0 tf_table ++ [Csrrw a0 sscratch a0].

Lemma userret_blocks : userret_code = userret_body ++ [Sret].
Proof. reflexivity. Qed.

(** The hart before sret. *)
Definition userret_regs (h : hart) (upt tf : Z) : hart :=
  let m := h_mem h in
  let h3 := set_hcsr sscratch (load64 m (tf + 112)) (set_reg t0 (load64 m (tf + 112)) (set_hcsr satp (MAKE_SATP upt) h)) in
  set_reg a0 (load64 m (tf + 112)) (set_hcsr sscratch TRAPFRAME (load_regs m tf tf_table h3)).

Lemma userret_runs h kpt TK upt TU tf : tramp h kpt TK → page_ok upt → get_reg h a0 = TRAPFRAME → get_reg h a1 = MAKE_SATP upt →
  tramp_tf (set_hcsr satp (MAKE_SATP upt) h) upt TU tf →
  runs TRAMPOLINE trampoline PGSIZE userret_body h (userret_regs h upt tf) ∧ tramp_tf (userret_regs h upt tf) upt TU tf.
Proof.
  intros Ht Hu Ha0 Ha1 Ht1. assert (Hm := tr_mode _ _ _ Ht). set (h1 := set_hcsr satp (MAKE_SATP upt) h) in *.
  set (v := load64 (h_mem h) (tf + 112)). set (h2 := set_reg t0 v h1). set (h3 := set_hcsr sscratch v h2).
  assert (Hsame : ∀ h', h_mode h' = Supervisor → h_csr h' satp = h_csr h1 satp → h_mem h' = h_mem h → tramp_tf h' upt TU tf).
  { intros h' H1' H2' H3'. eapply (tramp_tf_same h1); [done|done|done|]. intros. by rewrite H3'. }
  assert (Ht2 : tramp_tf h2 upt TU tf) by (by apply Hsame).
  assert (Ht3 : tramp_tf h3 upt TU tf) by (by apply Hsame).
  set (h4 := load_regs (h_mem h) tf tf_table h3).
  assert (Ht4 : tramp_tf h4 upt TU tf) by (by apply Hsame).
  split; [|by apply Hsame].
  destruct (tramp_tf_area _ _ _ _ Ht1) as [Har1 _]. destruct (tramp_tf_area _ _ _ _ Ht3) as [Har3 _].
  assert (Hg1 : get_reg h1 a0 = TRAPFRAME) by done. assert (Hg3 : get_reg h3 a0 = TRAPFRAME) by done.
  unfold userret_body. eapply runs_cons; [by eapply tramp_fetch|by apply effect_csrw_satp|].
  eapply runs_cons; [apply (tramp_fetch _ _ _ (tt_tramp _ _ _ _ Ht1))|by rewrite effect_sfence|].
  eapply runs_app; [apply (load_runs TRAMPOLINE trampoline PGSIZE a0 tf PGSIZE [(t0, 112)] h1)|].
  - apply (tramp_fetch _ _ _ (tt_tramp _ _ _ _ Ht1)).
  - by rewrite Hg1.
  - apply table_ok_bool. vm_compute. reflexivity.
  - intros o Hin. apply list_elem_of_singleton in Hin. discriminate Hin.
  - eapply runs_cons; [apply (tramp_fetch _ _ _ (tt_tramp _ _ _ _ Ht2))|by apply effect_csrw_sscratch|].
    eapply runs_app; [apply (load_runs TRAMPOLINE trampoline PGSIZE a0 tf PGSIZE tf_table h3)|].
    + apply (tramp_fetch _ _ _ (tt_tramp _ _ _ _ Ht3)).
    + by rewrite Hg3.
    + apply tf_table_ok.
    + intros o Hin. exfalso. apply (list_elem_of_fmap_2 fst) in Hin. revert Hin. apply (bool_decide_unpack (a0 ∉ tf_table.*1)). vm_compute. exact I.
    + eapply runs_cons; [apply (tramp_fetch _ _ _ (tt_tramp _ _ _ _ Ht4))| |constructor].
      rewrite effect_csrrw_sscratch by done.
      assert (Hg4 : get_reg h4 a0 = TRAPFRAME).
      { unfold h4. rewrite load_regs_other; [done|]. apply (bool_decide_unpack (a0 ∉ tf_table.*1)). vm_compute. exact I. }
      transitivity (Some (set_reg a0 v (set_hcsr sscratch (get_reg h4 a0) h4))); [reflexivity|]. by rewrite Hg4.
Qed.

(** userret: the hart has every register that the trapframe holds, translates
    through the page table of the process, and goes on as sret says; the next
    trap will find TRAPFRAME in sscratch. *)
Lemma userret_spec h kpt TK upt TU tf :
  placed userret userret_code → trampoline ≤ userret → userret + 8 * 36 ≤ trampoline + PGSIZE →
  tramp h kpt TK → h_pc h = TRAMPOLINE + (userret - trampoline) → get_reg h a0 = TRAPFRAME → get_reg h a1 = MAKE_SATP upt →
  page_ok upt → tramp_tf (set_hcsr satp (MAKE_SATP upt) h) upt TU tf →
  ∃ h', steps 36 h = Some h' ∧ (∀ r, r ≠ zero → get_reg h' r = load64 (h_mem h) (tf + tf_slot r)) ∧
    h_mem h' = h_mem h ∧ h_pc h' = h_csr h sepc ∧ h_mode h' = (if bit (h_csr h mstatus) 8 then Supervisor else User) ∧
    h_csr h' sscratch = TRAPFRAME ∧ h_csr h' satp = MAKE_SATP upt ∧ h_csr h' mstatus = h_csr (sret h) mstatus ∧
    ∀ c, c ≠ satp → c ≠ sscratch → c ≠ mstatus → h_csr h' c = h_csr h c.
Proof.
  intros Hpl Ha Hlen Ht Hpc Ha0 Ha1 Hu HU.
  destruct (userret_runs h kpt TK upt TU tf Ht Hu Ha0 Ha1 HU) as [Hr HU']. rewrite userret_blocks in Hpl.
  destruct (tramp_jump _ _ _ _ _ _ _ _ _ Hr Ht (tt_tramp _ _ _ _ HU') Hpl Hpc Ha Hlen) as (pc & w & Hst).
  assert (Hex : execute Sret w (set_pc pc (userret_regs h upt tf)) = Some (sret (set_pc pc (userret_regs h upt tf)))).
  { unfold execute. by rewrite (tr_mode _ _ _ Ht : h_mode (set_pc pc (userret_regs h upt tf)) = Supervisor). }
  exists (sret (set_pc pc (userret_regs h upt tf))). split; [exact (eq_trans Hst Hex)|].
  split; [|split_and!; try reflexivity].
  - intros r Hz. destruct (decide (r = a0)) as [->|Hne]; [reflexivity|].
    transitivity (get_reg (load_regs (h_mem h) tf tf_table (set_hcsr sscratch (load64 (h_mem h) (tf + 112)) (set_reg t0 (load64 (h_mem h) (tf + 112)) (set_hcsr satp (MAKE_SATP upt) h)))) r).
    + exact (get_set_reg_ne a0 _ _ r Hne).
    + apply load_regs_in; [apply tf_table_regs|by apply tf_table_in|done].
  - intros c H1' H2' H3'. transitivity (h_csr (set_hcsr mstatus 0 (set_hcsr sscratch TRAPFRAME (set_hcsr sscratch 0 (set_hcsr satp (MAKE_SATP upt) h)))) c).
    + destruct c; (reflexivity || done).
    + by rewrite !hcsr_ne.
Qed.
End tramp.
