(* ===== verification/TrapTheory.v ===== *)
(** * From the kernel to user mode and back

    usertrapret() leaves a trapframe and control registers, userret and uservec
    move the registers of the user, and usertrap() starts: what the C code and the
    assembly code promise each other. *)

From Stdlib Require Import ZArith Lia.
From stdpp Require Import base numbers gmap strings countable tactics list.
From S2P Require Import Prelude Machine CString State Spinlock Kalloc Vm VmTheory VmMap VmUser Sched Process Sysfile Syscall SysTheory Trap Riscv RiscvTheory Sv39 Asm AsmTheory.

(** The hart [h] runs kernel code in the state [s]: same memory, same control
    registers. *)
Record hart_of (h : hart) (s : kstate) : Prop := {
  ho_mode : h_mode h = Supervisor;
  ho_mem : h_mem h = mem s;
  ho_satp : h_csr h satp = r_satp (csr s);
  ho_stvec : h_csr h stvec = r_stvec (csr s);
  ho_sepc : h_csr h sepc = r_sepc (csr s);
  ho_sie : bit (h_csr h mstatus) 1 = c_sie (cpu s);
  ho_spie : bit (h_csr h mstatus) 5 = r_spie (csr s);
  ho_spp : bit (h_csr h mstatus) 8 = r_spp (csr s);
}.

Section trap.
Context `{EnvOk}.

(** What usertrapret() writes for uservec. *)
Definition tf_entry (m : gmap Z Z) (tf ksatp ksp hartid : Z) : gmap Z Z :=
  store64 (store64 (store64 (store64 m (tf + TF_kernel_satp) ksatp) (tf + TF_kernel_sp) ksp) (tf + TF_kernel_trap) usertrap_addr)
    (tf + TF_kernel_hartid) hartid.

Definition user_csr (c : csr_t) (epc : Z) : csr_t :=
  set_r_sepc epc (set_r_spie true (set_r_spp false (set_r_stvec (TRAMPOLINE + (uservec - trampoline)) c))).

Definition leaving (s : kstate) (p : proc) : kstate :=
  set_csr (user_csr (csr s) (load64 (mem s) (p_trapframe p + TF_epc)))
    (set_mem (tf_entry (mem s) (p_trapframe p) (r_satp (csr s)) (u64 (p_kstack p + PGSIZE)) (c_id (cpu s)))
       (set_cpu (set_c_sie false (cpu s)) s)).

Lemma tf_entry_other m tf ksatp ksp hartid o : 40 ≤ o ∨ o = 24 →
  load64 (tf_entry m tf ksatp ksp hartid) (tf + o) = load64 m (tf + o).
Proof.
  intros Ho. unfold tf_entry, TF_kernel_satp, TF_kernel_sp, TF_kernel_trap, TF_kernel_hartid.
  rewrite !load64_store64_ne by lia. done.
Qed.

Lemma usertrapret_eq s i p : cpu_ok (cpu s) → c_proc (cpu s) = Some i → procs s !! i = Some p →
  usertrapret s = Ok (TRAMPOLINE + (userret - trampoline), TRAPFRAME, MAKE_SATP (p_pagetable p)) (leaving s p).
Proof.
  intros Hc Hi Hp. assert (Hpt : procs s !!! i = p) by by apply list_lookup_total_correct.
  unfold usertrapret. rewrite (bind_ok _ _ _ _ _ (cur_eq s i Hc Hi)). unfold intr_off, upd_csr, cpuid.
  do 3 mstep. erewrite bind_ok by (by apply tf_set_eq). unfold get_proc. mstep. simpl procs. rewrite Hpt.
  do 2 (erewrite bind_ok by (by apply tf_set_eq)). mstep. erewrite bind_ok by (by apply tf_set_eq). mstep.
  erewrite bind_ok by (by apply tf_get_eq). do 2 mstep. simpl procs. rewrite Hpt.
  unfold mret, M_ret, leaving. f_equal.
  assert (He : load64 (tf_entry (mem s) (p_trapframe p) (r_satp (csr s)) (u64 (p_kstack p + PGSIZE)) (c_id (cpu s))) (p_trapframe p + TF_epc) =
    load64 (mem s) (p_trapframe p + TF_epc)) by (apply tf_entry_other; by right).
  rewrite <- He. reflexivity.
Qed.
End trap.

Section round.
Context `{EnvOk} `{Text}.

(** Where the linker put the trampoline page. *)
Record tramp_layout : Prop := {
  tl_uservec : placed uservec uservec_code;
  tl_userret : placed userret userret_code;
  tl_uservec_in : trampoline ≤ uservec ∧ uservec + 8 * 40 ≤ trampoline + PGSIZE;
  tl_userret_in : trampoline ≤ userret ∧ userret + 8 * 36 ≤ trampoline + PGSIZE;
  tl_align : uservec mod 4 = 0;
}.

(** The page table at [root] maps the trampoline page, and the one of a process
    its trapframe as well. *)
Record kernel_space (m : gmap Z Z) (root : Z) (T : gmap (list Z) Z) (tf : Z) : Prop := {
  ks_rep : pt_rep m root T;
  ks_tramp : maps m T TRAMPOLINE trampoline (Z.lor PTE_R PTE_X);
  ks_clear : clear_of T tf PGSIZE;
}.

Record user_space (m : gmap Z Z) (root : Z) (T : gmap (list Z) Z) (tf : Z) : Prop := {
  usp_kernel : kernel_space m root T tf;
  usp_tf : maps m T TRAPFRAME tf (Z.lor PTE_R PTE_W);
}.

Lemma maps_same m m' root T vp pp perm : pt_rep m root T → (∀ p, is_table T p → same_page p m m') →
  maps m T vp pp perm → maps m' T vp pp perm.
Proof. intros Hr Hs (Hl & Hrest). split; [|done]. by rewrite (leaf_same_tables root m m'). Qed.

Lemma kernel_space_same m m' root T tf : kernel_space m root T tf → (∀ p, is_table T p → same_page p m m') → kernel_space m' root T tf.
Proof. intros [Hr Hm Hc] Hs. split; [by eapply rep_same|by eapply maps_same|done]. Qed.

Lemma user_space_same m m' root T tf : user_space m root T tf → (∀ p, is_table T p → same_page p m m') → user_space m' root T tf.
Proof. intros [Hk Hm] Hs. split; [by eapply kernel_space_same|]. eapply maps_same; [apply Hk|done|done]. Qed.

Lemma space_tramp h root T tf : kernel_space (h_mem h) root T tf → h_mode h = Supervisor → h_csr h satp = MAKE_SATP root → tramp h root T.
Proof. intros [Hr Hm Hc] Hmode Hs. split; [done| |done]. split; [by rewrite Hmode|done|done]. Qed.

Lemma space_tramp_tf h root T tf : user_space (h_mem h) root T tf → h_mode h = Supervisor → h_csr h satp = MAKE_SATP root → tramp_tf h root T tf.
Proof. intros [Hk Hm] Hmode Hs. split; [by eapply space_tramp|done|apply Hk]. Qed.

Lemma tf_entry_same T m tf ksatp ksp hartid p : clear_of T tf PGSIZE → is_table T p → same_page p m (tf_entry m tf ksatp ksp hartid).
Proof.
  intros Hc Hp a Ha. unfold tf_entry, TF_kernel_satp, TF_kernel_sp, TF_kernel_trap, TF_kernel_hartid.
  destruct (Hc p Hp); unfold PGSIZE in *; rewrite !load8_store64_ne by lia; done.
Qed.

Lemma tf_entry_words m tf ksatp ksp hartid : 0 ≤ ksatp < 2 ^ 64 → 0 ≤ ksp < 2 ^ 64 → 0 ≤ usertrap_addr < 2 ^ 64 → 0 ≤ hartid < 2 ^ 64 →
  let m' := tf_entry m tf ksatp ksp hartid in
  load64 m' (tf + 0) = ksatp ∧ load64 m' (tf + 8) = ksp ∧ load64 m' (tf + 16) = usertrap_addr ∧ load64 m' (tf + 32) = hartid.
Proof.
  intros ? ? ? ? m'. unfold m', tf_entry, TF_kernel_satp, TF_kernel_sp, TF_kernel_trap, TF_kernel_hartid. split_and!.
  - rewrite !load64_store64_ne by lia. by apply load64_store64.
  - rewrite !load64_store64_ne by lia. by apply load64_store64.
  - rewrite load64_store64_ne by lia. by apply load64_store64.
  - by apply load64_store64.
Qed.

Lemma make_satp_range root : page_ok root → 0 ≤ MAKE_SATP root < 2 ^ 64.
Proof.
  intros Hr. pose proof (satp_fields root Hr) as [Hs _]. rewrite Z.shiftr_div_pow2 in Hs by lia.
  revert Hs. pow2. intros. Z.div_mod_to_equations. lia.
Qed.

(** ** Leaving the kernel *)
Lemma leave_spec s p h kpt TK TU : tramp_layout → hart_of h (leaving s p) →
  h_pc h = TRAMPOLINE + (userret - trampoline) → get_reg h a0 = TRAPFRAME → get_reg h a1 = MAKE_SATP (p_pagetable p) →
  r_satp (csr s) = MAKE_SATP kpt → kernel_space (mem s) kpt TK (p_trapframe p) → user_space (mem s) (p_pagetable p) TU (p_trapframe p) →
  ∃ hu, steps 36 h = Some hu ∧ h_mode hu = User ∧ h_pc hu = load64 (mem s) (p_trapframe p + TF_epc) ∧
    (∀ r, r ≠ zero → get_reg hu r = load64 (mem s) (p_trapframe p + tf_slot r)) ∧ h_mem hu = mem (leaving s p) ∧
    bit (h_csr hu mstatus) 1 = true ∧ h_csr hu sscratch = TRAPFRAME ∧ h_csr hu satp = MAKE_SATP (p_pagetable p) ∧
    h_csr hu stvec = TRAMPOLINE + (uservec - trampoline) ∧
    ∀ c, c ≠ satp → c ≠ sscratch → c ≠ mstatus → h_csr hu c = h_csr h c.
Proof.
  intros L Hh Hpc Ha0 Ha1 Hsatp HK HU. set (tf := p_trapframe p) in *.
  assert (HK' : kernel_space (h_mem h) kpt TK tf).
  { rewrite (ho_mem _ _ Hh). eapply kernel_space_same; [exact HK|]. intros x Hx. apply (tf_entry_same TK); [apply HK|done]. }
  assert (HU' : user_space (h_mem h) (p_pagetable p) TU tf).
  { rewrite (ho_mem _ _ Hh). eapply user_space_same; [exact HU|]. intros x Hx. apply (tf_entry_same TU); [apply HU|done]. }
  assert (Hroot : page_ok (p_pagetable p)) by (eapply rep_ok, rep_root; apply HU).
  destruct (userret_spec h kpt TK (p_pagetable p) TU tf) as (hu & Hst & Hr & Hm & Hpcu & Hmode & Hss & Hsa & Hms & Hc); try apply L; try done.
  { eapply space_tramp; [exact HK'|apply Hh|]. by rewrite (ho_satp _ _ Hh). }
  { apply space_tramp_tf; [exact HU'|apply Hh|apply hcsr_eq]. }
  exists hu. split; [done|]. rewrite (ho_spp _ _ Hh) in Hmode. split_and!; try done.
  - by rewrite Hpcu, (ho_sepc _ _ Hh).
  - intros r Hz. rewrite Hr by done. rewrite (ho_mem _ _ Hh). apply tf_entry_other. left. destruct r; simpl; (done || lia).
  - by rewrite Hm, (ho_mem _ _ Hh).
  - rewrite Hms. unfold sret. cbn [h_csr set_pc set_mode]. rewrite hcsr_eq. rewrite (ho_spie _ _ Hh).
    rewrite !bit_set_ne, bit_set_eq by lia. done.
  - rewrite Hc by done. by rewrite (ho_stvec _ _ Hh).
Qed.

(** ** Entering the kernel *)

(** The user ran: it cannot change control registers, the trapframe or tables. *)
Record user_ran (hu hv : hart) (TU TK : gmap (list Z) Z) (tf : Z) : Prop := {
  ur_mode : h_mode hv = User;
  ur_csr : h_csr hv = h_csr hu;
  ur_tf : same_page tf (h_mem hu) (h_mem hv);
  ur_tables : ∀ p, is_table TU p ∨ is_table TK p → same_page p (h_mem hu) (h_mem hv);
}.

Lemma enter_spec hv cause tval kpt TK upt TU tf : tramp_layout → h_mode hv = User → delegated hv cause = true → regs_ok hv →
  h_csr hv sscratch = TRAPFRAME → h_csr hv satp = MAKE_SATP upt → h_csr hv stvec = TRAMPOLINE + (uservec - trampoline) →
  load64 (h_mem hv) (tf + 0) = MAKE_SATP kpt → kernel_space (h_mem hv) kpt TK tf → user_space (h_mem hv) upt TU tf →
  ∃ hk, steps 40 (trap cause tval hv) = Some hk ∧ h_mode hk = Supervisor ∧ h_pc hk = load64 (h_mem hv) (tf + 16) ∧
    get_reg hk sp = load64 (h_mem hv) (tf + 8) ∧ get_reg hk tp = load64 (h_mem hv) (tf + 32) ∧ h_csr hk satp = MAKE_SATP kpt ∧
    bit (h_csr hk mstatus) 1 = false ∧ bit (h_csr hk mstatus) 8 = false ∧ h_csr hk sepc = h_pc hv ∧ h_csr hk scause = cause ∧ h_csr hk stval = tval ∧
    (∀ r, r ≠ zero → load64 (h_mem hk) (tf + tf_slot r) = get_reg hv r) ∧
    (∀ a, ¬ (tf ≤ a < tf + PGSIZE) → load8 (h_mem hk) a = load8 (h_mem hv) a).
Proof.
  intros L Hm Hd Hreg Hss Hsa Hstv Hks HK HU. unfold trap. rewrite Hd. set (h := trap_s cause tval hv).
  assert (Hcsr : ∀ c, c ≠ mstatus → c ≠ stval → c ≠ scause → c ≠ sepc → h_csr h c = h_csr hv c).
  { intros c ? ? ? ?. unfold h, trap_s. cbn [h_csr set_pc set_mode]. by rewrite !hcsr_ne. }
  assert (Hal : Z.ldiff (TRAMPOLINE + (uservec - trampoline)) 3 = TRAMPOLINE + (uservec - trampoline)).
  { pose proof (tl_align L). pose proof env_tramp as Hta. change 3 with (Z.ones 2). rewrite Z.ldiff_ones_r, Z.shiftl_mul_pow2, Z.shiftr_div_pow2 by lia.
    assert (TRAMPOLINE mod 4 = 0) by reflexivity. unfold PGSIZE in Hta. change (2 ^ 2) with 4. Z.div_mod_to_equations. lia. }
  destruct (uservec_spec h upt TU kpt TK tf) as (hk & Hst & Ht & Hmem & Hpc & Hsp & Htp & Hc); try apply L; try done.
  { apply space_tramp_tf; [done|done|]. by rewrite Hcsr. }
  { unfold h, trap_s. simpl h_pc. by rewrite Hstv. }
  { eapply rep_ok, rep_root; apply HK. }
  { by apply (space_tramp _ _ _ tf); [|done|apply hcsr_eq]. }
  { apply HK. }
  exists hk. split; [done|]. split_and!; try done.
  - apply Ht.
  - apply (tr_paged _ _ _ Ht).
  - rewrite Hc by done. unfold h, trap_s. cbn [h_csr set_pc set_mode]. rewrite hcsr_eq. rewrite bit_set_ne, bit_set_eq by lia. done.
  - rewrite Hc by done. unfold h, trap_s. cbn [h_csr set_pc set_mode]. rewrite hcsr_eq, bit_set_eq, Hm by lia. done.
  - by rewrite Hc.
  - by rewrite Hc.
  - by rewrite Hc.
  - intros r Hz. rewrite Hmem. by rewrite tf_saved_reg.
  - intros a Ha. rewrite Hmem. by rewrite tf_saved_outside.
Qed.
End round.
