(* ===== verification/KvecTheory.v ===== *)
(** * kernelvec.S and swtch.S: an interrupt of the kernel, a switch of stacks

    kernelvec pushes every register on the kernel stack and pops them after
    kerneltrap(); swtch exchanges the registers that a C function may rely on
    after a call. *)

From Stdlib Require Import ZArith Lia.
From stdpp Require Import base numbers gmap strings countable tactics list.
From S2P Require Import Prelude Machine CString State Spinlock Kalloc Vm VmTheory VmMap VmUser Riscv RiscvTheory Sv39 Asm AsmTheory.

(** Where kernelvec keeps a register in its frame of 256 bytes. *)
Definition kv_regs : list reg :=
  [ra; sp; gp; tp; t0; t1; t2; s0; s1; a0; a1; a2; a3; a4; a5; a6; a7; s2; s3; s4; s5; s6; s7; s8; s9; s10; s11; t3; t4; t5; t6].
Definition kv_table : list (reg * Z) := imap (λ k r, (r, 8 * Z.of_nat k)) kv_regs.
Definition kv_back : list (reg * Z) := filter (λ e, e.1 ≠ tp) kv_table.

(** struct context of kernel/proc.h *)
Definition ctx_regs : list reg := [ra; sp; s0; s1; s2; s3; s4; s5; s6; s7; s8; s9; s10; s11].
Definition ctx_table : list (reg * Z) := imap (λ k r, (r, 8 * Z.of_nat k)) ctx_regs.

Lemma kv_table_ok : table_ok 256 kv_table.
Proof. apply table_ok_bool. vm_compute. reflexivity. Qed.
Lemma kv_back_ok : table_ok 256 kv_back.
Proof. apply table_ok_bool. vm_compute. reflexivity. Qed.
Lemma kv_back_regs : NoDup kv_back.*1.
Proof. apply (bool_decide_unpack _). vm_compute. reflexivity. Qed.
Lemma ctx_table_ok : table_ok 112 ctx_table.
Proof. apply table_ok_bool. vm_compute. reflexivity. Qed.
Lemma ctx_table_regs : NoDup ctx_table.*1.
Proof. apply (bool_decide_unpack _). vm_compute. reflexivity. Qed.

Lemma kv_back_in r : r ≠ zero → r ≠ tp → ∃ o, (r, o) ∈ kv_back ∧ (r, o) ∈ kv_table.
Proof.
  intros Hz Ht. assert (Hex : existsb (λ e : reg * Z, bool_decide (e.1 = r)) kv_back = true) by (destruct r; (done || vm_compute; reflexivity)).
  apply existsb_exists in Hex as ([r' o] & Hin%list_elem_of_In & He%bool_decide_eq_true). simpl in He. subst r'.
  exists o. split; [done|]. by apply list_elem_of_filter in Hin as [_ Hin].
Qed.

Lemma ctx_table_in r : r ∈ ctx_regs → ∃ o, (r, o) ∈ ctx_table.
Proof.
  intros [k Hk]%list_elem_of_lookup. exists (8 * Z.of_nat k). apply list_elem_of_lookup. exists k.
  unfold ctx_table. by rewrite list_lookup_imap, Hk.
Qed.

(** Words of an area that no byte of has changed. *)
Lemma words_same m m' pa n o : (∀ a, pa ≤ a < pa + n → load8 m' a = load8 m a) → 0 ≤ o → o + 8 ≤ n → load64 m' (pa + o) = load64 m (pa + o).
Proof. intros He Ho Hn. apply load64_ext. intros x Hx. apply He. lia. Qed.

Section kvec.
Context `{EnvOk} `{Text} `{Boot}.

Lemma kernelvec_blocks : kernelvec_code = ([Addi sp sp (-256)] ++ saves sp kv_table) ++ Call kerneltrap_addr :: (loads sp kv_back ++ [Addi sp sp 256]) ++ [Sret].
Proof. reflexivity. Qed.

(** The frame is in the kernel stack page [vp], which is the physical page [pp]. *)
Record on_stack (h : hart) (root : Z) (T : gmap (list Z) Z) (vp pp : Z) : Prop := {
  os_mode : h_mode h = Supervisor;
  os_paged : paged h root T;
  os_maps : maps (h_mem h) T vp pp (Z.lor PTE_R PTE_W);
  os_clear : clear_of T pp PGSIZE;
  os_text : fetchable h kernelvec kernelvec 520;
}.

Lemma on_stack_ext h h' root T vp pp : on_stack h root T vp pp → h_mode h' = Supervisor → h_csr h' satp = h_csr h satp →
  (∀ k, 18 ≤ k → bit (h_csr h' mstatus) k = bit (h_csr h mstatus) k) → (∀ p, is_table T p → same_page p (h_mem h) (h_mem h')) →
  on_stack h' root T vp pp.
Proof.
  intros [Hm Hp Hmap Hc Ht] Hm' Hs Hst Hsame. assert (Hr := pg_rep _ _ _ Hp).
  assert (Hp' : paged h' root T) by (split; [by rewrite Hm'|rewrite Hs; apply Hp|by eapply rep_same]).
  assert (Htr : ∀ acc va, translate h' acc va = translate h acc va).
  { intros acc va. rewrite (translate_eq _ _ _ _ _ Hp), (translate_eq _ _ _ _ _ Hp').
    rewrite (leaf_same_tables root (h_mem h) (h_mem h') T va Hr Hsame). destruct (canonical va); [|done].
    destruct (hw_leaf _) as [[v l]|]; [|done]. simpl. unfold resolve, allowed. by rewrite Hm', Hm, !Hst by lia. }
  split; [done|done| |done|by eapply fetchable_ext].
  destruct Hmap as (Hl & Hrest). split; [|done]. by rewrite (leaf_same_tables root (h_mem h)).
Qed.

(** The registers that kernelvec finds. *)
Definition pushed_hart (h : hart) (fa : Z) : hart :=
  let h1 := set_reg sp (get_reg h sp - 256) h in set_hmem (save_mem (get_reg h1) fa kv_table (h_mem h)) h1.

Lemma kernelvec_push h root T vp pp o : on_stack h root T vp pp → placed kernelvec kernelvec_code → h_pc h = kernelvec →
  0 ≤ kernelvec → kernelvec + 520 < 2 ^ 64 → get_reg h sp = vp + o + 256 → 0 ≤ o → o mod 8 = 0 → o + 256 ≤ PGSIZE →
  ∃ ret, placed ret ((loads sp kv_back ++ [Addi sp sp 256]) ++ [Sret]) ∧ kernelvec ≤ ret ∧ ret + 8 * 32 ≤ kernelvec + 520 ∧
    steps 33 h = Some (set_pc (u64 kerneltrap_addr) (set_reg ra ret (pushed_hart h (pp + o)))) ∧ on_stack (pushed_hart h (pp + o)) root T vp pp.
Proof.
  intros Hs Hpl Hpc Hk0 Hk1 Hsp Ho Hal Hle. pose proof (os_maps _ _ _ _ _ Hs) as (_ & Hv & Hvr & _).
  set (h1 := set_reg sp (get_reg h sp - 256) h).
  assert (Hs1 : on_stack h1 root T vp pp) by (by eapply (on_stack_ext h); [|apply Hs|..]).
  assert (Hg : get_reg h1 sp = vp + o) by (unfold h1; rewrite get_set_reg_eq by done; lia).
  assert (Hfr : frozen h1 (pp + o) 256).
  { apply (paged_frozen _ root T); [apply Hs1|]. intros x Hx. destruct (os_clear _ _ _ _ _ Hs x Hx); lia. }
  assert (Hr : runs kernelvec kernelvec 520 ([Addi sp sp (-256)] ++ saves sp kv_table) h (pushed_hart h (pp + o))).
  { apply (runs_cons _ _ _ _ _ h h1); [apply Hs| |].
    - simpl. rewrite u64_small; [reflexivity|]. rewrite Hsp. unfold MAXVA in Hvr.
      change (Z.shiftl 1 (9 + 9 + 9 + 12 - 1)) with (2 ^ 38) in Hvr. revert Hvr. unfold PGSIZE in *. pow2. lia.
    - apply (save_runs kernelvec kernelvec 520 sp (pp + o) 256 kv_table h1); [apply Hs1| |done|apply kv_table_ok].
      rewrite Hg. by eapply maps_area; [apply Hs1|apply Hs1|apply Hs1|..]. }
  rewrite kernelvec_blocks in Hpl. rewrite <- (Z.add_0_r kernelvec) in Hpl.
  destruct (runs_steps kernelvec kernelvec 520 _ _ h _ 0 Hr Hpl) as (o' & Ho' & (w & Hc & Hw & Hpl') & Hst); try lia.
  { simpl. lia. }
  assert (Hs2 : on_stack (pushed_hart h (pp + o)) root T vp pp).
  { eapply (on_stack_ext h); [done|apply Hs|reflexivity|done|]. intros x Hx a Ha.
    apply (save_mem_outside _ _ 256); [apply kv_table_ok|]. destruct (os_clear _ _ _ _ _ Hs x Hx); lia. }
  simpl in Ho'. exists (kernelvec + (o' + w)). rewrite Z.add_assoc. split; [done|]. split; [lia|]. split; [lia|]. split; [|done].
  etransitivity; [exact (steps_app _ 1 _ _ Hst)|]. simpl. unfold step. simpl h_pc. rewrite translate_set_pc, (os_text _ _ _ _ _ Hs2) by lia. simpl.
  rewrite Hc. simpl. rewrite (u64_small (kernelvec + o' + w)) by lia. reflexivity.
Qed.

(** kerneltrap() comes back as a C function does: to its return address, on the
    same stack, with the caller's frame as it was; and it has put sstatus and sepc
    back. *)
Record returned (h1 h2 : hart) (T : gmap (list Z) Z) (fa : Z) : Prop := {
  rt_mode : h_mode h2 = Supervisor;
  rt_pc : h_pc h2 = get_reg h1 ra;
  rt_sp : get_reg h2 sp = get_reg h1 sp;
  rt_satp : h_csr h2 satp = h_csr h1 satp;
  rt_mstatus : h_csr h2 mstatus = h_csr h1 mstatus;
  rt_sepc : h_csr h2 sepc = h_csr h1 sepc;
  rt_tables : ∀ p, is_table T p → same_page p (h_mem h1) (h_mem h2);
  rt_frame : ∀ a, fa ≤ a < fa + 256 → load8 (h_mem h2) a = load8 (h_mem h1) a;
}.

Lemma kernelvec_pop h2 root T vp pp o ret : on_stack h2 root T vp pp → placed ret ((loads sp kv_back ++ [Addi sp sp 256]) ++ [Sret]) →
  0 ≤ kernelvec ≤ ret → ret + 8 * 32 ≤ kernelvec + 520 → kernelvec + 520 < 2 ^ 64 → h_pc h2 = ret →
  get_reg h2 sp = vp + o → 0 ≤ o → o mod 8 = 0 → o + 256 ≤ PGSIZE → load64 (h_mem h2) (pp + o + 8) = vp + o →
  ∃ h3, steps 32 h2 = Some h3 ∧ (∀ r x, r ≠ zero → r ≠ sp → (r, x) ∈ kv_back → get_reg h3 r = load64 (h_mem h2) (pp + o + x)) ∧
    get_reg h3 sp = vp + o + 256 ∧ get_reg h3 tp = get_reg h2 tp ∧ h_mem h3 = h_mem h2 ∧ h_pc h3 = h_csr h2 sepc ∧
    h_mode h3 = (if bit (h_csr h2 mstatus) 8 then Supervisor else User) ∧ h_csr h3 = h_csr (sret h2).
Proof.
  intros Hs Hpl Hk Hlen Hk1 Hpc Hsp Ho Hal Hle Hw. pose proof (os_maps _ _ _ _ _ Hs) as (_ & Hv & Hvr & _).
  set (h3 := load_regs (h_mem h2) (pp + o) kv_back h2).
  assert (Hg : get_reg h3 sp = vp + o).
  { unfold h3. rewrite (load_regs_in _ _ _ _ sp 8); [done|apply kv_back_regs| |done]. apply list_elem_of_lookup. by exists 1%nat. }
  assert (Hu : u64 (get_reg h3 sp + 256) = vp + o + 256).
  { rewrite Hg, u64_small; [done|]. unfold MAXVA in Hvr. change (Z.shiftl 1 (9 + 9 + 9 + 12 - 1)) with (2 ^ 38) in Hvr. revert Hvr. unfold PGSIZE in *. pow2. lia. }
  set (h4 := set_reg sp (vp + o + 256) h3).
  assert (Hf : ∀ h', h_mode h' = h_mode h2 → h_csr h' = h_csr h2 → h_mem h' = h_mem h2 → fetchable h' kernelvec kernelvec 520).
  { intros h' E1 E2 E3. eapply fetchable_ext; [|apply Hs]. intros. apply translate_ext; [done|by rewrite E2|by rewrite E2|done]. }
  assert (Hr : runs kernelvec kernelvec 520 (loads sp kv_back ++ [Addi sp sp 256]) h2 h4).
  { eapply runs_app; [apply (load_runs kernelvec kernelvec 520 sp (pp + o) 256 kv_back h2); [apply Hs| |apply kv_back_ok|]|].
    - rewrite Hsp. eapply maps_area; [apply Hs|apply Hs|apply Hs|done..].
    - intros x Hin. rewrite Hsp. assert (x = 8) as ->; [|done].
      revert Hin. unfold kv_back. intros [_ Hin]%list_elem_of_filter. apply list_elem_of_lookup in Hin as [k Hin].
      unfold kv_table in Hin. rewrite list_lookup_imap in Hin. apply fmap_Some in Hin as (r & Hr & [= <- ->]).
      assert (k = 1%nat) as ->; [|done]. eapply NoDup_lookup; [apply (bool_decide_unpack (NoDup kv_regs)); vm_compute; exact I|exact Hr|reflexivity].
    - apply (runs_cons _ _ _ _ _ _ h4); [by apply Hf| |constructor]. change (Some (set_reg sp (u64 (get_reg h3 sp + 256)) h3) = Some h4). by rewrite Hu. }
  destruct (runs_jump kernelvec kernelvec 520 _ Sret h2 h4 (ret - kernelvec) Hr) as (o' & w & Hst & _); try lia.
  { by apply Hf. }
  { by replace (kernelvec + (ret - kernelvec)) with ret by lia. }
  { simpl. lia. }
  assert (Hex : execute Sret w (set_pc (kernelvec + o') h4) = Some (sret (set_pc (kernelvec + o') h4))).
  { unfold execute. by rewrite (os_mode _ _ _ _ _ Hs : h_mode (set_pc (kernelvec + o') h4) = Supervisor). }
  exists (sret (set_pc (kernelvec + o') h4)). split; [exact (eq_trans Hst Hex)|]. split_and!; try reflexivity.
  intros r x Hz Hns Hin. transitivity (get_reg h3 r); [exact (get_set_reg_ne sp _ _ r Hns)|]. by apply load_regs_in; [apply kv_back_regs|..].
Qed.

(** What the frame holds. *)
Lemma pushed_words h fa r x : (∀ r, 0 ≤ get_reg (set_reg sp (get_reg h sp - 256) h) r < 2 ^ 64) → (r, x) ∈ kv_table →
  load64 (h_mem (pushed_hart h fa)) (fa + x) = get_reg (set_reg sp (get_reg h sp - 256) h) r.
Proof. intros Hg Hin. by apply (save_mem_in _ _ 256); [apply kv_table_ok|..]. Qed.

(** kernelvec to kerneltrap(), and from its return to sret. *)
Lemma kernelvec_round h root T vp pp o : placed kernelvec kernelvec_code → 0 ≤ kernelvec → kernelvec + 520 < 2 ^ 64 →
  on_stack h root T vp pp → regs_ok h → h_pc h = kernelvec → get_reg h sp = vp + o + 256 → 0 ≤ o → o mod 8 = 0 → o + 256 ≤ PGSIZE →
  ∃ h1, steps 33 h = Some h1 ∧ h_pc h1 = u64 kerneltrap_addr ∧ h_mode h1 = Supervisor ∧ h_csr h1 = h_csr h ∧
    (∀ a, ¬ (pp + o ≤ a < pp + o + 256) → load8 (h_mem h1) a = load8 (h_mem h) a) ∧
    ∀ h2, returned h1 h2 T (pp + o) →
    ∃ h3, steps 32 h2 = Some h3 ∧ (∀ r, r ≠ tp → get_reg h3 r = get_reg h r) ∧ get_reg h3 tp = get_reg h2 tp ∧ h_mem h3 = h_mem h2 ∧
      h_pc h3 = h_csr h2 sepc ∧ h_mode h3 = (if bit (h_csr h2 mstatus) 8 then Supervisor else User) ∧ h_csr h3 = h_csr (sret h2).
Proof.
  intros Hpl Hk0 Hk1 Hs Hr Hpc Hsp Ho Hal Hle.
  destruct (kernelvec_push h root T vp pp o Hs Hpl Hpc Hk0 Hk1 Hsp Ho Hal Hle) as (ret & Hplr & Hret0 & Hret1 & Hrun & Hs1).
  set (h1 := set_pc _ _) in Hrun. set (g := set_reg sp (get_reg h sp - 256) h).
  assert (Hsp1 : get_reg g sp = vp + o) by (unfold g; rewrite get_set_reg_eq by done; lia).
  assert (Hg : ∀ r, 0 ≤ get_reg g r < 2 ^ 64).
  { intros r. unfold g. rewrite get_set_reg. repeat case_decide; [pow2; lia| |apply Hr]. pose proof (Hr sp). pose proof (os_maps _ _ _ _ _ Hs) as (_ & _ & ? & _). lia. }
  exists h1. split; [done|]. split_and!; try done.
  { apply Hs1. }
  { intros a Ha. apply (save_mem_outside _ _ 256); [apply kv_table_ok|done]. }
  intros h2 Hret. assert (Hs2 : on_stack h2 root T vp pp).
  { eapply (on_stack_ext (pushed_hart h (pp + o))); [done|apply Hret|apply Hret|intros; by rewrite (rt_mstatus _ _ _ _ Hret)|apply Hret]. }
  assert (Hw : ∀ r x, (r, x) ∈ kv_table → load64 (h_mem h2) (pp + o + x) = get_reg g r).
  { intros r x Hin. destruct (table_ok_in _ _ _ _ kv_table_ok Hin) as (X0 & X1 & _).
    rewrite (words_same (h_mem h1) _ _ 256) by (done || apply Hret). by apply pushed_words. }
  destruct (kernelvec_pop h2 root T vp pp o ret Hs2 Hplr) as (h3 & Hrun3 & Hregs & Hsp3 & Hrest); try done; try lia.
  { by rewrite (rt_pc _ _ _ _ Hret). }
  { rewrite (rt_sp _ _ _ _ Hret). exact Hsp1. }
  { rewrite (Hw sp 8); [done|]. apply list_elem_of_lookup. by exists 1%nat. }
  exists h3. split; [done|]. split; [|done]. intros r Hne. destruct (decide (r = zero)) as [->|Hz]; [done|].
  destruct (decide (r = sp)) as [->|Hns]; [by rewrite Hsp3, Hsp|].
  destruct (kv_back_in r Hz Hne) as (x & Hin & Hin'). rewrite (Hregs r x), (Hw r x) by done. unfold g. by rewrite get_set_reg_ne.
Qed.

(** ** swtch *)
Lemma swtch_blocks : swtch_code = (saves a0 ctx_table ++ loads a1 ctx_table) ++ [Ret].
Proof. reflexivity. Qed.

(** Kernel data is mapped to itself and holds no table. *)
Definition kernel_data (h : hart) (a n : Z) : Prop := area h a a n ∧ frozen h a n.

Lemma swtch_spec h old new : placed swtch_addr swtch_code → 0 ≤ swtch_addr → swtch_addr + 232 < 2 ^ 64 → fetchable h swtch_addr swtch_addr 232 →
  h_pc h = swtch_addr → get_reg h a0 = old → get_reg h a1 = new → kernel_data h old 112 → kernel_data h new 112 →
  ∃ h', steps 29 h = Some h' ∧ h_mem h' = save_mem (get_reg h) old ctx_table (h_mem h) ∧
    (∀ r o, (r, o) ∈ ctx_table → get_reg h' r = load64 (h_mem h') (new + o)) ∧ h_pc h' = get_reg h' ra ∧
    (∀ r, r ∉ ctx_regs → get_reg h' r = get_reg h r) ∧ h_csr h' = h_csr h ∧ h_mode h' = h_mode h.
Proof.
  intros Hpl H0' H1' Hf Hpc Ha0 Ha1 [Hao Hzo] [Han Hzn]. set (m1 := save_mem (get_reg h) old ctx_table (h_mem h)). set (h1 := set_hmem m1 h).
  assert (Htr : ∀ acc va, translate h1 acc va = translate h acc va).
  { apply Hzo. intros a Ha. apply (save_mem_outside _ _ 112); [apply ctx_table_ok|done]. }
  assert (Hf1 : fetchable h1 swtch_addr swtch_addr 232) by (by eapply fetchable_ext).
  set (h2 := load_regs m1 new ctx_table h1).
  assert (Hr : runs swtch_addr swtch_addr 232 (saves a0 ctx_table ++ loads a1 ctx_table) h h2).
  { eapply runs_app; [apply (save_runs swtch_addr swtch_addr 232 a0 old 112 ctx_table h); [done|by rewrite Ha0|done|apply ctx_table_ok]|].
    apply (load_runs swtch_addr swtch_addr 232 a1 new 112 ctx_table h1); [done| |apply ctx_table_ok|].
    - change (get_reg h1 a1) with (get_reg h a1). rewrite Ha1. by eapply area_ext.
    - intros o Hin. exfalso. apply (list_elem_of_fmap_2 fst) in Hin. revert Hin. apply (bool_decide_unpack (a1 ∉ ctx_table.*1)). vm_compute. exact I. }
  destruct (load_regs_parts m1 new ctx_table h1) as (P1 & P2 & _ & P4).
  rewrite swtch_blocks in Hpl. rewrite <- (Z.add_0_r swtch_addr) in Hpl.
  destruct (runs_jump swtch_addr swtch_addr 232 _ Ret h h2 0 Hr) as (o' & w & Hst & _); try done; try lia.
  eexists. split; [exact Hst|]. split_and!; try done.
  - intros r o Hin. apply load_regs_in; [apply ctx_table_regs|done|]. intros ->. apply (list_elem_of_fmap_2 fst) in Hin. revert Hin.
    apply (bool_decide_unpack (zero ∉ ctx_table.*1)). vm_compute. exact I.
  - intros r Hn. transitivity (get_reg h1 r); [|done]. apply (load_regs_other m1 new ctx_table h1).
    intros Hin. apply Hn. revert Hin. by change (ctx_table.*1) with ctx_regs.
Qed.
End kvec.
