(* ===== verification/BootTheory.v ===== *)
(** * Machine mode: the timer interrupt and the way to main()

    In machine mode addresses are physical, so a block runs wherever it lies. *)

From Stdlib Require Import ZArith Lia.
From stdpp Require Import base numbers gmap strings countable tactics list.
From S2P Require Import Prelude Machine CString State Riscv RiscvTheory Asm AsmTheory.

(** A run of straight-line code, without the fetches. *)
Inductive does : list instr → hart → hart → Prop :=
| does_nil h : does [] h h
| does_cons i l h h1 h2 : effect i h = Some h1 → h_mode h1 = h_mode h → does l h1 h2 → does (i :: l) h h2.

Lemma machine_translate h acc va : h_mode h = Machine_ → translate h acc va = Some va.
Proof. intros Hm. unfold translate. by rewrite Hm. Qed.

Lemma machine_fetch h va n : h_mode h = Machine_ → fetchable h va va n.
Proof. intros Hm o Ho. by apply machine_translate. Qed.

Lemma machine_runs va n l h h' : h_mode h = Machine_ → does l h h' → runs va va n l h h' ∧ h_mode h' = Machine_.
Proof.
  intros Hm. induction 1 as [h|i l h h1 h2 He Hm1 Hd IH]; [split; [constructor|done]|].
  destruct (IH ltac:(congruence)) as [Hr Hm2]. split; [|done]. econstructor; [by apply machine_fetch|done|done].
Qed.

Lemma does_app l1 l2 h h1 h2 : does l1 h h1 → does l2 h1 h2 → does (l1 ++ l2) h h2.
Proof. induction 1; intros; [done|]. econstructor; eauto. Qed.

Lemma does_sd rs off rb h a : h_mode h = Machine_ → get_reg h rb = a → 0 ≤ a + off < 2 ^ 64 → (a + off) mod 8 = 0 →
  effect (Sd rs off rb) h = Some (set_hmem (store64 (h_mem h) (a + off) (get_reg h rs)) h).
Proof. intros Hm Hb Hr Ha. unfold effect. rewrite Hb, u64_small, Ha by done. cbn [negb Z.eqb]. by rewrite machine_translate. Qed.

Lemma does_ld rd off rb h a : h_mode h = Machine_ → get_reg h rb = a → 0 ≤ a + off < 2 ^ 64 → (a + off) mod 8 = 0 →
  effect (Ld rd off rb) h = Some (set_reg rd (load64 (h_mem h) (a + off)) h).
Proof. intros Hm Hb Hr Ha. unfold effect. rewrite Hb, u64_small, Ha by done. cbn [negb Z.eqb]. by rewrite machine_translate. Qed.

Lemma does_csrrw_mscratch rd rs h : h_mode h = Machine_ →
  effect (Csrrw rd mscratch rs) h = Some (set_reg rd (h_csr h mscratch) (set_hcsr mscratch (get_reg h rs) h)).
Proof. intros Hm. unfold effect, may_write, may_read. by rewrite Hm. Qed.

Lemma does_csrw_sip rs h : h_mode h = Machine_ →
  effect (Csrw sip rs) h = Some (set_hcsr mip (merge (Z.land (h_csr h mideleg) 2) (h_csr h mip) (get_reg h rs)) h).
Proof. intros Hm. unfold effect, may_write, may_read. by rewrite Hm. Qed.

Section boot.
Context `{Text} `{Boot}.

Definition timervec_body : list instr := take 15 timervec_code.

Lemma timervec_blocks : timervec_code = timervec_body ++ [Mret].
Proof. reflexivity. Qed.

(** The scratch area with the three registers in it, and MTIMECMP moved on. *)
Definition timer_saved (h : hart) (scr : Z) : gmap Z Z :=
  store64 (store64 (store64 (h_mem h) (scr + 0) (get_reg h a1)) (scr + 8) (get_reg h a2)) (scr + 16) (get_reg h a3).
Definition timer_mem (h : hart) (scr cmp itv : Z) : gmap Z Z :=
  store64 (timer_saved h scr) (cmp + 0) (u64 (load64 (timer_saved h scr) (cmp + 0) + itv)).
Definition timer_mip (h : hart) : Z := merge (Z.land (h_csr h mideleg) 2) (h_csr h mip) 2.

(** The hart before the interrupt is raised, and before mret. *)
Definition timer_mid (h : hart) (scr cmp itv : Z) : hart :=
  let m1 := timer_saved h scr in
  set_hmem (timer_mem h scr cmp itv) (set_reg a3 (u64 (load64 m1 (cmp + 0) + itv)) (set_reg a3 (load64 m1 (cmp + 0))
    (set_reg a2 itv (set_reg a1 cmp (set_hmem m1 (set_reg a0 scr (set_hcsr mscratch (get_reg h a0) h))))))).
Definition timer_pop (g : hart) (scr : Z) : hart :=
  let m := h_mem g in
  let g1 := set_hcsr mip (timer_mip g) (set_reg a1 2 g) in
  set_reg a0 (h_csr g mscratch) (set_hcsr mscratch scr
    (set_reg a1 (load64 m (scr + 0)) (set_reg a2 (load64 m (scr + 8)) (set_reg a3 (load64 m (scr + 16)) g1)))).
Definition timer_back (h : hart) (scr cmp itv : Z) : hart := timer_pop (timer_mid h scr cmp itv) scr.

(** What timervec relies on: the area that timerinit() has filled. *)
Record timer_area (m : gmap Z Z) (scr cmp itv : Z) : Prop := {
  ta_scr : 0 ≤ scr ∧ scr + 40 ≤ 2 ^ 64 ∧ scr mod 8 = 0;
  ta_cmp : 0 ≤ cmp ∧ cmp + 8 ≤ 2 ^ 64 ∧ cmp mod 8 = 0;
  ta_apart : cmp + 8 ≤ scr ∨ scr + 40 ≤ cmp;
  ta_cmp_at : load64 m (scr + 24) = cmp;
  ta_itv_at : load64 m (scr + 32) = itv;
}.

Lemma timer_saved_keeps h scr o : 24 ≤ o → load64 (timer_saved h scr) (scr + o) = load64 (h_mem h) (scr + o).
Proof. intros Ho. unfold timer_saved. by rewrite !load64_store64_ne by lia. Qed.

(** One instruction more. *)
Ltac does_step tac := eapply does_cons; [tac|reflexivity|].

Lemma timervec_does_mid h scr cmp itv : h_mode h = Machine_ → h_csr h mscratch = scr → timer_area (h_mem h) scr cmp itv →
  does (take 9 timervec_body) h (timer_mid h scr cmp itv).
Proof.
  intros Hm Hs [(S0 & S1 & S2) (C0 & C1 & C2) Hd Hcmp Hitv].
  assert (Hal : ∀ k, (scr + 8 * k) mod 8 = 0) by (intros; Z.div_mod_to_equations; lia).
  assert (E1 : load64 (timer_saved h scr) (scr + 24) = cmp) by (rewrite timer_saved_keeps by lia; done).
  assert (E2 : load64 (timer_saved h scr) (scr + 32) = itv) by (rewrite timer_saved_keeps by lia; done).
  rewrite <- E1, <- E2.
  does_step ltac:(by rewrite does_csrrw_mscratch, Hs).
  does_step ltac:(apply (does_sd _ _ _ _ scr); [exact Hm|reflexivity|lia|exact (Hal 0)]).
  does_step ltac:(apply (does_sd _ _ _ _ scr); [exact Hm|reflexivity|lia|exact (Hal 1)]).
  does_step ltac:(apply (does_sd _ _ _ _ scr); [exact Hm|reflexivity|lia|exact (Hal 2)]).
  does_step ltac:(apply (does_ld _ _ _ _ scr); [exact Hm|reflexivity|lia|exact (Hal 3)]).
  does_step ltac:(apply (does_ld _ _ _ _ scr); [exact Hm|reflexivity|lia|exact (Hal 4)]).
  does_step ltac:(apply (does_ld _ _ _ _ (load64 (timer_saved h scr) (scr + 24))); [exact Hm|reflexivity|rewrite E1; lia|by rewrite E1, Z.add_0_r]).
  does_step ltac:(reflexivity).
  does_step ltac:(apply (does_sd _ _ _ _ (load64 (timer_saved h scr) (scr + 24))); [exact Hm|reflexivity|rewrite E1; lia|by rewrite E1, Z.add_0_r]).
  exact (does_nil _).
Qed.

Lemma timervec_does_pop g : let scr := get_reg g a0 in h_mode g = Machine_ → 0 ≤ scr ∧ scr + 40 ≤ 2 ^ 64 ∧ scr mod 8 = 0 →
  does (drop 9 timervec_body) g (timer_pop g scr).
Proof.
  intros scr Hm (S0 & S1 & S2). assert (Hal : ∀ k, (scr + 8 * k) mod 8 = 0) by (intros; Z.div_mod_to_equations; lia).
  does_step ltac:(reflexivity).
  does_step ltac:(by rewrite does_csrw_sip).
  does_step ltac:(apply (does_ld _ _ _ _ scr); [exact Hm|reflexivity|lia|exact (Hal 2)]).
  does_step ltac:(apply (does_ld _ _ _ _ scr); [exact Hm|reflexivity|lia|exact (Hal 1)]).
  does_step ltac:(apply (does_ld _ _ _ _ scr); [exact Hm|reflexivity|lia|exact (Hal 0)]).
  does_step ltac:(by rewrite does_csrrw_mscratch).
  exact (does_nil _).
Qed.

Lemma timervec_does h scr cmp itv : h_mode h = Machine_ → h_csr h mscratch = scr → timer_area (h_mem h) scr cmp itv →
  does timervec_body h (timer_back h scr cmp itv).
Proof.
  intros Hm Hs Ha. change timervec_body with (take 9 timervec_body ++ drop 9 timervec_body).
  eapply does_app; [by apply timervec_does_mid|].
  assert (Hg : get_reg (timer_mid h scr cmp itv) a0 = scr).
  { transitivity (get_reg (set_reg a3 (u64 (load64 (timer_saved h scr) (cmp + 0) + itv)) (set_reg a3 (load64 (timer_saved h scr) (cmp + 0))
      (set_reg a2 itv (set_reg a1 cmp (set_reg a0 scr h))))) a0); [reflexivity|]. rewrite !get_set_reg_ne by done. by apply get_set_reg_eq. }
  pose proof (timervec_does_pop (timer_mid h scr cmp itv)) as Hp. cbv zeta in Hp. rewrite Hg in Hp. apply Hp; [exact Hm|apply Ha].
Qed.

(** The area is as it was, MTIMECMP is one interval later, and other memory is
    untouched. *)
Lemma timer_mem_spec h scr cmp itv : regs_ok h → timer_area (h_mem h) scr cmp itv → let m := timer_mem h scr cmp itv in
  timer_area m scr cmp itv ∧ load64 m (cmp + 0) = u64 (load64 (h_mem h) (cmp + 0) + itv) ∧
  load64 m (scr + 0) = get_reg h a1 ∧ load64 m (scr + 8) = get_reg h a2 ∧ load64 m (scr + 16) = get_reg h a3 ∧
  (∀ a, ¬ (scr ≤ a < scr + 24) → ¬ (cmp ≤ a < cmp + 8) → load8 m a = load8 (h_mem h) a).
Proof.
  intros Hr [Hs Hc Hd Hcmp Hitv] m.
  assert (Hm : ∀ o, 0 ≤ o → o + 8 ≤ 40 → load64 m (scr + o) = load64 (timer_saved h scr) (scr + o)).
  { intros o H1 H2. unfold m, timer_mem. apply load64_store64_ne. lia. }
  split_and!.
  - split; try done; rewrite Hm, timer_saved_keeps by lia; done.
  - unfold m, timer_mem. rewrite load64_store64 by apply u64_range. do 2 f_equal. unfold timer_saved. by rewrite !load64_store64_ne by lia.
  - rewrite Hm by lia. unfold timer_saved. rewrite !load64_store64_ne by lia. by apply load64_store64.
  - rewrite Hm by lia. unfold timer_saved. rewrite load64_store64_ne by lia. by apply load64_store64.
  - rewrite Hm by lia. unfold timer_saved. by apply load64_store64.
  - intros a H1 H2. unfold m, timer_mem, timer_saved. by rewrite !load8_store64_ne by lia.
Qed.

Lemma timer_regs h scr cmp itv r : regs_ok h → timer_area (h_mem h) scr cmp itv → get_reg (timer_back h scr cmp itv) r = get_reg h r.
Proof.
  intros Hr Ha. destruct (timer_mem_spec h scr cmp itv Hr Ha) as (_ & _ & E1 & E2 & E3 & _).
  destruct r; try reflexivity; [exact E1|exact E2|exact E3].
Qed.

Lemma exec_mret w h : h_mode h = Machine_ → execute Mret w h = Some (mret_ h).
Proof. intros Hm. unfold execute. by rewrite Hm. Qed.

Lemma timer_back_csr h scr cmp itv c : h_csr h mscratch = scr → c ≠ mip → h_csr (timer_back h scr cmp itv) c = h_csr h c.
Proof.
  intros Hs Hc. transitivity (h_csr (set_hcsr mscratch scr (set_hcsr mip (timer_mip h) (set_hcsr mscratch (get_reg h a0) h))) c); [reflexivity|].
  destruct (decide (c = mscratch)) as [->|Hne]; [by rewrite hcsr_eq|by rewrite !hcsr_ne].
Qed.

Lemma timer_back_mip h scr cmp itv : h_csr (timer_back h scr cmp itv) mip = timer_mip h.
Proof. transitivity (h_csr (set_hcsr mip (timer_mip h) h) mip); [reflexivity|apply hcsr_eq]. Qed.

(** timervec from its first instruction to the interrupted code. *)
Lemma timervec_spec h scr cmp itv : placed timervec timervec_code → 0 ≤ timervec → timervec + 128 < 2 ^ 64 → h_pc h = timervec →
  h_mode h = Machine_ → regs_ok h → h_csr h mscratch = scr → timer_area (h_mem h) scr cmp itv →
  ∃ h', steps 16 h = Some h' ∧ (∀ r, get_reg h' r = get_reg h r) ∧ h_mem h' = timer_mem h scr cmp itv ∧
    h_pc h' = h_csr h mepc ∧ h_mode h' = mpp (h_csr h mstatus) ∧ h_csr h' mip = timer_mip h ∧ h_csr h' mstatus = h_csr (mret_ h) mstatus ∧
    (∀ c, c ≠ mip → c ≠ mstatus → h_csr h' c = h_csr h c).
Proof.
  intros Hpl H0' H1' Hpc Hm Hr Hs Ha. destruct (machine_runs timervec 128 _ _ _ Hm (timervec_does h scr cmp itv Hm Hs Ha)) as [Hrun Hm'].
  rewrite timervec_blocks in Hpl. rewrite <- (Z.add_0_r timervec) in Hpl.
  assert (Hreg : ∀ r, get_reg (timer_back h scr cmp itv) r = get_reg h r) by (intros; by apply timer_regs).
  assert (Hcsr : ∀ c, c ≠ mip → h_csr (timer_back h scr cmp itv) c = h_csr h c) by (intros; by apply timer_back_csr).
  assert (Hmip := timer_back_mip h scr cmp itv). assert (Hmem : h_mem (timer_back h scr cmp itv) = timer_mem h scr cmp itv) by reflexivity.
  generalize dependent (timer_back h scr cmp itv). intros hb Hrun Hm' Hreg Hcsr Hmip Hmem.
  destruct (runs_jump timervec timervec 128 _ Mret h _ 0 Hrun) as (o' & w & Hst & _); try done; try lia.
  { by apply machine_fetch. }
  rewrite (exec_mret w (set_pc (timervec + o') hb) Hm') in Hst. exists (mret_ (set_pc (timervec + o') hb)). split; [exact Hst|].
  unfold mret_. cbn [h_csr h_mem h_pc h_mode set_pc set_mode]. split; [exact Hreg|]. split; [exact Hmem|]. split; [by apply Hcsr|].
  assert (Hms : h_csr hb mstatus = h_csr h mstatus) by by apply Hcsr. rewrite !hcsr_eq, hcsr_ne by done. cbn [h_csr set_pc].
  rewrite Hms. split_and!; try done. intros c Hc1 Hc2. rewrite hcsr_ne by done. by apply Hcsr.
Qed.

(** ** entry.S and start() *)
Lemma regs_ok_set r v h : regs_ok h → 0 ≤ v < 2 ^ 64 → regs_ok (set_reg r v h).
Proof. intros Hr Hv x. rewrite get_set_reg. repeat case_decide; [pow2; lia|done|apply Hr]. Qed.

Lemma boot_entry_spec h k : placed KERNBASE entry_code → h_mode h = Machine_ → h_pc h = KERNBASE → h_csr h mhartid = k → 0 ≤ k < NCPU →
  0 ≤ stack0 → stack0 + 4096 * NCPU < 2 ^ 64 → regs_ok h →
  ∃ h', steps 7 h = Some h' ∧ regs_ok h' ∧ h_pc h' = u64 start_addr ∧ get_reg h' sp = stack0 + 4096 * (k + 1) ∧ h_mode h' = Machine_ ∧
    h_csr h' = h_csr h ∧ h_mem h' = h_mem h.
Proof.
  intros Hpl Hm Hpc Hk Hr Hs0 Hs1 Hregs. unfold NCPU in *.
  assert (Hd : ∃ h', does (take 6 entry_code) h h' ∧ regs_ok h' ∧ get_reg h' sp = stack0 + 4096 * (k + 1) ∧ h_csr h' = h_csr h ∧ h_mem h' = h_mem h).
  { eexists. split.
    - does_step ltac:(reflexivity). does_step ltac:(reflexivity).
      does_step ltac:(unfold effect, may_read; by rewrite (Hm : h_mode (set_reg _ _ (set_reg _ _ h)) = Machine_)).
      do 3 (does_step ltac:(reflexivity)). apply does_nil.
    - split; [|split; [|done]].
      { repeat (apply regs_ok_set; [|first [apply u64_range|unfold csr_read; simpl h_csr; rewrite Hk; pow2; lia]]). exact Hregs. }
      transitivity (u64 (u64 stack0 + u64 (u64 (1024 * 4) * u64 (h_csr h mhartid + 1)))); [reflexivity|]. rewrite Hk.
      rewrite (u64_small stack0), (u64_small (k + 1)), (u64_small (1024 * 4)) by (pow2; lia). rewrite (u64_small (1024 * 4 * (k + 1))) by (pow2; lia).
      rewrite u64_small by lia. lia. }
  destruct Hd as (h6 & Hd & Hregs6 & Hsp & Hc & Hmem).
  destruct (machine_runs KERNBASE 56 _ _ _ Hm Hd) as [Hrun Hm']. change entry_code with (take 6 entry_code ++ [Call start_addr]) in Hpl.
  rewrite <- (Z.add_0_r KERNBASE) in Hpl at 1.
  destruct (runs_jump KERNBASE KERNBASE 56 _ (Call start_addr) h _ 0 Hrun) as (o' & w & Hst & _); try done; try lia.
  { by apply machine_fetch. }
  eexists. split; [exact Hst|]. split_and!; try done. apply (regs_ok_set ra); [done|apply u64_range].
Qed.

(** What a hart keeps for its timer interrupts once start() has run. *)
Record timer_ready (id : Z) (h : hart) : Prop := {
  tr_regs : regs_ok h;
  tr_mtvec : h_csr h mtvec = timervec;
  tr_mscratch : h_csr h mscratch = scratch_of id;
  tr_area : timer_area (h_mem h) (scratch_of id) (CLINT_MTIMECMP id) interval;
  tr_mideleg : h_csr h mideleg = DELEGABLE;
  tr_mie : bit (h_csr h mie) 7 = true;
}.

(** Where the linker put the data and the code of the timer. *)
Record timer_layout : Prop := {
  tml_code : placed timervec timervec_code;
  tml_range : 0 ≤ timervec ∧ timervec + 128 < 2 ^ 64;
  tml_align : timervec mod 4 = 0;
  tml_scratch : KERNBASE ≤ timer_scratch ∧ timer_scratch + 40 * NCPU ≤ PHYSTOP;
  tml_salign : timer_scratch mod 8 = 0;
}.

Lemma scratch_area id m : timer_layout → 0 ≤ id < NCPU → load64 m (scratch_of id + 24) = CLINT_MTIMECMP id → load64 m (scratch_of id + 32) = interval →
  timer_area m (scratch_of id) (CLINT_MTIMECMP id) interval.
Proof.
  intros [_ _ _ Hs Ha] Hid H1 H2. unfold scratch_of, NCPU, CLINT_MTIMECMP, CLINT, PHYSTOP, KERNBASE in *. split; try done.
  - pow2. split_and!; [lia|lia|]. Z.div_mod_to_equations. lia.
  - pow2. split_and!; [lia|lia|]. Z.div_mod_to_equations. lia.
  - lia.
Qed.

(** The control registers that start() leaves. *)
Definition start_mstatus (st : Z) : Z := Z.lor (Z.lor (Z.land st (u64 (Z.lnot MSTATUS_MPP_MASK))) MSTATUS_MPP_S) MSTATUS_MIE.
Definition start_mie (e : Z) : Z :=
  Z.lor (merge DELEGABLE e (Z.lor (Z.lor (Z.lor (Z.land e DELEGABLE) SIE_SEIE) SIE_STIE) SIE_SSIE)) MIE_MTIE.


(** start() up to timerinit(). *)
Definition start_low (h : hart) : hart :=
  set_hcsr pmpcfg0 0xf (set_hcsr pmpaddr0 0x3fffffffffffff
    (set_hcsr mie (merge DELEGABLE (h_csr h mie) (Z.lor (Z.lor (Z.lor (Z.land (h_csr h mie) DELEGABLE) SIE_SEIE) SIE_STIE) SIE_SSIE))
      (set_hcsr mideleg DELEGABLE (set_hcsr medeleg 0xffff (set_hcsr satp 0 (set_hcsr mepc (Z.ldiff main_addr 1)
        (set_hcsr mstatus (Z.lor (Z.land (h_csr h mstatus) (u64 (Z.lnot MSTATUS_MPP_MASK))) MSTATUS_MPP_S) h))))))).

Lemma start_stages h : start h = let g := timerinit (start_low h) in mret_ (set_reg tp (u64 (s32 (h_csr g mhartid))) g).
Proof. reflexivity. Qed.

Lemma timerinit_parts g : let id := s32 (h_csr g mhartid) in let g' := timerinit g in
  h_mode g' = h_mode g ∧ h_reg g' = h_reg g ∧
  h_mem g' = store64 (store64 (store64 (h_mem g) (CLINT_MTIMECMP id) (u64 (load64 (h_mem g) CLINT_MTIME + interval)))
    (scratch_of id + 24) (CLINT_MTIMECMP id)) (scratch_of id + 32) interval ∧
  h_csr g' mscratch = scratch_of id ∧ h_csr g' mtvec = timervec ∧ h_csr g' mstatus = Z.lor (h_csr g mstatus) MSTATUS_MIE ∧
  h_csr g' mie = Z.lor (h_csr g mie) MIE_MTIE ∧ ∀ c, bool_decide (c ∈ [mscratch; mtvec; mstatus; mie]) = false → h_csr g' c = h_csr g c.
Proof.
  intros id g'. split_and!; try reflexivity.
  intros c Hc. destruct c; (discriminate Hc || reflexivity).
Qed.

Lemma start_low_csr h : let g := start_low h in
  h_csr g mstatus = Z.lor (Z.land (h_csr h mstatus) (u64 (Z.lnot MSTATUS_MPP_MASK))) MSTATUS_MPP_S ∧
  h_csr g mie = merge DELEGABLE (h_csr h mie) (Z.lor (Z.lor (Z.lor (Z.land (h_csr h mie) DELEGABLE) SIE_SEIE) SIE_STIE) SIE_SSIE) ∧
  h_csr g mideleg = DELEGABLE ∧ h_csr g medeleg = 0xffff ∧ h_csr g satp = 0 ∧ h_csr g mepc = Z.ldiff main_addr 1 ∧ h_csr g mhartid = h_csr h mhartid.
Proof. intros g. split_and!; reflexivity. Qed.

Lemma start_mode st : mpp (start_mstatus st) = Supervisor.
Proof.
  unfold mpp, start_mstatus, bit. rewrite !Z.lor_spec, !Z.land_spec.
  replace (Z.testbit (u64 (Z.lnot MSTATUS_MPP_MASK)) 12) with false by reflexivity. by rewrite !andb_false_r, orb_true_r.
Qed.

Lemma start_mie_bit e : bit (start_mie e) 7 = true ∧ ∀ k, k ∈ [1; 5; 9] → bit (Z.land (start_mie e) DELEGABLE) k = true.
Proof.
  unfold start_mie, bit, merge. split; [rewrite Z.lor_spec; apply orb_true_r|].
  intros k Hk. rewrite Z.land_spec, !Z.lor_spec, Z.land_spec, !Z.lor_spec.
  apply elem_of_cons in Hk as [->|Hk]; [by rewrite !orb_true_r|]. apply elem_of_cons in Hk as [->|Hk]; [by rewrite !orb_true_r|].
  apply list_elem_of_singleton in Hk as ->. by rewrite !orb_true_r.
Qed.

Lemma even_ldiff a : a mod 2 = 0 → Z.ldiff a 1 = a.
Proof.
  intros Ha. change 1 with (Z.ones 1). rewrite Z.ldiff_ones_r, Z.shiftl_mul_pow2, Z.shiftr_div_pow2 by lia.
  change (2 ^ 1) with 2. Z.div_mod_to_equations. lia.
Qed.

(** start() leaves machine mode with the timer set up. *)
Lemma boot_start_spec h id : timer_layout → regs_ok h → h_csr h mhartid = id → 0 ≤ id < NCPU → main_addr mod 2 = 0 →
  let h' := start h in
  timer_ready id h' ∧ h_mode h' = Supervisor ∧ h_pc h' = main_addr ∧ get_reg h' tp = id ∧ (∀ r, r ≠ tp → get_reg h' r = get_reg h r) ∧
  h_csr h' satp = 0 ∧ h_csr h' medeleg = 0xffff ∧ (∀ k, k ∈ [1; 5; 9] → bit (csr_read h' sie) k = true) ∧
  load64 (h_mem h') (CLINT_MTIMECMP id) = u64 (load64 (h_mem h) CLINT_MTIME + interval).
Proof.
  intros L Hr Hid Hrange Hev h'. unfold h'. rewrite start_stages. cbv zeta. destruct (start_low_csr h) as (L1 & L2 & L3 & L4 & L5 & L6 & L7).
  destruct (timerinit_parts (start_low h)) as (T1 & T2 & T3 & T4 & T5 & T6 & T7 & T8).
  assert (Hs32 : s32 (h_csr (start_low h) mhartid) = id) by (rewrite L7, Hid; apply s32_small; unfold NCPU in *; pow2; lia).
  rewrite Hs32 in T3, T4. rewrite L1 in T6. rewrite L2 in T7. rewrite (T8 mhartid eq_refl), Hs32.
  assert (Hidr : 0 ≤ id < 2 ^ 64) by (unfold NCPU in *; pow2; lia). rewrite (u64_small id) by done.
  change (h_mem (start_low h)) with (h_mem h) in T3. change (h_reg (start_low h)) with (h_reg h) in T2.
  pose proof (T8 mideleg eq_refl) as E1. pose proof (T8 medeleg eq_refl) as E2. pose proof (T8 satp eq_refl) as E3. pose proof (T8 mepc eq_refl) as E4.
  rewrite L3 in E1. rewrite L4 in E2. rewrite L5 in E3. rewrite L6 in E4. generalize dependent (timerinit (start_low h)). intros g T1 T2 T3 T4 T5 T6 T7 _ E1 E2 E3 E4.
  assert (Hcmp : 0 ≤ CLINT_MTIMECMP id < 2 ^ 64) by (unfold CLINT_MTIMECMP, CLINT, NCPU in *; pow2; lia).
  assert (Har : timer_area (h_mem g) (scratch_of id) (CLINT_MTIMECMP id) interval).
  { apply scratch_area; [done|done| |]; rewrite T3.
    - rewrite load64_store64_ne by lia. by apply load64_store64.
    - by apply load64_store64. }
  assert (Hreg : ∀ r, r ≠ tp → get_reg (set_reg tp id g) r = get_reg h r) by (intros r Hne; rewrite get_set_reg_ne by done; unfold get_reg; by rewrite T2).
  unfold mret_. change (h_csr (set_reg tp id g)) with (h_csr g). rewrite T6, E4, even_ldiff by done. fold (start_mstatus (h_csr h mstatus)). rewrite start_mode.
  set (ms := set_bit _ 12 false). split; [split|]; cbn [h_mem h_csr set_pc set_mode]; try (rewrite hcsr_ne by done); try done.
  - intros r. change (0 ≤ get_reg (set_reg tp id g) r < 2 ^ 64). destruct (decide (r = tp)) as [->|Hne]; [by rewrite get_set_reg_eq|rewrite Hreg; [apply Hr|done]].
  - rewrite (T7 : h_csr (set_reg tp id g) mie = _). apply start_mie_bit.
  - split_and!; try done.
    + intros k Hk. unfold csr_read. cbn [h_csr set_pc set_mode]. rewrite !hcsr_ne by done.
      rewrite (T7 : h_csr (set_reg tp id g) mie = _), (E1 : h_csr (set_reg tp id g) mideleg = _). by apply start_mie_bit.
    + change (load64 (h_mem g) (CLINT_MTIMECMP id) = u64 (load64 (h_mem h) CLINT_MTIME + interval)). rewrite T3.
      destruct (ta_apart _ _ _ _ Har); rewrite !load64_store64_ne by lia; by apply load64_store64, u64_range.
Qed.

(** ** A timer interrupt *)
Definition MTI : Z := 2 ^ 63 + 7.

(** What the interrupted code finds afterwards. *)
Record ticked (id : Z) (h h' : hart) : Prop := {
  tk_regs : ∀ r, get_reg h' r = get_reg h r;
  tk_pc : h_pc h' = h_pc h;
  tk_mode : h_mode h' = h_mode h;
  tk_mem : ∀ a, ¬ (scratch_of id ≤ a < scratch_of id + 24) → ¬ (CLINT_MTIMECMP id ≤ a < CLINT_MTIMECMP id + 8) →
    load8 (h_mem h') a = load8 (h_mem h) a;
  tk_cmp : load64 (h_mem h') (CLINT_MTIMECMP id) = u64 (load64 (h_mem h) (CLINT_MTIMECMP id) + interval);
  tk_sip : bit (csr_read h' sip) 1 = true;
  tk_sstatus : ∀ k, k ∉ [7; 11; 12] → bit (h_csr h' mstatus) k = bit (h_csr h mstatus) k;
  tk_csr : ∀ c, c ∉ [mip; mstatus; mepc; mcause; mtval] → h_csr h' c = h_csr h c;
}.

Lemma align4_ldiff a : a mod 4 = 0 → Z.ldiff a 3 = a.
Proof.
  intros Ha. change 3 with (Z.ones 2). rewrite Z.ldiff_ones_r, Z.shiftl_mul_pow2, Z.shiftr_div_pow2 by lia.
  change (2 ^ 2) with 4. Z.div_mod_to_equations. lia.
Qed.

Lemma mret_trap_mstatus st md k : k ∉ [7; 11; 12] →
  let st1 := set_bit (set_bit st 7 (bit st 3)) 3 false in
  let st' := set_bit (set_bit st1 11 (negb (bool_decide (md = User)))) 12 (bool_decide (md = Machine_)) in
  bit (set_bit (set_bit (set_bit (set_bit st' 3 (bit st' 7)) 7 true) 11 false) 12 false) k = bit st k.
Proof.
  intros Hk st1 st'. rewrite !not_elem_of_cons in Hk. destruct Hk as (H7 & H11 & H12 & _).
  rewrite !(bit_set_ne _ 12), !(bit_set_ne _ 11), (bit_set_ne _ 7) by lia. unfold st'.
  rewrite !(bit_set_ne _ 12), !(bit_set_ne _ 11) by lia. unfold st1. rewrite (bit_set_ne _ 3 false 7), (bit_set_eq _ 7) by lia.
  destruct (decide (k = 3)) as [->|H3]; [by rewrite bit_set_eq by lia|]. rewrite bit_set_ne by lia.
  rewrite !(bit_set_ne _ 12), !(bit_set_ne _ 11), (bit_set_ne _ 3), (bit_set_ne _ 7) by lia. done.
Qed.

Lemma mpp_trap st md : md ≠ Machine_ → mpp (set_bit (set_bit st 11 (negb (bool_decide (md = User)))) 12 (bool_decide (md = Machine_))) = md.
Proof.
  intros Hm. unfold mpp. rewrite (bit_set_ne _ 12), !bit_set_eq by lia. destruct md; done.
Qed.

(** A name is not in a list of names. *)
Ltac notin := apply (bool_decide_unpack _); vm_compute; exact I.

Lemma tick_spec id h : timer_layout → 0 ≤ id < NCPU → timer_ready id h → h_mode h ≠ Machine_ →
  ∃ h', steps 16 (trap MTI 0 h) = Some h' ∧ ticked id h h' ∧ timer_ready id h'.
Proof.
  intros L Hid [Hr Hv Hs Ha Hdel Hie] Hm. assert (Hd : delegated h MTI = false).
  { unfold delegated, MTI. rewrite Hdel. by rewrite bool_decide_false. }
  unfold trap. rewrite Hd. set (g := trap_m MTI 0 h).
  assert (Hg : ∀ c, c ∉ [mstatus; mtval; mcause; mepc] → h_csr g c = h_csr h c).
  { intros c Hc. rewrite !not_elem_of_cons in Hc. destruct Hc as (? & ? & ? & ? & _). unfold g, trap_m. cbn [h_csr set_pc set_mode]. by rewrite !hcsr_ne. }
  destruct (timervec_spec g (scratch_of id) (CLINT_MTIMECMP id) interval) as (h' & Hst & Hreg & Hmem & Hpc & Hmode & Hmip & Hms & Hcs); try apply L; try done.
  { unfold g, trap_m. simpl h_pc. rewrite Hv. by apply align4_ldiff, L. }
  destruct (timer_mem_spec g (scratch_of id) (CLINT_MTIMECMP id) interval Hr Ha) as (Ha' & Hcmp & _ & _ & _ & Hout). rewrite <- Hmem in Ha', Hcmp, Hout.
  rewrite Z.add_0_r in Hcmp.
  assert (Hst' : h_csr g mstatus = let st1 := set_bit (set_bit (h_csr h mstatus) 7 (bit (h_csr h mstatus) 3)) 3 false in
    set_bit (set_bit st1 11 (negb (bool_decide (h_mode h = User)))) 12 (bool_decide (h_mode h = Machine_))).
  { unfold g, trap_m. cbn [h_csr set_pc set_mode]. by rewrite hcsr_eq. }
  assert (Hcsr : ∀ c, c ∉ [mip; mstatus; mepc; mcause; mtval] → h_csr h' c = h_csr h c).
  { intros c Hc. rewrite !not_elem_of_cons in Hc. destruct Hc as (? & ? & ? & ? & ? & _). rewrite Hcs by done. apply Hg. rewrite !not_elem_of_cons. split_and!; (done || apply not_elem_of_nil). }
  exists h'. split; [done|]. split; split; try done.
  - by rewrite Hmode, Hst', mpp_trap.
  - unfold csr_read. rewrite Hmip, (Hcsr mideleg), Hdel by notin. unfold timer_mip, bit, merge. rewrite (Hg mideleg) by notin.
    rewrite Hdel, Z.land_spec, Z.lor_spec, Z.land_spec. by rewrite orb_true_r.
  - intros k Hk. rewrite Hms. unfold mret_. cbn [h_csr set_pc set_mode]. rewrite hcsr_eq, Hst'. by apply mret_trap_mstatus.
  - intros r. rewrite Hreg. apply Hr.
  - by rewrite Hcsr by notin.
  - by rewrite Hcsr by notin.
  - by rewrite Hcsr by notin.
  - by rewrite Hcsr by notin.
Qed.

(** What happens to a hart that has left machine mode: timer interrupts, and
    code of the kernel and of users, which cannot write the registers of machine
    mode and has no pointer to the scratch area. *)
Inductive life (id : Z) : hart → hart → Prop :=
| life_tick h h' : h_mode h ≠ Machine_ → steps 16 (trap MTI 0 h) = Some h' → life id h h'
| life_run h h' : h_mode h ≠ Machine_ → h_mode h' ≠ Machine_ → regs_ok h' →
    h_csr h' mtvec = h_csr h mtvec → h_csr h' mscratch = h_csr h mscratch → h_csr h' mideleg = h_csr h mideleg →
    bit (h_csr h' mie) 7 = bit (h_csr h mie) 7 →
    (∀ a, scratch_of id + 24 ≤ a < scratch_of id + 40 → load8 (h_mem h') a = load8 (h_mem h) a) → life id h h'.

Lemma life_ready id h h' : timer_layout → 0 ≤ id < NCPU → life id h h' →
  timer_ready id h ∧ h_mode h ≠ Machine_ → timer_ready id h' ∧ h_mode h' ≠ Machine_.
Proof.
  intros L Hid [g g' Hne Hst|g g' Hne Hne' Hrg H1' H2' H3' H4' H5'] [Hready _].
  - destruct (tick_spec id g L Hid Hready Hne) as (x & Hx & Hy & Hz). assert (x = g') as -> by congruence.
    split; [done|]. by rewrite (tk_mode _ _ _ Hy).
  - destruct Hready as [R1 R2 R3 R4 R5 R6]. split; [|done]. split; try done; try congruence. apply scratch_area; [done|done| |].
    + rewrite <- (ta_cmp_at _ _ _ _ R4). apply load64_ext. intros a Ha. apply H5'. lia.
    + rewrite <- (ta_itv_at _ _ _ _ R4). apply load64_ext. intros a Ha. apply H5'. lia.
Qed.
End boot.
