(* ===== verification/Demo.v ===== *)
(** * Sample machines

    A small machine (sixteen free pages at the top of memory) with concrete
    states, and checkers that decide the invariants of the address-space theory
    on a concrete state by computation. The examples of the development run on
    these states. *)

From Stdlib Require Import ZArith Lia.
From stdpp Require Import base numbers gmap strings countable tactics list.
From S2P Require Import Prelude Machine CString State Spinlock Kalloc Vm VmTheory VmMap VmUser VmAlloc VmLoops VmAccess.

#[global] Instance demo_env : Env := {|
  end_ := PHYSTOP - 16 * PGSIZE;
  etext := KERNBASE + 8 * PGSIZE;
  trampoline := KERNBASE + 7 * PGSIZE;
  uservec := KERNBASE + 7 * PGSIZE;
  userret := KERNBASE + 7 * PGSIZE + 160;
  kernelvec := KERNBASE + 5 * PGSIZE;
  usertrap_addr := KERNBASE + 10000;
  forkret_addr := KERNBASE + 12000;
  fuel := 20;
|}.

#[global] Instance demo_env_ok : EnvOk.
Proof. split; done. Qed.

(** The [k]-th free page of the machine. *)
Definition pg (k : Z) : Z := PHYSTOP - 16 * PGSIZE + k * PGSIZE.

(** ** Deciding the invariants *)
Definition entry_b (m : gmap Z Z) (T : gmap (list Z) Z) (path : list Z) (p i : Z) : bool :=
  match T !! (path ++ [i]) with
  | Some q => load64 m (p + 8 * i) =? Z.lor (PA2PTE q) PTE_V
  | None => Z.land (load64 m (p + 8 * i)) PTE_V =? 0
  end.

Definition prefix_b (T : gmap (list Z) Z) (path : list Z) : bool :=
  match reverse path with
  | [] => true
  | i :: r => bool_decide (is_Some (T !! reverse r)) && (0 <=? i) && (i <? 512)
  end.

Definition table_b `{Env} (m : gmap Z Z) (T : gmap (list Z) Z) (x : list Z * Z) : bool :=
  let '(path, p) := x in
  bool_decide (page_ok p) && (length path <=? 2)%nat &&
  forallb (λ '(path', p'), negb (p' =? p) || bool_decide (path' = path)) (map_to_list T) &&
  ((2 <=? length path)%nat || forallb (entry_b m T path p) (seqZ 0 512)) &&
  prefix_b T path && match path with [] => true | i :: _ => i <? 256 end.

Definition vm_b `{Env} (s : kstate) (root : Z) (T : gmap (list Z) Z) (fl : list Z) : bool :=
  bool_decide (NoDup fl) && bool_decide (Forall page_ok fl) &&
  (fix go head fl := match fl with
    | [] => head =? 0
    | p :: fl => (head =? p) && go (load64 (mem s) p) fl end) (freelist s) fl &&
  bool_decide (T !! [] = Some root) && forallb (table_b (mem s) T) (map_to_list T) &&
  forallb (λ '(_, p), bool_decide (p ∉ fl)) (map_to_list T).

Definition user_b `{Env} (s : kstate) (T : gmap (list Z) Z) (fl : list Z) (D : gmap Z Z) : bool :=
  forallb (λ '(vpn, p),
    let v := leaf (mem s) T (vpn * PGSIZE) in
    (0 <=? vpn) && (vpn <? VPNS) && bool_decide (page_ok p) && bool_decide (p ∉ fl) &&
    forallb (λ '(_, q), negb (q =? p)) (map_to_list T) &&
    (PTE2PA v =? p) && negb (Z.land v PTE_V =? 0) && negb (PTE_FLAGS v =? PTE_V) &&
    forallb (λ '(vpn', p'), negb (p' =? p) || (vpn' =? vpn)) (map_to_list D)) (map_to_list D).

Ltac break_b := repeat match goal with
  | H : (_ && _) = true |- _ => apply andb_prop in H as [? ?]
  | H : bool_decide _ = true |- _ => apply bool_decide_eq_true in H
  | H : (_ =? _) = true |- _ => apply Z.eqb_eq in H
  | H : (_ <=? _) = true |- _ => apply Z.leb_le in H
  | H : (_ <? _) = true |- _ => apply Z.ltb_lt in H
  | H : negb _ = true |- _ => apply negb_true_iff in H
  | H : (_ =? _) = false |- _ => apply Z.eqb_neq in H
  end.

Lemma forallb_map {K A} `{Countable K} (f : K * A → bool) (m : gmap K A) k a :
  forallb f (map_to_list m) = true → m !! k = Some a → f (k, a) = true.
Proof. rewrite forallb_forall. intros Hf Hk. apply Hf, list_elem_of_In. by apply elem_of_map_to_list. Qed.

Lemma table_b_spec `{Env} m T path p :
  table_b m T (path, p) = true →
  page_ok p ∧ (length path ≤ 2)%nat ∧ (∀ path', T !! path' = Some p → path' = path) ∧
  ((length path < 2)%nat → ∀ i, 0 ≤ i < 512 → entry_b m T path p i = true) ∧ prefix_b T path = true ∧
  match path with [] => True | i :: _ => i < 256 end.
Proof.
  unfold table_b. intros [[[[[Hok Hlen]%andb_prop Hinj]%andb_prop Hent]%andb_prop Hpre]%andb_prop Hlow]%andb_prop.
  break_b. split; [done|]. split; [by apply Nat.leb_le|]. split; [|split; [|split; [done|]]].
  - intros path' Hp. pose proof (forallb_map _ _ _ _ Hinj Hp) as Hi. simpl in Hi.
    rewrite Z.eqb_refl in Hi. simpl in Hi. by break_b.
  - intros Hl i Hi. rewrite (proj2 (Nat.leb_gt _ _)) in Hent by lia. rewrite orb_false_l in Hent.
    eapply forallb_forall; [exact Hent|]. apply list_elem_of_In, elem_of_seqZ. lia.
  - destruct path; by break_b.
Qed.

Lemma vm_b_ok `{Env} s root T fl : vm_b s root T fl = true → vm_ok s root T fl.
Proof.
  unfold vm_b. intros [[[[[Hnd Hok]%andb_prop Hlk]%andb_prop Hroot]%andb_prop Htab]%andb_prop Hdis]%andb_prop.
  break_b. split; [split; [done|split; [done|]]|split].
  - revert Hlk. generalize (freelist s). clear. induction fl as [|p fl IH]; simpl; intros head Hg; break_b.
    + done.
    + split; [done|]. auto.
  - assert (Ht : ∀ path p, T !! path = Some p → table_b (mem s) T (path, p) = true)
      by (intros path p Hp; exact (forallb_map _ _ _ _ Htab Hp)).
    split; [done|..].
    + intros path p Hp%Ht%table_b_spec. apply Hp.
    + intros path p Hp%Ht%table_b_spec. apply Hp.
    + intros path path' p Hq Hq'. apply Ht, table_b_spec in Hq' as (_ & _ & Hi & _). by apply Hi.
    + intros path p i Hp%Ht%table_b_spec Hl Hi. destruct Hp as (_ & _ & _ & He & _).
      specialize (He Hl i Hi). unfold entry_b in He. destruct (T !! (path ++ [i])); by break_b.
    + intros path i q Hq%Ht%table_b_spec. destruct Hq as (_ & _ & _ & _ & Hpre & _). unfold prefix_b in Hpre.
      rewrite reverse_app in Hpre. simpl in Hpre. rewrite reverse_involutive in Hpre. by break_b.
    + intros i path q Hq%Ht%table_b_spec. apply Hq.
  - intros p [path Hp]. pose proof (forallb_map _ _ _ _ Hdis Hp) as Hd. simpl in Hd. by break_b.
Qed.

Lemma user_b_ok `{Env} s root T fl D :
  vm_b s root T fl = true → user_b s T fl D = true → uspace s root T fl D.
Proof.
  intros Hvm%vm_b_ok Hb. unfold user_b in Hb.
  assert (Hu : ∀ vpn p, D !! vpn = Some p → 0 ≤ vpn < VPNS ∧ (page_ok p ∧ p ∉ fl ∧ ¬ is_table T p) ∧
    maps_to (leaf (mem s) T (vpn * PGSIZE)) p ∧ ∀ vpn', D !! vpn' = Some p → vpn' = vpn).
  { intros vpn p Hp. pose proof (forallb_map _ _ _ _ Hb Hp) as Hq. simpl in Hq.
    apply andb_prop in Hq as [[[[[Hq Htab]%andb_prop Hpa]%andb_prop Hv]%andb_prop Hfl]%andb_prop Hinj].
    break_b. split; [done|]. split; [split; [done|split; [done|]]|split; [done|]].
    - intros [path Hq]. pose proof (forallb_map _ _ _ _ Htab Hq) as Hn. simpl in Hn. by break_b.
    - intros vpn' Hp'. pose proof (forallb_map _ _ _ _ Hinj Hp') as Hn. simpl in Hn.
      rewrite Z.eqb_refl in Hn. simpl in Hn. by break_b. }
  split; [done|intros vpn p Hp..|]; try apply (Hu vpn p Hp).
  intros vpn vpn' p Hp Hp'. by apply (Hu vpn' p Hp').
Qed.

Definition acc_b (m : gmap Z Z) (T : gmap (list Z) Z) (D : gmap Z Z) (a : Z) : bool :=
  (0 <=? a) && (a <? MAXVA) &&
  match D !! (a / PGSIZE) with Some p => user_pa (leaf m T a) =? p | None => false end.

Lemma acc_b_range m T D a n :
  forallb (λ i, acc_b m T D (a + i)) (seqZ 0 n) = true → ∀ i, 0 ≤ i < n → acc m T D (a + i).
Proof.
  rewrite forallb_forall. intros Hf i Hi.
  specialize (Hf i ltac:(apply list_elem_of_In, elem_of_seqZ; lia)).
  apply andb_prop in Hf as [[? ?]%andb_prop Hp]. break_b. split; [done|].
  destruct (D !! _) as [p|]; [|done]. break_b. by exists p.
Qed.

(** ** Sample states *)

(** Everything zero, as the loader leaves the kernel's data. *)
Definition zero_state : kstate :=
  mkK (mkCpu None 0 true true 0) ∅ ∅ 0 (replicate NPROC null_proc) None 1 true 0 0 ∅
    (replicate NFILE null_file) (replicate NINODE null_inode) (replicate NBUF null_buf) (0%nat, 0%nat)
    (mkLog 0 0 0 false 0 0 (replicate 30 0)) (mkSb 0 0 0 0 0 0 0 0) ∅ []
    (mkCons (replicate 128 0) 0 0 0) (mkUart (replicate 32 0) 0 0 [] [] [])
    (mkCsr 0 0 0 0 0 false false 0 0)
    (mkVdisk (replicate 8 (mkDesc VNull 0 0 0)) 0 (replicate 8 0) 0 (replicate 8 0) (replicate 8 true) 0
      (replicate 8 None) (replicate 8 0) (replicate 8 (mkReq 0 0 0)) 0 []) false.

(** The pages from number [k] on as a free list, [n] of them. *)
Definition free_pages (k : Z) (n : nat) : list Z := (λ i, pg (k + Z.of_nat i)) <$> seq 0 n.

Fixpoint link (m : gmap Z Z) (fl : list Z) : gmap Z Z :=
  match fl with
  | [] => m
  | p :: fl => store64 (link m fl) p (hd 0 fl)
  end.

(** Two address spaces: one whose virtual pages 0 and 1 are pages 3 and 4,
    with tables in pages 0, 1 and 2, and an empty one whose root is page 5.
    Pages 6 to 15 are free. *)
Definition demo_fl : list Z := free_pages 6 10.
Definition demo_T : gmap (list Z) Z := {[ [] := pg 0; [0] := pg 1; [0; 0] := pg 2 ]}.
Definition demo_D : gmap Z Z := {[ 0 := pg 3; 1 := pg 4 ]}.
Definition demo_T2 : gmap (list Z) Z := {[ [] := pg 5 ]}.

Definition demo_mem : gmap Z Z :=
  let m := link ∅ demo_fl in
  let m := store64 m (pg 0) (Z.lor (PA2PTE (pg 1)) PTE_V) in
  let m := store64 m (pg 1) (Z.lor (PA2PTE (pg 2)) PTE_V) in
  let m := store64 m (pg 2) (new_pte (pg 3) PTE_RWXU) in
  store64 m (pg 2 + 8) (new_pte (pg 4) PTE_RWXU).

Definition demo_state : kstate := set_freelist (pg 6) (set_mem demo_mem zero_state).

Lemma demo_uspace : uspace demo_state (pg 0) demo_T demo_fl demo_D.
Proof. apply user_b_ok; vm_compute; reflexivity. Qed.

Lemma demo_uspace2 : uspace demo_state (pg 5) demo_T2 demo_fl ∅.
Proof. apply user_b_ok; vm_compute; reflexivity. Qed.

Lemma demo_lock lk : lock_free lk demo_state.
Proof. split; [by split|done]. Qed.
