(* ===== verification/DemoFs.v ===== *)
(** * Sample states of the file system

    A machine whose process 3 runs alone, with the buffer cache as binit() leaves
    it, and a checker that decides the cache invariant on a concrete cache. *)

From Stdlib Require Import ZArith Lia.
From stdpp Require Import base numbers functions gmap strings countable tactics list.
From S2P Require Import Prelude Machine CString State Spinlock Kalloc Vm VmMap VmTheory VmUser VmAlloc VmLoops VmAccess Sched SchedTheory Sleeplock Bio BioList BioCache Log LogTheory LogRun Demo.

(** ** Deciding the cache invariant *)
Section check.
Context (d : Z).

Definition view_of (C : list buf) (dk : gmap Z (list Z)) (b : Z) : list Z :=
  match list_find (λ x, b_dev x = d ∧ b_blockno x = b) C with
  | Some (_, x) => b_data x
  | None => block_of dk b
  end.

Definition pins_of (C : list buf) (b : Z) : Z :=
  match list_find (λ x, b_dev x = d ∧ b_blockno x = b) C with
  | Some (_, x) => b_refcnt x
  | None => 0
  end.

Definition buf_b (dk : gmap Z (list Z)) (x : buf) : bool :=
  negb (sl_locked (b_lock x)) && (0 <=? b_refcnt x) && (b_refcnt x <? 2 ^ 32) &&
  (if b_dev x =? d then b_valid x && (negb (b_refcnt x =? 0) || bool_decide (b_data x = block_of dk (b_blockno x)))
   else b_refcnt x =? 0).

Definition core_b (C : list buf) (dk : gmap Z (list Z)) : bool :=
  forallb (buf_b dk) C && bool_decide (NoDup (b_blockno <$> filter (λ x, b_dev x = d) C)).

Lemma uniq_of C : NoDup (b_blockno <$> filter (λ x, b_dev x = d) C) →
  ∀ i j x y, C !! i = Some x → C !! j = Some y → b_dev x = d → b_dev y = d → b_blockno x = b_blockno y → i = j.
Proof.
  induction C as [|z C IH]; intros Hnd i j x y Hx Hy Hdx Hdy He; [done|].
  rewrite filter_cons in Hnd. destruct i as [|i], j as [|j]; simplify_eq/=; [done| | |].
  - rewrite decide_True in Hnd by done. rewrite fmap_cons in Hnd. apply NoDup_cons in Hnd as [Hn _].
    destruct Hn. rewrite He. apply list_elem_of_fmap. exists y. split; [done|].
    apply list_elem_of_filter. split; [done|]. by eapply list_elem_of_lookup_2.
  - rewrite decide_True in Hnd by done. rewrite fmap_cons in Hnd. apply NoDup_cons in Hnd as [Hn _].
    destruct Hn. rewrite <- He. apply list_elem_of_fmap. exists x. split; [done|].
    apply list_elem_of_filter. split; [done|]. by eapply list_elem_of_lookup_2.
  - f_equal. apply (IH ltac:(case_decide; [rewrite fmap_cons in Hnd; by apply NoDup_cons in Hnd as [_ ?]|done]) i j x y); done.
Qed.

Lemma find_tag C i x : NoDup (b_blockno <$> filter (λ x, b_dev x = d) C) →
  C !! i = Some x → b_dev x = d →
  ∃ k, list_find (λ y, b_dev y = d ∧ b_blockno y = b_blockno x) C = Some (k, x).
Proof.
  intros Hnd Hx Hd. destruct (list_find _ C) as [[k y]|] eqn:Hf.
  - apply list_find_Some in Hf as (Hy & [Hdy Hby] & _). exists k. do 2 f_equal.
    pose proof (uniq_of C Hnd i k x y Hx Hy Hd Hdy (eq_sym Hby)). simplify_eq. done.
  - apply list_find_None in Hf. rewrite Forall_lookup in Hf. by destruct (Hf i x Hx).
Qed.

Lemma core_b_ok pid C dk : core_b C dk = true → core d pid C dk (view_of C dk) (pins_of C) ∅.
Proof.
  intros [Hb Hnd%bool_decide_eq_true]%andb_prop.
  assert (Hx : ∀ i x, C !! i = Some x → buf_b dk x = true).
  { intros i x Hi. rewrite forallb_forall in Hb. apply Hb, list_elem_of_In. by eapply list_elem_of_lookup_2. }
  assert (Hin : ∀ i x, C !! i = Some x → b_dev x = d →
    b_valid x = true ∧ (b_refcnt x = 0 → b_data x = block_of dk (b_blockno x))).
  { intros i x Hi Hd. apply Hx in Hi as [_ Hi]%andb_prop. rewrite (proj2 (Z.eqb_eq _ _) Hd) in Hi.
    apply andb_prop in Hi as [? Hor]. split; [done|]. intros H0. rewrite (proj2 (Z.eqb_eq _ _) H0) in Hor.
    by apply bool_decide_eq_true in Hor. }
  split.
  - by apply uniq_of.
  - intros i x Hi Hd. by apply (Hin i x).
  - intros i x Hi Hd. apply Hx in Hi as [_ Hi]%andb_prop. rewrite (proj2 (Z.eqb_neq _ _) Hd) in Hi. lia.
  - intros i x Hi Hd H0. by apply (Hin i x).
  - intros i x Hi Hd. unfold view_of. destruct (find_tag C i x) as [k ->]; auto.
  - intros i x Hi Hd. unfold pins_of. destruct (find_tag C i x) as [k ->]; auto.
  - intros b Hno. unfold view_of, pins_of. rewrite (proj2 (list_find_None _ _)); [done|].
    apply Forall_lookup. intros i x Hi [Hd Hbb]. by apply (Hno i x).
  - intros b i. by rewrite lookup_empty.
  - intros i x Hi Hl. apply Hx in Hi. unfold buf_b in Hi. by rewrite Hl in Hi.
  - intros i x Hi. apply Hx in Hi as [[[_ ?]%andb_prop ?]%andb_prop _]%andb_prop. lia.
Qed.

Lemma pins_of_absent C b : forallb (λ x, negb (b_dev x =? d)) C = true → pins_of C b = 0.
Proof.
  intros Hall. unfold pins_of. destruct (list_find _ C) as [[k x]|] eqn:Hk; [|done].
  apply list_find_Some in Hk as (Hx & [Hd _] & _). exfalso. rewrite forallb_forall in Hall.
  specialize (Hall x ltac:(apply list_elem_of_In; by eapply list_elem_of_lookup_2)). lia.
Qed.

Lemma view_of_absent C dk b : forallb (λ x, negb (b_dev x =? d)) C = true → view_of C dk b = block_of dk b.
Proof.
  intros Hall. unfold view_of. destruct (list_find _ C) as [[k x]|] eqn:Hk; [|done].
  apply list_find_Some in Hk as (Hx & [Hd _] & _). exfalso. rewrite forallb_forall in Hall.
  specialize (Hall x ltac:(apply list_elem_of_In; by eapply list_elem_of_lookup_2)). lia.
Qed.
End check.

(** The ring, decided by following it. *)
Fixpoint seg_b (nx pv : nat → nat) (a : nat) (L : list nat) (b : nat) : bool :=
  match L with
  | [] => (nx a =? b)%nat && (pv b =? a)%nat
  | x :: L => (nx a =? x)%nat && (pv x =? a)%nat && seg_b nx pv x L b
  end.

Lemma seg_b_ok nx pv L : ∀ a b, seg_b nx pv a L b = true → seg nx pv a L b.
Proof.
  induction L as [|x L IH]; intros a b; simpl.
  - intros [?%Nat.eqb_eq ?%Nat.eqb_eq]%andb_prop. done.
  - intros [[?%Nat.eqb_eq ?%Nat.eqb_eq]%andb_prop ?]%andb_prop. auto.
Qed.

Definition lru_b (s : kstate) (L : list nat) : bool :=
  seg_b (bnext s) (bprev s) NBUF L NBUF && bool_decide (NoDup L) && (length (bcache s) =? NBUF)%nat &&
  (length L =? NBUF)%nat && forallb (λ i, (i <? NBUF)%nat) L.

Lemma lru_b_ok s L : lru_b s L = true → lru s L.
Proof.
  unfold lru_b. intros [[[[Hs Hnd%bool_decide_eq_true]%andb_prop Hl%Nat.eqb_eq]%andb_prop HL%Nat.eqb_eq]%andb_prop Hb]%andb_prop.
  split; [by apply seg_b_ok|done| |done].
  assert (Hin : ∀ i, i ∈ L → (i < NBUF)%nat).
  { intros i Hi. rewrite forallb_forall in Hb. by apply Nat.ltb_lt, Hb, list_elem_of_In. }
  assert (Hp : L ≡ₚ seq 0 NBUF).
  { apply submseteq_length_Permutation; [|by rewrite HL, length_seq].
    apply NoDup_submseteq; [done|]. intros i Hi. apply elem_of_seq. specialize (Hin i Hi). lia. }
  intros i. rewrite Hp, elem_of_seq. lia.
Qed.

(** ** Sample states *)

(** Process 3, with pid 7, runs; the cache is as binit() leaves it, and the log
    of device 1 starts at block 2. *)
Definition boot_state : kstate :=
  set_log (mkLog 2 30 0 false 1 0 (replicate 30 0))
    (set_procs (<[3%nat := set_p_pid 7 (set_p_state RUNNING null_proc)]> (replicate NPROC null_proc))
      (set_cpu (mkCpu (Some 3%nat) 0 true true 0) zero_state)).
Definition fs_state : kstate := match binit boot_state with Ok _ s => s | _ => boot_state end.
Definition fs_lru : list nat := rev buf_ids.

(** The same with a transaction of one block: block 50, new content [fresh_block],
    in buffer 0 and in the log header in memory. *)
Definition fresh_block : list Z := replicate 1024 7.
Definition tx_buf (x : buf) : buf :=
  mkBuf true false 1 50 (mkSleeplock false 0) 1 (b_prev x) (b_next x) fresh_block.
Definition tx_state : kstate :=
  set_log (mkLog 2 30 0 false 1 1 (50 :: replicate 29 0))
    (set_bcache (alter tx_buf 0%nat (bcache fs_state)) fs_state).

Lemma solo_b me pid s :
  cpu s = mkCpu (Some me) 0 true true 0 → locks s = ∅ → length (procs s) = NPROC → p_pid (procs s !!! me) = pid →
  forallb (λ p, bool_decide (p_state p ≠ SLEEPING)) (procs s) = true → solo me pid s.
Proof.
  intros Hc Hl Hlen Hpid Hs. split; rewrite ?Hc; try done.
  intros p i Hp Hsl. rewrite forallb_forall in Hs. apply list_elem_of_In in Hp.
  apply Hs, bool_decide_eq_true in Hp. done.
Qed.

Lemma fs_at_rest : at_rest 1 3 7 fs_state (view_of 1 (bcore fs_state) (disk fs_state)) (pins_of 1 (bcore fs_state)).
Proof.
  split; [apply solo_b; by vm_compute|]. split; [split|by vm_compute].
  - exists fs_lru. apply lru_b_ok. vm_compute. reflexivity.
  - apply core_b_ok. vm_compute. reflexivity.
Qed.

(** Nothing of device 1 is cached yet. *)
Lemma fs_unused : at_rest 1 3 7 fs_state (view_of 1 (bcore fs_state) (disk fs_state)) (λ _, 0).
Proof.
  eapply at_rest_ext; [| |exact fs_at_rest]; [reflexivity|]. intros b. symmetry. apply pins_of_absent.
  vm_compute. reflexivity.
Qed.

Lemma tx_at_rest : at_rest 1 3 7 tx_state (view_of 1 (bcore tx_state) (disk tx_state)) (pins_of 1 (bcore tx_state)).
Proof.
  split; [apply solo_b; by vm_compute|]. split; [split|by vm_compute].
  - exists fs_lru. apply lru_b_ok. vm_compute. reflexivity.
  - apply core_b_ok. vm_compute. reflexivity.
Qed.
