(* ===== verification/MemoryProps.v ===== *)
(** * What the memory subsystem promises

    The contracts of kernel/kalloc.c and kernel/vm.c, each with an example that
    applies it to a concrete machine of Demo.v. *)

From Stdlib Require Import ZArith Lia.
From stdpp Require Import base numbers gmap strings countable tactics list.
From S2P Require Import Prelude Machine CString State Spinlock Kalloc Vm VmTheory VmMap VmUser VmAlloc VmLoops VmCopy VmAccess Sched VmFree SchedTheory ProcMem Sleeplock Pipe Bio Log Fs Console File Process ProcFork Riscv RiscvTheory Sv39 VmKernel Demo.

(** kinit() leaves every page frame between the end of the kernel and
    PHYSTOP on the free list, each exactly once ([kmem_ok] says the list is
    linked in memory and has no duplicates), and freemem() answers their total
    size in bytes. *)
Theorem kinit_complete `{EnvOk} s :
  lock_free LkKmem s → kmem_ok s [] →
  ∃ s' fl, kinit s = Ok tt s' ∧ kmem_ok s' fl ∧ (∀ q, q ∈ fl ↔ page_ok q) ∧
    freemem s' = Ok (PGSIZE * Z.of_nat (length fl)) s'.
Proof.
  intros Hlk Hok. destruct (freerange_spec s Hlk Hok) as (s' & Hrun & Hok' & _).
  eexists s', _. split; [unfold kinit; by rewrite (bind_ok _ _ _ _ _ (initlock_eq LkKmem s (proj2 Hlk)))|]. split; [done|]. split; [|by apply freemem_eq].
  intros q. rewrite elem_of_reverse, elem_of_pages_from. pose proof env_end as He.
  rewrite PGROUNDUP_eq by (unfold PHYSTOP, KERNBASE, PGSIZE in *; lia).
  unfold page_ok, PHYSTOP, KERNBASE, PGSIZE in *. split.
  - intros (i & Hi & ->). Z.div_mod_to_equations. lia.
  - intros [Hal Hr].
    exists ((q - (end_ + 4096 - 1 - (end_ + 4096 - 1) mod 4096)) / 4096). Z.div_mod_to_equations. lia.
Qed.

Lemma kinit_complete_witness : ∃ s' fl, kinit zero_state = Ok tt s' ∧ kmem_ok s' fl ∧
  (∀ q, q ∈ fl ↔ page_ok q) ∧ freemem s' = Ok (PGSIZE * Z.of_nat (length fl)) s'.
Proof.
  apply (kinit_complete zero_state); [split; [by split|done]|].
  split; [constructor|]. split; [constructor|done].
Defined.

(** kalloc() takes a page off the free list, fills it with 5s, releases
    kmem.lock and leaves every byte of every other page alone; kfree() of that
    page puts it back at the head, and kalloc() answers 0 exactly when the list
    is empty. *)
Lemma kalloc_kfree `{EnvOk} s fl :
  lock_free LkKmem s → kmem_ok s fl →
  match fl with
  | [] => kalloc s = Ok 0 s
  | p :: fl' => ∃ s1 s2, kalloc s = Ok p s1 ∧ p ≠ 0 ∧ page_ok p ∧ p ∉ fl' ∧ kmem_ok s1 fl' ∧
      (∀ a, p ≤ a < p + PGSIZE → load8 (mem s1) a = 5) ∧ same_outside p (mem s) (mem s1) ∧
      s1 = set_freelist (freelist s1) (set_mem (mem s1) s) ∧
      kfree p s1 = Ok tt s2 ∧ kmem_ok s2 (p :: fl') ∧ same_outside p (mem s) (mem s2)
  end.
Proof.
  intros Hlk Hok. pose proof (kalloc_spec s fl Hlk Hok) as Hs. destruct fl as [|p fl']; [done|].
  destruct Hs as (Hrun & Hok1 & Hp & Hn). pose proof (page_ok_bounds p Hp).
  eexists _, _. split; [exact Hrun|]. split; [lia|]. split; [done|]. split; [done|]. split; [done|].
  split. { intros a Ha. simpl. rewrite load8_memset, PGBYTES_Z, decide_True; done. }
  split. { apply same_outside_memset. }
  split. { destruct s; kred; reflexivity. }
  split. { apply kfree_eq; [done|]. done. }
  split. { apply kmem_ok_kfree; try done. apply kmem_ok_head in Hok1. lia. }
  eapply same_outside_trans; [apply (same_outside_memset p _ 5)|]. simpl.
  apply (same_outside_kfree_mem p (set_freelist _ (set_mem _ s))).
Qed.

Lemma kalloc_kfree_witness : ∃ s1 s2, kalloc demo_state = Ok (pg 6) s1 ∧ kfree (pg 6) s1 = Ok tt s2 ∧
  kmem_ok s2 demo_fl.
Proof.
  destruct (kalloc_kfree demo_state demo_fl (demo_lock LkKmem) (proj1 (us_vm _ _ _ _ _ demo_uspace)))
    as (s1 & s2 & Hk & _ & _ & _ & _ & _ & _ & _ & Hf & Hok & _).
  exists s1, s2. done.
Defined.

(** C17: uvmalloc() grows a process from oldsz to newsz. On success it returns
    newsz and every new page is mapped read/write/execute for the user to a page
    of zeroes; when memory runs out it returns 0 and the process has exactly the
    pages it had before. Either way the old pages, the other mappings and all
    other memory are as they were, and no page is lost: what left the free list
    is a page or a table of the address space. *)
Theorem uvmalloc_correct `{EnvOk} root oldsz newsz s T fl D :
  lock_free LkKmem s → uspace s root T fl D → 0 ≤ oldsz ≤ newsz → newsz ≤ MAXVA →
  let v := npg oldsz in let n := Z.to_nat (npg newsz - v) in
  unmapped (mem s) T D v n →
  ∃ r s' T' fl' D', uvmalloc root oldsz newsz s = Ok r s' ∧
    urel root (range v n) s T fl D s' T' fl' D' ∧ pages T' fl' D' = pages T fl D ∧
    ((r = newsz ∧ ∀ vpn, range v n vpn → fresh (mem s') T' D' vpn) ∨
     (r = 0 ∧ D' = D ∧ unmapped (mem s') T' D' v n)).
Proof. apply uvmalloc_range. Qed.

(** A machine with ten free pages grows a process from two pages to five. *)
Lemma uvmalloc_correct_witness : ∃ r s' T' fl' D',
  uvmalloc (pg 0) 8192 20000 demo_state = Ok r s' ∧ pages T' fl' D' = 15%nat ∧
  ((r = 20000 ∧ fresh (mem s') T' D' 4) ∨ (r = 0 ∧ D' = demo_D)).
Proof.
  destruct (uvmalloc_correct (pg 0) 8192 20000 demo_state demo_T demo_fl demo_D
    (demo_lock LkKmem) demo_uspace ltac:(lia) ltac:(done)) as (r & s' & T' & fl' & D' & Hrun & _ & Hpg & Hc).
  - intros vpn Hr. change (range 2 3 vpn) in Hr. unfold range in Hr.
    assert (vpn = 2 ∨ vpn = 3 ∨ vpn = 4) as [-> | [-> | ->]] by lia; split; vm_compute; reflexivity.
  - exists r, s', T', fl', D'. split; [exact Hrun|]. split; [rewrite Hpg; vm_compute; reflexivity|].
    destruct Hc as [[-> Hf]|(-> & HD & _)]; [left; split; [reflexivity|]|right; split; [reflexivity|exact HD]].
    apply Hf. change (range 2 3 4). unfold range. lia.
Defined.

(** C5: uvmcopy(), the copy fork() makes. On success every page of the parent
    up to sz has a page of its own in the child with the same bytes and the same
    permissions; on failure the child has what it had before. In both cases the
    parent's mappings and bytes are untouched and no page is lost. *)
Theorem uvmcopy_correct `{EnvOk} old new sz s To Do T fl D :
  lock_free LkKmem s → uspace s old To fl Do → uspace s new T fl D → apart To Do T fl D →
  0 ≤ sz ≤ MAXVA → let n := Z.to_nat (npg sz) in
  (∀ vpn, range 0 n vpn → is_Some (Do !! vpn)) → unmapped (mem s) T D 0 n →
  ∃ r s' T' fl' D', uvmcopy old new sz s = Ok r s' ∧
    urel new (range 0 n) s T fl D s' T' fl' D' ∧ untouched old To Do s s' fl' ∧
    apart To Do T' fl' D' ∧ pages T' fl' D' = pages T fl D ∧
    ((r = 0 ∧ ∀ vpn, range 0 n vpn → copied (mem s) To Do (mem s') T' D' vpn) ∨
     (r = -1 ∧ D' = D ∧ unmapped (mem s') T' D' 0 n)).
Proof. apply uvmcopy_range. Qed.

Lemma demo_apart : apart demo_T demo_D demo_T2 demo_fl ∅.
Proof.
  assert (Hf : ∀ y, y ∈ [pg 0; pg 1; pg 2; pg 3; pg 4] → foreign demo_T2 demo_fl ∅ y).
  { intros y Hy. assert (page_ok y ∧ y ∉ demo_fl ∧ y ≠ pg 5) as (? & ? & Hne).
    { revert y Hy. apply Forall_forall. apply (bool_decide_unpack _). vm_compute. exact I. }
    split; [done|]. split; [done|]. split; [|intros vpn; by rewrite lookup_empty].
    intros [path Hp]. unfold demo_T2 in Hp. apply lookup_singleton_Some in Hp as [_ <-]. by apply Hne. }
  intros y [[path Hp]|[vpn Hp]]; apply Hf; revert Hp; unfold demo_T, demo_D;
    rewrite !lookup_insert, lookup_singleton; repeat case_decide; intros [= <-];
    rewrite !elem_of_cons; tauto.
Qed.

(** fork() of a two-page process. *)
Lemma uvmcopy_correct_witness : ∃ r s' T' fl' D',
  uvmcopy (pg 0) (pg 5) 5000 demo_state = Ok r s' ∧ pages T' fl' D' = 11%nat ∧
  ((r = 0 ∧ copied (mem demo_state) demo_T demo_D (mem s') T' D' 1) ∨ (r = -1 ∧ D' = ∅)).
Proof.
  destruct (uvmcopy_correct (pg 0) (pg 5) 5000 demo_state demo_T demo_D demo_T2 demo_fl ∅
    (demo_lock LkKmem) demo_uspace demo_uspace2 demo_apart ltac:(done))
    as (r & s' & T' & fl' & D' & Hrun & _ & _ & _ & Hpg & Hc).
  - intros vpn Hr. change (range 0 2 vpn) in Hr. unfold range in Hr.
    assert (vpn = 0 ∨ vpn = 1) as [-> | ->] by lia; vm_compute; by eexists.
  - intros vpn Hr. change (range 0 2 vpn) in Hr. unfold range in Hr.
    assert (vpn = 0 ∨ vpn = 1) as [-> | ->] by lia; split; vm_compute; reflexivity.
  - exists r, s', T', fl', D'. split; [exact Hrun|]. split; [rewrite Hpg; vm_compute; reflexivity|].
    destruct Hc as [[-> Hf]|(-> & HD)]; [left; split; [reflexivity|]|right; split; [reflexivity|exact (proj1 HD)]].
    apply Hf. change (range 0 2 1). unfold range. lia.
Defined.

(** C18: copyout() writes exactly the buffer to the user addresses from dstva
    on, across page boundaries, if the user may access all of them, and returns
    0; if the first address it may not access comes after the part [l1], it
    returns -1 with just [l1] written. No mapping and no other byte of memory
    changes, and copyin() of the same range gives the bytes back. *)
Theorem copyout_correct `{EnvOk} root s T fl D dstva l1 l2 :
  uspace s root T fl D → 0 ≤ dstva < 2 ^ 64 →
  (∀ i, 0 ≤ i < Z.of_nat (length l1) → acc (mem s) T D (dstva + i)) →
  (l2 = [] ∨ fault (mem s) T (dstva + Z.of_nat (length l1))) →
  ∃ m', let s' := set_mem m' s in
    copyout root dstva (l1 ++ l2) s = Ok (if decide (l2 = []) then 0 else -1) s' ∧
    uspace s' root T fl D ∧ (∀ va, leaf m' T va = leaf (mem s) T va) ∧
    uwritten D dstva l1 (mem s) m' ∧
    copyin root dstva (Z.of_nat (length l1)) s' = Ok (0, l1) s'.
Proof.
  intros Hu Ha Hacc Hf. destruct (copyout_spec root s T fl D dstva l1 l2) as (m' & Hrun & Hu' & Hl & Hw); try done.
  exists m'. do 4 (split; [done|]).
  pose proof (copyin_spec root _ T fl D dstva (Z.of_nat (length l1)) 0 Hu' Ha ltac:(lia) ltac:(lia)) as Hin.
  rewrite Z.add_0_r in Hin. rewrite Hin; [|intros i Hi; by eapply acc_same_leaf, Hacc|by left].
  simpl. by rewrite (uread_written _ _ _ _ _ Hw).
Qed.

(** Writing eight bytes across the boundary between the two user pages. *)
Lemma copyout_correct_witness : ∃ m',
  copyout (pg 0) 4092 [1; 2; 3; 4; 5; 6; 7; 8] demo_state = Ok 0 (set_mem m' demo_state) ∧
  load8 m' (pg 3 + 4095) = 4 ∧ load8 m' (pg 4) = 5.
Proof.
  destruct (copyout_correct (pg 0) demo_state demo_T demo_fl demo_D 4092 [1; 2; 3; 4; 5; 6; 7; 8] []
    demo_uspace ltac:(lia)) as (m' & Hrun & _ & _ & [Hw _] & _).
  - apply acc_b_range. vm_compute. reflexivity.
  - by left.
  - exists m'. split; [exact Hrun|]. split; [apply (Hw 3)|apply (Hw 4)]; simpl; lia.
Defined.

(** copyin() gives exactly the bytes at the user addresses from srcva on
    and changes nothing; it answers -1 when it meets an address the user may not
    access. *)
Lemma copyin_correct `{EnvOk} root s T fl D srcva L1 L2 :
  uspace s root T fl D → 0 ≤ srcva < 2 ^ 64 → 0 ≤ L1 → 0 ≤ L2 →
  (∀ i, 0 ≤ i < L1 → acc (mem s) T D (srcva + i)) → (L2 = 0 ∨ fault (mem s) T (srcva + L1)) →
  copyin root srcva (L1 + L2) s = Ok (if decide (L2 = 0) then 0 else -1, uread D (mem s) srcva L1) s.
Proof. apply copyin_spec. Qed.

(** Four bytes at the end of the last page, then a fault. *)
Lemma copyin_correct_witness : copyin (pg 0) 8188 10 demo_state = Ok (-1, [0; 0; 0; 0]) demo_state.
Proof.
  pose proof (copyin_correct (pg 0) demo_state demo_T demo_fl demo_D 8188 4 6
    demo_uspace ltac:(lia) ltac:(lia) ltac:(lia)) as Hc.
  etransitivity; [apply Hc|].
  - apply acc_b_range. vm_compute. reflexivity.
  - right. right. vm_compute. reflexivity.
  - reflexivity.
Defined.

(** copyinstr() returns 0 with the user string up to and including its
    first zero byte, if that lies among the accessible bytes of the first max;
    otherwise it returns -1 with the bytes seen. *)
Lemma copyinstr_correct `{EnvOk} root s T fl D srcva L1 L2 :
  uspace s root T fl D → 0 ≤ srcva < 2 ^ 64 → 0 ≤ L1 → 0 ≤ L2 →
  (∀ i, 0 ≤ i < L1 → acc (mem s) T D (srcva + i)) → (L2 = 0 ∨ fault (mem s) T (srcva + L1)) →
  let '(g, str) := cut (uread D (mem s) srcva L1) in
  copyinstr root srcva (L1 + L2) s = Ok (if g : bool then 0 else -1, str) s.
Proof. apply copyinstr_spec. Qed.

Lemma copyinstr_correct_witness : copyinstr (pg 0) 4094 4 demo_state = Ok (0, [0]) demo_state.
Proof.
  pose proof (copyinstr_correct (pg 0) demo_state demo_T demo_fl demo_D 4094 4 0
    demo_uspace ltac:(lia) ltac:(lia) ltac:(lia)) as Hc.
  assert (Hcut : cut (uread demo_D (mem demo_state) 4094 4) = (true, [0])) by (vm_compute; reflexivity).
  rewrite Hcut in Hc. apply Hc; [|by left].
  apply acc_b_range. vm_compute. reflexivity.
Defined.

(** ** The memory of a process *)

(** C8: allocproc() either finds no free slot and changes nothing, or takes the
    first free one: with a trapframe page and an empty address space of its own,
    taken from the free list, the next pid and its lock held; or, when memory
    runs out on the way, with everything given back and the slot free again. *)
Theorem allocproc_correct `{EnvOk} s fl :
  alloc_ready s fl →
  (allocproc s = Ok None s ∧ ∀ j p, procs s !! j = Some p → p_state p ≠ UNUSED) ∨
  ∃ i p r s', procs s !! i = Some p ∧ p_state p = UNUSED ∧
    (∀ j q, (j < i)%nat → procs s !! j = Some q → p_state q ≠ UNUSED) ∧
    allocproc s = Ok r s' ∧ alloc_done s fl i p r s'.
Proof.
  intros Har. destruct (list_find (λ p, p_state p = UNUSED) (procs s)) as [[i p]|] eqn:Hf.
  - apply list_find_Some in Hf as (Hp & Hun & Hlt). right.
    assert (Hfirst : ∀ j q, (j < i)%nat → procs s !! j = Some q → p_state q ≠ UNUSED) by eauto.
    destruct (allocproc_spec s fl i p Har Hp Hun Hfirst) as (r & s' & Hrun & Hd). exists i, p, r, s'. done.
  - left. rewrite list_find_None, Forall_lookup in Hf. split; [by eapply find_none|exact Hf].
Qed.

(** C7: growproc() keeps the address space of the running process in shape: in
    the new state p->sz is the old or the new size, exactly the pages below it
    are mapped, with the trampoline and the trapframe at the top and nothing
    else; the pages below both sizes keep their place, bytes and permissions,
    new pages are zeroed, no page is lost, and a failure leaves the old size. *)
Theorem growproc_keeps_space `{EnvOk} n s me p T fl D :
  lock_free LkKmem s → c_proc (cpu s) = Some me → procs s !! me = Some p →
  proc_space s (p_pagetable p) T fl D (p_sz p) (p_trapframe p) →
  - 2 ^ 31 ≤ n < 2 ^ 31 → p_sz p < 2 ^ 32 → p_sz p + n < 2 ^ 32 →
  ∃ r s1 s' T' fl' D' sz, growproc n s = Ok r s' ∧ s' = set_procs (alter (set_p_sz sz) me (procs s)) s1 ∧
    resized (npg (Z.min (p_sz p) sz)) s T fl D s1 T' fl' D' ∧
    proc_space s' (p_pagetable p) T' fl' D' sz (p_trapframe p) ∧
    (∀ vpn, npg (p_sz p) ≤ vpn < npg sz → fresh (mem s') T' D' vpn) ∧
    ((r = 0 ∧ sz = new_size (p_sz p) n) ∨ (r = -1 ∧ 0 < n ∧ sz = p_sz p)).
Proof.
  intros Hlk Hme Hp Hsp Hn Hsz Hsum.
  destruct (growproc_spec n s me p T fl D Hlk Hme Hp Hsp Hn Hsz Hsum)
    as (r & s1 & T' & fl' & D' & Hres & [(-> & Hrun & Hsp' & Hf)|(-> & Hpos & Hrun & Hsp')]).
  - exists 0, s1, (set_procs (alter (set_p_sz (new_size (p_sz p) n)) me (procs s)) s1), T', fl', D', (new_size (p_sz p) n).
    split; [done|]. split; [done|]. split; [done|]. split; [by apply space_procs|]. split; [done|]. by left.
  - assert (Hid : set_procs (alter (set_p_sz (p_sz p)) me (procs s)) s1 = s1).
    { rewrite <- (resized_procs _ _ _ _ _ _ _ _ _ Hres), (list_alter_insert _ _ _ p)
        by (by rewrite (resized_procs _ _ _ _ _ _ _ _ _ Hres)).
      replace (set_p_sz (p_sz p) p) with p by (by destruct p).
      rewrite list_insert_id by (by rewrite (resized_procs _ _ _ _ _ _ _ _ _ Hres)). apply set_procs_id. }
    assert (Hmin : new_size (p_sz p) n = p_sz p + n).
    { unfold new_size. pose proof (pl_sz _ _ _ _ _ _ _ (proj1 Hsp)). by rewrite decide_True by lia. }
    rewrite Hmin, Z.min_l in Hres by lia. exists (-1), s1, s1, T', fl', D', (p_sz p).
    rewrite Z.min_id. split; [done|]. split; [done|]. split; [done|]. split; [done|]. split; [lia|]. by right.
Qed.

(** C6: freeproc() gives back every page of a process: the trapframe, the pages
    of its memory and the pages of its page table are on the free list again,
    each once, the slot is free, and no other page is touched. *)
Theorem freeproc_complete `{EnvOk} i s p T fl D :
  procs s !! i = Some p → lock_free LkKmem s →
  proc_space s (p_pagetable p) T fl D (p_sz p) (p_trapframe p) →
  ∃ s' fl', freeproc i s = Ok tt s' ∧ kmem_ok s' fl' ∧ fl' ≡ₚ p_trapframe p :: owned T fl D ∧
    procs s' = alter cleared i (procs s) ∧ pframe s s' ∧
    ∀ x, page_ok x → x ∉ p_trapframe p :: owned T fl D → same_page x (mem s) (mem s').
Proof. apply freeproc_spec. Qed.

(** A machine whose process 0 calls allocproc(), and the state after it. *)
Definition fresh_state : kstate := set_cpu (mkCpu (Some 0%nat) 0 true true 0) demo_state.

Lemma fresh_ready : alloc_ready fresh_state demo_fl.
Proof.
  split; [by repeat split|vm_compute; reflexivity|reflexivity..| |].
  - intros j p Hp _. apply lookup_replicate in Hp as [-> _]. by split.
  - eapply kmem_ok_same; [reflexivity..|]. apply demo_uspace.
Qed.

Lemma fresh_alloc : match allocproc fresh_state with Ok (Some 0%nat) _ => true | _ => false end = true.
Proof. vm_compute. reflexivity. Qed.

Definition process_state : kstate := match allocproc fresh_state with Ok _ s => s | _ => fresh_state end.

Lemma fresh_slot : procs fresh_state !! 0%nat = Some null_proc.
Proof. reflexivity. Qed.

Lemma fresh_inside : ∃ tf pt T fl, inside fresh_state 0 (handed 1 tf pt null_proc) process_state ∧
  proc_space process_state pt T fl ∅ 0 tf.
Proof.
  destruct (allocproc_spec fresh_state demo_fl 0 null_proc fresh_ready fresh_slot eq_refl ltac:(lia)) as (r & s' & Hrun & _ & Hd).
  pose proof fresh_alloc as Hs. unfold process_state. rewrite Hrun in *. destruct r as [[|]|]; [|discriminate..].
  destruct Hd as (_ & tf & pt & T & fl' & Hi & Hsp & _). exists tf, pt, T, fl'. exact (conj Hi Hsp).
Qed.

Lemma fresh_process : ∃ p T fl, let s := process_state in
  lock_free LkKmem s ∧ c_proc (cpu s) = Some 0%nat ∧ procs s !! 0%nat = Some p ∧
  p_sz p = 0 ∧ proc_space s (p_pagetable p) T fl ∅ (p_sz p) (p_trapframe p).
Proof.
  destruct fresh_inside as (tf & pt & T & fl & Hi & Hsp).
  destruct (inside_procs _ _ _ fresh_slot _ _ Hi) as (_ & Hps & Hlk).
  exists (handed 1 tf pt null_proc), T, fl. cbv zeta. split; [|split; [|split; [exact Hps|split; [reflexivity|exact Hsp]]]].
  - apply Hlk. split; [by apply cpu_ok_pushed; repeat split|reflexivity].
  - rewrite Hi. reflexivity.
Qed.

Lemma allocproc_correct_witness : ∃ i p r s', procs fresh_state !! i = Some p ∧
  allocproc fresh_state = Ok r s' ∧ alloc_done fresh_state demo_fl i p r s'.
Proof.
  destruct (allocproc_correct fresh_state demo_fl fresh_ready) as [[_ Hno]|(i & p & r & s' & Hp & _ & _ & Hrun & Hd)].
  - exfalso. by apply (Hno 0%nat null_proc).
  - exists i, p, r, s'. exact (conj Hp (conj Hrun Hd)).
Defined.

Lemma growproc_keeps_space_witness : ∃ r s' p T fl D, growproc 5000 process_state = Ok r s' ∧
  proc_space s' (p_pagetable p) T fl D (if r =? 0 then 5000 else 0) (p_trapframe p).
Proof.
  destruct fresh_process as (p & T & fl & Hlk & Hme & Hp & Hsz & Hsp).
  destruct (growproc_keeps_space 5000 process_state 0%nat p T fl ∅ Hlk Hme Hp Hsp ltac:(lia) ltac:(lia) ltac:(lia))
    as (r & s1 & s' & T' & fl' & D' & sz & Hrun & _ & _ & Hsp' & _ & Hc).
  exists r, s', p, T', fl', D'. split; [exact Hrun|].
  destruct Hc as [[-> ->]|(-> & _ & ->)]; rewrite Hsz in Hsp'; exact Hsp'.
Defined.

Lemma freeproc_complete_witness : ∃ s' fl, freeproc 0 process_state = Ok tt s' ∧ kmem_ok s' fl.
Proof.
  destruct fresh_process as (p & T & fl & Hlk & Hme & Hp & Hsz & Hsp).
  destruct (freeproc_complete 0 process_state p T fl ∅ Hp Hlk Hsp) as (s' & fl' & Hrun & Hk & _).
  exists s', fl'. exact (conj Hrun Hk).
Defined.

(** C4: fork() makes the first free slot a runnable child of the caller, whose
    address space has a copy of every page of the caller's with the same bytes
    and permissions, whose registers are the caller's with a0 = 0, and which
    shares its open files and directory, counted once more each; it answers the
    pid of the child. Or it answers -1, with every page back on the free list and
    the slot free. The caller keeps its memory and registers in both cases. *)
Theorem fork_correct `{EnvOk} s fl me i p c T D cw :
  fork_ready s fl me i p c T D cw →
  ∃ r s', fork s = Ok r s' ∧
    ((r = -1 ∧ fork_failed s fl i s') ∨
     (r = nextpid s ∧ ∃ q T' fl' D', fork_done s fl me i p T D cw q T' fl' D' s' ∧
       ∀ f x, ftable s !! f = Some x → ftable s' !! f = Some (set_f_ref (f_ref x + refs f (p_ofile p)) x))).
Proof.
  intros Hr. destruct (fork_spec s fl me i p c T D cw Hr) as (r & s' & Hrun & [Hf|(-> & q & T' & fl' & D' & Hd)]).
  - exists r, s'. split; [done|]. by left.
  - exists (nextpid s), s'. split; [done|]. right. split; [done|]. exists q, T', fl', D'. split; [done|].
    intros f x Hx. rewrite (fd_state _ _ _ _ _ _ _ _ _ _ _ _ _ Hd).
    change (bumps (p_ofile p) (ftable s) !! f = Some (set_f_ref (f_ref x + refs f (p_ofile p)) x)).
    by rewrite bumps_lookup, Hx.
Qed.

(** The process of [process_state], running with file 3 open as descriptor 0. *)
Definition with_files (p : proc) : proc :=
  set_p_cwd (Some 0%nat) (set_p_ofile (<[0%nat := Some 3%nat]> (replicate NOFILE None)) p).

Definition parent_of (s : kstate) : kstate :=
  set_ftable (<[3%nat := set_f_ref 1 null_file]> (replicate NFILE null_file))
    (set_procs (alter with_files 0%nat (procs s)) (unhold fresh_state s)).

Definition parent_state : kstate := parent_of process_state.

Lemma parent_ready s tf pt T fl : inside fresh_state 0 (handed 1 tf pt null_proc) s →
  proc_space s pt T fl ∅ 0 tf →
  fork_ready (parent_of s) fl 0 1 (with_files (handed 1 tf pt null_proc)) null_proc T ∅ 0.
Proof.
  intros Hi Hsp. destruct (inside_procs _ _ _ fresh_slot _ _ Hi) as (Hps & Hp0 & _).
  set (p := with_files (handed 1 tf pt null_proc)).
  assert (Hprocs : procs (parent_of s) = <[0%nat := p]> (procs fresh_state)).
  { change (alter with_files 0%nat (procs s) = <[0%nat := p]> (procs fresh_state)).
    by rewrite (list_alter_insert _ _ _ _ Hp0), Hps, list_insert_insert_eq. }
  assert (Hsp' : proc_space (parent_of s) pt T fl ∅ 0 tf) by (apply (space_at s); [reflexivity|reflexivity|exact Hsp]).
  assert (Hlook : ∀ j q, procs (parent_of s) !! j = Some q → (j = 0%nat ∧ q = p) ∨ (j ≠ 0%nat ∧ q = null_proc)).
  { intros j q Hj. rewrite Hprocs in Hj. destruct (decide (j = 0%nat)) as [->|Hne].
    - left. split; [done|]. rewrite list_lookup_insert_eq in Hj by (by eapply lookup_lt_Some, fresh_slot). by injection Hj.
    - right. split; [done|]. rewrite list_lookup_insert_ne in Hj by done. by apply lookup_replicate in Hj as [-> _]. }
  assert (Hcpu : c_proc (cpu (parent_of s)) = Some 0%nat) by reflexivity.
  clear Hi Hps Hp0. split.
  - split; [by repeat split|rewrite Hprocs, length_insert; reflexivity|reflexivity..| |apply Hsp'].
    intros j q [[-> ->]|[_ ->]]%Hlook; [done|by split].
  - exact Hcpu.
  - repeat split; reflexivity.
  - split; [rewrite Hprocs; reflexivity|done].
  - exact Hsp'.
  - split; [reflexivity|]. intros f Hf. assert (f = 3%nat) as ->.
    { apply elem_of_cons in Hf as [[= ->]|Hf]; [done|]. change (Some f ∈ replicate 15 None) in Hf.
      by apply elem_of_replicate in Hf as [? _]. }
    exists (set_f_ref 1 null_file). split; [reflexivity|done].
  - reflexivity.
  - split; [rewrite Hprocs; reflexivity|done].
  - intros j q Hj [[_ ->]|[Hne _]]%Hlook; [done|lia].
Qed.

Lemma fork_correct_witness : ∃ r s', fork parent_state = Ok r s' ∧ (r = -1 ∨ r = nextpid parent_state).
Proof.
  destruct fresh_inside as (tf & pt & T & fl & Hi & Hsp).
  destruct (fork_correct parent_state fl 0 1 _ null_proc T ∅ 0 (parent_ready _ _ _ _ _ Hi Hsp)) as (r & s' & Hrun & [[Hm _]|[Hm _]]);
    exists r, s'; (split; [exact Hrun|]); [left|right]; exact Hm.
Defined.

(** ** The kernel's page table *)

(** C9: with more than 136 free pages kvmmake() returns a page table that maps
    the devices, the kernel text, the rest of memory, the trampoline and one
    stack for every process (each a page of its own), and nothing else. A hart
    that runs on it can fetch and not store in the kernel text, load and store
    but not fetch in the rest of memory, at the physical address itself, and
    faults on the guard page below every kernel stack. *)
Theorem kvmmake_protects `{EnvOk} s fl :
  text_ok → lock_free LkKmem s → kmem_ok s fl → (KTABLES + 64 < length fl)%nat →
  ∃ root s' T fl' stack, kvmmake s = Ok root s' ∧ mframe s s' ∧ vm_ok s' root T fl' ∧
    (length stack = 64%nat ∧ NoDup stack ∧ ∀ p, p ∈ stack → page_ok p ∧ p ∉ fl' ∧ ¬ is_table T p) ∧
    (∀ va, 0 ≤ va < MAXVA → leaf (mem s') T va = kernel_map stack (PGROUNDDOWN va)) ∧
    ∀ h va, h_mode h = Supervisor → h_csr h satp = MAKE_SATP root → h_mem h = mem s' →
      (KERNBASE ≤ va < etext → translate h Fetch va = Some va ∧ translate h Store va = None) ∧
      (etext ≤ va < PHYSTOP →
        translate h Load va = Some va ∧ translate h Store va = Some va ∧ translate h Fetch va = None) ∧
      ∀ i acc, 0 ≤ i < 64 → KSTACK i - PGSIZE ≤ va < KSTACK i → translate h acc va = None.
Proof.
  intros Ht Hlk Hk Hlen. destruct (kvmmake_spec s fl Ht Hlk Hk Hlen) as (root & s' & T & fl' & st & Hrun & Hl & Hm).
  pose proof Hm as [_ [Hok Hleaf _] _ Hf [Hnd Hst]].
  assert (Hmap : ∀ va, 0 ≤ va < MAXVA → leaf (mem s') T va = kernel_map (reverse st) (PGROUNDDOWN va)).
  { intros va Hva. pose proof (vpn_range va Hva) as Hv.
    rewrite (leaf_vpn _ _ va (va / PGSIZE * PGSIZE)) by (by rewrite (proj2 (page_addr _))).
    rewrite Hleaf, stacks_map by done. f_equal. change MAXVA with 274877906944 in Hva.
    rewrite PGROUNDDOWN_eq by (pow2; lia). unfold PGSIZE. Z.div_mod_to_equations. lia. }
  exists root, s', T, fl', (reverse st). split; [done|]. split; [done|]. split; [done|]. split; [|split; [done|]].
  - rewrite length_reverse. split; [done|]. split; [by rewrite (reverse_Permutation st)|]. intros p. rewrite elem_of_reverse. apply Hst.
  - intros h va Hmode Hsatp Hmem. rewrite <- Hmem in Hmap.
    assert (Hp : paged h root T) by (split; [by rewrite Hmode|done|rewrite Hmem; apply Hok]).
    split; [by eapply text_protected|]. split; [by eapply data_protected|]. intros. by eapply guard_refused.
Qed.

(** A machine with 256 free pages. *)
Definition boot_env : Env := {|
  end_ := PHYSTOP - 256 * PGSIZE;
  etext := KERNBASE + 8 * PGSIZE;
  trampoline := KERNBASE + 7 * PGSIZE;
  uservec := KERNBASE + 7 * PGSIZE;
  userret := KERNBASE + 7 * PGSIZE + 160;
  kernelvec := KERNBASE + 5 * PGSIZE;
  usertrap_addr := KERNBASE + 10000;
  forkret_addr := KERNBASE + 12000;
  fuel := 20;
|}.

Lemma kvmmake_protects_witness : ∃ s root s', @freerange boot_env (@end_ boot_env) PHYSTOP zero_state = Ok tt s ∧
  @kvmmake boot_env s = Ok root s' ∧
  ∀ h, h_mode h = Supervisor → h_csr h satp = MAKE_SATP root → h_mem h = mem s' → translate h Store KERNBASE = None.
Proof.
  assert (Henv : @EnvOk boot_env) by (split; done).
  destruct (@freerange_spec boot_env Henv zero_state) as (s & Hrun & Hk & Hs).
  { split; [by split|done]. } { split; [constructor|]. split; [constructor|done]. }
  assert (Hlk : lock_free LkKmem s) by (clear Hrun Hk; rewrite Hs; split; [by split|reflexivity]).
  assert (Ht : @text_ok boot_env) by (clear; split; done).
  destruct (@kvmmake_protects boot_env Henv s _ Ht Hlk Hk) as (root & s' & T & fl' & stack & Hrun' & _ & _ & _ & _ & Hh).
  - clear. rewrite length_reverse. vm_compute. lia.
  - exists s, root, s'. split; [exact Hrun|]. split; [exact Hrun'|]. intros h Hm Hsa Hme.
    apply (Hh h KERNBASE Hm Hsa Hme). clear. split; done.
Defined.
