(* ===== verification/SchedProps.v ===== *)
(** * What the scheduler promises

    The contracts of sleep(), wakeup(), kill(), sched() and procnum() of
    kernel/proc.c, with examples on a machine whose process 3 runs. *)

From Stdlib Require Import ZArith Lia.
From stdpp Require Import base numbers gmap strings countable tactics list.
From S2P Require Import Prelude Machine CString State Spinlock Kalloc Vm Sched SchedTheory SmpSleep Demo.

(** Process 3 runs and holds tickslock; process 5 sleeps on the same channel. *)
Definition ticker (st : procstate) : proc := set_p_pid 7 (set_p_state st null_proc).
Definition sleeping_procs : list proc :=
  <[5%nat := set_p_pid 9 (asleep ChTicks null_proc)]> (<[3%nat := ticker RUNNING]> (replicate NPROC null_proc)).
Definition running_state : kstate :=
  set_procs sleeping_procs (set_locks {[LkTicks := 0]}
    (set_cpu (mkCpu (Some 3%nat) 1 true false 0) zero_state)).
(** The scheduler of the hart, between processes. *)
Definition idle_state (ps : list proc) : kstate :=
  set_procs ps (set_cpu (mkCpu None 0 true true 0) zero_state).

(** ** Resuming a sleeper *)
Lemma dispatch_running i s p :
  c_noff (cpu s) = 0 → locks s !! LkProc i = None → procs s !! i = Some p → p_state p = RUNNABLE →
  ∃ s', dispatch i s = Ok true s' ∧ running i s' ∧
    locks s' = <[LkProc i := c_id (cpu s')]> (locks s) ∧ procs s' !! i = Some (set_p_state RUNNING p) ∧
    (∀ j, j ≠ i → procs s' !! j = procs s !! j).
Proof.
  intros Hn Hl Hp Hst. eexists. split.
  { apply dispatch_eq; [done|]. by rewrite (list_lookup_total_correct _ _ _ Hp). }
  split; [unfold running, pushed; simpl; by rewrite Hn|]. simpl. split; [done|].
  split; [by rewrite list_lookup_alter_eq, Hp|]. intros j Hj. by rewrite list_lookup_alter_ne.
Qed.

Definition sleeps_at (i : nat) (ch : chan) (p : proc) (s : kstate) : Prop :=
  procs s !! i = Some (asleep ch p) ∧ locks s !! LkProc i = None.

(** sleep() alone. A process [i] that calls sleep(ch, lk) while it holds lk gives
    up the hart SLEEPING on ch, with its own lock held and lk released; the
    scheduler then drops that lock. A wakeup(ch) by any other process makes it
    RUNNABLE, and when a scheduler picks it up it returns from sleep() RUNNING,
    off the channel, with lk held again and its saved interrupt state restored. *)
Lemma sleep_resume ch lk i p s :
  running i s → locks s !! lk = Some (c_id (cpu s)) → locks s !! LkProc i = None →
  procs s !! i = Some p →
  ∃ s1 k s2, sleep ch lk s = Switch s1 k ∧
    locks s1 = <[LkProc i := c_id (cpu s)]> (delete lk (locks s)) ∧
    procs s1 !! i = Some (asleep ch p) ∧
    retire i s1 = Ok tt s2 ∧ sleeps_at i ch p s2 ∧ locks s2 = delete lk (locks s) ∧ c_proc (cpu s2) = None ∧
    (∀ s3, proc_locks_free s3 → length (procs s3) = NPROC → c_proc (cpu s3) ≠ Some i → sleeps_at i ch p s3 →
      ∃ s4, wakeup (Some ch) s3 = Ok tt s4 ∧
        procs s4 !! i = Some (set_p_state RUNNABLE (asleep ch p)) ∧ locks s4 = locks s3) ∧
    (∀ s5, c_noff (cpu s5) = 0 → locks s5 !! LkProc i = None → locks s5 !! lk = None →
      procs s5 !! i = Some (set_p_state RUNNABLE (asleep ch p)) →
      ∃ s6 s7, dispatch i s5 = Ok true s6 ∧ k s6 = Ok tt s7 ∧ running i s7 ∧
        locks s7 = <[lk := c_id (cpu s7)]> (locks s5) ∧ c_intena (cpu s7) = c_intena (cpu s) ∧
        procs s7 !! i = Some (set_p_state RUNNING (set_p_chan None p))).
Proof.
  intros Hr Hl Hi Hp. assert (Hne : lk ≠ LkProc i) by congruence.
  destruct (sleep_eq ch lk i s Hr Hl Hi (lookup_lt_Some _ _ _ Hp)) as (s1 & k & Hsl & Hs1 & Hk).
  eexists s1, k, _. subst s1. split; [done|]. simpl. split; [done|].
  split; [by rewrite list_lookup_alter_eq, Hp|].
  split; [apply retire_eq; [done|]; simpl; by rewrite lookup_insert_eq|]. simpl.
  split. { split; simpl; [by rewrite list_lookup_alter_eq, Hp|by rewrite lookup_delete_eq]. }
  split. { apply delete_insert_id. by rewrite lookup_delete_ne. }
  split; [done|]. split.
  - intros s3 Hf Hlen Hc [Hp3 _]. destruct (wakeup_eq (Some ch) s3 Hf Hlen) as (ps & Hrun & _ & Hps).
    eexists. split; [exact Hrun|]. split; [|done]. simpl. rewrite Hps, Hp3, decide_False by done.
    simpl. f_equal. unfold wake. by rewrite bool_decide_true.
  - intros s5 Hn Hl5 Hlk5 Hp5.
    destruct (dispatch_running i s5 _ Hn Hl5 Hp5 eq_refl) as (s6 & Hd & Hr6 & Hl6 & Hp6 & _).
    eexists s6, _. split; [done|]. split.
    { apply Hk; [done|by rewrite Hl6, lookup_insert_eq|]. by rewrite Hl6, lookup_insert_ne. }
    destruct s6 as [[]]. simpl in *. split; [done|].
    split; [rewrite Hl6; by rewrite delete_insert_id|]. split; [done|].
    by rewrite list_lookup_alter_eq, Hp6.
Qed.

Lemma sleep_resume_witness :
  ∃ s1 k s2, sleep ChTicks LkTicks running_state = Switch s1 k ∧ retire 3 s1 = Ok tt s2 ∧
    sleeps_at 3 ChTicks (ticker RUNNING) s2 ∧ locks s2 = ∅ ∧
    ∃ s6 s7, dispatch 3 (idle_state (<[3%nat := set_p_state RUNNABLE (asleep ChTicks (ticker RUNNING))]>
      sleeping_procs)) = Ok true s6 ∧ k s6 = Ok tt s7 ∧ locks s7 !! LkTicks = Some (c_id (cpu s7)).
Proof.
  destruct (sleep_resume ChTicks LkTicks 3 (ticker RUNNING) running_state)
    as (s1 & k & s2 & H1 & _ & _ & H2 & H3 & H4 & _ & _ & H5); [by split|by vm_compute..|].
  exists s1, k, s2. do 3 (split; [assumption|]). split; [rewrite H4; vm_compute; reflexivity|].
  destruct (H5 (idle_state (<[3%nat := set_p_state RUNNABLE (asleep ChTicks (ticker RUNNING))]> sleeping_procs)))
    as (s6 & s7 & H6 & H7 & _ & H9 & _); [by vm_compute..|].
  exists s6, s7. split; [assumption|]. split; [assumption|]. rewrite H9. apply lookup_insert_eq.
Defined.

(** ** Several harts *)

(** C3: no wakeup is lost. On any number of harts, in every interleaving of the
    statements of sleep(), wakeup(), kill(), yield() and scheduler(): when a
    wakeup(ch) that was called with lk held has looked at process [i], then [i]
    is not dozing in sleep(ch, lk): it has not released lk yet, or it has been
    made runnable since. In particular none is left when wakeup() returns. Whoever
    gets the lock of a dozing process finds it SLEEPING on ch; sleep() returns with
    lk held. The scheduler switches only to a process whose context is saved, and
    no process is on two harts. The code that is interleaved is that of sleep()
    and wakeup(): run without interruption it is what they do. *)
Theorem no_lost_wakeup m : reachable m →
  (∀ h ch lk todo i, at_pc (harts m h) = Run (InWakeup (Some ch)) todo → locks (sh m) !! lk = Some (Z.of_nat h) →
    is_plock lk = false → on (harts m h) ≠ Some i → (i < NPROC)%nat → WakeIf (Some ch) i ∉ todo → ¬ dozing m i ch lk) ∧
  (∀ i ch lk, is_plock lk = false → dozing m i ch lk →
    (∃ h, on (harts m h) = Some i ∧ locks (sh m) !! LkProc i = Some (Z.of_nat h)) ∨
    (∃ p, procs (sh m) !! i = Some p ∧ p_state p = SLEEPING ∧ p_chan p = Some ch)) ∧
  (∀ h ch lk, at_pc (harts m h) = Run (InSleep ch lk) [] → locks (sh m) !! lk = Some (Z.of_nat h)) ∧
  (∀ h i, at_pc (harts m h) = Entering i → saved m i ≠ None) ∧
  (∀ h h' i, on (harts m h) = Some i → on (harts m h') = Some i → h' = h) ∧
  (∀ ch lk s, sleep ch lk s = (i ← cur; run (Some i) (sleep_code ch lk i)) s) ∧
  (∀ ch s, cpu_ok (cpu s) → wakeup ch s = run (c_proc (cpu s)) (wakeup_code ch (c_proc (cpu s))) s).
Proof.
  intros Hi%inv_always. split_and!.
  - apply (iv_wake m Hi).
  - apply (dozing_found m Hi).
  - apply (iv_back m Hi).
  - intros h i Hx. apply (iv_chosen m Hi h i). by right.
  - intros h h' i Ho. by apply (iv_one m Hi h i).
  - apply sleep_runs.
  - apply wakeup_runs.
Qed.

(** Process 0 starts on hart 0 and goes to sleep on the ticks; while it does, hart 1
    takes tickslock, which sleep() has released, and calls wakeup(). *)
Definition two_harts : mp :=
  mkMp (set_procs (<[0%nat := ticker RUNNABLE]> (replicate NPROC null_proc)) zero_state)
    (λ h, mkHart (mkCpu None 0 true true (Z.of_nat h)) None Client)
    (λ i, if decide (i = 0%nat) then Some (mkCtx (λ s, Ok tt s) InForkret (forkret_code 0)) else None).

Definition two_moves : list (nat * choice) :=
  (pair 0%nat <$> [Pick 0; Go; Go; Go; Go; Go; Do (InAcquire LkTicks); Go; Go; Do (InSleep ChTicks LkTicks); Go; Go]) ++
  (pair 1%nat <$> [Do (InAcquire LkTicks); Go; Go; Do (InWakeup (Some ChTicks))]) ++
  (pair 0%nat <$> [Go; Go; Go; Go; Go]) ++ (pair 1%nat <$> [Go; Go; Go]).

Definition two_end : mp := default two_harts (run_moves two_moves two_harts).

Lemma two_booted : booted two_harts.
Proof.
  split; [done|]. split; [done|]. intros i.
  change (procs (sh two_harts)) with (<[0%nat := ticker RUNNABLE]> (replicate NPROC null_proc)).
  unfold two_harts. cbn [saved]. destruct (decide (i = 0%nat)) as [->|Hne].
  - split; [done|]. intros p [= <-]. done.
  - split; intros p; rewrite list_lookup_insert_ne by done; intros [-> _]%lookup_replicate; done.
Qed.

Lemma two_reachable : reachable two_end.
Proof.
  assert (Hr : reachable two_harts) by (exists two_harts; split; [exact two_booted|apply rtc_refl]).
  unfold two_end. destruct (run_moves two_moves two_harts) as [m|] eqn:Hm; [|exact Hr].
  exact (run_moves_reachable _ _ _ Hr Hm).
Qed.

Lemma no_lost_wakeup_witness : ¬ dozing two_end 0 ChTicks LkTicks ∧ p_state (procs (sh two_end) !!! 0%nat) = RUNNABLE.
Proof.
  split; [|vm_compute; reflexivity].
  destruct (no_lost_wakeup two_end two_reachable) as [Hw _].
  eapply (Hw 1%nat); [vm_compute; reflexivity|vm_compute; reflexivity|reflexivity|vm_compute; discriminate|unfold NPROC; lia|].
  apply (bool_decide_unpack _). vm_compute. exact I.
Defined.

(** wakeup(ch) makes RUNNABLE exactly the processes that are SLEEPING on ch
    and are not the caller, and changes nothing else: no other process, no lock,
    no interrupt state. *)
Lemma wakeup_exact ch s :
  proc_locks_free s → length (procs s) = NPROC →
  ∃ ps, wakeup ch s = Ok tt (set_procs ps s) ∧ length ps = NPROC ∧
    ∀ j p, procs s !! j = Some p → ps !! j = Some
      (if decide (c_proc (cpu s) ≠ Some j ∧ p_state p = SLEEPING ∧ p_chan p = ch)
       then set_p_state RUNNABLE p else p).
Proof.
  intros Hf Hlen. destruct (wakeup_eq ch s Hf Hlen) as (ps & Hrun & Hl & Hps).
  exists ps. do 2 (split; [done|]). intros j p Hp. rewrite Hps, Hp. simpl. f_equal.
  unfold wake. repeat case_decide; try case_bool_decide; naive_solver.
Qed.

Lemma wakeup_exact_witness :
  ∃ ps, wakeup (Some ChTicks) running_state = Ok tt (set_procs ps running_state) ∧
    ps !! 5%nat = Some (set_p_state RUNNABLE (set_p_pid 9 (asleep ChTicks null_proc))) ∧
    ps !! 3%nat = Some (ticker RUNNING).
Proof.
  destruct (wakeup_exact (Some ChTicks) running_state) as (ps & Hrun & _ & Hps).
  { split; [by split|]. intros i _ _. unfold running_state. simpl. by apply lookup_singleton_ne. }
  { by vm_compute. }
  exists ps. split; [assumption|]. split.
  - rewrite (Hps 5%nat (set_p_pid 9 (asleep ChTicks null_proc))) by (vm_compute; reflexivity). by vm_compute.
  - rewrite (Hps 3%nat (ticker RUNNING)) by (vm_compute; reflexivity). by vm_compute.
Defined.

(** kill(pid) marks the first process with that pid killed, takes it out
    of sleep() if it is there, changes no other process and answers 0; it
    answers -1, and changes nothing, when there is no such process. *)
Lemma kill_correct pid s :
  cpu_ok (cpu s) → (∀ j, (j < NPROC)%nat → locks s !! LkProc j = None) → length (procs s) = NPROC →
  kill pid s = match list_find (λ p, p_pid p = pid) (procs s) with
    | Some (i, p) => Ok 0 (set_procs (<[i := set_p_state
        (if decide (p_state p = SLEEPING) then RUNNABLE else p_state p) (set_p_killed true p)]> (procs s)) s)
    | None => Ok (-1) s
    end.
Proof.
  intros Hc Hl Hlen. destruct (list_find _ _) as [[i p]|] eqn:Hf.
  - apply list_find_Some in Hf as (Hp & Hpid & Hfirst).
    pose proof (lookup_lt_Some _ _ _ Hp) as Hlt.
    rewrite (kill_found pid i s p) by (done || lia || (intros j Hj He;
      eapply (Hfirst j); [apply list_lookup_lookup_total_lt; lia|done|done])).
    assert (killed_proc p = set_p_state (if decide (p_state p = SLEEPING) then RUNNABLE else p_state p)
      (set_p_killed true p)) as ->; [|done].
    unfold killed_proc. destruct p. by case_bool_decide; case_decide.
  - apply list_find_None in Hf. apply kill_absent; [done|done|]. intros j Hj.
    rewrite Forall_lookup in Hf. apply (Hf j). apply list_lookup_lookup_total_lt. lia.
Qed.

Lemma kill_correct_witness : kill 9 running_state =
  Ok 0 (set_procs (<[5%nat := set_p_state RUNNABLE (set_p_killed true (set_p_pid 9 (asleep ChTicks null_proc)))]>
    sleeping_procs) running_state) ∧ kill 12 running_state = Ok (-1) running_state.
Proof.
  assert (H1 : ∀ j, (j < NPROC)%nat → locks running_state !! LkProc j = None)
    by (intros j _; unfold running_state; simpl; by apply lookup_singleton_ne).
  split.
  - rewrite (kill_correct 9 running_state) by (assumption || by split || by vm_compute). vm_compute. reflexivity.
  - rewrite (kill_correct 12 running_state) by (assumption || by split || by vm_compute). vm_compute. reflexivity.
Defined.

(** What sched() insists on: the process's own lock, and only that one, held;
    the process no longer RUNNING; interrupts off. *)
Definition may_switch (i : nat) (s : kstate) : Prop :=
  locks s !! LkProc i = Some (c_id (cpu s)) ∧ c_noff (cpu s) = 1 ∧
  p_state (procs s !!! i) ≠ RUNNING ∧ c_sie (cpu s) = false.

(** sched() switches to the scheduler exactly when the caller holds its own
    lock and no other, is not RUNNING, and has interrupts off; it panics
    otherwise. It never changes the state it switches with, and restores this
    process's intena when it is resumed, on whatever hart. *)
Theorem sched_guarded i s :
  cpu_ok (cpu s) → c_proc (cpu s) = Some i →
  match sched s with
  | Switch s1 k => s1 = s ∧ may_switch i s ∧
      ∀ s', k s' = Ok tt (set_cpu (set_c_intena (c_intena (cpu s)) (cpu s')) s')
  | Panic _ s1 => s1 = s ∧ ¬ may_switch i s
  | _ => False
  end.
Proof.
  intros Hc Hp. destruct (decide (may_switch i s)) as [(Hl & Hn & Hst & Hs)|Hno].
  { rewrite (sched_eq i s) by done. split; [done|]. split; [done|]. done. }
  unfold sched. rewrite (bind_ok _ _ _ _ _ (cur_eq s i Hc Hp)). unfold holding, mycpu, intr_get. mrun.
  case_bool_decide as Hl; simpl; [|done]. mrun.
  destruct (Z.eqb_spec (c_noff (cpu s)) 1) as [Hn|]; simpl; [|done]. mrun.
  case_decide as Hst; [done|]. mrun. destruct (c_sie (cpu s)) eqn:Hs; [done|].
  destruct Hno. done.
Qed.

Lemma sched_guarded_witness :
  match sched (set_procs (<[3%nat := ticker RUNNABLE]> sleeping_procs)
    (set_locks {[LkProc 3 := 0]} running_state)) with Switch _ _ => True | _ => False end ∧
  match sched running_state with Panic _ _ => True | _ => False end.
Proof.
  split.
  - pose proof (sched_guarded 3 (set_procs (<[3%nat := ticker RUNNABLE]> sleeping_procs)
      (set_locks {[LkProc 3 := 0]} running_state)) ltac:(by split) eq_refl) as Hs.
    destruct (sched _); try done. destruct Hs as [_ []]. split; [by vm_compute|]. done.
  - pose proof (sched_guarded 3 running_state ltac:(by split) eq_refl) as Hs.
    destruct (sched _); try done. destruct Hs as (_ & [Hs _] & _). vm_compute in Hs. done.
Defined.
