(* ===== verification/PipeProps.v ===== *)
(** * What pipes promise

    A struct pipe is a bounded queue of bytes ([contents]); these are the
    contracts of pipewrite() and piperead() against that queue, for a caller
    whose user buffer is accessible. *)

From Stdlib Require Import ZArith Lia.
From stdpp Require Import base numbers gmap strings countable tactics list.
From S2P Require Import Prelude Machine CString State Spinlock Kalloc Vm VmTheory VmMap VmUser VmAlloc VmLoops VmAccess Sched SchedTheory Pipe PipeTheory Demo.

(** A pipe nobody reads, or a killed writer. *)
Lemma pipewrite_closed `{EnvOk} me pi pr s p addr n :
  ready me pi s → pipes s !! pi = Some p → procs s !! me = Some pr → 0 < n →
  pi_readopen p = false ∨ p_killed pr = true → pipewrite pi addr n s = Ok (-1) s.
Proof.
  intros Hrd Hp Hpr Hn Hbad. pose proof Hrd as (Hcp & _ & Hcok & Hlk & _).
  unfold pipewrite. rewrite (bind_ok _ _ _ _ _ (cur_eq s me Hcok Hcp)).
  rewrite (bind_ok _ _ _ _ _ (acquire_eq _ s Hlk)).
  rewrite (bind_ok _ _ _ None s); [done|]. simpl. rewrite (bind_ok _ _ _ (inr None) s); [done|].
  unfold pipewrite_body. rewrite (proj2 (Z.ltb_lt _ _)) by done. simpl. mrun. simpl.
  rewrite Hp, (list_lookup_total_correct _ _ _ Hpr). simpl.
  replace (negb (pi_readopen p) || p_killed pr) with true
    by (destruct Hbad as [-> | ->]; [done|by rewrite orb_true_r]).
  rewrite (bind_ok _ _ _ _ _ (release_eq (LkPipe pi) s _ Hcok Hlk eq_refl eq_refl)). by rewrite unhold_hold.
Qed.

Section pipes.
Context `{EnvOk} (me : nat) (pi : Z) (root : Z) (T : gmap (list Z) Z) (fl : list Z) (D : gmap Z Z) (pr : proc).

(** C31: pipewrite() appends the user's bytes to the pipe's queue, in order,
    and wakes the readers, when they fit; when they do not, it appends as many
    as fit, wakes the readers and sleeps until there is room, with the pipe's
    lock released; when the read end is closed or the caller has been killed it
    fails with -1 and changes nothing. *)
Theorem pipewrite_correct s p addr n :
  p_pagetable pr = root → ready me pi s → at_pipe me pi root T fl D pr s p → (me < NPROC)%nat → 0 < n →
  let room := PIPESIZE - fill_level p in
  (∀ k, 0 ≤ k < Z.min n room → acc (mem s) T D (addr + k)) →
  if negb (pi_readopen p) || p_killed pr then pipewrite pi addr n s = Ok (-1) s
  else if n <=? room then
    ∃ q ps, pipewrite pi addr n s = Ok n (set_procs ps (set_pipes (<[pi := q]> (pipes s)) s)) ∧
      pipe_ok q ∧ contents q = contents p ++ uread D (mem s) addr n ∧ woken me (ChPipeRead pi) s ps
  else
    ∃ q s1 k, pipewrite pi addr n s = Switch s1 k ∧ pipes s1 !! pi = Some q ∧ pipe_ok q ∧
      fill_level q = PIPESIZE ∧ contents q = contents p ++ uread D (mem s) addr room ∧
      procs s1 !! me = Some (asleep (ChPipeWrite pi) pr) ∧ locks s1 !! LkPipe pi = None ∧
      (∀ j x, procs s !! j = Some x → j ≠ me → procs s1 !! j = Some (wake (Some (ChPipeRead pi)) x)).
Proof.
  intros Hroot Hrd Hat Hme Hn room Hacc. destruct (negb (pi_readopen p) || p_killed pr) eqn:Hbad.
  { eapply pipewrite_closed; [done|apply Hat..|done|].
    apply orb_prop in Hbad as [?%negb_true_iff|]; auto. }
  apply orb_false_elim in Hbad as [Hro%negb_false_iff Hk]. destruct (Z.leb_spec n room) as [Hle|Hgt].
  - destruct (pipewrite_fits me pi root T fl D pr Hroot s p addr n) as (q & ps & ? & ? & ? & _ & _ & ?);
      [done..|lia|lia| |].
    { intros k Hk'. apply Hacc. lia. }
    by exists q, ps.
  - apply (pipewrite_full me pi root T fl D pr Hroot s p addr n); try done.
    intros k Hk'. apply Hacc. lia.
Qed.

(** C32: piperead() moves bytes from the front of the queue to the user's
    buffer, in order and as many as there are up to n, and wakes the writers;
    at end of file (no data and no writer) it answers 0; when there is no data
    but there are writers it sleeps, with the pipe untouched. *)
Theorem piperead_correct s p addr n :
  p_pagetable pr = root → ready me pi s → at_pipe me pi root T fl D pr s p → (me < NPROC)%nat →
  (0 < fuel)%nat → 0 ≤ n → p_killed pr = false →
  let k := Z.min n (fill_level p) in
  (∀ j, 0 ≤ j < k → acc (mem s) T D (addr + j)) →
  if decide (contents p = [] ∧ pi_writeopen p = true) then
    ∃ s1 c, piperead pi addr n s = Switch s1 c ∧ pipes s1 = pipes s ∧ locks s1 !! LkPipe pi = None ∧
      procs s1 !! me = Some (asleep (ChPipeRead pi) pr)
  else
    ∃ q m' ps, piperead pi addr n s =
        Ok k (set_procs ps (set_mem m' (set_pipes (<[pi := q]> (pipes s)) s))) ∧
      pipe_ok q ∧ contents q = drop (Z.to_nat k) (contents p) ∧
      uwritten D addr (take (Z.to_nat k) (contents p)) (mem s) m' ∧ woken me (ChPipeWrite pi) s ps.
Proof.
  intros Hroot Hrd Hat Hme Hfuel Hn Hk k Hacc. destruct (decide _) as [[He Hwo]|Hav].
  - destruct (piperead_empty me pi root T fl D pr s p addr n) as (s1 & c & Hrun & Hpi & Hs1); [done..|].
    exists s1, c. do 2 (split; [done|]). subst s1. simpl. split.
    + rewrite lookup_insert_ne by done. apply Hrd.
    + destruct Hat as (_ & _ & Hpr & _). by rewrite list_lookup_alter_eq, Hpr.
  - destruct (piperead_data me pi root T fl D pr Hroot s p addr n) as (q & m' & ps & Hq);
      [done..| |done|exists q, m', ps; naive_solver].
    destruct (pi_writeopen p) eqn:Hwo; [|by right]. left.
    pose proof (length_contents p ltac:(apply Hat)). destruct (contents p); [tauto|]. simpl in *. lia.
Qed.
End pipes.

(** C10: what is written to an empty pipe by one process is what the next
    reader of the pipe gets, byte for byte: writing n bytes and then reading
    into a buffer of at least n bytes, in any state in which the reader runs and
    the pipe is still as the writer left it, returns n, leaves the reader's
    buffer equal to the writer's and the pipe empty. *)
Theorem pipe_transfer `{EnvOk} pi p n
    w rootw Tw flw Dw prw sw addrw r rootr Tr flr Dr prr sr addrr nr sw' q :
  p_pagetable prw = rootw → ready w pi sw → at_pipe w pi rootw Tw flw Dw prw sw p →
  pi_readopen p = true → p_killed prw = false → contents p = [] → 0 < n ≤ PIPESIZE →
  (∀ k, 0 ≤ k < n → acc (mem sw) Tw Dw (addrw + k)) →
  pipewrite pi addrw n sw = Ok n sw' → pipes sw' !! pi = Some q →
  p_pagetable prr = rootr → ready r pi sr → at_pipe r pi rootr Tr flr Dr prr sr q →
  (0 < fuel)%nat → n ≤ nr → (∀ k, 0 ≤ k < n → acc (mem sr) Tr Dr (addrr + k)) →
  ∃ sr' q', piperead pi addrr nr sr = Ok n sr' ∧ pipes sr' !! pi = Some q' ∧ contents q' = [] ∧
    uread Dr (mem sr') addrr n = uread Dw (mem sw) addrw n.
Proof.
  intros Hrw Hrdw Hatw Hro Hkw He Hn Haccw Hwr Hq Hrr Hrdr Hatr Hfuel Hnr Haccr.
  assert (Hf0 : fill_level p = 0).
  { pose proof (length_contents p ltac:(apply Hatw)) as Hl. rewrite He in Hl. simpl in Hl. lia. }
  destruct (pipewrite_fits w pi rootw Tw flw Dw prw Hrw sw p addrw n)
    as (q0 & ps & Hrun & Hok & Hc & _); [done..|lia|lia|done|].
  rewrite Hwr in Hrun. injection Hrun as ->. simpl in Hq. rewrite lookup_insert_eq in Hq. injection Hq as ->.
  assert (Hlen : length (uread Dw (mem sw) addrw n) = Z.to_nat n)
    by (unfold uread; by rewrite length_fmap, length_seqZ).
  rewrite He, app_nil_l in Hc. assert (Hfq : fill_level q = n).
  { rewrite <- (length_contents q Hok), Hc, Hlen. lia. }
  destruct (piperead_data r pi rootr Tr flr Dr prr Hrr sr q addrr nr)
    as (q' & m' & ps' & Hrun & _ & Hcq & Hw & _); [done..|lia|lia| |].
  { intros j Hj. apply Haccr. lia. }
  replace (Z.min nr (fill_level q)) with n in * by lia. rewrite Hc in *.
  rewrite take_ge, drop_ge in * by lia. eexists _, q'. split; [exact Hrun|]. simpl.
  split; [by rewrite lookup_insert_eq|]. split; [done|].
  apply uread_written in Hw. rewrite Hlen in Hw. by rewrite Z2Nat.id in Hw by lia.
Qed.

(** ** Examples: process 3 of the sample machine, and a pipe at [demo_pi] *)
Definition demo_pi : Z := 0x87000000.
Definition demo_pr : proc := set_p_pagetable (pg 0) (set_p_state RUNNING null_proc).
Definition demo_pipe (d : list Z) (nread nwrite : Z) : pipe :=
  mkPipe (d ++ replicate (512 - length d) 0) nread nwrite true true.
Definition pipe_state (p : pipe) : kstate :=
  set_pipes {[demo_pi := p]} (set_procs (<[3%nat := demo_pr]> (replicate NPROC null_proc))
    (set_cpu (mkCpu (Some 3%nat) 0 true true 0)
      (set_mem (write_bytes demo_mem (pg 3 + 16) [104; 105; 33]) demo_state))).

Lemma demo_ready p : ready 3 demo_pi (pipe_state p).
Proof. split; [done|]. split; [done|]. split; [by split|]. split; [done|]. split; [by intros|by vm_compute]. Qed.

Lemma demo_at p : pipe_ok p → at_pipe 3 demo_pi (pg 0) demo_T demo_fl demo_D demo_pr (pipe_state p) p.
Proof.
  intros Hp. split; [by apply lookup_singleton_eq|]. split; [done|]. split; [by vm_compute|].
  apply (uspace_same (set_mem (write_bytes demo_mem (pg 3 + 16) [104; 105; 33]) demo_state)); [done|done|].
  apply user_b_ok; vm_compute; reflexivity.
Qed.

Lemma demo_acc p a n : forallb (λ i, acc_b (write_bytes demo_mem (pg 3 + 16) [104; 105; 33]) demo_T demo_D (a + i))
    (seqZ 0 n) = true → ∀ k, 0 ≤ k < n → acc (mem (pipe_state p)) demo_T demo_D (a + k).
Proof. apply acc_b_range. Qed.

Lemma demo_pipe_ok : pipe_ok (demo_pipe [] 510 510) ∧ pipe_ok (demo_pipe [1; 2] 0 2).
Proof. split; split; by vm_compute. Qed.

Lemma pipewrite_correct_witness : ∃ q ps,
  pipewrite demo_pi 16 3 (pipe_state (demo_pipe [] 510 510)) =
    Ok 3 (set_procs ps (set_pipes {[demo_pi := q]} (pipe_state (demo_pipe [] 510 510)))) ∧
  contents q = [104; 105; 33].
Proof.
  destruct (pipewrite_correct 3 demo_pi (pg 0) demo_T demo_fl demo_D demo_pr
    (pipe_state (demo_pipe [] 510 510)) (demo_pipe [] 510 510) 16 3) as (q & ps & Hrun & _ & Hc & _).
  - reflexivity.
  - apply demo_ready.
  - apply demo_at, demo_pipe_ok.
  - unfold NPROC. lia.
  - done.
  - apply demo_acc. vm_compute. reflexivity.
  - exists q, ps. rewrite Hc. split; [|vm_compute; reflexivity].
    rewrite Hrun. unfold pipe_state. simpl. by rewrite insert_singleton_eq.
Defined.

Lemma piperead_correct_witness : ∃ s1,
  piperead demo_pi 4095 100 (pipe_state (demo_pipe [1; 2] 0 2)) = Ok 2 s1 ∧
  uread demo_D (mem s1) 4095 2 = [1; 2].
Proof.
  destruct (piperead_correct 3 demo_pi (pg 0) demo_T demo_fl demo_D demo_pr
    (pipe_state (demo_pipe [1; 2] 0 2)) (demo_pipe [1; 2] 0 2) 4095 100)
    as (q & m' & ps & Hrun & _ & _ & Hw & _).
  - reflexivity.
  - apply demo_ready.
  - apply demo_at, demo_pipe_ok.
  - unfold NPROC. lia.
  - simpl. lia.
  - done.
  - done.
  - apply demo_acc. vm_compute. reflexivity.
  - eexists. split; [exact Hrun|]. apply uread_written in Hw. exact Hw.
Defined.

Lemma pipe_transfer_witness : ∃ sw q sr, pipewrite demo_pi 16 3 (pipe_state (demo_pipe [] 510 510)) = Ok 3 sw ∧
  pipes sw !! demo_pi = Some q ∧ piperead demo_pi 4094 8 (pipe_state q) = Ok 3 sr ∧
  uread demo_D (mem sr) 4094 3 = [104; 105; 33].
Proof.
  pose proof demo_pipe_ok as [Hok _].
  destruct (pipewrite_fits 3 demo_pi (pg 0) demo_T demo_fl demo_D demo_pr eq_refl
    (pipe_state (demo_pipe [] 510 510)) (demo_pipe [] 510 510) 16 3) as (q & ps & Hw & Hokq & _).
  { apply demo_ready. } { by apply demo_at. } { done. } { done. } { done. } { by vm_compute. }
  { apply demo_acc. vm_compute. reflexivity. }
  pose proof (pipe_transfer demo_pi (demo_pipe [] 510 510) 3
    3 (pg 0) demo_T demo_fl demo_D demo_pr (pipe_state (demo_pipe [] 510 510)) 16
    3 (pg 0) demo_T demo_fl demo_D demo_pr (pipe_state q) 4094 8
    (set_procs ps (set_pipes (<[demo_pi := q]> (pipes (pipe_state (demo_pipe [] 510 510))))
      (pipe_state (demo_pipe [] 510 510)))) q
    eq_refl (demo_ready _) (demo_at _ Hok) eq_refl eq_refl) as Hx.
  assert (Hc : contents (demo_pipe [] 510 510) = []) by (vm_compute; reflexivity).
  assert (H3 : 0 < 3 ≤ PIPESIZE) by (unfold PIPESIZE; lia).
  assert (Ha : ∀ k, 0 ≤ k < 3 → acc (mem (pipe_state (demo_pipe [] 510 510))) demo_T demo_D (16 + k))
    by (apply demo_acc; vm_compute; reflexivity).
  assert (Hb : ∀ k, 0 ≤ k < 3 → acc (mem (pipe_state q)) demo_T demo_D (4094 + k))
    by (apply demo_acc; vm_compute; reflexivity).
  assert (Hf : (0 < fuel)%nat) by (simpl; lia).
  destruct (Hx Hc H3 Ha Hw (lookup_insert_eq _ _ _) eq_refl (demo_ready _) (demo_at _ Hokq) Hf ltac:(lia) Hb)
    as (sr & q' & Hr & _ & _ & Hu).
  eexists _, q, sr. split; [exact Hw|]. split; [apply lookup_insert_eq|]. split; [exact Hr|].
  rewrite Hu. vm_compute. reflexivity.
Defined.
