(* ===== verification/LogProps.v ===== *)
(** * What the disk driver, the buffer cache and the log promise

    The contracts of kernel/virtio_disk.c, kernel/bio.c and kernel/log.c: the driver
    moves blocks for the cache; the cache shows the content of the disk plus the
    changes of the running transaction, recycles the least recently used buffer,
    and commit() is atomic with respect to crashes. *)

From Stdlib Require Import ZArith Lia.
From stdpp Require Import base numbers functions gmap strings countable tactics list.
From S2P Require Import Prelude Machine CString State Spinlock Kalloc Vm VmMap Sched SchedTheory Sleeplock Bio BioList BioCache Log LogTheory LogRun LogOps Fs LogTx Virtio VirtioTheory Demo DemoFs.

(** C1: a transaction is atomic. commit() writes the blocks of the transaction
    to the log, the header, their home locations and the cleared header, in that
    order, and afterwards the home locations hold the new contents. If the
    machine stops after any of these block writes and a machine with an empty
    cache runs recover_from_log() on what the disk then holds, recovery succeeds
    and every block outside the log is as before the transaction, or every block
    outside the log is as after it. *)
Theorem commit_crash_atomic `{Env} d me pid s V P :
  let l := log s in let st := l_start l in let tr := trans l V in
  (0 < fuel)%nat → 0 < l_n l → log_ok d l → at_rest d me pid s V P → trans_ok st tr →
  (∀ b, P b + 1 < 2 ^ 32) → (∀ b, b ∈ tr.*1 → 1 ≤ P b) →
  head_n st (disk s) = 0 → length (V st) = 1024%nat →
  ∃ s' ws, commit s = Ok tt s' ∧ dlog s' = dlog s ++ ws ∧ l_n (log s') = 0 ∧
    (∀ b, home st b → block_of (disk s') b = block_of (apply_writes tr (disk s)) b) ∧
    ∀ ws1 r Vr, ws1 `prefix_of` ws → disk r = apply_writes ws1 (disk s) →
      at_rest d me pid r Vr (λ _, 0) → log_ok d (log r) → l_start (log r) = st →
      ∃ r', recover_from_log r = Ok tt r' ∧
        ((∀ b, home st b → block_of (disk r') b = block_of (disk s) b) ∨
         (∀ b, home st b → block_of (disk r') b = block_of (apply_writes tr (disk s)) b)).
Proof.
  intros l st tr Hfuel Hn Hl Hrest Htr HP Hpin Hhead Hlen.
  destruct (commit_run d me pid Hfuel s V P Hn Hl Hrest Htr HP Hpin)
    as (s' & V' & Hrun & Ho & Hdl & Hd & Hrest' & _).
  fold l st tr in Hdl, Hd. set (h := put_header (V st) (l_block l) (l_n l)) in *.
  assert (Hh : header_for tr h) by (by apply (header_for_trans d)).
  exists s', (commit_writes st tr h). do 2 (split; [done|]). split; [by rewrite (outer_log _ _ Ho)|]. split.
  - intros b Hb. rewrite Hd.
    replace (commit_writes st tr h) with ((log_writes st tr ++ (st, h) :: tr) ++ [(st, put_word h 0 0)])
      by (unfold commit_writes; by rewrite <- app_assoc).
    rewrite apply_writes_app. simpl.
    destruct (committed_image st tr h (disk s) tr) as (_ & _ & H3); [done|done|apply Htr|apply Htr|].
    rewrite block_insert, decide_False by (intros ->; by apply start_not_home in Hb). by apply H3.
  - intros ws1 r Vr Hpre Hdr Hrestr Hlr Hst.
    pose proof (crash_head st (disk s) tr h ws1 Htr Hh Hhead Hpre) as Hcase.
    destruct (installs_home st (apply_writes ws1 (disk s)) tr Htr Hcase) as [Hnr Hhome].
    destruct (recover_run d me pid Hfuel r Vr) as (r' & Vr' & Hrec & Hdr' & _).
    { rewrite Hst, Hdr. destruct Hlr as [? ? ? ? _ ?]. by split. } { done. } { by rewrite Hst, Hdr. }
    exists r'. split; [done|]. rewrite Hdr', Hst, Hdr.
    pose proof (crash_images st (disk s) tr h ws1 Htr Hh Hhead Hpre) as Hcr. case_decide; [by left|by right].
Qed.

Lemma tx_trans : trans (log tx_state) (view_of 1 (bcore tx_state) (disk tx_state)) = [(50, fresh_block)].
Proof. vm_compute. reflexivity. Qed.

Lemma tx_trans_ok : trans_ok 2 [(50, fresh_block)].
Proof.
  split; simpl; [|apply NoDup_singleton|done|].
  - intros b ->%list_elem_of_singleton. unfold home, LOGSIZE, MAXOPBLOCKS. lia.
  - intros b ->%list_elem_of_singleton. lia.
Qed.

Lemma pins_of_small d C b : forallb (λ x, b_refcnt x <? 5) C = true → pins_of d C b + 1 < 2 ^ 32.
Proof.
  intros Hf. unfold pins_of. destruct (list_find _ C) as [[k x]|] eqn:Hk; [|lia].
  apply list_find_Some in Hk as (Hx & _). rewrite forallb_forall in Hf.
  specialize (Hf x ltac:(apply list_elem_of_In; by eapply list_elem_of_lookup_2)). lia.
Qed.

Lemma fs_log_ok : log_ok 1 (log fs_state).
Proof. split; by vm_compute. Qed.

Lemma tx_log_ok : log_ok 1 (log tx_state).
Proof. split; by vm_compute. Qed.

Lemma fs_tx_disk : disk fs_state = apply_writes [] (disk tx_state) ∧ l_start (log fs_state) = l_start (log tx_state).
Proof. split; vm_compute; reflexivity. Qed.

Lemma commit_crash_atomic_witness : ∃ s' ws, commit tx_state = Ok tt s' ∧ dlog s' = ws ∧
  block_of (disk s') 50 = fresh_block ∧
  ∃ r', recover_from_log fs_state = Ok tt r' ∧ (block_of (disk r') 50 = zero_block ∨ block_of (disk r') 50 = fresh_block).
Proof.
  destruct (commit_crash_atomic 1 3 7 tx_state (view_of 1 (bcore tx_state) (disk tx_state))
    (pins_of 1 (bcore tx_state))) as (s' & ws & Hrun & Hdl & _ & Hnew & Hcrash).
  - simpl. lia.
  - vm_compute. reflexivity.
  - exact tx_log_ok.
  - exact tx_at_rest.
  - rewrite tx_trans. exact tx_trans_ok.
  - intros b. apply pins_of_small. vm_compute. reflexivity.
  - rewrite tx_trans. intros b ->%list_elem_of_singleton. by vm_compute.
  - vm_compute. reflexivity.
  - vm_compute. reflexivity.
  - assert (H50 : home 2 50) by (unfold home, LOGSIZE, MAXOPBLOCKS; lia).
    rewrite tx_trans in Hnew, Hcrash. exists s', ws. split; [exact Hrun|]. split; [exact Hdl|].
    split; [rewrite (Hnew 50 H50); vm_compute; reflexivity|].
    destruct (Hcrash [] fs_state _ (prefix_nil _) (proj1 fs_tx_disk) fs_unused fs_log_ok (proj2 fs_tx_disk)) as (r' & Hrec & Hor).
    exists r'. split; [exact Hrec|]. destruct Hor as [Hor|Hor]; [left|right]; rewrite (Hor 50 H50); vm_compute; reflexivity.
Defined.

(** ** Recovery *)

(** C16: recovery can be interrupted. recover_from_log() installs what the header
    on the disk names; if the machine stops after any of its block writes and
    recovery runs again on what the disk then holds, every block outside the log
    ends as an uninterrupted recovery leaves it. *)
Theorem recovery_idempotent `{Env} d me pid r Vr :
  let st := l_start (log r) in
  (0 < fuel)%nat → log_ok d (log r) → at_rest d me pid r Vr (λ _, 0) → 0 ≤ head_n st (disk r) ≤ LOGSIZE →
  length (block_of (disk r) st) = 1024%nat → (∀ b, b ∈ (installs st (disk r)).*1 → home st b) →
  ∃ r', recover_from_log r = Ok tt r' ∧ dlog r' = dlog r ++ recovery_writes st (disk r) ∧
    head_n st (disk r') = 0 ∧
    ∀ ws1 q Vq, ws1 `prefix_of` recovery_writes st (disk r) → disk q = apply_writes ws1 (disk r) →
      at_rest d me pid q Vq (λ _, 0) → log_ok d (log q) → l_start (log q) = st →
      ∃ q', recover_from_log q = Ok tt q' ∧ ∀ b, home st b → block_of (disk q') b = block_of (disk r') b.
Proof.
  intros st Hfuel Hl Hrest Hn Hlen Hhome.
  destruct (recover_run d me pid Hfuel r Vr) as (r' & Vr' & Hrec & Hd & _ & _ & Hdl); [|done|done|].
  { destruct Hl. by split. }
  fold st in Hd, Hdl. exists r'. do 2 (split; [done|]). split.
  { rewrite Hd. unfold recovered, head_n. rewrite block_insert, decide_True by done. apply word_put_eq; [lia| |lia].
    unfold replay. rewrite apply_other; [lia|]. intros Hc%Hhome. by apply start_not_home in Hc. }
  intros ws1 q Vq Hpre Hdq Hrestq Hlq Hst.
  destruct (recovery_restart st (disk r) ws1 Hlen Hn Hhome Hpre) as [Hnq Hhq].
  destruct (recover_run d me pid Hfuel q Vq) as (q' & Vq' & Hrecq & Hdq' & _).
  { rewrite Hst, Hdq. destruct Hlq. by split. } { done. } { by rewrite Hst, Hdq. }
  exists q'. split; [done|]. intros b Hb. rewrite Hdq', Hst, Hdq, Hd. by apply recovery_again.
Qed.

(** A disk on which a transaction of one block is committed but not installed. *)
Definition committed_disk : gmap Z (list Z) :=
  <[2 := put_header zero_block [50] 1]> (<[3 := fresh_block]> ∅).
Definition crashed : kstate := set_disk committed_disk fs_state.
Definition crashed2 : kstate := set_disk (apply_writes [(50, fresh_block)] committed_disk) fs_state.

(** The disk under an unused cache can be any. *)
Lemma rest_disk_of d me pid s V P dk :
  at_rest d me pid s V P → forallb (λ x, negb (b_dev x =? d)) (bcore s) = true → core_b d (bcore s) dk = true →
  at_rest d me pid (set_disk dk s) (view_of d (bcore s) dk) (λ _, 0).
Proof.
  intros (Hso & [[L HL] _] & Hu) Hd Hc. split; [by eapply solo_same, Hso|]. split; [|exact Hu].
  split; [exists L; by eapply lru_same, HL|].
  apply core_ext with (view_of d (bcore s) dk) (pins_of d (bcore s)); [done| |by apply core_b_ok].
  intros b. symmetry. by apply pins_of_absent.
Qed.

Lemma rest_disk dk : core_b 1 (bcore fs_state) dk = true →
  at_rest 1 3 7 (set_disk dk fs_state) (view_of 1 (bcore fs_state) dk) (λ _, 0).
Proof.
  intros Hc. eapply rest_disk_of; [exact fs_at_rest| |exact Hc]. vm_compute. reflexivity.
Qed.

Lemma crashed_rest : at_rest 1 3 7 crashed (view_of 1 (bcore fs_state) committed_disk) (λ _, 0).
Proof. apply rest_disk. vm_compute. reflexivity. Qed.

Lemma crashed2_rest : at_rest 1 3 7 crashed2 (view_of 1 (bcore fs_state) (disk crashed2)) (λ _, 0).
Proof. apply rest_disk. vm_compute. reflexivity. Qed.

Lemma log_set_disk dk s : log (set_disk dk s) = log s.
Proof. reflexivity. Qed.

Lemma crashed_log : log_ok 1 (log crashed) ∧ log_ok 1 (log crashed2) ∧
  0 ≤ head_n 2 (disk crashed) ≤ LOGSIZE ∧ length (block_of (disk crashed) 2) = 1024%nat.
Proof.
  unfold crashed, crashed2. rewrite !log_set_disk. split; [exact fs_log_ok|]. split; [exact fs_log_ok|].
  vm_compute. split; [split; discriminate|reflexivity].
Qed.

Lemma committed_installs : installs 2 committed_disk = [(50, fresh_block)].
Proof. vm_compute. reflexivity. Qed.

Lemma home_50 : home 2 50.
Proof. unfold home, LOGSIZE, MAXOPBLOCKS. lia. Qed.

Lemma crashed_start : l_start (log crashed) = 2 ∧ l_start (log crashed2) = 2.
Proof. vm_compute. split; reflexivity. Qed.

Lemma crashed_prefix : [(50, fresh_block)] `prefix_of` recovery_writes 2 (disk crashed).
Proof. unfold recovery_writes. change (disk crashed) with committed_disk. rewrite committed_installs. by eexists. Qed.

Lemma recovery_idempotent_witness : ∃ r' q', recover_from_log crashed = Ok tt r' ∧
  recover_from_log crashed2 = Ok tt q' ∧ block_of (disk q') 50 = block_of (disk r') 50.
Proof.
  pose proof (recovery_idempotent 1 3 7 crashed (view_of 1 (bcore fs_state) committed_disk)) as Hthm.
  cbv zeta in Hthm. rewrite (proj1 crashed_start) in Hthm.
  destruct Hthm as (r' & Hrec & _ & _ & Hagain).
  - simpl. lia.
  - exact (proj1 crashed_log).
  - exact crashed_rest.
  - exact (proj1 (proj2 (proj2 crashed_log))).
  - exact (proj2 (proj2 (proj2 crashed_log))).
  - change (disk crashed) with committed_disk. rewrite committed_installs.
    intros b ->%list_elem_of_singleton. exact home_50.
  - destruct (Hagain [(50, fresh_block)] crashed2 _ crashed_prefix eq_refl crashed2_rest (proj1 (proj2 crashed_log))
      (proj2 crashed_start)) as (q' & Hq & Hb).
    exists r', q'. exact (conj Hrec (conj Hq (Hb 50 home_50))).
Defined.

(** ** Operations and transactions *)

(** C29: admission to a transaction. begin_op() adds the caller to the operations
    in progress when nobody commits and the log can take MAXOPBLOCKS blocks of
    every operation including the new one; otherwise the caller sleeps on the log
    with the log unchanged and its lock free. *)
Theorem begin_op_admission `{Env} me pid s p :
  let l := log s in
  solo me pid s → (0 < fuel)%nat → c_noff (cpu s) = 0 → procs s !! me = Some p →
  if decide (l_committing l = false ∧ l_n l + (l_outstanding l + 1) * MAXOPBLOCKS ≤ LOGSIZE)
  then begin_op s = Ok tt (set_log (set_l_outstanding (l_outstanding l + 1) l) s)
  else ∃ s1 k, begin_op s = Switch s1 k ∧ log s1 = l ∧ locks s1 !! LkLog = None ∧
         procs s1 !! me = Some (asleep ChLog p).
Proof.
  intros l Hso Hfuel Hn Hp. case_decide as Hd.
  - apply (begin_op_go me pid); [done|done|]. unfold may_begin. apply andb_true_intro.
    fold l. destruct Hd as [-> Hle]. split; [done|lia].
  - apply (begin_op_wait me pid s p); [done..|]. unfold may_begin. apply andb_false_iff. fold l.
    destruct (l_committing l); [by left|right]. apply Z.leb_gt. destruct (Z.lt_ge_cases LOGSIZE (l_n l + (l_outstanding l + 1) * MAXOPBLOCKS)); [done|].
    destruct Hd. done.
Qed.

Lemma fs_solo : solo 3 7 fs_state.
Proof. apply fs_at_rest. Qed.

Lemma fs_fuel : (0 < fuel)%nat.
Proof. simpl. lia. Qed.

Lemma fs_proc3 : procs fs_state !! 3%nat = Some (set_p_pid 7 (set_p_state RUNNING null_proc)) ∧ c_noff (cpu fs_state) = 0.
Proof. vm_compute. split; reflexivity. Qed.

Lemma fs_admits : l_committing (log fs_state) = false ∧
  l_n (log fs_state) + (l_outstanding (log fs_state) + 1) * MAXOPBLOCKS ≤ LOGSIZE.
Proof. vm_compute. split; [reflexivity|discriminate]. Qed.

Lemma begin_op_admission_witness : begin_op fs_state =
  Ok tt (set_log (set_l_outstanding (l_outstanding (log fs_state) + 1) (log fs_state)) fs_state).
Proof.
  pose proof (begin_op_admission 3 7 fs_state _ fs_solo fs_fuel (proj2 fs_proc3) (proj1 fs_proc3)) as Hthm.
  cbv zeta in Hthm. rewrite decide_True in Hthm by exact fs_admits. exact Hthm.
Defined.

(** C28: what log_write() does to the transaction, on every branch: it panics when
    the log is full or no operation is in progress; a block already in the
    transaction is absorbed and nothing changes; a new block is appended once and
    its buffer is pinned, so it stays cached until it is installed. *)
Theorem log_write_correct `{Env} me pid s i x :
  let l := log s in let b := b_blockno x in
  solo me pid s → bcache s !! i = Some x → entries_ok l → 0 ≤ b < 2 ^ 31 → 0 ≤ b_refcnt x + 1 < 2 ^ 32 →
  if decide (LOGSIZE ≤ l_n l ∨ l_size l - 1 ≤ l_n l) then ∃ s', log_write i s = Panic "too big a transaction" s'
  else if decide (l_outstanding l < 1) then ∃ s', log_write i s = Panic "log_write outside of trans" s'
  else ∃ s', log_write i s = Ok tt s' ∧
    logged (log s') = (if decide (b ∈ logged l) then logged l else logged l ++ [b]) ∧
    (NoDup (logged l) → NoDup (logged (log s'))) ∧
    bcache s' = (if decide (b ∈ logged l) then bcache s
                 else <[i := set_b_refcnt (b_refcnt x + 1) x]> (bcache s)).
Proof.
  intros l b Hso Hx Hen Hb Hr. pose proof (log_write_eq me pid s i x Hso Hx Hen Hb Hr) as Heq. cbv zeta in Heq. fold l b in Heq.
  destruct (decide (LOGSIZE ≤ l_n l ∨ l_size l - 1 ≤ l_n l)) as [Hfull|Hfull].
  { exists (hold LkLog s). rewrite Heq. destruct (Z.leb_spec LOGSIZE (l_n l)), (Z.leb_spec (l_size l - 1) (l_n l)); simpl; try done; lia. }
  rewrite (proj2 (Z.leb_gt _ _)), (proj2 (Z.leb_gt (l_size l - 1) _)) in Heq by lia. simpl in Heq.
  destruct (decide (l_outstanding l < 1)) as [Hout|Hout].
  { exists (hold LkLog s). by rewrite Heq, (proj2 (Z.ltb_lt _ _)). }
  rewrite (proj2 (Z.ltb_ge _ _)) in Heq by lia.
  assert (Hadd := logged_add l b ltac:(split; [done|lia..])). unfold log_add in Hadd.
  destruct (decide (b ∈ logged l)) as [Hin|Hin]; (eexists; split; [exact Heq|]); [done|]. split; [exact Hadd|]. split; [|done].
  intros Hnd. change (NoDup (logged (set_l_n (l_n l + 1) (set_l_block (updZ (l_block l) (l_n l) b) l)))). rewrite Hadd.
  apply NoDup_app. split; [done|]. split; [|apply NoDup_singleton]. by intros c Hc ->%list_elem_of_singleton.
Qed.

Definition tx_open_state : kstate := set_log (set_l_outstanding 1 (log tx_state)) tx_state.

Lemma tx_open_solo : solo 3 7 tx_open_state.
Proof. apply (at_rest_log 1 3 7 tx_state _ _ _ tx_at_rest). Qed.

Lemma tx_buf1 : ∃ x, bcache tx_open_state !! 1%nat = Some x ∧ b_blockno x = 0 ∧ b_refcnt x = 0.
Proof. eexists. vm_compute. repeat split. Qed.

Lemma tx_block : l_block (log tx_open_state) = 50 :: replicate 29 0 ∧ l_n (log tx_open_state) = 1.
Proof. vm_compute. split; reflexivity. Qed.

Lemma tx_entries : entries_ok (log tx_open_state) ∧ l_n (log tx_open_state) = 1 ∧ l_size (log tx_open_state) = 30 ∧
  l_outstanding (log tx_open_state) = 1 ∧ logged (log tx_open_state) = [50].
Proof.
  split; [|vm_compute; repeat split]. split.
  - rewrite (proj2 tx_block). lia.
  - rewrite (proj1 tx_block). reflexivity.
  - rewrite (proj1 tx_block). intros b [->|[-> _]%elem_of_replicate]%elem_of_cons; lia.
Qed.

Lemma log_write_correct_witness : ∃ s', log_write 1 tx_open_state = Ok tt s' ∧ logged (log s') = [50; 0].
Proof.
  destruct tx_buf1 as (x & Hx & Hb & Hr). destruct tx_entries as (Hen & Hn & Hs & Ho & Hl).
  pose proof (log_write_correct 3 7 tx_open_state 1 x tx_open_solo Hx Hen ltac:(rewrite Hb; lia) ltac:(rewrite Hr; lia)) as Hthm.
  cbv zeta in Hthm. rewrite Hn, Hs, Ho, Hl, Hb in Hthm.
  rewrite decide_False in Hthm by (unfold LOGSIZE, MAXOPBLOCKS; lia). rewrite decide_False in Hthm by lia.
  rewrite decide_False in Hthm by (intros Hc%list_elem_of_singleton; lia).
  destruct Hthm as (s' & Hrun & Hlog & _). exists s'. exact (conj Hrun Hlog).
Defined.

(** C14: a whole file-system operation. With nothing else in progress,
    begin_op(); bzero(dev, b); end_op() returns, block [b] of the disk is then
    zero and every other block outside the log is unchanged, and the cache and
    the log are again as between operations, with no transaction and no pinned
    block. *)
Theorem bzero_transaction `{Env} d me pid s V b :
  (0 < fuel)%nat → quiet d me pid s V → home (l_start (log s)) b → 0 ≤ b < 2 ^ 31 →
  ∃ s' V', (begin_op;; bzero d b;; end_op) s = Ok tt s' ∧ quiet d me pid s' V' ∧
    ∀ c, home (l_start (log s)) c →
      block_of (disk s') c = if decide (c = b) then replicate 1024 0 else block_of (disk s) c.
Proof.
  intros Hfuel Hq Hh Hb. apply (transaction_spec d me pid Hfuel s V b (bzero d b) (λ _, replicate 1024 0)); [done..|].
  destruct Hq as [_ _ Hen Hn _ _ Hsz]. intros s1 Hl1 Hrest1.
  apply (update_spec d me pid Hfuel s1 V (λ _, 0) b (λ _, replicate 1024 0)); try done; try lia.
  - by rewrite (quiet_uses d me pid _ _ Hrest1).
  - rewrite Hl1. destruct Hen. split; simpl; [done|rewrite Hn; done|lia|lia].
  - rewrite Hl1. unfold logged. simpl. rewrite Hn. intros Hc. by apply elem_of_nil in Hc.
Qed.

Lemma fs_log : log fs_state = mkLog 2 30 0 false 1 0 (replicate 30 0).
Proof. vm_compute. reflexivity. Qed.

Lemma fs_quiet : quiet 1 3 7 fs_state (view_of 1 (bcore fs_state) (disk fs_state)).
Proof.
  split; [exact fs_unused|exact fs_log_ok|..]; rewrite fs_log; try reflexivity.
  split; [done|done|]. simpl. intros b Hb. apply (elem_of_replicate 30 0 b) in Hb as [-> _]. lia.
Qed.

Lemma bzero_transaction_witness : ∃ s', (begin_op;; bzero 1 50;; end_op) fs_state = Ok tt s' ∧
  block_of (disk s') 50 = replicate 1024 0.
Proof.
  assert (Hh : home (l_start (log fs_state)) 50) by (rewrite fs_log; exact home_50).
  destruct (bzero_transaction 1 3 7 fs_state _ 50 fs_fuel fs_quiet Hh ltac:(lia)) as (s' & V' & Hrun & _ & Hblk).
  exists s'. split; [exact Hrun|]. rewrite (Hblk 50 Hh), decide_True by reflexivity. reflexivity.
Defined.

(** ** The buffer cache *)

(** C30: bread() gives the content of the block. The returned buffer is locked by
    the caller and holds what the cache shows for the block: the last write of
    the running transaction, or else the content on the disk. Nothing else
    changes: the other blocks, the disk and the state outside the cache. *)
Theorem bread_correct `{Env} d me pid s V P HH b :
  (0 < fuel)%nat → solo me pid s → cache d pid s V P HH → HH !! b = None → P b + 1 < 2 ^ 32 →
  uses (bcore s) < Z.of_nat NBUF →
  ∃ i s' x, bread d b s = Ok i s' ∧ bcache s' !! i = Some x ∧ b_dev x = d ∧ b_blockno x = b ∧ b_valid x = true ∧
    b_lock x = mkSleeplock true pid ∧ b_data x = V b ∧ (P b = 0 → b_data x = block_of (disk s) b) ∧
    cache d pid s' V (<[b := P b + 1]> P) (<[b := i]> HH) ∧
    outer s' = outer s ∧ disk s' = disk s ∧ dlog s' = dlog s.
Proof.
  intros Hfuel Hso Hca Hno HP Hu.
  destruct (bread_spec d me pid Hfuel s V P HH b Hso Hca Hno HP Hu) as (i & s' & Hr & Ho & Hd & Hl & Hc & _).
  destruct (cache_held d pid Hfuel s' _ _ _ b i Hc (lookup_insert_eq HH b i)) as (x & Hx & Hdv & Hb & Hlk & Hv & Hdat & _).
  exists i, s', x. do 7 (split; [done|]). split; [|done]. intros H0. rewrite Hdat. by apply (cache_clean d pid s V P HH).
Qed.

Lemma tx_cache : cache 1 7 tx_state (view_of 1 (bcore tx_state) (disk tx_state)) (pins_of 1 (bcore tx_state)) ∅.
Proof. apply tx_at_rest. Qed.

Lemma tx_solo : solo 3 7 tx_state.
Proof. apply tx_at_rest. Qed.

Lemma tx_facts : pins_of 1 (bcore tx_state) 50 = 1 ∧ (uses (bcore tx_state) <? Z.of_nat NBUF) = true ∧
  view_of 1 (bcore tx_state) (disk tx_state) 50 = fresh_block ∧ block_of (disk tx_state) 50 = zero_block.
Proof. vm_compute. repeat split. Qed.

Lemma bread_correct_witness : ∃ i s' x, bread 1 50 tx_state = Ok i s' ∧ bcache s' !! i = Some x ∧ b_data x = fresh_block.
Proof.
  destruct tx_facts as (HP & Hu%Z.ltb_lt & HV & _).
  destruct (bread_correct 1 3 7 tx_state _ _ ∅ 50 fs_fuel tx_solo tx_cache (lookup_empty _) ltac:(rewrite HP; lia) Hu)
    as (i & s' & x & Hr & Hx & _ & _ & _ & _ & Hdat & _).
  exists i, s', x. rewrite HV in Hdat. exact (conj Hr (conj Hx Hdat)).
Defined.

(** replacement. The list of buffers is in order of last release. For a block
    that has no buffer, bget() takes the unreferenced buffer nearest the end of
    the list, keeps the order, and gives the buffer to the block with one
    reference, locked by the caller and marked as not yet read. *)
Lemma bget_recycles_lru `{Env} d me pid s L b :
  (0 < fuel)%nat → solo me pid s → lru s L → uses (bcore s) < Z.of_nat NBUF →
  (∀ j y, bcache s !! j = Some y → b_dev y = d → b_blockno y ≠ b) →
  (∀ j y, bcache s !! j = Some y → b_refcnt y = 0 → sl_locked (b_lock y) = false) →
  ∃ i x A B s', bget d b s = Ok i s' ∧ L = A ++ i :: B ∧ bcache s !! i = Some x ∧ b_refcnt x = 0 ∧
    (∀ j, j ∈ B → b_refcnt (bcache s !!! j) ≠ 0) ∧ lru s' L ∧
    bcache s' = <[i := mkBuf false (b_disk x) d b (mkSleeplock true pid) 1 (b_prev x) (b_next x) (b_data x)]> (bcache s).
Proof.
  intros Hfuel Hso Hl Hu Hno Hfree.
  destruct (find_free_last s L Hl Hu) as (i & x & A & B & Hx & Hx0 & Hff & HL & HB).
  exists i, x, A, B. eexists. split; [by apply (bget_miss d me pid Hfuel b i s L x); [..|by eapply Hfree]|].
  do 4 (split; [done|]). split; [|by destruct x]. by apply lru_insert with x.
Qed.

Lemma fs_lru_ok : lru fs_state fs_lru.
Proof. apply lru_b_ok. vm_compute. reflexivity. Qed.

Lemma fs_bufs : forallb (λ x, negb (b_dev x =? 1) && negb (sl_locked (b_lock x))) (bcache fs_state) = true ∧
  (uses (bcore fs_state) <? Z.of_nat NBUF) = true ∧ hd 0%nat (rev fs_lru) = 0%nat.
Proof. vm_compute. repeat split. Qed.

Lemma bget_recycles_lru_witness : ∃ i x s', bget 1 50 fs_state = Ok i s' ∧ bcache s' !! i = Some x ∧ b_blockno x = 50.
Proof.
  destruct fs_bufs as (Hb & Hu%Z.ltb_lt & _). rewrite forallb_forall in Hb.
  assert (Hat : ∀ j y, bcache fs_state !! j = Some y → b_dev y ≠ 1 ∧ sl_locked (b_lock y) = false).
  { intros j y Hy. apply list_elem_of_lookup_2, list_elem_of_In, Hb, andb_prop in Hy as [Hd Hl].
    apply negb_true_iff in Hd, Hl. split; [by apply Z.eqb_neq|exact Hl]. }
  destruct (bget_recycles_lru 1 3 7 fs_state fs_lru 50 fs_fuel fs_solo fs_lru_ok Hu)
    as (i & x & A & B & s' & Hr & _ & Hx & _ & _ & _ & Hc).
  - intros j y Hy Hd. destruct (Hat j y Hy) as [Hn _]. contradiction.
  - intros j y Hy _. exact (proj2 (Hat j y Hy)).
  - eexists i, _, s'. split; [exact Hr|]. rewrite Hc.
    split; [apply list_lookup_insert_eq; exact (lookup_lt_Some _ _ _ Hx)|reflexivity].
Defined.

(** ** The disk driver *)


(** *** A device that keeps to the specification *)
Definition put_sector (D : gmap Z (list Z)) (n : Z) (bs : list Z) : gmap Z (list Z) :=
  let l := default zero_block (D !! (n / 2)) in
  <[n / 2 := if n mod 2 =? 0 then bs ++ drop (Z.to_nat SECTOR) l else take (Z.to_nat SECTOR) l ++ bs]> D.

Definition slice (data : list Z) (k : Z) : list Z := take (Z.to_nat SECTOR) (drop (Z.to_nat (SECTOR * k)) data).

Fixpoint put_sectors (D : gmap Z (list Z)) (sec : Z) (data : list Z) (count : nat) : gmap Z (list Z) :=
  match count with
  | O => D
  | S k => put_sector (put_sectors D sec data k) (sec + Z.of_nat k) (slice data (Z.of_nat k))
  end.

Definition plain_device (n : Z) : M unit := λ s,
  let d := vdisk s in
  let head := nthZ (dk_avail_ring d) (n mod NUM) in
  let x0 := dk_desc d !!! Z.to_nat head in
  let x1 := dk_desc d !!! Z.to_nat (d_next x0) in
  let x2 := dk_desc d !!! Z.to_nat (d_next x1) in
  match d_addr x0, d_addr x1, d_addr x2 with
  | VOp o, VData b, VStatus st =>
      let q := dk_ops d !!! o in
      let count := d_len x1 / SECTOR in
      let x := bcache s !!! b in
      let s1 := if q_type q =? VIRTIO_BLK_T_OUT
        then set_disk (put_sectors (disk s) (q_sector q) (b_data x) (Z.to_nat count)) s
        else set_bcache (<[b := set_b_data (concat (sector s <$> seqZ (q_sector q) count)) x]> (bcache s)) s in
      Ok tt (set_vdisk (set_dk_isr (Z.lor (dk_isr d) 1) (set_dk_dev_idx (u16 (dk_dev_idx d + 1))
        (set_dk_dev_ring (updZ (dk_dev_ring d) (dk_dev_idx d mod NUM) head)
          (set_dk_info_status (updZ (dk_info_status d) (Z.of_nat st) 0) d)))) s1)
  | _, _, _ => Ok tt s
  end.

Definition sec_of (D : gmap Z (list Z)) (n : Z) : list Z := slice (default zero_block (D !! (n / 2))) (n mod 2).
Definition whole (D : gmap Z (list Z)) : Prop := ∀ k, length (default zero_block (D !! k)) = Z.to_nat BSIZE.

Lemma put_sector_spec D n bs : whole D → length bs = Z.to_nat SECTOR →
  whole (put_sector D n bs) ∧ ∀ m, sec_of (put_sector D n bs) m = if decide (m = n) then bs else sec_of D m.
Proof.
  intros Hw Hl. set (l := default zero_block (D !! (n / 2))). pose proof (Hw (n / 2)) as Hll. fold l in Hll.
  assert (Hs : (Z.to_nat SECTOR + Z.to_nat SECTOR = Z.to_nat BSIZE)%nat) by (unfold SECTOR, BSIZE; lia).
  assert (Hmod : n mod 2 = 0 ∨ n mod 2 = 1) by (Z.div_mod_to_equations; lia). split.
  - intros k. unfold put_sector. fold l. destruct (decide (k = n / 2)) as [->|]; [|by rewrite lookup_insert_ne].
    rewrite lookup_insert_eq. simpl. destruct (_ =? 0); rewrite length_app, ?length_drop, ?length_take; lia.
  - intros m. unfold sec_of, put_sector. fold l. destruct (decide (m / 2 = n / 2)) as [He|Hne].
    2: { rewrite lookup_insert_ne by done. rewrite decide_False; [done|]. by intros ->. }
    rewrite He, lookup_insert_eq. fold l. cbn [default from_option id]. unfold slice.
    assert (Hm : m mod 2 = 0 ∨ m mod 2 = 1) by (Z.div_mod_to_equations; lia).
    change (Z.to_nat (SECTOR * 0)) with 0%nat. 
    destruct Hmod as [Hn|Hn], Hm as [Hm|Hm]; rewrite Hn, Hm; cbn [Z.eqb];
      change (Z.to_nat (SECTOR * 0)) with 0%nat; change (Z.to_nat (SECTOR * 1)) with (Z.to_nat SECTOR); rewrite ?drop_0.
    + rewrite decide_True by (Z.div_mod_to_equations; lia). by rewrite take_app_length' by done.
    + rewrite decide_False by (Z.div_mod_to_equations; lia). by rewrite drop_app_length' by done.
    + rewrite decide_False by (Z.div_mod_to_equations; lia). rewrite take_app_le by (rewrite length_take; lia). by rewrite take_take, Nat.min_id.
    + rewrite decide_True by (Z.div_mod_to_equations; lia). rewrite drop_app_length' by (rewrite length_take; lia). by rewrite take_ge by lia.
Qed.

Lemma put_sectors_spec D sec data count : whole D → (Z.to_nat SECTOR * count ≤ length data)%nat →
  whole (put_sectors D sec data count) ∧ ∀ m, sec_of (put_sectors D sec data count) m =
    if (sec <=? m) && (m <? sec + Z.of_nat count) then slice data (m - sec) else sec_of D m.
Proof.
  intros Hw. induction count as [|k IH]; intros Hl.
  - split; [done|]. intros m. replace ((sec <=? m) && (m <? sec + Z.of_nat 0)) with false; [done|].
    symmetry. apply andb_false_iff. rewrite Z.leb_gt, Z.ltb_ge. lia.
  - destruct IH as [Hw' Hs]; [lia|]. cbn [put_sectors].
    destruct (put_sector_spec (put_sectors D sec data k) (sec + Z.of_nat k) (slice data (Z.of_nat k)) Hw') as [Hw2 Hs2].
    { unfold slice. rewrite length_take, length_drop. unfold SECTOR in *. lia. }
    split; [done|]. intros m. rewrite Hs2, Hs. case_decide as Hd.
    + rewrite (proj2 (Z.leb_le _ _)), (proj2 (Z.ltb_lt _ _)) by lia. simpl. f_equal. lia.
    + replace (m <? sec + Z.of_nat (S k)) with (m <? sec + Z.of_nat k); [done|]. apply eq_true_iff_eq. rewrite !Z.ltb_lt. lia.
Qed.

#[refine] Instance plain_blk : VirtioBlk := {| device := plain_device; capacity := 2 ^ 32 |}.
Proof.
  intros s n head w b x sec count st _ _ Hring [(o & j1 & j2 & x0 & x1 & x2 & q & (D0 & A0 & _ & _ & N0) & (D1 & A1 & L1 & _ & N1) & (D2 & A2 & _ & _) & Hq & Ht & _ & Hsec)]
    H0 Hc _ Hsz Hx Hlen.
  unfold plain_device. cbv zeta. rewrite Hring, Nat2Z.id, (list_lookup_total_correct _ _ _ D0), A0, N0, Nat2Z.id.
  rewrite (list_lookup_total_correct _ _ _ D1), A1, N1, Nat2Z.id, (list_lookup_total_correct _ _ _ D2), A2, (list_lookup_total_correct _ _ _ Hq).
  rewrite (list_lookup_total_correct _ _ _ Hx), L1, Ht, Hsec. rewrite (Z.mul_comm SECTOR count), Z.div_mul by done.
  destruct (put_sectors_spec (disk s) sec (b_data x) (Z.to_nat count) Hsz) as [Hw Hs]; [unfold SECTOR in *; lia|].
  eexists. split; [done|]. destruct w; cbn [Z.eqb]; split; try done.
  intros m. change (sector ?r m) with (sec_of (disk r) m). simpl. rewrite Hs, Z2Nat.id by done. done.
Defined.




