(* ===== verification/FsProps.v ===== *)
(** * What the file system promises about inodes and free blocks *)

From Stdlib Require Import ZArith Lia.
From stdpp Require Import base numbers functions gmap strings countable tactics list.
From S2P Require Import Prelude Machine CString State Spinlock Kalloc Vm VmMap Sched SchedTheory Sleeplock Bio BioList BioCache Log LogTheory LogRun LogOps Fs LogTx FsTheory FsOps Demo DemoFs.

(** C19: what iupdate() writes is what ilock() reads. After iupdate(i), in any
    later state in which the cache shows the same content for the inode's block,
    ilock() of a table entry for that inode that is not loaded yet loads exactly
    the type, device numbers, link count, size and block addresses of inode [i].
    The other inodes of the block are as they were. *)
Theorem inode_update_reload `{Env} d me pid s V P i ip :
  let b := IBLOCK (i_inum ip) (sb s) in
  (0 < fuel)%nat → itable s !! i = Some ip → i_dev ip = d → dinode_ok (dinode_of ip) → i_type ip ≠ 0 → 0 ≤ i_inum ip →
  length (V b) = 1024%nat → 0 ≤ b < 2 ^ 31 → in_tx d me pid 1 s V P →
  ∃ s' V' P', iupdate i s = Ok tt s' ∧ at_rest d me pid s' V' P' ∧
    (∀ j, 0 ≤ j → j mod IPB ≠ i_inum ip mod IPB → get_dinode (V' b) j = get_dinode (V b) j) ∧
    ∀ r Vr Pr k kp, at_rest d me pid r Vr Pr → Vr b = V' b → sb r = sb s → 0 ≤ Pr b → Pr b + 1 < 2 ^ 32 →
      itable r !! k = Some kp → i_dev kp = d → i_inum kp = i_inum ip → 1 ≤ i_ref kp → i_valid kp = false →
      sl_locked (i_lock kp) = false →
      ∃ r' kp', ilock k r = Ok tt r' ∧ itable r' !! k = Some kp' ∧ dinode_of kp' = dinode_of ip ∧ i_valid kp' = true.
Proof.
  intros b Hfuel Hip Hd Hok Hty Hinum Hlen Hb Ht. pose proof Ht as [Hrest _ _ _ _ Hu Hp Hl].
  destruct (iupdate_spec d me pid Hfuel s V P i ip Hip Hd Hrest) as (s' & Hrun & _ & _ & _ & Hrest');
    [lia|by apply (in_tx_open d me pid Hfuel 1 s V P)|done|intros c; specialize (Hp c); lia|apply Hp|apply Hl|].
  eexists s', _, _. split; [done|]. split; [exact Hrest'|]. fold b. rewrite fn_lookup_insert. split.
  - intros j Hj Hne. apply get_put_dinode_ne; [done|apply Hok|done|done|done].
  - intros r Vr Pr k kp Hr HV Hsb HPr HPr' Hkp Hkd Hkn Href Hval Hfree.
    assert (Hload : get_dinode (Vr b) (i_inum kp) = dinode_of ip) by (rewrite HV, Hkn; by apply get_put_dinode).
    assert (Hbk : IBLOCK (i_inum kp) (sb r) = b) by (unfold b; by rewrite Hkn, Hsb).
    pose proof (ilock_spec d me pid Hfuel r Vr Pr k kp Hkp Hkd Href Hval Hfree Hr) as Hil. cbv zeta in Hil.
    rewrite Hbk, Hload in Hil. destruct (Hil HPr' HPr Hty) as (r' & Hrun' & Hit & _).
    exists r', (set_i_valid true (set_dinode (dinode_of ip) (set_i_lock (mkSleeplock true pid) kp))).
    split; [done|]. split; [|done]. rewrite Hit. apply list_lookup_insert_eq. by eapply lookup_lt_Some.
Qed.

(** C20: allocating and freeing blocks. balloc() takes the first free block of the
    bitmap: it marks that block used and no other, and fills it with zeros, all in
    the running transaction. bfree() of that block restores the bitmap, and
    freeing it once more panics. *)
Theorem balloc_bfree `{Env} d me pid s V P bi :
  let bm := sb_bmapstart (sb s) in let n := sb_size (sb s) in
  (0 < fuel)%nat → in_tx d me pid 3 s V P → 0 < n ≤ BPB → 0 ≤ bm < 2 ^ 31 → bytes_ok (V bm) →
  first_free (V bm) n bi → bi ≠ bm →
  ∃ s1 V1 P1, balloc d s = Ok bi s1 ∧ in_tx d me pid 1 s1 V1 P1 ∧ V1 bi = replicate 1024 0 ∧
    (∀ k, 0 ≤ k < BPB → bit_free (V1 bm) k = if decide (k = bi) then false else bit_free (V bm) k) ∧
    (∀ c, c ≠ bi → c ≠ bm → V1 c = V c) ∧
    ∃ s2 V2 P2, bfree d bi s1 = Ok tt s2 ∧ in_tx d me pid 0 s2 V2 P2 ∧ V2 bm = V bm ∧
      ∃ s3, bfree d bi s2 = Panic "freeing free block" s3.
Proof.
  intros bm n Hfuel Ht Hn Hbm Hbytes Hfirst Hne. pose proof Hfirst as (Hbi & Hfree & _). change BPB with 8192 in Hn.
  assert (HbB : 0 ≤ bi < BPB) by (change BPB with 8192; lia).
  destruct (balloc_spec d me pid Hfuel 3 s V P bi Ht ltac:(lia)) as (s1 & Hr1 & _ & Ho1 & Ht1); [done..|].
  fold bm in Ht1. set (V1 := <[bi := replicate 1024 0]> (<[bm := bit_set (V bm) bi]> V)) in *.
  set (P1 := pin_new (log_add (log s) bm) bi (pin_new (log s) bm P)) in *.
  assert (HV1 : V1 bm = bit_set (V bm) bi) by (unfold V1; by rewrite fn_lookup_insert_ne, fn_lookup_insert).
  assert (Hsb1 : sb s1 = sb s) by (by apply (f_equal sb) in Ho1).
  exists s1, V1, P1. split; [done|]. split; [done|]. split; [unfold V1; by rewrite fn_lookup_insert|]. split.
  { intros k Hk. rewrite HV1. by apply bit_set_free. }
  split; [intros c H1 H2; unfold V1; by rewrite !fn_lookup_insert_ne|].
  assert (Hset : bit_free (V1 bm) bi = false) by (rewrite HV1, bit_set_free, decide_True by done; done).
  destruct (bfree_spec d me pid Hfuel 1 s1 V1 P1 bi) as (s2 & Hr2 & _ & Ho2 & Ht2); rewrite ?Hsb1; try done.
  rewrite Hsb1 in Ht2, Ho2. fold bm in Ht2, Ho2. set (V2 := <[bm := bit_clear (V1 bm) bi]> V1) in *.
  assert (HV2 : V2 bm = V bm) by (unfold V2; rewrite fn_lookup_insert, HV1; by apply bit_clear_set).
  assert (Hsb2 : sb s2 = sb s) by (apply (f_equal sb) in Ho2; by rewrite <- Hsb1).
  eexists s2, V2, _. split; [done|]. split; [exact Ht2|]. split; [done|].
  eapply (bfree_free d me pid Hfuel 0 s2 V2); [exact Ht2|lia|done|]. rewrite Hsb2. fold bm. by rewrite HV2.
Qed.

(** ** A sample file system: size 1000, inodes from block 32, bitmap in block 45 *)
Definition demo_sb : superblock := mkSb FSMAGIC 1000 954 200 30 2 32 45.
Definition demo_ip : inode := mkInode 1 3 1 (mkSleeplock true 7) true 2 0 0 1 77 (50 :: replicate 12 0).
Definition demo_kp : inode := mkInode 1 3 1 (mkSleeplock false 0) false 0 0 0 0 0 (replicate 13 0).
Definition op_state : kstate :=
  set_sb demo_sb (set_itable [demo_ip; demo_kp] (set_log (mkLog 2 30 1 false 1 0 (replicate 30 0)) fs_state)).

Lemma op_at_rest : at_rest 1 3 7 op_state (view_of 1 (bcore fs_state) (disk fs_state)) (λ _, 0).
Proof.
  destruct (at_rest_log 1 3 7 fs_state _ _ (mkLog 2 30 1 false 1 0 (replicate 30 0)) fs_unused) as (Hso & [[L HL] Hc] & Hu).
  unfold op_state. generalize dependent (set_log (mkLog 2 30 1 false 1 0 (replicate 30 0)) fs_state). intros s Hso HL Hc Hu.
  split; [by eapply solo_same, Hso|]. split; [|exact Hu]. split; [|exact Hc]. exists L. by apply (lru_same s).
Qed.

Lemma op_log : log op_state = mkLog 2 30 1 false 1 0 (replicate 30 0) ∧ sb op_state = demo_sb ∧
  itable op_state = [demo_ip; demo_kp] ∧ bcore op_state = bcore fs_state.
Proof. unfold op_state. generalize fs_state. intros s. repeat split. Qed.

Lemma op_uses : uses (bcore fs_state) = 0.
Proof. vm_compute. reflexivity. Qed.

Lemma fresh_in_tx n s V : 0 ≤ n ≤ 5 → at_rest 1 3 7 s V (λ _, 0) → log s = mkLog 2 30 1 false 1 0 (replicate 30 0) →
  uses (bcore s) = 0 → in_tx 1 3 7 n s V (λ _, 0).
Proof.
  intros Hn Hrest Hl Hu. split; rewrite ?Hl, ?Hu; cbn [l_n l_size l_outstanding]; [exact Hrest|..].
  - split; [done|done|]. simpl. intros b Hb'. apply (elem_of_replicate 30 0 b) in Hb' as [-> _]. lia.
  - unfold LOGSIZE, MAXOPBLOCKS. lia.
  - lia.
  - lia.
  - change (Z.of_nat NBUF) with 30. lia.
  - intros c. lia.
  - intros c Hc. by apply elem_of_nil in Hc.
Qed.

Lemma op_in_tx n : 0 ≤ n ≤ 5 → in_tx 1 3 7 n op_state (view_of 1 (bcore fs_state) (disk fs_state)) (λ _, 0).
Proof.
  intros Hn. destruct op_log as (Hl & _ & _ & Hb). apply (fresh_in_tx n op_state _ Hn op_at_rest Hl).
  rewrite Hb. exact op_uses.
Qed.

(** The view of the sample: every block is zero. *)
Lemma fs_blank : forallb (λ x, negb (b_dev x =? 1)) (bcore fs_state) = true ∧ disk fs_state = ∅.
Proof. vm_compute. split; reflexivity. Qed.

Lemma op_view b : view_of 1 (bcore fs_state) (disk fs_state) b = zero_block.
Proof. rewrite (view_of_absent 1 _ _ b (proj1 fs_blank)), (proj2 fs_blank). unfold block_of. by rewrite lookup_empty. Qed.

Lemma demo_dinode_ok : dinode_ok (dinode_of demo_ip).
Proof.
  split; simpl; try lia. intros a Ha. repeat (apply elem_of_cons in Ha as [->|Ha]; [lia|]). by apply not_elem_of_nil in Ha.
Qed.

Lemma inode_update_reload_witness : ∃ s' V', iupdate 0 op_state = Ok tt s' ∧
  get_dinode (V' (IBLOCK 3 demo_sb)) 4 = get_dinode zero_block 4.
Proof.
  destruct op_log as (_ & Hsb & Hit & _).
  pose proof (inode_update_reload 1 3 7 op_state (view_of 1 (bcore fs_state) (disk fs_state)) (λ _, 0) 0 demo_ip) as Hthm.
  cbv zeta in Hthm. rewrite Hsb in Hthm. destruct Hthm as (s' & V' & P' & Hrun & _ & Hoth & _).
  - simpl. lia.
  - rewrite Hit. reflexivity.
  - reflexivity.
  - exact demo_dinode_ok.
  - discriminate.
  - simpl. lia.
  - rewrite op_view. vm_compute. reflexivity.
  - vm_compute. split; [discriminate|reflexivity].
  - apply op_in_tx. lia.
  - exists s', V'. split; [exact Hrun|]. specialize (Hoth 4 ltac:(lia) ltac:(vm_compute; discriminate)).
    rewrite op_view in Hoth. exact Hoth.
Defined.

Lemma zero_block_ok : bytes_ok zero_block ∧ first_free zero_block 1000 0.
Proof.
  split; [split; [reflexivity|]|split; [lia|split; [vm_compute; reflexivity|intros; lia]]].
  intros k. unfold nthZ, zero_block. rewrite nth_lookup. destruct (_ !! Z.to_nat k) as [x|] eqn:Hx; [|simpl; lia].
  apply lookup_replicate in Hx as [-> _]. simpl. lia.
Qed.

Lemma balloc_bfree_witness : ∃ s1 s2, balloc 1 op_state = Ok 0 s1 ∧ bfree 1 0 s1 = Ok tt s2.
Proof.
  destruct op_log as (_ & Hsb & _ & _).
  pose proof (balloc_bfree 1 3 7 op_state (view_of 1 (bcore fs_state) (disk fs_state)) (λ _, 0) 0) as Hthm.
  cbv zeta in Hthm. rewrite Hsb in Hthm. cbn [demo_sb sb_bmapstart sb_size] in Hthm. rewrite op_view in Hthm.
  destruct Hthm as (s1 & V1 & P1 & Hr1 & _ & _ & _ & _ & s2 & V2 & P2 & Hr2 & _).
  - simpl. lia.
  - apply op_in_tx. lia.
  - vm_compute. split; [reflexivity|discriminate].
  - lia.
  - exact (proj1 zero_block_ok).
  - exact (proj2 zero_block_ok).
  - lia.
  - exists s1, s2. exact (conj Hr1 Hr2).
Defined.
