(* ===== verification/FileProps.v ===== *)
(** * What the file system promises about the content of files *)

From Stdlib Require Import ZArith Lia.
From stdpp Require Import base numbers functions gmap strings countable tactics list.
From S2P Require Import Prelude Machine CString State Spinlock Kalloc Vm VmTheory VmMap VmUser VmAccess Sched SchedTheory Sleeplock Pipe PipeTheory Bio BioList BioCache Log LogTheory LogRun LogOps Fs LogTx FsTheory FsOps FsTx FsFile FsRw FsDir Console File Demo DemoFs.

(** A chunk of filewrite() needs no more blocks of the log than begin_op() sets
    aside. *)
Lemma chunk_fits off n : 0 ≤ off → 0 ≤ n ≤ WRITE_MAX → nspan off n + 3 ≤ MAXOPBLOCKS.
Proof.
  intros Ho Hn. change WRITE_MAX with 3072 in Hn. change MAXOPBLOCKS with 10. unfold nspan. change BSIZE with 1024.
  destruct (Z.leb_spec n 0); [lia|]. Z.div_mod_to_equations. lia.
Qed.

(** C12: what is written to a file is what is read from it. A chunk of filewrite()
    of a process, [n] accessible bytes at [va], fits in the MAXOPBLOCKS blocks that
    begin_op() reserves: writei() writes all of it, allocating data blocks and the
    indirect block as needed, and never panics. Afterwards the file has the bytes
    at [off] and its other bytes as before, the size is adjusted, the inode on the
    disk is the one in memory, and no other file and no other inode of its block has
    changed. A readi() of the range into another accessible buffer stores exactly
    these bytes there. *)
Theorem file_write_read `{EnvOk} d me pid s V i ip root T fl D va off n :
  let B := sb s in let bs := uread D (mem s) va n in
  (0 < fuel)%nat → itable s !! i = Some ip → i_dev ip = d → disk_ok B V → file_ok B V ip → dinode_ok (dinode_of ip) →
  0 ≤ i_inum ip → 0 ≤ IBLOCK (i_inum ip) B < sb_bmapstart B → i_size ip ≤ MAXFILE * BSIZE →
  (∀ o, 0 ≤ o < i_size ip → fblk V ip (o / BSIZE) ≠ 0) →
  uspace s root T fl D → p_pagetable (procs s !!! me) = root → 0 ≤ va < 2 ^ 64 → (∀ k, 0 ≤ k < n → acc (mem s) T D (va + k)) →
  0 ≤ n ≤ WRITE_MAX → 0 ≤ off ≤ i_size ip → off + n ≤ MAXFILE * BSIZE → nspan off n + ineed ip ≤ nfree B V →
  1 ≤ l_outstanding (log s) → tx d me pid MAXOPBLOCKS s V ∅ →
  ∃ s' V' ip', writei i (User va) off n s = Ok n s' ∧ itable s' = <[i := ip']> (itable s) ∧ saved B V V' ip ip' off bs ∧
    (∀ jp, file_ok B V jp → (∀ j k, -1 ≤ j < MAXFILE → -1 ≤ k < MAXFILE → slot V jp j ≠ 0 → slot V ip k ≠ slot V jp j) →
      ∀ o, 0 ≤ o < MAXFILE * BSIZE → fbyte V' jp o = fbyte V jp o) ∧
    ∀ dst, 0 ≤ dst < 2 ^ 64 → (∀ k, 0 ≤ k < n → acc (mem s) T D (dst + k)) →
      ∃ s'', readi i (User dst) off n s' = Ok (n, []) s'' ∧ uwritten D dst bs (mem s) (mem s'').
Proof.
  intros B bs Hfuel Hi Hdev Hd Hf Hdi Hin Hib Hsz Hmap Hu Hpt Hva Hacc Hn Hoff Hmax Hfr Hout Ht.
  assert (Hlen : Z.of_nat (length bs) = n) by (unfold bs, uread; rewrite length_fmap, length_seqZ; lia).
  pose proof (tx_solo_of d me pid _ _ _ _ Ht) as Hso.
  pose proof (gives_user me pid s root T fl D va n Hso Hu Hpt Hva ltac:(lia) Hacc) as Hg.
  destruct (writei_spec d me pid Hfuel 0 s V i ip (User va) off bs Hg) as (s' & V' & ip' & Hrun & Hi' & Hs' & Hsv & Ht'); rewrite ?Hlen; try done.
  { eapply tx_weaken; [exact Ht|]. pose proof (chunk_fits off n ltac:(lia) Hn). lia. }
  rewrite Hlen in Hrun. exists s', V', ip'. split; [done|]. split; [done|]. split; [done|].
  split; [intros jp Hj Hdis; by apply (saved_other B V V' ip ip' off bs jp); [..|lia|]|].
  intros dst Hdst Hacc'. pose proof Hsv as [D' F' (a & I') _ _ Y' M' _ _]. rewrite Hlen in *.
  assert (Hp' : itable s' !! i = Some ip') by (rewrite Hi'; apply list_lookup_insert_eq; by eapply lookup_lt_Some).
  assert (Hsz' : i_size ip' = Z.max (i_size ip) (off + n)) by (by rewrite I').
  destruct (fsame_parts _ _ Hs') as (_ & Hpr & _ & Hmem & Hfl).
  assert (Hmin : Z.min n (i_size ip' - off) = n) by lia.
  destruct (readi_spec d me pid Hfuel 0 s' V' i ip' (User dst) off n (arrived me root T fl D dst (mem s))) as (s'' & out & Hr & HK & _ & _).
  - done.
  - by rewrite Hmin; apply sink_user.
  - split; [done|]. split; [by apply (uspace_same s)|]. rewrite Hpr, Hmem. split; [done|]. split; [done|apply uwritten_nil].
  - done.
  - done.
  - by rewrite I'.
  - apply D'.
  - lia.
  - lia.
  - change (MAXFILE * BSIZE) with 274432 in Hmax. lia.
  - lia.
  - intros o Ho. apply M'; [lia|]. destruct (decide (o < i_size ip)); [right; apply Hmap; lia|left; lia].
  - rewrite Hmin in Hr, HK. destruct HK as (-> & _ & _ & _ & Hw). exists s''. split; [done|].
    replace (fbytes V' ip' off n) with bs in Hw; [done|]. apply list_eq_nthZ.
    + apply Nat2Z.inj. by rewrite Hlen, length_fbytes by lia.
    + intros k Hk. rewrite nthZ_fbytes, Y', decide_True by lia. f_equal. lia.
Qed.

(** C13: a name linked into a directory is found there. dirlink() of a name that no
    entry has puts (name, inum) into the first free entry, or appends it, within four
    blocks of the log. dirlookup() of the name then returns that entry and an inode of
    the table with the number, referenced once more. Every other name is in the same
    entries as before, and linking the name again is refused with -1. *)
Theorem dirlink_lookup `{EnvOk} d me pid s V i dp name inum k :
  let B := sb s in
  (0 < fuel)%nat → itable s !! i = Some dp → i_dev dp = d → disk_ok B V → dir_ok B V dp → dinode_ok (dinode_of dp) →
  0 ≤ i_inum dp → 0 ≤ IBLOCK (i_inum dp) B < sb_bmapstart B → 0 < inum < 2 ^ 16 →
  (∀ j, 0 ≤ j < nents dp → ¬ names V dp name j) → free_slot V dp k → k * DIRENT_SIZE + DIRENT_SIZE ≤ MAXFILE * BSIZE →
  1 + ineed dp ≤ nfree B V → 1 ≤ l_outstanding (log s) → tx d me pid 4 s V ∅ →
  length (itable s) = NINODE → (∃ x jp, x ≠ i ∧ itable s !! x = Some jp ∧ i_ref jp = 0) →
  ∃ s' V' dp', dirlink i name inum s = Ok 0 s' ∧ itable s' = <[i := dp']> (itable s) ∧ dir_ok B V' dp' ∧ nents dp' = Z.max (nents dp) (k + 1) ∧
    (∃ j jp s'', dirlookup i name s' = Ok (Some (j, k * DIRENT_SIZE)) s'' ∧ itable s'' !! j = Some jp ∧ i_dev jp = d ∧ i_inum jp = inum ∧ 0 < i_ref jp) ∧
    (∀ other j, namecmp other name ≠ 0 → 0 ≤ j < nents dp' → (names V' dp' other j ↔ j < nents dp ∧ names V dp other j)) ∧
    ∀ inum', ∃ s'', dirlink i name inum' s' = Ok (-1) s'' ∧ fsame s' s'' ∧ tx d me pid 0 s'' V' ∅.
Proof.
  intros B Hfuel Hi Hdev Hdk Hd Hdi Hin Hib Hnum Hno Hsl Hmax Hfr Hout Ht HL (x & xp & Hx & Hxp & Hx0).
  destruct (dirlink_spec d me pid Hfuel 0 s V i dp name inum k) as (s' & V' & dp' & Hr & Hi' & Hf' & Hsv & Ht'); try done.
  set (de := mk_dirent _ _) in *. pose proof Hsl as (Hk & Hused & Hfree0).
  assert (Hl14 : length (strncpy (old_name V dp k) name (Z.to_nat DIRSIZ)) = 14%nat) by (unfold strncpy; by rewrite length_strncpy_at, length_old_name).
  destruct (dirent_parts inum _ Hl14 ltac:(lia)) as [Hde1 Hde2]. fold de in Hde1, Hde2.
  destruct (dent_saved B V V' dp dp' k de Hd Hk Hsv (length_dirent _ _ Hl14) Hmax) as (Hd' & Hn' & Hdk' & Hoth).
  assert (Hcmp : ∀ other, namecmp other (de_name de) = namecmp other name).
  { intros other. rewrite Hde2. apply strncmp_strncpy. by rewrite length_old_name. }
  assert (Hother : ∀ other j, 0 ≤ j < nents dp' → j ≠ k → names V' dp' other j ↔ j < nents dp ∧ names V dp other j).
  { intros other j Hj Hne. unfold names. rewrite Hoth by lia. split; [intros ?; split; [lia|done]|tauto]. }
  assert (Hnew : names V' dp' name k) by (split; rewrite Hdk'; [lia|rewrite Hcmp; apply strncmp_refl]).
  assert (Hp' : itable s' !! i = Some dp') by (rewrite Hi'; apply list_lookup_insert_eq; by eapply lookup_lt_Some).
  pose proof (sv_inode _ _ _ _ _ _ _ Hsv) as (a & I'). assert (Hdev' : i_dev dp' = d) by (by rewrite I').
  assert (Hno' : ∀ j, 0 ≤ j < k → ¬ names V' dp' name j) by (intros j Hj Hnm; apply Hother in Hnm as [? Hnm]; [|lia|lia]; by apply (Hno j); [lia|]).
  assert (HL' : length (itable s') = NINODE) by (by rewrite Hi', length_insert).
  assert (Hfr' : ∃ jp, jp ∈ itable s' ∧ i_ref jp = 0).
  { exists xp. split; [|done]. apply list_elem_of_lookup_2 with x. by rewrite Hi', list_lookup_insert_ne by congruence. }
  pose proof (dk_len _ _ (sv_disk _ _ _ _ _ _ _ Hsv)) as Hlen'. assert (Hk' : 0 ≤ k < nents dp') by lia.
  exists s', V', dp'. do 4 (split; [done|]). split; [|split].
  - destruct (lookup_found d me pid Hfuel 0 ltac:(done) s' V' B i dp' name k) as (j & jp & s'' & Hr2 & Hi2 & H1 & H2 & H3 & _ & Hj & _); try done.
    exists j, jp, s''. split; [done|]. split; [rewrite Hi2; by apply list_lookup_insert_eq|]. rewrite H2, Hdk'. done.
  - intros other j Ho Hj. destruct (decide (j = k)) as [->|Hne]; [|by apply Hother]. split.
    + intros [_ Hc]. by rewrite Hdk', Hcmp in Hc.
    + intros [Hlt [Hc _]]. by destruct Hc; apply Hfree0.
  - intros inum'. by apply (dirlink_dup d me pid Hfuel 0 ltac:(done) s' V' B i dp' name inum' k).
Qed.

(** ** A sample: inode 3 with one block, 50, of a disk whose first 46 blocks are
    taken; the user's page 0 starts with the bytes 104, 105 *)
Definition some_sb : superblock := mkSb FSMAGIC 1000 954 200 30 2 32 45.
Definition some_ip : inode := mkInode 1 3 1 (mkSleeplock true 7) true 2 0 0 1 77 (50 :: replicate 12 0).
Definition some_map : list Z := [255; 255; 255; 255; 255; 63; 4] ++ replicate 1017 0.
Definition some_procs : list proc :=
  <[3%nat := set_p_pagetable (pg 0) (set_p_pid 7 (set_p_state RUNNING null_proc))]> (replicate NPROC null_proc).
Definition some_state : kstate :=
  set_disk {[ 45 := some_map ]} (set_freelist (pg 6) (set_mem (write_bytes demo_mem (pg 3) [104; 105]) (set_procs some_procs
    (set_sb some_sb (set_itable [some_ip] (set_log (mkLog 2 30 1 false 1 0 (replicate 30 0)) fs_state)))))).
Definition some_view : Z → list Z := view_of 1 (bcore some_state) (disk some_state).

Lemma some_absent : forallb (λ x, negb (b_dev x =? 1)) (bcore some_state) = true.
Proof. vm_compute. reflexivity. Qed.

Lemma some_view_eq b : some_view b = if decide (b = 45) then some_map else zero_block.
Proof.
  unfold some_view. rewrite (view_of_absent 1 _ _ b some_absent). unfold block_of.
  change (disk some_state) with ({[ 45 := some_map ]} : gmap Z (list Z)). case_decide; [by subst; rewrite lookup_singleton_eq|].
  by rewrite lookup_singleton_ne.
Qed.

(** A transaction has begun and nothing is in the log. *)
Lemma sample_tx s : cpu s = mkCpu (Some 3%nat) 0 true true 0 → locks s = ∅ → length (procs s) = NPROC → p_pid (procs s !!! 3%nat) = 7 →
  forallb (λ p, bool_decide (p_state p ≠ SLEEPING)) (procs s) = true → lru_b s fs_lru = true → core_b 1 (bcore s) (disk s) = true →
  forallb (λ x, negb (b_dev x =? 1)) (bcore s) = true → uses (bcore s) = 0 → log s = mkLog 2 30 1 false 1 0 (replicate 30 0) →
  tx 1 3 7 MAXOPBLOCKS s (view_of 1 (bcore s) (disk s)) ∅.
Proof.
  intros Hc Hl Hlen Hpid Hsl Hlru Hcore Habs Hu Hlog. apply (in_tx_tx _ _ _ _ _ _ (λ _, 0)). split; rewrite ?Hlog, ?Hu; try done.
  - split; [by apply solo_b|]. split; [|by rewrite Hu]. eapply cache_ext; [reflexivity| |split; [exists fs_lru; by apply lru_b_ok|by apply core_b_ok]].
    intros b. symmetry. by apply pins_of_absent.
  - split; [done|done|]. intros b Hb. apply (elem_of_replicate 30 0 b) in Hb as [-> _]. lia.
  - intros c Hc'. by apply elem_of_nil in Hc'.
Qed.

Lemma some_tx : tx 1 3 7 MAXOPBLOCKS some_state some_view ∅.
Proof. apply sample_tx; vm_compute; reflexivity. Qed.

Lemma nth_zeros n k : nth k (replicate n 0) 0 = 0.
Proof. revert k. induction n as [|n IH]; intros [|k]; try done. apply IH. Qed.

Lemma some_slot k : -1 ≤ k < MAXFILE → slot some_view some_ip k = if decide (k = 0) then 50 else 0.
Proof.
  intros Hk. unfold slot, fblk. change (IND some_ip) with 0. change NDIRECT with 12. case_decide as E; [by subst|].
  destruct (Z.eqb_spec k (-1)); [done|]. destruct (Z.ltb_spec k 12); [|done]. unfold nthZ.
  replace (Z.to_nat k) with (S (Z.to_nat (k - 1))) by lia. cbn [some_ip i_addrs nth]. apply nth_zeros.
Qed.

Lemma some_disk : disk_ok some_sb some_view.
Proof.
  assert (Hb : bitmap some_sb some_view = some_map) by (unfold bitmap; by rewrite some_view_eq).
  split; rewrite ?Hb.
  - intros b. rewrite some_view_eq. by case_decide.
  - split; [done|]. intros k. unfold nthZ. destruct (decide (Z.to_nat k < 7)%nat) as [Hk|Hk].
    + revert Hk. generalize (Z.to_nat k). intros m Hm. do 7 (destruct m as [|m]; [simpl; lia|]). lia.
    + unfold some_map. rewrite app_nth2 by (simpl; lia). simpl length. rewrite nth_zeros. lia.
  - simpl. lia.
  - by vm_compute.
  - assert (Hall : forallb (λ b, negb (bit_free some_map b) || (45 <? b)) (seqZ 0 1000) = true) by (vm_compute; reflexivity).
    intros b Hr Hf. rewrite forallb_forall in Hall. specialize (Hall b ltac:(apply list_elem_of_In, elem_of_seqZ; simpl in Hr; lia)).
    rewrite Hf in Hall. simpl in *. lia.
Qed.

Lemma some_file : file_ok some_sb some_view some_ip.
Proof.
  split; [done|..].
  - intros k Hk Hne. rewrite some_slot in * by done. case_decide; [|done]. split; [simpl; lia|].
    unfold bitmap. rewrite some_view_eq. vm_compute. reflexivity.
  - intros j k Hj Hk Hne He. rewrite !some_slot in * by done. repeat case_decide; congruence.
Qed.

Lemma some_dinode : dinode_ok (dinode_of some_ip).
Proof.
  split; simpl; try lia. intros a Ha. repeat (apply elem_of_cons in Ha as [->|Ha]; [lia|]). by apply not_elem_of_nil in Ha.
Qed.

Lemma file_write_read_witness : ∃ s' s'', writei 0 (User 0) 77 2 some_state = Ok 2 s' ∧ readi 0 (User 4096) 77 2 s' = Ok (2, []) s'' ∧
  load8 (mem s'') (pg 4) = 104 ∧ load8 (mem s'') (pg 4 + 1) = 105.
Proof.
  destruct (file_write_read 1 3 7 some_state some_view 0 some_ip (pg 0) demo_T demo_fl demo_D 0 77 2) as (s' & V' & ip' & Hw & _ & _ & _ & Hr).
  - vm_compute. lia.
  - reflexivity.
  - reflexivity.
  - exact some_disk.
  - exact some_file.
  - exact some_dinode.
  - simpl. lia.
  - split; [vm_compute; discriminate|reflexivity].
  - vm_compute. discriminate.
  - intros o Ho. simpl in Ho. replace (o / BSIZE) with 0 by (symmetry; apply Z.div_small; change BSIZE with 1024; lia). discriminate.
  - apply user_b_ok; vm_compute; reflexivity.
  - reflexivity.
  - lia.
  - apply acc_b_range. vm_compute. reflexivity.
  - split; [lia|vm_compute; discriminate].
  - simpl. lia.
  - vm_compute. discriminate.
  - transitivity 500; [vm_compute; discriminate|]. unfold nfree, free_blocks, bitmap. rewrite some_view_eq. vm_compute. discriminate.
  - vm_compute. discriminate.
  - exact some_tx.
  - destruct (Hr 4096) as (s'' & Hrd & [Hb _]); [lia|apply acc_b_range; vm_compute; reflexivity|].
    exists s', s''. split; [exact Hw|]. split; [exact Hrd|]. split; [apply (Hb 0)|apply (Hb 1)]; split; vm_compute; (reflexivity || discriminate).
Defined.

(** The same disk with a directory in block 50: one entry, "." for inode 3. *)
Definition dir_ip : inode := mkInode 1 3 1 (mkSleeplock true 7) true 1 0 0 1 16 (50 :: replicate 12 0).
Definition no_ip : inode := mkInode 0 0 0 (mkSleeplock false 0) false 0 0 0 0 0 (replicate 13 0).
Definition dir_block : list Z := [3; 0; 46] ++ replicate 1021 0.
Definition dir_state : kstate :=
  set_itable (dir_ip :: replicate 49 no_ip) (set_disk {[ 45 := some_map; 50 := dir_block ]} some_state).
Definition dir_view : Z → list Z := view_of 1 (bcore dir_state) (disk dir_state).

Lemma dir_absent : forallb (λ x, negb (b_dev x =? 1)) (bcore dir_state) = true ∧ disk dir_state = {[ 45 := some_map; 50 := dir_block ]}.
Proof. split; vm_compute; reflexivity. Qed.

Lemma dir_view_eq b : dir_view b = if decide (b = 50) then dir_block else some_view b.
Proof.
  rewrite some_view_eq. unfold dir_view. rewrite (view_of_absent 1 _ _ b (proj1 dir_absent)), (proj2 dir_absent). unfold block_of. repeat case_decide; subst; try done.
  by rewrite lookup_insert_ne, lookup_singleton_ne by done.
Qed.

Lemma dir_bitmap : bitmap some_sb dir_view = bitmap some_sb some_view.
Proof. unfold bitmap. by rewrite dir_view_eq. Qed.

Lemma dir_disk : disk_ok some_sb dir_view.
Proof.
  destruct some_disk as [Hl Hb Hs Hz Hm]. split; rewrite ?dir_bitmap; try done. intros b. rewrite dir_view_eq. case_decide; [done|apply Hl].
Qed.

Lemma dir_sample : dir_ok some_sb dir_view dir_ip.
Proof.
  split; [|done|split; [done|split; [done|vm_compute; discriminate]]|].
  - destruct some_file as [Hl Hu Hi]. split; [done|..].
    + intros k Hk Hne. unfold used. rewrite dir_bitmap. by apply Hu.
    + by apply Hi.
  - intros o Ho. simpl in Ho. replace (o / BSIZE) with 0 by (symmetry; apply Z.div_small; change BSIZE with 1024; lia). discriminate.
Qed.

Lemma dirlink_lookup_witness : ∃ s' s'' j, dirlink 0 [97; 0] 5 dir_state = Ok 0 s' ∧ dirlookup 0 [97; 0] s' = Ok (Some (j, 16)) s''.
Proof.
  destruct (dirlink_lookup 1 3 7 dir_state dir_view 0 dir_ip [97; 0] 5 1) as (s' & V' & dp' & Hr & _ & _ & _ & (j & jp & s'' & Hl & _) & _).
  - vm_compute. lia.
  - reflexivity.
  - reflexivity.
  - exact dir_disk.
  - exact dir_sample.
  - split; simpl; try lia. intros a Ha. repeat (apply elem_of_cons in Ha as [->|Ha]; [lia|]). by apply not_elem_of_nil in Ha.
  - simpl. lia.
  - split; [vm_compute; discriminate|reflexivity].
  - lia.
  - intros j Hj [_ Hc]. change (nents dir_ip) with 1 in Hj. replace j with 0 in Hc by lia. vm_compute in Hc. discriminate Hc.
  - split; [split; [lia|vm_compute; discriminate]|]. split; [|intros Hc; vm_compute in Hc; discriminate Hc].
    intros j Hj. replace j with 0 by lia. vm_compute. discriminate.
  - vm_compute. discriminate.
  - transitivity 500; [vm_compute; discriminate|]. unfold nfree, free_blocks. change (sb dir_state) with some_sb. rewrite dir_bitmap.
    unfold bitmap. rewrite some_view_eq. vm_compute. discriminate.
  - vm_compute. discriminate.
  - eapply tx_weaken; [apply sample_tx; vm_compute; reflexivity|vm_compute; discriminate].
  - reflexivity.
  - exists 1%nat, no_ip. split; [discriminate|]. split; reflexivity.
  - exists s', s'', j. exact (conj Hr Hl).
Defined.
