(* ===== verification/TrapProps.v ===== *)
(** * What traps and context switches promise *)

From Stdlib Require Import ZArith Lia.
From stdpp Require Import base numbers gmap strings countable tactics list pretty.
From S2P Require Import Prelude Machine State CString Spinlock Kalloc Vm VmTheory VmMap VmUser VmAccess Sched Console Process Sysfile Syscall SysTheory Trap Riscv RiscvTheory Sv39 Asm AsmTheory TrapTheory KvecTheory BootTheory Demo.

(** ** A sample machine for traps *)
#[global] Instance demo_boot : Boot := {|
  stack0 := KERNBASE + 32 * PGSIZE;
  timer_scratch := KERNBASE + 9 * PGSIZE + 2048;
  timervec := KERNBASE + 4 * PGSIZE;
  swtch_addr := KERNBASE + 6 * PGSIZE;
  start_addr := KERNBASE + 8192;
  main_addr := KERNBASE + 8292;
  kerneltrap_addr := KERNBASE + 11000;
|}.

(** Instructions of four bytes from an address on. *)
Definition text_at (base : Z) (l : list instr) (a : Z) : option (instr * Z) :=
  if (base <=? a) && ((a - base) mod 4 =? 0) then (λ i, (i, 4)) <$> l !! Z.to_nat ((a - base) / 4) else None.

#[global] Instance demo_text : Text := {|
  code a := union (text_at KERNBASE entry_code a) (union (text_at timervec timervec_code a) (union (text_at kernelvec kernelvec_code a)
    (union (text_at swtch_addr swtch_code a) (union (text_at uservec uservec_code a) (text_at userret userret_code a)))));
|}.

Ltac place := repeat (eexists; split; [vm_compute; reflexivity|]; split; [lia|]); exact I.

Lemma demo_tramp : tramp_layout.
Proof. split; [place|place|split; vm_compute; discriminate|split; vm_compute; discriminate|reflexivity]. Qed.

Lemma demo_timer : timer_layout.
Proof. split; [place|split; [vm_compute; discriminate|reflexivity]|reflexivity|split; vm_compute; discriminate|reflexivity]. Qed.

Lemma demo_kernelvec : placed kernelvec kernelvec_code.
Proof. place. Qed.

Lemma demo_swtch : placed swtch_addr swtch_code.
Proof. place. Qed.

Lemma demo_entry : placed KERNBASE entry_code.
Proof. place. Qed.

(** Pages 0 to 2 are the tables of the process, page 3 its trapframe, pages 4 to 8
    the tables of the kernel, page 9 a kernel stack. *)
Definition RX : Z := Z.lor PTE_R PTE_X.
Definition RW : Z := Z.lor PTE_R PTE_W.
Definition user_T : gmap (list Z) Z := {[ [] := pg 0; [255] := pg 1; [255; 511] := pg 2 ]}.
Definition kern_T : gmap (list Z) Z := {[ [] := pg 4; [255] := pg 5; [255; 511] := pg 6; [2] := pg 7; [2; 0] := pg 8 ]}.
Definition kdata : Z := KERNBASE + 9 * PGSIZE.

Definition table_entry (m : gmap Z Z) (e : Z * Z * Z) : gmap Z Z :=
  let '(p, i, v) := e in store64 m (p + 8 * i) v.

Definition trap_mem : gmap Z Z :=
  foldl table_entry ∅
    [(pg 0, 255, Z.lor (PA2PTE (pg 1)) PTE_V); (pg 1, 511, Z.lor (PA2PTE (pg 2)) PTE_V);
     (pg 2, 511, new_pte trampoline RX); (pg 2, 510, new_pte (pg 3) RW);
     (pg 4, 255, Z.lor (PA2PTE (pg 5)) PTE_V); (pg 5, 511, Z.lor (PA2PTE (pg 6)) PTE_V);
     (pg 6, 511, new_pte trampoline RX); (pg 6, 509, new_pte (pg 9) RW);
     (pg 4, 2, Z.lor (PA2PTE (pg 7)) PTE_V); (pg 7, 0, Z.lor (PA2PTE (pg 8)) PTE_V);
     (pg 8, 5, new_pte kernelvec RX); (pg 8, 6, new_pte swtch_addr RX); (pg 8, 9, new_pte kdata RW);
     (pg 3, 3, 4096); (pg 3, 6, 16384)].

Definition trap_proc : proc := set_p_kstack (KSTACK 3) (set_p_trapframe (pg 3) (set_p_pagetable (pg 0) (set_p_state RUNNING null_proc))).
Definition trap_state : kstate :=
  set_csr (set_r_satp (MAKE_SATP (pg 4)) (csr zero_state)) (set_mem trap_mem
    (set_procs (<[3%nat := trap_proc]> (replicate NPROC null_proc)) (set_cpu (mkCpu (Some 3%nat) 0 true true 1) zero_state))).

Lemma rep_b m root T : vm_b (set_mem m zero_state) root T [] = true → pt_rep m root T.
Proof. intros Hb%vm_b_ok. apply Hb. Qed.

Lemma clear_b T pa n : forallb (λ '(_, p), (p + PGSIZE <=? pa) || (pa + n <=? p)) (map_to_list T) = true → clear_of T pa n.
Proof.
  intros Hb p [path Hp]. pose proof (forallb_map _ _ _ _ Hb Hp) as Hc. simpl in Hc. apply orb_true_iff in Hc as [Hc|Hc]; [left|right]; lia.
Qed.

Lemma maps_b m T vp pp perm : (leaf m T vp =? new_pte pp perm) && (vp mod PGSIZE =? 0) && (0 <=? vp) && (vp <? MAXVA) && (pp mod PGSIZE =? 0) && (0 <=? pp) && (pp <? 2 ^ 56) = true →
  maps m T vp pp perm.
Proof. intros Hb. break_b. by repeat split. Qed.

Lemma trap_user_rep : pt_rep trap_mem (pg 0) user_T.
Proof. apply rep_b. vm_compute. reflexivity. Qed.

Lemma trap_kern_rep : pt_rep trap_mem (pg 4) kern_T.
Proof. apply rep_b. vm_compute. reflexivity. Qed.

Lemma trap_kernel_space : kernel_space trap_mem (pg 4) kern_T (pg 3).
Proof. split; [exact trap_kern_rep|apply maps_b; vm_compute; reflexivity|apply clear_b; vm_compute; reflexivity]. Qed.

Lemma trap_user_space : user_space trap_mem (pg 0) user_T (pg 3).
Proof.
  split; [split|]; [exact trap_user_rep|apply maps_b; vm_compute; reflexivity|apply clear_b; vm_compute; reflexivity|apply maps_b; vm_compute; reflexivity].
Qed.

(** The hart that returns to the process, and one that runs in the kernel. *)
Definition leaving_hart : hart :=
  mkHart (λ r, match r with a0 => TRAPFRAME | a1 => MAKE_SATP (pg 0) | _ => 7 end)
    (λ c, match c with
      | satp => MAKE_SATP (pg 4) | stvec => TRAMPOLINE + (uservec - trampoline) | sepc => 4096 | mstatus => 0x20
      | medeleg => 0xffff | mideleg => 0x222 | _ => 0 end)
    Supervisor (TRAMPOLINE + (userret - trampoline)) (mem (leaving trap_state trap_proc)).

Lemma leaving_hart_of : hart_of leaving_hart (leaving trap_state trap_proc).
Proof. split; vm_compute; reflexivity. Qed.

Definition kernel_hart (pc : Z) (regs : reg → Z) : hart :=
  mkHart regs (λ c, match c with satp => MAKE_SATP (pg 4) | stvec => kernelvec | mstatus => 2 | mideleg => 0x222 | _ => 0 end) Supervisor pc trap_mem.

Lemma kernel_hart_paged pc regs : paged (kernel_hart pc regs) (pg 4) kern_T.
Proof. split; [done|reflexivity|exact trap_kern_rep]. Qed.

(** A page of kernel text, and the page of kernel data. *)
Lemma kernel_hart_text pc regs a n : maps trap_mem kern_T a a RX → n ≤ PGSIZE → fetchable (kernel_hart pc regs) a a n.
Proof.
  intros Hm Hn. pose proof (maps_fetch _ _ _ a a 0 n (kernel_hart_paged pc regs) eq_refl Hm ltac:(lia) ltac:(lia)) as Hf.
  by rewrite !Z.add_0_r in Hf.
Qed.

Lemma kernel_hart_data pc regs o n : 0 ≤ o → o mod 8 = 0 → o + n ≤ PGSIZE → 0 ≤ n → kernel_data (kernel_hart pc regs) (kdata + o) n.
Proof.
  intros Ho Hm Hn Hn0. assert (Hmap : maps trap_mem kern_T kdata kdata RW) by (apply maps_b; vm_compute; reflexivity).
  split; [by apply (maps_area _ _ _ _ _ _ _ (kernel_hart_paged pc regs))|].
  apply (paged_frozen _ _ _ _ _ (kernel_hart_paged pc regs)).
  assert (Hc : clear_of kern_T kdata PGSIZE) by (apply clear_b; vm_compute; reflexivity). intros p Hp. destruct (Hc p Hp); lia.
Qed.

Lemma kernel_hart_stack pc regs : on_stack (kernel_hart pc regs) (pg 4) kern_T (KSTACK 0) (pg 9).
Proof.
  split; [done|apply kernel_hart_paged|apply maps_b; vm_compute; reflexivity|apply clear_b; vm_compute; reflexivity|].
  apply kernel_hart_text; [apply maps_b; vm_compute; reflexivity|vm_compute; discriminate].
Qed.

(** A hart at power on. *)
Definition reset_hart (id : Z) : hart := mkHart (λ _, 0) (λ c, match c with mhartid => id | _ => 0 end) Machine_ KERNBASE ∅.

(** C11: the way to user mode and back. usertrapret() ends in a jump to userret.
    From there the hart gets to user mode at the saved program counter with every
    register that the trapframe holds, with interrupts on, on the page table
    of the process. Whatever the user then does to its registers and its own memory, a trap
    brings the hart to usertrap() in supervisor mode with interrupts off, on the
    kernel's page table, on the kernel stack of the process and with the number of the
    hart in tp; the trapframe holds every register of the user, and sepc,
    scause and stval tell where and why. *)
Theorem user_mode_round `{EnvOk} `{Text} s i p kpt TK TU : let tf := p_trapframe p in
  tramp_layout → cpu_ok (cpu s) → c_proc (cpu s) = Some i → procs s !! i = Some p →
  r_satp (csr s) = MAKE_SATP kpt → kernel_space (mem s) kpt TK tf → user_space (mem s) (p_pagetable p) TU tf →
  0 ≤ usertrap_addr < 2 ^ 64 → 0 ≤ c_id (cpu s) < 2 ^ 64 →
  ∃ s', usertrapret s = Ok (TRAMPOLINE + (userret - trampoline), TRAPFRAME, MAKE_SATP (p_pagetable p)) s' ∧
  ∀ h, hart_of h s' → h_pc h = TRAMPOLINE + (userret - trampoline) → get_reg h a0 = TRAPFRAME → get_reg h a1 = MAKE_SATP (p_pagetable p) →
  ∃ hu, steps 36 h = Some hu ∧ h_mode hu = User ∧ h_pc hu = load64 (mem s) (tf + TF_epc) ∧
    (∀ r, r ≠ zero → get_reg hu r = load64 (mem s) (tf + tf_slot r)) ∧
    bit (h_csr hu mstatus) 1 = true ∧ h_csr hu satp = MAKE_SATP (p_pagetable p) ∧
    (∀ c, c ≠ satp → c ≠ sscratch → c ≠ mstatus → h_csr hu c = h_csr h c) ∧
    ∀ hv cause tval, user_ran hu hv TU TK tf → regs_ok hv → delegated hv cause = true →
    ∃ hk, steps 40 (trap cause tval hv) = Some hk ∧ h_mode hk = Supervisor ∧ h_pc hk = usertrap_addr ∧
      get_reg hk sp = u64 (p_kstack p + PGSIZE) ∧ get_reg hk tp = c_id (cpu s) ∧ h_csr hk satp = MAKE_SATP kpt ∧
      bit (h_csr hk mstatus) 1 = false ∧ bit (h_csr hk mstatus) 8 = false ∧
      h_csr hk sepc = h_pc hv ∧ h_csr hk scause = cause ∧ h_csr hk stval = tval ∧
      (∀ r, r ≠ zero → load64 (h_mem hk) (tf + tf_slot r) = get_reg hv r) ∧
      (∀ a, ¬ (tf ≤ a < tf + PGSIZE) → load8 (h_mem hk) a = load8 (h_mem hv) a).
Proof.
  intros tf L Hc Hi Hp Hsatp HK HU Hut Hid. exists (leaving s p). split; [by apply usertrapret_eq with i|].
  intros h Hh Hpc Ha0 Ha1.
  destruct (leave_spec s p h kpt TK TU L Hh Hpc Ha0 Ha1 Hsatp HK HU) as (hu & Hst & Hm & Hpcu & Hr & Hmem & Hsie & Hss & Hsa & Hstv & Hcs).
  exists hu. split; [done|]. split_and!; try done. intros hv cause tval [Hmv Hcv Htf Htab] Hreg Hd.
  assert (Hkp : page_ok kpt) by (eapply rep_ok, rep_root; apply HK).
  destruct (tf_entry_words (mem s) tf (r_satp (csr s)) (u64 (p_kstack p + PGSIZE)) (c_id (cpu s))) as (W0 & W8 & W16 & W32); try done.
  { rewrite Hsatp. by apply make_satp_range. }
  { apply u64_range. }
  assert (Hw : ∀ o, 0 ≤ o < 512 → load64 (h_mem hv) (tf + 8 * o) = load64 (mem (leaving s p)) (tf + 8 * o)).
  { intros o Ho. rewrite <- Hmem. by apply same_page_load64. }
  pose proof (Hw 0 ltac:(lia)) as H0'. pose proof (Hw 1 ltac:(lia)) as H1'. pose proof (Hw 2 ltac:(lia)) as H2'. pose proof (Hw 4 ltac:(lia)) as H4'.
  assert (HK' : kernel_space (h_mem hv) kpt TK tf).
  { eapply kernel_space_same; [|intros x Hx; apply Htab; by right]. rewrite Hmem. eapply kernel_space_same; [exact HK|].
    intros x Hx. apply (tf_entry_same TK); [apply HK|done]. }
  assert (HU' : user_space (h_mem hv) (p_pagetable p) TU tf).
  { eapply user_space_same; [|intros x Hx; apply Htab; by left]. rewrite Hmem. eapply user_space_same; [exact HU|].
    intros x Hx. apply (tf_entry_same TU); [apply HU|done]. }
  destruct (enter_spec hv cause tval kpt TK (p_pagetable p) TU tf) as (hk & Hsk & Hk); try done; try (by rewrite Hcv).
  { etransitivity; [exact H0'|]. by rewrite <- Hsatp. }
  exists hk. split; [done|]. destruct Hk as (K1 & K2 & K3 & K4 & K5 & K6 & K7 & K8 & K9 & K10 & K11 & K12). split_and!; try done.
  - rewrite K2. etransitivity; [exact H2'|done].
  - rewrite K3. etransitivity; [exact H1'|done].
  - rewrite K4. etransitivity; [exact H4'|done].
Qed.

(** Process 3 goes to user mode and makes a system call. *)
Lemma user_mode_round_witness : ∃ hu hk, steps 36 leaving_hart = Some hu ∧ h_mode hu = User ∧ h_pc hu = 4096 ∧ get_reg hu sp = 16384 ∧
  steps 40 (trap 8 0 hu) = Some hk ∧ h_pc hk = usertrap_addr ∧ load64 (h_mem hk) (pg 3 + 48) = 16384.
Proof.
  destruct (user_mode_round trap_state 3 trap_proc (pg 4) kern_T user_T demo_tramp) as (s' & Hs' & Hrest).
  - split; [vm_compute; discriminate|]. split; [intros _; reflexivity|intros Hn; vm_compute in Hn; discriminate Hn].
  - reflexivity.
  - reflexivity.
  - reflexivity.
  - exact trap_kernel_space.
  - exact trap_user_space.
  - split; [vm_compute; discriminate|reflexivity].
  - split; [vm_compute; discriminate|reflexivity].
  - assert (s' = leaving trap_state trap_proc) as -> by (injection (eq_trans (eq_sym Hs') (usertrapret_eq trap_state 3 trap_proc ltac:(repeat split; (vm_compute; (reflexivity || discriminate))) eq_refl eq_refl)); done).
    destruct (Hrest leaving_hart leaving_hart_of eq_refl eq_refl eq_refl) as (hu & Hst & Hm & Hpc & Hr & _ & _ & Hc & Hin).
    destruct (Hin hu 8 0) as (hk & Hsk & _ & Hpk & _ & _ & _ & _ & _ & _ & _ & _ & Hw & _).
    + split; [exact Hm|reflexivity|intros a _; reflexivity|intros p _ a _; reflexivity].
    + intros r. destruct (decide (r = zero)) as [->|Hz]; [split; [vm_compute; discriminate|reflexivity]|]. rewrite (Hr r Hz).
      destruct r; split; vm_compute; (reflexivity || discriminate).
    + unfold delegated. rewrite Hm, (Hc medeleg) by discriminate. reflexivity.
    + exists hu, hk. split; [exact Hst|]. split; [exact Hm|]. split; [rewrite Hpc; vm_compute; reflexivity|].
      assert (Hsp : get_reg hu sp = 16384) by (rewrite (Hr sp) by discriminate; vm_compute; reflexivity).
      split; [exact Hsp|]. split; [exact Hsk|]. split; [exact Hpk|]. rewrite <- Hsp. apply (Hw sp). discriminate.
Defined.

(** C24: an interrupt of the kernel is invisible to the interrupted code. The hart
    gets from the trap through kernelvec to kerneltrap() with interrupts off and
    every register in a frame below the stack pointer, and no other memory is touched. When
    kerneltrap() returns as a C function does, with sepc and sstatus as it found them, kernelvec goes
    back to the interrupted instruction in supervisor mode with the same registers, stack
    and interrupt state. Only tp may differ: it is the number of the hart that runs now. *)
Theorem kernel_interrupt_transparent `{EnvOk} `{Text} `{Boot} h0 cause tval root T vp pp o :
  placed kernelvec kernelvec_code → kernelvec mod 4 = 0 → 0 ≤ kernelvec → kernelvec + 520 < 2 ^ 64 →
  on_stack h0 root T vp pp → regs_ok h0 → delegated h0 cause = true → h_csr h0 stvec = kernelvec →
  get_reg h0 sp = vp + o + 256 → 0 ≤ o → o mod 8 = 0 → o + 256 ≤ PGSIZE →
  ∃ h1, steps 33 (trap cause tval h0) = Some h1 ∧ h_pc h1 = u64 kerneltrap_addr ∧ h_mode h1 = Supervisor ∧
    bit (h_csr h1 mstatus) 1 = false ∧ bit (h_csr h1 mstatus) 8 = true ∧
    h_csr h1 sepc = h_pc h0 ∧ h_csr h1 scause = cause ∧ h_csr h1 stval = tval ∧
    (∀ a, ¬ (pp + o ≤ a < pp + o + 256) → load8 (h_mem h1) a = load8 (h_mem h0) a) ∧
    ∀ h2, returned h1 h2 T (pp + o) →
    ∃ h3, steps 32 h2 = Some h3 ∧ (∀ r, r ≠ tp → get_reg h3 r = get_reg h0 r) ∧ get_reg h3 tp = get_reg h2 tp ∧
      h_pc h3 = h_pc h0 ∧ h_mode h3 = Supervisor ∧ bit (h_csr h3 mstatus) 1 = bit (h_csr h0 mstatus) 1 ∧ h_mem h3 = h_mem h2.
Proof.
  intros Hpl Hka Hk0 Hk1 Hs Hr Hd Hstv Hsp Ho Hal Hle. unfold trap. rewrite Hd. set (h := trap_s cause tval h0).
  assert (Hst : h_csr h mstatus = set_bit (set_bit (set_bit (h_csr h0 mstatus) 5 (bit (h_csr h0 mstatus) 1)) 1 false) 8 true).
  { unfold h, trap_s. cbn [h_csr set_pc set_mode]. rewrite hcsr_eq, (os_mode _ _ _ _ _ Hs). done. }
  assert (Hs' : on_stack h root T vp pp).
  { eapply (on_stack_ext h0); [done|done|done| |intros x Hx a Ha; reflexivity]. intros k Hk. rewrite Hst, !bit_set_ne by lia. done. }
  assert (Hpc : h_pc h = kernelvec).
  { unfold h, trap_s. simpl h_pc. rewrite Hstv. by apply align4_ldiff. }
  destruct (kernelvec_round h root T vp pp o) as (h1 & Hrun & Hpc1 & Hmode1 & Hcsr1 & Hout & Hback); try done.
  exists h1. split; [done|]. rewrite Hcsr1. split_and!; try done.
  - rewrite Hst, bit_set_ne, bit_set_eq by lia. done.
  - rewrite Hst, bit_set_eq by lia. done.
  - intros h2 Hret. destruct (Hback h2 Hret) as (h3 & Hrun3 & Hregs & Htp3 & Hmem3 & Hpc3 & Hmode3 & Hcsr3).
    exists h3. split; [done|]. assert (Hms : h_csr h2 mstatus = h_csr h mstatus) by (by rewrite (rt_mstatus _ _ _ _ Hret), Hcsr1).
    rewrite Hms, Hst, bit_set_eq in Hmode3 by lia. split_and!; try done.
    + by rewrite Hpc3, (rt_sepc _ _ _ _ Hret), Hcsr1.
    + rewrite Hcsr3. unfold sret. cbn [h_csr set_pc set_mode]. rewrite hcsr_eq, Hms, Hst.
      rewrite !(bit_set_ne _ 8), (bit_set_ne _ 5), bit_set_eq, (bit_set_ne _ 1), bit_set_eq by lia. done.
Qed.

(** A software interrupt in the kernel, on the kernel stack of process 0. *)
Lemma kernel_interrupt_transparent_witness :
  let h0 := kernel_hart (KERNBASE + 9000) (λ r, match r with sp => KSTACK 0 + 4096 | s1 => 11 | _ => 5 end) in
  ∃ h1 h3, steps 33 (trap (2 ^ 63 + 1) 0 h0) = Some h1 ∧ steps 32 (set_pc (get_reg h1 ra) (set_reg tp 6 h1)) = Some h3 ∧
    get_reg h3 s1 = 11 ∧ get_reg h3 tp = 6 ∧ h_pc h3 = KERNBASE + 9000.
Proof.
  intros h0. destruct (kernel_interrupt_transparent h0 (2 ^ 63 + 1) 0 (pg 4) kern_T (KSTACK 0) (pg 9) 3840 demo_kernelvec)
    as (h1 & Hst & _ & Hm & _ & _ & _ & _ & _ & _ & Hback).
  - reflexivity.
  - vm_compute. discriminate.
  - reflexivity.
  - apply kernel_hart_stack.
  - intros r. destruct r; split; vm_compute; (reflexivity || discriminate).
  - reflexivity.
  - reflexivity.
  - reflexivity.
  - lia.
  - reflexivity.
  - vm_compute. discriminate.
  - destruct (Hback (set_pc (get_reg h1 ra) (set_reg tp 6 h1))) as (h3 & Hst3 & Hr & Htp & Hpc & _).
    + split; [exact Hm|reflexivity|reflexivity|reflexivity|reflexivity|reflexivity|intros p _ a _; reflexivity|intros a _; reflexivity].
    + exists h1, h3. split; [exact Hst|]. split; [exact Hst3|]. split; [rewrite (Hr s1) by discriminate; reflexivity|].
      split; [rewrite Htp; apply (get_set_reg_eq tp 6 h1); discriminate|exact Hpc].
Defined.

(** C25: swtch(old, new) runs the thread of [new] from where it had stopped, and a
    later swtch() to [old], on whatever hart, makes the call return to its caller
    with the stack and the registers that a C function keeps. *)
Theorem swtch_resumes `{EnvOk} `{Text} `{Boot} h old new :
  placed swtch_addr swtch_code → 0 ≤ swtch_addr → swtch_addr + 232 < 2 ^ 64 → fetchable h swtch_addr swtch_addr 232 → regs_ok h →
  h_pc h = swtch_addr → get_reg h a0 = old → get_reg h a1 = new → kernel_data h old 112 → kernel_data h new 112 →
  old + 112 ≤ new ∨ new + 112 ≤ old →
  ∃ h1, steps 29 h = Some h1 ∧ h_pc h1 = load64 (h_mem h) (new + 0) ∧
    (∀ r x, (r, x) ∈ ctx_table → get_reg h1 r = load64 (h_mem h) (new + x)) ∧ h_csr h1 = h_csr h ∧ h_mode h1 = h_mode h ∧
    (∀ a, ¬ (old ≤ a < old + 112) → load8 (h_mem h1) a = load8 (h_mem h) a) ∧
    ∀ h2 other, fetchable h2 swtch_addr swtch_addr 232 → h_pc h2 = swtch_addr → get_reg h2 a0 = other → get_reg h2 a1 = old →
      kernel_data h2 other 112 → kernel_data h2 old 112 → other + 112 ≤ old ∨ old + 112 ≤ other →
      (∀ a, old ≤ a < old + 112 → load8 (h_mem h2) a = load8 (h_mem h1) a) →
      ∃ h3, steps 29 h2 = Some h3 ∧ h_pc h3 = get_reg h ra ∧ ∀ r, r ∈ ctx_regs → get_reg h3 r = get_reg h r.
Proof.
  intros Hpl H0' H1' Hf Hr Hpc Ha0 Ha1 Hko Hkn Hd.
  destruct (swtch_spec h old new Hpl H0' H1' Hf Hpc Ha0 Ha1 Hko Hkn) as (h1 & Hst & Hmem & Hregs & Hpc1 & _ & Hcsr & Hmode).
  assert (Hread : ∀ m x y o, (∀ a, x ≤ a < x + 112 → y + 112 ≤ a ∨ a < y) → (∃ r, (r, o) ∈ ctx_table) →
    load64 (save_mem m y ctx_table (h_mem h)) (x + o) = load64 (h_mem h) (x + o)).
  { intros m x y o Hxy [r Hin]. destruct (table_ok_in _ _ _ _ ctx_table_ok Hin) as (X0 & X1 & _).
    apply load64_ext. intros a Ha. apply (save_mem_outside _ _ 112); [apply ctx_table_ok|]. specialize (Hxy a ltac:(lia)). lia. }
  assert (Hra : (ra, 0) ∈ ctx_table) by left.
  assert (Hnew : ∀ r x, (r, x) ∈ ctx_table → get_reg h1 r = load64 (h_mem h) (new + x)).
  { intros r x Hin. rewrite (Hregs r x Hin), Hmem. apply Hread; [intros; lia|by exists r]. }
  exists h1. split; [done|]. split_and!; try done.
  - rewrite Hpc1. by apply Hnew.
  - intros a Ha. rewrite Hmem. apply (save_mem_outside _ _ 112); [apply ctx_table_ok|done].
  - intros h2 other Hf2 Hpc2 Hb0 Hb1 Hk1 Hk2 Hd2 Hsame.
    destruct (swtch_spec h2 other old Hpl H0' H1' Hf2 Hpc2 Hb0 Hb1 Hk1 Hk2) as (h3 & Hst3 & Hmem3 & Hregs3 & Hpc3 & _).
    assert (Hback : ∀ r x, (r, x) ∈ ctx_table → get_reg h3 r = get_reg h r).
    { intros r x Hin. destruct (table_ok_in _ _ _ _ ctx_table_ok Hin) as (X0 & X1 & _). rewrite (Hregs3 r x Hin), Hmem3.
      transitivity (load64 (h_mem h1) (old + x)); [|rewrite Hmem; by apply (save_mem_in _ _ 112); [apply ctx_table_ok|..]].
      apply load64_ext. intros a Ha. rewrite (save_mem_outside _ _ 112); [apply Hsame; lia|apply ctx_table_ok|lia]. }
    exists h3. split; [done|]. split; [rewrite Hpc3; by apply (Hback ra 0)|].
    intros r Hin. destruct (ctx_table_in r Hin) as [x Hx]. by eapply Hback.
Qed.

(** Two contexts in kernel data. *)
Lemma swtch_resumes_witness :
  let h := kernel_hart swtch_addr (λ r, match r with a0 => kdata + 0 | a1 => kdata + 512 | _ => 5 end) in
  ∃ h1, steps 29 h = Some h1 ∧ h_pc h1 = 0 ∧ get_reg h1 s1 = 0 ∧ get_reg h1 t1 = 5.
Proof.
  intros h. destruct (swtch_resumes h (kdata + 0) (kdata + 512) demo_swtch) as (h1 & Hst & Hpc & Hr & _).
  - vm_compute. discriminate.
  - reflexivity.
  - apply kernel_hart_text; [apply maps_b; vm_compute; reflexivity|vm_compute; discriminate].
  - intros r. destruct r; split; vm_compute; (reflexivity || discriminate).
  - reflexivity.
  - reflexivity.
  - reflexivity.
  - apply kernel_hart_data; (lia || reflexivity || (vm_compute; discriminate)).
  - apply kernel_hart_data; (lia || reflexivity || (vm_compute; discriminate)).
  - left. vm_compute. discriminate.
  - exists h1. split; [exact Hst|]. split; [rewrite Hpc; vm_compute; reflexivity|].
    rewrite (Hr s1 24); [|apply list_elem_of_lookup; by exists 3%nat]. split; [vm_compute; reflexivity|].
    assert (Hv : steps 29 h = Some h1) by exact Hst. vm_compute in Hv. injection Hv as <-. reflexivity.
Defined.

(** C23: the timer of a hart. entry.S gives every hart a stack of its own; start()
    gets to main() in supervisor mode with paging off, the number of the hart in tp
    and supervisor interrupts on, and sets up the timer. From then on, at every
    moment, a timer interrupt runs timervec to its end: the interrupted code
    sees no register, no memory of its own and no supervisor state changed,
    MTIMECMP is one interval later, and a software interrupt waits for devintr(). *)
Theorem timer_always_ready `{Text} `{Boot} h0 id : timer_layout → placed KERNBASE entry_code → h_mode h0 = Machine_ → h_pc h0 = KERNBASE →
  h_csr h0 mhartid = id → 0 ≤ id < NCPU → 0 ≤ stack0 → stack0 + 4096 * NCPU < 2 ^ 64 → regs_ok h0 → main_addr mod 2 = 0 →
  ∃ h1, steps 7 h0 = Some h1 ∧ h_pc h1 = u64 start_addr ∧ get_reg h1 sp = stack0 + 4096 * (id + 1) ∧ let hs := start h1 in
    h_mode hs = Supervisor ∧ h_pc hs = main_addr ∧ get_reg hs tp = id ∧ h_csr hs satp = 0 ∧ (∀ k, k ∈ [1; 5; 9] → bit (csr_read hs sie) k = true) ∧
    ∀ h, rtc (life id) hs h → timer_ready id h ∧ h_mode h ≠ Machine_ ∧
      ∃ h', steps 16 (trap MTI 0 h) = Some h' ∧ ticked id h h'.
Proof.
  intros L Hpl Hm Hpc Hid Hr Hs0 Hs1 Hregs Hev.
  destruct (boot_entry_spec h0 id Hpl Hm Hpc Hid Hr Hs0 Hs1 Hregs) as (h1 & Hst & Hregs1 & Hpc1 & Hsp & _ & Hcsr & _).
  exists h1. split_and!; try done.
  destruct (boot_start_spec h1 id L Hregs1) as (Hready & Hms & Hpcs & Htp & _ & Hsatp & _ & Hsie & _); [by rewrite Hcsr|done|done|].
  split_and!; try done. intros h Hlife.
  assert (Hinv : timer_ready id h ∧ h_mode h ≠ Machine_).
  { eapply (rtc_ind_l (λ x, timer_ready id x ∧ h_mode x ≠ Machine_ → timer_ready id h ∧ h_mode h ≠ Machine_) h); [done| |exact Hlife|].
    - intros x y Hxy _ IH Hx. apply IH. by eapply life_ready.
    - split; [done|by rewrite Hms]. }
  destruct Hinv as [Hready' Hne]. split_and!; try done. destruct (tick_spec id h L Hr Hready' Hne) as (h' & Hh' & Htk & _). by exists h'.
Qed.

(** Hart 1 from power on to its first timer interrupt. *)
Lemma timer_always_ready_witness : ∃ h1 h', steps 7 (reset_hart 1) = Some h1 ∧ get_reg h1 sp = stack0 + 8192 ∧
  steps 16 (trap MTI 0 (start h1)) = Some h' ∧ ticked 1 (start h1) h'.
Proof.
  destruct (timer_always_ready (reset_hart 1) 1 demo_timer demo_entry) as (h1 & Hst & _ & Hsp & _ & _ & _ & _ & _ & Hlife).
  - reflexivity.
  - reflexivity.
  - reflexivity.
  - split; [discriminate|reflexivity].
  - vm_compute. discriminate.
  - reflexivity.
  - intros r. destruct r; split; vm_compute; (reflexivity || discriminate).
  - reflexivity.
  - destruct (Hlife (start h1) (rtc_refl _ _)) as (_ & _ & h' & Hh' & Htk).
    exists h1, h'. split; [exact Hst|]. split; [exact Hsp|]. split; [exact Hh'|exact Htk].
Defined.

(** ** What the system call interface promises *)

(** C26: syscall() runs the handler that the table has for the number in a7 and
    leaves its result in a0 of the trapframe. If bit [num] of the trace mask of the
    process is set after the call, the line "<pid>: syscall <name> -> <result>", with
    the numbers in decimal, goes to the serial port, and nothing otherwise. trace(n)
    sets the mask to n, so it reports itself when n asks for it. A number outside
    the table runs nothing: it is reported and the result is -1. *)
Theorem syscall_traced `{Env} pad s i p : let num := s32 (load64 (mem s) (p_trapframe p + TF_a7)) in
  cpu_ok (cpu s) → c_proc (cpu s) = Some i → procs s !! i = Some p →
  (∀ f r s1 p1, syscalls pad num = Some f → f s = Ok r s1 → procs s1 !! i = Some p1 → cpu_ok (cpu s1) → locks s1 !! LkPr = None → - 2 ^ 31 ≤ p_pid p1 < 2 ^ 31 →
    ∃ idle, syscall pad s = Ok tt (says (if Z.testbit (p_trace_mask p1) num then bytes_of (trace_line (p_pid p1) num r) else []) idle (sys_done r p1 s1))) ∧
  (num = 22 → locks s !! LkPr = None → - 2 ^ 31 ≤ p_pid p < 2 ^ 31 → let n := s32 (load64 (mem s) (p_trapframe p + TF_a0)) in
    ∃ idle, syscall pad s = Ok tt (says (if Z.testbit n 22 then bytes_of (trace_line (p_pid p) 22 0) else []) idle
      (sys_done 0 p (set_procs (<[i := set_p_trace_mask n p]> (procs s)) s)))) ∧
  (syscalls pad num = None → locks s !! LkPr = None → - 2 ^ 31 ≤ p_pid p < 2 ^ 31 → Forall (λ c, 0 ≤ c < 256) (p_name p) →
    ∃ idle, syscall pad s = Ok tt (says (unknown_line (p_pid p) (p_name p) num) idle (sys_done (-1) p s))).
Proof.
  intros num Hc Hi Hp. split; [|split].
  - intros f r s1 p1 Hf Hrun Hp1 Hc1 Hl Hpid. by apply (syscall_known pad s i p f num).
  - intros Hnum Hl Hpid n. rewrite <- Hnum.
    destruct (syscall_known pad s i p sys_trace num 0 (set_procs (<[i := set_p_trace_mask n p]> (procs s)) s) (set_p_trace_mask n p)) as (idle & He); try done.
    + by rewrite Hnum.
    + by apply sys_trace_eq.
    + apply list_lookup_insert_eq. by eapply lookup_lt_Some.
    + by exists idle.
  - intros Hf Hl Hpid Hname. by apply (syscall_unknown pad s i p num).
Qed.

(** Process 3 asks for a report of trace() itself. *)
Definition tracer : proc := set_p_trapframe (pg 5) (set_p_pagetable (pg 0) (set_p_pid 7 (set_p_state RUNNING null_proc))).
Definition tracer_state : kstate :=
  set_mem (store64 (store64 demo_mem (pg 5 + TF_a7) 22) (pg 5 + TF_a0) (2 ^ 22))
    (set_procs (<[3%nat := tracer]> (replicate NPROC null_proc)) (set_cpu (mkCpu (Some 3%nat) 0 true true 0) demo_state)).

Lemma syscall_traced_witness : ∃ s', syscall [] tracer_state = Ok tt s' ∧ uart_out (uart s') = bytes_of ("7: syscall trace -> 0" +:+ newline).
Proof.
  destruct (syscall_traced [] tracer_state 3 tracer) as (_ & Htr & _).
  - split; [vm_compute; discriminate|]. split; [intros _; reflexivity|intros Hn; vm_compute in Hn; discriminate Hn].
  - reflexivity.
  - reflexivity.
  - destruct Htr as (idle & He); [vm_compute; reflexivity|reflexivity|split; [discriminate|reflexivity]|].
    eexists. split; [exact He|]. vm_compute. reflexivity.
Defined.

(** C27: sysinfo() writes to the user's struct the number of bytes of free memory,
    which is the length of the free list in pages, and the number of processes
    that are in use, 64 bits each, and returns 0; where the user may not write it
    returns -1. It changes nothing else. *)
Theorem sysinfo_correct `{EnvOk} s i p T fl D l1 l2 : let addr := load64 (mem s) (p_trapframe p + TF_a0) in
  cpu_ok (cpu s) → c_proc (cpu s) = Some i → procs s !! i = Some p → length (procs s) = NPROC →
  uspace s (p_pagetable p) T fl D → sysinfo_bytes s fl = l1 ++ l2 → 0 ≤ addr < 2 ^ 64 →
  (∀ k, 0 ≤ k < Z.of_nat (length l1) → acc (mem s) T D (addr + k)) → (l2 = [] ∨ fault (mem s) T (addr + Z.of_nat (length l1))) →
  ∃ m', sys_sysinfo s = Ok (if decide (l2 = []) then 0 else -1) (set_mem m' s) ∧
    uspace (set_mem m' s) (p_pagetable p) T fl D ∧ (∀ va, leaf m' T va = leaf (mem s) T va) ∧ uwritten D addr l1 (mem s) m'.
Proof. apply sys_sysinfo_eq. Qed.

(** Ten pages are free and one process is in use; the struct is at address 0x400000,
    which is not mapped, and then at address 4096. *)
Definition info_state (addr : Z) : kstate :=
  set_mem (store64 demo_mem (pg 5 + TF_a0) addr)
    (set_procs (<[3%nat := tracer]> (replicate NPROC null_proc)) (set_cpu (mkCpu (Some 3%nat) 0 true true 0) demo_state)).

Lemma sysinfo_correct_witness : ∃ m', sys_sysinfo (info_state 4096) = Ok 0 (set_mem m' (info_state 4096)) ∧
  load8 m' (pg 4 + 1) = 160 ∧ load8 m' (pg 4 + 8) = 1.
Proof.
  destruct (sysinfo_correct (info_state 4096) 3 tracer demo_T demo_fl demo_D (sysinfo_bytes (info_state 4096) demo_fl) []) as (m' & Hrun & _ & _ & [Hw _]).
  - split; [vm_compute; discriminate|]. split; [intros _; reflexivity|intros Hn; vm_compute in Hn; discriminate Hn].
  - reflexivity.
  - reflexivity.
  - reflexivity.
  - apply user_b_ok; vm_compute; reflexivity.
  - symmetry. apply app_nil_r.
  - split; [vm_compute; discriminate|reflexivity].
  - apply acc_b_range. vm_compute. reflexivity.
  - left. reflexivity.
  - exists m'. split; [exact Hrun|]. split; [apply (Hw 1)|apply (Hw 8)]; split; vm_compute; (reflexivity || discriminate).
Defined.
