(* ===== verification/UserProps.v ===== *)
(** * What the user programs promise *)

From Stdlib Require Import ZArith Lia.
From stdpp Require Import base numbers gmap strings countable tactics list.
From S2P Require Import Prelude Machine CString User Ulib Umalloc UmallocTheory Grep Progs Sh ShTheory ShRun.

(** C34: the matcher of grep recognises the language of the pattern. match(re,
    text) is true exactly when the text has a part that is a word of the pattern
    (characters stand for themselves, a dot for any character, c* for any number
    of c), starting at the beginning of the text if the pattern starts with ^ and
    reaching its end if it ends with $. *)
Theorem grep_match_language re text : match_ re text = true ↔ contains (parse_pattern re) text.
Proof. apply match_spec. Qed.

(** C35: grep() writes exactly the lines that match, in order and each with its
    newline, however the reads of the input split it, provided the lines fit in
    its buffer and have no zero byte. Text after the last newline is dropped. *)
Theorem grep_correct re fd buf st w :
  w_fds w !! fd = Some st → healthy st → 1 ∉ w_bad w → length buf = GREP_BUF →
  (∀ c, c ∈ stream_bytes st → c ≠ 0) → fits (stream_bytes st) →
  ∃ buf' w', grep re buf fd w = Done buf' w' ∧
    written 1 w' = written 1 w ++
      concat ((λ l, l ++ [10]) <$> filter (λ l, match_ re l = true) (lines (stream_bytes st)).1).
Proof.
  intros Hfd Hst Hb Hbuf Hnul Hfit. unfold grep. rewrite (reads_left_eq fd w st Hfd).
  destruct (grep_loop re fd (S (length (stream_bytes st))) [] buf st w) as (buf' & w' & Hrun & Hout & _ & _);
    [done|done|lia|done|done|apply not_elem_of_nil|done|done|].
  exists buf', w'. split; [exact Hrun|]. unfold written. rewrite Hout, fmap_app, concat_app. f_equal. f_equal.
  unfold hits. rewrite <- list_fmap_compose. apply list_fmap_ext. intros k l _. simpl. done.
Qed.

(** Two lines that arrive in three pieces. *)
Definition demo_stream : stream := [Some [97; 98]; Some [99; 10; 100]; Some [10; 97]].
Definition demo_world : world := mkWorld {[0 := demo_stream]} [] ∅ [] [] [].

Lemma demo_healthy : healthy demo_stream.
Proof. intros x Hx. repeat (apply elem_of_cons in Hx as [->|Hx]; [by eexists|]). by apply elem_of_nil in Hx. Qed.

Lemma demo_fits : fits (stream_bytes demo_stream).
Proof. split; [repeat constructor|]; vm_compute; lia. Qed.

Lemma grep_correct_witness : ∃ buf' w', grep [98; 46] (replicate GREP_BUF 0) 0 demo_world = Done buf' w' ∧
  written 1 w' = [97; 98; 99; 10].
Proof.
  destruct (grep_correct [98; 46] 0 (replicate GREP_BUF 0) demo_stream demo_world) as (buf' & w' & Hrun & Hout).
  - reflexivity.
  - exact demo_healthy.
  - apply not_elem_of_empty.
  - apply length_replicate.
  - intros c Hc. change (stream_bytes demo_stream) with [97; 98; 99; 10; 100; 10; 97] in Hc.
    rewrite !elem_of_cons, elem_of_nil in Hc. lia.
  - exact demo_fits.
  - exists buf', w'. split; [exact Hrun|exact Hout].
Defined.

(** wc() prints the number of newlines, of words and of bytes of its input,
    in that order and before the name, however the reads split the input. A word
    is a maximal run of characters that are not spaces. *)
Theorem wc_correct fd name st w :
  w_fds w !! fd = Some st → healthy st → 1 ∉ w_bad w → byte_list (cstr name) →
  Z.of_nat (length (stream_bytes st)) < 2 ^ 31 →
  let s := stream_bytes st in
  ∃ w', wc fd name w = Done tt w' ∧
    written 1 w' = written 1 w ++ int_chars (count (λ c, c =? 10) s) 10 true ++ [32] ++
      int_chars (count (word_start s) (seq 0 (length s))) 10 true ++ [32] ++
      int_chars (Z.of_nat (length s)) 10 true ++ [32] ++ cstr name ++ [10].
Proof.
  intros Hfd Hst Hb Hname Hlen s. destruct (wc_spec fd name st w Hfd Hst Hb Hname Hlen) as (w' & Hrun & Hout).
  exists w'. split; [done|]. exact Hout.
Qed.

Lemma wc_correct_witness : ∃ w', wc 0 [102] demo_world = Done tt w' ∧
  written 1 w' = [50; 32; 51; 32; 55; 32; 102; 10].
Proof.
  destruct (wc_correct 0 [102] demo_stream demo_world) as (w' & Hrun & Hout).
  - reflexivity.
  - exact demo_healthy.
  - apply not_elem_of_empty.
  - repeat constructor; lia.
  - vm_compute. reflexivity.
  - exists w'. split; [exact Hrun|exact Hout].
Defined.

(** cat() copies its input to its output, however the reads split it. *)
Lemma cat_correct fd st w :
  w_fds w !! fd = Some st → healthy st → 1 ∉ w_bad w →
  ∃ w', cat fd w = Done tt w' ∧ written 1 w' = written 1 w ++ stream_bytes st ∧ w_fds w' !! fd = Some [].
Proof.
  intros Hfd Hst Hb. unfold cat. rewrite (reads_left_eq fd w st Hfd).
  destruct (cat_loop fd (S (length (stream_bytes st))) st w Hfd Hst ltac:(lia) Hb) as (w' & Hrun & Hout & Hend & _).
  by exists w'.
Qed.

Lemma cat_correct_witness : ∃ w', cat 0 demo_world = Done tt w' ∧ written 1 w' = [97; 98; 99; 10; 100; 10; 97].
Proof.
  destruct (cat_correct 0 demo_stream demo_world) as (w' & Hrun & Hout & _).
  - reflexivity.
  - exact demo_healthy.
  - apply not_elem_of_empty.
  - exists w'. split; [exact Hrun|exact Hout].
Defined.

(** Atoi() reads back what printf("%d") prints, for every int that is not
    negative. *)
Theorem atoi_printint n : 0 ≤ n < 2 ^ 31 → atoi (int_chars n 10 true) = n.
Proof.
  intros Hn. unfold int_chars, atoi. rewrite (proj2 (Z.ltb_ge n 0)) by lia. simpl andb. cbv iota.
  rewrite app_nil_r, u32_small by lia. apply atoi_digits; [done|]. change (10 ^ Z.of_nat 32) with (10 ^ 32). lia.
Qed.

Lemma atoi_printint_witness : atoi (int_chars 2021 10 true) = 2021.
Proof. apply (atoi_printint 2021). lia. Defined.

(** C36: malloc() from any state of the heap ends, and either takes the units it needs
    from a free block, or asks for more memory when no free block is large
    enough and takes them from the enlarged list, or returns 0 when the kernel refuses. The
    new block holds the bytes asked for, shares no byte with a live block, the
    live blocks are as they were, and no unit is lost: freeing the block again
    restores the free list. *)
Theorem malloc_correct base s F A nbytes fuel : let nu := units_for nbytes in
  ready base s F A → 0 ≤ nbytes < 2 ^ 32 → a_brk s + hsize * core_units nu < 2 ^ 31 → (2 * length F + 3 ≤ fuel)%nat →
  nbytes ≤ hsize * (nu - 1) < nbytes + hsize ∧ ∃ ap s', malloc base fuel nbytes s = Some (ap, s') ∧
    ((∃ b, b ∈ F ∧ nu ≤ b.2) ∧ gave base s' F A nu ap ∧ a_brk s' = a_brk s ∨
     (∀ b, b ∈ F → b.2 < nu) ∧ hd false (a_grants s) = true ∧
       gave base s' (insert_block (a_brk s, core_units nu) F) A nu ap ∧ a_brk s' = a_brk s + hsize * core_units nu ∨
     (∀ b, b ∈ F → b.2 < nu) ∧ hd false (a_grants s) = false ∧ ap = 0 ∧ heap base s' F A ∧ a_brk s' = a_brk s).
Proof.
  intros nu Hr Hn Hlim Hfuel. destruct (units_for_spec nbytes Hn) as [Hnu Hby]. split; [exact Hby|]. unfold malloc.
  destruct Hr as [Hh|(Hz & -> & -> & Hb & Hbrk)].
  - destruct (a_freep s =? 0) eqn:E; [exfalso; pose proof (freep_pos base s F A Hh); lia|].
    by apply malloc_loop_spec.
  - rewrite Hz, Z.eqb_refl. by apply (malloc_loop_spec base (set_size base 0 (set_freep base (set_ptr base base s))) [] []); [apply heap_first|..].
Qed.

(** C37: free() of a live block ends and gives its bytes, and no others, to the free
    list, joined with the free blocks it touches, so that the list stays in order
    and without neighbours that touch; the other live blocks are as they were. *)
Theorem free_correct base s F A A' b n fuel : heap base s F A → A ≡ₚ (b, n) :: A' → (S (length F) < fuel)%nat →
  ∃ s', free fuel (b + hsize) s = Some s' ∧ heap base s' (insert_block (b, n) F) A' ∧ a_brk s' = a_brk s ∧
    units (insert_block (b, n) F) = n + units F ∧ ∀ x, cover (insert_block (b, n) F) x = cover [(b, n)] x + cover F x.
Proof.
  intros Hh HA Hfuel. apply (heap_perm base s F _ _ HA) in Hh.
  destruct (free_spec base s F b n A' fuel Hh Hfuel) as (s' & Hrun & Hh' & Hbrk & _). exists s'. split_and!; try done.
  - apply insert_units.
  - intros x. destruct Hh as [_ _ Hb _ _ _ _]. rewrite insert_cover; [simpl; lia| |].
    + destruct (Hb (b, n)) as (_ & ? & _); [apply elem_of_app; right; by left|]. simpl in *. lia.
    + intros c Hc. destruct (Hb c) as (_ & ? & _); [apply elem_of_app; by left|]. lia.
Qed.

Definition demo_arena : arena := mkArena ∅ ∅ 0 16384 [true].

Lemma malloc_correct_witness : ∃ ap s', malloc 8192 3 100 demo_arena = Some (ap, s') ∧ a_brk s' = 16384 + 65536 ∧
  gave 8192 s' [(16384, 4096)] [] 8 ap.
Proof.
  destruct (malloc_correct 8192 demo_arena [] [] 100 3) as (_ & ap & s' & Hrun & Hres).
  - right. split_and!; try reflexivity; unfold hsize; simpl; lia.
  - lia.
  - vm_compute. reflexivity.
  - simpl. lia.
  - exists ap, s'. split; [exact Hrun|]. destruct Hres as [[(b & Hb & _) _]|[(_ & _ & Hg & Hb)|(_ & Hf & _)]].
    + by apply not_elem_of_nil in Hb.
    + split; [exact Hb|exact Hg].
    + discriminate Hf.
Defined.

Lemma free_correct_witness : ∃ s', free 2 (16384 + 16) (set_size 16384 4096 (set_brk 81920 [] (set_size 8192 0 (set_freep 8192 (set_ptr 8192 8192 demo_arena))))) = Some s' ∧
  heap 8192 s' [(16384, 4096)] [].
Proof.
  destruct (free_correct 8192 (set_size 16384 4096 (set_brk 81920 [] (set_size 8192 0 (set_freep 8192 (set_ptr 8192 8192 demo_arena))))) []
    [(16384, 4096)] [] 16384 4096 2) as (s' & Hrun & Hh & _).
  - apply (heap_grown 8192 (set_size 8192 0 (set_freep 8192 (set_ptr 8192 8192 demo_arena))) [] [] 4096 []); [|lia|unfold hsize; simpl; lia].
    apply heap_first; unfold hsize; simpl; lia.
  - reflexivity.
  - simpl. lia.
  - exists s'. split; [exact Hrun|exact Hh].
Defined.

(** ** What the shell promises *)

(** C33: the shell reads back every command. Print any command tree (simple
    commands, redirections, pipes, lists, background jobs, nested in any way,
    with parentheses where they are needed and any white space after the tokens):
    parsecmd() accepts the text, and the tree it builds, with its words read as
    the C strings that nulterminate() leaves in the buffer, is that command. *)
Theorem sh_parse_print sp a :
  Forall (λ c, is_ws c = true) sp → sp ≠ [] → wf a →
  ∃ t b s, parsecmd (print sp false a) = Got (t, b) s ∧ extract b t = a.
Proof. apply parsecmd_print. Qed.

(** [( ls -l | wc ) > out ; echo &], with one space after each token *)
Definition w_ls : list Z := bytes_of "ls".
Definition w_l : list Z := bytes_of "-l".
Definition w_wc : list Z := bytes_of "wc".
Definition w_out' : list Z := bytes_of "out".
Definition w_echo : list Z := bytes_of "echo".
Definition demo_ast : ast :=
  AList (ARedir (APipe (AExec [w_ls; w_l]) (AExec [w_wc])) w_out' REDIR_OUT 1) (ABack (AExec [w_echo])).

Lemma word_b w : w ≠ [] → forallb word_char w = true → word w.
Proof. intros Hn Hf. split; [done|]. rewrite forallb_forall in Hf. apply Forall_forall. intros c Hc. by apply Hf, list_elem_of_In. Qed.

Lemma demo_wf : wf demo_ast.
Proof.
  assert (Hex : ∀ ws, forallb (λ w, negb (bool_decide (w = [])) && forallb word_char w) ws = true →
    (length ws < MAXARGS)%nat → wf (AExec ws)).
  { intros ws Hws Hl. split; [|done]. apply Forall_forall. intros w Hw. rewrite forallb_forall in Hws.
    apply list_elem_of_In, Hws, andb_prop in Hw as [Hn Hw]. apply word_b; [|done]. by apply negb_true_iff, bool_decide_eq_false in Hn. }
  split; [split; [split|]|]; [apply Hex; [done|simpl; unfold MAXARGS; lia]..| |apply Hex; [done|simpl; unfold MAXARGS; lia]].
  split; [by apply word_b|]. right. by left.
Qed.

Lemma sh_parse_print_witness : ∃ t b s, parsecmd (print [32] false demo_ast) = Got (t, b) s ∧ extract b t = demo_ast.
Proof. apply (sh_parse_print [32] demo_ast); [repeat constructor|discriminate|exact demo_wf]. Defined.

(** C38: on any line of input the parser ends: the fuel it is given is always
    enough, and it either complains or returns a command. Every index of that
    command, and so every zero byte nulterminate() writes, is inside the line or
    on its terminator, and no command has MAXARGS arguments or more. *)
Theorem sh_parse_total buf : (∀ c, c ∈ buf → c ≠ 0) →
  (∃ c b s, parsecmd buf = Got (c, b) s ∧ inside buf c ∧ length b = length buf) ∨ (∃ e, parsecmd buf = Bad e).
Proof.
  intros Hnul. destruct (parsecmd_total buf Hnul) as [(c & b & s & Hp & Hi)|Hbad]; [left|by right].
  exists c, b, s. split; [done|]. split; [done|]. unfold parsecmd in Hp.
  destruct (parseline buf (parse_fuel buf) 0) as [c' s'| |]; try done. destruct (peek buf s' EmptyString) as [? s2].
  case_match; [|done]. injection Hp as <- <- _. rewrite nulterminate_cuts. apply length_zero_at.
Qed.

Lemma sh_parse_total_witness :
  (∃ c b s, parsecmd [97; 59; 124] = Got (c, b) s ∧ inside [97; 59; 124] c ∧ length b = 3%nat) ∨
  (∃ e, parsecmd [97; 59; 124] = Bad e).
Proof. apply (sh_parse_total [97; 59; 124]). intros c Hc. rewrite !elem_of_cons, elem_of_nil in Hc. lia. Defined.

(** C39: descriptors of a command. In a pipeline the left side runs with the write
    end of a new pipe as its standard output and the right side with the read end
    as its standard input; both otherwise have exactly the descriptors of the
    shell, which itself has closed both ends when it waits. So, whatever the two
    sides are, only processes on the left keep the write end open and only
    processes on the right the read end: the right side reads to the end of file
    when the left side is gone. A redirection replaces exactly the descriptor it
    names. No process of any command, whichever calls fail, has a descriptor from
    3 on that the shell did not have. *)
Theorem runcmd_descriptors can_open can_exec can_fork a b c file mode fd k t n m :
  let runs := runcmd can_open can_exec can_fork in
  wf a → wf b → wf c → std_open t → t !! n = None → t !! m = None → 0 ≤ n < m → m < Z.of_nat NOFILE →
  (can_fork (0%nat :: k) = true → can_fork (1%nat :: k) = true →
    let left := runs a (0%nat :: k) (<[1 := WriteEnd k]> t) in
    let right := runs b (1%nat :: k) (<[0 := ReadEnd k]> t) in
    let shell := Waits t (Waits t (Exits 0 [] t)) in
    runs (APipe a b) k t = Forks left (Forks right shell) ∧
    ((∀ x, t !! x ≠ Some (WriteEnd k) ∧ t !! x ≠ Some (ReadEnd k)) →
      ¬ keeps right (WriteEnd k) ∧ ¬ keeps left (ReadEnd k) ∧ ¬ keeps shell (WriteEnd k) ∧ ¬ keeps shell (ReadEnd k))) ∧
  (redir_ok (file, mode, fd) → runs (ARedir a file mode fd) k t =
    if can_open file mode then runs a k (<[fd := OpenFile file mode]> t)
    else Exits 1 (bytes_of "open " ++ file ++ bytes_of " failed" ++ [10]) (delete fd t)) ∧
  (∀ tb x, tb ∈ tables (runs c k t) → 3 ≤ x → tb !! x = t !! x).
Proof.
  intros runs Ha Hb Hc Hs Hn Hm Hnm Hmr. apply wf_std_redirs in Ha, Hb, Hc. split_and!.
  - intros Hf0 Hf1. cbv zeta. split.
    + destruct (runcmd_pipe can_open can_exec can_fork a b k t n m Hs Hn Hm Hnm Hmr) as [t' Hrun]. unfold runs. rewrite Hrun.
      unfold fork1. by rewrite Hf0, Hf1.
    + intros Ht. split_and!.
      * eapply (pipe_ends _ _ _ b k 1 t 0 (ReadEnd k) (WriteEnd k) n m); try done; [by right|apply Ht].
      * eapply (pipe_ends _ _ _ a k 0 t 1 (WriteEnd k) (ReadEnd k) n m); try done; [by left|apply Ht].
      * intros (tb & x & Htb & Hx). simpl in Htb. rewrite !elem_of_cons, elem_of_nil in Htb. destruct Htb as [->|[->|[]]]; by apply Ht in Hx.
      * intros (tb & x & Htb & Hx). simpl in Htb. rewrite !elem_of_cons, elem_of_nil in Htb. destruct Htb as [->|[->|[]]]; by apply Ht in Hx.
  - intros [_ Hr]. simpl in Hr. unfold runs. cbn [runcmd]. destruct (can_open file mode) eqn:Hco.
    + rewrite open_over; [done|done|lia|done].
    + unfold t_open. by rewrite Hco.
  - intros tb x Htb Hx. by apply (runcmd_inherits _ _ _ c k t n m tb Hc Hs Hn Hm Hnm Hmr Htb).
Qed.

Definition std_table : table := <[0 := Inherited 0]> (<[1 := Inherited 1]> (<[2 := Inherited 2]> ∅)).

Lemma std_table_ok : std_open std_table.
Proof. intros j Hj. assert (H : j = 0 ∨ j = 1 ∨ j = 2) by lia. by destruct_or! H; subst. Qed.

Lemma exec_wf (w : list Z) : w ≠ [] → forallb word_char w = true → wf (AExec [w]).
Proof. intros Hn Hf. split; [|simpl; unfold MAXARGS; lia]. constructor; [by apply word_b|constructor]. Qed.

Lemma runcmd_descriptors_witness :
  let right := Runs w_wc [w_wc] (<[0 := ReadEnd []]> std_table) in
  runcmd (λ _ _, true) (λ _, true) (λ _, true) (APipe (AExec [w_ls]) (AExec [w_wc])) [] std_table =
  Forks (Runs w_ls [w_ls] (<[1 := WriteEnd []]> std_table))
    (Forks right (Waits std_table (Waits std_table (Exits 0 [] std_table)))) ∧ ¬ keeps right (WriteEnd []).
Proof.
  destruct (runcmd_descriptors (λ _ _, true) (λ _, true) (λ _, true) (AExec [w_ls]) (AExec [w_wc]) (AExec [w_wc]) w_out' REDIR_OUT 1 []
    std_table 3 4) as [Hp _]; [by apply exec_wf..|exact std_table_ok|reflexivity|reflexivity|lia|unfold NOFILE; lia|].
  destruct (Hp eq_refl eq_refl) as [Hrun Hk]. split; [exact Hrun|]. apply Hk. intros x. unfold std_table.
  destruct (decide (x = 0)) as [->|]; [done|]. destruct (decide (x = 1)) as [->|]; [done|]. destruct (decide (x = 2)) as [->|]; [done|].
  by rewrite !lookup_insert_ne by done.
Defined.
